(* ===== verification/_CoqProject ===== *)
-Q . S2P
Prelude.v
Float64.v
Activity.v
Pg.v
Tables.v
Ids.v
Sha256.v
Ledger.v
Outbox.v
Relay.v
Kafka.v
Http.v
Strings.v
Rbac.v
Gateway.v
ProposalLookup.v
ContractParties.v
EscrowStore.v
EscrowService.v
EscrowRules.v
EscrowMeets.v
EscrowInv.v
EscrowProofs.v
EscrowHttp.v
PaymentStore.v
PaymentService.v
PaymentSpec.v
PaymentProofs.v
ContractStore.v
ContractService.v
ContractSpec.v
ContractInv.v
ContractProofs.v
ContractHttp.v
ProposalStore.v
ProposalService.v
ProposalSpec.v
ProposalProofs.v
ProposalHttp.v
Marketplace.v
ProjectStore.v
ProjectProofs.v
AnalyticsStore.v
AnalyticsProofs.v
TrackingStore.v
TrackingProofs.v
Base64.v
Password.v
Token.v
AuthStore.v
AuthService.v
AuthSpec.v
AuthProofs.v
AuthHttp.v
RateLimit.v
Edge.v
NotifyStore.v
NotifyProofs.v
NotifyHttp.v
ReviewStore.v
ReviewProofs.v
MessagingStore.v
MessagingProofs.v
FraudStore.v
FraudProofs.v
UserStore.v
UserProofs.v
AdminStore.v
AdminProofs.v
AdminHttp.v
Envelope.v
ScreenshotStore.v
ScreenshotProofs.v
ScreenshotHttp.v
Search.v
WsHub.v
WsInv.v
WsProofs.v
WsHttp.v
Platform.v
