(* ===== verification/Prelude.v ===== *)
(** * Aizorix marketplace: verification of the Go services

    The marketplace is a set of Go services (src/services/<name>), each with
    its PostgreSQL tables (src/db/migrations), behind a gateway that
    authenticates callers; services tell each other things by HTTP lookups and
    by events that go through a transactional outbox to Kafka.  This library
    embeds the services shallowly: a Go function is a Rocq program
    [prog D E A] over the service's tables [D] that answers an [A] or an error,
    a SQL statement is a function on the rows of a table with the constraints
    of its migration, a handler is the whole route with its early returns.  The
    WebSocket gateway, whose goroutines share memory, is a transition system
    over atomic actions instead.

    ** The files

    Definitions and proofs of one service are in the files that begin with its
    name: XStore (internal/store, and in the smaller services internal/service
    and the consumer's main), XService (internal/service), XSpec (what each
    operation promises, as a relation or function between tables, and the proof
    that it does), XInv and XProofs (invariants of the reachable databases and
    the properties), XHttp (internal/httpapi; in the smaller services this is
    the second part of XProofs).

    - Foundations.  [Prelude]: int64 arithmetic, errors, JSON values, the
      environment of a run ([env]: faults, clock, identifiers, random bytes),
      the worlds and the program monad.  [Pg]: transactions and statements as
      pgx runs them, and the weakest-precondition rules.  [Tables]: keyed row
      tables, sums, upserts, lawful tables, and the one-transaction
      specifications ([settles], [changes]) that operations are proved to meet.
      [Strings]: Go strings, strconv, time formats and PostgreSQL's error texts.
      [Float64]: binary64 with bounds on rounding.  [Http], [Gateway]: net/http
      handlers, decoding into structs and maps, identity headers.  [Ids]: UUIDs
      made in Go.  [Sha256], [Base64].  [Rbac]: services/pkg/rbac.
    - Events.  [Outbox], [Relay]: services/pkg/outbox, the enqueue and the relay,
      with the class [HasOutbox] that a service's tables offer to it.  [Kafka]:
      services/pkg/kafka, the producer and the idempotent consumer, with the
      class [Reliable] that a handler is proved to satisfy.
    - Money.  [Ledger]: the double-entry tables that escrow and payment share.
      Escrow: EscrowStore, EscrowService, EscrowRules, EscrowMeets, EscrowInv,
      EscrowProofs, EscrowHttp.  Payment: PaymentStore, PaymentService,
      PaymentSpec, PaymentProofs.
    - Work.  Contract, Proposal, Project; [ProposalLookup] and
      [ContractParties], the HTTP clients between the services; [Marketplace],
      the services wired together through them.  [Activity], Tracking: the
      scoring of activity and the time sheets.  Screenshot with [Envelope], the
      envelope encryption.  Review.
    - People.  Auth with [Password] and [Token]; User; Admin; Fraud; Notify;
      Messaging.
    - Queries.  Analytics; [Search]: the search service, its two engines behind
      one record of operations ([SearchEngine], with the laws [LawfulEngine]),
      and the consumer that keeps the index.
    - The edge.  [Edge], [RateLimit]: the API gateway (services/gateway).
      [WsHub], [WsInv], [WsProofs], [WsHttp]: the WebSocket gateway
      (services/wsgateway) and services/pkg/config.  [Platform]: requests and
      events that cross several of these.

    ** What the theorems show

    - Refinement: every operation of a service, under any environment, closes
      its transaction and ends in a state its specification allows
      (..._ops_meet_spec); escrow refines a game of moves on pots of money; the
      search index mirrors the events.
    - Money: the ledger balances and agrees with the account balances; funding,
      deposits, webhooks and releases take effect exactly once; money moves only
      for the client of the contract, who is the client of the project.
    - Contracts and proposals: statuses are the replay of the recorded history,
      milestones move one step at a time by the entitled party, contracts say
      what the stored proposal says, one proposal per freelancer and project.
    - Work: a slice bills at most its length however the floats round, scoring
      terminates, time sheets are the sums of the announced sessions;
      screenshots are stored only on a signature of the enrolled device and
      decrypt for whoever may see them; reviews are double-blind.
    - Events: the relay loses, invents and reorders nothing, and drains; the
      consumer handles, dead-letters or leaves every message uncommitted;
      analytics counts every event exactly once.
    - Identity: a refresh token is redeemed at most once and its reuse burns
      the family; repeated failures lock an account; under the headers that
      name the user, services see only identities of verified tokens; the
      limiter, which forgets idle keys, grants no more than its rate;
      administrative acts are recorded; routes change only what their caller
      may, the activation of a contract excepted.
    - Chat: whatever the interleaving, a chat frame reaches only participants of
      its conversation (for ids that a URL leaves unchanged, as UUIDs are), the
      maps of the hub agree, and a payload its reader has taken reaches every
      subscriber that is not closed, which happens to one with a full buffer.
    - Examples and lemmas named after a defect prove that the code has it; they
      are the findings of the manifest.

    ** Assumptions and bounds

    - Transactions are serial; concurrency inside one PostgreSQL transaction
      (isolation, lock waits) is outside the model.  A call may fail in the
      driver at any point, and a failing commit may or may not have taken
      effect ([fault], [ack_lost]).
    - [Driver] errors stand for lost connections, foreign keys on tables of
      other services and malformed UUID texts.  NUMERIC columns are integers in
      units of their last place.
    - Rows are in insertion order, which is the order of created_at and of
      submitted_at; identity columns are in commit order.  Times are UTC.
    - Strings are ASCII; the JSON lexer, the routers (paths are clean), the
      network and Kafka's brokers are outside the model.
    - Third-party code is a parameter, with documented laws where a theorem
      needs them: the JWT, Argon2, AES-GCM, Ed25519 and Stripe libraries, text
      search and the INET type of PostgreSQL, error texts, time.ParseDuration,
      the senders of notifications.  Redis (publish, subscribe, keys with an
      expiry) and OpenSearch (documents by id) do what their documentation
      says, and may fail.
    - float64 arithmetic is IEEE 754 without fused operations, as on amd64; the
      script of the rate limiter is over exact rationals.
    - Goroutines of the WebSocket gateway interleave at the atomic actions of
      [WsHub]: sections under the mutex, selects, and calls.
    - Recursion is structural, or over lists.  Where fuel occurs it is enough:
      the digits of numbers (20 for an int64) and of UUIDs, the rounds of
      Sha256, the rounds of the walk over a slice (proved to be the length
      divided by the step, rounded up), and the pages of a conversation (proved
      to end after as many pages as there are messages, and one).

    ** Not modelled

    Process start-up and shutdown (the mains of the services, apart from what
    they configure), logging, Prometheus metrics and the connection pool: I/O
    without decisions.  The clients of Stripe and S3: calls of third-party SDKs
    behind interfaces that are modelled.  services/tools and the itest packages:
    demonstration data, migrations run by a library, and test databases.  The
    Rust desktop tracker, the web front end and the infrastructure are in other
    languages. *)
From stdpp Require Export base tactics option list strings.
From Stdlib Require Export Ascii ZArith Lia Bool SpecFloat.

Open Scope Z_scope.
#[export] Set Warnings "-register-all".

(** ** Machine integers

    Go's [int64] arithmetic wraps; PostgreSQL's [BIGINT] arithmetic raises
    [numeric_value_out_of_range] instead. *)

Definition int64_min : Z := - 2 ^ 63.
Definition int64_max : Z := 2 ^ 63 - 1.

Definition in_int64 (z : Z) : bool := (int64_min <=? z) && (z <=? int64_max).

(** The two's complement wrap-around of Go's int64 operations. *)
Definition wrap64 (z : Z) : Z := (z + 2 ^ 63) mod 2 ^ 64 - 2 ^ 63.

Definition add64 (a b : Z) : Z := wrap64 (a + b).
Definition sub64 (a b : Z) : Z := wrap64 (a - b).
Definition neg64 (a : Z) : Z := wrap64 (- a).

Lemma in_int64_iff z : in_int64 z = true <-> int64_min <= z <= int64_max.
Proof. unfold in_int64. lia. Qed.

Lemma wrap64_id z : int64_min <= z <= int64_max -> wrap64 z = z.
Proof.
  unfold wrap64, int64_min, int64_max; intros H.
  rewrite Z.mod_small; lia.
Qed.

Lemma wrap64_range z : int64_min <= wrap64 z <= int64_max.
Proof.
  unfold wrap64, int64_min, int64_max.
  pose proof (Z.mod_pos_bound (z + 2 ^ 63) (2 ^ 64)). lia.
Qed.

(** Sums in Go accumulate with wrap-around at each step. *)
Definition sum64 (l : list Z) : Z := fold_left add64 l 0.

(** ** Results and errors *)

(** Errors raised by the database driver or by PostgreSQL. [Driver] is any
    failure the model does not explain (lost connection, foreign key on a table
    of another service, malformed UUID text); [ScanError] is a client-side
    conversion failure, which leaves the transaction usable. *)
Inductive dberr :=
| Driver
| ScanError
| TxAborted
| TxClosed
| TxCommitRollback
| UniqueViolation (constraint_name : string)
| CheckViolation (constraint_name : string)
| NotNullViolation (column : string)
| ForeignKeyViolation (constraint_name : string)
| NumericOutOfRange
| InvalidText.

(** A Go [error] value: one from the database, or one of the sentinels or
    formatted messages [E] of the package. *)
Inductive err (E : Type) :=
| Db (d : dberr)
| Dom (e : E).
Arguments Db {E} d.
Arguments Dom {E} e.

Inductive res (E A : Type) :=
| Ok (a : A)
| Err (e : err E).
Arguments Ok {E A} a.
Arguments Err {E A} e.

Definition is_ok {E A} (r : res E A) : bool :=
  match r with Ok _ => true | Err _ => false end.

(** [isUniqueViolation] of the store packages: SQLSTATE 23505. *)
Definition isUniqueViolation {E} (e : err E) : bool :=
  match e with Db (UniqueViolation _) => true | _ => false end.

(** ** JSON values, for event payloads and HTTP bodies *)

Inductive json :=
| JNull
| JBool (b : bool)
| JInt (z : Z)
| JFloat (f : spec_float)
| JStr (s : string)
| JTime (t : Z)
| JList (l : list json)
| JObj (o : list (string * json)).

Definition jopt {A} (f : A -> json) (o : option A) : json :=
  match o with None => JNull | Some a => f a end.

(** The environment of a run: everything the code cannot control. [tick]
    numbers the calls that consult it. *)
Record env := Env {
  fault : nat -> bool;            (* the call fails in the driver *)
  ack_lost : nat -> bool;         (* a failing commit took effect all the same *)
  clock : nat -> Z;               (* wall clock, in nanoseconds *)
  gen_uuid : nat -> string;       (* PostgreSQL's gen_random_uuid() *)
  rand_read : nat -> option (nat -> Z)  (* crypto/rand.Read: a byte stream, or an error *)
}.

(** A fault-free run. *)
Definition calm (ev : env) : Prop := forall n, fault ev n = false.

(** ** Database worlds and programs *)

(** What a statement can ask of the server: [now()] (the transaction's start
    time) and a fresh [gen_random_uuid()]. *)
Record stamp := Stamp { now : Z; fresh : string }.

Inductive txn (D : Type) :=
| NoTx
| Live (began : Z) (view : D)
| Broken.
Arguments NoTx {D}.
Arguments Live {D} began view.
Arguments Broken {D}.

Record world (D : Type) := World {
  committed : D;
  txs : txn D;
  tick : nat
}.
Arguments World {D} _ _ _.
Arguments committed {D} _.
Arguments txs {D} _.
Arguments tick {D} _.

(** A world at rest: no open transaction. *)
Definition rest {D} (d : D) (n : nat) : world D := World d NoTx n.

(** The outcome of one SQL statement on the tables [D]. *)
Inductive reply (D A : Type) :=
| Done (a : A) (d : D)
| Reject (e : dberr).
Arguments Done {D A} a d.
Arguments Reject {D A} e.

Definition sql (D A : Type) := stamp -> D -> reply D A.

(** Constraints that PostgreSQL checks at COMMIT: [deferred_ok before after]. *)
Class Deferred (D : Type) := deferred_ok : D -> D -> bool.

Definition prog (D E A : Type) := env -> world D -> res E A * world D.

Definition ret {D E A} (a : A) : prog D E A := fun _ w => (Ok a, w).
Definition throw {D E A} (e : err E) : prog D E A := fun _ w => (Err e, w).
Definition fail {D E A} (e : E) : prog D E A := throw (Dom e).

Definition bind {D E A B} (m : prog D E A) (k : A -> prog D E B) : prog D E B :=
  fun ev w =>
    match m ev w with
    | (Ok a, w') => k a ev w'
    | (Err e, w') => (Err e, w')
    end.

(** [attempt m] hands [m]'s error to the code that follows, as Go's
    [v, err := m] does. *)
Definition attempt {D E A} (m : prog D E A) : prog D E (res E A) :=
  fun ev w => let '(r, w') := m ev w in (Ok r, w').

Declare Scope prog_scope.
Delimit Scope prog_scope with prog.
Notation "x <- m ;; k" := (bind m (fun x => k))
  (at level 100, m at next level, right associativity) : prog_scope.
Notation "m ;;; k" := (bind m (fun _ => k))
  (at level 100, right associativity) : prog_scope.
Open Scope prog_scope.
