(* ===== verification/Float64.v ===== *)
(** * float64

    The double-precision arithmetic of Go on amd64, where no operation is
    fused: the operations of the Standard Library's SpecFloat at precision 53,
    with the functions of package math that the services call.  The last
    section bounds rounded results by integers. *)
From S2P Require Export Prelude.

(** ** Operations *)

Definition fadd : spec_float -> spec_float -> spec_float := SFadd 53 1024.
Definition fsub : spec_float -> spec_float -> spec_float := SFsub 53 1024.
Definition fmul : spec_float -> spec_float -> spec_float := SFmul 53 1024.
Definition fdiv : spec_float -> spec_float -> spec_float := SFdiv 53 1024.
Definition fsqrt : spec_float -> spec_float := SFsqrt 53 1024.

Definition flt (x y : spec_float) : bool := SFltb x y.
Definition fle (x y : spec_float) : bool := SFleb x y.
Definition feq (x y : spec_float) : bool := SFeqb x y.

Definition f0 : spec_float := S754_zero false.

(** float64(z) *)
Definition float64 (z : Z) : spec_float := binary_normalize 53 1024 z 0 false.

(** A JSON integer as the nearest float64, ties to even. *)
Definition float_of_int (z : Z) : Z :=
  let a := Z.abs z in
  let unit := 2 ^ Z.max 0 (Z.log2 a - 52) in
  let q := a / unit in
  let r := 2 * (a mod unit) in
  let up := (unit <? r) || ((unit =? r) && Z.odd q) in
  Z.sgn z * ((if up then q + 1 else q) * unit).

(** The literal n/d, correctly rounded. *)
Definition literal (n d : Z) : spec_float := fdiv (float64 n) (float64 d).

(** The integer part of m * 2^e. *)
Definition trunc_pos (m : positive) (e : Z) : Z :=
  if 0 <=? e then Z.pos m * 2 ^ e else Z.pos m / 2 ^ (- e).

(** int(x): truncation; out of range amd64 gives the least int64. *)
Definition int_of_float (x : spec_float) : Z :=
  match x with
  | S754_zero _ => 0
  | S754_finite s m e =>
      let z := trunc_pos m e in
      let z := if s then - z else z in
      if in_int64 z then z else int64_min
  | _ => int64_min
  end.

(** math.Round: the nearest integer, halves away from zero. *)
Definition Round (x : spec_float) : spec_float :=
  match x with
  | S754_finite s m e =>
      if 0 <=? e then x else
      let q := (Z.pos m + 2 ^ (- e - 1)) / 2 ^ (- e) in
      if q =? 0 then S754_zero s else float64 (if s then - q else q)
  | _ => x
  end.

(** math.Min *)
Definition fmin (x y : spec_float) : spec_float :=
  match x, y with
  | S754_infinity true, _ | _, S754_infinity true => S754_infinity true
  | S754_nan, _ | _, S754_nan => S754_nan
  | S754_zero true, S754_zero _ => x
  | S754_zero false, S754_zero _ => y
  | _, _ => if flt x y then x else y
  end.

(** ** math.Log1p

    The algorithm of Go's library (after FreeBSD's s_log1p.c). *)

Definition Sqrt2M1 : spec_float := S754_finite false 7461808180621106 (-54).
Definition Sqrt2HalfM1 : spec_float := S754_finite true 5276295164430439 (-54).
Definition Small : spec_float := S754_finite false 4503599627370496 (-81).
Definition Tiny : spec_float := S754_finite false 4503599627370496 (-106).
Definition Two53 : spec_float := S754_finite false 4503599627370496 1.
Definition Ln2Hi : spec_float := S754_finite false 6243314766446592 (-53).
Definition Ln2Lo : spec_float := S754_finite false 7382048951581814 (-85).
Definition Lp1 : spec_float := S754_finite false 6004799503160723 (-53).
Definition Lp2 : spec_float := S754_finite false 7205759403686404 (-54).
Definition Lp3 : spec_float := S754_finite false 5146971033736025 (-54).
Definition Lp4 : spec_float := S754_finite false 8006390766270639 (-55).
Definition Lp5 : spec_float := S754_finite false 6551322304906206 (-55).
Definition Lp6 : spec_float := S754_finite false 5517391500461727 (-55).
Definition Lp7 : spec_float := S754_finite false 5331612937900612 (-55).
Definition two_thirds : spec_float := S754_finite false 6004799503160661 (-53).
Definition half : spec_float := S754_finite false 4503599627370496 (-53).

(** With 1 + x = 2^k * (1 + f); [iu] is 0 when |f| < 2^-20 and [c] corrects
    the rounding of 1 + x. *)
Definition log1p_sum (k : Z) (f c : spec_float) (iu : Z) : spec_float :=
  let hfsq := fmul (fmul half f) f in
  if iu =? 0 then
    if feq f f0 then
      if k =? 0 then f0
      else fadd (fmul (float64 k) Ln2Hi) (fadd c (fmul (float64 k) Ln2Lo))
    else
      let R := fmul hfsq (fsub (float64 1) (fmul two_thirds f)) in
      if k =? 0 then fsub f R
      else fsub (fmul (float64 k) Ln2Hi) (fsub (fsub R (fadd (fmul (float64 k) Ln2Lo) c)) f)
  else
    let s := fdiv f (fadd (float64 2) f) in
    let z := fmul s s in
    let R := fmul z (fadd Lp1 (fmul z (fadd Lp2 (fmul z (fadd Lp3 (fmul z (fadd Lp4 (fmul z
               (fadd Lp5 (fmul z (fadd Lp6 (fmul z Lp7)))))))))))) in
    if k =? 0 then fsub f (fsub hfsq (fmul s (fadd hfsq R)))
    else fsub (fmul (float64 k) Ln2Hi)
           (fsub (fsub hfsq (fadd (fmul s (fadd hfsq R)) (fadd (fmul (float64 k) Ln2Lo) c))) f).

(** u in [sqrt 2 / 2, sqrt 2] times a power of two; [u] is positive. *)
Definition log1p_reduced (x : spec_float) : spec_float :=
  let large := negb (flt (SFabs x) Two53) in
  let u := if large then x else fadd (float64 1) x in
  match u with
  | S754_finite _ m e =>
      let k := e + 52 in
      let c := if large then f0
               else fdiv (if 0 <? k then fsub (float64 1) (fsub u x) else fsub x (fsub u (float64 1))) u in
      let iu := Z.pos m - 2 ^ 52 in
      if iu <? 0x6a09e667f3bcd then log1p_sum k (fsub (S754_finite false m (-52)) (float64 1)) c iu
      else log1p_sum (k + 1) (fsub (S754_finite false m (-53)) (float64 1)) c ((2 ^ 52 - iu) / 4)
  | _ => S754_nan
  end.

Definition Log1p (x : spec_float) : spec_float :=
  match x with
  | S754_nan => S754_nan
  | S754_infinity true => S754_nan
  | S754_infinity false => x
  | _ =>
      if flt x (float64 (-1)) then S754_nan
      else if feq x (float64 (-1)) then S754_infinity true
      else
        let absx := SFabs x in
        if flt absx Small then
          if flt absx Tiny then x else fsub x (fmul (fmul x x) half)
        else if flt absx Sqrt2M1 && flt Sqrt2HalfM1 x then log1p_sum 0 x f0 1
        else log1p_reduced x
  end.

(** * Bounds on rounded results

    Rounding to nearest never crosses an integer below 2^53: a result whose
    exact value is at most such an integer stays at most it.  [upto n x] says
    that the float is a number between 0 and n. *)
(** m * 2^e <= n, without fractions. *)
Definition below (m e n : Z) : Prop := forall k, 0 <= k -> 0 <= e + k -> m * 2 ^ (e + k) <= n * 2 ^ k.

Definition upto (n : Z) (x : spec_float) : Prop :=
  match x with
  | S754_zero _ => 0 <= n
  | S754_finite false m e => below (Z.pos m) e n
  | _ => False
  end.

(** Mantissas as the operations leave them. *)
Definition narrow (x : spec_float) : Prop :=
  match x with S754_finite _ m _ => Z.pos m < 2 ^ 53 | _ => True end.

(** ** Powers of two *)

Lemma pow2_pos k : 0 <= k -> 0 < 2 ^ k.
Proof. intros. by apply Z.pow_pos_nonneg. Qed.

Lemma pow2_split a b : 0 <= a <= b -> 2 ^ b = 2 ^ a * 2 ^ (b - a).
Proof. intros. rewrite <- Z.pow_add_r by lia. f_equal. lia. Qed.

Lemma below_at m e n k : 0 <= k -> 0 <= e + k -> m * 2 ^ (e + k) <= n * 2 ^ k -> below m e n.
Proof.
  intros Hk He H j Hj Hej.
  destruct (Z.le_ge_cases k j) as [L|L].
  - rewrite (pow2_split (e + k) (e + j)), (pow2_split k j) by lia. replace (e + j - (e + k)) with (j - k) by lia.
    pose proof (pow2_pos (j - k)). rewrite !Z.mul_assoc. apply Z.mul_le_mono_nonneg_r; lia.
  - rewrite (pow2_split (e + j) (e + k)), (pow2_split j k) in H by lia.
    replace (e + k - (e + j)) with (k - j) in H by lia.
    pose proof (pow2_pos (k - j)). rewrite !Z.mul_assoc in H. apply Z.mul_le_mono_pos_r in H; lia.
Qed.

Lemma below_weaken m e n m' n' : m' <= m -> n <= n' -> below m e n -> below m' e n'.
Proof.
  intros Hm Hn H k Hk He. specialize (H k Hk He).
  pose proof (pow2_pos k Hk). pose proof (pow2_pos (e + k) He). nia.
Qed.

(** Moving powers of two between mantissa and exponent. *)
Lemma below_shift m e d n : 0 <= d -> below (m * 2 ^ d) e n <-> below m (e + d) n.
Proof.
  intros Hd. split; intros H.
  - apply below_at with (k := Z.max 0 (- e)); [lia|lia|].
    specialize (H (Z.max 0 (- e)) ltac:(lia) ltac:(lia)).
    replace (e + d + Z.max 0 (- e)) with (d + (e + Z.max 0 (- e))) by lia.
    rewrite Z.pow_add_r by lia. nia.
  - apply below_at with (k := Z.max 0 (- e)); [lia|lia|].
    specialize (H (Z.max 0 (- e)) ltac:(lia) ltac:(lia)).
    replace (e + d + Z.max 0 (- e)) with (d + (e + Z.max 0 (- e))) in H by lia.
    rewrite Z.pow_add_r in H by lia. nia.
Qed.

Lemma digits2_bounds p : 2 ^ (Z.pos (digits2_pos p) - 1) <= Z.pos p < 2 ^ Z.pos (digits2_pos p).
Proof.
  induction p as [p IH|p IH|]; cbn [digits2_pos]; [| |by cbn].
  all: rewrite Pos2Z.inj_succ; set (d := Z.pos (digits2_pos p)) in *;
    replace (Z.succ d - 1) with (Z.succ (d - 1)) by lia; rewrite !Z.pow_succ_r by lia; lia.
Qed.

(** ** Shifting right *)

Lemma iter_pos_nat {A} (f : A -> A) p x : iter_pos f p x = Nat.iter (Pos.to_nat p) f x.
Proof.
  revert x. induction p as [p IH|p IH|]; intros x; cbn [iter_pos]; [| |done].
  - rewrite !IH, Pos2Nat.inj_xI. cbn [Nat.iter]. rewrite <- Nat.iter_add, <- Nat.iter_succ_r. f_equal. lia.
  - rewrite !IH, Pos2Nat.inj_xO, <- Nat.iter_add. f_equal. lia.
Qed.

(** What is kept and what is lost: after [j] bits, the kept part, and nothing
    lost while both flags are false. *)
Definition shifted (m : Z) (j : Z) (r : shr_record) : Prop :=
  0 <= shr_m r /\ shr_m r * 2 ^ j <= m < (shr_m r + 1) * 2 ^ j /\
  (if shr_r r || shr_s r then shr_m r * 2 ^ j < m else m = shr_m r * 2 ^ j).

Lemma shifted_0 m : 0 <= m -> shifted m 0 (Build_shr_record m false false).
Proof. unfold shifted. cbn [shr_m shr_r shr_s orb]. rewrite Z.pow_0_r. lia. Qed.

(** A mantissa and a location stand for the half-integer of numerator [halves]. *)
Definition halves (m : Z) (l : location) : Z := 2 * m + match l with loc_Exact => 0 | loc_Inexact _ => 1 end.

Lemma shifted_loc m l : 0 <= m -> shifted (halves m l) 1 (shr_record_of_loc m l).
Proof. unfold shifted, halves. rewrite Z.pow_1_r. destruct l as [|[]]; cbn [shr_record_of_loc shr_m shr_r shr_s orb]; lia. Qed.

Lemma shr_1_shifted m j r : 0 <= j -> shifted m j r -> shifted m (j + 1) (shr_1 r).
Proof.
  intros Hj (H0 & H1 & H2). unfold shifted. pose proof (pow2_pos j Hj) as Hp.
  rewrite (Z.pow_add_r 2 j 1), Z.pow_1_r by lia.
  destruct r as [[|[p|p|]|p] [] []]; cbn [shr_1 shr_m shr_r shr_s orb] in *; try lia.
  all: rewrite ?(Pos2Z.inj_xI p), ?(Pos2Z.inj_xO p) in *; nia.
Qed.

Lemma iter_shifted m j r n : 0 <= j -> shifted m j r -> shifted m (j + Z.of_nat n) (Nat.iter n shr_1 r).
Proof.
  intros Hj S. induction n as [|n IH]; [by rewrite Z.add_0_r|].
  rewrite Nat2Z.inj_succ. replace (j + Z.succ (Z.of_nat n)) with (j + Z.of_nat n + 1) by lia.
  apply (shr_1_shifted m (j + Z.of_nat n)); [lia|]. exact IH.
Qed.

Lemma shr_shifted m j r0 e n : 0 <= j -> shifted m j r0 ->
  exists r, shr r0 e n = (r, e + Z.max 0 n) /\ shifted m (j + Z.max 0 n) r.
Proof.
  intros Hj S. destruct (Z.le_ge_cases n 0) as [L|L].
  { replace (Z.max 0 n) with 0 by lia. rewrite !Z.add_0_r. exists r0. by destruct n. }
  destruct n as [|p|p]; cbn [shr]; [by eexists; split; rewrite !Z.add_0_r| |lia].
  eexists. split; [f_equal; lia|]. rewrite iter_pos_nat.
  pose proof (iter_shifted m j r0 (Pos.to_nat p) Hj S) as H. rewrite positive_nat_Z in H.
  by replace (Z.max 0 (Z.pos p)) with (Z.pos p) by lia.
Qed.

Lemma shr_exact m e n : 0 <= m ->
  exists r, shr (Build_shr_record m false false) e n = (r, e + Z.max 0 n) /\ shifted m (Z.max 0 n) r.
Proof. intros Hm. apply (shr_shifted m 0); [done|by apply shifted_0]. Qed.

(** ** Rounding *)

Lemma below_digits p e n : below (Z.pos p) e n -> n < 2 ^ 53 -> Z.pos (digits2_pos p) + e <= 53.
Proof.
  intros H Hn. specialize (H (Z.max 0 (- e)) ltac:(lia) ltac:(lia)).
  pose proof (digits2_bounds p) as [D _]. set (d := Z.pos (digits2_pos p)) in *. set (k := Z.max 0 (- e)) in *.
  pose proof (pow2_pos (e + k) ltac:(lia)). pose proof (pow2_pos k ltac:(lia)).
  assert (2 ^ (d - 1 + (e + k)) < 2 ^ (53 + k)) as L.
  { rewrite (Z.pow_add_r 2 (d - 1)), (Z.pow_add_r 2 53) by lia.
    apply Z.le_lt_trans with (n * 2 ^ k); [|by apply Z.mul_lt_mono_pos_r].
    etransitivity; [|exact H]. apply Z.mul_le_mono_nonneg_r; lia. }
  apply Z.pow_lt_mono_r_iff in L; lia.
Qed.

Lemma nearest_even_ge m l : 0 <= m -> m <= round_nearest_even m l <= m + 1.
Proof. destruct l as [|[]]; cbn; [lia| |lia..]. destruct (Z.even m); lia. Qed.

Lemma nearest_even_exact r : shr_r r || shr_s r = false -> round_nearest_even (shr_m r) (loc_of_shr_record r) = shr_m r.
Proof. by destruct r as [m [] []]. Qed.

(** Rounding the part kept by a shift of [j] bits to exponent [e + j]. *)
Lemma nearest_below m e j r n :
  0 <= j -> (shr_r r || shr_s r = true -> e + j <= 0) -> shifted m j r -> below m e n ->
  below (round_nearest_even (shr_m r) (loc_of_shr_record r)) (e + j) n.
Proof.
  intros Hj Hej (H0 & H1 & H2) B.
  destruct (shr_r r || shr_s r) eqn:F.
  2:{ rewrite nearest_even_exact by done. apply below_shift; [done|]. by rewrite <- H2. }
  specialize (Hej eq_refl). pose proof (nearest_even_ge (shr_m r) (loc_of_shr_record r) H0) as N.
  apply below_at with (k := - (e + j)); [lia..|]. replace (e + j + - (e + j)) with 0 by lia.
  specialize (B (- e) ltac:(lia) ltac:(lia)). replace (e + - e) with 0 in B by lia.
  rewrite (pow2_split (- (e + j)) (- e)) in B by lia. replace (- e - - (e + j)) with j in B by lia.
  rewrite Z.mul_assoc, Z.pow_0_r, Z.mul_1_r in B.
  assert (shr_m r * 2 ^ j < n * 2 ^ (- (e + j)) * 2 ^ j) as L by lia.
  apply Z.mul_lt_mono_pos_r in L; [|by apply pow2_pos]. lia.
Qed.

Lemma fexp_64 x : fexp 53 1024 x = Z.max (x - 53) (-1074).
Proof. done. Qed.

Lemma below_halves m l e n : 0 <= m -> below (halves m l) (e - 1) n -> below m e n.
Proof.
  intros Hm B. replace e with (e - 1 + 1) by lia. apply below_shift; [lia|].
  eapply below_weaken; [|reflexivity|exact B]. unfold halves. rewrite Z.pow_1_r. destruct l; lia.
Qed.

Lemma below_nonneg m e n : 0 <= m -> below m e n -> 0 <= n.
Proof.
  intros Hm B. specialize (B (Z.max 0 (- e)) ltac:(lia) ltac:(lia)).
  pose proof (pow2_pos (e + Z.max 0 (- e)) ltac:(lia)). pose proof (pow2_pos (Z.max 0 (- e)) ltac:(lia)). nia.
Qed.

(** Without an odd bit below the point nothing is lost by no shift. *)
Lemma unshifted_exact m l n e r : 0 <= m -> shr (shr_record_of_loc m l) e n = (r, e + Z.max 0 n) ->
  shr_r r || shr_s r = true -> l = loc_Exact -> 0 < Z.max 0 n.
Proof.
  intros Hm E F ->. destruct n as [|p|p]; cbn [shr shr_record_of_loc] in E; [| lia|].
  all: by injection E as <-.
Qed.

(** The second shift only drops bits. *)
Lemma dropped_upto m e n : 0 <= m -> below m e n -> n < 2 ^ 53 -> 
  upto n (let '(r, e') := shr_fexp 53 1024 m e loc_Exact in
          match shr_m r with
          | Z0 => S754_zero false
          | Zpos p => if e' <=? 1024 - 53 then S754_finite false p e' else S754_infinity false
          | _ => S754_nan
          end).
Proof.
  intros Hm B Hn. pose proof (below_nonneg _ _ _ Hm B) as Hn0. unfold shr_fexp, shr_record_of_loc. rewrite fexp_64.
  destruct (shr_exact m e (Z.max (Zdigits2 m + e - 53) (-1074) - e) Hm) as (r & -> & H0 & H1 & _).
  destruct m as [|q|q]; [| |lia].
  { set (j := Z.max 0 _) in *. pose proof (pow2_pos j ltac:(lia)). assert (shr_m r = 0) as -> by nia. exact Hn0. }
  pose proof (below_digits _ _ _ B Hn) as D. cbn [Zdigits2] in *. set (j := Z.max 0 _) in *.
  destruct (shr_m r) as [|q2|q2]; [exact Hn0| |lia].
  replace (e + j <=? 1024 - 53) with true by lia.
  apply below_shift; [lia|]. eapply below_weaken; [exact (proj1 H1)|reflexivity|exact B].
Qed.

Lemma round_loc_upto m e l n : 0 <= m -> (l <> loc_Exact -> e <= 0) -> below (halves m l) (e - 1) n -> n < 2 ^ 53 ->
  upto n (binary_round_aux 53 1024 false m e l).
Proof.
  intros Hm Hl B Hn. unfold binary_round_aux, shr_fexp at 1. rewrite fexp_64.
  pose proof (below_halves _ _ _ _ Hm B) as Bm.
  destruct (shr_shifted (halves m l) 1 (shr_record_of_loc m l) e (Z.max (Zdigits2 m + e - 53) (-1074) - e))
    as (r & E & S); [lia|by apply shifted_loc|]. rewrite E.
  pose proof (unshifted_exact m l _ e r Hm E) as X. set (j := Z.max 0 _) in *.
  assert (shr_r r || shr_s r = true -> e - 1 + (1 + j) <= 0) as Hj.
  { intros F. destruct m as [|p|p]; [| |lia].
    - cbn [Zdigits2] in j. destruct l; [specialize (X F eq_refl)|specialize (Hl ltac:(done))]; lia.
    - pose proof (below_digits _ _ _ Bm Hn) as D. cbn [Zdigits2] in j.
      destruct l; [specialize (X F eq_refl)|specialize (Hl ltac:(done))]; lia. }
  pose proof (nearest_below (halves m l) (e - 1) (1 + j) r n ltac:(lia) Hj S B) as B1.
  replace (e - 1 + (1 + j)) with (e + j) in B1 by lia.
  apply dropped_upto; [|exact B1|done].
  pose proof (nearest_even_ge (shr_m r) (loc_of_shr_record r) (proj1 S)). pose proof (proj1 S). lia.
Qed.

Lemma round_aux_upto p e n : below (Z.pos p) e n -> n < 2 ^ 53 ->
  upto n (binary_round_aux 53 1024 false (Z.pos p) e loc_Exact).
Proof.
  intros B Hn. apply round_loc_upto; [lia|done| |done]. unfold halves. rewrite Z.add_0_r, Z.mul_comm.
  rewrite <- (Z.pow_1_r 2) at 1. apply below_shift; [lia|]. by replace (e - 1 + 1) with e by lia.
Qed.

(** The mantissa of a rounded result has at most 53 digits. *)
Lemma shr_1_nonneg r : 0 <= shr_m r -> 0 <= shr_m (shr_1 r).
Proof. destruct r as [[|[p|p|]|p] [] []]; cbn; lia. Qed.

Lemma shr_nonneg r e n : 0 <= shr_m r -> 0 <= shr_m (fst (shr r e n)).
Proof.
  intros H. destruct n as [|p|p]; cbn [shr fst]; [done| |done]. rewrite iter_pos_nat.
  induction (Pos.to_nat p) as [|k IH]; [done|]. by apply shr_1_nonneg.
Qed.

Lemma round_aux_narrow s m e l : 0 <= m -> narrow (binary_round_aux 53 1024 s m e l).
Proof.
  intros Hm. unfold binary_round_aux, shr_fexp at 1. set (r0 := shr_record_of_loc m l).
  assert (0 <= shr_m r0) as R0 by (by destruct l as [|[]]).
  pose proof (shr_nonneg r0 e (fexp 53 1024 (Zdigits2 m + e) - e) R0) as R1. destruct (shr _ _ _) as [r1 e1].
  cbn [fst] in R1. pose proof (nearest_even_ge (shr_m r1) (loc_of_shr_record r1) R1) as G.
  set (m1 := round_nearest_even _ _) in *. clearbody m1. unfold shr_fexp, shr_record_of_loc. rewrite fexp_64.
  destruct (shr_exact m1 e1 (Z.max (Zdigits2 m1 + e1 - 53) (-1074) - e1) ltac:(lia)) as (r2 & -> & H0 & H1 & _).
  set (j := Z.max 0 _) in *. destruct (shr_m r2) as [|q|q]; [done| |done].
  destruct (_ <=? _); [|done]. cbn [narrow].
  destruct m1 as [|p|p]; [pose proof (pow2_pos j ltac:(lia)); nia| |lia].
  pose proof (digits2_bounds p) as [_ D]. cbn [Zdigits2] in j. set (d := Z.pos (digits2_pos p)) in *.
  assert (2 ^ d <= 2 ^ (53 + j)) as L by (apply Z.pow_le_mono_r; lia).
  rewrite Z.pow_add_r in L by lia.
  assert (Z.pos q * 2 ^ j < 2 ^ 53 * 2 ^ j) as M by lia.
  apply Z.mul_lt_mono_pos_r in M; [done|]. apply pow2_pos. lia.
Qed.

(** ** Operations *)

Lemma upto_weaken n n' x : n <= n' -> upto n x -> upto n' x.
Proof.
  intros Hn. destruct x as [s|s| |[] m e]; cbn [upto]; try done; [lia|].
  by apply below_weaken.
Qed.

Lemma upto_nonneg n x : upto n x -> 0 <= n.
Proof.
  destruct x as [s|s| |[] m e]; cbn [upto]; try done. by apply below_nonneg.
Qed.

Lemma iter_xO m d : Z.pos (Pos.iter xO m d) = Z.pos m * 2 ^ Z.pos d.
Proof.
  induction d as [|d IH] using Pos.peano_ind; [cbn; lia|].
  rewrite Pos.iter_succ, Pos2Z.inj_succ, Z.pow_succ_r, Pos2Z.inj_xO, IH by lia. lia.
Qed.

(** Aligning to a lower exponent keeps the value. *)
Lemma shl_align_value m e e' n :
  e' <= e -> below (Z.pos (fst (shl_align m e e'))) e' n <-> below (Z.pos m) e n.
Proof.
  intros He. unfold shl_align. destruct (e' - e) as [|d|d] eqn:E; cbn [fst]; [| lia|].
  - by replace e' with e by lia.
  - rewrite iter_xO, below_shift by lia. by replace (e' + Z.pos d) with e by lia.
Qed.

Lemma round_upto p e n : below (Z.pos p) e n -> n < 2 ^ 53 -> upto n (binary_round 53 1024 false p e).
Proof.
  intros B Hn. unfold binary_round, shl_align. destruct (_ - e) as [|d|d] eqn:E; [by apply round_aux_upto..|].
  apply round_aux_upto; [|done]. rewrite iter_xO, below_shift by lia.
  match type of E with ?f - e = _ => by replace f with (e + Z.neg d) in * by lia; replace (e + Z.neg d + Z.pos d) with e by lia end.
Qed.

Lemma float64_upto n : 0 <= n < 2 ^ 53 -> upto n (float64 n).
Proof.
  intros H. unfold float64. destruct n as [|p|p]; cbn [binary_normalize upto]; [lia| |lia].
  apply round_upto; [|lia]. apply below_at with (k := 0); lia.
Qed.

Lemma fmul_upto a b x y : upto a x -> upto b y -> a * b < 2 ^ 53 -> upto (a * b) (fmul x y).
Proof.
  intros Hx Hy Hab. pose proof (upto_nonneg _ _ Hx). pose proof (upto_nonneg _ _ Hy).
  destruct x as [s|s| |[] m e], y as [s'|s'| |[] m' e']; try done; cbn [fmul SFmul upto]; try lia.
  apply round_aux_upto; [|done]. cbn [upto] in Hx, Hy.
  specialize (Hx (Z.max 0 (- e)) ltac:(lia) ltac:(lia)). specialize (Hy (Z.max 0 (- e')) ltac:(lia) ltac:(lia)).
  set (k := Z.max 0 (- e)) in *. set (k' := Z.max 0 (- e')) in *.
  apply below_at with (k := k + k'); [lia..|].
  replace (e + e' + (k + k')) with (e + k + (e' + k')) by lia. rewrite (Z.pow_add_r 2 (e + k)), (Z.pow_add_r 2 k), Pos2Z.inj_mul by lia.
  pose proof (pow2_pos (e + k) ltac:(lia)). pose proof (pow2_pos (e' + k') ltac:(lia)).
  transitivity (Z.pos m * 2 ^ (e + k) * (Z.pos m' * 2 ^ (e' + k'))); [lia|].
  transitivity (a * 2 ^ k * (b * 2 ^ k')); [|lia].
  apply Z.mul_le_mono_nonneg; lia.
Qed.

Lemma below_add m m' e n n' : below m e n -> below m' e n' -> below (m + m') e (n + n').
Proof. intros H H' k Hk He. specialize (H k Hk He). specialize (H' k Hk He). lia. Qed.

Lemma fadd_upto a b x y : upto a x -> upto b y -> a + b < 2 ^ 53 -> upto (a + b) (fadd x y).
Proof.
  intros Hx Hy Hab. pose proof (upto_nonneg _ _ Hx). pose proof (upto_nonneg _ _ Hy).
  destruct x as [s|s| |[] m e], y as [s'|s'| |[] m' e']; try done; cbn [fadd SFadd].
  - by destruct s, s'; cbn; lia.
  - eapply upto_weaken; [|exact Hy]. lia.
  - eapply upto_weaken; [|exact Hx]. lia.
  - cbn [cond_Zopp]. rewrite <- Pos2Z.inj_add. cbn [binary_normalize]. apply round_upto; [|done].
    rewrite Pos2Z.inj_add. apply below_add; apply shl_align_value; (done || lia).
Qed.

Lemma fdiv_narrow x y : narrow (fdiv x y).
Proof.
  destruct x as [s|s| |s m e], y as [s'|s'| |s' m' e']; try done. cbn [fdiv SFdiv].
  unfold SFdiv_core_binary. set (e0 := Z.min _ _).
  match goal with |- context [Z.div_eucl ?a _] => set (m0 := a) end.
  assert (0 <= m0) as H0 by (subst m0; destruct (e - e' - e0); [lia| |lia]; apply Z.shiftl_nonneg; lia).
  pose proof (Z.div_pos m0 (Z.pos m') H0 ltac:(lia)) as Q. unfold Z.div in Q.
  destruct (Z.div_eucl m0 (Z.pos m')) as [q r]. by apply round_aux_narrow.
Qed.

(** What is positive and not above one. *)
Lemma fmin_one_upto z : narrow z -> flt f0 (fmin (float64 1) z) = true -> upto 1 (fmin (float64 1) z).
Proof.
  intros N. change (float64 1) with (S754_finite false 4503599627370496 (-52)).
  destruct z as [s|[]| |s m e]; try done.
  { intros _. cbn [fmin flt SFltb SFcompare]. apply below_at with (k := 52); [lia|lia|done]. }
  cbn [fmin]. destruct (flt (S754_finite false _ _) _) eqn:L.
  { intros _. apply below_at with (k := 52); [lia|lia|done]. }
  destruct s; [done|]. intros _. cbn [upto]. cbn [narrow] in N.
  unfold flt, SFltb, SFcompare in L. destruct (Z.compare_spec (-52) e) as [<-|C|C]; [|done|].
  - apply below_at with (k := 52); [lia..|]. change (-52 + 52) with 0. rewrite Z.pow_0_r, Z.mul_1_r, Z.mul_1_l.
    change (Pos.compare_cont Eq 4503599627370496 m) with (Pos.compare 4503599627370496 m) in L.
    change (2 ^ 52) with (Z.pos 4503599627370496).
    destruct (Pos.compare_spec 4503599627370496 m) as [<-|H|H]; [reflexivity|discriminate L|].
    by apply Z.lt_le_incl.
  - apply below_at with (k := - e); [lia..|]. replace (e + - e) with 0 by lia. rewrite Z.pow_0_r, Z.mul_1_r, Z.mul_1_l.
    assert (2 ^ 53 <= 2 ^ (- e)) by (apply Z.pow_le_mono_r; lia). lia.
Qed.

Lemma trunc_pos_upto m e n : below (Z.pos m) e n -> 0 <= trunc_pos m e <= n.
Proof.
  intros B. unfold trunc_pos. destruct (Z.leb_spec 0 e).
  - specialize (B 0 ltac:(lia) ltac:(lia)). rewrite Z.add_0_r, Z.pow_0_r in B. pose proof (pow2_pos e H). nia.
  - specialize (B (- e) ltac:(lia) ltac:(lia)). replace (e + - e) with 0 in B by lia.
    pose proof (pow2_pos (- e) ltac:(lia)). split; [apply Z.div_pos; lia|].
    apply Z.div_le_upper_bound; lia.
Qed.

Lemma int_of_float_upto n x : upto n x -> n < 2 ^ 53 -> 0 <= int_of_float x <= n.
Proof.
  destruct x as [s|s| |[] m e]; cbn [upto int_of_float]; try done; intros B Hn.
  pose proof (trunc_pos_upto _ _ _ B). unfold in_int64, int64_min, int64_max.
  replace (_ && _) with true by lia. done.
Qed.

Lemma Round_upto n x : upto n x -> n < 2 ^ 53 -> upto n (Round x).
Proof.
  intros U Hn. pose proof (upto_nonneg _ _ U). destruct x as [s|s| |[] m e]; try done. cbn [upto] in U.
  unfold Round. destruct (Z.leb_spec 0 e); [exact U|].
  pose proof (pow2_pos (- e - 1) ltac:(lia)). set (q := (_ + _) / _).
  specialize (U (- e) ltac:(lia) ltac:(lia)). replace (e + - e) with 0 in U by lia.
  assert (2 ^ (- e) = 2 * 2 ^ (- e - 1)) as E by (rewrite <- Z.pow_succ_r by lia; f_equal; lia).
  assert (0 <= q <= n) as Q.
  { subst q. split; [apply Z.div_pos; lia|]. apply Z.lt_succ_r, Z.div_lt_upper_bound; lia. }
  destruct (_ =? _); [done|]. eapply upto_weaken; [|apply float64_upto]; lia.
Qed.

(** ** Division *)

Definition atleast (b : Z) (y : spec_float) : Prop :=
  match y with
  | S754_finite false m e => forall k, 0 <= k -> 0 <= e + k -> b * 2 ^ k <= Z.pos m * 2 ^ (e + k)
  | _ => False
  end.

Lemma pow_shift p q x y t : 0 <= x -> 0 <= y -> 0 <= x + t -> 0 <= y + t ->
  p * 2 ^ x <= q * 2 ^ y -> p * 2 ^ (x + t) <= q * 2 ^ (y + t).
Proof.
  intros Hx Hy Hxt Hyt H. destruct (Z.le_ge_cases 0 t) as [T|T].
  - rewrite !Z.pow_add_r, !Z.mul_assoc by lia. apply Z.mul_le_mono_nonneg_r; [|done]. apply Z.pow_nonneg. lia.
  - rewrite (pow2_split (x + t) x), (pow2_split (y + t) y), !Z.mul_assoc in H by lia.
    replace (y - (y + t)) with (x - (x + t)) in H by lia.
    apply Z.mul_le_mono_pos_r in H; [done|]. apply pow2_pos. lia.
Qed.

(** The quotient of the values, as mantissas aligned to exponent [e0]. *)
Lemma quotient_below a b c m e m' e' e0 :
  0 < b -> 0 <= c -> a <= c * b -> below (Z.pos m) e a -> atleast b (S754_finite false m' e') ->
  e0 <= 0 -> e0 <= e - e' -> Z.pos m * 2 ^ (e - e' - e0) <= c * Z.pos m' * 2 ^ (- e0).
Proof.
  intros Hb Hc Hac B A H0 H1. cbn [atleast] in A.
  specialize (B (Z.max 0 (- e)) ltac:(lia) ltac:(lia)). specialize (A (Z.max 0 (- e')) ltac:(lia) ltac:(lia)).
  set (k := Z.max 0 (- e)) in *. set (k' := Z.max 0 (- e')) in *.
  replace (e - e' - e0) with (e + k + k' + (- e' - e0 - k - k')) by lia.
  replace (- e0) with (k + (e' + k') + (- e' - e0 - k - k')) by lia.
  apply pow_shift; [lia..|]. rewrite (Z.pow_add_r 2 (e + k)), (Z.pow_add_r 2 k) by lia.
  pose proof (pow2_pos k ltac:(lia)). pose proof (pow2_pos k' ltac:(lia)).
  transitivity (c * b * 2 ^ k * 2 ^ k').
  - rewrite Z.mul_assoc. apply Z.mul_le_mono_nonneg_r; [lia|]. etransitivity; [exact B|].
    apply Z.mul_le_mono_nonneg_r; lia.
  - transitivity (c * 2 ^ k * (b * 2 ^ k')); [lia|].
    transitivity (c * 2 ^ k * (Z.pos m' * 2 ^ (e' + k'))); [|lia].
    apply Z.mul_le_mono_nonneg_l; nia.
Qed.

Lemma quotient_digits c m e m' e' : c < 2 ^ 53 ->
  (forall e0, e0 <= 0 -> e0 <= e - e' -> Z.pos m * 2 ^ (e - e' - e0) <= c * Z.pos m' * 2 ^ (- e0)) ->
  Zdigits2 (Z.pos m) + e - (Zdigits2 (Z.pos m') + e') <= 53.
Proof.
  intros Hc H. cbn [Zdigits2]. pose proof (digits2_bounds m) as [L _]. pose proof (digits2_bounds m') as [_ U].
  set (d := Z.pos (digits2_pos m)) in *. set (d' := Z.pos (digits2_pos m')) in *.
  specialize (H (Z.min 0 (e - e')) ltac:(lia) ltac:(lia)). set (e0 := Z.min 0 (e - e')) in *.
  pose proof (pow2_pos (- e0) ltac:(lia)). pose proof (pow2_pos (e - e' - e0) ltac:(lia)).
  assert (2 ^ (d - 1 + (e - e' - e0)) < 2 ^ (53 + d' + - e0)) as P.
  { rewrite (Z.pow_add_r 2 (d - 1)), (Z.pow_add_r 2 (53 + d')), (Z.pow_add_r 2 53) by lia.
    apply Z.le_lt_trans with (c * Z.pos m' * 2 ^ (- e0)).
    - etransitivity; [|exact H]. apply Z.mul_le_mono_nonneg_r; lia.
    - apply Z.mul_lt_mono_pos_r; [done|]. nia. }
  apply Z.pow_lt_mono_r_iff in P; lia.
Qed.

Lemma new_location_exact n r : new_location n r = loc_Exact <-> r = 0.
Proof.
  unfold new_location, new_location_even, new_location_odd.
  destruct (Z.even n), (Z.eqb_spec r 0); split; intros; try done.
Qed.

Lemma fdiv_upto a b c x y : 0 < b -> 0 <= c < 2 ^ 53 -> a <= c * b -> upto a x -> atleast b y -> upto c (fdiv x y).
Proof.
  intros Hb Hc Hac Hx Hy.
  destruct y as [s'|s'| |[] m' e']; try done. destruct x as [s|s| |[] m e]; try done; [cbn; lia|].
  cbn [fdiv SFdiv xorb]. unfold SFdiv_core_binary. cbn [upto] in Hx.
  pose proof (fun e0 => quotient_below a b c m e m' e' e0 Hb ltac:(lia) Hac Hx Hy) as Q.
  pose proof (quotient_digits c m e m' e' ltac:(lia) Q) as D.
  set (e0 := Z.min _ _). assert (e0 <= 0 /\ e0 <= e - e') as [E0 E1] by (subst e0; rewrite fexp_64; lia).
  match goal with |- context [Z.div_eucl ?a _] => replace a with (Z.pos m * 2 ^ (e - e' - e0)) end.
  2:{ destruct (e - e' - e0) eqn:E; [lia| |lia]. by rewrite Z.shiftl_mul_pow2 by lia. }
  specialize (Q e0 E0 E1). set (mm := Z.pos m * 2 ^ (e - e' - e0)) in *.
  assert (0 <= mm) as Hmm by (subst mm; pose proof (pow2_pos (e - e' - e0) ltac:(lia)); lia).
  pose proof (Z.div_eucl_eq mm (Z.pos m') ltac:(lia)) as DE. pose proof (Z.mod_pos_bound mm (Z.pos m') ltac:(lia)) as MB.
  pose proof (Z.div_pos mm (Z.pos m') Hmm ltac:(lia)) as DP. unfold Z.div in DP. unfold Z.modulo in MB.
  destruct (Z.div_eucl mm (Z.pos m')) as [q r]. pose proof (new_location_exact (Z.pos m') r) as NL.
  pose proof (pow2_pos (- e0) ltac:(lia)).
  apply round_loc_upto; [done|done| |lia].
  apply below_at with (k := 1 - e0); [lia..|]. replace (e0 - 1 + (1 - e0)) with 0 by lia.
  replace (1 - e0) with (Z.succ (- e0)) by lia. rewrite Z.pow_succ_r, Z.pow_0_r by lia. unfold halves.
  destruct (new_location (Z.pos m') r) eqn:L.
  - assert (q <= c * 2 ^ (- e0)); [|lia]. assert (r = 0) by (by apply NL). nia.
  - assert (q < c * 2 ^ (- e0)); [|lia]. assert (r <> 0) by (intros R; by apply NL in R). nia.
Qed.
