(* ===== verification/Activity.v ===== *)
(** * Activity scoring (services/timetracking/internal/activity)

    From the samples of a slice to its billable seconds, its idle seconds, its
    percentage and the signs of automation.  Times and durations are
    nanoseconds; floats are those of [Float64].  The loop over the slice runs on
    fuel, as many rounds as the slice has seconds; [compute_returns] shows that
    this is enough. *)
From stdpp Require Export gmap.
From S2P Require Export Float64.

Record Params := mkParams {
  SliceSeconds : Z;
  SampleSeconds : Z;
  IdleThreshold : Z;
  WeightKeyboard : spec_float;
  WeightMouse : spec_float;
  WeightDistance : spec_float;
  SaturateKB : spec_float;
  SaturateMouse : spec_float;
  SaturateDist : spec_float;
  ActiveFloor : spec_float;
  FullActiveAt : spec_float;
  ExcusedIdleCap : spec_float
}.

Definition DefaultParams : Params := Eval vm_compute in
  mkParams 600 60 300 (literal 5 10) (literal 3 10) (literal 2 10) (float64 120) (float64 90) (float64 8000)
    (literal 8 100) (literal 5 10) (literal 25 100).

Definition billableFraction (p : Params) (intensity : spec_float) : spec_float :=
  if flt intensity (ActiveFloor p) then f0 else
  let span := fsub (FullActiveAt p) (ActiveFloor p) in
  if fle span f0 then float64 1 else
  fmin (float64 1) (fdiv (fsub intensity (ActiveFloor p)) span).

Record Sample := mkSample {
  At : Z;
  KeyboardCount : Z;
  MouseCount : Z;
  MouseDistance : Z
}.

Record SliceResult := mkSliceResult {
  ActivityPct : Z;
  ActiveSeconds : Z;
  IdleSeconds : Z;
  Suspicious : bool;
  SuspectReasons : list string
}.

Definition no_result : SliceResult := mkSliceResult 0 0 0 false [].

(** The closure f of Intensity. *)
Definition saturating (x sat : spec_float) : spec_float :=
  if fle sat f0 then f0 else fmin (float64 1) (fdiv (Log1p x) (Log1p sat)).

Definition Intensity (p : Params) (s : Sample) : spec_float :=
  let v := fadd (fadd (fmul (WeightKeyboard p) (saturating (float64 (KeyboardCount s)) (SaturateKB p)))
                      (fmul (WeightMouse p) (saturating (float64 (MouseCount s)) (SaturateMouse p))))
                (fmul (WeightDistance p) (saturating (float64 (MouseDistance s)) (SaturateDist p))) in
  fmin (float64 1) v.

(** t.Sub(u): the difference, clamped to the range of a Duration. *)
Definition duration (t u : Z) : Z := Z.max int64_min (Z.min int64_max (t - u)).

Definition nanos_per_second : Z := 1000000000.

(** d.Seconds() *)
Definition Seconds (d : Z) : spec_float :=
  fadd (float64 (Z.quot d nanos_per_second)) (fdiv (float64 (Z.rem d nanos_per_second)) (float64 nanos_per_second)).

Definition seconds_between (start stop : Z) : Z := int_of_float (Seconds (duration stop start)).

Definition score (s : Sample) : Z :=
  add64 (add64 (KeyboardCount s) (MouseCount s)) (Z.quot (MouseDistance s) 100).

(** One round of bucketSamples: of two samples in a bucket the busier stays. *)
Definition bucket_sample (start step : Z) (m : gmap Z Sample) (s : Sample) : gmap Z Sample :=
  let idx := Z.quot (seconds_between start (At s)) step in
  if idx <? 0 then m else
  match m !! idx with
  | Some existing => if score existing <? score s then <[idx := s]> m else m
  | None => <[idx := s]> m
  end.

Definition bucketSamples (samples : list Sample) (start step : Z) : gmap Z Sample :=
  fold_left (bucket_sample start step) samples ∅.

(** math.Sqrt(variance)/mean < 0.01 over at least five intensities, half of
    them non-trivial. *)
Definition sum_floats (xs : list spec_float) : spec_float := fold_left fadd xs f0.

Definition isTooUniform (xs : list spec_float) : bool :=
  let n := Z.of_nat (length xs) in
  if n <? 5 then false else
  let nonzero := Z.of_nat (length (List.filter (fun x => flt (literal 1 100) x) xs)) in
  if nonzero <? n / 2 then false else
  let mean := fdiv (sum_floats xs) (float64 n) in
  if flt mean (literal 5 100) then false else
  let variance := fdiv (sum_floats (map (fun x => let d := fsub x mean in fmul d d) xs)) (float64 n) in
  flt (fdiv (fsqrt variance) mean) (literal 1 100).

Definition mouseOnly (samples : list Sample) : bool :=
  if Z.of_nat (length samples) <? 5 then false else
  let keys := fold_left (fun a s => add64 a (KeyboardCount s)) samples 0 in
  let mouse := fold_left (fun a s => add64 a (add64 (MouseCount s) (MouseDistance s))) samples 0 in
  (keys =? 0) && (0 <? mouse).

Definition clamp (v lo hi : Z) : Z := if v <? lo then lo else if hi <? v then hi else v.

(** The variables of the loop of Compute. *)
Record walk := mkWalk {
  activeAcc : spec_float;
  idleSeconds : Z;
  consecutiveIdle : Z;
  intensities : list spec_float
}.

Definition walk_start : walk := mkWalk f0 0 0 [].

(** The idle counters after a segment without input. *)
Definition idle_after (threshold seg idle consecutive : Z) : Z * Z :=
  let now := consecutive + seg in
  (if threshold <=? now then if consecutive <? threshold then idle + now else idle + seg else idle, now).

(** The body of the loop. *)
Definition walk_step (p : Params) (byBucket : gmap Z Sample) (total offset : Z) (w : walk) : walk :=
  let step := SampleSeconds p in
  let seg := Z.min step (total - offset) in
  let intensity := match byBucket !! Z.quot offset step with Some s => Intensity p s | None => f0 end in
  let frac := billableFraction p intensity in
  if flt f0 frac then
    mkWalk (fadd (activeAcc w) (fmul (float64 seg) frac)) (idleSeconds w) 0 (intensities w ++ [intensity])
  else
    let '(idle, consecutive) := idle_after (IdleThreshold p) seg (idleSeconds w) (consecutiveIdle w) in
    mkWalk (activeAcc w) idle consecutive (intensities w ++ [intensity]).

(** for offset := 0; offset < total; offset += step *)
Fixpoint walk_loop (fuel : nat) (p : Params) (byBucket : gmap Z Sample) (total offset : Z) (w : walk) : option walk :=
  match fuel with
  | O => None
  | S fuel' =>
      if offset <? total then
        walk_loop fuel' p byBucket total (offset + SampleSeconds p) (walk_step p byBucket total offset w)
      else Some w
  end.

(** The percentage of the time that counts. *)
Definition activity_pct (p : Params) (total active idle : Z) : Z :=
  let excused := int_of_float (fmul (float64 total) (ExcusedIdleCap p)) in
  let penalizedIdle := Z.max 0 (idle - excused) in
  let denom := Z.max 1 (total - (idle - penalizedIdle)) in
  clamp (int_of_float (Round (fdiv (fmul (float64 100) (float64 active)) (float64 denom)))) 0 100.

Definition suspect_reasons (samples : list Sample) (total pct : Z) (w : walk) : list string :=
  (if isTooUniform (intensities w) then ["uniform_input_pattern"] else []) ++
  (if (99 <=? pct) && (idleSeconds w =? 0) && (600 <=? total) then ["implausible_full_activity"] else []) ++
  (if mouseOnly samples then ["mouse_only_no_keys"] else []).

(** The division by a zero step panics; a negative step does not end. *)
Definition Compute (p : Params) (samples : list Sample) (sliceStart sliceEnd : Z) : option SliceResult :=
  let total := seconds_between sliceStart sliceEnd in
  if total <=? 0 then Some no_result
  else if SampleSeconds p =? 0 then None
  else
    match walk_loop (S (Z.to_nat total)) p (bucketSamples samples sliceStart (SampleSeconds p)) total 0 walk_start with
    | None => None
    | Some w =>
        let active := int_of_float (Round (activeAcc w)) in
        let pct := activity_pct p total active (idleSeconds w) in
        let reasons := suspect_reasons samples total pct w in
        Some (mkSliceResult pct active (idleSeconds w) (negb (Nat.eqb (length reasons) 0)) reasons)
    end.

(** * Properties of activity scoring

    The loop ends, the billed and idle seconds of a slice fit into the slice,
    and the idle seconds are exactly the long runs without input. *)
(** ** Seconds of a duration *)

(** No positive number. *)
Definition nonpos (x : spec_float) : Prop :=
  match x with
  | S754_finite s _ _ | S754_infinity s => s = true
  | _ => True
  end.

Lemma nonpos_round m e l : nonpos (binary_round_aux 53 1024 true m e l).
Proof.
  unfold binary_round_aux. destruct (shr_fexp _ _ _ _ _) as [r e1]. destruct (shr_fexp _ _ _ _ _) as [r2 e2].
  destruct (shr_m r2); [done| |done]. by destruct (_ <=? _).
Qed.

Lemma nonpos_float64 z : z <= 0 -> nonpos (float64 z).
Proof.
  intros H. destruct z as [|p|p]; [done|lia|]. unfold float64, binary_normalize, binary_round.
  destruct (shl_align _ _ _). apply nonpos_round.
Qed.

Lemma nonpos_fdiv x b y : nonpos x -> atleast b y -> nonpos (fdiv x y).
Proof.
  destruct y as [| | |[] m' e']; try done. destruct x as [s|s| |s m e]; try done; cbn [nonpos]; intros H _.
  - by subst s.
  - subst s. cbn [fdiv SFdiv xorb]. destruct (SFdiv_core_binary _ _ _ _ _ _) as [[q e0] l]. apply nonpos_round.
Qed.

Lemma nonpos_fadd x y : nonpos x -> nonpos y -> nonpos (fadd x y).
Proof.
  destruct x as [[]|s| |s m e], y as [[]|s'| |s' m' e']; try done; cbn [nonpos fadd SFadd]; intros; subst; try done.
  cbn [cond_Zopp]. set (z := - _ + - _). assert (z < 0) as Hz by (subst z; lia).
  destruct z as [|p|p]; [lia|lia|]. cbn [binary_normalize]. unfold binary_round.
  destruct (shl_align _ _ _). apply nonpos_round.
Qed.

Lemma nonpos_int x : nonpos x -> int_of_float x <= 0.
Proof.
  destruct x as [s|s| |s m e]; try done. cbn [nonpos int_of_float]. intros ->.
  assert (0 <= trunc_pos m e).
  { unfold trunc_pos. destruct (_ <=? _) eqn:E.
    - pose proof (pow2_pos e ltac:(lia)). lia.
    - apply Z.div_pos; [lia|]. apply pow2_pos. lia. }
  destruct (in_int64 _); [lia|done].
Qed.

Lemma atleast_billion : atleast nanos_per_second (float64 nanos_per_second).
Proof.
  change (float64 nanos_per_second) with (S754_finite false 8388608000000000 (-23)). intros k Hk He.
  replace k with (-23 + k + 23) at 1 by lia. rewrite Z.pow_add_r by lia. unfold nanos_per_second. lia.
Qed.

Definition max_seconds : Z := 9223372037.

Lemma Seconds_upto d : 0 <= d <= int64_max -> upto max_seconds (Seconds d).
Proof.
  unfold int64_max. intros H. unfold Seconds, nanos_per_second.
  change max_seconds with (9223372036 + 1). apply fadd_upto; [| |done].
  - apply upto_weaken with (Z.quot d 1000000000); [Z.to_euclidean_division_equations; lia|].
    apply float64_upto. Z.to_euclidean_division_equations; lia.
  - apply (fdiv_upto (Z.rem d 1000000000) 1000000000); [done|done| | |apply atleast_billion].
    + Z.to_euclidean_division_equations; lia.
    + apply float64_upto. Z.to_euclidean_division_equations; lia.
Qed.

Lemma seconds_between_max start stop : seconds_between start stop <= max_seconds.
Proof.
  unfold seconds_between. assert (int64_min <= duration stop start <= int64_max) as H
    by (unfold duration, int64_min, int64_max; lia).
  destruct (Z.le_ge_cases 0 (duration stop start)) as [L|L].
  - apply int_of_float_upto; [apply Seconds_upto; lia|done].
  - etransitivity; [apply nonpos_int|done]. unfold Seconds, nanos_per_second.
    apply nonpos_fadd; [|apply nonpos_fdiv with 1000000000; [|apply atleast_billion]];
      apply nonpos_float64; Z.to_euclidean_division_equations; lia.
Qed.

(** ** The loop *)

(** The offsets of [n] rounds, and the number of rounds that a length takes. *)
Fixpoint offsets (n : nat) (offset step : Z) : list Z :=
  match n with
  | O => []
  | S n' => offset :: offsets n' (offset + step) step
  end.

Definition rounds (length step : Z) : nat := Z.to_nat ((length + step - 1) / step).

Lemma rounds_done length step : 0 < step -> length <= 0 -> rounds length step = O.
Proof.
  intros Hs Hl. unfold rounds. assert ((length + step - 1) / step < 1); [|lia]. apply Z.div_lt_upper_bound; lia.
Qed.

Lemma rounds_next length step : 0 < step -> 0 < length -> rounds length step = S (rounds (length - step) step).
Proof.
  intros Hs Hl. unfold rounds. replace (length + step - 1) with (length - step + step - 1 + 1 * step) by lia.
  rewrite Z.div_add by lia. assert (0 <= (length - step + step - 1) / step) by (apply Z.div_pos; lia). lia.
Qed.

Lemma rounds_le length step : 0 < step -> 0 <= length -> (rounds length step <= Z.to_nat length)%nat.
Proof.
  intros Hs Hl. unfold rounds. apply Z2Nat.inj_le; [|lia|].
  - apply Z.div_pos; lia.
  - apply Z.lt_succ_r, Z.div_lt_upper_bound; nia.
Qed.

Definition walk_all (p : Params) (m : gmap Z Sample) (total : Z) (l : list Z) (w : walk) : walk :=
  fold_left (fun w offset => walk_step p m total offset w) l w.

(** With more fuel than rounds the loop is the fold over its offsets; with
    less it is cut short. *)
Lemma walk_loop_fold p m total : 0 < SampleSeconds p -> forall fuel offset w,
  walk_loop fuel p m total offset w =
    if (fuel <=? rounds (total - offset) (SampleSeconds p))%nat then None
    else Some (walk_all p m total (offsets (rounds (total - offset) (SampleSeconds p)) offset (SampleSeconds p)) w).
Proof.
  intros Hs. induction fuel as [|fuel IH]; intros offset w; [done|]. cbn [walk_loop].
  destruct (Z.ltb_spec offset total) as [L|L].
  - rewrite IH, (rounds_next (total - offset)) by lia.
    by replace (total - offset - SampleSeconds p) with (total - (offset + SampleSeconds p)) by lia.
  - by rewrite rounds_done by lia.
Qed.

Lemma walk_step_intensities p m total offset w :
  length (intensities (walk_step p m total offset w)) = S (length (intensities w)).
Proof.
  unfold walk_step. destruct (flt _ _); [|destruct (idle_after _ _ _ _)]; cbn; rewrite length_app; cbn; lia.
Qed.

Lemma walk_all_intensities p m total l w :
  length (intensities (walk_all p m total l w)) = (length (intensities w) + length l)%nat.
Proof.
  revert w. induction l as [|o l IH]; intros w; [cbn; lia|].
  change (walk_all p m total (o :: l) w) with (walk_all p m total l (walk_step p m total o w)).
  rewrite IH, walk_step_intensities. cbn. lia.
Qed.

Lemma length_offsets n offset step : length (offsets n offset step) = n.
Proof. revert offset. induction n as [|n IH]; intros; [done|]. cbn. by rewrite IH. Qed.

(** What Compute returns, without the loop. *)
Definition walked (p : Params) (samples : list Sample) (start stop : Z) : walk :=
  let total := seconds_between start stop in
  walk_all p (bucketSamples samples start (SampleSeconds p)) total
    (offsets (rounds total (SampleSeconds p)) 0 (SampleSeconds p)) walk_start.

Definition summary (p : Params) (samples : list Sample) (start stop : Z) : SliceResult :=
  let total := seconds_between start stop in
  let w := walked p samples start stop in
  let active := int_of_float (Round (activeAcc w)) in
  let pct := activity_pct p total active (idleSeconds w) in
  let reasons := suspect_reasons samples total pct w in
  mkSliceResult pct active (idleSeconds w) (negb (Nat.eqb (length reasons) 0)) reasons.

Lemma Compute_summary p samples start stop : 0 < SampleSeconds p ->
  Compute p samples start stop =
    Some (if seconds_between start stop <=? 0 then no_result else summary p samples start stop).
Proof.
  intros Hs. unfold Compute. destruct (Z.leb_spec (seconds_between start stop) 0) as [L|L]; [done|].
  replace (SampleSeconds p =? 0) with false by lia. rewrite walk_loop_fold, Z.sub_0_r by done.
  pose proof (rounds_le (seconds_between start stop) (SampleSeconds p) Hs ltac:(lia)) as R.
  destruct (Nat.leb_spec (S (Z.to_nat (seconds_between start stop))) (rounds (seconds_between start stop) (SampleSeconds p))); [lia|done].
Qed.

(** C30: Compute terminates: with a positive sample step the loop over a slice of
    n seconds takes exactly ceil(n / step) rounds and scores one intensity per
    round, whatever the samples are; any fuel above that gives the same walk,
    none below suffices, and Compute returns a result. *)
Theorem compute_returns p samples start stop :
  0 < SampleSeconds p ->
  exists r, Compute p samples start stop = Some r /\
  exists w, length (intensities w) = rounds (seconds_between start stop) (SampleSeconds p) /\
    forall fuel, walk_loop fuel p (bucketSamples samples start (SampleSeconds p)) (seconds_between start stop) 0 walk_start =
      if (fuel <=? rounds (seconds_between start stop) (SampleSeconds p))%nat then None else Some w.
Proof.
  intros Hs. eexists. split; [by apply Compute_summary|].
  exists (walked p samples start stop). split.
  - unfold walked. by rewrite walk_all_intensities, length_offsets.
  - intros fuel. rewrite walk_loop_fold by done. by rewrite Z.sub_0_r.
Qed.

Lemma compute_returns_witness :
  0 < SampleSeconds DefaultParams /\
  exists r, Compute DefaultParams [] 0 600000000000 = Some r /\
  exists w, length (intensities w) = rounds (seconds_between 0 600000000000) 60 /\
    forall fuel, walk_loop fuel DefaultParams (bucketSamples [] 0 60) (seconds_between 0 600000000000) 0 walk_start =
      if (fuel <=? rounds (seconds_between 0 600000000000) 60)%nat then None else Some w.
Proof. split; [done|]. by apply (compute_returns DefaultParams [] 0 600000000000). Defined.

(** ** Billed and idle seconds *)

Definition segment (p : Params) (total offset : Z) : Z := Z.min (SampleSeconds p) (total - offset).

Definition intensity_at (p : Params) (m : gmap Z Sample) (offset : Z) : spec_float :=
  match m !! Z.quot offset (SampleSeconds p) with Some s => Intensity p s | None => f0 end.

(** The segment at [offset] bills something. *)
Definition paid (p : Params) (m : gmap Z Sample) (offset : Z) : bool :=
  flt f0 (billableFraction p (intensity_at p m offset)).

Lemma walk_step_paid p m total offset w : paid p m offset = true ->
  walk_step p m total offset w =
    mkWalk (fadd (activeAcc w) (fmul (float64 (segment p total offset)) (billableFraction p (intensity_at p m offset))))
      (idleSeconds w) 0 (intensities w ++ [intensity_at p m offset]).
Proof. unfold paid, walk_step. cbv zeta. fold (intensity_at p m offset). by intros ->. Qed.

Lemma walk_step_silent p m total offset w : paid p m offset = false ->
  let after := idle_after (IdleThreshold p) (segment p total offset) (idleSeconds w) (consecutiveIdle w) in
  walk_step p m total offset w =
    mkWalk (activeAcc w) (fst after) (snd after) (intensities w ++ [intensity_at p m offset]).
Proof. unfold paid, walk_step. cbv zeta. fold (intensity_at p m offset). by intros ->. Qed.

Lemma billableFraction_upto p x : flt f0 (billableFraction p x) = true -> upto 1 (billableFraction p x).
Proof.
  unfold billableFraction. destruct (flt x _); [done|]. destruct (fle _ _); [by intros _; apply float64_upto|].
  apply fmin_one_upto, fdiv_narrow.
Qed.

(** At most [a] seconds are billed and at most [u] are idle, or may become so. *)
Record within (p : Params) (a u : Z) (w : walk) : Prop := {
  wi_active : upto a (activeAcc w);
  wi_idle : 0 <= idleSeconds w;
  wi_silence : 0 <= consecutiveIdle w;
  wi_room : idleSeconds w + (if consecutiveIdle w <? IdleThreshold p then consecutiveIdle w else 0) <= u
}.

Lemma walk_step_within p m total offset a u w :
  0 <= segment p total offset -> a + segment p total offset < 2 ^ 53 -> within p a u w ->
  exists a' u', a' + u' = a + u + segment p total offset /\ a <= a' /\ u <= u' /\ within p a' u' (walk_step p m total offset w).
Proof.
  intros Hs Hb [A I C R]. pose proof (upto_nonneg _ _ A). destruct (paid p m offset) eqn:P.
  - exists (a + segment p total offset), u. split; [lia|]. split; [lia|]. split; [lia|].
    rewrite walk_step_paid by done. split; cbn [activeAcc idleSeconds consecutiveIdle]; [|done|done|].
    + apply fadd_upto; [done| |done]. rewrite <- (Z.mul_1_r (segment p total offset)) at 1.
      apply fmul_upto; [apply float64_upto; lia|by apply billableFraction_upto|lia].
    + destruct (0 <? IdleThreshold p), (consecutiveIdle w <? IdleThreshold p); lia.
  - exists a, (u + segment p total offset). split; [lia|]. split; [lia|]. split; [lia|].
    rewrite walk_step_silent by done. unfold idle_after.
    split; cbn [activeAcc idleSeconds consecutiveIdle fst snd]; [done| |lia|].
    all: destruct (Z.leb_spec (IdleThreshold p) (consecutiveIdle w + segment p total offset)),
      (Z.ltb_spec (consecutiveIdle w) (IdleThreshold p)),
      (Z.ltb_spec (consecutiveIdle w + segment p total offset) (IdleThreshold p)); lia.
Qed.

Lemma walk_all_within p m total : 0 < SampleSeconds p -> total < 2 ^ 53 -> forall n offset a u w,
  n = rounds (total - offset) (SampleSeconds p) -> a + Z.max 0 (total - offset) < 2 ^ 53 -> within p a u w ->
  exists a' u', a' + u' = a + u + Z.max 0 (total - offset) /\
    within p a' u' (walk_all p m total (offsets n offset (SampleSeconds p)) w).
Proof.
  intros Hs Ht. induction n as [|n IH]; intros offset a u w Hn Ha W.
  - exists a, u. split; [|done]. destruct (Z.le_ge_cases (total - offset) 0); [lia|].
    destruct (Z.eq_dec (total - offset) 0); [lia|]. by rewrite rounds_next in Hn by lia.
  - assert (0 < total - offset) as L.
    { destruct (Z.le_gt_cases (total - offset) 0); [|lia]. by rewrite rounds_done in Hn by lia. }
    rewrite rounds_next in Hn by lia. injection Hn as Hn.
    destruct (walk_step_within p m total offset a u w) as (a1 & u1 & E1 & La & Lu & W1); [unfold segment; lia..|done|].
    destruct (IH (offset + SampleSeconds p) a1 u1 (walk_step p m total offset w)) as (a2 & u2 & E2 & W2); [..|done|].
    + by rewrite Hn, Z.sub_add_distr.
    + unfold segment in *. lia.
    + exists a2, u2. split; [|exact W2]. unfold segment in *. lia.
Qed.

Lemma walked_within p samples start stop : 0 < SampleSeconds p -> 0 <= seconds_between start stop ->
  exists a u, a + u = seconds_between start stop /\ within p a u (walked p samples start stop).
Proof.
  intros Hs Ht. pose proof (seconds_between_max start stop) as M. unfold max_seconds in M.
  destruct (walk_all_within p (bucketSamples samples start (SampleSeconds p)) (seconds_between start stop) Hs ltac:(lia)
    (rounds (seconds_between start stop) (SampleSeconds p)) 0 0 0 walk_start) as (a & u & E & W).
  - by rewrite Z.sub_0_r.
  - lia.
  - split; cbn; [lia..|]. destruct (_ <? _); lia.
  - exists a, u. split; [lia|exact W].
Qed.

Lemma clamp_range v lo hi : lo <= hi -> lo <= clamp v lo hi <= hi.
Proof. unfold clamp. intros. destruct (Z.ltb_spec v lo), (Z.ltb_spec hi v); lia. Qed.

Lemma summary_total p samples start stop : 0 < SampleSeconds p -> 0 < seconds_between start stop ->
  let r := summary p samples start stop in
  0 <= ActiveSeconds r /\ 0 <= IdleSeconds r /\ ActiveSeconds r + IdleSeconds r <= seconds_between start stop /\
  0 <= ActivityPct r <= 100.
Proof.
  intros Hs L. destruct (walked_within p samples start stop Hs ltac:(lia)) as (a & u & E & [A I C R]).
  pose proof (seconds_between_max start stop) as M. unfold max_seconds in M. pose proof (upto_nonneg _ _ A).
  assert (0 <= u) by (destruct (_ <? _) in R; lia).
  assert (a < 2 ^ 53) as Ha by lia. pose proof (int_of_float_upto a _ (Round_upto a _ A Ha) Ha) as B.
  cbv zeta. cbn [ActiveSeconds IdleSeconds ActivityPct summary]. split; [lia|]. split; [lia|].
  split; [|apply clamp_range; lia].
  destruct (_ <? _) in R; lia.
Qed.

Lemma summary_fits p samples start stop : 0 < SampleSeconds p -> 0 < seconds_between start stop ->
  let r := summary p samples start stop in 0 <= ActiveSeconds r <= max_seconds /\ 0 <= ActivityPct r <= 100.
Proof.
  intros Hs L. pose proof (summary_total p samples start stop Hs L) as H. cbv zeta in *.
  pose proof (seconds_between_max start stop). lia.
Qed.

(** C29: Whatever a tracker reports, a slice bills no more than its length: the
    active and the idle seconds of a result are not negative and together at most
    the seconds of the slice, through all the rounding of the intensities and of
    their sum; the percentage is between 0 and 100. *)
Theorem slice_fits p samples start stop r :
  0 < SampleSeconds p -> Compute p samples start stop = Some r ->
  0 <= ActiveSeconds r /\ 0 <= IdleSeconds r /\
  ActiveSeconds r + IdleSeconds r <= Z.max 0 (seconds_between start stop) /\
  0 <= ActivityPct r <= 100.
Proof.
  intros Hs. rewrite Compute_summary by done. intros [= <-].
  destruct (Z.leb_spec (seconds_between start stop) 0) as [L|L]; [cbn; lia|].
  pose proof (summary_total p samples start stop Hs L). cbv zeta in *. lia.
Qed.

Lemma slice_fits_witness : exists r,
  Compute DefaultParams [mkSample 0 60 40 3000] 0 600000000000 = Some r /\
  (0 <= ActiveSeconds r /\ 0 <= IdleSeconds r /\
   ActiveSeconds r + IdleSeconds r <= Z.max 0 (seconds_between 0 600000000000) /\ 0 <= ActivityPct r <= 100).
Proof.
  exists (mkSliceResult 13 60 540 false []). split; [reflexivity|].
  by apply (slice_fits DefaultParams [mkSample 0 60 40 3000] 0 600000000000).
Defined.

(** ** Idle time *)

(** The segments of a slice, with whether they bill anything. *)
Definition segments (p : Params) (samples : list Sample) (start stop : Z) : list (Z * bool) :=
  let total := seconds_between start stop in
  map (fun offset => (segment p total offset, paid p (bucketSamples samples start (SampleSeconds p)) offset))
    (offsets (rounds total (SampleSeconds p)) 0 (SampleSeconds p)).

(** The silences before, between and after the billed segments, in seconds. *)
Fixpoint silences (l : list (Z * bool)) : list Z :=
  match l with
  | [] => [0]
  | (seg, true) :: l' => 0 :: silences l'
  | (seg, false) :: l' =>
      match silences l' with
      | s :: rest => seg + s :: rest
      | [] => [seg]
      end
  end.

Definition total_of (l : list Z) : Z := foldr Z.add 0 l.

(** The silences that last at least the threshold. *)
Definition long_silences (threshold : Z) (l : list Z) : Z := total_of (List.filter (fun s => threshold <=? s) l).

Definition idle_walk (threshold : Z) (l : list (Z * bool)) (st : Z * Z) : Z * Z :=
  fold_left (fun st x => if snd x : bool then (fst st, 0) else idle_after threshold (fst x) (fst st) (snd st)) l st.

Definition if_long (threshold s : Z) : Z := if threshold <=? s then s else 0.

Lemma long_silences_cons t s l : long_silences t (s :: l) = if_long t s + long_silences t l.
Proof. unfold long_silences, if_long. cbn [List.filter]. by destruct (t <=? s). Qed.

Lemma silences_cons l : exists s rest, silences l = s :: rest /\ (Forall (fun x => 0 <= fst x) l -> 0 <= s).
Proof.
  induction l as [|[seg []] l (s & rest & E & H)]; cbn [silences]; [by exists 0, []|by eexists 0, _|].
  rewrite E. exists (seg + s), rest. split; [done|]. intros [H1 H2]%Forall_cons_1. specialize (H H2). cbn in H1. lia.
Qed.

Lemma idle_after_long t seg idle c : 0 <= c -> 0 <= seg ->
  idle_after t seg idle c = (idle - if_long t c + if_long t (c + seg), c + seg).
Proof.
  intros. unfold idle_after, if_long. f_equal.
  destruct (Z.leb_spec t (c + seg)), (Z.ltb_spec c t), (Z.leb_spec t c); lia.
Qed.

(** The counters of the loop, from any point of a silence. *)
Lemma idle_walk_silences t l : 0 < t -> Forall (fun x => 0 <= fst x) l -> forall idle c s rest, 0 <= c ->
  silences l = s :: rest ->
  fst (idle_walk t l (idle, c)) = idle - if_long t c + if_long t (c + s) + long_silences t rest.
Proof.
  intros Ht. induction l as [|[seg b] l IH]; intros F idle c s rest Hc E.
  - injection E as <- <-. rewrite (Z.add_0_r c). change (idle = idle - if_long t c + if_long t c + 0). lia.
  - apply Forall_cons_1 in F as [F1 F]. cbn [fst] in F1. destruct (silences_cons l) as (s1 & r1 & E1 & _).
    change (idle_walk t ((seg, b) :: l) (idle, c)) with
      (idle_walk t l (if b then (idle, 0) else idle_after t seg idle c)).
    cbn [silences] in E. rewrite E1 in E. destruct b; injection E as <- <-; cbn [fst snd].
    + rewrite (IH F _ _ s1 r1), long_silences_cons by (done || lia).
      assert (if_long t 0 = 0) as -> by (unfold if_long; destruct (Z.leb_spec t 0); lia).
      rewrite Z.add_0_r, Z.add_0_l. lia.
    + rewrite idle_after_long by done.
      rewrite (IH F _ _ s1 r1), Z.add_assoc by (done || lia). lia.
Qed.

Lemma walk_all_idle p m total l w :
  (idleSeconds (walk_all p m total l w), consecutiveIdle (walk_all p m total l w)) =
  idle_walk (IdleThreshold p) (map (fun offset => (segment p total offset, paid p m offset)) l)
    (idleSeconds w, consecutiveIdle w).
Proof.
  revert w. induction l as [|o l IH]; intros w; [done|].
  change (walk_all p m total (o :: l) w) with (walk_all p m total l (walk_step p m total o w)). rewrite IH.
  cbn [map]. set (t := IdleThreshold p). set (rest := map _ l).
  change (idle_walk t ((segment p total o, paid p m o) :: rest) (idleSeconds w, consecutiveIdle w)) with
    (idle_walk t rest (if paid p m o then (idleSeconds w, 0)
                       else idle_after t (segment p total o) (idleSeconds w) (consecutiveIdle w))).
  destruct (paid p m o) eqn:P; [by rewrite walk_step_paid|by rewrite walk_step_silent].
Qed.

Lemma segments_nonneg p m total : 0 < SampleSeconds p -> forall n offset, n = rounds (total - offset) (SampleSeconds p) ->
  Forall (fun x => 0 <= fst x)
    (map (fun o => (segment p total o, paid p m o)) (offsets n offset (SampleSeconds p))).
Proof.
  intros Hs. induction n as [|n IH]; intros offset Hn; [by constructor|].
  destruct (Z.le_gt_cases (total - offset) 0); [by rewrite rounds_done in Hn by lia|].
  rewrite rounds_next in Hn by lia. injection Hn as Hn. constructor; [cbn; unfold segment; lia|].
  apply IH. by rewrite Hn, Z.sub_add_distr.
Qed.

(** C31: The idle seconds of a result are exactly the total length of the silences
    of the slice - the maximal runs of segments without billable input - that last
    at least the threshold, each counted whole: a reference definition over the
    list of segments, without the counters of the loop. *)
Theorem idle_is_long_silences p samples start stop r :
  0 < SampleSeconds p -> 0 < IdleThreshold p -> Compute p samples start stop = Some r ->
  IdleSeconds r = long_silences (IdleThreshold p) (silences (segments p samples start stop)).
Proof.
  intros Hs Ht. rewrite Compute_summary by done. intros [= <-].
  assert (IdleSeconds (if seconds_between start stop <=? 0 then no_result else summary p samples start stop) =
          idleSeconds (walked p samples start stop)) as ->.
  { destruct (Z.leb_spec (seconds_between start stop) 0); [|done]. unfold walked. by rewrite rounds_done by lia. }
  destruct (silences_cons (segments p samples start stop)) as (s & rest & E & H).
  pose proof (segments_nonneg p (bucketSamples samples start (SampleSeconds p)) (seconds_between start stop) Hs _ 0
    eq_refl) as F. rewrite Z.sub_0_r in F.
  pose proof (f_equal fst (walk_all_idle p (bucketSamples samples start (SampleSeconds p)) (seconds_between start stop)
    (offsets (rounds (seconds_between start stop) (SampleSeconds p)) 0 (SampleSeconds p)) walk_start)) as W.
  cbn [fst] in W. unfold walked. rewrite W. rewrite (idle_walk_silences _ _ Ht F _ _ s rest), E, long_silences_cons by done.
  change (0 - if_long (IdleThreshold p) 0 + if_long (IdleThreshold p) s + long_silences (IdleThreshold p) rest =
    if_long (IdleThreshold p) s + long_silences (IdleThreshold p) rest).
  assert (if_long (IdleThreshold p) 0 = 0) as -> by (unfold if_long; destruct (Z.leb_spec (IdleThreshold p) 0); lia).
  lia.
Qed.

Lemma idle_is_long_silences_witness : exists r,
  Compute DefaultParams [mkSample 0 60 40 3000] 0 600000000000 = Some r /\
  IdleSeconds r = long_silences 300 (silences (segments DefaultParams [mkSample 0 60 40 3000] 0 600000000000)).
Proof.
  exists (mkSliceResult 13 60 540 false []). split; [reflexivity|].
  by apply (idle_is_long_silences DefaultParams [mkSample 0 60 40 3000] 0 600000000000).
Defined.

(** ** The examples of activity_test.go *)

Definition test_minute : Z := 60000000000.

Definition test_slice (sample : Z -> Sample) : option SliceResult :=
  Compute DefaultParams (map (fun i => sample (Z.of_nat i)) (seq 0 10)) 0 (10 * test_minute).

Example busy_slice : exists r,
  test_slice (fun i => mkSample (i * test_minute) (40 + i * 3) (20 + (i mod 4) * 5) (1500 + i * 200)) = Some r /\
  50 <= ActivityPct r.
Proof. eexists. split; [vm_compute; reflexivity|done]. Qed.

Example macro_is_detected : exists r,
  test_slice (fun i => mkSample (i * test_minute) 50 30 2000) = Some r /\
  In "uniform_input_pattern" (SuspectReasons r).
Proof. eexists. split; [vm_compute; reflexivity|by left]. Qed.

Example graded_billing : exists trivial busy,
  test_slice (fun i => mkSample (i * test_minute) 2 0 0) = Some trivial /\ ActiveSeconds trivial = 49 /\
  test_slice (fun i => mkSample (i * test_minute) (45 + i) 25 (2000 + i * 100)) = Some busy /\ ActiveSeconds busy = 600.
Proof. do 2 eexists. repeat split; vm_compute; reflexivity. Qed.

(** A sample taken before the slice counts in its first minute: the index of
    bucketSamples is truncated towards zero. *)
Example sample_before_the_slice_counts : exists r,
  Compute DefaultParams [mkSample (-59 * 1000000000) 60 40 3000] 0 (10 * test_minute) = Some r /\ ActiveSeconds r = 60.
Proof. eexists. split; [vm_compute; reflexivity|done]. Qed.
