(* ===== verification/Pg.v ===== *)
(** * Transactions, statements and program logic

    The pgx client as the services use it: [pool.Begin], statements on a
    transaction or on the pool, [tx.Commit], [defer tx.Rollback], and SQL
    statements over row tables.  Transactions are serial: at most one is open
    on a world at a time; within it PostgreSQL's rule holds that after a failed
    statement every further one fails until the rollback.  [wp] is the
    weakest precondition of a program; the rules below let a proof execute a
    handler symbolically, with one branch per possible driver fault. *)
From S2P Require Export Prelude.

(** ** pgx *)

Section Client.
Context {D E : Type} `{Deferred D}.

Definition begin : prog D E unit := fun ev w =>
  let n := tick w in
  if fault ev n then (Err (Db Driver), World (committed w) (txs w) (S n))
  else (Ok tt, World (committed w) (Live (clock ev n) (committed w)) (S n)).

(** A statement on the open transaction. *)
Definition exec {A} (f : sql D A) : prog D E A := fun ev w =>
  let n := tick w in
  match txs w with
  | NoTx => (Err (Db TxClosed), w)
  | Broken => (Err (Db TxAborted), World (committed w) Broken (S n))
  | Live t d =>
      if fault ev n then (Err (Db Driver), World (committed w) Broken (S n))
      else match f (Stamp t (gen_uuid ev n)) d with
           | Done a d' => (Ok a, World (committed w) (Live t d') (S n))
           | Reject e => (Err (Db e), World (committed w) Broken (S n))
           end
  end.

(** A statement on the pool: its own transaction, with no deferred
    constraint on the tables it writes. *)
Definition exec_pool {A} (f : sql D A) : prog D E A := fun ev w =>
  let n := tick w in
  match f (Stamp (clock ev n) (gen_uuid ev n)) (committed w) with
  | Done a d' =>
      if fault ev n
      then (Err (Db Driver),
            World (if ack_lost ev n then d' else committed w) (txs w) (S n))
      else (Ok a, World d' (txs w) (S n))
  | Reject e => (Err (Db (if fault ev n then Driver else e)),
                 World (committed w) (txs w) (S n))
  end.

Definition commit : prog D E unit := fun ev w =>
  let n := tick w in
  match txs w with
  | NoTx => (Err (Db TxClosed), w)
  | Broken => (Err (Db TxCommitRollback), World (committed w) NoTx (S n))
  | Live _ d =>
      let ok := deferred_ok (committed w) d in
      if fault ev n
      then (Err (Db Driver),
            World (if ack_lost ev n && ok then d else committed w) NoTx (S n))
      else if ok then (Ok tt, World d NoTx (S n))
      else (Err (Db (CheckViolation "deferred")), World (committed w) NoTx (S n))
  end.

Definition rollback : prog D E unit := fun _ w =>
  (Ok tt, World (committed w) NoTx (tick w)).

(** [tx, err := pool.Begin(ctx); defer tx.Rollback(ctx)] around a body. *)
Definition in_tx {A} (body : prog D E A) : prog D E A :=
  begin ;;;
  (fun ev w => let '(r, w') := body ev w in
               (r, World (committed w') NoTx (tick w'))).

(** Go-side reads of the environment. *)
Definition time_now : prog D E Z := fun ev w =>
  (Ok (clock ev (tick w)), World (committed w) (txs w) (S (tick w))).

(** [rand.Read(b)] for a buffer of [size] bytes. *)
Definition read_random (size : nat) : prog D E (option (list Z)) := fun ev w =>
  (Ok (option_map (fun f => map (fun i => Z.land (f i) 255) (seq 0 size))
         (rand_read ev (tick w))), World (committed w) (txs w) (S (tick w))).

Fixpoint for_each {A} (l : list A) (f : A -> prog D E unit) : prog D E unit :=
  match l with
  | [] => ret tt
  | x :: l' => f x ;;; for_each l' f
  end.
End Client.

(** ** SQL statements over row tables *)

Record table (D R : Type) := Table {
  rows : D -> list R;
  put : list R -> D -> D
}.
Arguments Table {D R} rows put.
Arguments rows {D R} t d.
Arguments put {D R} t l d.

(** UPDATE ... SET ... WHERE p, as a list operation. *)
Definition update_where {R} (p : R -> bool) (f : R -> R) (l : list R) : list R :=
  map (fun r => if p r then f r else r) l.

Definition select_rows {R} (p : R -> bool) (l : list R) : list R := List.filter p l.

Section Statements.
Context {D R : Type} (t : table D R).

(** SELECT ... WHERE p, one row scanned; no row is [None] (pgx.ErrNoRows). *)
Definition select_one (p : R -> bool) : sql D (option R) := fun _ d =>
  Done (List.find p (rows t d)) d.

Definition select_all (p : R -> bool) : sql D (list R) := fun _ d =>
  Done (select_rows p (rows t d)) d.

(** INSERT: [check] lists the constraints the new row is tested against. *)
Definition insert_row (check : list R -> R -> option dberr) (mk : stamp -> R)
  : sql D R := fun s d =>
  let r := mk s in
  match check (rows t d) r with
  | Some e => Reject e
  | None => Done r (put t (rows t d ++ [r]) d)
  end.

(** UPDATE ... WHERE p RETURNING *: the updated rows; [check] is tested on
    each new row. *)
Definition update_rows (p : R -> bool) (f : stamp -> R -> R)
  (check : R -> option dberr) : sql D (list R) := fun s d =>
  let changed := map (f s) (select_rows p (rows t d)) in
  match List.find (fun r => match check r with Some _ => true | None => false end) changed with
  | Some r => Reject (default Driver (check r))
  | None => Done changed (put t (update_where p (f s) (rows t d)) d)
  end.
End Statements.

(** A unique index: [Some] violation when a row of [l] collides. *)
Definition unique_index {R} (name : string) (clash : R -> R -> bool)
  (l : list R) (r : R) : option dberr :=
  if existsb (fun x => clash x r) l then Some (UniqueViolation name) else None.

Definition check_row {R} (name : string) (ok : R -> bool) (r : R) : option dberr :=
  if ok r then None else Some (CheckViolation name).

Definition bigint (z : Z) : option dberr :=
  if in_int64 z then None else Some NumericOutOfRange.

(** The first violated constraint. *)
Fixpoint first_violation (l : list (option dberr)) : option dberr :=
  match l with
  | [] => None
  | Some e :: _ => Some e
  | None :: l' => first_violation l'
  end.

(** ** Weakest preconditions *)

Definition wp {D E A} (m : prog D E A) (ev : env) (w : world D)
  (Q : res E A -> world D -> Prop) : Prop :=
  Q (fst (m ev w)) (snd (m ev w)).

Section Wp.
Context {D E : Type} `{Deferred D}.
Implicit Types (w : world D) (ev : env).

Lemma wp_run {A} (m : prog D E A) ev w (Q : res E A -> world D -> Prop) r w' :
  m ev w = (r, w') -> wp m ev w Q -> Q r w'.
Proof. unfold wp. by intros ->. Qed.

Lemma run_wp {A} (m : prog D E A) ev w (Q : res E A -> world D -> Prop) :
  (forall r w', m ev w = (r, w') -> Q r w') -> wp m ev w Q.
Proof. unfold wp. intros HQ. destruct (m ev w) as [r w']. by apply HQ. Qed.

Lemma wp_mono {A} (m : prog D E A) ev w (P Q : res E A -> world D -> Prop) :
  wp m ev w P -> (forall r w', P r w' -> Q r w') -> wp m ev w Q.
Proof. unfold wp. eauto. Qed.

Lemma wp_ret {A} (a : A) ev w (Q : res E A -> world D -> Prop) :
  Q (Ok a) w -> wp (ret a) ev w Q.
Proof. done. Qed.

Lemma wp_throw {A} (e : err E) ev w (Q : res E A -> world D -> Prop) :
  Q (Err e) w -> wp (throw e) ev w Q.
Proof. done. Qed.

Lemma wp_bind {A B} (m : prog D E A) (k : A -> prog D E B) ev w Q :
  wp m ev w (fun r w' => match r with
                         | Ok a => wp (k a) ev w' Q
                         | Err e => Q (Err e) w'
                         end) ->
  wp (bind m k) ev w Q.
Proof. unfold wp, bind. by destruct (m ev w) as [[a|e] w']. Qed.

Lemma wp_attempt {A} (m : prog D E A) ev w (Q : res E (res E A) -> world D -> Prop) :
  wp m ev w (fun r w' => Q (Ok r) w') -> wp (attempt m) ev w Q.
Proof. unfold wp, attempt. by destruct (m ev w). Qed.

(** Opening a transaction on a world at rest. *)
Lemma wp_in_tx {A} (body : prog D E A) ev d n (Q : res E A -> world D -> Prop) :
  (~ calm ev -> Q (Err (Db Driver)) (World d NoTx (S n))) ->
  (wp body ev (World d (Live (clock ev n) d) (S n))
     (fun r w' => Q r (World (committed w') NoTx (tick w')))) ->
  wp (in_tx body) ev (World d NoTx n) Q.
Proof.
  unfold wp, in_tx, bind, begin, calm; cbn; intros Hf Hb.
  destruct (fault ev n) eqn:F; cbn.
  - apply Hf. intros C. by rewrite C in F.
  - by destruct (body _ _).
Qed.

(** A statement that changes the transaction's view. *)
Lemma wp_exec {A} (f : sql D A) ev c t v n (Q : res E A -> world D -> Prop) :
  (~ calm ev -> Q (Err (Db Driver)) (World c Broken (S n))) ->
  match f (Stamp t (gen_uuid ev n)) v with
  | Done a v' => Q (Ok a) (World c (Live t v') (S n))
  | Reject e => Q (Err (Db e)) (World c Broken (S n))
  end ->
  wp (exec f) ev (World c (Live t v) n) Q.
Proof.
  unfold wp, exec, calm; cbn; intros Hf Hs.
  destruct (fault ev n) eqn:F; cbn.
  - apply Hf. intros C. by rewrite C in F.
  - by destruct (f _ _).
Qed.

Lemma wp_exec_broken {A} (f : sql D A) ev c n (Q : res E A -> world D -> Prop) :
  Q (Err (Db TxAborted)) (World c Broken (S n)) ->
  wp (exec f) ev (World c Broken n) Q.
Proof. done. Qed.

Lemma wp_commit ev c t v n (Q : res E unit -> world D -> Prop) :
  (deferred_ok c v = true -> Q (Ok tt) (World v NoTx (S n))) ->
  (deferred_ok c v = true -> ~ calm ev -> Q (Err (Db Driver)) (World v NoTx (S n))) ->
  (~ calm ev -> Q (Err (Db Driver)) (World c NoTx (S n))) ->
  (deferred_ok c v = false -> Q (Err (Db (CheckViolation "deferred"))) (World c NoTx (S n))) ->
  wp commit ev (World c (Live t v) n) Q.
Proof.
  unfold wp, commit, calm; cbn; intros H1 H2 H3 H4.
  destruct (fault ev n) eqn:F; cbn.
  - assert (~ (forall m, fault ev m = false)) by (intros C; by rewrite C in F).
    destruct (ack_lost ev n), (deferred_ok c v); cbn; auto.
  - destruct (deferred_ok c v); cbn; auto.
Qed.

Lemma wp_commit_broken ev c n (Q : res E unit -> world D -> Prop) :
  Q (Err (Db TxCommitRollback)) (World c NoTx (S n)) ->
  wp commit ev (World c Broken n) Q.
Proof. done. Qed.

Lemma wp_rollback ev w (Q : res E unit -> world D -> Prop) :
  Q (Ok tt) (World (committed w) NoTx (tick w)) -> wp rollback ev w Q.
Proof. done. Qed.

(** A pool read: [f] leaves the tables alone. *)
Lemma wp_pool_read {A} (f : sql D A) (a : A) ev c t n (Q : res E A -> world D -> Prop) :
  (forall s, f s c = Done a c) ->
  (~ calm ev -> Q (Err (Db Driver)) (World c t (S n))) ->
  Q (Ok a) (World c t (S n)) ->
  wp (exec_pool f) ev (World c t n) Q.
Proof.
  unfold wp, exec_pool, calm; cbn; intros Hr Hf Hs. rewrite Hr.
  destruct (fault ev n) eqn:F; cbn.
  - destruct (ack_lost ev n); apply Hf; intros C; by rewrite C in F.
  - done.
Qed.

Lemma wp_exec_pool {A} (f : sql D A) ev c t n (Q : res E A -> world D -> Prop) :
  match f (Stamp (clock ev n) (gen_uuid ev n)) c with
  | Done a d' =>
      (~ calm ev -> Q (Err (Db Driver)) (World c t (S n))) /\
      (~ calm ev -> Q (Err (Db Driver)) (World d' t (S n))) /\
      Q (Ok a) (World d' t (S n))
  | Reject e => (~ calm ev -> Q (Err (Db Driver)) (World c t (S n))) /\
                Q (Err (Db e)) (World c t (S n))
  end ->
  wp (exec_pool f) ev (World c t n) Q.
Proof.
  unfold wp, exec_pool, calm; cbn; intros Hs.
  destruct (f _ c) as [a d'|e]; destruct (fault ev n) eqn:F; cbn.
  - assert (~ (forall m, fault ev m = false)) by (intros C; by rewrite C in F).
    destruct Hs as (?&?&?). destruct (ack_lost ev n); auto.
  - apply Hs.
  - assert (~ (forall m, fault ev m = false)) by (intros C; by rewrite C in F).
    apply Hs; auto.
  - apply Hs.
Qed.

Lemma wp_time_now ev c t n (Q : res E Z -> world D -> Prop) :
  Q (Ok (clock ev n)) (World c t (S n)) -> wp time_now ev (World c t n) Q.
Proof. done. Qed.

Lemma wp_read_random size ev c t n (Q : res E (option (list Z)) -> world D -> Prop) :
  (forall o, Q (Ok o) (World c t (S n))) -> wp (read_random size) ev (World c t n) Q.
Proof. intros HQ. apply HQ. Qed.
End Wp.

(** A foreign key on a table of the same service. *)
Definition references {R} (name : string) (row : R -> bool) (l : list R) : option dberr :=
  if existsb row l then None else Some (ForeignKeyViolation name).

(** The range of INT columns, which pgx tests before it sends the value. *)
Definition in_int32 (z : Z) : bool := (- 2 ^ 31 <=? z) && (z <=? 2 ^ 31 - 1).

(** A value of an enum type. *)
Definition enum (values : list string) (s : string) : bool := existsb (String.eqb s) values.
