(* ===== verification/Tables.v ===== *)
(** * Row tables: lookups, updates and sums

    A SQL table is the list of its rows in insertion order.  This file holds
    the lemmas about primary keys ([keyed]), single-row updates and sums over
    rows that the stores of every service use. *)
From S2P Require Export Pg.
From Stdlib Require Export Sorted.

Fixpoint sumZ {A} (f : A -> Z) (l : list A) : Z :=
  match l with
  | [] => 0
  | x :: l' => f x + sumZ f l'
  end.

Definition countZ {A} (p : A -> bool) (l : list A) : Z :=
  sumZ (fun x => if p x then 1 else 0) l.

Section Sums.
Context {A : Type}.
Implicit Types (f g : A -> Z) (l : list A) (p : A -> bool).

Lemma sumZ_nil f : sumZ f [] = 0.
Proof. done. Qed.

Lemma sumZ_cons f x l : sumZ f (x :: l) = f x + sumZ f l.
Proof. done. Qed.

Lemma sumZ_app f l1 l2 : sumZ f (l1 ++ l2) = sumZ f l1 + sumZ f l2.
Proof. induction l1; cbn; lia. Qed.

Lemma sumZ_ext_in f g l : (forall x, In x l -> f x = g x) -> sumZ f l = sumZ g l.
Proof.
  induction l as [|x l IH]; cbn; intros Hx; [done|].
  rewrite Hx, IH; auto.
Qed.

Lemma sumZ_zero_in f l : (forall x, In x l -> f x = 0) -> sumZ f l = 0.
Proof.
  intros Hx. rewrite (sumZ_ext_in f (fun _ => 0)) by done.
  induction l; cbn in *; auto.
Qed.

Lemma sumZ_filter f p l :
  sumZ f (List.filter p l) = sumZ (fun x => if p x then f x else 0) l.
Proof. induction l as [|x l IH]; cbn; [done|]. destruct (p x); cbn; lia. Qed.

Lemma sumZ_nonneg f l : (forall x, In x l -> 0 <= f x) -> 0 <= sumZ f l.
Proof.
  induction l as [|x l IH]; cbn; intros Hx; [lia|].
  pose proof (Hx x). pose proof (IH ltac:(auto)). intuition lia.
Qed.

Lemma sumZ_ge_member f l x :
  (forall y, In y l -> 0 <= f y) -> In x l -> f x <= sumZ f l.
Proof.
  induction l as [|y l IH]; cbn; intros Hn Hx; [done|].
  assert (0 <= sumZ f l) by (apply sumZ_nonneg; auto).
  destruct Hx as [->|Hx]; [lia|].
  pose proof (IH ltac:(auto) Hx). pose proof (Hn y). intuition lia.
Qed.

Lemma sumZ_map {B} (h : B -> A) f (l : list B) : sumZ f (map h l) = sumZ (fun x => f (h x)) l.
Proof. induction l; cbn; [done|]. lia. Qed.

Lemma sumZ_plus f g l : sumZ (fun x => f x + g x) l = sumZ f l + sumZ g l.
Proof. induction l; cbn; lia. Qed.

Lemma sumZ_le f g l : (forall x, In x l -> f x <= g x) -> sumZ f l <= sumZ g l.
Proof.
  induction l as [|x l IH]; cbn; intros Hx; [lia|].
  pose proof (Hx x). pose proof (IH ltac:(auto)). intuition lia.
Qed.
End Sums.

Lemma countZ_snoc {A} (p : A -> bool) l x : countZ p (l ++ [x]) = countZ p l + (if p x then 1 else 0).
Proof. unfold countZ. rewrite sumZ_app. cbn. lia. Qed.

(** Go's running sum is the true sum, wrapped around. *)
Lemma sum64_wrap (l : list Z) : sum64 l = wrap64 (sumZ (fun x => x) l).
Proof.
  unfold sum64. assert (forall a, fold_left add64 l (wrap64 a) = wrap64 (a + sumZ (fun x => x) l)) as H.
  { induction l as [|x l IH]; intros a; cbn; [by rewrite Z.add_0_r|].
    assert (add64 (wrap64 a) x = wrap64 (a + x)) as ->.
    { unfold add64, wrap64. f_equal.
      replace ((a + 2 ^ 63) mod 2 ^ 64 - 2 ^ 63 + x + 2 ^ 63) with ((a + 2 ^ 63) mod 2 ^ 64 + x) by lia.
      rewrite Z.add_mod_idemp_l by lia. f_equal. lia. }
    rewrite IH. f_equal. lia. }
  apply (H 0).
Qed.

Lemma sum64_exact (l : list Z) :
  int64_min <= sumZ (fun x => x) l <= int64_max -> sum64 l = sumZ (fun x => x) l.
Proof. intros. rewrite sum64_wrap. by apply wrap64_id. Qed.

Create HintDb tables.
Create Rewrite HintDb sums.
#[export] Hint Rewrite @sumZ_nil @sumZ_cons @sumZ_app @sumZ_filter : sums.

(** ** Keyed tables *)

Section Keyed.
Context {R : Type} (key : R -> string).
Implicit Types (l : list R) (k : string) (r : R) (f : R -> R) (p : R -> bool).

Definition has_key k r : bool := String.eqb (key r) k.

(** [key] is a primary key of the table [l]. *)
Definition keyed l : Prop := List.NoDup (map key l).

Lemma has_key_true k r : has_key k r = true <-> key r = k.
Proof. apply String.eqb_eq. Qed.

Lemma has_key_false k r : has_key k r = false <-> key r <> k.
Proof. apply String.eqb_neq. Qed.

Lemma has_key_refl r : has_key (key r) r = true.
Proof. by apply has_key_true. Qed.

Lemma keyed_nil : keyed [].
Proof. constructor. Qed.

Lemma keyed_cons r l : keyed (r :: l) <-> ~ In (key r) (map key l) /\ keyed l.
Proof. apply List.NoDup_cons_iff. Qed.

Lemma keyed_snoc r l : keyed l -> ~ In (key r) (map key l) -> keyed (l ++ [r]).
Proof.
  unfold keyed. intros Hk Hn. rewrite map_app. cbn.
  apply List.NoDup_app; auto.
  - constructor; [by intros []|constructor].
  - intros a Ha [<-|[]]. done.
Qed.

Lemma find_key_In k l r : List.find (has_key k) l = Some r -> In r l /\ key r = k.
Proof. intros [? ?%has_key_true]%List.find_some. done. Qed.

Lemma find_key_None k l : List.find (has_key k) l = None <-> ~ In k (map key l).
Proof.
  split.
  - intros Hf (r & <- & Hr)%in_map_iff.
    pose proof (List.find_none _ _ Hf r Hr) as Hn. by rewrite has_key_refl in Hn.
  - intros Hn. destruct (List.find (has_key k) l) as [r|] eqn:F; [|done].
    apply find_key_In in F as [? <-]. destruct Hn. by apply in_map.
Qed.

Lemma keyed_find l r : keyed l -> In r l -> List.find (has_key (key r)) l = Some r.
Proof.
  induction l as [|x l IH]; cbn; [done|]. intros [Hx Hk]%keyed_cons [->|Hr].
  - by rewrite has_key_refl.
  - destruct (has_key (key r) x) eqn:F; [|auto].
    apply has_key_true in F. destruct Hx. rewrite F. by apply in_map.
Qed.

Lemma keyed_inj l r1 r2 : keyed l -> In r1 l -> In r2 l -> key r1 = key r2 -> r1 = r2.
Proof.
  intros Hk H1%(keyed_find _ _ Hk) H2%(keyed_find _ _ Hk) E.
  rewrite E in H1. congruence.
Qed.

Lemma find_key_app k l1 l2 :
  List.find (has_key k) (l1 ++ l2) =
  match List.find (has_key k) l1 with
  | Some r => Some r
  | None => List.find (has_key k) l2
  end.
Proof. induction l1 as [|x l IH]; cbn; [done|]. by destruct (has_key k x). Qed.

(** Updates that keep the key. *)
Lemma map_key_update p f l :
  (forall r, key (f r) = key r) -> map key (update_where p f l) = map key l.
Proof.
  intros Hf. induction l as [|x l IH]; cbn; [done|].
  f_equal; [by destruct (p x)|done].
Qed.

Lemma keyed_update p f l :
  (forall r, key (f r) = key r) -> keyed l -> keyed (update_where p f l).
Proof. intros Hf. unfold keyed. by rewrite map_key_update. Qed.

Lemma find_key_update k p f l :
  (forall r, key (f r) = key r) ->
  List.find (has_key k) (update_where p f l) =
  option_map (fun r => if p r then f r else r) (List.find (has_key k) l).
Proof.
  intros Hf. induction l as [|x l IH]; cbn; [done|].
  assert (has_key k (if p x then f x else x) = has_key k x) as ->
    by (unfold has_key; destruct (p x); by rewrite ?Hf).
  by destruct (has_key k x).
Qed.

Lemma In_update p f l r :
  In r (update_where p f l) ->
  (In r l /\ p r = false) \/ exists r0, In r0 l /\ p r0 = true /\ r = f r0.
Proof.
  intros (r0 & <- & Hr)%in_map_iff. destruct (p r0) eqn:P; eauto.
Qed.

Lemma update_none p f l : (forall r, In r l -> p r = false) -> update_where p f l = l.
Proof.
  induction l as [|x l IH]; cbn; intros Hp; [done|].
  rewrite Hp by auto. f_equal; auto.
Qed.

Lemma select_none p l : (forall r, In r l -> p r = false) -> select_rows p l = [].
Proof.
  unfold select_rows. induction l as [|x l IH]; cbn; intros Hp; [done|].
  rewrite Hp by auto. auto.
Qed.

Lemma update_last k f l r : ~ In k (map key l) -> key r = k -> update_where (has_key k) f (l ++ [r]) = l ++ [f r].
Proof.
  intros Hk <-. unfold update_where. rewrite map_app. f_equal; [|cbn; by rewrite has_key_refl].
  apply (update_none (has_key (key r)) f l). intros x Hx. apply has_key_false. intros E. apply Hk. rewrite <- E. by apply in_map.
Qed.

(** A predicate that implies the key selects at most the key's row. *)
Lemma select_one_row p l r :
  keyed l -> In r l -> p r = true -> (forall x, p x = true -> key x = key r) ->
  select_rows p l = [r].
Proof.
  unfold select_rows. induction l as [|x l IH]; cbn; [done|].
  intros [Hx Hk]%keyed_cons Hr Pr Hp. destruct Hr as [->|Hr].
  - rewrite Pr. f_equal. apply select_none. intros y Hy.
    destruct (p y) eqn:Py; [|done]. destruct Hx. rewrite <- (Hp y Py). by apply in_map.
  - destruct (p x) eqn:Px; [|auto].
    destruct Hx. rewrite (Hp x Px). by apply in_map.
Qed.

Lemma update_one_row p f l r :
  keyed l -> In r l -> p r = true -> (forall x, p x = true -> key x = key r) ->
  update_where p f l = update_where (has_key (key r)) f l.
Proof.
  intros Hk Hr Pr Hp. apply map_ext_in. intros x Hx.
  destruct (has_key (key r) x) eqn:Kx.
  - apply has_key_true in Kx. assert (x = r) as -> by eauto using keyed_inj.
    by rewrite Pr.
  - destruct (p x) eqn:Px; [|done].
    apply has_key_false in Kx. by destruct Kx; auto.
Qed.

Lemma sumZ_update (g : R -> Z) f l r k :
  keyed l -> List.find (has_key k) l = Some r ->
  sumZ g (update_where (has_key k) f l) = sumZ g l - g r + g (f r).
Proof.
  induction l as [|x l IH]; cbn; [done|]. intros [Hx Hk]%keyed_cons.
  destruct (has_key k x) eqn:Kx; intros Hr; simplify_eq/=.
  - apply has_key_true in Kx. fold (update_where (has_key k) f l).
    rewrite update_none; [lia|]. intros y Hy. apply has_key_false. intros Ky.
    destruct Hx. rewrite Kx, <- Ky. by apply in_map.
  - fold (update_where (has_key k) f l). rewrite IH by done. lia.
Qed.
End Keyed.

Arguments find_key_In {R key k l r}.
Arguments find_key_None {R key k l}.

#[export] Hint Resolve keyed_nil : tables.

(** ** Values at a key *)

(** The sum of [g] over the rows whose [key] is [k]: with a primary key, the
    value of the one such row, or 0. *)
Definition at_key {R} (key : R -> string) (g : R -> Z) (k : string) (l : list R) : Z :=
  sumZ (fun r => if has_key key k r then g r else 0) l.

Lemma at_key_In {R} (key : R -> string) g l r :
  keyed key l -> In r l -> at_key key g (key r) l = g r.
Proof.
  unfold at_key. induction l as [|x l IH]; [done|]. intros [Hx Hk]%keyed_cons Hr. cbn [sumZ].
  destruct Hr as [->|Hr].
  - rewrite has_key_refl. rewrite sumZ_zero_in; [lia|]. intros y Hy.
    destruct (has_key key (key r) y) eqn:K; [|done]. apply has_key_true in K.
    destruct Hx. rewrite <- K. by apply in_map.
  - rewrite IH by done. destruct (has_key key (key r) x) eqn:K; [|lia].
    apply has_key_true in K. destruct Hx. rewrite K. by apply in_map.
Qed.

Lemma at_key_update {R} (pk key : R -> string) g k id f l r :
  keyed pk l -> List.find (has_key pk id) l = Some r -> key (f r) = key r ->
  at_key key g k (update_where (has_key pk id) f l) =
  at_key key g k l + (if has_key key k r then g (f r) - g r else 0).
Proof.
  intros Hk HF Hf. unfold at_key. rewrite (sumZ_update pk _ f l r id) by done.
  assert (has_key key k (f r) = has_key key k r) as -> by (unfold has_key; by rewrite Hf).
  destruct (has_key key k r); lia.
Qed.

Lemma at_key_snoc {R} (key : R -> string) g k l r :
  at_key key g k (l ++ [r]) = at_key key g k l + (if has_key key k r then g r else 0).
Proof. unfold at_key. rewrite sumZ_app. cbn. lia. Qed.

Lemma at_key_None {R} (key : R -> string) g k l :
  ~ In k (map key l) -> at_key key g k l = 0.
Proof.
  intros Hk. apply sumZ_zero_in. intros r Hr. destruct (has_key key k r) eqn:K; [|done].
  apply has_key_true in K. destruct Hk. rewrite <- K. by apply in_map.
Qed.

(** Two updates of the same row are one. *)
Lemma update_twice {R} (key : R -> string) k (f g : R -> R) l :
  (forall r, key (f r) = key r) ->
  update_where (has_key key k) g (update_where (has_key key k) f l) =
  update_where (has_key key k) (fun r => g (f r)) l.
Proof.
  intros Hf. unfold update_where. rewrite map_map. apply map_ext. intros r.
  destruct (has_key key k r) eqn:K; [|by rewrite K].
  assert (has_key key k (f r) = true) as -> by (unfold has_key in *; by rewrite Hf). done.
Qed.

(** ** ORDER BY an integer column *)

Fixpoint insert_by {R} (key : R -> Z) (r : R) (l : list R) : list R :=
  match l with
  | [] => [r]
  | x :: l' => if key r <=? key x then r :: l else x :: insert_by key r l'
  end.

Fixpoint order_by {R} (key : R -> Z) (l : list R) : list R :=
  match l with
  | [] => []
  | r :: l' => insert_by key r (order_by key l')
  end.

Lemma order_by_perm {R} (key : R -> Z) l : Permutation (order_by key l) l.
Proof.
  assert (forall r l, Permutation (insert_by key r l) (r :: l)) as Hi.
  { intros r l'. induction l' as [|x l' IH]; cbn; [done|]. case_match; [done|].
    rewrite IH. apply perm_swap. }
  induction l as [|r l IH]; cbn; [done|]. by rewrite Hi, IH.
Qed.

Lemma order_by_sorted {R} (key : R -> Z) l :
  StronglySorted (fun x y => key x <= key y) (order_by key l).
Proof.
  induction l as [|r l IH]; cbn; [constructor|].
  induction IH as [|x l' Hl IH' Hx]; cbn; [by repeat constructor|].
  destruct (Z.leb_spec (key r) (key x)).
  - constructor; [by constructor|]. constructor; [done|].
    eapply Forall_impl; [exact Hx|]. cbn. lia.
  - constructor; [done|]. rewrite List.Forall_forall in *. intros y Hy.
    assert (In y (r :: l')) as [<-|?]; [|lia|by apply Hx].
    clear -Hy. induction l' as [|z l' IHl]; cbn in *; [done|].
    destruct (key r <=? key z); cbn in *; intuition.
Qed.

Lemma order_by_id {R} (key : R -> Z) l :
  StronglySorted (fun x y => key x <= key y) l -> order_by key l = l.
Proof.
  induction 1 as [|r l Hl IH Hr]; cbn; [done|]. rewrite IH. destruct l as [|x l]; [done|]. cbn.
  inversion Hr; subst. by rewrite (proj2 (Z.leb_le _ _)).
Qed.

Lemma sorted_snoc {A} (P : A -> A -> Prop) l y :
  StronglySorted P l -> (forall x, In x l -> P x y) -> StronglySorted P (l ++ [y]).
Proof.
  induction 1 as [|x l Hl IH Hx]; cbn; intros Hy; [by repeat constructor|].
  constructor; [apply IH; auto|]. rewrite List.Forall_forall in *.
  intros z [Hz|[<-|[]]]%in_app_iff; auto.
Qed.

(** ** Unique indexes *)

Lemma unique_index_None {R} name (clash : R -> R -> bool) l r :
  unique_index name clash l r = None <-> (forall x, In x l -> clash x r = false).
Proof.
  unfold unique_index. destruct (existsb _ l) eqn:E; split; try done.
  - intros Hx. apply existsb_exists in E as (x & Hin & Hc). by rewrite Hx in Hc.
  - intros _ x Hx. destruct (clash x r) eqn:C; [|done].
    assert (existsb (fun x => clash x r) l = true) by (apply existsb_exists; eauto).
    congruence.
Qed.

Lemma pk_None {R} name (k : R -> string) l r :
  unique_index name (fun x y => String.eqb (k x) (k y)) l r = None -> ~ In (k r) (map k l).
Proof.
  rewrite unique_index_None. intros U (x & E & Hx)%in_map_iff. specialize (U x Hx). by rewrite E, String.eqb_refl in U.
Qed.

Lemma bigint_None z : bigint z = None <-> int64_min <= z <= int64_max.
Proof. unfold bigint. rewrite <- in_int64_iff. by destruct (in_int64 z). Qed.

Lemma first_violation_None l :
  first_violation l = None <-> Forall (fun o => o = None) l.
Proof.
  induction l as [|[e|] l IH]; cbn.
  - by split.
  - split; [done|]. inversion 1; done.
  - rewrite IH. split; [by constructor|by inversion 1].
Qed.

Lemma check_row_None {R} name (ok : R -> bool) r : check_row name ok r = None <-> ok r = true.
Proof. unfold check_row. by destruct (ok r). Qed.

(** ** CHAR(n) columns

    PostgreSQL pads a shorter value with blanks and truncates blanks beyond the
    length; any other longer value is an error. *)

Fixpoint all_blank (s : string) : bool :=
  match s with
  | EmptyString => true
  | String c s' => Ascii.eqb c " "%char && all_blank s'
  end.

Fixpoint bpchar (n : nat) (s : string) : option string :=
  match n, s with
  | O, _ => if all_blank s then Some EmptyString else None
  | S n', EmptyString => option_map (String " "%char) (bpchar n' EmptyString)
  | S n', String c s' => option_map (String c) (bpchar n' s')
  end.

(** A table as its own one-component database, for statements built by hand. *)
Definition done_or {D A} (o : option dberr) (a : A) (d : D) : reply D A :=
  match o with Some e => Reject e | None => Done a d end.

(** A table is a lawful view of its database. *)
Class LawfulTable {D R} (t : table D R) : Prop := {
  rows_put l d : rows t (put t l d) = l;
  put_put l1 l2 d : put t l2 (put t l1 d) = put t l2 d;
  put_rows d : put t (rows t d) d = d
}.

(** ** Rules for the statements over tables *)

Section StatementRules.
Context {D E R : Type} `{Deferred D} (t : table D R) (key : R -> string).
Implicit Types (ev : env) (v c : D) (n : nat).

Lemma wp_select_one p ev c t0 v n (Q : res E (option R) -> world D -> Prop) :
  (~ calm ev -> Q (Err (Db Driver)) (World c Broken (S n))) ->
  Q (Ok (List.find p (rows t v))) (World c (Live t0 v) (S n)) ->
  wp (exec (select_one t p)) ev (World c (Live t0 v) n) Q.
Proof. intros Hf Hs. by apply wp_exec. Qed.

(** UPDATE ... WHERE id = k, as a function of the row. *)
Lemma update_rows_key k f chk s v :
  keyed key (rows t v) ->
  update_rows t (has_key key k) f chk s v =
  match List.find (has_key key k) (rows t v) with
  | None => Done [] (put t (rows t v) v)
  | Some r => match chk (f s r) with
              | Some e => Reject e
              | None => Done [f s r] (put t (update_where (has_key key k) (f s) (rows t v)) v)
              end
  end.
Proof.
  intros Hk. unfold update_rows. destruct (List.find (has_key key k) (rows t v)) as [r|] eqn:F.
  - destruct (find_key_In F) as [Hr <-].
    rewrite (select_one_row key (has_key key (key r)) _ r)
      by (auto using has_key_refl; intros x ?%has_key_true; done).
    cbn. destruct (chk (f s r)) as [e|] eqn:C; cbn; [by rewrite C|done].
  - rewrite select_none, update_none; cbn; [done|..].
    all: intros r Hr; apply has_key_false; intros Kr;
      apply find_key_None in F; destruct F; rewrite <- Kr; by apply in_map.
Qed.

(** UPDATE ... WHERE id = k RETURNING ... *)
Lemma wp_update_key k f chk ev c t0 v n (Q : res E (list R) -> world D -> Prop) :
  keyed key (rows t v) ->
  (~ calm ev -> Q (Err (Db Driver)) (World c Broken (S n))) ->
  (List.find (has_key key k) (rows t v) = None ->
   Q (Ok []) (World c (Live t0 (put t (rows t v) v)) (S n))) ->
  (forall r e, List.find (has_key key k) (rows t v) = Some r ->
     chk (f (Stamp t0 (gen_uuid ev n)) r) = Some e ->
     Q (Err (Db e)) (World c Broken (S n))) ->
  (forall r, List.find (has_key key k) (rows t v) = Some r ->
     chk (f (Stamp t0 (gen_uuid ev n)) r) = None ->
     Q (Ok [f (Stamp t0 (gen_uuid ev n)) r])
       (World c (Live t0 (put t (update_where (has_key key k)
          (f (Stamp t0 (gen_uuid ev n))) (rows t v)) v)) (S n))) ->
  wp (exec (update_rows t (has_key key k) f chk)) ev (World c (Live t0 v) n) Q.
Proof.
  intros Hk Hf Hn He Hs. apply wp_exec; [done|]. rewrite update_rows_key by done.
  destruct (List.find _ _) as [r|] eqn:F; [|auto]. destruct (chk _) eqn:C; eauto.
Qed.

(** UPDATE without a constraint on the new rows. *)
Lemma wp_update_free p f ev c t0 v n (Q : res E (list R) -> world D -> Prop) :
  let s := Stamp t0 (gen_uuid ev n) in
  (~ calm ev -> Q (Err (Db Driver)) (World c Broken (S n))) ->
  Q (Ok (map (f s) (select_rows p (rows t v))))
    (World c (Live t0 (put t (update_where p (f s) (rows t v)) v)) (S n)) ->
  wp (exec (update_rows t p f (fun _ => None))) ev (World c (Live t0 v) n) Q.
Proof.
  intros s Hf Hs. apply wp_exec; [done|]. unfold update_rows.
  assert (forall l, List.find (fun _ : R => false) l = None) as -> by by induction l.
  exact Hs.
Qed.

(** UPDATE ... WHERE id = k AND guard RETURNING ... *)
Lemma wp_update_guard k g f ev c t0 v n (Q : res E (list R) -> world D -> Prop) :
  keyed key (rows t v) ->
  (~ calm ev -> Q (Err (Db Driver)) (World c Broken (S n))) ->
  ((forall r, List.find (has_key key k) (rows t v) = Some r -> g r = false) ->
   Q (Ok []) (World c (Live t0 (put t (rows t v) v)) (S n))) ->
  (forall r, List.find (has_key key k) (rows t v) = Some r -> g r = true ->
     Q (Ok [f (Stamp t0 (gen_uuid ev n)) r])
       (World c (Live t0 (put t (update_where (has_key key k)
          (f (Stamp t0 (gen_uuid ev n))) (rows t v)) v)) (S n))) ->
  wp (exec (update_rows t (fun r => has_key key k r && g r) f (fun _ => None)))
     ev (World c (Live t0 v) n) Q.
Proof.
  intros Hk Hf Hn Hs. apply wp_exec; [done|]. unfold update_rows.
  assert (forall l, List.find (fun _ : R => false) l = None) as HF by by induction l.
  rewrite HF.
  destruct (List.find (has_key key k) (rows t v)) as [r|] eqn:F; [destruct (g r) eqn:G|].
  - destruct (find_key_In F) as [Hr <-].
    assert (has_key key (key r) r && g r = true) by by rewrite has_key_refl, G.
    rewrite (select_one_row key _ _ r), (update_one_row key _ _ _ r)
      by (auto; intros x [?%has_key_true _]%andb_true_iff; done).
    cbn. eauto.
  - rewrite select_none, update_none; cbn.
    1: apply Hn; intros; congruence.
    all: intros x Hx; apply andb_false_iff;
      destruct (has_key key k x) eqn:Kx; [right|by left];
      apply has_key_true in Kx; pose proof (keyed_find key _ x Hk Hx);
      rewrite Kx in *; congruence.
  - rewrite select_none, update_none; cbn.
    1: apply Hn; intros; congruence.
    all: intros x Hx; apply andb_false_iff; left; apply has_key_false; intros Kr;
      apply find_key_None in F; destruct F; rewrite <- Kr; by apply in_map.
Qed.

Lemma wp_insert chk mk ev c t0 v n (Q : res E R -> world D -> Prop) :
  (~ calm ev -> Q (Err (Db Driver)) (World c Broken (S n))) ->
  (forall e, chk (rows t v) (mk (Stamp t0 (gen_uuid ev n))) = Some e ->
     Q (Err (Db e)) (World c Broken (S n))) ->
  (chk (rows t v) (mk (Stamp t0 (gen_uuid ev n))) = None ->
     Q (Ok (mk (Stamp t0 (gen_uuid ev n))))
       (World c (Live t0 (put t (rows t v ++ [mk (Stamp t0 (gen_uuid ev n))]) v)) (S n))) ->
  wp (exec (insert_row t chk mk)) ev (World c (Live t0 v) n) Q.
Proof.
  intros Hf He Hs. apply wp_exec; [done|]. unfold insert_row.
  destruct (chk _ _) eqn:C; auto.
Qed.
(** An INSERT whose constraints look at other tables. *)
Lemma wp_insert_in (chk : D -> list R -> R -> option dberr) (mk : D -> stamp -> R) ev c t0 v n
  (Q : res E R -> world D -> Prop) :
  let r := mk v (Stamp t0 (gen_uuid ev n)) in
  (~ calm ev -> Q (Err (Db Driver)) (World c Broken (S n))) ->
  (forall e, chk v (rows t v) r = Some e -> Q (Err (Db e)) (World c Broken (S n))) ->
  (chk v (rows t v) r = None -> Q (Ok r) (World c (Live t0 (put t (rows t v ++ [r]) v)) (S n))) ->
  wp (exec (fun s d => insert_row t (chk d) (mk d) s d)) ev (World c (Live t0 v) n) Q.
Proof.
  intros r H1 H2 H3. apply wp_exec; [done|]. unfold insert_row. cbv zeta. fold r.
  destruct (chk v (rows t v) r) eqn:C; auto.
Qed.

End StatementRules.

(** ** Operators

    PostgreSQL gives a parameter the type of its first use and looks up the
    operator for the types of both sides; there is none for an enum and a text,
    and the statement fails before it reads a row. *)

Inductive sql_type := EnumType | TextType.
#[export] Instance sql_type_eq_dec : EqDecision sql_type.
Proof. solve_decision. Defined.

Definition eq_operator (a b : sql_type) : bool := bool_decide (a = b).

Lemma wp_no_operator {D E A} `{Deferred D} (f : sql D A) ev c t n (Q : res E A -> world D -> Prop) :
  Q (Err (Db Driver)) (World c t (S n)) ->
  wp (exec_pool (fun s d => if negb (eq_operator EnumType TextType) then Reject Driver else f s d)) ev (World c t n) Q.
Proof. intros HQ. by apply wp_exec_pool. Qed.

(** ** Symbolic execution

    [wp_steps] runs a program to its leaves: it decomposes binds, executes
    statements against the world in the goal and splits on the conditions of
    the code. *)

(** Rules for the store functions of a service, tried first; each service
    rebinds it. *)
Ltac wp_hook := fail.

Ltac wp_step :=
  first [wp_hook | lazymatch goal with
  | |- wp (bind _ _) _ _ _ => apply wp_bind
  | |- wp (ret _) _ _ _ => apply wp_ret
  | |- wp (throw _) _ _ _ => apply wp_throw
  | |- wp (fail _) _ _ _ => apply wp_throw
  | |- wp (attempt _) _ _ _ => apply wp_attempt
  | |- wp (in_tx _) _ (World _ NoTx _) _ => apply wp_in_tx; [intros ?NC|]
  | |- wp (exec (select_one _ _)) _ (World _ (Live _ _) _) _ =>
      apply wp_select_one; [intros ?NC|]
  | |- wp (exec (update_rows _ (has_key _ _) _ _)) _ (World _ (Live _ _) _) _ =>
      apply wp_update_key; [|intros ?NC|intros ?FN|intros ?r ?e ?FS ?CHK|intros ?r ?FS ?CHK]
  | |- wp (exec (update_rows _ (fun r => has_key ?key _ _ && _) _ _)) _ (World _ (Live _ _) _) _ =>
      apply (wp_update_guard _ key); [|intros ?NC|intros ?FN|intros ?r ?FS ?G]
  | |- wp (exec (insert_row _ _ _)) _ (World _ (Live _ _) _) _ =>
      apply wp_insert; [intros ?NC|intros ?e ?CHK|intros ?CHK]
  | |- wp (exec _) _ (World _ (Live _ _) _) _ => apply wp_exec; [intros ?NC|]
  | |- wp (exec _) _ (World _ Broken _) _ => apply wp_exec_broken
  | |- wp commit _ (World _ (Live _ _) _) _ =>
      apply wp_commit; [intros ?DOK|intros ?DOK ?NC|intros ?NC|intros ?DBAD]
  | |- wp commit _ (World _ Broken _) _ => apply wp_commit_broken
  | |- wp rollback _ _ _ => apply wp_rollback
  | |- wp time_now _ _ _ => apply wp_time_now
  | |- wp (read_random _) _ _ _ => apply wp_read_random; intros ?
  | |- wp (if ?b then _ else _) _ _ _ => destruct b eqn:?
  | |- wp (match ?x with _ => _ end) _ _ _ => destruct x eqn:?
  end]; cbn beta iota delta [negb].

Ltac wp_steps := repeat wp_step.

(** Inserting a list of rows, none of which can be rejected. *)
Lemma wp_insert_all {D E R X} `{Deferred D} (t : table D R) `{!LawfulTable t}
  (row : X -> R) xs ev c t0 v n (Q : res E unit -> world D -> Prop) :
  (forall w, committed w = c -> ~ calm ev -> Q (Err (Db Driver)) w) ->
  (forall m, Q (Ok tt) (World c (Live t0 (put t (rows t v ++ map row xs) v)) m)) ->
  wp (for_each xs (fun x => exec (insert_row t (fun _ _ => None) (fun _ => row x)) ;;; ret tt))
     ev (World c (Live t0 v) n) Q.
Proof.
  intros Hf. revert v n. induction xs as [|x xs IH]; intros v n Hs; cbn [for_each map].
  - apply wp_ret. specialize (Hs n). by rewrite app_nil_r, put_rows in Hs.
  - wp_step. wp_step. wp_step; [by apply Hf|done|]. wp_step. apply IH. intros m.
    rewrite rows_put, put_put, <- app_assoc. apply Hs.
Qed.

(** ** Rows by a key of any type *)

Lemma NoDup_map_inj {R K} (pk : R -> K) l x y :
  List.NoDup (map pk l) -> In x l -> In y l -> pk x = pk y -> x = y.
Proof.
  induction l as [|z l IH]; [done|]. cbn. intros [Hn Hd]%List.NoDup_cons_iff [<-|Hx] [<-|Hy] E; auto.
  - destruct Hn. rewrite E. by apply in_map.
  - destruct Hn. rewrite <- E. by apply in_map.
Qed.

Lemma NoDup_map_filter {R K} (pk : R -> K) p l : List.NoDup (map pk l) -> List.NoDup (map pk (List.filter p l)).
Proof.
  induction l as [|r l IH]; [done|]. cbn [map List.filter]. intros [Hn K1]%List.NoDup_cons_iff.
  destruct (p r); [|by apply IH]. cbn [map]. constructor; [|by apply IH].
  intros (x & E & Hx)%in_map_iff. apply Hn. rewrite <- E. apply in_map. apply List.filter_In in Hx. apply Hx.
Qed.

Lemma sumZ_only {R K} `{EqDecision K} (pk : R -> K) (g : R -> Z) l r :
  List.NoDup (map pk l) -> In r l -> sumZ (fun x => if bool_decide (pk x = pk r) then g x else 0) l = g r.
Proof.
  induction l as [|z l IH]; [done|]. cbn [map sumZ]. intros [Hn Hd]%List.NoDup_cons_iff [->|Hr].
  - rewrite bool_decide_eq_true_2, sumZ_zero_in; [lia| |done]. intros x Hx. rewrite bool_decide_eq_false_2; [done|].
    intros E. apply Hn. rewrite <- E. by apply in_map.
  - rewrite IH, bool_decide_eq_false_2; [done| |done..]. intros E. apply Hn. rewrite E. by apply in_map.
Qed.

(** ** INSERT ... ON CONFLICT (pk) DO UPDATE *)

Section Upsert.
Context {D R K : Type} `{EqDecision K} (t : table D R) (pk : R -> K).

(** [f] is the SET clause; [new] is the proposed row. *)
Definition upserted (new : R) (f : R -> R) (l : list R) : list R :=
  let same r := bool_decide (pk r = pk new) in
  if existsb same l then update_where same f l else l ++ [new].

Definition upsert (check : R -> option dberr) (new : R) (f : R -> R) : sql D unit := fun _ d =>
  let l := upserted new f (rows t d) in
  match first_violation (map check (select_rows (fun r => bool_decide (pk r = pk new)) l)) with
  | Some e => Reject e
  | None => Done tt (put t l d)
  end.
End Upsert.

Section Upserted.
Context {R K : Type} `{EqDecision K} (pk : R -> K).
Implicit Types (l : list R) (f : R -> R).

Lemma upserted_sum new f l (g : R -> Z) :
  List.NoDup (map pk l) -> (forall r, pk r = pk new -> g (f r) = g r + g new) ->
  sumZ g (upserted pk new f l) = sumZ g l + g new.
Proof.
  intros Hd Hg. unfold upserted. destruct (existsb _ l) eqn:X; [|rewrite sumZ_app; cbn; lia].
  induction l as [|x l IH]; [done|]. cbn [map] in Hd. apply List.NoDup_cons_iff in Hd as [Hn Hd].
  cbn [existsb] in X. cbn [update_where map sumZ].
  destruct (bool_decide_reflect (pk x = pk new)) as [Hx|Hx].
  - rewrite Hg by done. fold (update_where (fun r => bool_decide (pk r = pk new)) f l).
    rewrite update_none; [lia|]. intros r Hr. apply bool_decide_eq_false. intros Hp.
    apply Hn. rewrite Hx, <- Hp. by apply in_map.
  - unfold update_where in IH. rewrite IH by done. lia.
Qed.

Lemma upserted_NoDup new f l :
  (forall r, pk (f r) = pk r) -> List.NoDup (map pk l) -> List.NoDup (map pk (upserted pk new f l)).
Proof.
  intros Hf Hd. unfold upserted. destruct (existsb _ l) eqn:X.
  - assert (map pk (update_where (fun r => bool_decide (pk r = pk new)) f l) = map pk l) as ->; [|done].
    unfold update_where. rewrite map_map. apply map_ext. intros r. by destruct (bool_decide _); rewrite ?Hf.
  - rewrite map_app. apply List.NoDup_app; [done|cbn; constructor; [by intros []|constructor]|].
    intros k (r & <- & Hr)%in_map_iff [Hk|[]].
    apply not_true_iff_false in X. apply X, existsb_exists. exists r. split; [done|].
    by apply bool_decide_eq_true.
Qed.

Lemma upserted_In new f l r : In r (upserted pk new f l) ->
  (In r l /\ pk r <> pk new) \/ (exists o, In o l /\ pk o = pk new /\ r = f o) \/ r = new.
Proof.
  unfold upserted. destruct (existsb _ l) eqn:X.
  - intros (o & E & Ho)%in_map_iff. destruct (bool_decide_reflect (pk o = pk new)); subst; [right; left; eauto|by left].
  - intros [Hr|[<-|[]]]%in_app_iff; [left|by right; right]. split; [done|]. intros E.
    apply not_true_iff_false in X. apply X, existsb_exists. exists r. split; [done|]. by apply bool_decide_eq_true.
Qed.

Lemma upserted_keys new f l k : (forall r, pk (f r) = pk r) ->
  In k (map pk (upserted pk new f l)) <-> k = pk new \/ In k (map pk l).
Proof.
  intros Hf. unfold upserted. destruct (existsb _ l) eqn:X.
  - unfold update_where. rewrite map_map. rewrite (map_ext _ pk); [|intros r; by destruct (bool_decide _); rewrite ?Hf].
    split; [by right|intros [->|]; [|done]]. apply existsb_exists in X as (r & Hr & E%bool_decide_eq_true). rewrite <- E. by apply in_map.
  - rewrite map_app, in_app_iff. cbn. split; [intros [?|[<-|[]]]; auto|intros [->|?]; auto].
Qed.

Lemma upserted_Forall (P : R -> Prop) new f l :
  Forall P l -> P new -> (forall r, P r -> P (f r)) -> Forall P (upserted pk new f l).
Proof.
  intros Hl Hn Hf. apply List.Forall_forall. rewrite List.Forall_forall in Hl.
  intros r [[Hr _]|[(o & Ho & _ & ->)| ->]]%upserted_In; auto.
Qed.
End Upserted.

Lemma wp_upsert {D E R K} `{Deferred D} `{EqDecision K} (t : table D R) (pk : R -> K) check new f ev c t0 v n
  (Q : res E unit -> world D -> Prop) :
  (forall e w, committed w = c -> Q (Err (Db e)) w) ->
  Q (Ok tt) (World c (Live t0 (put t (upserted pk new f (rows t v)) v)) (S n)) ->
  wp (exec (upsert t pk check new f)) ev (World c (Live t0 v) n) Q.
Proof.
  intros Hf Hs. apply wp_exec; [intros _; by apply Hf|]. unfold upsert.
  destruct (first_violation _); [by apply Hf|done].
Qed.

(** The same without constraints, the new row being made of the stamp. *)
Lemma wp_upsert_free {D E R K} `{Deferred D} `{EqDecision K} (t : table D R) (pk : R -> K) (new : stamp -> R)
  (f : stamp -> R -> R) ev c t0 v n (Q : res E unit -> world D -> Prop) :
  (forall e w, committed w = c -> Q (Err (Db e)) w) ->
  (let s := Stamp t0 (gen_uuid ev n) in Q (Ok tt) (World c (Live t0 (put t (upserted pk (new s) (f s) (rows t v)) v)) (S n))) ->
  wp (exec (fun s d => upsert t pk (fun _ => None) (new s) (f s) s d)) ev (World c (Live t0 v) n) Q.
Proof.
  intros Hf Hs. apply wp_exec; [intros _; by apply Hf|]. unfold upsert.
  assert (forall l : list R, first_violation (map (fun _ => None) l) = None) as -> by (intros l; induction l; done). exact Hs.
Qed.

(** INSERT ... ON CONFLICT DO UPDATE ... RETURNING: the row as it is then. *)
Definition upsert_returning {D R K} `{EqDecision K} (t : table D R) (pk : R -> K) (new : R) (f : R -> R) : sql D R := fun _ d =>
  Done (default new (option_map f (List.find (fun r => bool_decide (pk r = pk new)) (rows t d))))
    (put t (upserted pk new f (rows t d)) d).

Lemma upserted_find {R K} `{EqDecision K} (pk : R -> K) new f l k : (forall r, pk (f r) = pk r) ->
  List.find (fun r => bool_decide (pk r = k)) (upserted pk new f l) =
  if bool_decide (k = pk new)
  then Some (default new (option_map f (List.find (fun r => bool_decide (pk r = pk new)) l)))
  else List.find (fun r => bool_decide (pk r = k)) l.
Proof.
  intros Hf. unfold upserted. destruct (existsb _ l) eqn:X.
  - induction l as [|x l IH]; [done|]. cbn [existsb] in X. cbn [update_where map List.find].
    destruct (bool_decide_reflect (pk x = pk new)) as [E|NE]; cbn [orb] in X.
    + rewrite Hf, E. destruct (bool_decide_reflect (k = pk new)) as [->|N]; [by rewrite bool_decide_eq_true_2|].
      rewrite bool_decide_eq_false_2 by congruence. clear IH X. fold (update_where (fun r => bool_decide (pk r = pk new)) f l).
      induction l as [|y l IH]; [done|]. cbn [update_where map List.find].
      destruct (bool_decide_reflect (pk y = pk new)) as [Ey|NEy]; rewrite ?Hf; [|by destruct (bool_decide (pk y = k))].
      by rewrite Ey, (bool_decide_eq_false_2 (pk new = k)) by congruence.
    + fold (update_where (fun r => bool_decide (pk r = pk new)) f l). rewrite IH by done.
      destruct (bool_decide_reflect (k = pk new)) as [->|N]; [by rewrite bool_decide_eq_false_2|done].
  - assert (List.find (fun r => bool_decide (pk r = pk new)) l = None) as EN.
    { destruct (List.find _ l) as [r|] eqn:F; [|done]. apply List.find_some in F as [Hr E].
      apply not_true_iff_false in X. destruct X. apply existsb_exists. by exists r. }
    rewrite EN. cbn [option_map default].
    assert (List.find (fun r => bool_decide (pk r = k)) (l ++ [new]) =
      match List.find (fun r => bool_decide (pk r = k)) l with Some r => Some r | None => if bool_decide (pk new = k) then Some new else None end) as ->.
    { clear. induction l as [|x l IH]; cbn [app List.find]; [done|]. by destruct (bool_decide (pk x = k)). }
    destruct (bool_decide_reflect (k = pk new)) as [->|N]; [by rewrite EN, bool_decide_eq_true_2|].
    rewrite (bool_decide_eq_false_2 (pk new = k)) by congruence.
    by destruct (List.find (fun r => bool_decide (pk r = k)) l).
Qed.

Lemma filter_all {A} (p : A -> bool) l : (forall x, In x l -> p x = true) -> List.filter p l = l.
Proof.
  induction l as [|x l IH]; intros Hp; [done|]. cbn [List.filter]. rewrite Hp by (by left). f_equal. apply IH. intros y Hy.
  apply Hp. by right.
Qed.

(** Rows that an update or an upsert does not touch. *)
Lemma select_update_other {R} (p q : R -> bool) (f : R -> R) l : (forall r, q r = true -> p r = false /\ p (f r) = false) ->
  select_rows p (update_where q f l) = select_rows p l.
Proof.
  intros Hf. unfold select_rows, update_where. induction l as [|x l IH]; [done|]. cbn [map List.filter].
  destruct (q x) eqn:Q; [|by rewrite IH]. destruct (Hf x Q) as [-> ->]. exact IH.
Qed.

Lemma upserted_spares {R K} `{EqDecision K} (pk : R -> K) (p : R -> bool) new f l : p new = false ->
  (forall r, pk r = pk new -> p r = false /\ p (f r) = false) -> select_rows p (upserted pk new f l) = select_rows p l.
Proof.
  intros Hn Hf. unfold upserted. destruct (existsb _ l).
  - apply select_update_other. intros r E%bool_decide_eq_true. by apply Hf.
  - unfold select_rows. rewrite List.filter_app. cbn. by rewrite Hn, app_nil_r.
Qed.

(** Counts under updates. *)
Lemma countZ_none {R} (p : R -> bool) l : existsb p l = false -> countZ p l = 0.
Proof. unfold countZ. induction l as [|x l IH]; cbn; [done|]. destruct (p x); cbn; [done|]. intros E. by rewrite IH. Qed.

Lemma countZ_update {R} (p q : R -> bool) (f : R -> R) l : (forall r, p (f r) = p r) -> countZ p (update_where q f l) = countZ p l.
Proof.
  intros Hf. unfold countZ, update_where. induction l as [|x l IH]; cbn; [done|]. rewrite IH. by destruct (q x); rewrite ?Hf.
Qed.

Lemma countZ_update_le {R} (p q : R -> bool) (f : R -> R) l : (forall r, p (f r) = false) -> countZ p (update_where q f l) <= countZ p l.
Proof.
  intros Hf. unfold countZ, update_where. induction l as [|x l IH]; cbn; [lia|].
  destruct (q x); rewrite ?Hf; destruct (p x); lia.
Qed.

Lemma countZ_key {R} (key : R -> string) l r : keyed key l -> In r l -> countZ (has_key key (key r)) l = 1.
Proof.
  induction l as [|x l IH]; [done|]. intros [Hn Hk]%keyed_cons Hr. unfold countZ. cbn [sumZ]. fold (countZ (has_key key (key r)) l).
  destruct Hr as [->|Hr].
  - rewrite has_key_refl. rewrite countZ_none; [done|]. apply not_true_iff_false. intros (y & Hy & E%has_key_true)%existsb_exists.
    apply Hn. rewrite <- E. by apply in_map.
  - rewrite (proj2 (has_key_false _ _ _)); [|intros E; apply Hn; rewrite E; by apply in_map]. by rewrite IH.
Qed.

(** TIMESTAMPTZ keeps microseconds. *)
Definition to_timestamptz (t : Z) : Z := t / 1000 * 1000.

(** ** How a transaction ends

    What a run may draw from its environment: the time its transaction began
    and the identifiers the server generated, in order. *)
Record draw := Draw { began : Z; ids : nat -> string }.

Definition drawn (ev : env) (s : draw) : Prop :=
  (exists n, began s = clock ev n) /\ forall j, exists k, ids s j = gen_uuid ev k.

(** The call ran [spec], a function of the draw that gives its answer and the
    new tables or an error, as one transaction: it answered and the tables are
    the new ones, or it reported the error and they are the old ones. A driver
    failure leaves the old ones or, at the commit, the new ones. *)
Inductive settles {D E A : Type} (ev : env) (d : D) (spec : draw -> A * D + err E)
  : res E A -> D -> Prop :=
| settles_ok s a d' : drawn ev s -> spec s = inl (a, d') -> settles ev d spec (Ok a) d'
| settles_err s e : drawn ev s -> spec s = inr e -> settles ev d spec (Err e) d
| settles_lost s a d' : ~ calm ev -> drawn ev s -> spec s = inl (a, d') ->
    settles ev d spec (Err (Db Driver)) d'
| settles_failed : ~ calm ev -> settles ev d spec (Err (Db Driver)) d.

Section Settles.
Context {D E A : Type} (ev : env) (d : D) (spec : draw -> A * D + err E).

Lemma settles_changed r d' :
  settles ev d spec r d' -> d' = d \/ exists s a, spec s = inl (a, d').
Proof. destruct 1; eauto. Qed.

Lemma settles_calm r d' :
  settles ev d spec r d' -> calm ev ->
  exists s, drawn ev s /\
    match spec s with inl (a, d1) => r = Ok a /\ d' = d1 | inr e => r = Err e /\ d' = d end.
Proof. destruct 1 as [s a d' ? H|s e ? H| |]; try done; intros _; exists s; by rewrite H. Qed.

Lemma settles_dom e d' : settles ev d spec (Err (Dom e)) d' -> d' = d /\ exists s, spec s = inr (Dom e).
Proof. inversion 1; eauto. Qed.

Lemma settles_answer a d' : settles ev d spec (Ok a) d' -> exists s, spec s = inl (a, d').
Proof. inversion 1; eauto. Qed.
End Settles.

(** The transaction is closed at the end. *)
Definition ended {D E A} (O : res E A -> D -> Prop) (r : res E A) (w : world D) : Prop :=
  txs w = NoTx /\ O r (committed w).

(** The same, before the deferred rollback of a transaction's body. *)
Definition closing_as {D E A} (ev : env) (d : D) (spec : draw -> A * D + err E) (r : res E A) (w : world D) : Prop :=
  ended (settles ev d spec) r (World (committed w) NoTx (tick w)).

Section Closing.
Context {D E A : Type} `{Deferred D} (ev : env) (d : D) (spec : draw -> A * D + err E).

Lemma drawn_at n u : (forall j, exists k, u j = gen_uuid ev k) -> drawn ev (Draw (clock ev n) u).
Proof. intros Hu. split; [by exists n|exact Hu]. Qed.

Lemma closing_failed w : committed w = d -> ~ calm ev -> closing_as ev d spec (Err (Db Driver)) w.
Proof. intros <- NC. split; [done|]. by apply settles_failed. Qed.

Lemma closing_error e w : committed w = d -> (forall s, spec s = inr e) -> closing_as ev d spec (Err e) w.
Proof.
  intros <- Hs. split; [done|]. apply (settles_err _ _ _ (Draw (clock ev 0) (gen_uuid ev))); [|done].
  apply drawn_at. by eexists.
Qed.

Lemma ended_error e n : (forall s, spec s = inr e) -> ended (settles ev d spec) (Err e) (World d NoTx n).
Proof. intros Hs. by apply (closing_error e (World d NoTx n)). Qed.

Lemma ended_failed n : ~ calm ev -> ended (settles ev d spec) (Err (Db Driver)) (World d NoTx n).
Proof. intros NC. by apply (closing_failed (World d NoTx n)). Qed.

Lemma wp_in_settles (body : prog D E A) n :
  wp body ev (World d (Live (clock ev n) d) (S n)) (closing_as ev d spec) ->
  wp (in_tx body) ev (World d NoTx n) (ended (settles ev d spec)).
Proof. intros Hb. apply wp_in_tx; [intros NC; by apply ended_failed|exact Hb]. Qed.

Lemma wp_commit_ret a d' s t m :
  drawn ev s -> spec s = inl (a, d') -> deferred_ok d d' = true ->
  wp (commit ;;; ret a) ev (World d (Live t d') m) (closing_as ev d spec).
Proof.
  intros Hd Hs HF. apply wp_bind, wp_commit.
  - intros _. apply wp_ret. split; [done|]. by eapply settles_ok.
  - intros _ NC. split; [done|]. by eapply settles_lost.
  - intros NC. split; [done|]. by apply settles_failed.
  - congruence.
Qed.
End Closing.

Lemma wp_commit_last {D E} `{Deferred D} ev (d d' : D) (spec : draw -> unit * D + err E) s t m :
  drawn ev s -> spec s = inl (tt, d') -> deferred_ok d d' = true ->
  wp commit ev (World d (Live t d') m) (closing_as ev d spec).
Proof.
  intros Hd Hs HF. apply wp_commit.
  - intros _. split; [done|]. by eapply settles_ok.
  - intros _ NC. split; [done|]. by eapply settles_lost.
  - intros NC. split; [done|]. by apply settles_failed.
  - congruence.
Qed.

#[export] Hint Resolve closing_failed ended_failed : tables.

(** ** Calls that change the tables or leave them alone

    [changes d P]: an answer comes with the change [P]; after an error the tables
    are the old ones or, when the acknowledgement of the commit was lost, changed
    by [P]. *)
Definition changes {D E A} (d : D) (P : A -> D -> Prop) (r : res E A) (d' : D) : Prop :=
  match r with Ok a => P a d' | Err _ => d' = d \/ exists a, P a d' end.

Definition closing {D E A} (O : res E A -> D -> Prop) (r : res E A) (w : world D) : Prop :=
  ended O r (World (committed w) NoTx (tick w)).

Section Changes.
Context {D E A : Type} `{Deferred D} (ev : env) (d : D) (P : A -> D -> Prop).

Lemma changes_mono (P' : A -> D -> Prop) (r : res E A) d' :
  (forall a x, P a x -> P' a x) -> changes d P r d' -> changes d P' r d'.
Proof. intros HP. destruct r as [a|e]; cbn; [apply HP|]. intros [->|(a & Ha)]; eauto. Qed.

Lemma changed_cases (r : res E A) d' : changes d P r d' -> d' = d \/ exists a, P a d'.
Proof. destruct r; cbn; eauto. Qed.

Lemma closing_same (e : err E) w : committed w = d -> closing (changes d P) (Err e) w.
Proof. intros E1. split; [done|by left]. Qed.

Lemma wp_in_changes (body : prog D E A) n :
  wp body ev (World d (Live (clock ev n) d) (S n)) (closing (changes d P)) ->
  wp (in_tx body) ev (World d NoTx n) (ended (changes d P)).
Proof. intros Hb. apply wp_in_tx; [|exact Hb]. intros _. split; [done|by left]. Qed.

Lemma wp_commit_answer a d' t m : P a d' -> wp (commit ;;; ret a) ev (World d (Live t d') m) (closing (E := E) (changes d P)).
Proof.
  intros HP. apply wp_bind, wp_commit; intros.
  - apply wp_ret. by split.
  - split; [done|]. right. by exists a.
  - by apply closing_same.
  - by apply closing_same.
Qed.

Lemma ended_same (e : err E) n : ended (changes d P) (Err e) (World d NoTx n).
Proof. split; [done|by left]. Qed.
End Changes.

Lemma wp_commit_change {D E} `{Deferred D} ev (d d' : D) (P : unit -> D -> Prop) t m :
  P tt d' -> wp commit ev (World d (Live t d') m) (closing (E := E) (changes d P)).
Proof.
  intros HP. apply wp_commit; intros.
  - by split.
  - split; [done|]. right. by exists tt.
  - by apply closing_same.
  - by apply closing_same.
Qed.

(** A statement on the pool is a transaction of its own. *)
Lemma wp_pool_changes {D E A} `{Deferred D} (f : sql D A) ev (d : D) n (P : A -> D -> Prop) :
  (forall u, match f (Stamp (clock ev n) u) d with Done a d' => P a d' | Reject _ => True end) ->
  wp (exec_pool f) ev (World d NoTx n) (ended (E := E) (changes d P)).
Proof.
  intros Hf. apply wp_exec_pool. specialize (Hf (gen_uuid ev n)). destruct (f _ d) as [a d'|e].
  - split; [intros _; by apply ended_same|]. split; [intros _; split; [done|right; by exists a]|]. by split.
  - split; [intros _|]; apply ended_same.
Qed.

Lemma dropped_answer {D E A} (p : prog D E A) ev w : committed (snd ((p ;;; ret tt) ev w)) = committed (snd (p ev w)).
Proof. unfold bind. by destruct (p ev w) as [[]]. Qed.

Lemma ended_changed {D E A} `{Deferred D} (p : prog D E A) ev (d : D) n (P : A -> D -> Prop) :
  wp p ev (rest d n) (ended (changes d P)) ->
  committed (snd (p ev (rest d n))) = d \/ exists a, P a (committed (snd (p ev (rest d n)))).
Proof. intros [_ Hp]. by apply changed_cases in Hp. Qed.

#[export] Hint Resolve closing_same ended_same : tables.

(** Runs an operation; driver failures before the commit end in
    [settles_failed]. *)
Ltac run_op :=
  repeat wp_step; cbn [now fresh committed txs] in *;
  try (split; [done|by apply settles_failed]); try discriminate.

(** Matches an end of the run with the specification, at the draw [s]. *)
Ltac settle_as spec s :=
  split; [done|]; cbn [committed];
  first [eapply (settles_ok _ _ _ s) | eapply (settles_err _ _ _ s)
        | eapply (settles_lost _ _ _ s); [assumption| |]];
  [split; cbn [began ids]; [eexists; reflexivity|intros ?j; eexists; reflexivity]|];
  unfold spec; cbn [began ids];
  repeat match goal with
  | H : ?x = _ |- context [?x] => rewrite H; cbn beta iota zeta delta [negb]
  end; try done.

(** ** A quiet environment, for the witnesses *)

Fixpoint marks (n : nat) : string :=
  match n with O => "" | S n' => String "x" (marks n') end.

Definition quiet_env : env :=
  Env (fun _ => false) (fun _ => false) Z.of_nat (fun n => ("id-" ++ marks n)%string)
    (fun _ => Some Z.of_nat).

Lemma quiet_calm : calm quiet_env.
Proof. intros n. reflexivity. Qed.
