(* ===== verification/Ids.v ===== *)
(** * Generated identifiers

    Hex text, and the version 4 UUIDs that the stores of the money services
    mint for ledger groups (newUUID of services/escrow and services/payment,
    the same code in both). *)
From S2P Require Export Tables.

Definition hex_digit (z : Z) : Ascii.ascii :=
  match z with
  | 0 => "0" | 1 => "1" | 2 => "2" | 3 => "3" | 4 => "4" | 5 => "5" | 6 => "6" | 7 => "7"
  | 8 => "8" | 9 => "9" | 10 => "a" | 11 => "b" | 12 => "c" | 13 => "d" | 14 => "e" | _ => "f"
  end%char.

(** hex.EncodeToString *)
Fixpoint hex_encode (b : list Z) : string :=
  match b with
  | [] => ""
  | x :: b' => String (hex_digit (Z.shiftr x 4)) (String (hex_digit (Z.land x 15)) (hex_encode b'))
  end.

(** The first eight bytes from the clock, when crypto/rand fails. *)
Definition ns_bytes (ns : Z) : list Z :=
  map (fun i => Z.land (Z.shiftr ns (8 * Z.of_nat i)) 255) (seq 0 8) ++ repeat 0 8.

Definition newUUID (random : option (list Z)) (ns : Z) : string :=
  let b := match random with Some l => l | None => ns_bytes ns end in
  let b := <[6%nat := Z.lor (Z.land (nth 6 b 0) 15) 64]> b in
  let b := <[8%nat := Z.lor (Z.land (nth 8 b 0) 63) 128]> b in
  let h := hex_encode b in
  let slice i n := String.substring i n h in
  String.concat "-" [slice 0 8; slice 8 4; slice 12 4; slice 16 4; slice 20 12]%nat.

Definition NewUUID {D E} : prog D E string :=
  b <- read_random 16 ;;
  ns <- time_now ;;
  ret (newUUID b ns).

Lemma wp_NewUUID {D E} `{Deferred D} ev (c : D) t n (Q : res E string -> world D -> Prop) :
  (forall g m, Q (Ok g) (World c t m)) -> wp NewUUID ev (World c t n) Q.
Proof. intros HQ. unfold NewUUID. wp_steps. apply HQ. Qed.

(** * Ledger group identifiers

    [NewUUID] draws the [txn_group] of a double-entry set.  The text it returns is a version 4 UUID from which the sixteen random bytes
    can be read back, so groups of different draws stay apart. *)
Definition is_byte (z : Z) : Prop := 0 <= z < 256.

(** ** Reading the text back *)

Definition hex_value (c : Ascii.ascii) : option Z :=
  let n := Z.of_nat (nat_of_ascii c) in
  if (48 <=? n) && (n <=? 57) then Some (n - 48)
  else if (97 <=? n) && (n <=? 102) then Some (n - 87) else None.

Fixpoint hex_decode (s : string) : option (list Z) :=
  match s with
  | String a (String b s') =>
      match hex_value a, hex_value b, hex_decode s' with
      | Some x, Some y, Some l => Some (16 * x + y :: l)
      | _, _, _ => None
      end
  | String _ EmptyString => None
  | EmptyString => Some []
  end.

Fixpoint without_dashes (s : string) : string :=
  match s with
  | EmptyString => EmptyString
  | String c s' => if Ascii.eqb c "-" then without_dashes s' else String c (without_dashes s')
  end.

Definition parse_uuid (s : string) : option (list Z) := hex_decode (without_dashes s).

(** The version and variant bits that newUUID sets (RFC 4122, section 4.4). *)
Definition v4_bytes (b : list Z) : list Z :=
  <[8%nat := Z.lor (Z.land (nth 8 b 0) 63) 128]>
    (<[6%nat := Z.lor (Z.land (nth 6 b 0) 15) 64]> b).

(** Case analysis on a small range of integers. *)
Lemma below (P : Z -> bool) n z :
  forallb P (map Z.of_nat (seq 0 n)) = true -> 0 <= z < Z.of_nat n -> P z = true.
Proof.
  intros Hall Hz. rewrite forallb_forall in Hall. apply Hall.
  apply in_map_iff. exists (Z.to_nat z). rewrite in_seq. lia.
Qed.

Lemma hex_value_digit z : 0 <= z < 16 -> hex_value (hex_digit z) = Some z.
Proof.
  intros Hz.
  pose proof (below (fun z => match hex_value (hex_digit z) with Some y => Z.eqb z y | None => false end)
    16 z eq_refl Hz) as H. cbn beta in H.
  destruct (hex_value (hex_digit z)); [|done]. by apply Z.eqb_eq in H as ->.
Qed.

Lemma hex_digit_not_dash z : Ascii.eqb (hex_digit z) "-" = false.
Proof. unfold hex_digit. repeat case_match; done. Qed.

Lemma byte_nibbles z : is_byte z ->
  0 <= Z.shiftr z 4 < 16 /\ 0 <= Z.land z 15 < 16 /\ 16 * Z.shiftr z 4 + Z.land z 15 = z.
Proof.
  unfold is_byte. intros Hz. rewrite Z.shiftr_div_pow2 by lia.
  change 15 with (Z.ones 4). rewrite Z.land_ones by lia. change (2 ^ 4) with 16.
  pose proof (Z.div_mod z 16). pose proof (Z.mod_pos_bound z 16).
  pose proof (Z.div_le_upper_bound z 16 15). pose proof (Z.div_pos z 16). lia.
Qed.

Lemma hex_roundtrip b : Forall is_byte b -> hex_decode (hex_encode b) = Some b.
Proof.
  induction 1 as [|z b Hz _ IH]; cbn [hex_encode hex_decode]; [done|].
  destruct (byte_nibbles z Hz) as (H1 & H2 & H3).
  by rewrite (hex_value_digit _ H1), (hex_value_digit _ H2), IH, H3.
Qed.

Lemma set_bits_byte z m v : (m = 15 /\ v = 64) \/ (m = 63 /\ v = 128) ->
  is_byte (Z.lor (Z.land z m) v).
Proof.
  intros Hmv.
  assert (exists k, m = Z.ones k /\ 0 <= k /\ 0 < 2 ^ k <= 64) as (k & -> & Hk & Hp)
    by (destruct Hmv as [[-> ->]|[-> ->]]; [exists 4|exists 6]; done).
  rewrite Z.land_ones by done. pose proof (Z.mod_pos_bound z (2 ^ k) ltac:(lia)) as Hr.
  generalize dependent (z mod 2 ^ k). generalize dependent (2 ^ k). intros p Hp r Hr.
  pose proof (below (fun x => (0 <=? Z.lor x 64) && (Z.lor x 64 <? 256) && (0 <=? Z.lor x 128) && (Z.lor x 128 <? 256))
    64 r eq_refl ltac:(lia)) as Hb. cbn beta in Hb.
  unfold is_byte. destruct Hmv as [[_ ->]|[_ ->]]; lia.
Qed.

Lemma v4_bytes_bytes b : Forall is_byte b -> Forall is_byte (v4_bytes b).
Proof.
  intros Hb. unfold v4_bytes. repeat apply Forall_insert; auto using set_bits_byte.
Qed.

Lemma without_dashes_app s1 s2 :
  without_dashes (s1 ++ s2)%string = (without_dashes s1 ++ without_dashes s2)%string.
Proof.
  induction s1 as [|c s1 IH]; [done|].
  change (without_dashes (String c (s1 ++ s2)) = (without_dashes (String c s1) ++ without_dashes s2)%string).
  cbn [without_dashes]. rewrite IH. by destruct (Ascii.eqb c "-").
Qed.

Lemma without_dashes_hex l : without_dashes (hex_encode l) = hex_encode l.
Proof.
  induction l as [|z l IH]; [done|].
  cbn [hex_encode without_dashes]. by rewrite !hex_digit_not_dash, IH.
Qed.

Lemma hex_encode_app l1 l2 : hex_encode (l1 ++ l2) = (hex_encode l1 ++ hex_encode l2)%string.
Proof.
  induction l1 as [|z l1 IH]; [done|].
  cbn [hex_encode app]. by rewrite IH.
Qed.

(** The text of sixteen bytes, group by group. *)
Definition uuid_text (h : string) : string :=
  let slice i n := String.substring i n h in
  String.concat "-" [slice 0 8; slice 8 4; slice 12 4; slice 16 4; slice 20 12]%nat.

Lemma uuid_text_groups l : List.length l = 16%nat ->
  uuid_text (hex_encode l) =
  (hex_encode (take 4 l) ++ "-" ++ hex_encode (take 2 (drop 4 l)) ++ "-" ++
   hex_encode (take 2 (drop 6 l)) ++ "-" ++ hex_encode (take 2 (drop 8 l)) ++ "-" ++
   hex_encode (drop 10 l))%string.
Proof. intros Hl. do 16 (destruct l as [|? l]; [done|]). by destruct l. Qed.

Lemma without_dashes_text l : List.length l = 16%nat ->
  without_dashes (uuid_text (hex_encode l)) = hex_encode l.
Proof.
  intros Hl. rewrite uuid_text_groups by done.
  rewrite !without_dashes_app, !without_dashes_hex.
  change (without_dashes "-") with "". do 16 (destruct l as [|? l]; [done|]). by destruct l.
Qed.

Lemma newUUID_text b ns : newUUID (Some b) ns = uuid_text (hex_encode (v4_bytes b)).
Proof.
  assert (forall x, nth 8 (<[6%nat := x]> b) 0 = nth 8 b 0) as H
    by (intros x; by do 9 (destruct b as [|? b]; [done|])).
  unfold newUUID, v4_bytes. cbn zeta. by rewrite H.
Qed.

(** Group identifiers round-trip. Reading back the UUID text of sixteen
    random bytes gives those bytes with the version and variant bits set, so two
    draws that differ in any other bit name different ledger groups. *)
Theorem newUUID_roundtrip b ns :
  List.length b = 16%nat -> Forall is_byte b ->
  parse_uuid (newUUID (Some b) ns) = Some (v4_bytes b).
Proof.
  intros Hl Hb. unfold parse_uuid. rewrite newUUID_text, without_dashes_text.
  - by apply hex_roundtrip, v4_bytes_bytes.
  - unfold v4_bytes. by rewrite !length_insert.
Qed.

Lemma newUUID_roundtrip_witness :
  parse_uuid (newUUID (Some (map Z.of_nat (seq 240 16))) 0) =
  Some [240; 241; 242; 243; 244; 245; 70; 247; 184; 249; 250; 251; 252; 253; 254; 255].
Proof.
  apply (newUUID_roundtrip (map Z.of_nat (seq 240 16)) 0); [reflexivity|].
  cbn. repeat (constructor; [unfold is_byte; lia|]). constructor.
Defined.

(** The text is a version 4 UUID: 36 characters, dashes at offsets 8, 13,
    18 and 23, the version digit 4 at offset 14 and a variant digit 8, 9, a or b
    at offset 19, whether the bytes come from crypto/rand or from the clock. *)
Theorem newUUID_v4 random ns :
  (forall b, random = Some b -> List.length b = 16%nat /\ Forall is_byte b) ->
  let u := newUUID random ns in
  String.length u = 36%nat /\
  (forall i, In i [8; 13; 18; 23]%nat -> String.get i u = Some "-"%char) /\
  String.get 14 u = Some "4"%char /\
  exists c, String.get 19 u = Some c /\ In c ["8"; "9"; "a"; "b"]%char.
Proof.
  intros Hr u.
  assert (exists l, u = uuid_text (hex_encode (v4_bytes l)) /\ List.length l = 16%nat) as (l & -> & Hl).
  { destruct random as [b|]; [exists b; split; [apply newUUID_text|by apply Hr]|].
    exists (ns_bytes ns). split; [apply (newUUID_text (ns_bytes ns) ns)|done]. }
  clear Hr. do 16 (destruct l as [|? l]; [done|]). destruct l; [clear Hl|done].
  split; [done|]. split.
  { by intros i [<-|[<-|[<-|[<-|[]]]]]. }
  split.
  - change (Some (hex_digit (Z.shiftr (Z.lor (Z.land z5 15) 64) 4)) = Some "4"%char).
    pose proof (below (fun x => Z.eqb (Z.shiftr (Z.lor x 64) 4) 4) 16 (Z.land z5 15) eq_refl) as H.
    change 15 with (Z.ones 4) in *. rewrite Z.land_ones in * by lia.
    cbn beta in H. specialize (H (Z.mod_pos_bound z5 16 ltac:(lia))).
    apply Z.eqb_eq in H as ->. done.
  - exists (hex_digit (Z.shiftr (Z.lor (Z.land z7 63) 128) 4)). split; [done|].
    pose proof (below (fun x => existsb (Z.eqb (Z.shiftr (Z.lor x 128) 4)) [8; 9; 10; 11]) 64 (Z.land z7 63) eq_refl) as H.
    change 63 with (Z.ones 6) in *. rewrite Z.land_ones in * by lia.
    specialize (H (Z.mod_pos_bound z7 64 ltac:(lia))).
    apply existsb_exists in H as (y & Hy & ->%Z.eqb_eq).
    destruct Hy as [<-|[<-|[<-|[<-|[]]]]]; cbn; auto.
Qed.

Lemma newUUID_v4_witness : String.length (newUUID None 1700000000000000000) = 36%nat.
Proof. apply (newUUID_v4 None 1700000000000000000). discriminate. Defined.
