(* ===== verification/Sha256.v ===== *)
(** * SHA-256 and HMAC (crypto/sha256, crypto/hmac)

    The hash of FIPS 180-4 and the keyed hash of RFC 2104, executable, on lists
    of bytes.  The payment service authenticates webhooks with HMAC-SHA256. *)
From S2P Require Export Ids.

Definition w32 (z : Z) : Z := Z.land z 4294967295.

Definition rotr (n x : Z) : Z := Z.lor (Z.shiftr x n) (w32 (Z.shiftl x (32 - n))).

Definition round_constants : list Z :=
  [1116352408; 1899447441; 3049323471; 3921009573; 961987163; 1508970993; 2453635748; 2870763221;
   3624381080; 310598401; 607225278; 1426881987; 1925078388; 2162078206; 2614888103; 3248222580;
   3835390401; 4022224774; 264347078; 604807628; 770255983; 1249150122; 1555081692; 1996064986;
   2554220882; 2821834349; 2952996808; 3210313671; 3336571891; 3584528711; 113926993; 338241895;
   666307205; 773529912; 1294757372; 1396182291; 1695183700; 1986661051; 2177026350; 2456956037;
   2730485921; 2820302411; 3259730800; 3345764771; 3516065817; 3600352804; 4094571909; 275423344;
   430227734; 506948616; 659060556; 883997877; 958139571; 1322822218; 1537002063; 1747873779;
   1955562222; 2024104815; 2227730452; 2361852424; 2428436474; 2756734187; 3204031479; 3329325298].

Definition initial_hash : list Z :=
  [1779033703; 3144134277; 1013904242; 2773480762; 1359893119; 2600822924; 528734635; 1541459225].

(** The message schedule, newest word first. *)
Fixpoint extend (n : nat) (w : list Z) : list Z :=
  match n with
  | O => w
  | S n' =>
      let a := nth 14 w 0 in
      let b := nth 1 w 0 in
      let s0 := Z.lxor (Z.lxor (rotr 7 a) (rotr 18 a)) (Z.shiftr a 3) in
      let s1 := Z.lxor (Z.lxor (rotr 17 b) (rotr 19 b)) (Z.shiftr b 10) in
      extend n' (w32 (nth 15 w 0 + s0 + nth 6 w 0 + s1) :: w)
  end.

Definition sha_round (h : list Z) (kw : Z * Z) : list Z :=
  match h with
  | [a; b; c; d; e; f; g; i] =>
      let s1 := Z.lxor (Z.lxor (rotr 6 e) (rotr 11 e)) (rotr 25 e) in
      let ch := Z.lxor (Z.land e f) (Z.land (Z.lxor e 4294967295) g) in
      let t1 := w32 (i + s1 + ch + fst kw + snd kw) in
      let s0 := Z.lxor (Z.lxor (rotr 2 a) (rotr 13 a)) (rotr 22 a) in
      let maj := Z.lxor (Z.lxor (Z.land a b) (Z.land a c)) (Z.land b c) in
      [w32 (t1 + w32 (s0 + maj)); a; b; c; w32 (d + t1); e; f; g]
  | _ => h
  end.

Definition word_of (b : list Z) : Z := fold_left (fun acc x => 256 * acc + x) b 0.

Fixpoint chunks {A} (n : nat) (k : nat) (l : list A) : list (list A) :=
  match k with
  | O => []
  | S k' => take n l :: chunks n k' (drop n l)
  end.

Definition compress (h : list Z) (block : list Z) : list Z :=
  let w := rev (extend 48 (rev (map word_of (chunks 4 16 block)))) in
  map (fun xy => w32 (fst xy + snd xy)) (combine h (fold_left sha_round (combine round_constants w) h)).

Definition be_bytes (n : nat) (z : Z) : list Z :=
  map (fun i => Z.land (Z.shiftr z (8 * Z.of_nat (n - 1 - i))) 255) (seq 0 n).

Definition sha_pad (m : list Z) : list Z :=
  let l := List.length m in
  m ++ [128] ++ repeat 0 ((119 - l mod 64) mod 64)%nat ++ be_bytes 8 (8 * Z.of_nat l).

(** sha256.Sum256 *)
Definition sha256 (m : list Z) : list Z :=
  let p := sha_pad m in
  flat_map (be_bytes 4)
    (fold_left compress (chunks 64 (List.length p / 64) p) initial_hash).

Definition xor_pad (x : Z) (k : list Z) : list Z := map (Z.lxor x) (k ++ repeat 0 (64 - List.length k)).

(** hmac.New(sha256.New, key), Write(m), Sum(nil) *)
Definition hmac_sha256 (key m : list Z) : list Z :=
  let k := if (64 <? List.length key)%nat then sha256 key else key in
  sha256 (xor_pad 92 k ++ sha256 (xor_pad 54 k ++ m)).

(** The bytes of a Go string. *)
Fixpoint bytes_of (s : string) : list Z :=
  match s with
  | EmptyString => []
  | String c s' => Z.of_nat (nat_of_ascii c) :: bytes_of s'
  end.

Lemma bytes_of_app s1 s2 : bytes_of (s1 ++ s2)%string = bytes_of s1 ++ bytes_of s2.
Proof.
  induction s1 as [|c s1 IH]; [done|].
  change (bytes_of (String c (s1 ++ s2)) = Z.of_nat (nat_of_ascii c) :: (bytes_of s1 ++ bytes_of s2)).
  cbn [bytes_of]. by rewrite IH.
Qed.

(** The test vectors of FIPS 180-4 and RFC 4231. *)
Example sha256_empty :
  hex_encode (sha256 []) = "e3b0c44298fc1c149afbf4c8996fb92427ae41e4649b934ca495991b7852b855".
Proof. vm_compute. reflexivity. Qed.

Example sha256_abc :
  hex_encode (sha256 (bytes_of "abc")) =
  "ba7816bf8f01cfea414140de5dae2223b00361a396177a9cb410ff61f20015ad".
Proof. vm_compute. reflexivity. Qed.

Example sha256_two_blocks :
  hex_encode (sha256 (bytes_of "abcdbcdecdefdefgefghfghighijhijkijkljklmklmnlmnomnopnopq")) =
  "248d6a61d20638b8e5c026930c3e6039a33ce45964ff2167f6ecedd419db06c1".
Proof. vm_compute. reflexivity. Qed.

Example hmac_sha256_rfc4231_2 :
  hex_encode (hmac_sha256 (bytes_of "Jefe") (bytes_of "what do ya want for nothing?")) =
  "5bdcc146bf60754e6a042426089575c75a003f089d2739839dec58b964ec3843".
Proof. vm_compute. reflexivity. Qed.
