(* ===== verification/Ledger.v ===== *)
(** * The double-entry ledger

    Table [transactions] of migrations 000008 and 000011, shared by the payment
    and escrow services: signed entries grouped by [txn_group], with the
    deferred trigger that asserts every touched group sums to zero. *)
From S2P Require Export Tables.

Record TxnRow := mkTxn {
  txn_group : string;
  txn_type : string;
  account_kind : string;
  account_ref : option string;
  txn_contract_id : option string;
  txn_amount_cents : Z;
  txn_currency : string;
  txn_payment_id : option string;
  txn_memo : option string
}.

(** SUM(amount_cents) of one group. *)
Definition group_sum (g : string) (l : list TxnRow) : Z :=
  sumZ (fun r => if String.eqb (txn_group r) g then txn_amount_cents r else 0) l.

(** Trigger [trg_txn_group_balanced], run at COMMIT for each inserted row. *)
Definition assert_txn_group_balanced (before after : list TxnRow) : bool :=
  forallb (fun r => Z.eqb (group_sum (txn_group r) after) 0)
    (drop (length before) after).

(** The double-entry property of a ledger. *)
Definition balanced (l : list TxnRow) : Prop := forall g, group_sum g l = 0.

(** The balance of an account: the sum of the entries that [p] selects. *)
Definition balance (p : TxnRow -> bool) (l : list TxnRow) : Z :=
  sumZ (fun r => if p r then txn_amount_cents r else 0) l.

Definition of_kind (k : string) (r : TxnRow) : bool := String.eqb (account_kind r) k.

Definition opt_eqb (o : option string) (s : string) : bool :=
  match o with Some x => String.eqb x s | None => false end.

Definition kind_of_contract (k c : string) (r : TxnRow) : bool :=
  of_kind k r && opt_eqb (txn_contract_id r) c.

Class HasLedger (D : Type) := transactions : table D TxnRow.

Lemma group_sum_app g l1 l2 : group_sum g (l1 ++ l2) = group_sum g l1 + group_sum g l2.
Proof. apply sumZ_app. Qed.

Lemma balance_app p l1 l2 : balance p (l1 ++ l2) = balance p l1 + balance p l2.
Proof. apply sumZ_app. Qed.

Lemma balanced_nil : balanced [].
Proof. by intros g. Qed.

(** The trigger keeps the ledger balanced, whatever was appended. *)
Lemma trigger_keeps_balanced l new :
  balanced l -> assert_txn_group_balanced l (l ++ new) = true -> balanced (l ++ new).
Proof.
  unfold assert_txn_group_balanced. rewrite drop_app_length.
  intros Hb Hok g. rewrite forallb_forall in Hok.
  destruct (existsb (fun r => String.eqb (txn_group r) g) new) eqn:X.
  - apply existsb_exists in X as (r & Hr & <-%String.eqb_eq).
    apply Z.eqb_eq, Hok, Hr.
  - rewrite group_sum_app, (Hb g). apply sumZ_zero_in. intros r Hr.
    destruct (String.eqb (txn_group r) g) eqn:G; [|done].
    assert (existsb (fun r => String.eqb (txn_group r) g) new = true)
      by (apply existsb_exists; eauto). congruence.
Qed.

(** Appending legs of one group that sum to zero satisfies the trigger. *)
Lemma zero_sum_legs_pass l new g :
  balanced l -> (forall r, In r new -> txn_group r = g) ->
  sumZ txn_amount_cents new = 0 -> assert_txn_group_balanced l (l ++ new) = true.
Proof.
  unfold assert_txn_group_balanced. rewrite drop_app_length. intros Hb Hg Hs.
  apply forallb_forall. intros r Hr. apply Z.eqb_eq.
  rewrite group_sum_app, Hb, (Hg r Hr), Z.add_0_l, <- Hs.
  apply sumZ_ext_in. intros x Hx. rewrite (Hg x Hx), String.eqb_refl. done.
Qed.

Lemma no_legs_pass l : assert_txn_group_balanced l l = true.
Proof. unfold assert_txn_group_balanced. by rewrite drop_all. Qed.

#[export] Hint Resolve balanced_nil no_legs_pass : tables.
