(* ===== verification/Outbox.v ===== *)
(** * The transactional outbox (services/pkg/outbox)

    [Enqueue] writes an event to the outbox table inside the caller's
    transaction.  A service's tables provide the outbox through [HasOutbox].
    The relay that drains the table is in [Relay]. *)
From S2P Require Export Tables.

(** outbox.Event *)
Record Event := mkEvent {
  AggregateType : string;
  AggregateID : string;
  EventType : string;
  Topic : string;
  PartitionKey : string;
  Payload : json;
  Headers : option (list (string * string))   (* a Go map; nil is None *)
}.

(** A row of the outbox table (migration 000010). *)
Record OutboxRow := mkOutbox {
  o_id : Z;
  aggregate_type : string;
  aggregate_id : string;
  event_type : string;
  topic : string;
  partition_key : string;
  payload : json;
  headers : option (list (string * string));
  o_created_at : Z;
  published_at : option Z
}.

Class HasOutbox (D : Type) := outbox : table D OutboxRow.

(** GENERATED ALWAYS AS IDENTITY: above every id present. *)
Definition next_id {R} (id : R -> Z) (l : list R) : Z :=
  1 + fold_right (fun r m => Z.max (id r) m) 0 l.

Definition Enqueue {D E} `{HasOutbox D} (e : Event) : prog D E unit :=
  exec (fun s d =>
    insert_row outbox (fun _ _ => None)
      (fun s => mkOutbox (next_id o_id (rows outbox d))
                  (AggregateType e) (AggregateID e) (EventType e) (Topic e)
                  (PartitionKey e) (Payload e) (Headers e) (now s) None) s d) ;;;
  ret tt.

Lemma next_id_above {R} (id : R -> Z) (l : list R) r : In r l -> id r < next_id id l.
Proof.
  unfold next_id. induction l as [|x l IH]; cbn; [done|].
  intros [->|Hr]; [|specialize (IH Hr)]; lia.
Qed.

Lemma next_id_positive {R} (id : R -> Z) (l : list R) : 0 < next_id id l.
Proof. unfold next_id. induction l; cbn; lia. Qed.

(** The rows [Enqueue] leaves when it succeeds. *)
Definition enqueued (t : Z) (e : Event) (l : list OutboxRow) : list OutboxRow :=
  l ++ [mkOutbox (next_id o_id l) (AggregateType e) (AggregateID e) (EventType e)
          (Topic e) (PartitionKey e) (Payload e) (Headers e) t None].

Lemma wp_Enqueue {D E} `{Deferred D} `{HasOutbox D} (e : Event) ev c t v n
  (Q : res E unit -> world D -> Prop) :
  (~ calm ev -> Q (Err (Db Driver)) (World c Broken (S n))) ->
  Q (Ok tt) (World c (Live t (put outbox (enqueued t e (rows outbox v)) v)) (S n)) ->
  wp (Enqueue e) ev (World c (Live t v) n) Q.
Proof.
  intros Hf Hs. unfold Enqueue. wp_step. wp_step; [by apply Hf|]. cbn. by apply wp_ret.
Qed.

(** ** The events about an aggregate *)

Definition events_about (id : string) (l : list OutboxRow) : list OutboxRow :=
  List.filter (has_key aggregate_id id) l.

Lemma history_announce id e t l :
  map event_type (events_about id (enqueued t e l)) =
  map event_type (events_about id l) ++ (if String.eqb (AggregateID e) id then [EventType e] else []).
Proof.
  unfold events_about, enqueued. rewrite List.filter_app, map_app. f_equal. cbn. unfold has_key. cbn.
  by destruct (String.eqb (AggregateID e) id).
Qed.
