(* ===== verification/Relay.v ===== *)
(** * The outbox relay (services/pkg/outbox, services/relay)

    [drain] takes a batch of unpublished rows in id order, publishes each and
    marks it, all in one transaction.  The bus is outside every transaction: a
    rollback does not take a published message back.  The state is a pair of a
    service's tables and the messages the bus has accepted, in order; a publish
    that reports an error may have been accepted all the same. *)
From stdpp Require Import pretty.
From S2P Require Export Outbox.

(** What Publish hands to the bus. *)
Record Message := mkMessage {
  msg_topic : string;
  msg_key : string;
  msg_payload : json;
  msg_headers : list (string * string)
}.

(** Assignment to a Go map. *)
Fixpoint set_header (k v : string) (h : list (string * string)) : list (string * string) :=
  match h with
  | [] => [(k, v)]
  | (k', v') :: h' => if String.eqb k' k then (k, v) :: h' else (k', v') :: set_header k v h'
  end.

Definition get_header (k : string) (h : list (string * string)) : option string :=
  option_map snd (List.find (fun kv => String.eqb (fst kv) k) h).

(** eventID: the row id, prefixed by the source. *)
Definition eventID (source : string) (id : Z) : string :=
  if negb (String.eqb source "") then (source ++ ":" ++ pretty id)%string else pretty id.

(** The message drain publishes for a row. *)
Definition message (source : string) (r : OutboxRow) : Message :=
  mkMessage (topic r) (partition_key r) (payload r)
    (set_header "event-type" (event_type r)
      (set_header "event-id" (eventID source (o_id r)) (default [] (headers r)))).

Definition unpublished (r : OutboxRow) : bool :=
  match published_at r with None => true | Some _ => false end.

Definition published (t : Z) (r : OutboxRow) : OutboxRow :=
  mkOutbox (o_id r) (aggregate_type r) (aggregate_id r) (event_type r) (topic r) (partition_key r)
    (payload r) (headers r) (o_created_at r) (Some t).

Section Relay.
Context {D : Type} `{HasOutbox D} `{Deferred D}.

#[local] Instance bus_HasOutbox : HasOutbox (D * list Message) :=
  Table (fun db => rows outbox (fst db)) (fun l db => (put outbox l (fst db), snd db)).

#[local] Instance bus_Deferred : Deferred (D * list Message) :=
  fun before after => deferred_ok (fst before) (fst after).

Abbreviation rprog := (prog (D * list Message) Empty_set).

Definition deliver (m : Message) (db : D * list Message) : D * list Message :=
  (fst db, snd db ++ [m]).

(** pub.Publish: the bus keeps the message whatever becomes of the transaction. *)
Definition Publish (m : Message) : rprog unit := fun ev w =>
  let n := tick w in
  let accepted := World (deliver m (committed w))
    match txs w with Live t v => Live t (deliver m v) | x => x end (S n) in
  if fault ev n
  then (Err (Db Driver), if ack_lost ev n then accepted else World (committed w) (txs w) (S n))
  else (Ok tt, accepted).

(** SELECT ... WHERE published_at IS NULL ORDER BY id FOR UPDATE SKIP LOCKED LIMIT *)
Definition next_batch (batch : nat) (l : list OutboxRow) : list OutboxRow :=
  firstn batch (order_by o_id (select_rows unpublished l)).

Definition drain (source : string) (batch : nat) : rprog unit :=
  in_tx (
    l <- exec (fun _ db => Done (next_batch batch (rows outbox db)) db) ;;
    for_each l (fun row =>
      Publish (message source row) ;;;
      exec (update_rows outbox (fun r => o_id r =? o_id row) (fun s => published (now s)) (fun _ => None)) ;;;
      ret tt) ;;;
    commit).

(** ** What a drain leaves *)

Definition mark_all (t : Z) (ids : list Z) (l : list OutboxRow) : list OutboxRow :=
  map (fun r => if existsb (Z.eqb (o_id r)) ids then published t r else r) l.

Lemma mark_all_nil t l : mark_all t [] l = l.
Proof. unfold mark_all. cbn. by rewrite map_id. Qed.

Lemma mark_all_snoc t ids i l :
  update_where (fun r => o_id r =? i) (published t) (mark_all t ids l) = mark_all t (ids ++ [i]) l.
Proof.
  unfold update_where, mark_all. rewrite map_map. apply map_ext. intros r. rewrite existsb_app. cbn.
  destruct (existsb (Z.eqb (o_id r)) ids); cbn; by destruct (o_id r =? i).
Qed.

Context `{!LawfulTable (outbox (D := D))}.

Lemma wp_Publish m ev d b t v n (Q : res Empty_set unit -> world (D * list Message) -> Prop) :
  (~ calm ev -> Q (Err (Db Driver)) (World (d, b ++ [m]) (Live t (v, b ++ [m])) (S n))) ->
  (~ calm ev -> Q (Err (Db Driver)) (World (d, b) (Live t (v, b)) (S n))) ->
  Q (Ok tt) (World (d, b ++ [m]) (Live t (v, b ++ [m])) (S n)) ->
  wp (Publish m) ev (World (d, b) (Live t (v, b)) n) Q.
Proof.
  intros H1 H2 H3. unfold wp, Publish; cbn. destruct (fault ev n) eqn:F; cbn; [|done].
  assert (~ calm ev) by (intros C; by rewrite C in F). destruct (ack_lost ev n); auto.
Qed.

(** Publishing rows one after the other: stopped at some row, or all marked. *)
Lemma wp_publish_all source ev d b t l ids v n (Q : res Empty_set unit -> world (D * list Message) -> Prop) :
  rows outbox v = mark_all t ids (rows outbox d) -> v = put outbox (rows outbox v) d ->
  (forall k e w, ~ calm ev -> committed w = (d, b ++ map (message source) (firstn k l)) ->
     Q (Err (Db e)) w) ->
  (forall m, let v' := put outbox (mark_all t (ids ++ map o_id l) (rows outbox d)) d in
     let b' := b ++ map (message source) l in
     Q (Ok tt) (World (d, b') (Live t (v', b')) m)) ->
  wp (for_each l (fun row =>
      Publish (message source row) ;;;
      exec (update_rows outbox (fun r => o_id r =? o_id row) (fun s => published (now s)) (fun _ => None)) ;;;
      ret tt)) ev (World (d, b) (Live t (v, b)) n) Q.
Proof.
  revert b ids v n. induction l as [|row l IH]; intros b ids v n Hv1 Hv2 Hf Hs; cbn [for_each].
  - apply wp_ret. specialize (Hs n). cbn in Hs. rewrite !app_nil_r in Hs.
    by rewrite <- Hv1, <- Hv2 in Hs.
  - apply wp_bind, wp_bind, wp_Publish.
    + intros NC. by apply (Hf 1%nat).
    + intros NC. apply (Hf 0%nat); [done|]. cbn. by rewrite app_nil_r.
    + apply wp_bind, (wp_update_free outbox).
      * intros NC. by apply (Hf 1%nat).
      * apply wp_ret. cbn [outbox rows put bus_HasOutbox fst snd now]. rewrite Hv1, mark_all_snoc.
        apply (IH (b ++ [message source row]) (ids ++ [o_id row])).
        -- by rewrite rows_put.
        -- rewrite rows_put. rewrite Hv2 at 1. by rewrite put_put.
        -- intros k e w NC Hw. apply (Hf (S k)); [done|]. rewrite Hw. cbn. by rewrite <- app_assoc.
        -- intros m. specialize (Hs m). cbn in *. by rewrite <- !app_assoc.
Qed.

(** The outcomes of a drain from tables [d] and bus [b]. *)
Inductive drained (source : string) (batch : nat) (d : D) (b : list Message) (ev : env)
  : res Empty_set unit -> D * list Message -> Prop :=
| drained_all t : deferred_ok d (put outbox (mark_all t (map o_id (next_batch batch (rows outbox d))) (rows outbox d)) d) = true ->
    drained source batch d b ev (Ok tt)
      (put outbox (mark_all t (map o_id (next_batch batch (rows outbox d))) (rows outbox d)) d,
       b ++ map (message source) (next_batch batch (rows outbox d)))
| drained_in_doubt t e : ~ calm ev ->
    drained source batch d b ev (Err (Db e))
      (put outbox (mark_all t (map o_id (next_batch batch (rows outbox d))) (rows outbox d)) d,
       b ++ map (message source) (next_batch batch (rows outbox d)))
| drained_some k e : ~ calm ev ->
    drained source batch d b ev (Err (Db e))
      (d, b ++ map (message source) (firstn k (next_batch batch (rows outbox d))))
| drained_refused e t : deferred_ok d (put outbox (mark_all t (map o_id (next_batch batch (rows outbox d))) (rows outbox d)) d) = false ->
    drained source batch d b ev (Err (Db e))
      (d, b ++ map (message source) (next_batch batch (rows outbox d))).

Lemma drain_meets source batch ev d b n :
  wp (drain source batch) ev (World (d, b) NoTx n)
    (fun r w => txs w = NoTx /\ drained source batch d b ev r (committed w)).
Proof.
  unfold drain. wp_step.
  { split; [done|]. cbn [committed]. rewrite <- (app_nil_r b) at 2. by apply (drained_some _ _ d b ev 0). }
  wp_step. wp_step.
  { split; [done|]. cbn [committed]. rewrite <- (app_nil_r b) at 2. by apply (drained_some _ _ d b ev 0). }
  wp_step. eapply (wp_publish_all source ev d b _ _ []).
  - by rewrite mark_all_nil.
  - by rewrite put_rows.
  - intros k e w NC Hw. split; [done|]. cbn [committed]. rewrite Hw. by constructor.
  - intros m. cbn [app]. wp_step.
    + split; [done|]. by constructor.
    + split; [done|]. by constructor.
    + split; [done|]. change (drained source batch d b ev (Err (Db Driver))
        (d, b ++ map (message source) (next_batch batch (rows outbox d)))).
      rewrite <- (firstn_all (next_batch batch (rows outbox d))). by constructor.
    + split; [done|]. by eapply drained_refused.
Qed.
End Relay.

(** * What the relay guarantees

    The relay drains the outbox of any service that keeps to the interface
    [OutboxClient]: its operations append to the outbox, and publishing breaks
    none of its deferred constraints. *)
(** ** Marks, counts and headers *)

Lemma countZ_marked p t ids l :
  (forall r, p (published t r) = p r) -> countZ p (mark_all t ids l) = countZ p l.
Proof.
  intros Hp. unfold countZ, mark_all. induction l as [|r l IH]; [done|]. cbn [map sumZ].
  rewrite IH. f_equal. by destruct (existsb _ ids); rewrite ?Hp.
Qed.

Lemma countZ_pos {A} (p : A -> bool) l : 0 < countZ p l -> exists x, In x l /\ p x = true.
Proof.
  unfold countZ. induction l as [|x l IH]; cbn; [lia|].
  destruct (p x) eqn:P; [eauto|]. intros H. destruct IH as (y & ? & ?); [lia|]. eauto.
Qed.

Lemma get_set_header k v h : get_header k (set_header k v h) = Some v.
Proof.
  unfold get_header. induction h as [|[k' v'] h IH]; cbn [set_header List.find fst].
  - by rewrite String.eqb_refl.
  - destruct (String.eqb k' k) eqn:K; cbn [List.find fst]; [by rewrite String.eqb_refl|]. by rewrite K.
Qed.

(** What a service promises the relay: its operations keep an invariant of its
    tables and append at most one event to the outbox, and the relay's marks
    keep the invariant and no deferred constraint is about the outbox. *)
Class OutboxClient (D : Type) `{HasOutbox D} `{Deferred D} := {
  client_start : D;
  client_step : D -> D -> Prop;
  client_inv : D -> Prop;
  client_inv_start : client_inv client_start;
  client_start_empty : rows outbox client_start = [];
  client_inv_step d d' : client_inv d -> client_step d d' -> client_inv d';
  client_inv_marked d t ids :
    client_inv d -> client_inv (put outbox (mark_all t ids (rows outbox d)) d);
  client_appends d d' : client_inv d -> client_step d d' ->
    rows outbox d' = rows outbox d \/ exists t e, rows outbox d' = enqueued t e (rows outbox d);
  client_deferred d l : deferred_ok d (put outbox l d) = true
}.

Section Relay.
Context {D : Type} `{HasOutbox D} `{Deferred D} `{!LawfulTable (outbox (D := D))} `{!OutboxClient D}.
Context (source : string) (batch : nat).

(** Tables and bus after a drain. *)
Definition after_drain (ev : env) (s : D * list Message) (n : nat) : D * list Message :=
  committed (snd (drain source batch ev (World s NoTx n))).

Inductive relay_reachable : D * list Message -> Prop :=
| relay_start : relay_reachable (client_start, [])
| relay_client d b d' : relay_reachable (d, b) -> client_step d d' -> relay_reachable (d', b)
| relay_drain s ev n : relay_reachable s -> relay_reachable (after_drain ev s n).

(** Every message on the bus is that of a row, and came after the messages of
    all the rows before it. *)
Definition ordered (l : list OutboxRow) (b : list Message) : Prop :=
  forall b1 m b2, b = b1 ++ m :: b2 -> exists r, In r l /\ m = message source r /\
    forall r', In r' l -> o_id r' < o_id r -> In (message source r') b1.

Record relay_inv (l : list OutboxRow) (b : list Message) : Prop := {
  ri_sorted : StronglySorted Z.lt (map o_id l);
  ri_marked r : In r l -> unpublished r = false -> In (message source r) b;
  ri_order : ordered l b
}.

Lemma sorted_ids_inj (l : list OutboxRow) r r' :
  StronglySorted Z.lt (map o_id l) -> In r l -> In r' l -> o_id r = o_id r' -> r = r'.
Proof.
  induction l as [|x l IH]; cbn; intros Hs; [done|]. inversion Hs as [|? ? Hl Hx]; subst.
  rewrite List.Forall_forall in Hx.
  intros [->|Hr] [->|Hr'] E; auto.
  - assert (o_id r < o_id r') by (by apply Hx, in_map). lia.
  - assert (o_id r' < o_id r) by (by apply Hx, in_map). lia.
Qed.

Lemma sorted_filter p (l : list OutboxRow) :
  StronglySorted Z.lt (map o_id l) -> StronglySorted Z.lt (map o_id (List.filter p l)).
Proof.
  induction l as [|x l IH]; cbn; intros Hs; [done|]. inversion Hs as [|? ? Hl Hx]; subst.
  destruct (p x); [|auto]. constructor; [auto|]. rewrite List.Forall_forall in *.
  intros y (z & <- & [Hz _]%List.filter_In)%in_map_iff. by apply Hx, in_map.
Qed.

Lemma sorted_lt_le (l : list OutboxRow) :
  StronglySorted Z.lt (map o_id l) -> StronglySorted (fun x y => o_id x <= o_id y) l.
Proof.
  induction l as [|x l IH]; intros Hs; [constructor|]. inversion Hs as [|? ? Hl Hx]; subst.
  constructor; [auto|]. rewrite List.Forall_forall in *. intros y Hy.
  assert (o_id x < o_id y) by (by apply Hx, in_map). lia.
Qed.

Lemma in_firstn {A} k (l : list A) x : In x (firstn k l) -> In x l.
Proof. intros Hx. rewrite <- (firstn_skipn k l). apply in_app_iff. by left. Qed.

Lemma next_batch_sorted l :
  StronglySorted Z.lt (map o_id l) -> next_batch batch l = firstn batch (List.filter unpublished l).
Proof.
  intros Hs. unfold next_batch, select_rows. by rewrite order_by_id by (by apply sorted_lt_le, sorted_filter).
Qed.

(** In a sorted list a row with a smaller id stands before. *)
Lemma sorted_before (l1 l2 : list OutboxRow) r r' :
  StronglySorted Z.lt (map o_id (l1 ++ r :: l2)) -> In r' (l1 ++ r :: l2) -> o_id r' < o_id r -> In r' l1.
Proof.
  induction l1 as [|x l1 IH]; cbn; intros Hs Hr Hlt; inversion Hs as [|? ? Hl Hx]; subst.
  - rewrite List.Forall_forall in Hx. destruct Hr as [->|Hr]; [lia|].
    assert (o_id r < o_id r') by (by apply Hx, in_map). lia.
  - destruct Hr as [->|Hr]; auto.
Qed.

Lemma ordered_snoc l b r :
  ordered l b -> In r l -> (forall r', In r' l -> o_id r' < o_id r -> In (message source r') b) ->
  ordered l (b ++ [message source r]).
Proof.
  intros Ho Hr Hb b1 m b2 E. destruct b2 as [|x b2 _] using rev_ind.
  - apply app_inj_tail in E as [-> <-]. eauto.
  - rewrite app_comm_cons, app_assoc in E. apply app_inj_tail in E as [E _]. eauto.
Qed.

(** Publishing the first unpublished rows keeps the order. *)
Lemma ordered_publish l b x1 x2 :
  relay_inv l b -> List.filter unpublished l = x1 ++ x2 -> ordered l (b ++ map (message source) x1).
Proof.
  intros [Hs Hm Ho]. revert x2. induction x1 as [|r x1 IH] using rev_ind; intros x2 E.
  - by rewrite app_nil_r.
  - rewrite map_app, app_assoc. rewrite <- app_assoc in E. apply ordered_snoc.
    + by apply (IH (r :: x2)).
    + apply (List.filter_In unpublished). rewrite E. apply in_app_iff. right. by left.
    + intros r' Hr' Hlt. apply in_app_iff. destruct (unpublished r') eqn:U; [right|left; auto].
      apply in_map. apply sorted_before with (l2 := x2) (r := r); [|  |done].
      * change (r :: x2) with ([r] ++ x2). rewrite <- E. by apply sorted_filter.
      * change (r :: x2) with ([r] ++ x2). rewrite <- E. by apply List.filter_In.
Qed.

Lemma relay_inv_enqueued l b t e : relay_inv l b -> relay_inv (enqueued t e l) b.
Proof.
  intros [Hs Hm Ho]. constructor.
  - unfold enqueued. rewrite map_app. apply sorted_snoc; [done|].
    intros x (r & <- & Hr)%in_map_iff. by apply next_id_above.
  - intros r [Hr|[<-|[]]]%in_app_iff; [auto|done].
  - intros b1 m b2 E. destruct (Ho b1 m b2 E) as (r & Hr & -> & Hb). exists r.
    split; [apply in_app_iff; by left|]. split; [done|].
    intros r' [Hr'|[<-|[]]]%in_app_iff Hlt; [auto|]. cbn in Hlt.
    pose proof (next_id_above o_id l r Hr). lia.
Qed.

(** Marking rows whose messages are out. *)
Lemma relay_inv_marked l b t ids :
  relay_inv l b -> (forall r, In r l -> In (o_id r) ids -> In (message source r) b) ->
  relay_inv (mark_all t ids l) b.
Proof.
  intros [Hs Hm Ho] Hids. set (g := fun r => if existsb (Z.eqb (o_id r)) ids then published t r else r).
  assert (forall r, o_id (g r) = o_id r /\ message source (g r) = message source r) as Hg.
  { intros r. unfold g. by destruct (existsb _ ids). }
  constructor.
  - replace (map o_id (mark_all t ids l)) with (map o_id l); [done|].
    unfold mark_all. rewrite map_map. apply map_ext. intros r. symmetry. apply (Hg r).
  - intros r (r0 & <- & Hr)%in_map_iff. fold (g r0). destruct (Hg r0) as [_ ->]. unfold g.
    destruct (existsb _ ids) eqn:X; [|auto]. intros _. apply Hids; [done|].
    by apply existsb_exists in X as (i & Hi & ->%Z.eqb_eq).
  - intros b1 m b2 E. destruct (Ho b1 m b2 E) as (r & Hr & -> & Hb). exists (g r).
    destruct (Hg r) as [Hid ->]. split; [by apply in_map|]. split; [done|].
    intros r' (r0 & <- & Hr0)%in_map_iff. fold (g r0). destruct (Hg r0) as [Hid0 ->]. rewrite Hid, Hid0. auto.
Qed.

Lemma relay_inv_publish l b k :
  relay_inv l b -> relay_inv l (b ++ map (message source) (firstn k (next_batch batch l))).
Proof.
  intros HI. pose proof HI as [Hs Hm Ho]. constructor; [done| |].
  - intros r Hr U. apply in_app_iff. auto.
  - rewrite next_batch_sorted, firstn_firstn by done.
    eapply ordered_publish; [done|]. symmetry. apply firstn_skipn.
Qed.

Lemma drained_inv d b ev r d' b' :
  relay_inv (rows outbox d) b -> drained source batch d b ev r (d', b') -> relay_inv (rows outbox d') b'.
Proof.
  intros HI HD. pose proof (relay_inv_publish _ b (List.length (next_batch batch (rows outbox d))) HI) as HP.
  rewrite firstn_all in HP.
  assert (forall t, relay_inv (mark_all t (map o_id (next_batch batch (rows outbox d))) (rows outbox d))
    (b ++ map (message source) (next_batch batch (rows outbox d)))) as HM.
  { intros t. apply relay_inv_marked; [done|]. intros x Hx (y & E & Hy)%in_map_iff.
    assert (In y (rows outbox d)) as Hin.
    { rewrite next_batch_sorted in Hy by apply (ri_sorted _ _ HI).
      apply in_firstn in Hy. by apply List.filter_In in Hy as [? _]. }
    assert (x = y) as -> by (by eapply sorted_ids_inj; [apply (ri_sorted _ _ HI)| | |]).
    apply in_app_iff. right. by apply in_map. }
  inversion HD; subst; rewrite ?rows_put; auto. by apply relay_inv_publish.
Qed.

(** A drain, whatever happened in it, leaves the tables alone or marks rows. *)
Lemma drained_tables d b ev r d' b' :
  drained source batch d b ev r (d', b') ->
  d' = d \/ exists t ids, d' = put outbox (mark_all t ids (rows outbox d)) d.
Proof. intros HD. inversion HD; subst; eauto. Qed.

Lemma after_drain_drained d b ev n :
  exists r, drained source batch d b ev r (after_drain ev (d, b) n).
Proof. destruct (drain_meets source batch ev d b n) as [_ HD]. eexists. exact HD. Qed.

Lemma relay_reachable_inv s :
  relay_reachable s -> client_inv (fst s) /\ relay_inv (rows outbox (fst s)) (snd s).
Proof.
  induction 1 as [|d b d' _ [IC IH] Hst|[d b] ev n _ [IC IH]]; cbn [fst snd] in *.
  - split; [apply client_inv_start|]. rewrite client_start_empty.
    constructor; [constructor|done|]. by intros [].
  - split; [by eapply client_inv_step|].
    destruct (client_appends d d' IC Hst) as [->|(t & e & ->)]; [done|]. by apply relay_inv_enqueued.
  - destruct (after_drain_drained d b ev n) as [r HD]. destruct (after_drain ev (d, b) n) as [d' b'].
    split; [|by eapply drained_inv].
    destruct (drained_tables _ _ _ _ _ _ HD) as [->|(t & ids & ->)]; [done|]. by apply client_inv_marked.
Qed.

(** ** Progress *)

Definition backlog (d : D) : list OutboxRow := List.filter unpublished (rows outbox d).

Lemma filter_marked t ids l :
  List.filter unpublished (mark_all t ids l) =
  List.filter (fun r => negb (existsb (Z.eqb (o_id r)) ids)) (List.filter unpublished l).
Proof.
  unfold mark_all. induction l as [|x l IH]; [done|]. cbn [map List.filter].
  destruct (existsb (Z.eqb (o_id x)) ids) eqn:X; cbn [unpublished published published_at];
    destruct (unpublished x); cbn [List.filter]; rewrite ?X; cbn [negb]; by rewrite IH.
Qed.

Lemma filter_keep {A} (p : A -> bool) l : (forall x, In x l -> p x = true) -> List.filter p l = l.
Proof.
  induction l as [|x l IH]; cbn; intros Hp; [done|]. rewrite Hp by auto. f_equal. auto.
Qed.

Lemma sorted_app_lt (l1 l2 : list Z) x y :
  StronglySorted Z.lt (l1 ++ l2) -> In x l1 -> In y l2 -> x < y.
Proof.
  induction l1 as [|z l1 IH]; cbn; intros Hs; [done|]. inversion Hs as [|? ? Hl Hz]; subst.
  rewrite List.Forall_forall in Hz. intros [->|Hx] Hy; [|auto]. apply Hz, in_app_iff. by right.
Qed.

Lemma filter_skip (l : list OutboxRow) k :
  StronglySorted Z.lt (map o_id l) ->
  List.filter (fun r => negb (existsb (Z.eqb (o_id r)) (map o_id (firstn k l)))) l = skipn k l.
Proof.
  intros Hs. set (p := fun r => negb (existsb (Z.eqb (o_id r)) (map o_id (firstn k l)))).
  transitivity (List.filter p (firstn k l ++ skipn k l)); [by rewrite firstn_skipn|].
  rewrite List.filter_app, filter_keep with (l := skipn k l).
  - assert (List.filter p (firstn k l) = []) as ->; [|done]. apply (select_none p).
    intros r Hr. apply negb_false_iff, existsb_exists. exists (o_id r).
    split; [by apply in_map|]. apply Z.eqb_refl.
  - intros r Hr. apply negb_true_iff, not_true_is_false.
    intros (i & (x & <- & Hx)%in_map_iff & E%Z.eqb_eq)%existsb_exists.
    rewrite <- (firstn_skipn k l), map_app in Hs.
    assert (o_id x < o_id r) by (eapply sorted_app_lt; [exact Hs| |]; by apply in_map). lia.
Qed.

(** A drain under which nothing fails publishes a batch off the backlog. *)
Lemma calm_drain d b ev n :
  calm ev -> relay_inv (rows outbox d) b -> backlog (fst (after_drain ev (d, b) n)) = skipn batch (backlog d).
Proof.
  intros C [Hs _ _]. destruct (after_drain_drained d b ev n) as [r HD].
  destruct (after_drain ev (d, b) n) as [d' b']. cbn [fst].
  inversion HD as [t Hd|? ? NC|? ? NC|? ? Hd]; subst; try done; [|by rewrite client_deferred in Hd].
  unfold backlog. rewrite rows_put, filter_marked, next_batch_sorted by done.
  by apply filter_skip, sorted_filter.
Qed.

(** Drains one after the other. *)
Definition drains (evs : list (env * nat)) (s : D * list Message) : D * list Message :=
  fold_left (fun s en => after_drain (fst en) s (snd en)) evs s.

Lemma drained_row_kept d b ev n r :
  In r (rows outbox d) ->
  exists r', In r' (rows outbox (fst (after_drain ev (d, b) n))) /\ message source r' = message source r.
Proof.
  intros Hr. destruct (after_drain_drained d b ev n) as [res HD]. destruct (after_drain ev (d, b) n) as [d' b'].
  cbn [fst]. destruct (drained_tables _ _ _ _ _ _ HD) as [->|(t & ids & ->)]; [eauto|].
  rewrite rows_put. exists (if existsb (Z.eqb (o_id r)) ids then published t r else r).
  split; [|by destruct (existsb _ ids)]. unfold mark_all. apply in_map_iff. eauto.
Qed.

(** ** Theorems *)

(** C16: At-least-once, in order. In every reachable state of a service and its
    relay, whatever failed and was retried: a row marked as published has its
    message on the bus; every message on the bus is that of an outbox row; and
    the messages of all the rows with smaller ids were on the bus before it. So
    no event is lost or invented, and each is delivered only after every earlier
    event of its service was. *)
Theorem relay_delivers_in_order d b :
  relay_reachable (d, b) ->
  (forall r, In r (rows outbox d) -> published_at r <> None -> In (message source r) b) /\
  (forall b1 m b2, b = b1 ++ m :: b2 -> exists r, In r (rows outbox d) /\ m = message source r /\
     forall r', In r' (rows outbox d) -> o_id r' < o_id r -> In (message source r') b1).
Proof.
  intros HR. destruct (relay_reachable_inv _ HR) as [_ [Hs Hm Ho]]. cbn [fst snd] in *. split; [|exact Ho].
  intros r Hr Hp. apply Hm; [done|]. unfold unpublished. by destruct (published_at r).
Qed.

(** C17: The outbox drains. From any reachable state, after as many undisturbed
    drains as it takes batches to hold the unpublished rows, every event of the
    outbox is on the bus. *)
Theorem relay_drains evs d b :
  relay_reachable (d, b) -> Forall (fun en => calm (fst en)) evs ->
  (List.length (backlog d) <= List.length evs * batch)%nat ->
  forall r, In r (rows outbox d) -> In (message source r) (snd (drains evs (d, b))).
Proof.
  intros HR HC HL r Hr. revert d b r HR HL Hr.
  induction evs as [|[ev n] evs IH]; intros d b r HR HL Hr; cbn [drains fold_left snd].
  - destruct (relay_reachable_inv _ HR) as [_ [_ Hm _]]. cbn [fst snd] in *. apply Hm; [done|].
    apply not_true_is_false. intros U. assert (In r (backlog d)) as Hb by by apply List.filter_In.
    destruct (backlog d); [done|]. cbn in HL. lia.
  - inversion HC as [|? ? C HC']; subst. cbn [fst snd] in *.
    destruct (drained_row_kept d b ev n r Hr) as (r' & Hr' & <-).
    destruct (relay_reachable_inv _ HR) as [_ HI]. pose proof (calm_drain d b ev n C HI) as HB.
    pose proof (relay_drain (d, b) ev n HR) as HR'. destruct (after_drain ev (d, b) n) as [d' b'].
    apply (IH HC' d' b'); [done| |done]. cbn [fst] in HB. rewrite HB, length_skipn. cbn in HL. lia.
Qed.
End Relay.

(** ** Event identifiers *)

Fixpoint has_colon (s : string) : bool :=
  match s with
  | "" => false
  | String c s' => Ascii.eqb c ":" || has_colon s'
  end.

Lemma has_colon_app s1 s2 : has_colon (s1 ++ s2) = has_colon s1 || has_colon s2.
Proof.
  induction s1 as [|c s1 IH]; [done|].
  change (has_colon (String c (s1 ++ s2)) = has_colon (String c s1) || has_colon s2).
  cbn [has_colon]. by rewrite IH, orb_assoc.
Qed.

Lemma digits_no_colon x s : has_colon s = false -> has_colon (pretty_N_go x s) = false.
Proof.
  revert s. induction (N.lt_wf_0 x) as [x _ IH]; intros s Hs.
  assert (x = 0 \/ 0 < x)%N as [->|Hx] by lia; [done|].
  rewrite pretty_N_go_step by done. apply IH; [by apply N.div_lt|]. cbn. rewrite Hs.
  unfold pretty_N_char. by repeat case_match.
Qed.

Lemma id_no_colon (i : Z) : has_colon (pretty i) = false.
Proof.
  assert (forall n : N, has_colon (pretty n) = false) as HN.
  { intros n. unfold pretty, pretty_N. destruct (decide _); [done|]. by apply digits_no_colon. }
  destruct i as [|p|p]; [done|exact (HN (Npos p))|].
  change (has_colon ("-" ++ pretty (Npos p)) = false). rewrite has_colon_app. cbn [has_colon]. by rewrite HN.
Qed.

(** What follows the last colon. *)
Lemma last_colon_inj s1 s2 p1 p2 :
  has_colon p1 = false -> has_colon p2 = false ->
  (s1 ++ ":" ++ p1 = s2 ++ ":" ++ p2)%string -> s1 = s2 /\ p1 = p2.
Proof.
  assert (forall s p : string, has_colon (s ++ ":" ++ p) = true) as Hc.
  { intros s p. rewrite !has_colon_app. cbn. by rewrite orb_true_r. }
  intros H1 H2. revert s2.
  induction s1 as [|c s1 IH]; intros [|c2 s2] E; injection E; intros.
  - done.
  - exfalso. assert (p1 = (s2 ++ ":" ++ p2)%string) as -> by done. by rewrite Hc in H1.
  - exfalso. assert (p2 = (s1 ++ ":" ++ p1)%string) as -> by done. by rewrite Hc in H2.
  - subst c2. destruct (IH s2) as [-> ->]; auto.
Qed.

(** Event ids are unique across databases. The event-id of a message names
    its source and row: two relays with different sources, or two rows of one
    outbox, never use the same id, whatever the sources are called. *)
Theorem eventID_unique source1 source2 i1 i2 :
  eventID source1 i1 = eventID source2 i2 <-> source1 = source2 /\ i1 = i2.
Proof.
  split; [|by intros [-> ->]]. unfold eventID.
  destruct (String.eqb_spec source1 "") as [->|], (String.eqb_spec source2 "") as [->|]; cbn [negb]; intros E.
  - by apply (inj pretty) in E.
  - exfalso. pose proof (id_no_colon i1) as HC. rewrite E, !has_colon_app in HC. by destruct (has_colon source2).
  - exfalso. pose proof (id_no_colon i2) as HC. rewrite <- E, !has_colon_app in HC. by destruct (has_colon source1).
  - apply last_colon_inj in E as [-> E]; [|apply id_no_colon..]. by apply (inj pretty) in E.
Qed.
