(* ===== verification/Kafka.v ===== *)
(** * The event bus: producer and idempotent consumer (services/pkg/kafka)

    [Producer.Publish] sends a keyed, headered message; the headers leave a Go
    map, so they travel in some order.  A [Consumer] of a group fetches
    messages, skips those recorded in processed_events, retries the handler a
    bounded number of times, parks what still fails on a dead-letter topic and
    commits the offset.  The state is a pair of the consumer's tables and what
    the broker has recorded: the dead letters and the committed offsets.  The
    reader is outside the model: a session is the list of messages that
    FetchMessage hands out until it reports an error. *)
From stdpp Require Import pretty.
From S2P Require Export Relay.

(** ** Messages *)

(** kafka.Message of this package; the value is the JSON the relay sent. *)
Record Delivery := mkDelivery {
  d_Topic : string;
  d_Key : string;
  d_Value : json;
  d_Headers : list (string * string);     (* a Go map *)
  d_EventID : string;
  d_EventType : string
}.

(** A missing key reads as the empty string. *)
Definition header_of (k : string) (h : list (string * string)) : string := default "" (get_header k h).

(** The header loop of decode: a later header of the same name wins. *)
Definition collect (hs : list (string * string)) : list (string * string) :=
  fold_left (fun m kv => set_header (fst kv) (snd kv) m) hs [].

Definition decode (km : Message) : Delivery :=
  let headers := collect (msg_headers km) in
  mkDelivery (msg_topic km) (msg_key km) (msg_payload km) headers
    (header_of "event-id" headers) (header_of "event-type" headers).

(** ** Payloads as Go maps *)

(** m[k]: of a repeated member the last one stays. *)
Definition member (k : string) (o : list (string * json)) : option json :=
  option_map snd (List.find (fun kv => String.eqb (fst kv) k) (rev o)).

Definition has_member (k : string) (o : list (string * json)) : bool :=
  match member k o with Some _ => true | None => false end.

(** The first key whose value is a non-empty string. *)
Fixpoint stringField (o : list (string * json)) (keys : list string) : string :=
  match keys with
  | [] => ""
  | k :: keys' => match member k o with
                  | Some (JStr v) => if String.eqb v "" then stringField o keys' else v
                  | _ => stringField o keys'
                  end
  end.

(** json.Unmarshal of the value into a map; null is the nil map. *)
Definition payload_members (m : Delivery) : option (list (string * json)) := 
  match d_Value m with JObj o => Some o | JNull => Some [] | _ => None end.

(** ** processed_events *)

Record ProcessedEvent := mkProcessed {
  pe_consumer : string;
  pe_event_id : string;
  processed_at : Z
}.

Class HasProcessed (T : Type) := processed : table T ProcessedEvent.

Definition is_processed (consumer eventID : string) (r : ProcessedEvent) : bool :=
  String.eqb (pe_consumer r) consumer && String.eqb (pe_event_id r) eventID.

(** INSERT INTO processed_events ... ON CONFLICT DO NOTHING; tells whether the
    row is new. *)
Definition record_processed {T} `{HasProcessed T} (consumer eventID : string) : sql T bool :=
  fun s d =>
    if existsb (is_processed consumer eventID) (rows processed d) then Done false d
    else Done true (put processed (rows processed d ++ [mkProcessed consumer eventID (now s)]) d).

Section Deduper.
Context {T E : Type} `{HasProcessed T}.

Definition AlreadyProcessed (consumer eventID : string) : prog T E bool :=
  exec_pool (fun _ d => Done (existsb (is_processed consumer eventID) (rows processed d)) d).

Definition MarkProcessed (consumer eventID : string) : prog T E unit :=
  exec_pool (record_processed consumer eventID) ;;; ret tt.
End Deduper.

(** ** The consumer *)

(** What the broker keeps of this consumer: dead letters and committed offsets. *)
Record Broker := mkBroker { parked : list Message; commits : list Z }.

Record Consumer := mkConsumer {
  group : string;
  dedupe : bool;         (* a Deduplicator is set *)
  dlq : bool;            (* a dead-letter Producer is set *)
  maxRetries : Z
}.

Definition NewConsumer (group : string) : Consumer := mkConsumer group false false 3.

Definition WithDedupe (c : Consumer) : Consumer := mkConsumer (group c) true (dlq c) (maxRetries c).

Definition WithDLQ (max : Z) (c : Consumer) : Consumer :=
  mkConsumer (group c) (dedupe c) true (if 0 <? max then max else maxRetries c).

(** A fetched message and its offset in the partition. *)
Record Fetched := mkFetched { km_Offset : Z; km : Message }.

(** How the retry loop ends. *)
Inductive tried (E : Type) :=
| Handled
| Cancelled
| Failed (e : err E).
Arguments Handled {E}.
Arguments Cancelled {E}.
Arguments Failed {E} e.

Section Consumer.
Context {T E : Type} `{HasProcessed T}.
(** The order in which [range] runs through a map, the text of an error, and
    whether the context is done when the backoff select looks. *)
Context (map_order : list (string * string) -> list (string * string)).
Context (error_text : err E -> string).
Context (ctx_done : nat -> bool).
Context (c : Consumer).

Abbreviation kprog := (prog (T * Broker) E).

(** A call of the service or of the Deduper: the broker is not touched. *)
Definition on_tables {A} (m : prog T E A) : kprog A := fun ev w =>
  let '(r, w') := m ev (World (fst (committed w)) NoTx (tick w)) in
  (r, World (committed w', snd (committed w)) NoTx (tick w')).

(** A synchronous request to the broker; a failing one may have taken effect. *)
Definition on_broker (f : Broker -> Broker) : kprog unit := fun ev w =>
  let n := tick w in
  let accepted := World (fst (committed w), f (snd (committed w))) NoTx (S n) in
  if fault ev n
  then (Err (Db Driver), if ack_lost ev n then accepted else World (committed w) NoTx (S n))
  else (Ok tt, accepted).

(** Producer.Publish *)
Definition produced (topic key : string) (payload : json) (headers : list (string * string)) : Message :=
  mkMessage topic key payload (map_order headers).

Definition Producer_Publish (topic key : string) (payload : json) (headers : list (string * string))
  : kprog unit :=
  on_broker (fun b => mkBroker (parked b ++ [produced topic key payload headers]) (commits b)).

(** The diagnostic headers of toDLQ; those of the message do not override them. *)
Definition dlq_headers (m : Delivery) (cause : err E) : list (string * string) :=
  fold_left (fun h kv => match get_header (fst kv) h with
                         | Some _ => h
                         | None => set_header (fst kv) (snd kv) h
                         end)
    (map_order (d_Headers m))
    [("event-id", d_EventID m); ("event-type", d_EventType m); ("original-topic", d_Topic m);
     ("consumer-group", group c); ("error", error_text cause)].

Definition toDLQ (m : Delivery) (cause : err E) : kprog unit :=
  Producer_Publish ("dlq." ++ d_Topic m) (d_Key m) (d_Value m) (dlq_headers m cause).

Definition select_done : kprog bool := fun _ w =>
  (Ok (ctx_done (tick w)), World (committed w) NoTx (S (tick w))).

Context (handler : Delivery -> prog T E unit).

(** The bounded retry loop, [n] attempts to go. *)
Fixpoint try_handler (n : nat) (m : Delivery) : kprog (tried E) :=
  match n with
  | O => ret Handled
  | S n' =>
      r <- attempt (on_tables (handler m)) ;;
      match r with
      | Ok _ => ret Handled
      | Err e =>
          match n' with
          | O => ret (Failed e)
          | S _ =>
              stop <- select_done ;;
              if stop : bool then ret Cancelled else try_handler n' m
          end
      end
  end.

Definition deduplicated (m : Delivery) : bool := dedupe c && negb (String.eqb (d_EventID m) "").

(** MarkProcessed, its error ignored. *)
Definition mark (m : Delivery) : kprog bool :=
  (if deduplicated m then attempt (on_tables (MarkProcessed (group c) (d_EventID m))) ;;; ret tt
   else ret tt) ;;;
  ret true.

Definition process (m : Delivery) : kprog bool :=
  skip <- (if deduplicated m
           then r <- attempt (on_tables (AlreadyProcessed (group c) (d_EventID m))) ;;
                ret (match r with Ok done => done | Err _ => false end)
           else ret false) ;;
  if skip : bool then ret true else
  o <- try_handler (Z.to_nat (maxRetries c)) m ;;
  match o with
  | Cancelled => ret false
  | Handled => mark m
  | Failed e =>
      if negb (dlq c) then ret false else
      p <- attempt (toDLQ m e) ;;
      match p with Err _ => ret false | Ok _ => mark m end
  end.

Definition CommitMessages (k : Fetched) : kprog unit :=
  on_broker (fun b => mkBroker (parked b) (commits b ++ [km_Offset k])).

(** Run, over the messages FetchMessage hands out before it reports an error. *)
Fixpoint Run (session : list Fetched) : kprog unit :=
  match session with
  | [] => ret tt
  | k :: session' =>
      commit <- process (decode (km k)) ;;
      if commit : bool then CommitMessages k ;;; Run session' else Run session'
  end.
End Consumer.

(** * What the consumer guarantees

    A message is committed only when its event was handled or parked on the
    dead-letter topic; what the relay published is decoded back; and the
    offsets of one session can pass a message that failed. *)
From Stdlib Require Import Permutation.

(** ** Headers travel in any order *)

Lemma get_header_In k v h :
  List.NoDup (map fst h) -> In (k, v) h -> get_header k h = Some v.
Proof.
  unfold get_header. induction h as [|[k' v'] h IH]; [done|]. cbn [map fst].
  intros [Hn Hd]%List.NoDup_cons_iff [[= -> ->]|Hin]; cbn [List.find fst].
  - by rewrite String.eqb_refl.
  - destruct (String.eqb_spec k' k) as [->|]; [|auto].
    destruct Hn. apply in_map_iff. by exists (k, v).
Qed.

Lemma get_header_None k h : get_header k h = None <-> ~ In k (map fst h).
Proof.
  unfold get_header. induction h as [|[k' v'] h IH]; cbn [map fst List.find In].
  - split; [by intros _ []|done].
  - destruct (String.eqb_spec k' k) as [->|N]; cbn [option_map].
    + split; [done|]. intros Hn. destruct Hn. by left.
    + rewrite IH. split; [|tauto]. intros Hn [->|Hk]; [done|]. by apply Hn.
Qed.

Lemma get_header_Permutation k h h' :
  List.NoDup (map fst h) -> Permutation h h' -> get_header k h' = get_header k h.
Proof.
  intros Hd Hp. pose proof (Permutation_NoDup (Permutation_map fst Hp) Hd) as Hd'.
  destruct (get_header k h) as [v|] eqn:G.
  - apply get_header_In; [done|]. apply (Permutation_in _ Hp). revert G. unfold get_header.
    destruct (List.find _ h) as [[k' v']|] eqn:F; [|done]. intros [= <-].
    apply List.find_some in F as [? K%String.eqb_eq]. cbn in *. by subst.
  - rewrite get_header_None in *. intros Hin. apply G.
    by apply (Permutation_in _ (Permutation_sym (Permutation_map fst Hp))).
Qed.

Lemma get_set_header_ne k k' v h : k <> k' -> get_header k (set_header k' v h) = get_header k h.
Proof.
  intros N. unfold get_header. induction h as [|[k0 v0] h IH]; cbn [set_header].
  - cbn. by destruct (String.eqb_spec k' k) as [->|].
  - destruct (String.eqb_spec k0 k') as [->|]; cbn [List.find fst].
    + by destruct (String.eqb_spec k' k) as [->|].
    + by destruct (String.eqb k0 k).
Qed.

Lemma set_header_keys k v h x : In x (map fst (set_header k v h)) <-> x = k \/ In x (map fst h).
Proof.
  induction h as [|[k' v'] h IH]; cbn [set_header map fst In]; [intuition congruence|].
  destruct (String.eqb_spec k' k) as [->|]; cbn [map fst In]; rewrite ?IH; intuition congruence.
Qed.

Lemma set_header_NoDup k v h : List.NoDup (map fst h) -> List.NoDup (map fst (set_header k v h)).
Proof.
  induction h as [|[k' v'] h IH]; cbn [map fst set_header].
  - intros _. constructor; [by intros []|constructor].
  - intros [Hn Hd]%List.NoDup_cons_iff. destruct (String.eqb_spec k' k) as [->|]; cbn [map fst].
    + by apply List.NoDup_cons_iff.
    + apply List.NoDup_cons_iff. split; [|auto]. rewrite set_header_keys. by intros [->|].
Qed.

(** A list with distinct names is collected to a map with the same entries. *)
Lemma collect_get k hs : List.NoDup (map fst hs) -> get_header k (collect hs) = get_header k hs.
Proof.
  unfold collect. intros Hd.
  enough (forall m, (forall x, In x (map fst hs) -> ~ In x (map fst m)) ->
    get_header k (fold_left (fun m kv => set_header (fst kv) (snd kv) m) hs m) =
    match get_header k hs with Some v => Some v | None => get_header k m end) as H.
  { rewrite H by (by intros ? ? []). by destruct (get_header k hs). }
  induction hs as [|[k' v'] hs IH]; intros m Hm; [done|]. cbn [fold_left fst snd].
  cbn [map fst] in Hd. apply List.NoDup_cons_iff in Hd as [Hn Hd]. rewrite IH; [|done|].
  - destruct (String.eqb_spec k' k) as [->|N].
    + rewrite (proj2 (get_header_None k hs)) by done. rewrite get_set_header.
      unfold get_header at 1. cbn. by rewrite String.eqb_refl.
    + rewrite get_set_header_ne by done. unfold get_header at 3. cbn [List.find fst].
      by apply String.eqb_neq in N as ->.
  - intros x Hx. rewrite set_header_keys. intros [->|Hm']; [done|]. apply (Hm x); [by right|done].
Qed.

(** What the consumer reads of headers that travelled in any order. *)
Lemma header_of_travelled (map_order : list (string * string) -> list (string * string)) x h :
  (forall h, Permutation (map_order h) h) -> List.NoDup (map fst h) ->
  header_of x (collect (map_order h)) = header_of x h.
Proof.
  intros Hp Hd. unfold header_of. rewrite collect_get.
  - by rewrite (get_header_Permutation x _ _ Hd (Permutation_sym (Hp _))).
  - eapply Permutation_NoDup; [symmetry; apply Permutation_map, Hp|done].
Qed.

(** Whatever order the producer's map iteration gives the headers, the
    consumer decodes a relayed outbox row to its topic, key and payload, to the
    event type of the row, and to an event id that is the source and the row's
    id, provided the names of the row's own headers are distinct. *)
Theorem relayed_event_roundtrip (map_order : list (string * string) -> list (string * string))
    (source : string) (r : OutboxRow)
    (Hperm : forall h, Permutation (map_order h) h)
    (Hnames : List.NoDup (map fst (default [] (headers r)))) :
  let m := message source r in
  let got := decode (produced map_order (msg_topic m) (msg_key m) (msg_payload m) (msg_headers m)) in
  d_Topic got = topic r /\ d_Key got = partition_key r /\ d_Value got = payload r /\
  d_EventType got = event_type r /\ d_EventID got = eventID source (o_id r).
Proof.
  cbn zeta. unfold decode, produced, message.
  cbn [msg_topic msg_key msg_payload msg_headers d_Topic d_Key d_Value d_EventType d_EventID].
  repeat split; rewrite header_of_travelled by (done || by repeat apply set_header_NoDup);
    unfold header_of.
  - by rewrite get_set_header.
  - by rewrite get_set_header_ne, get_set_header.
Qed.

Example relayed_event_roundtrip_witness :
  let r := mkOutbox 7 "escrow" "e1" "escrow.funded" "escrow.events" "k" (JInt 5) (Some [("trace", "t")]) 0 None in
  let m := message "escrow" r in
  let got := decode (produced (@rev _) (msg_topic m) (msg_key m) (msg_payload m) (msg_headers m)) in
  d_Topic got = "escrow.events" /\ d_Key got = "k" /\ d_Value got = JInt 5 /\
  d_EventType got = "escrow.funded" /\ d_EventID got = "escrow:7".
Proof.
  apply (relayed_event_roundtrip (@rev _) "escrow"
    (mkOutbox 7 "escrow" "e1" "escrow.funded" "escrow.events" "k" (JInt 5) (Some [("trace", "t")]) 0 None)).
  - intros h. symmetry. apply Permutation_rev.
  - cbn. constructor; [by intros []|constructor].
Defined.

(** ** Committed means handled *)

(** What a handler promises the consumer: success establishes [handled] for
    the message, which lasts; and any row it adds for the consumer's group
    records its own event, handled by then. *)
Class Reliable {T E : Type} `{HasProcessed T} (g : string) (handler : Delivery -> prog T E unit)
    (handled : Delivery -> T -> Prop) : Prop := {
  handler_ok m ev d n :
    wp (handler m) ev (World d NoTx n) (fun r w => r = Ok tt -> handled m (committed w));
  handler_keeps m m' ev d n : handled m' d ->
    wp (handler m) ev (World d NoTx n) (fun _ w => handled m' (committed w));
  handler_records m ev d n :
    wp (handler m) ev (World d NoTx n) (fun _ w => forall r, In r (rows processed (committed w)) ->
      pe_consumer r = g -> In r (rows processed d) \/ pe_event_id r = d_EventID m /\ handled m (committed w));
  handled_marked m d s consumer id : handled m d ->
    match record_processed consumer id s d with Done _ d' => handled m d' | Reject _ => True end
}.

Section Settled.
Context {T E : Type} `{HasProcessed T} `{!LawfulTable (processed (T := T))}.
Context (map_order : list (string * string) -> list (string * string)).
Context (error_text : err E -> string) (ctx_done : nat -> bool) (c : Consumer).
Context (handler : Delivery -> prog T E unit) (handled : Delivery -> T -> Prop).
Context `{!Reliable (group c) handler handled}.
Implicit Types (s : T * Broker) (m : Delivery) (ev : env).

(** The message was handled, or parked on its dead-letter topic. *)
Definition good m s : Prop :=
  handled m (fst s) \/ exists cause, In (produced map_order ("dlq." ++ d_Topic m) (d_Key m) (d_Value m)
    (dlq_headers map_order error_text c m cause)) (parked (snd s)).

(** So was this delivery, or another one of the same event. *)
Definition settled m s : Prop :=
  exists m', (m' = m \/ d_EventID m' = d_EventID m /\ d_EventID m <> "") /\ good m' s.

(** Every event recorded for the group is settled. *)
Definition records_settled s : Prop :=
  forall r, In r (rows processed (fst s)) -> pe_consumer r = group c ->
    exists m', d_EventID m' = pe_event_id r /\ good m' s.

(** A step of the consumer that commits no offset. *)
Record evolves s s' : Prop := {
  ev_good m : good m s -> good m s';
  ev_records : records_settled s -> records_settled s';
  ev_commits : commits (snd s') = commits (snd s)
}.

Lemma evolves_refl s : evolves s s.
Proof. done. Qed.

Lemma evolves_trans s1 s2 s3 : evolves s1 s2 -> evolves s2 s3 -> evolves s1 s3.
Proof. intros [] []. constructor; auto. congruence. Qed.

Abbreviation kprog := (prog (T * Broker) E).

Lemma wp_on_tables {A} (p : prog T E A) ev d b n (Q : res E A -> world (T * Broker) -> Prop) :
  wp p ev (World d NoTx n) (fun r w => Q r (World (committed w, b) NoTx (tick w))) ->
  wp (on_tables p) ev (World (d, b) NoTx n) Q.
Proof. unfold wp, on_tables. cbn. by destruct (p ev _). Qed.

Lemma wp_on_broker f ev d b n (Q : res E unit -> world (T * Broker) -> Prop) :
  (forall e, Q (Err e) (World (d, b) NoTx (S n))) ->
  (forall r, Q r (World (d, f b) NoTx (S n))) ->
  wp (on_broker f) ev (World (d, b) NoTx n) Q.
Proof. intros H1 H2. unfold wp, on_broker. cbn. destruct (fault ev n), (ack_lost ev n); cbn; auto. Qed.

(** The state after a program, at rest. *)
Definition leads {A} (Q : res E A -> T * Broker -> Prop) (r : res E A) (w : world (T * Broker)) : Prop :=
  txs w = NoTx /\ Q r (committed w).

Lemma try_handler_evolves n m ev s k :
  wp (try_handler ctx_done handler n m) ev (World s NoTx k)
    (leads (fun r s' => evolves s s' /\ exists o, r = Ok o /\ (n <> O -> o = Handled -> handled m (fst s')))).
Proof.
  revert s k. induction n as [|n IH]; intros [d b] k; cbn [try_handler].
  { apply wp_ret. split; [done|]. split; [apply evolves_refl|]. by exists Handled. }
  apply wp_bind, wp_attempt, wp_on_tables.
  pose proof (handler_ok m ev d k) as Hok. pose proof (handler_keeps (handler := handler) m) as Hkeep.
  pose proof (handler_records m ev d k) as Hrec. unfold wp in *.
  specialize (fun m' => Hkeep m' ev d k).
  destruct (handler m ev (World d NoTx k)) as [r w']. cbn [fst snd] in *.
  assert (evolves (d, b) (committed w', b)) as Hev.
  { constructor; [| |done]; unfold good, records_settled; cbn [fst snd].
    - intros m' [Hm|Hp]; eauto.
    - intros Hs x Hx Hg. destruct (Hrec x Hx Hg) as [Hx'|[Hid Hh]]; [|exists m; split; [done|by left]].
      destruct (Hs x Hx' Hg) as (m' & Hm' & [Hm|Hp]); (exists m'; split; [done|]).
      + left. by apply Hkeep.
      + by right. }
  destruct r as [[]|e].
  - split; [done|]. split; [done|]. exists Handled. split; [done|]. intros _ _. by apply Hok.
  - destruct n as [|n]; [split; [done|]; split; [done|]; by exists (Failed e)|].
    unfold bind, select_done. cbn [committed tick].
    destruct (ctx_done (tick w')).
    + split; [done|]. split; [done|]. by exists Cancelled.
    + destruct (IH (committed w', b) (S (tick w'))) as (Htx & Hev' & o & Ho & Hh). unfold wp, leads.
      split; [done|]. split; [by eapply evolves_trans|]. exists o. split; [done|]. intros _. by apply Hh.
Qed.

(** Recording a settled event. *)
Lemma recorded_evolves m d b st :
  settled m (d, b) -> 
  match record_processed (group c) (d_EventID m) st d with
  | Done _ d' => evolves (d, b) (d', b)
  | Reject _ => True
  end.
Proof.
  intros (m' & Hsame & Hg). unfold record_processed.
  destruct (existsb _ _) eqn:X; [apply evolves_refl|].
  assert (forall x, good x (d, b) -> good x (put processed (rows processed d ++
      [mkProcessed (group c) (d_EventID m) (now st)]) d, b)) as Hkeep.
  { intros x [Hx|Hx]; [left|by right]. pose proof (handled_marked x d st (group c) (d_EventID m) Hx) as Hm.
    unfold record_processed in Hm. by rewrite X in Hm. }
  constructor; [done| |done]. intros Hs r. cbn [fst]. rewrite rows_put.
  intros [Hr|[<-|[]]]%in_app_iff Hc.
  - destruct (Hs r Hr Hc) as (x & ? & ?). eauto.
  - exists m'. split; [|auto]. cbn. destruct Hsame as [->|[]]; auto.
Qed.

Lemma mark_settles m ev s n :
  settled m s -> wp (mark c m) ev (World s NoTx n) (leads (fun r s' => evolves s s' /\ r = Ok true)).
Proof.
  destruct s as [d b]. intros Hm. unfold mark. apply wp_bind.
  destruct (deduplicated c m); [|by split; [done|]].
  apply wp_bind, wp_attempt, wp_on_tables. unfold MarkProcessed. apply wp_bind, wp_exec_pool.
  pose proof (recorded_evolves m d b (Stamp (clock ev n) (gen_uuid ev n)) Hm) as He.
  destruct (record_processed _ _ _ _); repeat split; try done; intros; by apply evolves_refl || apply He.
Qed.

(** [process] answered whether to commit: if so, the message is settled. *)
Definition answers m s : res E bool -> world (T * Broker) -> Prop :=
  leads (fun r s' => evolves s s' /\ exists b, r = Ok b /\ (b = true -> settled m s')).

Lemma answers_false m s s' n : evolves s s' -> answers m s (Ok false) (World s' NoTx n).
Proof. intros. split; [done|]. split; [done|]. by exists false. Qed.

Lemma mark_answers m ev s s' n :
  evolves s s' -> settled m s' -> wp (mark c m) ev (World s' NoTx n) (answers m s).
Proof.
  intros He Hm. eapply wp_mono; [by apply mark_settles|].
  intros r [s2 x k2] (Htx & H12 & ->). cbn [txs committed] in *. subst x.
  split; [done|]. split; [by eapply evolves_trans|]. exists true. split; [done|]. intros _.
  destruct Hm as (m' & ? & ?). exists m'. split; [done|]. by apply H12.
Qed.

Definition dead_letter m e : Message :=
  produced map_order ("dlq." ++ d_Topic m) (d_Key m) (d_Value m) (dlq_headers map_order error_text c m e).

Lemma park_evolves m e d b : evolves (d, b) (d, mkBroker (parked b ++ [dead_letter m e]) (commits b)).
Proof.
  assert (forall x, good x (d, b) -> good x (d, mkBroker (parked b ++ [dead_letter m e]) (commits b))) as Hk.
  { intros x [Hx|[cause Hx]]; [by left|right]. exists cause. apply in_app_iff. by left. }
  constructor; [done| |done]. intros Hr r Hin Hg. destruct (Hr r Hin Hg) as (x & ? & ?). eauto.
Qed.

Lemma toDLQ_answers m e ev s d b n :
  evolves s (d, b) ->
  wp (p <- attempt (toDLQ map_order error_text c m e) ;;
      match p with Err _ => ret false | Ok _ => mark c m end) ev (World (d, b) NoTx n) (answers m s).
Proof.
  intros He. apply wp_bind, wp_attempt.
  pose proof (park_evolves m e d b) as Hp. assert (evolves s (d, mkBroker (parked b ++ [dead_letter m e])
    (commits b))) as Hsp by (by eapply evolves_trans).
  apply wp_on_broker; cbn beta.
  - intros e'. by apply answers_false.
  - intros [[]|e']; [|by apply answers_false]. apply mark_answers; [done|].
    exists m. split; [by left|]. right. exists e. apply in_app_iff. right. by left.
Qed.

Lemma process_settles m ev s n :
  0 < maxRetries c -> records_settled s ->
  wp (process map_order error_text ctx_done c handler m) ev (World s NoTx n) (answers m s).
Proof.
  intros Hmax Hs. unfold process. apply wp_bind.
  assert (forall k, wp (o <- try_handler ctx_done handler (Z.to_nat (maxRetries c)) m ;;
    match o with
    | Cancelled => ret false
    | Handled => mark c m
    | Failed e => if negb (dlq c) then ret false else
        p <- attempt (toDLQ map_order error_text c m e) ;;
        match p with Err _ => ret false | Ok _ => mark c m end
    end) ev (World s NoTx k) (answers m s)) as Hgo.
  { intros k. apply wp_bind. eapply wp_mono; [apply try_handler_evolves|].
    intros r [s1 x k1] (Htx & Hev & o & -> & Hh). cbn [txs committed] in *. subst x. destruct o as [| |e].
    - apply mark_answers; [done|]. exists m. split; [by left|]. left. apply Hh; [lia|done].
    - by apply answers_false.
    - destruct (negb (dlq c)); [by apply answers_false|]. destruct s1. by apply toDLQ_answers. }
  destruct (deduplicated c m) eqn:Hd; [|by apply wp_ret].
  apply wp_bind, wp_attempt. destruct s as [d b]. apply wp_on_tables. unfold AlreadyProcessed.
  eapply wp_pool_read; [done|intros _; by apply wp_ret|]. cbn beta.
  apply wp_ret. destruct (existsb _ _) eqn:X; [|apply Hgo].
  apply wp_ret. split; [done|]. split; [apply evolves_refl|]. exists true. split; [done|]. intros _.
  apply existsb_exists in X as (r & Hr & [Hc He]%andb_true_iff). apply String.eqb_eq in Hc, He.
  destruct (Hs r Hr Hc) as (m' & Hid & Hg). exists m'. split; [|done]. right. rewrite Hid. split; [done|].
  unfold deduplicated in Hd. apply andb_true_iff in Hd as [_ Hd%negb_true_iff]. by apply String.eqb_neq.
Qed.

(** The offsets a session commits, and what holds of their messages. *)
Definition session_outcome (session : list Fetched) s s' : Prop :=
  (forall m, good m s -> good m s') /\ records_settled s' /\
  exists l, commits (snd s') = commits (snd s) ++ l /\
    forall o, In o l -> exists k, In k session /\ km_Offset k = o /\ settled (decode (km k)) s'.

Lemma outcome_nothing session s s' :
  evolves s s' -> records_settled s -> session_outcome session s s'.
Proof.
  intros [Hg Hr Hc] Hs. split; [done|]. split; [auto|]. exists []. by rewrite Hc, app_nil_r.
Qed.

Lemma outcome_uncommitted k session s s1 s2 :
  evolves s s1 -> session_outcome session s1 s2 -> session_outcome (k :: session) s s2.
Proof.
  intros [Hg _ Hc] (Hg' & Hr & l & Hl & Ho). split; [auto|]. split; [done|]. exists l.
  rewrite Hl, Hc. split; [done|]. intros o Hin. destruct (Ho o Hin) as (k' & ? & ? & ?).
  exists k'. split; [by right|done].
Qed.

Lemma outcome_committed k session s d b s2 :
  evolves s (d, b) -> settled (decode (km k)) (d, b) ->
  session_outcome session (d, mkBroker (parked b) (commits b ++ [km_Offset k])) s2 ->
  session_outcome (k :: session) s s2.
Proof.
  intros [Hg _ Hc] (m' & Hm & Hgood) (Hg' & Hr & l & Hl & Ho). split; [|split; [done|]].
  - intros m H'%Hg. by apply Hg'.
  - exists (km_Offset k :: l). split; [by rewrite Hl; cbn in *; rewrite Hc, <- app_assoc|].
    intros o [<-|Hin].
    + exists k. split; [by left|]. split; [done|]. exists m'. split; [done|]. by apply Hg'.
    + destruct (Ho o Hin) as (k' & ? & ? & ?). exists k'. split; [by right|done].
Qed.

Lemma Run_settles session ev s n :
  0 < maxRetries c -> records_settled s ->
  wp (Run map_order error_text ctx_done c handler session) ev (World s NoTx n)
    (fun _ w' => session_outcome session s (committed w')).
Proof.
  intros Hmax. revert s n. induction session as [|k ks IH]; intros s n Hs; cbn [Run].
  { apply wp_ret. by apply outcome_nothing. }
  apply wp_bind. eapply wp_mono; [by apply process_settles|].
  intros r [[d1 b1] x n1] (Htx & Hev & b & -> & Hb). cbn [txs committed] in *. subst x.
  destruct b.
  - specialize (Hb eq_refl). apply wp_bind. apply wp_on_broker.
    + intros e. apply (outcome_uncommitted k ks s (d1, b1)); [done|]. apply outcome_nothing; [done|]. by apply Hev.
    + assert (records_settled (d1, mkBroker (parked b1) (commits b1 ++ [km_Offset k]))) as Hs1
        by (by apply Hev in Hs).
      intros [[]|e]; [eapply wp_mono; [by apply IH|]; intros r w Hw|];
        apply (outcome_committed k ks s d1 b1); try done. by apply outcome_nothing.
  - eapply wp_mono; [apply IH; by apply Hev|]. intros r w Hw. by apply (outcome_uncommitted k ks s (d1, b1)).
Qed.

(** C19: Whatever fails, and however often sessions are restarted: if every
    event recorded for the group is settled at the start, so is it at the end,
    and every offset the session commits is that of a fetched message whose
    event was handled (as [handled] says, which success of the handler
    establishes) or parked on its dead-letter topic. *)
Theorem committed_messages_are_settled (session : list Fetched) ev d b n
    (Hmax : 0 < maxRetries c) (Hstart : records_settled (d, b)) :
  let s' := committed (snd (Run map_order error_text ctx_done c handler session ev (World (d, b) NoTx n))) in
  records_settled s' /\
  exists l, commits (snd s') = commits b ++ l /\
    forall o, In o l -> exists k, In k session /\ km_Offset k = o /\ settled (decode (km k)) s'.
Proof. apply (Run_settles session ev (d, b) n Hmax Hstart). Qed.
End Settled.

(** ** Without a dead-letter producer *)

Section NoDeadLetters.
Context {T E : Type} `{HasProcessed T}.
Context (map_order : list (string * string) -> list (string * string)).
Context (error_text : err E -> string) (ctx_done : nat -> bool) (c : Consumer).
Context (handler : Delivery -> prog T E unit).

Definition parks_nothing {A} (p : prog (T * Broker) E A) : Prop := forall ev w,
  parked (snd (committed (snd (p ev w)))) = parked (snd (committed w)).

Lemma parks_nothing_bind {A B} (p : prog (T * Broker) E A) (k : A -> prog (T * Broker) E B) :
  parks_nothing p -> (forall a, parks_nothing (k a)) -> parks_nothing (bind p k).
Proof.
  intros Hp Hk ev w. unfold bind. specialize (Hp ev w). destruct (p ev w) as [[a|e] w']; [|done].
  by rewrite (Hk a ev w').
Qed.

Lemma parks_nothing_attempt {A} (p : prog (T * Broker) E A) : parks_nothing p -> parks_nothing (attempt p).
Proof. intros Hp ev w. unfold attempt. specialize (Hp ev w). by destruct (p ev w). Qed.

Lemma parks_nothing_tables {A} (p : prog T E A) : parks_nothing (on_tables p).
Proof. intros ev w. unfold on_tables. by destruct (p ev _). Qed.

Lemma Run_parks_nothing session :
  dlq c = false -> parks_nothing (Run map_order error_text ctx_done c handler session).
Proof.
  intros Hd. assert (forall A (a : A), parks_nothing (ret a)) as Hret by done.
  assert (forall m, parks_nothing (mark c m)) as Hmark.
  { intros m. apply parks_nothing_bind; [|done]. destruct (deduplicated c m); [|done].
    apply parks_nothing_bind; [apply parks_nothing_attempt, parks_nothing_tables|done]. }
  assert (forall n m, parks_nothing (try_handler ctx_done handler n m)) as Htry.
  { induction n as [|n IH]; intros m; [done|]. cbn [try_handler].
    apply parks_nothing_bind; [apply parks_nothing_attempt, parks_nothing_tables|]. intros [a|e]; [done|].
    destruct n; [done|]. apply parks_nothing_bind; [done|]. intros []; [done|apply IH]. }
  induction session as [|k session IH]; [done|]. cbn [Run]. apply parks_nothing_bind.
  - unfold process. apply parks_nothing_bind.
    + destruct (deduplicated c _); [|done]. apply parks_nothing_bind; [|done]. apply parks_nothing_attempt, parks_nothing_tables.
    + intros []; [done|]. apply parks_nothing_bind; [apply Htry|]. intros [| |e]; [done|done|]. by rewrite Hd.
  - intros []; [|done]. apply parks_nothing_bind; [|done]. intros ev w. unfold CommitMessages, on_broker.
    by destruct (fault ev (tick w)), (ack_lost ev (tick w)).
Qed.

(** Then what is committed was handled. *)
Lemma committed_are_handled handled session ev d b n :
  LawfulTable (processed (T := T)) -> Reliable (group c) handler handled ->
  0 < maxRetries c -> dlq c = false -> parked b = [] ->
  (forall r, In r (rows processed d) -> pe_consumer r <> group c) ->
  let s' := committed (snd (Run map_order error_text ctx_done c handler session ev (World (d, b) NoTx n))) in
  exists l, commits (snd s') = commits b ++ l /\ forall o, In o l -> exists k m, In k session /\ km_Offset k = o /\
    (m = decode (km k) \/ d_EventID m = d_EventID (decode (km k)) /\ d_EventID m <> "") /\ handled m (fst s').
Proof.
  intros HL HR Hmax Hdlq Hp Hrec s'.
  assert (records_settled map_order error_text c handled (d, b)) as Hs by (intros r Hr Hc; by destruct (Hrec r Hr)).
  destruct (Run_settles map_order error_text ctx_done c handler handled session ev (d, b) n Hmax Hs) as (_ & _ & l & Hl & Ho).
  fold s' in Hl, Ho. exists l. split; [done|]. intros o Hin. destruct (Ho o Hin) as (k & Hk & Hok & m & Hm & Hg).
  exists k, m. split; [done|]. split; [done|]. split; [destruct Hm as [->|[E2 ?]]; [by left|right; by rewrite E2]|].
  destruct Hg as [Hg|(cause & Hg)]; [done|].
  assert (parked (snd s') = []) as E1 by (unfold s'; by rewrite Run_parks_nothing). rewrite E1 in Hg. destruct Hg.
Qed.
End NoDeadLetters.

(** ** Invariants of the tables *)

Section RunInvariant.
Context {T E : Type} `{HasProcessed T}.
Context (map_order : list (string * string) -> list (string * string)).
Context (error_text : err E -> string) (ctx_done : nat -> bool) (c : Consumer).
Context (handler : Delivery -> prog T E unit).
Context (I : T -> Prop) (ready : Delivery -> T -> Prop) (comes : Delivery -> Prop).
Context (Hhandler : forall m ev d n, comes m -> I d ->
  wp (handler m) ev (World d NoTx n) (fun r w => I (committed w) /\ (r = Ok tt -> ready m (committed w)))).
Context (Hmark : forall m d s, comes m -> I d -> ready m d ->
  match record_processed (group c) (d_EventID m) s d with Done _ d' => I d' | Reject _ => True end).
Context (Hretries : 0 < maxRetries c) (Hdlq : dlq c = false).
Implicit Types (s : T * Broker) (m : Delivery) (ev : env).

Definition stays {A} (P : A -> T -> Prop) (r : res E A) (w : world (T * Broker)) : Prop :=
  txs w = NoTx /\ I (fst (committed w)) /\ exists a, r = Ok a /\ P a (fst (committed w)).

Lemma try_handler_stays k m ev s n :
  comes m -> I (fst s) ->
  wp (try_handler ctx_done handler (S k) m) ev (World s NoTx n)
    (stays (fun o d => o = Handled -> ready m d)).
Proof.
  intros Hm. revert s n. induction k as [|k IH]; intros [d b] n Hd.
  all: cbn [try_handler]; apply wp_bind, wp_attempt, wp_on_tables.
  all: eapply wp_mono; [by apply Hhandler|]; intros [[]|e] w [HI Hr].
  - apply wp_ret. split; [done|]. split; [done|]. exists Handled. auto.
  - apply wp_ret. split; [done|]. split; [done|]. by exists (Failed e).
  - apply wp_ret. split; [done|]. split; [done|]. exists Handled. auto.
  - apply wp_bind. unfold select_done. unfold wp at 1. cbn [fst snd committed tick].
    destruct (ctx_done _); [|by apply IH]. apply wp_ret. split; [done|]. split; [done|]. by exists Cancelled.
Qed.

Lemma process_stays m ev s n :
  comes m -> I (fst s) ->
  wp (process map_order error_text ctx_done c handler m) ev (World s NoTx n) (stays (fun _ _ => True)).
Proof.
  intros Hm Hs. unfold process. apply wp_bind.
  assert (forall k, wp (o <- try_handler ctx_done handler (Z.to_nat (maxRetries c)) m ;;
    match o with
    | Cancelled => ret false
    | Handled => mark c m
    | Failed e => if negb (dlq c) then ret false else
        p <- attempt (toDLQ map_order error_text c m e) ;;
        match p with Err _ => ret false | Ok _ => mark c m end
    end) ev (World s NoTx k) (stays (fun _ _ => True))) as Hgo.
  { intros k. apply wp_bind. destruct (Z.to_nat (maxRetries c)) as [|a] eqn:HA; [lia|].
    eapply wp_mono; [by apply try_handler_stays|].
    intros r [[d b] x k1] (Htx & HI & o & -> & Ho). cbn [txs committed fst] in *. subst x. rewrite Hdlq.
    destruct o as [| |e]; [|apply wp_ret; split; [done|split; [done|by exists false]]..].
    unfold mark. apply wp_bind. destruct (deduplicated c m).
    2:{ apply wp_ret, wp_ret. split; [done|]. split; [done|]. by exists true. }
    apply wp_bind, wp_attempt, wp_on_tables. unfold MarkProcessed. apply wp_bind, wp_exec_pool.
    pose proof (Hmark m d (Stamp (clock ev k1) (gen_uuid ev k1)) Hm HI (Ho eq_refl)) as Hd.
    destruct (record_processed _ _ _ _); repeat split; intros; try done; by exists true. }
  destruct (deduplicated c m); [|by apply wp_ret].
  apply wp_bind, wp_attempt. destruct s as [d b]. apply wp_on_tables. unfold AlreadyProcessed.
  eapply wp_pool_read; [done|intros _; by apply wp_ret|]. cbn beta. apply wp_ret.
  destruct (existsb _ _); [|apply Hgo]. apply wp_ret. split; [done|]. split; [done|]. by exists true.
Qed.

(** What the handler, and recording what it handled, preserves, a session
    preserves. *)
Lemma Run_stays session ev s n :
  Forall (fun k => comes (decode (km k))) session -> I (fst s) ->
  wp (Run map_order error_text ctx_done c handler session) ev (World s NoTx n)
    (fun _ w => I (fst (committed w))).
Proof.
  revert s n. induction session as [|k ks IH]; intros s n Hc Hs; cbn [Run]; [by apply wp_ret|].
  apply Forall_cons_1 in Hc as [Hk Hks].
  apply wp_bind. eapply wp_mono; [by apply process_stays|].
  intros r [[d b] x k1] (Htx & HI & a & -> & _). cbn [txs committed fst] in *. subst x.
  destruct a; [|by apply IH]. apply wp_bind, wp_on_broker; [done|].
  intros [[]|e]; [|done]. by apply IH.
Qed.
End RunInvariant.

(** ** Failing messages and committed offsets *)

(** A message the loop leaves uncommitted does not stop it: the offset of a
    later message of the partition is committed, and with it, Kafka's commits
    being positions in the log, the failed one. *)
Lemma later_offset_committed {T} `{HasProcessed T} map_order (error_text : err unit -> string) ctx_done c handler
    k0 k1 ev s n d1 b1 n1 d2 b2 n2 :
  process map_order error_text ctx_done c handler (decode (km k0)) ev (World s NoTx n)
    = (Ok false, World (d1, b1) NoTx n1) ->
  process map_order error_text ctx_done c handler (decode (km k1)) ev (World (d1, b1) NoTx n1)
    = (Ok true, World (d2, b2) NoTx n2) ->
  fault ev n2 = false ->
  commits (snd (committed (snd (Run (T := T) map_order error_text ctx_done c handler [k0; k1] ev (World s NoTx n)))))
    = commits b2 ++ [km_Offset k1].
Proof.
  intros H0 H1 Hf. cbn [Run]. unfold bind at 1. rewrite H0. unfold bind at 1. rewrite H1.
  unfold bind, CommitMessages, on_broker. cbn [tick]. by rewrite Hf.
Qed.

(** A handler that refuses one event. *)
Definition picky (bad : string) : Delivery -> prog (list ProcessedEvent) unit unit :=
  fun m => if String.eqb (d_EventID m) bad then fail tt else ret tt.

#[local] Instance demo_processed : HasProcessed (list ProcessedEvent) := Table (fun d => d) (fun l _ => l).

Definition demo_message (offset : Z) (id : string) : Fetched :=
  mkFetched offset (mkMessage "contract.events" "k" JNull [("event-id", id); ("event-type", "contract.activated")]).

(** The consumer as the services configure it, over two messages of which the
    first fails all its attempts: offset 1 is committed, event e0 is neither
    recorded nor parked. *)
Lemma failed_message_passed_over :
  let '(d, b) := committed (snd (Run (fun h => h) (fun _ => "") (fun _ => false)
    (WithDedupe (NewConsumer "notification-consumer")) (picky "e0")
    [demo_message 0 "e0"; demo_message 1 "e1"] quiet_env (World ([], mkBroker [] []) NoTx 0))) in
  b = mkBroker [] [1] /\ map pe_event_id d = ["e1"].
Proof. vm_compute. auto. Qed.
