(* ===== verification/Http.v ===== *)
(** * HTTP transport shared by the services

    Requests and responses as the handlers see them, the JSON decoding of
    encoding/json into struct fields, and the early-return style of the
    handlers.  The network, the router and the JSON lexer are outside the
    model: a request carries its parsed body. *)
From S2P Require Export Outbox.

(** ** encoding/json *)

(** Go matches object keys to struct tags without regard to ASCII case. *)
Definition lower_char (c : Ascii.ascii) : Ascii.ascii :=
  let n := nat_of_ascii c in
  if (65 <=? n)%nat && (n <=? 90)%nat then ascii_of_nat (n + 32) else c.

Fixpoint lower (s : string) : string :=
  match s with
  | EmptyString => EmptyString
  | String c s' => String (lower_char c) (lower s')
  end.

(** All the values an object gives for a tag, in order. *)
Definition values_of (tag : string) (o : list (string * json)) : list json :=
  map snd (List.filter (fun kv => String.eqb (lower (fst kv)) (lower tag)) o).

(** Decoding one value into a field that holds [old]: [null] leaves it alone, a
    value of another type is an error. *)
Definition into_string (old : string) (j : json) : option string :=
  match j with JNull => Some old | JStr s => Some s | _ => None end.

Definition into_int64 (old : Z) (j : json) : option Z :=
  match j with
  | JNull => Some old
  | JInt z => if in_int64 z then Some z else None
  | _ => None
  end.

Definition into_opt {A} (f : json -> option A) (old : option A) (j : json) : option (option A) :=
  match j with JNull => Some None | _ => option_map Some (f j) end.

Fixpoint into_all {A} (f : A -> json -> option A) (old : A) (l : list json) : option A :=
  match l with
  | [] => Some old
  | j :: l' => match f old j with Some a => into_all f a l' | None => None end
  end.

Definition field {A} (f : A -> json -> option A) (zero : A) (tag : string)
  (o : list (string * json)) : option A := into_all f zero (values_of tag o).

Definition str_field := field into_string "".
Definition int_field := field into_int64 0.

Lemma int_field_range tag o z : int_field tag o = Some z -> int64_min <= z <= int64_max.
Proof.
  unfold int_field, field. generalize (values_of tag o). intros l.
  assert (forall old, int64_min <= old <= int64_max ->
    into_all into_int64 old l = Some z -> int64_min <= z <= int64_max) as H.
  { induction l as [|j l IH]; cbn; intros old Hold; [by intros [= <-]|].
    destruct j; cbn; try done; [by apply IH|].
    destruct (in_int64 z0) eqn:R; [|done]. by apply IH, in_int64_iff. }
  apply H. unfold int64_min, int64_max. lia.
Qed.

(** The members of a body decoded into a struct; [null] has none. *)
Definition members (b : option json) : option (list (string * json)) :=
  match b with
  | Some (JObj o) => Some o
  | Some JNull => Some []
  | _ => None
  end.

(** ** net/http *)

Record request := Request {
  header : string -> string;       (* r.Header.Get *)
  urlParam : string -> string;     (* chi.URLParam *)
  query : string -> string;        (* r.URL.Query().Get *)
  contentLength : Z;               (* r.ContentLength; -1 when unknown *)
  body : option json;              (* the body, when it is one JSON value *)
  raw_body : option string         (* io.ReadAll of the body, when it fits *)
}.

Record response := Response { status : Z; payload_of : json }.

Definition writeJSON (code : Z) (v : json) : response := Response code v.

Definition writeErr (code : Z) (name msg : string) : response :=
  writeJSON code (JObj [("code", JStr name); ("message", JStr msg)]).

(** The response of another service: its status and parsed body; [None] is a
    transport error or a timeout. *)
Definition transport := nat -> string -> option (Z * option json).

Section Handlers.
Context {D E : Type}.

(** [client.Do]: each request is answered anew. *)
Definition http_get (net : transport) (url : string) : prog D E (option (Z * option json)) :=
  fun _ w => (Ok (net (tick w) url), World (committed w) (txs w) (S (tick w))).

(** A step of a handler either writes the response and returns, or goes on. *)
Definition step (A : Type) := prog D E (response + A).

Definition reply_with {A} (r : response) : step A := ret (inl r).
Definition go_on {A} (a : A) : step A := ret (inr a).

Definition bind_ok {A} (m : step A) (k : A -> prog D E response) : prog D E response :=
  o <- m ;; match o with inl r => ret r | inr a => k a end.

Definition step_bind {A B} (m : step A) (k : A -> step B) : step B :=
  o <- m ;; match o with inl r => ret (inl r) | inr a => k a end.

(** Calling the service: its error goes to [mapError], its value on. *)
Definition or_mapped {A} (mapError : err E -> response) (m : prog D E A) : step A :=
  r <- attempt m ;;
  match r with Ok a => go_on a | Err e => reply_with (mapError e) end.

Definition requireUser (r : request) : step string :=
  let uid := header r "X-User-Id" in
  if String.eqb uid "" then reply_with (writeErr 401 "UNAUTHENTICATED" "missing X-User-Id")
  else go_on uid.

Definition decode {A} (f : list (string * json) -> option A) (r : request) : step A :=
  match members (body r) with
  | Some o => match f o with
              | Some a => go_on a
              | None => reply_with (writeErr 400 "INVALID_JSON" "could not parse request body")
              end
  | None => reply_with (writeErr 400 "INVALID_JSON" "could not parse request body")
  end.
End Handlers.

Notation "x <-? m ;; k" := (bind_ok m (fun x => k))
  (at level 100, m at next level, right associativity) : prog_scope.

Section HandlerRules.
Context {D E : Type} `{Deferred D}.
Implicit Types (w : world D) (ev : env).

Lemma wp_bind_ok {A} (m : step (D := D) (E := E) A) k ev w (Q : res E response -> world D -> Prop) :
  wp m ev w (fun o w' => match o with
                         | Ok (inl r) => Q (Ok r) w'
                         | Ok (inr a) => wp (k a) ev w' Q
                         | Err e => Q (Err e) w'
                         end) ->
  wp (bind_ok m k) ev w Q.
Proof.
  intros Hm. apply wp_bind. eapply wp_mono; [exact Hm|]. cbn.
  intros [[r|a]|e] w'; [apply wp_ret|done..].
Qed.

Lemma wp_requireUser r ev w (Q : res E (response + string) -> world D -> Prop) :
  (header r "X-User-Id" = "" ->
     Q (Ok (inl (writeErr 401 "UNAUTHENTICATED" "missing X-User-Id"))) w) ->
  (header r "X-User-Id" <> "" -> Q (Ok (inr (header r "X-User-Id"))) w) ->
  wp (requireUser r) ev w Q.
Proof.
  intros H1 H2. unfold requireUser. cbv zeta.
  destruct (String.eqb_spec (header r "X-User-Id") ""); apply wp_ret; auto.
Qed.

Lemma wp_decode {A} (f : list (string * json) -> option A) r ev w
  (Q : res E (response + A) -> world D -> Prop) :
  Q (Ok (inl (writeErr 400 "INVALID_JSON" "could not parse request body"))) w ->
  (forall o a, members (body r) = Some o -> f o = Some a -> Q (Ok (inr a)) w) ->
  wp (decode f r) ev w Q.
Proof.
  intros H1 H2. unfold decode. destruct (members (body r)) as [o|]; [|by apply wp_ret].
  destruct (f o) eqn:F; apply wp_ret; eauto.
Qed.

Lemma wp_or_mapped {A} (mapError : err E -> response) (m : prog D E A) ev w Q :
  wp m ev w (fun r w' => match r with
                         | Ok a => Q (Ok (inr a)) w'
                         | Err e => Q (Ok (inl (mapError e))) w'
                         end) ->
  wp (or_mapped mapError m) ev w Q.
Proof.
  intros Hm. unfold or_mapped. apply wp_bind, wp_attempt. eapply wp_mono; [exact Hm|].
  intros [a|e] w'; intros; by apply wp_ret.
Qed.

Lemma wp_http_get net url ev c t n (Q : res E (option (Z * option json)) -> world D -> Prop) :
  Q (Ok (net n url)) (World c t (S n)) -> wp (http_get net url) ev (World c t n) Q.
Proof. done. Qed.
End HandlerRules.
