(* ===== verification/Strings.v ===== *)
(** * Go string functions

    The functions of packages strings and strconv that the services use, on
    ASCII text; RFC 3339 instants and dates; and the texts of PostgreSQL's
    errors. *)
From S2P Require Export Tables.

(** strings.Split with a one-byte separator. *)
Fixpoint split (sep : Ascii.ascii) (s : string) : list string :=
  match s with
  | EmptyString => [EmptyString]
  | String c s' =>
      if Ascii.eqb c sep then EmptyString :: split sep s'
      else match split sep s' with
           | x :: l => String c x :: l
           | [] => [String c EmptyString]
           end
  end.

(** strings.SplitN(s, sep, 2), when the separator occurs. *)
Fixpoint split2 (sep : Ascii.ascii) (s : string) : option (string * string) :=
  match s with
  | EmptyString => None
  | String c s' =>
      if Ascii.eqb c sep then Some (EmptyString, s')
      else option_map (fun xy => (String c (fst xy), snd xy)) (split2 sep s')
  end.

Definition is_space (c : Ascii.ascii) : bool :=
  let n := nat_of_ascii c in ((9 <=? n) && (n <=? 13) || (n =? 32))%nat.

Fixpoint trim_left (s : string) : string :=
  match s with
  | String c s' => if is_space c then trim_left s' else s
  | EmptyString => EmptyString
  end.

Fixpoint trim_right (s : string) : string :=
  match s with
  | EmptyString => EmptyString
  | String c s' =>
      match trim_right s' with
      | EmptyString => if is_space c then EmptyString else String c EmptyString
      | r => String c r
      end
  end.

(** strings.TrimSpace *)
Definition trim_space (s : string) : string := trim_right (trim_left s).

Definition digit (c : Ascii.ascii) : option Z :=
  let n := Z.of_nat (nat_of_ascii c) in
  if (48 <=? n) && (n <=? 57) then Some (n - 48) else None.

Fixpoint digits (acc : Z) (s : string) : option Z :=
  match s with
  | EmptyString => Some acc
  | String c s' => match digit c with Some d => digits (10 * acc + d) s' | None => None end
  end.

(** A decimal number with an optional sign. *)
Definition parse_signed (s : string) : option Z :=
  match s with
  | EmptyString => None
  | String "-"%char EmptyString | String "+"%char EmptyString => None
  | String "-"%char s' => option_map Z.opp (digits 0 s')
  | String "+"%char s' => digits 0 s'
  | _ => digits 0 s
  end.

(** strconv.ParseInt(s, 10, 64) *)
Definition parse_int (s : string) : option Z :=
  match parse_signed s with
  | Some z => if in_int64 z then Some z else None
  | None => None
  end.

(** n, _ := strconv.Atoi(s): 0 when [s] is no number, the nearest int when it is
    out of range. *)
Definition atoi (s : string) : Z :=
  match parse_signed s with
  | Some z => Z.max int64_min (Z.min z int64_max)
  | None => 0
  end.

Example parse_int_plain : parse_int "1700000000" = Some 1700000000.
Proof. reflexivity. Qed.

Example parse_int_overflow : parse_int "9223372036854775808" = None.
Proof. reflexivity. Qed.

Lemma parse_int_range s z : parse_int s = Some z -> int64_min <= z <= int64_max.
Proof.
  unfold parse_int. destruct (parse_signed s) as [z0|]; [|done].
  destruct (in_int64 z0) eqn:R; [|done]. intros [= <-]. by apply in_int64_iff.
Qed.

(** ** ORDER BY a text column *)

(** PostgreSQL's order on texts, which the locale of the database fixes. *)
Class Collation := text_le : string -> string -> bool.

Fixpoint insert_ordered {R} (le : R -> R -> bool) (r : R) (l : list R) : list R :=
  match l with
  | [] => [r]
  | x :: l' => if le r x then r :: l else x :: insert_ordered le r l'
  end.

Definition ordered_by {R} (le : R -> R -> bool) (l : list R) : list R :=
  fold_right (insert_ordered le) [] l.

Lemma insert_ordered_perm {R} (le : R -> R -> bool) r l : Permutation (insert_ordered le r l) (r :: l).
Proof.
  induction l as [|x l IH]; cbn [insert_ordered]; [done|]. destruct (le r x); [done|]. by rewrite IH, perm_swap.
Qed.

Lemma ordered_by_perm {R} (le : R -> R -> bool) (l : list R) : Permutation (ordered_by le l) l.
Proof. induction l as [|x l IH]; cbn [ordered_by fold_right]; [done|]. rewrite insert_ordered_perm. by constructor. Qed.

(** ** Concatenation *)

Lemma string_length_app a b : String.length (a ++ b) = (String.length a + String.length b)%nat.
Proof.
  induction a as [|c a IH]; [done|].
  change (S (String.length (a ++ b)) = S (String.length a + String.length b)). by rewrite IH.
Qed.

Lemma string_app_assoc (a b c : string) : (a ++ b ++ c = (a ++ b) ++ c)%string.
Proof.
  induction a as [|x a IH]; [done|].
  change (String x (a ++ b ++ c) = String x ((a ++ b) ++ c)). by rewrite IH.
Qed.

Lemma string_app_nil_r (a : string) : (a ++ "" = a)%string.
Proof. induction a as [|x a IH]; [done|]. change (String x (a ++ "") = String x a). by rewrite IH. Qed.

Lemma substring_app a t b :
  String.substring (String.length a) (String.length t) (a ++ t ++ b)%string = t.
Proof.
  induction a as [|c a IH]; [|exact IH]. change (String.substring 0 (String.length t) (t ++ b)%string = t).
  induction t as [|c t IH]; [by destruct b|].
  change (String c (String.substring 0 (String.length t) (t ++ b)%string) = String c t). by f_equal.
Qed.

(** * The texts of database errors

    The proposal and auth services recognise a unique violation by searching
    the text of the error. *)
(** The loop over the start positions. *)
Definition contains (s sub : string) : bool :=
  existsb (fun i => String.eqb (String.substring i (String.length sub) s) sub)
    (seq 0 (S (String.length s) - String.length sub)).

(** What the service relies on in the texts of the driver's errors: that of a
    unique violation carries its SQLSTATE. Nothing is known of the others, which
    may quote the parameter they refuse. *)
Class PgErrorText := {
  error_text : dberr -> string;
  unique_text c : contains (error_text (UniqueViolation c)) "23505" = true
}.

(** Texts for the demonstrations. *)
Definition plain_error_text : PgErrorText.
Proof.
  refine {| error_text := fun e => match e with UniqueViolation c => ("23505 " ++ c)%string | _ => "error" end |}.
  intros c. by destruct c.
Defined.

(** INET in PostgreSQL: which texts it accepts, and the host part it shows. *)
Class PgInet := {
  inet_ok : string -> bool;
  inet_host : string -> string
}.

(** * time.Parse(time.RFC3339, s), and dates

    Reading and writing timestamps and dates.

    Go's parser for timestamps, as it behaves: a one-digit hour and a comma
    before the fraction pass, offsets go up to 24:60. Times are nanoseconds
    since 1970. *)
From stdpp Require Import pretty.
#[local] Open Scope Z_scope.

(** getnum: two digits, or one when [fixed] is false. *)
Definition getnum (fixed : bool) (s : string) : option (Z * string) :=
  match s with
  | String a s1 =>
      match digit a with
      | None => None
      | Some x =>
          match s1 with
          | String b s2 =>
              match digit b with
              | Some y => Some (10 * x + y, s2)
              | None => if fixed then None else Some (x, s1)
              end
          | EmptyString => if fixed then None else Some (x, s1)
          end
      end
  | EmptyString => None
  end.

Definition skip (c : Ascii.ascii) (s : string) : option string :=
  match s with
  | String a s' => if Ascii.eqb a c then Some s' else None
  | EmptyString => None
  end.

Definition year4 (s : string) : option (Z * string) :=
  match s with
  | String a (String b (String c (String d s'))) =>
      option_map (fun y => (y, s')) (digits 0 (String a (String b (String c (String d EmptyString)))))
  | _ => None
  end.

Definition in_range (lo hi : Z) (r : option (Z * string)) : option (Z * string) :=
  match r with Some (x, _) => if (lo <=? x) && (x <=? hi) then r else None | None => None end.

(** The digits at the head, and the rest. *)
Fixpoint span_digits (s : string) : list Z * string :=
  match s with
  | String c s' =>
      match digit c with
      | Some x => let (l, rest) := span_digits s' in (x :: l, rest)
      | None => ([], s)
      end
  | EmptyString => ([], EmptyString)
  end.

(** The first nine digits of a fraction, as nanoseconds. *)
Fixpoint nanos (n : nat) (l : list Z) : Z :=
  match n, l with
  | S n', x :: l' => x * 10 ^ Z.of_nat n' + nanos n' l'
  | _, _ => 0
  end.

(** A fraction, when the separator is followed by a digit. *)
Definition fraction (s : string) : Z * string :=
  match s with
  | String c s' =>
      if Ascii.eqb c "."%char || Ascii.eqb c ","%char then
        match span_digits s' with
        | ([], _) => (0, s)
        | (l, rest) => (nanos 9 l, rest)
        end
      else (0, s)
  | EmptyString => (0, s)
  end.

(** The offset in seconds of Z or +hh:mm, with nothing after it. *)
Definition zone (s : string) : option Z :=
  match s with
  | String "Z"%char EmptyString => Some 0
  | String sign s1 =>
      match in_range 0 24 (getnum true s1) with
      | Some (hh, s2) =>
          match skip ":"%char s2 with
          | Some s3 =>
              match in_range 0 60 (getnum true s3) with
              | Some (mm, EmptyString) =>
                  let off := (hh * 60 + mm) * 60 in
                  if Ascii.eqb sign "+"%char then Some off
                  else if Ascii.eqb sign "-"%char then Some (- off) else None
              | _ => None
              end
          | None => None
          end
      | None => None
      end
  | EmptyString => None
  end.

Definition is_leap (y : Z) : bool := (y mod 4 =? 0) && (negb (y mod 100 =? 0) || (y mod 400 =? 0)).

Definition days_in (m y : Z) : Z :=
  if m =? 2 then if is_leap y then 29 else 28
  else if (m =? 4) || (m =? 6) || (m =? 9) || (m =? 11) then 30 else 31.

(** Days since 1970-01-01 in the proleptic Gregorian calendar. *)
Definition days_from_civil (y m d : Z) : Z :=
  let y := if m <=? 2 then y - 1 else y in
  let yoe := y mod 400 in
  let doy := (153 * (if m <=? 2 then m + 9 else m - 3) + 2) / 5 + d - 1 in
  y / 400 * 146097 + (yoe * 365 + yoe / 4 - yoe / 100 + doy) - 719468.

Definition obind {A B} (o : option A) (f : A -> option B) : option B :=
  match o with Some a => f a | None => None end.

Definition parse_rfc3339 (s : string) : option Z :=
  obind (year4 s) (fun '(y, s) =>
  obind (skip "-"%char s) (fun s =>
  obind (in_range 1 12 (getnum true s)) (fun '(mo, s) =>
  obind (skip "-"%char s) (fun s =>
  obind (getnum true s) (fun '(d, s) =>
  obind (skip "T"%char s) (fun s =>
  obind (in_range 0 23 (getnum false s)) (fun '(h, s) =>
  obind (skip ":"%char s) (fun s =>
  obind (in_range 0 59 (getnum true s)) (fun '(mi, s) =>
  obind (skip ":"%char s) (fun s =>
  obind (in_range 0 59 (getnum true s)) (fun '(sec, s) =>
  let (ns, s) := fraction s in
  obind (zone s) (fun off =>
  if (d <? 1) || (days_in mo y <? d) then None
  else Some ((days_from_civil y mo d * 86400 + h * 3600 + mi * 60 + sec - off) * 1000000000 + ns))))))))))))).

Example rfc_epoch : parse_rfc3339 "1970-01-01T00:00:00Z" = Some 0.
Proof. reflexivity. Qed.

Example rfc_leap_day : parse_rfc3339 "2024-02-29T12:30:00.5+02:00" = Some 1709202600500000000.
Proof. vm_compute. reflexivity. Qed.

Example rfc_no_leap_day : parse_rfc3339 "2023-02-29T12:30:00Z" = None.
Proof. vm_compute. reflexivity. Qed.

(** ** Dates *)

(** time.Parse("2006-01-02", s), as a day. *)
Definition parse_date (s : string) : option Z :=
  obind (year4 s) (fun '(y, s) =>
  obind (skip "-"%char s) (fun s =>
  obind (in_range 1 12 (getnum true s)) (fun '(mo, s) =>
  obind (skip "-"%char s) (fun s =>
  obind (getnum true s) (fun '(d, s) =>
  match s with
  | EmptyString => if (d <? 1) || (days_in mo y <? d) then None else Some (days_from_civil y mo d)
  | _ => None
  end))))).

(** The year, month and day of a day, in the proleptic Gregorian calendar. *)
Definition civil_from_days (z : Z) : Z * Z * Z :=
  let z := z + 719468 in
  let era := z / 146097 in
  let doe := z mod 146097 in
  let yoe := (doe - doe / 1460 + doe / 36524 - doe / 146096) / 365 in
  let doy := doe - (365 * yoe + yoe / 4 - yoe / 100) in
  let mp := (5 * doy + 2) / 153 in
  let d := doy - (153 * mp + 2) / 5 + 1 in
  let m := if mp <? 10 then mp + 3 else mp - 9 in
  ((if m <=? 2 then yoe + era * 400 + 1 else yoe + era * 400), m, d).

(** At least [width] digits, with leading zeros. *)
Fixpoint padded (width : nat) (z : Z) : string :=
  match width with
  | O => ""
  | S w => (padded w (z / 10) ++ String (Ascii.ascii_of_nat (48 + Z.to_nat (z mod 10))) "")%string
  end.

(** t.Format("2006-01-02"), for the years 0 to 9999. *)
Definition format_date (day : Z) : string :=
  let '(y, m, d) := civil_from_days day in
  (padded 4 y ++ "-" ++ padded 2 m ++ "-" ++ padded 2 d)%string.

Example format_leap : format_date 19782 = "2024-02-29".
Proof. vm_compute. reflexivity. Qed.

(** t.Format(time.RFC3339) in UTC, for the years 0 to 9999. *)
Definition format_rfc3339 (t : Z) : string :=
  let s := t / 1000000000 in
  let sec := s mod 86400 in
  (format_date (s / 86400) ++ "T" ++ padded 2 (sec / 3600) ++ ":" ++ padded 2 (sec / 60 mod 60) ++ ":" ++
   padded 2 (sec mod 60) ++ "Z")%string.

Example format_epoch : format_rfc3339 1709210096789000000 = "2024-02-29T12:34:56Z".
Proof. vm_compute. reflexivity. Qed.
