(* ===== verification/Rbac.v ===== *)
(** * Authorization helpers (services/pkg/rbac) *)
From S2P Require Export Tables.

(** ErrForbidden *)
Inductive rbac_err := Forbidden.

Record Principal := mkPrincipal {
  UserID : string;
  Roles : list string;
  Permissions : list string;
  AccountType : string
}.

Definition HasRole (p : Principal) (role : string) : bool :=
  existsb (String.eqb role) (Roles p).

Definition Can (p : Principal) (permission : string) : bool :=
  existsb (fun perm => String.eqb perm permission || String.eqb perm "*") (Permissions p).

Definition Require_ (p : Principal) (permission : string) : option rbac_err :=
  if Can p permission then None else Some Forbidden.

(** None is Go's nil error. *)
Definition RequireOneOf (actor : string) (allowed : list string) : option rbac_err :=
  if existsb (fun a => String.eqb a actor) allowed then None else Some Forbidden.

Lemma RequireOneOf_spec actor allowed : RequireOneOf actor allowed = None <-> In actor allowed.
Proof.
  unfold RequireOneOf. destruct (existsb _ allowed) eqn:E.
  - apply existsb_exists in E as (x & Hx & ->%String.eqb_eq). by split.
  - split; [done|]. intros Hin.
    assert (existsb (fun a => String.eqb a actor) allowed = true); [|congruence].
    apply existsb_exists. exists actor. by rewrite String.eqb_refl.
Qed.

(** The two parties of a contract. *)
Lemma RequireOneOf_two actor a b :
  RequireOneOf actor [a; b] =
  if String.eqb actor a || String.eqb actor b then None else Some Forbidden.
Proof.
  unfold RequireOneOf. cbn. rewrite (String.eqb_sym a), (String.eqb_sym b), orb_false_r. done.
Qed.
