(* ===== verification/Gateway.v ===== *)
(** * Identity, bodies and answers behind the gateway

    What the transports of the marketplace services share: the principal that
    the gateway puts in the request headers, the JSON decoding of slices and
    pointers, and listings. *)
From S2P Require Export Http Rbac Strings Float64.

(** The identity the gateway put in the headers. *)
Definition principal (r : request) : Principal :=
  mkPrincipal (header r "X-User-Id")
    (List.filter (fun role => negb (String.eqb role ""))
       (map trim_space (Strings.split "," (header r "X-User-Roles"))))
    [] (header r "X-Account-Type").

(** A comma-separated header. *)
Definition listed (raw : string) : list string :=
  List.filter (fun x => negb (String.eqb x "")) (map trim_space (Strings.split "," raw)).

Definition authenticated {D E} (r : request) : step (D := D) (E := E) string :=
  let p := principal r in
  if String.eqb (UserID p) "" then reply_with (writeErr 401 "UNAUTHORIZED" "missing identity")
  else go_on (UserID p).

(** A slice: null is nil, null elements are zero values. *)
Definition into_slice {A} (zero : A) (f : json -> option A) (old : option (list A)) (j : json)
  : option (option (list A)) :=
  match j with
  | JNull => Some None
  | JList l => option_map Some (mapM (fun j => match j with JNull => Some zero | _ => f j end) l)
  | _ => None
  end.

Definition as_string (j : json) : option string := match j with JStr s => Some s | _ => None end.
Definition as_int64 (j : json) : option Z :=
  match j with JInt z => if in_int64 z then Some z else None | _ => None end.

Definition into_bool (old : bool) (j : json) : option bool :=
  match j with JNull => Some old | JBool b => Some b | _ => None end.

Definition bool_field := field into_bool false.

(** The zero time.Time: the first of January of the year 1. *)
Definition zero_time : Z := -62135596800 * 1000000000.

Definition into_time (old : Z) (j : json) : option Z :=
  match j with JNull => Some old | JStr s => parse_rfc3339 s | _ => None end.

Definition time_field := field into_time zero_time.

(** A float64: a number that fits. *)
Definition finite (f : spec_float) : bool := match f with S754_zero _ | S754_finite _ _ _ => true | _ => false end.

Definition into_float (old : spec_float) (j : json) : option spec_float :=
  match j with
  | JNull => Some old
  | JInt z => if finite (float64 z) then Some (float64 z) else None
  | JFloat f => if finite f then Some f else None
  | _ => None
  end.

Definition float_field := field into_float f0.

Lemma float_field_finite tag o f : float_field tag o = Some f -> finite f = true.
Proof.
  unfold float_field, field. generalize (values_of tag o). intros l.
  assert (forall old, finite old = true -> into_all into_float old l = Some f -> finite f = true) as Hl; [|by apply Hl].
  induction l as [|j l IH]; cbn [into_all]; intros old Ho; [by intros [= <-]|].
  destruct j as [|?|z|g|?|?|?|?]; cbn [into_float]; try done; [by apply IH| |].
  - destruct (finite (float64 z)) eqn:F; [by apply IH|done].
  - destruct (finite g) eqn:F; [by apply IH|done].
Qed.

(** A slice of structs. *)
Definition structs_field {A} (zero : A) (f : list (string * json) -> option A) (tag : string) (o : list (string * json))
  : option (list A) :=
  option_map (default []) (field (into_slice zero (fun j => match j with JObj m => f m | _ => None end)) None tag o).

(** ** map[string]any *)

(** Of repeated members the last one stays. *)
Fixpoint last_members (o : list (string * json)) : list (string * json) :=
  match o with
  | [] => []
  | kv :: o' => if existsb (fun kv' => String.eqb (fst kv') (fst kv)) o' then last_members o' else kv :: last_members o'
  end.

(** A value decoded into [any] and encoded again: numbers go through float64.
    (Where the members of an object stand does not matter.) *)
Fixpoint through_any (j : json) : json :=
  match j with
  | JInt z => JInt (float_of_int z)
  | JList l => JList (map through_any l)
  | JObj o => JObj (last_members (map (fun kv => (fst kv, through_any (snd kv))) o))
  | _ => j
  end.

(** Every number is in the range of float64. *)
Fixpoint numbers_fit (j : json) : bool :=
  match j with
  | JInt z => Z.abs (float_of_int z) <? 2 ^ 1024
  | JList l => forallb numbers_fit l
  | JObj o => forallb (fun kv => numbers_fit (snd kv)) o
  | _ => true
  end.

(** json.Marshal of a map; that of the nil map is null. *)
Definition marshal (data : option (list (string * json))) : json :=
  match data with None => JNull | Some o => through_any (JObj o) end.

(** Into a map[string]any: null makes it nil, an object adds its members. *)
Definition into_map (old : option (list (string * json))) (j : json) : option (option (list (string * json))) :=
  match j with
  | JNull => Some None
  | JObj o => if numbers_fit j then Some (Some (default [] old ++ o)) else None
  | _ => None
  end.

Definition success : json := JObj [("success", JBool true)].

(** What a client of the service receives. *)
Definition answer_of {E} (r : res E response) : option (Z * option json) :=
  match r with Ok resp => Some (status resp, Some (payload_of resp)) | Err _ => None end.

(** ** Rules *)

Section Rules.
Context {D E : Type} `{Deferred D}.
Implicit Types (ev : env) (w : world D).

Lemma wp_authenticated r ev w (Q : res E (response + string) -> world D -> Prop) :
  (forall resp, status resp = 401 -> Q (Ok (inl resp)) w) ->
  (header r "X-User-Id" <> "" -> Q (Ok (inr (header r "X-User-Id"))) w) ->
  wp (authenticated r) ev w Q.
Proof.
  intros H1 H2. unfold authenticated. cbn [principal UserID].
  destruct (String.eqb_spec (header r "X-User-Id") ""); apply wp_ret; auto.
Qed.

Lemma wp_go_on {A} (a : A) ev w (Q : res E (response + A) -> world D -> Prop) :
  Q (Ok (inr a)) w -> wp (go_on a) ev w Q.
Proof. done. Qed.

(** A listing. *)
Lemma wp_listing {R A} (t : table D R) p (f : list R -> A) ev d x n (Q : res E A -> world D -> Prop) :
  (~ calm ev -> Q (Err (Db Driver)) (World d x (S n))) ->
  Q (Ok (f (select_rows p (rows t d)))) (World d x (S n)) ->
  wp (l <- exec_pool (select_all t p) ;; ret (f l)) ev (World d x n) Q.
Proof.
  intros Hf Hs. apply wp_bind. apply (wp_pool_read _ (select_rows p (rows t d))); [done|by apply Hf|].
  by apply wp_ret.
Qed.

(** Dropping the answer does not change the tables. *)
Lemma wp_drop_answer {A} (p : prog D E A) ev w (Q : D -> Prop) :
  wp (p ;;; ret tt) ev w (fun _ w' => Q (committed w')) -> wp p ev w (fun _ w' => Q (committed w')).
Proof. unfold wp, bind. by destruct (p ev w) as [[a|e] w']. Qed.

(** The end of a route: its change is the change of the service call. *)
Lemma wp_service {A} (Q : D -> Prop) (mapError : err E -> response) (p : prog D E A)
  (k : A -> prog D E response) ev d n :
  wp p ev (World d NoTx n) (fun _ w => Q (committed w)) ->
  (forall a w (P : res E response -> world D -> Prop), (forall x, P x w) -> wp (k a) ev w P) ->
  wp (bind_ok (or_mapped mapError p) k) ev (World d NoTx n) (fun _ w => Q (committed w)).
Proof.
  intros Hp Hk. apply wp_bind_ok, wp_or_mapped. eapply wp_mono; [exact Hp|].
  intros [a|e] w Hw; [|done]. by apply Hk.
Qed.
End Rules.

(** A request with a caller, a path parameter, query parameters and a body. *)
Definition demo_request_with (uid id : string) (q : string -> string) (b : option json) : request :=
  Request (fun h => if String.eqb h "X-User-Id" then uid else "") (fun _ => id) q
    (match b with None => 0 | Some _ => 100 end) b None.
