(* ===== verification/ProposalLookup.v ===== *)
(** * The proposal client of the contract service (internal/proposallookup)

    GET /v1/internal/proposals/{id} on the proposal service, failing closed.
    The network is the parameter [net]. *)
From S2P Require Export Http.

Inductive lookup_err :=
| LookupNotFound             (* ErrNotFound *)
| LookupTransport            (* client.Do failed *)
| LookupStatus (code : Z)    (* lookup returned a non-2xx status *)
| LookupJSON.                (* the body does not decode *)

Record Proposal := mkProposal {
  ProposalID : string;
  ProjectID : string;
  ProjectClientID : string;
  FreelancerID : string;
  Status : string;
  BidAmountCents : Z;
  Currency : string
}.

Definition unmarshal_proposal (b : option json) : option Proposal :=
  match members b with
  | None => None
  | Some o =>
      match str_field "proposal_id" o, str_field "project_id" o, str_field "project_client_id" o,
            str_field "freelancer_id" o, str_field "status" o, int_field "bid_amount_cents" o,
            str_field "currency" o with
      | Some p, Some pr, Some c, Some f, Some s, Some b, Some cur => Some (mkProposal p pr c f s b cur)
      | _, _, _, _, _, _, _ => None
      end
  end.

Definition proposal_url (baseURL proposalID : string) : string :=
  (baseURL ++ "/v1/internal/proposals/" ++ proposalID)%string.

(** What the client makes of an answer. *)
Definition read_proposal (resp : option (Z * option json)) : Proposal + lookup_err :=
  match resp with
  | None => inr LookupTransport
  | Some (code, b) =>
      if code =? 404 then inr LookupNotFound
      else if (code <? 200) || (300 <=? code) then inr (LookupStatus code)
      else match unmarshal_proposal b with
           | Some p => inl p
           | None => inr LookupJSON
           end
  end.

Section Client.
Context {D E : Type} (net : transport) (baseURL : string).

Definition Get (proposalID : string) : prog D E (Proposal + lookup_err) :=
  resp <- http_get net (proposal_url baseURL proposalID) ;;
  ret (read_proposal resp).

Lemma wp_GetProposal id ev c t n (Q : res E (Proposal + lookup_err) -> world D -> Prop) :
  Q (Ok (read_proposal (net n (proposal_url baseURL id)))) (World c t (S n)) ->
  wp (Get id) ev (World c t n) Q.
Proof. done. Qed.
End Client.

(** The proposal service answered [p] at some moment of the run. *)
Definition proposed (net : transport) (baseURL proposalID : string) (p : Proposal) : Prop :=
  exists n, read_proposal (net n (proposal_url baseURL proposalID)) = inl p.

(** A bid read from an answer fits a Go int64. *)
Lemma read_proposal_bid resp p :
  read_proposal resp = inl p -> int64_min <= BidAmountCents p <= int64_max.
Proof.
  unfold read_proposal. destruct resp as [[code b]|]; [|done].
  destruct (code =? 404); [done|]. destruct (_ || _); [done|].
  destruct (unmarshal_proposal b) eqn:U; [|done]. intros [= <-].
  revert U. unfold unmarshal_proposal. repeat case_match; intros; simplify_eq. cbn.
  by eapply int_field_range.
Qed.
