(* ===== verification/ContractParties.v ===== *)
(** * The contract-parties client (internal/contractparties)

    The authorization lookup of the escrow, review and timetracking services:
    GET /v1/internal/contracts/{id}/parties on the contract service, failing
    closed.  The network is the parameter [net]. *)
From S2P Require Export Http.

Inductive parties_err :=
| PartiesNotFound            (* ErrNotFound *)
| PartiesTransport           (* client.Do failed *)
| PartiesStatus (code : Z)   (* lookup returned a non-2xx status *)
| PartiesJSON.               (* the body does not decode *)

Record Parties := mkParties {
  ContractID : string;
  ClientID : string;
  FreelancerID : string;
  Status : string
}.

Definition IsParty (p : Parties) (userID : string) : bool :=
  negb (String.eqb userID "") &&
  (String.eqb userID (ClientID p) || String.eqb userID (FreelancerID p)).

Definition unmarshal_parties (b : option json) : option Parties :=
  match members b with
  | None => None
  | Some o =>
      match str_field "contract_id" o, str_field "client_id" o,
            str_field "freelancer_id" o, str_field "status" o with
      | Some c, Some cl, Some f, Some s => Some (mkParties c cl f s)
      | _, _, _, _ => None
      end
  end.

Definition parties_url (baseURL contractID : string) : string :=
  (baseURL ++ "/v1/internal/contracts/" ++ contractID ++ "/parties")%string.

(** What the client makes of an answer. *)
Definition read_parties (resp : option (Z * option json)) : Parties + parties_err :=
  match resp with
  | None => inr PartiesTransport
  | Some (code, b) =>
      if code =? 404 then inr PartiesNotFound
      else if (code <? 200) || (300 <=? code) then inr (PartiesStatus code)
      else match unmarshal_parties b with
           | Some p => inl p
           | None => inr PartiesJSON
           end
  end.

Section Client.
Context {D E : Type} (net : transport) (baseURL : string).

Definition Get (contractID : string) : prog D E (Parties + parties_err) :=
  resp <- http_get net (parties_url baseURL contractID) ;;
  ret (read_parties resp).

Lemma wp_Get cid ev c t n (Q : res E (Parties + parties_err) -> world D -> Prop) :
  Q (Ok (read_parties (net n (parties_url baseURL cid)))) (World c t (S n)) ->
  wp (Get cid) ev (World c t n) Q.
Proof. done. Qed.
End Client.

(** The contract service vouched for [p] at some moment of the run. *)
Definition vouched (net : transport) (baseURL contractID : string) (p : Parties) : Prop :=
  exists n, read_parties (net n (parties_url baseURL contractID)) = inl p.

(** Every way the lookup can fail is an error, never a default answer. *)
Lemma read_parties_ok resp p :
  read_parties resp = inl p ->
  exists code b, resp = Some (code, b) /\ 200 <= code < 300 /\ unmarshal_parties b = Some p.
Proof.
  unfold read_parties. destruct resp as [[code b]|]; [|done].
  destruct (code =? 404); [done|]. destruct (_ || _) eqn:C; [done|].
  destruct (unmarshal_parties b) eqn:U; [|done]. intros [= ->].
  exists code, b. split; [done|]. split; [lia|done].
Qed.
