(* ===== verification/EscrowStore.v ===== *)
(** * Escrow data layer (services/escrow/internal/store)

    Per-contract escrow accounts, their allocations, the funding idempotency
    keys and the ledger legs the service writes.  Each function of the Go
    package is the program of the same name; the SQL text is rendered as a
    statement over the tables with the constraints of migrations 000008, 000011
    and 000013. *)
From S2P Require Export Ids Ledger Outbox.

(** ** Tables *)

Record Escrow := mkEscrow {
  e_ID : string;
  e_ContractID : string;
  e_Currency : string;
  e_HeldCents : Z;
  e_ReleasedCents : Z;
  e_RefundedCents : Z;
  e_Status : string;
  e_CreatedAt : Z;
  e_UpdatedAt : Z
}.

Record Allocation := mkAllocation {
  a_ID : string;
  a_EscrowID : string;
  a_MilestoneID : option string;
  a_BillingWeek : option string;
  a_AmountCents : Z;
  a_Status : string;
  a_CreatedAt : Z;
  a_ReleasedAt : option Z
}.

(** Table escrow_fund_idempotency (migration 000013). *)
Record FundKey := mkFundKey {
  fk_contract_id : string;
  fk_key : string;
  fk_escrow_id : string;
  fk_created_at : Z
}.

Record escrow_db := mkEscrowDb {
  escrow_accounts : list Escrow;
  escrow_allocations : list Allocation;
  fund_keys : list FundKey;
  escrow_ledger : list TxnRow;
  escrow_outbox : list OutboxRow
}.

Definition empty_escrow_db : escrow_db := mkEscrowDb [] [] [] [] [].

Definition accounts_t : table escrow_db Escrow :=
  Table escrow_accounts (fun l d =>
    mkEscrowDb l (escrow_allocations d) (fund_keys d) (escrow_ledger d) (escrow_outbox d)).

Definition allocations_t : table escrow_db Allocation :=
  Table escrow_allocations (fun l d =>
    mkEscrowDb (escrow_accounts d) l (fund_keys d) (escrow_ledger d) (escrow_outbox d)).

Definition fund_keys_t : table escrow_db FundKey :=
  Table fund_keys (fun l d =>
    mkEscrowDb (escrow_accounts d) (escrow_allocations d) l (escrow_ledger d) (escrow_outbox d)).

#[export] Instance escrow_HasLedger : HasLedger escrow_db :=
  Table escrow_ledger (fun l d =>
    mkEscrowDb (escrow_accounts d) (escrow_allocations d) (fund_keys d) l (escrow_outbox d)).

#[export] Instance escrow_HasOutbox : HasOutbox escrow_db :=
  Table escrow_outbox (fun l d =>
    mkEscrowDb (escrow_accounts d) (escrow_allocations d) (fund_keys d) (escrow_ledger d) l).

#[export] Instance escrow_ledger_lawful : LawfulTable (transactions (D := escrow_db)).
Proof. by constructor; [| |intros []]. Qed.

#[export] Instance escrow_Deferred : Deferred escrow_db := fun before after =>
  assert_txn_group_balanced (escrow_ledger before) (escrow_ledger after).

(** The package's sentinel errors, and the two [fmt.Errorf] messages. *)
Inductive escrow_err :=
| ErrNotFound
| ErrInsufficientFunds
| ErrDuplicateAllocation
| ErrDuplicateFund
| ErrAmountNotPositive
| ErrUnbalanced.

Abbreviation eprog := (prog escrow_db escrow_err).

(** ** escrow_accounts *)

Definition scanEscrow (row : option Escrow) : eprog Escrow :=
  match row with
  | None => fail ErrNotFound
  | Some e => ret e
  end.

Definition GetEscrow (id : string) : eprog Escrow :=
  row <- exec_pool (select_one accounts_t (has_key e_ID id)) ;;
  scanEscrow row.

Definition GetEscrowByContract (contractID : string) : eprog Escrow :=
  row <- exec_pool (select_one accounts_t (has_key e_ContractID contractID)) ;;
  scanEscrow row.

(** Trigger trg_escrow_updated: the new row's updated_at is [now()]. *)
Definition set_updated_at (t : Z) (e : Escrow) : Escrow :=
  mkEscrow (e_ID e) (e_ContractID e) (e_Currency e) (e_HeldCents e) (e_ReleasedCents e)
    (e_RefundedCents e) (e_Status e) (e_CreatedAt e) t.

(** The column defaults of a new account. *)
Definition new_escrow (id contractID currency : string) (t : Z) : Escrow :=
  mkEscrow id contractID currency 0 0 0 "held" t t.

Definition upsert_escrow (contractID currency : string) : sql escrow_db (option Escrow) :=
  fun s d =>
    match bpchar 3 currency with
    | None => Reject InvalidText
    | Some cur =>
        match List.find (has_key e_ContractID contractID) (escrow_accounts d) with
        | Some _ =>
            match update_rows accounts_t (has_key e_ContractID contractID)
                    (fun s => set_updated_at (now s)) (fun _ => None) s d with
            | Done l d' => Done (head l) d'
            | Reject e => Reject e
            end
        | None =>
            match insert_row accounts_t
                    (unique_index "escrow_accounts_pkey" (fun x r => String.eqb (e_ID x) (e_ID r)))
                    (fun s => new_escrow (fresh s) contractID cur (now s)) s d with
            | Done r d' => Done (Some r) d'
            | Reject e => Reject e
            end
        end
    end.

Definition UpsertEscrowForContract (contractID currency : string) : eprog Escrow :=
  row <- exec (upsert_escrow contractID currency) ;;
  scanEscrow row.

Definition LockEscrow (id : string) : eprog Escrow :=
  row <- exec (select_one accounts_t (has_key e_ID id)) ;;
  scanEscrow row.

(** INSERT INTO escrow_fund_idempotency; primary key (contract_id, idempotency_key). *)
Definition RecordFundIdempotency (contractID idempotencyKey escrowID : string) : eprog unit :=
  r <- attempt (exec (insert_row fund_keys_t
         (unique_index "escrow_fund_idempotency_pkey" (fun x r =>
            String.eqb (fk_contract_id x) (fk_contract_id r) && String.eqb (fk_key x) (fk_key r)))
         (fun s => mkFundKey contractID idempotencyKey escrowID (now s)))) ;;
  match r with
  | Err err => if isUniqueViolation err then fail ErrDuplicateFund else throw err
  | Ok _ => ret tt
  end.

(** The BIGINT range and the CHECK constraints of escrow_accounts. *)
Definition escrow_check (e : Escrow) : option dberr :=
  first_violation
    [ bigint (e_HeldCents e); bigint (e_ReleasedCents e); bigint (e_RefundedCents e);
      check_row "held_cents" (fun e => 0 <=? e_HeldCents e) e;
      check_row "released_cents" (fun e => 0 <=? e_ReleasedCents e) e;
      check_row "refunded_cents" (fun e => 0 <=? e_RefundedCents e) e ].

(** The SET clauses of the three balance updates. *)
Definition held_plus (amount t : Z) (e : Escrow) : Escrow :=
  mkEscrow (e_ID e) (e_ContractID e) (e_Currency e) (e_HeldCents e + amount)
    (e_ReleasedCents e) (e_RefundedCents e) (e_Status e) (e_CreatedAt e) t.

Definition held_to_released (amount : Z) (status : string) (t : Z) (e : Escrow) : Escrow :=
  mkEscrow (e_ID e) (e_ContractID e) (e_Currency e) (e_HeldCents e - amount)
    (e_ReleasedCents e + amount) (e_RefundedCents e) status (e_CreatedAt e) t.

Definition held_to_refunded (amount : Z) (status : string) (t : Z) (e : Escrow) : Escrow :=
  mkEscrow (e_ID e) (e_ContractID e) (e_Currency e) (e_HeldCents e - amount)
    (e_ReleasedCents e) (e_RefundedCents e + amount) status (e_CreatedAt e) t.

Definition AddHeld (id : string) (amountCents : Z) : eprog Escrow :=
  l <- exec (update_rows accounts_t (has_key e_ID id)
         (fun s => held_plus amountCents (now s)) escrow_check) ;;
  scanEscrow (head l).

Definition MoveHeldToReleased (id : string) (amountCents : Z) (status : string) : eprog Escrow :=
  l <- exec (update_rows accounts_t (has_key e_ID id)
         (fun s => held_to_released amountCents status (now s)) escrow_check) ;;
  scanEscrow (head l).

Definition MoveHeldToRefunded (id : string) (amountCents : Z) (status : string) : eprog Escrow :=
  l <- exec (update_rows accounts_t (has_key e_ID id)
         (fun s => held_to_refunded amountCents status (now s)) escrow_check) ;;
  scanEscrow (head l).

(** ** escrow_allocations *)

Definition scanAllocation (row : option Allocation) : eprog Allocation :=
  match row with
  | None => fail ErrNotFound
  | Some a => ret a
  end.

Definition opt_clash (o1 o2 : option string) : bool :=
  match o1, o2 with
  | Some x, Some y => String.eqb x y
  | _, _ => false
  end.

(** status <> 'refunded' *)
Definition active (a : Allocation) : bool := negb (String.eqb (a_Status a) "refunded").

(** The constraints of escrow_allocations: the CHECKs of migration 000008 and
    the partial unique indexes of migration 000011. *)
Definition allocation_check (l : list Allocation) (a : Allocation) : option dberr :=
  first_violation
    [ bigint (a_AmountCents a);
      check_row "amount_cents" (fun a => 0 <? a_AmountCents a) a;
      check_row "alloc_target" (fun a =>
        match a_MilestoneID a, a_BillingWeek a with None, None => false | _, _ => true end) a;
      unique_index "escrow_allocations_pkey" (fun x r => String.eqb (a_ID x) (a_ID r)) l a;
      unique_index "uq_alloc_milestone_active" (fun x r =>
        active x && active r && String.eqb (a_EscrowID x) (a_EscrowID r) &&
        opt_clash (a_MilestoneID x) (a_MilestoneID r)) l a;
      unique_index "uq_alloc_billing_week_active" (fun x r =>
        active x && active r && String.eqb (a_EscrowID x) (a_EscrowID r) &&
        opt_clash (a_BillingWeek x) (a_BillingWeek r)) l a ].

Definition new_allocation (id escrowID : string) (milestoneID billingWeek : option string)
  (amountCents t : Z) : Allocation :=
  mkAllocation id escrowID milestoneID billingWeek amountCents "held" t None.

Definition InsertAllocation (escrowID : string) (milestoneID billingWeek : option string)
  (amountCents : Z) : eprog Allocation :=
  r <- attempt (exec (insert_row allocations_t allocation_check
         (fun s => new_allocation (fresh s) escrowID milestoneID billingWeek amountCents (now s)))) ;;
  match r with
  | Err err => if isUniqueViolation err then fail ErrDuplicateAllocation else throw err
  | Ok a => ret a
  end.

Definition is_held (a : Allocation) : bool := String.eqb (a_Status a) "held".

Definition for_milestone (escrowID milestoneID : string) (a : Allocation) : bool :=
  String.eqb (a_EscrowID a) escrowID && opt_eqb (a_MilestoneID a) milestoneID.

Definition for_week (escrowID billingWeek : string) (a : Allocation) : bool :=
  String.eqb (a_EscrowID a) escrowID && opt_eqb (a_BillingWeek a) billingWeek.

Definition HeldAllocationByMilestone (escrowID milestoneID : string) : eprog Allocation :=
  row <- exec (select_one allocations_t (fun a => for_milestone escrowID milestoneID a && is_held a)) ;;
  scanAllocation row.

Definition AllocationByMilestone (escrowID milestoneID : string) : eprog Allocation :=
  row <- exec (select_one allocations_t (fun a => for_milestone escrowID milestoneID a && active a)) ;;
  scanAllocation row.

Definition AllocationByBillingWeek (escrowID billingWeek : string) : eprog Allocation :=
  row <- exec (select_one allocations_t (fun a => for_week escrowID billingWeek a && active a)) ;;
  scanAllocation row.

Definition release_allocation (t : Z) (a : Allocation) : Allocation :=
  mkAllocation (a_ID a) (a_EscrowID a) (a_MilestoneID a) (a_BillingWeek a) (a_AmountCents a)
    "released" (a_CreatedAt a) (Some t).

Definition MarkAllocationReleased (id : string) : eprog Allocation :=
  l <- exec (update_rows allocations_t (fun a => has_key a_ID id a && is_held a)
         (fun s => release_allocation (now s)) (fun _ => None)) ;;
  scanAllocation (head l).

(** SELECT coalesce(sum(amount_cents),0): a NUMERIC, scanned into an int64. *)
Definition held_sum (escrowID : string) (l : list Allocation) : Z :=
  sumZ (fun a => if String.eqb (a_EscrowID a) escrowID && is_held a then a_AmountCents a else 0) l.

Definition SumHeldAllocations (escrowID : string) : eprog Z :=
  sum <- exec (fun _ d => Done (held_sum escrowID (escrow_allocations d)) d) ;;
  if in_int64 sum then ret sum else throw (Db ScanError).

Definition ListAllocations (escrowID : string) : eprog (list Allocation) :=
  exec_pool (select_all allocations_t (has_key a_EscrowID escrowID)).

(** ** transactions *)

Record Leg := mkLeg {
  l_Type : string;
  l_AccountKind : string;
  l_AccountRef : option string;
  l_ContractID : option string;
  l_AmountCents : Z;
  l_Currency : string;
  l_Memo : option string
}.

Definition leg_row (txnGroup : string) (l : Leg) : TxnRow :=
  mkTxn txnGroup (l_Type l) (l_AccountKind l) (l_AccountRef l) (l_ContractID l)
    (l_AmountCents l) (l_Currency l) None (l_Memo l).

Definition WriteLegs (txnGroup : string) (legs : list Leg) : eprog unit :=
  if negb (sum64 (map l_AmountCents legs) =? 0) then fail ErrUnbalanced
  else for_each legs (fun l =>
    exec (insert_row transactions (fun _ _ => None) (fun _ => leg_row txnGroup l)) ;;;
    ret tt).
