(* ===== verification/EscrowService.v ===== *)
(** * Escrow business logic (services/escrow/internal/service)

    Funding, allocating, releasing and refunding a contract's escrow.  Each
    operation is one transaction: balances, ledger legs and the outbox event
    commit together. *)
From S2P Require Export EscrowStore.

(** statusAfterRelease: 'released' once nothing remains held. *)
Definition statusAfterRelease (remainingHeld : Z) : string :=
  if remainingHeld <=? 0 then "released" else "partially_released".

Definition escrow_event (id typ contractID : string) (payload : list (string * json)) : Event :=
  mkEvent "escrow" id typ "escrow.events" contractID (JObj payload) None.

(** The payload gains milestone_id and billing_week when they are given. *)
Definition emitReleased (e : Escrow) (milestoneID billingWeek : option string)
  (amountCents : Z) : eprog unit :=
  let payload :=
    [("escrow_id", JStr (e_ID e)); ("contract_id", JStr (e_ContractID e));
     ("amount_cents", JInt amountCents)]
    ++ match milestoneID with Some m => [("milestone_id", JStr m)] | None => [] end
    ++ match billingWeek with Some w => [("billing_week", JStr w)] | None => [] end in
  Enqueue (escrow_event (e_ID e) "escrow.released" (e_ContractID e) payload).

Definition FundEscrow (contractID : string) (amountCents : Z)
  (currency idempotencyKey : string) : eprog Escrow :=
  if amountCents <=? 0 then fail ErrAmountNotPositive else
  let currency := if String.eqb currency "" then "USD" else currency in
  in_tx (
    e <- UpsertEscrowForContract contractID currency ;;
    LockEscrow (e_ID e) ;;;
    duplicate <-
      (if negb (String.eqb idempotencyKey "") then
         r <- attempt (RecordFundIdempotency contractID idempotencyKey (e_ID e)) ;;
         match r with
         | Err (Dom ErrDuplicateFund) => ret true
         | Err err => throw err
         | Ok _ => ret false
         end
       else ret false) ;;
    if (duplicate : bool) then
      rollback ;;; GetEscrow (e_ID e)
    else
      e <- AddHeld (e_ID e) amountCents ;;
      txnGroup <- NewUUID ;;
      WriteLegs txnGroup
        [ mkLeg "escrow_hold" "escrow" None None (neg64 amountCents) (e_Currency e) None;
          mkLeg "escrow_hold" "escrow_contract" (Some (e_ID e)) (Some contractID)
            amountCents (e_Currency e) None ] ;;;
      Enqueue (escrow_event (e_ID e) "escrow.funded" contractID
        [("escrow_id", JStr (e_ID e)); ("contract_id", JStr contractID);
         ("amount_cents", JInt amountCents); ("held_cents", JInt (e_HeldCents e))]) ;;;
      commit ;;;
      ret e).

Definition AllocateToMilestone (escrowID milestoneID : string) (amountCents : Z)
  : eprog Allocation :=
  if amountCents <=? 0 then fail ErrAmountNotPositive else
  in_tx (
    e <- LockEscrow escrowID ;;
    existing <- attempt (AllocationByMilestone escrowID milestoneID) ;;
    match existing with
    | Ok existing => commit ;;; ret existing
    | Err (Dom ErrNotFound) =>
        allocated <- SumHeldAllocations escrowID ;;
        let available := sub64 (e_HeldCents e) allocated in
        if available <? amountCents then fail ErrInsufficientFunds else
        r <- attempt (InsertAllocation escrowID (Some milestoneID) None amountCents) ;;
        match r with
        | Err (Dom ErrDuplicateAllocation) =>
            existing <- AllocationByMilestone escrowID milestoneID ;;
            commit ;;; ret existing
        | Err err => throw err
        | Ok a => commit ;;; ret a
        end
    | Err err => throw err
    end).

Definition release_legs (e : Escrow) (amountCents : Z) : list Leg :=
  [ mkLeg "escrow_release" "escrow" (Some (e_ID e)) (Some (e_ContractID e))
      (neg64 amountCents) (e_Currency e) None;
    mkLeg "escrow_release" "freelancer_balance" None (Some (e_ContractID e))
      amountCents (e_Currency e) None ].

(** The amount released is the allocation's: [amountCents] is unused. *)
Definition ReleaseMilestone (escrowID milestoneID : string) (amountCents : Z) : eprog Escrow :=
  in_tx (
    e <- LockEscrow escrowID ;;
    alloc <- HeldAllocationByMilestone escrowID milestoneID ;;
    allocated <- SumHeldAllocations escrowID ;;
    if (e_HeldCents e <? a_AmountCents alloc) || (e_HeldCents e <? allocated)
    then fail ErrInsufficientFunds else
    MarkAllocationReleased (a_ID alloc) ;;;
    e <- MoveHeldToReleased escrowID (a_AmountCents alloc)
           (statusAfterRelease (sub64 (e_HeldCents e) (a_AmountCents alloc))) ;;
    txnGroup <- NewUUID ;;
    WriteLegs txnGroup (release_legs e (a_AmountCents alloc)) ;;;
    emitReleased e (Some milestoneID) None (a_AmountCents alloc) ;;;
    commit ;;;
    ret e).

Definition ReleaseHours (escrowID billingWeek : string) (amountCents : Z) : eprog Escrow :=
  if amountCents <=? 0 then fail ErrAmountNotPositive else
  in_tx (
    e <- LockEscrow escrowID ;;
    existing <- attempt (AllocationByBillingWeek escrowID billingWeek) ;;
    match existing with
    | Ok _ => commit ;;; ret e
    | Err (Dom ErrNotFound) =>
        allocated <- SumHeldAllocations escrowID ;;
        if sub64 (e_HeldCents e) allocated <? amountCents then fail ErrInsufficientFunds else
        r <- attempt (InsertAllocation escrowID None (Some billingWeek) amountCents) ;;
        match r with
        | Err (Dom ErrDuplicateAllocation) => commit ;;; ret e
        | Err err => throw err
        | Ok alloc =>
            MarkAllocationReleased (a_ID alloc) ;;;
            e <- MoveHeldToReleased escrowID amountCents
                   (statusAfterRelease (sub64 (e_HeldCents e) amountCents)) ;;
            txnGroup <- NewUUID ;;
            WriteLegs txnGroup (release_legs e amountCents) ;;;
            emitReleased e None (Some billingWeek) amountCents ;;;
            commit ;;;
            ret e
        end
    | Err err => throw err
    end).

Definition RefundEscrow (escrowID : string) (amountCents : Z) (reason : string) : eprog Escrow :=
  if amountCents <=? 0 then fail ErrAmountNotPositive else
  in_tx (
    e <- LockEscrow escrowID ;;
    allocated <- SumHeldAllocations escrowID ;;
    if sub64 (e_HeldCents e) allocated <? amountCents then fail ErrInsufficientFunds else
    let status := if sub64 (e_HeldCents e) amountCents =? 0 then "refunded" else "held" in
    e <- MoveHeldToRefunded escrowID amountCents status ;;
    let memo := if String.eqb reason "" then None else Some reason in
    txnGroup <- NewUUID ;;
    WriteLegs txnGroup
      [ mkLeg "refund" "escrow" (Some (e_ID e)) (Some (e_ContractID e))
          (neg64 amountCents) (e_Currency e) memo;
        mkLeg "refund" "refunds" None (Some (e_ContractID e)) amountCents (e_Currency e) memo ] ;;;
    Enqueue (escrow_event (e_ID e) "escrow.refunded" (e_ContractID e)
      [("escrow_id", JStr (e_ID e)); ("contract_id", JStr (e_ContractID e));
       ("amount_cents", JInt amountCents); ("reason", JStr reason)]) ;;;
    commit ;;;
    ret e).

(** ** The operations of the service, as one type *)

Inductive escrow_op :=
| OpFund (contractID : string) (amountCents : Z) (currency idempotencyKey : string)
| OpAllocate (escrowID milestoneID : string) (amountCents : Z)
| OpReleaseMilestone (escrowID milestoneID : string) (amountCents : Z)
| OpReleaseHours (escrowID billingWeek : string) (amountCents : Z)
| OpRefund (escrowID : string) (amountCents : Z) (reason : string).

(** A call: its outcome is kept only as success or error. *)
Definition run_op (op : escrow_op) : eprog unit :=
  match op with
  | OpFund c a cur k => FundEscrow c a cur k ;;; ret tt
  | OpAllocate e m a => AllocateToMilestone e m a ;;; ret tt
  | OpReleaseMilestone e m a => ReleaseMilestone e m a ;;; ret tt
  | OpReleaseHours e w a => ReleaseHours e w a ;;; ret tt
  | OpRefund e a r => RefundEscrow e a r ;;; ret tt
  end.

(** int64 arguments. *)
Definition op_in_range (op : escrow_op) : Prop :=
  match op with
  | OpFund _ a _ _ | OpAllocate _ _ a | OpReleaseMilestone _ _ a | OpReleaseHours _ _ a
  | OpRefund _ a _ => int64_min <= a <= int64_max
  end.

(** The database after a call on a world at rest. *)
Definition after {E A} (m : prog escrow_db E A) (ev : env) (d : escrow_db) (n : nat) : escrow_db :=
  committed (snd (m ev (rest d n))).

(** Databases the service can reach from empty tables, under any environment. *)
Inductive escrow_reachable : escrow_db -> Prop :=
| reach_empty : escrow_reachable empty_escrow_db
| reach_op d op ev n :
    escrow_reachable d -> op_in_range op -> escrow_reachable (after (run_op op) ev d n).
