(* ===== verification/EscrowRules.v ===== *)
(** * Rules of the escrow data layer

    One weakest-precondition rule per store function: what it returns and
    leaves in the transaction on each of its branches.  The proofs about the
    service use these rules only. *)
From S2P Require Export EscrowService.

Section Rules.
Implicit Types (ev : env) (v c : escrow_db) (t : Z) (n : nat).

Lemma wp_scan_one {A} (scan : option A -> eprog A) p (tb : table escrow_db A)
  ev c t v n Q :
  (forall a, scan (Some a) = ret a) -> scan None = fail ErrNotFound ->
  (~ calm ev -> Q (Err (Db Driver)) (World c Broken (S n))) ->
  (List.find p (rows tb v) = None -> Q (Err (Dom ErrNotFound)) (World c (Live t v) (S n))) ->
  (forall a, List.find p (rows tb v) = Some a -> Q (Ok a) (World c (Live t v) (S n))) ->
  wp (bind (exec (select_one tb p)) scan) ev (World c (Live t v) n) Q.
Proof.
  intros HS HN Hf Hn Hs. wp_step. wp_step; [by apply Hf|].
  destruct (List.find p (rows tb v)) as [a|]; rewrite ?HS, ?HN; wp_step; auto.
Qed.

Lemma wp_LockEscrow id ev c t v n Q :
  (~ calm ev -> Q (Err (Db Driver)) (World c Broken (S n))) ->
  (List.find (has_key e_ID id) (escrow_accounts v) = None ->
   Q (Err (Dom ErrNotFound)) (World c (Live t v) (S n))) ->
  (forall e, List.find (has_key e_ID id) (escrow_accounts v) = Some e ->
   Q (Ok e) (World c (Live t v) (S n))) ->
  wp (LockEscrow id) ev (World c (Live t v) n) Q.
Proof. apply (wp_scan_one scanEscrow _ accounts_t); done. Qed.

Lemma wp_HeldAllocationByMilestone eid mid ev c t v n Q :
  let p := fun a => for_milestone eid mid a && is_held a in
  (~ calm ev -> Q (Err (Db Driver)) (World c Broken (S n))) ->
  (List.find p (escrow_allocations v) = None ->
   Q (Err (Dom ErrNotFound)) (World c (Live t v) (S n))) ->
  (forall a, List.find p (escrow_allocations v) = Some a ->
   Q (Ok a) (World c (Live t v) (S n))) ->
  wp (HeldAllocationByMilestone eid mid) ev (World c (Live t v) n) Q.
Proof. apply (wp_scan_one scanAllocation _ allocations_t); done. Qed.

Lemma wp_AllocationByMilestone eid mid ev c t v n Q :
  let p := fun a => for_milestone eid mid a && active a in
  (~ calm ev -> Q (Err (Db Driver)) (World c Broken (S n))) ->
  (List.find p (escrow_allocations v) = None ->
   Q (Err (Dom ErrNotFound)) (World c (Live t v) (S n))) ->
  (forall a, List.find p (escrow_allocations v) = Some a ->
   Q (Ok a) (World c (Live t v) (S n))) ->
  wp (AllocationByMilestone eid mid) ev (World c (Live t v) n) Q.
Proof. apply (wp_scan_one scanAllocation _ allocations_t); done. Qed.

Lemma wp_AllocationByBillingWeek eid wk ev c t v n Q :
  let p := fun a => for_week eid wk a && active a in
  (~ calm ev -> Q (Err (Db Driver)) (World c Broken (S n))) ->
  (List.find p (escrow_allocations v) = None ->
   Q (Err (Dom ErrNotFound)) (World c (Live t v) (S n))) ->
  (forall a, List.find p (escrow_allocations v) = Some a ->
   Q (Ok a) (World c (Live t v) (S n))) ->
  wp (AllocationByBillingWeek eid wk) ev (World c (Live t v) n) Q.
Proof. apply (wp_scan_one scanAllocation _ allocations_t); done. Qed.

Lemma wp_SumHeldAllocations eid ev c t v n Q :
  (~ calm ev -> Q (Err (Db Driver)) (World c Broken (S n))) ->
  (in_int64 (held_sum eid (escrow_allocations v)) = false ->
   Q (Err (Db ScanError)) (World c (Live t v) (S n))) ->
  (in_int64 (held_sum eid (escrow_allocations v)) = true ->
   Q (Ok (held_sum eid (escrow_allocations v))) (World c (Live t v) (S n))) ->
  wp (SumHeldAllocations eid) ev (World c (Live t v) n) Q.
Proof.
  intros Hf Hn Hs. unfold SumHeldAllocations. wp_step. wp_step; [by apply Hf|].
  destruct (in_int64 _); wp_step; auto.
Qed.

(** The three balance updates share one shape. *)
Lemma wp_balance_update f id ev c t v n Q :
  keyed e_ID (escrow_accounts v) ->
  (~ calm ev -> Q (Err (Db Driver)) (World c Broken (S n))) ->
  (List.find (has_key e_ID id) (escrow_accounts v) = None -> forall w,
   committed w = c -> Q (Err (Dom ErrNotFound)) w) ->
  (forall e d, List.find (has_key e_ID id) (escrow_accounts v) = Some e ->
   escrow_check (f t e) = Some d -> Q (Err (Db d)) (World c Broken (S n))) ->
  (forall e, List.find (has_key e_ID id) (escrow_accounts v) = Some e ->
   escrow_check (f t e) = None ->
   Q (Ok (f t e)) (World c (Live t (put accounts_t
     (update_where (has_key e_ID id) (f t) (escrow_accounts v)) v)) (S n))) ->
  wp (bind (exec (update_rows accounts_t (has_key e_ID id) (fun s => f (now s)) escrow_check))
           (fun l => scanEscrow (head l))) ev (World c (Live t v) n) Q.
Proof.
  intros Hk Hf Hn He Hs. wp_step. wp_step; cbn in *.
  - done.
  - by apply Hf.
  - wp_step. by apply Hn.
  - by eapply He.
  - wp_step. by apply Hs.
Qed.

Lemma wp_MarkAllocationReleased id ev c t v n Q :
  keyed a_ID (escrow_allocations v) ->
  (~ calm ev -> Q (Err (Db Driver)) (World c Broken (S n))) ->
  ((forall a, List.find (has_key a_ID id) (escrow_allocations v) = Some a -> is_held a = false) ->
   forall w, committed w = c -> Q (Err (Dom ErrNotFound)) w) ->
  (forall a, List.find (has_key a_ID id) (escrow_allocations v) = Some a -> is_held a = true ->
   Q (Ok (release_allocation t a)) (World c (Live t (put allocations_t
     (update_where (has_key a_ID id) (release_allocation t) (escrow_allocations v)) v)) (S n))) ->
  wp (MarkAllocationReleased id) ev (World c (Live t v) n) Q.
Proof.
  intros Hk Hf Hn Hs. unfold MarkAllocationReleased. wp_step. wp_step; cbn in *.
  - done.
  - by apply Hf.
  - wp_step. by apply Hn.
  - wp_step. by apply Hs.
Qed.

(** An insert whose unique violations become a sentinel. *)
Lemma wp_insert_mapped {R} (tb : table escrow_db R) chk mk sentinel ev c t v n
  (Q : res escrow_err R -> world escrow_db -> Prop) :
  let r := mk (Stamp t (gen_uuid ev n)) in
  (~ calm ev -> Q (Err (Db Driver)) (World c Broken (S n))) ->
  (forall k, chk (rows tb v) r = Some (UniqueViolation k) ->
     Q (Err (Dom sentinel)) (World c Broken (S n))) ->
  (forall d, chk (rows tb v) r = Some d -> isUniqueViolation (E := escrow_err) (Db d) = false ->
     Q (Err (Db d)) (World c Broken (S n))) ->
  (chk (rows tb v) r = None ->
     Q (Ok r) (World c (Live t (put tb (rows tb v ++ [r]) v)) (S n))) ->
  wp (bind (attempt (exec (insert_row tb chk mk))) (fun o =>
        match o with
        | Err err => if isUniqueViolation err then fail sentinel else throw err
        | Ok a => ret a
        end)) ev (World c (Live t v) n) Q.
Proof.
  intros r Hf Hu He Hs. wp_step. wp_step. wp_step.
  - cbn. wp_step. by apply Hf.
  - destruct (isUniqueViolation (Db e)) eqn:U; wp_step.
    + destruct e; try done. by eapply Hu.
    + by eapply He.
  - wp_step. by apply Hs.
Qed.

Definition key_clash (x r : FundKey) : bool :=
  String.eqb (fk_contract_id x) (fk_contract_id r) && String.eqb (fk_key x) (fk_key r).

(** (contract, key) has been used. *)
Definition key_used (contractID key : string) (l : list FundKey) : bool :=
  existsb (fun x => String.eqb (fk_contract_id x) contractID && String.eqb (fk_key x) key) l.

Lemma wp_RecordFundIdempotency cid k eid ev c t v n Q :
  (~ calm ev -> Q (Err (Db Driver)) (World c Broken (S n))) ->
  (key_used cid k (fund_keys v) = true -> Q (Err (Dom ErrDuplicateFund)) (World c Broken (S n))) ->
  (key_used cid k (fund_keys v) = false ->
   Q (Ok tt) (World c (Live t (put fund_keys_t
     (fund_keys v ++ [mkFundKey cid k eid t]) v)) (S n))) ->
  wp (RecordFundIdempotency cid k eid) ev (World c (Live t v) n) Q.
Proof.
  intros Hf Hu Hs. unfold RecordFundIdempotency. wp_step. wp_step. wp_step.
  - cbn. wp_step. by apply Hf.
  - unfold unique_index in CHK. cbn in CHK.
    destruct (existsb _ _) eqn:X; simplify_eq. cbn. wp_step. by apply Hu.
  - unfold unique_index in CHK. cbn in CHK.
    destruct (existsb _ _) eqn:X; simplify_eq. wp_step. by apply Hs.
Qed.

Lemma wp_InsertAllocation eid mid wk a ev c t v n Q :
  let r := new_allocation (gen_uuid ev n) eid mid wk a t in
  (~ calm ev -> Q (Err (Db Driver)) (World c Broken (S n))) ->
  (forall k, allocation_check (escrow_allocations v) r = Some (UniqueViolation k) ->
     Q (Err (Dom ErrDuplicateAllocation)) (World c Broken (S n))) ->
  (forall d, allocation_check (escrow_allocations v) r = Some d ->
     isUniqueViolation (E := escrow_err) (Db d) = false -> Q (Err (Db d)) (World c Broken (S n))) ->
  (allocation_check (escrow_allocations v) r = None ->
   Q (Ok r) (World c (Live t (put allocations_t (escrow_allocations v ++ [r]) v)) (S n))) ->
  wp (InsertAllocation eid mid wk a) ev (World c (Live t v) n) Q.
Proof.
  apply (wp_insert_mapped allocations_t allocation_check
           (fun s => new_allocation (fresh s) eid mid wk a (now s))).
Qed.

Lemma wp_WriteLegs g legs ev c t v n Q :
  (forall w, committed w = c -> sum64 (map l_AmountCents legs) <> 0 ->
     Q (Err (Dom ErrUnbalanced)) w) ->
  (forall w, committed w = c -> ~ calm ev -> Q (Err (Db Driver)) w) ->
  (forall m, Q (Ok tt) (World c (Live t (put transactions
     (escrow_ledger v ++ map (leg_row g) legs) v)) m)) ->
  wp (WriteLegs g legs) ev (World c (Live t v) n) Q.
Proof.
  intros Hu Hf Hs. unfold WriteLegs.
  destruct (Z.eqb_spec (sum64 (map l_AmountCents legs)) 0); cbn; [clear e|wp_step; by apply Hu].
  by apply (wp_insert_all transactions); [apply Hf|].
Qed.
Lemma wp_GetEscrow id ev c m n Q :
  (~ calm ev -> Q (Err (Db Driver)) (World c m (S n))) ->
  (List.find (has_key e_ID id) (escrow_accounts c) = None ->
   Q (Err (Dom ErrNotFound)) (World c m (S n))) ->
  (forall e, List.find (has_key e_ID id) (escrow_accounts c) = Some e ->
   Q (Ok e) (World c m (S n))) ->
  wp (GetEscrow id) ev (World c m n) Q.
Proof.
  intros Hf Hn Hs. unfold GetEscrow. wp_step.
  eapply (wp_pool_read _ (List.find (has_key e_ID id) (escrow_accounts c)));
    [done|intros NC; by apply (Hf NC)|cbn beta iota].
  destruct (List.find (has_key e_ID id) (escrow_accounts c)) eqn:F; unfold scanEscrow; wp_step; auto.
Qed.

(** The tail of every money operation: the ledger group, the event and the
    COMMIT.  Legs [-a, +a] on a balanced ledger pass both the client-side
    assertion and the deferred trigger. *)
Lemma sum64_pair a : 0 < a <= int64_max -> sum64 [neg64 a; a] = 0.
Proof.
  unfold sum64, neg64, add64, int64_max. intros H. cbn [fold_left].
  rewrite (wrap64_id (- a)) by (unfold int64_min, int64_max; lia).
  rewrite (wrap64_id (0 + - a)) by (unfold int64_min, int64_max; lia).
  rewrite wrap64_id by (unfold int64_min, int64_max; lia). lia.
Qed.

Definition settled (t : Z) (g : string) (legs : list Leg) (evt : Event) (v : escrow_db) : escrow_db :=
  mkEscrowDb (escrow_accounts v) (escrow_allocations v) (fund_keys v)
    (escrow_ledger v ++ map (leg_row g) legs) (enqueued t evt (escrow_outbox v)).

Lemma wp_settle {A} legs evt (x : A) a ev c t v n (Q : res escrow_err A -> world escrow_db -> Prop) :
  map l_AmountCents legs = [neg64 a; a] -> 0 < a <= int64_max ->
  escrow_ledger v = escrow_ledger c -> balanced (escrow_ledger c) ->
  (forall w, committed w = c -> ~ calm ev -> Q (Err (Db Driver)) w) ->
  (forall g w, committed w = settled t g legs evt v -> Q (Ok x) w) ->
  (forall g w, committed w = settled t g legs evt v -> ~ calm ev -> Q (Err (Db Driver)) w) ->
  wp (g <- NewUUID ;; WriteLegs g legs ;;; Enqueue evt ;;; commit ;;; ret x) ev
     (World c (Live t v) n) Q.
Proof.
  intros Hl Ha Hv Hb Hf Hok Hack.
  assert (forall g, assert_txn_group_balanced (escrow_ledger c)
            (escrow_ledger v ++ map (leg_row g) legs) = true) as Hpass.
  { intros g. rewrite Hv. apply (zero_sum_legs_pass _ _ g); [done| |].
    - intros r (l & <- & _)%in_map_iff. done.
    - rewrite sumZ_map. change (sumZ (fun l => txn_amount_cents (leg_row g l)) legs)
        with (sumZ l_AmountCents legs).
      rewrite <- (sumZ_map l_AmountCents (fun z => z)), Hl. cbn. unfold neg64.
      unfold int64_max in Ha. rewrite wrap64_id; unfold int64_min, int64_max; lia. }
  wp_step. apply wp_NewUUID; intros g m. wp_step. apply wp_WriteLegs.
  - intros w _ Hs. rewrite Hl, sum64_pair in Hs; done.
  - auto.
  - intros m'. wp_step. apply wp_Enqueue; [by apply Hf|]. wp_step. wp_step; cbn in *.
    + wp_step. by apply (Hok g).
    + by apply (Hack g).
    + by apply Hf.
    + cbv [deferred_ok escrow_Deferred] in DBAD. cbn in DBAD. rewrite Hpass in DBAD. done.
Qed.
End Rules.

(** The account for a contract after the upsert: touched, or opened. *)
Definition open_account (id contractID currency : string) (t : Z) (l : list Escrow) : list Escrow :=
  match List.find (has_key e_ContractID contractID) l with
  | Some _ => update_where (has_key e_ContractID contractID) (set_updated_at t) l
  | None => l ++ [new_escrow id contractID currency t]
  end.

Definition opened (id contractID currency : string) (t : Z) (l : list Escrow) : Escrow :=
  match List.find (has_key e_ContractID contractID) l with
  | Some e => set_updated_at t e
  | None => new_escrow id contractID currency t
  end.

Lemma wp_UpsertEscrow cid cur ev c t v n (Q : res escrow_err Escrow -> world escrow_db -> Prop) :
  keyed e_ContractID (escrow_accounts v) ->
  (~ calm ev -> Q (Err (Db Driver)) (World c Broken (S n))) ->
  (bpchar 3 cur = None -> Q (Err (Db InvalidText)) (World c Broken (S n))) ->
  (In (gen_uuid ev n) (map e_ID (escrow_accounts v)) ->
   Q (Err (Db (UniqueViolation "escrow_accounts_pkey"))) (World c Broken (S n))) ->
  (forall cur3, bpchar 3 cur = Some cur3 ->
   (List.find (has_key e_ContractID cid) (escrow_accounts v) = None ->
      ~ In (gen_uuid ev n) (map e_ID (escrow_accounts v))) ->
   Q (Ok (opened (gen_uuid ev n) cid cur3 t (escrow_accounts v)))
     (World c (Live t (put accounts_t (open_account (gen_uuid ev n) cid cur3 t (escrow_accounts v)) v)) (S n))) ->
  wp (UpsertEscrowForContract cid cur) ev (World c (Live t v) n) Q.
Proof.
  intros Hk Hf Hb Hu Hs. unfold UpsertEscrowForContract, upsert_escrow, open_account, opened in *.
  wp_step. wp_step; [by apply Hf|].
  destruct (bpchar 3 cur) as [cur3|] eqn:B; [|by apply Hb].
  specialize (Hs cur3 eq_refl).
  destruct (List.find (has_key e_ContractID cid) (escrow_accounts v)) as [e|] eqn:F.
  - destruct (find_key_In F) as [Hr <-]. unfold update_rows; cbn.
    rewrite (select_one_row e_ContractID _ _ e)
      by (auto using has_key_refl; intros x ?%has_key_true; done).
    cbn. wp_step. by apply Hs.
  - unfold insert_row, unique_index; cbn. destruct (existsb _ _) eqn:X.
    + apply Hu. apply existsb_exists in X as (x & Hx & <-%String.eqb_eq). by apply in_map.
    + cbn. wp_step. apply Hs. intros _ (x & Hx & Hin)%in_map_iff.
      assert (existsb (fun x => String.eqb (e_ID x) (gen_uuid ev n)) (escrow_accounts v) = true)
        by (apply existsb_exists; exists x; split; [done|by apply String.eqb_eq]).
      congruence.
Qed.

Ltac escrow_rules :=
  lazymatch goal with
  | |- wp (LockEscrow _) _ _ _ => apply wp_LockEscrow; [intros ?NC|intros ?NF|intros ?e ?LK]
  | |- wp (HeldAllocationByMilestone _ _) _ _ _ =>
      apply wp_HeldAllocationByMilestone; [intros ?NC|intros ?NA|intros ?a ?FA]
  | |- wp (AllocationByMilestone _ _) _ (World _ Broken _) _ => unfold AllocationByMilestone
  | |- wp (AllocationByMilestone _ _) _ _ _ =>
      apply wp_AllocationByMilestone; [intros ?NC|intros ?NA|intros ?a ?FA]
  | |- wp (AllocationByBillingWeek _ _) _ _ _ =>
      apply wp_AllocationByBillingWeek; [intros ?NC|intros ?NA|intros ?a ?FA]
  | |- wp (SumHeldAllocations _) _ _ _ =>
      apply wp_SumHeldAllocations; [intros ?NC|intros ?SB|intros ?SO]
  | |- wp (AddHeld _ ?x) _ _ _ =>
      apply (wp_balance_update (held_plus x));
        [|intros ?NC|intros ?NF ?w ?CW|intros ?e ?d ?FS ?CHK|intros ?e ?FS ?CHK]
  | |- wp (MoveHeldToReleased _ ?x ?st) _ _ _ =>
      apply (wp_balance_update (held_to_released x st));
        [|intros ?NC|intros ?NF ?w ?CW|intros ?e ?d ?FS ?CHK|intros ?e ?FS ?CHK]
  | |- wp (MoveHeldToRefunded _ ?x ?st) _ _ _ =>
      apply (wp_balance_update (held_to_refunded x st));
        [|intros ?NC|intros ?NF ?w ?CW|intros ?e ?d ?FS ?CHK|intros ?e ?FS ?CHK]
  | |- wp (MarkAllocationReleased _) _ _ _ =>
      apply wp_MarkAllocationReleased; [|intros ?NC|intros ?NH ?w ?CW|intros ?a ?FS ?HELD]
  | |- wp (RecordFundIdempotency _ _ _) _ _ _ =>
      apply wp_RecordFundIdempotency; [intros ?NC|intros ?DUP|intros ?NEW]
  | |- wp (InsertAllocation _ _ _ _) _ _ _ =>
      apply wp_InsertAllocation; [intros ?NC|intros ?k ?CHK|intros ?d ?CHK ?NU|intros ?CHK]
  | |- wp (bind NewUUID _) _ _ _ =>
      eapply wp_settle; [| | | |intros ?w ?CW ?NC|intros ?g ?w ?CW|intros ?g ?w ?CW ?NC]
  | |- wp (GetEscrow _) _ _ _ => apply wp_GetEscrow; [intros ?NC|intros ?NF|intros ?e ?LK]
  | |- wp (UpsertEscrowForContract _ _) _ _ _ =>
      apply wp_UpsertEscrow; [|intros ?NC|intros ?BAD|intros ?PK|intros ?cur3 ?CUR ?PK]
  end.

(** * What the escrow operations do

    The well-formedness invariant of the escrow tables, the effect of each
    operation on them when it commits, and for every operation a relation that
    lists its outcomes: which error on which condition with the tables
    untouched, or which effect.  The [_meets_spec] lemmas prove that the code
    has no other behaviour, under any fault schedule. *)
(** ** Quantities of an account, read off the tables *)

Definition held_of (id : string) (d : escrow_db) : Z :=
  at_key e_ID e_HeldCents id (escrow_accounts d).

Definition funded_cents (e : Escrow) : Z := e_HeldCents e + e_ReleasedCents e + e_RefundedCents e.

Definition is_released (a : Allocation) : bool := String.eqb (a_Status a) "released".

Definition released_sum (escrowID : string) (l : list Allocation) : Z :=
  sumZ (fun a => if String.eqb (a_EscrowID a) escrowID && is_released a then a_AmountCents a else 0) l.

(** The ledger accounts of a contract's escrow. *)
Definition sub_account (id : string) (r : TxnRow) : bool :=
  of_kind "escrow_contract" r && opt_eqb (account_ref r) id.

(** What the legs on the pooled ledger account [escrow] took from it for [e]. *)
Definition pool_debits (e : Escrow) : Z :=
  funded_cents e + e_ReleasedCents e + e_RefundedCents e.

Definition row_ok (e : Escrow) : Prop :=
  0 <= e_HeldCents e <= int64_max /\ 0 <= e_ReleasedCents e <= int64_max /\
  0 <= e_RefundedCents e <= int64_max.

Definition alloc_ok (a : Allocation) : Prop :=
  0 < a_AmountCents a <= int64_max /\
  (a_Status a = "held" \/ a_Status a = "released").

(** Two allocations for the same milestone or week of the same escrow. *)
Definition same_target (a b : Allocation) : bool :=
  String.eqb (a_EscrowID a) (a_EscrowID b) &&
  (opt_clash (a_MilestoneID a) (a_MilestoneID b) || opt_clash (a_BillingWeek a) (a_BillingWeek b)).

Record escrow_inv (d : escrow_db) : Prop := {
  inv_ids : keyed e_ID (escrow_accounts d);
  inv_contracts : keyed e_ContractID (escrow_accounts d);
  inv_alloc_ids : keyed a_ID (escrow_allocations d);
  inv_rows : forall e, In e (escrow_accounts d) -> row_ok e;
  inv_allocs : forall a, In a (escrow_allocations d) -> alloc_ok a;
  (* an account's held balance covers its reservations *)
  inv_reserved : forall id, held_sum id (escrow_allocations d) <= held_of id d;
  (* what an account released is what its released allocations add up to *)
  inv_released : forall id, released_sum id (escrow_allocations d) =
    at_key e_ID e_ReleasedCents id (escrow_accounts d);
  (* at most one allocation per milestone and per week *)
  inv_targets : forall a b, In a (escrow_allocations d) -> In b (escrow_allocations d) ->
    same_target a b = true -> a = b;
  (* the ledger is balanced and agrees with the balances *)
  inv_balanced : balanced (escrow_ledger d);
  inv_sub_account : forall id, balance (sub_account id) (escrow_ledger d) =
    at_key e_ID funded_cents id (escrow_accounts d);
  inv_freelancer : forall c, balance (kind_of_contract "freelancer_balance" c) (escrow_ledger d) =
    at_key e_ContractID e_ReleasedCents c (escrow_accounts d);
  inv_refunds : forall c, balance (kind_of_contract "refunds" c) (escrow_ledger d) =
    at_key e_ContractID e_RefundedCents c (escrow_accounts d);
  (* the pooled account is debited at funding and again at release and refund *)
  inv_pool : balance (of_kind "escrow") (escrow_ledger d) =
    - sumZ pool_debits (escrow_accounts d)
}.

(** ** Effects *)

Definition fund_legs (e : Escrow) (contractID : string) (a : Z) : list Leg :=
  [ mkLeg "escrow_hold" "escrow" None None (neg64 a) (e_Currency e) None;
    mkLeg "escrow_hold" "escrow_contract" (Some (e_ID e)) (Some contractID) a (e_Currency e) None ].

Definition refund_legs (e : Escrow) (a : Z) (memo : option string) : list Leg :=
  [ mkLeg "refund" "escrow" (Some (e_ID e)) (Some (e_ContractID e)) (neg64 a) (e_Currency e) memo;
    mkLeg "refund" "refunds" None (Some (e_ContractID e)) a (e_Currency e) memo ].

Definition funded_event (e : Escrow) (contractID : string) (a : Z) : Event :=
  escrow_event (e_ID e) "escrow.funded" contractID
    [("escrow_id", JStr (e_ID e)); ("contract_id", JStr contractID);
     ("amount_cents", JInt a); ("held_cents", JInt (e_HeldCents e))].

Definition released_event (e : Escrow) (m w : option string) (a : Z) : Event :=
  escrow_event (e_ID e) "escrow.released" (e_ContractID e)
    ([("escrow_id", JStr (e_ID e)); ("contract_id", JStr (e_ContractID e));
      ("amount_cents", JInt a)]
     ++ match m with Some m => [("milestone_id", JStr m)] | None => [] end
     ++ match w with Some w => [("billing_week", JStr w)] | None => [] end).

Definition refunded_event (e : Escrow) (a : Z) (reason : string) : Event :=
  escrow_event (e_ID e) "escrow.refunded" (e_ContractID e)
    [("escrow_id", JStr (e_ID e)); ("contract_id", JStr (e_ContractID e));
     ("amount_cents", JInt a); ("reason", JStr reason)].

(** The tables after account [id] became [f e], with new allocations, one new
    ledger group and one new event. *)
Definition moved (id : string) (f : Escrow -> Escrow) (allocs : list Allocation)
  (t : Z) (g : string) (legs : list Leg) (ev : Event) (d : escrow_db) : escrow_db :=
  mkEscrowDb (update_where (has_key e_ID id) f (escrow_accounts d)) allocs (fund_keys d)
    (escrow_ledger d ++ map (leg_row g) legs) (enqueued t ev (escrow_outbox d)).

(** The upsert and the idempotency key of FundEscrow. *)
Definition with_account (u contractID currency key : string) (t : Z) (d : escrow_db) : escrow_db :=
  mkEscrowDb (open_account u contractID currency t (escrow_accounts d)) (escrow_allocations d)
    (if String.eqb key "" then fund_keys d
     else fund_keys d ++ [mkFundKey contractID key
            (e_ID (opened u contractID currency t (escrow_accounts d))) t])
    (escrow_ledger d) (escrow_outbox d).

Definition fund_effect (u contractID currency key : string) (a t : Z) (g : string)
  (d : escrow_db) : escrow_db :=
  let e := held_plus a t (opened u contractID currency t (escrow_accounts d)) in
  moved (e_ID e) (held_plus a t) (escrow_allocations d) t g (fund_legs e contractID a)
    (funded_event e contractID a) (with_account u contractID currency key t d).

Definition reserve_effect (al : Allocation) (d : escrow_db) : escrow_db :=
  mkEscrowDb (escrow_accounts d) (escrow_allocations d ++ [al]) (fund_keys d)
    (escrow_ledger d) (escrow_outbox d).

Definition release_effect (e : Escrow) (al : Allocation) (m w : option string) (t : Z) (g : string)
  (d : escrow_db) : escrow_db :=
  let a := a_AmountCents al in
  let f := held_to_released a (statusAfterRelease (sub64 (e_HeldCents e) a)) t in
  moved (e_ID e) f
    (update_where (has_key a_ID (a_ID al)) (release_allocation t) (escrow_allocations d)) t g
    (release_legs (f e) a) (released_event (f e) m w a) d.

Definition refund_effect (e : Escrow) (a : Z) (reason : string) (t : Z) (g : string)
  (d : escrow_db) : escrow_db :=
  let f := held_to_refunded a (if sub64 (e_HeldCents e) a =? 0 then "refunded" else "held") t in
  moved (e_ID e) f (escrow_allocations d) t g
    (refund_legs (f e) a (if String.eqb reason "" then None else Some reason))
    (refunded_event (f e) a reason) d.

(** ** Outcomes *)

(** A call that commits answers [Ok], or a driver error when the
    acknowledgement of its COMMIT was lost. *)
Definition committed_answer {A} (ev : env) (a : A) (r : res escrow_err A) : Prop :=
  r = Ok a \/ (r = Err (Db Driver) /\ ~ calm ev).

Definition currency_or_usd (cur : string) : string := if String.eqb cur "" then "USD" else cur.

Inductive fund_outcome (cid : string) (a : Z) (cur k : string) (ev : env) (d : escrow_db) :
  res escrow_err Escrow -> escrow_db -> Prop :=
| fund_not_positive : a <= 0 -> fund_outcome cid a cur k ev d (Err (Dom ErrAmountNotPositive)) d
| fund_driver : ~ calm ev -> fund_outcome cid a cur k ev d (Err (Db Driver)) d
| fund_currency : 0 < a -> bpchar 3 (currency_or_usd cur) = None ->
    fund_outcome cid a cur k ev d (Err (Db InvalidText)) d
| fund_id_clash n : In (gen_uuid ev n) (map e_ID (escrow_accounts d)) ->
    fund_outcome cid a cur k ev d (Err (Db (UniqueViolation "escrow_accounts_pkey"))) d
| fund_overflow e : In e (escrow_accounts d) -> e_ContractID e = cid ->
    int64_max < e_HeldCents e + a ->
    fund_outcome cid a cur k ev d (Err (Db NumericOutOfRange)) d
| fund_replay e : 0 < a -> k <> "" -> key_used cid k (fund_keys d) = true -> In e (escrow_accounts d) ->
    e_ContractID e = cid -> fund_outcome cid a cur k ev d (Ok e) d
| fund_replay_rolled_back : 0 < a -> k <> "" -> key_used cid k (fund_keys d) = true ->
    List.find (has_key e_ContractID cid) (escrow_accounts d) = None ->
    fund_outcome cid a cur k ev d (Err (Dom ErrNotFound)) d
| fund_done r u cur3 t g : 0 < a -> bpchar 3 (currency_or_usd cur) = Some cur3 ->
    (k <> "" -> key_used cid k (fund_keys d) = false) ->
    (List.find (has_key e_ContractID cid) (escrow_accounts d) = None ->
       ~ In u (map e_ID (escrow_accounts d))) ->
    e_HeldCents (opened u cid cur3 t (escrow_accounts d)) + a <= int64_max ->
    committed_answer ev (held_plus a t (opened u cid cur3 t (escrow_accounts d))) r ->
    fund_outcome cid a cur k ev d r (fund_effect u cid cur3 k a t g d).

Definition reserved_for (p : Allocation -> bool) (d : escrow_db) : option Allocation :=
  List.find p (escrow_allocations d).

Inductive allocate_outcome (eid mid : string) (a : Z) (ev : env) (d : escrow_db) :
  res escrow_err Allocation -> escrow_db -> Prop :=
| alloc_not_positive : a <= 0 -> allocate_outcome eid mid a ev d (Err (Dom ErrAmountNotPositive)) d
| alloc_driver : ~ calm ev -> allocate_outcome eid mid a ev d (Err (Db Driver)) d
| alloc_no_escrow : List.find (has_key e_ID eid) (escrow_accounts d) = None ->
    allocate_outcome eid mid a ev d (Err (Dom ErrNotFound)) d
| alloc_existing al : In al (escrow_allocations d) -> for_milestone eid mid al = true ->
    allocate_outcome eid mid a ev d (Ok al) d
| alloc_insufficient : held_of eid d - held_sum eid (escrow_allocations d) < a ->
    allocate_outcome eid mid a ev d (Err (Dom ErrInsufficientFunds)) d
| alloc_id_clash n : In (gen_uuid ev n) (map a_ID (escrow_allocations d)) ->
    allocate_outcome eid mid a ev d (Err (Db TxAborted)) d
| alloc_done r e u t :
    0 < a -> In e (escrow_accounts d) -> e_ID e = eid ->
    (forall al, In al (escrow_allocations d) -> for_milestone eid mid al = false) ->
    a <= held_of eid d - held_sum eid (escrow_allocations d) ->
    ~ In u (map a_ID (escrow_allocations d)) ->
    committed_answer ev (new_allocation u eid (Some mid) None a t) r ->
    allocate_outcome eid mid a ev d r
      (reserve_effect (new_allocation u eid (Some mid) None a t) d).

Inductive release_outcome (eid mid : string) (ev : env) (d : escrow_db) :
  res escrow_err Escrow -> escrow_db -> Prop :=
| rel_driver : ~ calm ev -> release_outcome eid mid ev d (Err (Db Driver)) d
| rel_no_escrow : List.find (has_key e_ID eid) (escrow_accounts d) = None ->
    release_outcome eid mid ev d (Err (Dom ErrNotFound)) d
| rel_not_held : (forall al, In al (escrow_allocations d) ->
      for_milestone eid mid al && is_held al = false) ->
    release_outcome eid mid ev d (Err (Dom ErrNotFound)) d
| rel_overflow e al : In e (escrow_accounts d) -> e_ID e = eid -> In al (escrow_allocations d) ->
    for_milestone eid mid al = true -> is_held al = true ->
    int64_max < e_ReleasedCents e + a_AmountCents al ->
    release_outcome eid mid ev d (Err (Db NumericOutOfRange)) d
| rel_done r e al t g :
    In e (escrow_accounts d) -> e_ID e = eid ->
    In al (escrow_allocations d) -> for_milestone eid mid al = true -> is_held al = true ->
    e_ReleasedCents e + a_AmountCents al <= int64_max ->
    committed_answer ev
      (held_to_released (a_AmountCents al)
         (statusAfterRelease (sub64 (e_HeldCents e) (a_AmountCents al))) t e) r ->
    release_outcome eid mid ev d r (release_effect e al (Some mid) None t g d).

Inductive hours_outcome (eid wk : string) (a : Z) (ev : env) (d : escrow_db) :
  res escrow_err Escrow -> escrow_db -> Prop :=
| hours_not_positive : a <= 0 -> hours_outcome eid wk a ev d (Err (Dom ErrAmountNotPositive)) d
| hours_driver : ~ calm ev -> hours_outcome eid wk a ev d (Err (Db Driver)) d
| hours_no_escrow : List.find (has_key e_ID eid) (escrow_accounts d) = None ->
    hours_outcome eid wk a ev d (Err (Dom ErrNotFound)) d
| hours_already e al : In e (escrow_accounts d) -> e_ID e = eid ->
    In al (escrow_allocations d) -> for_week eid wk al = true ->
    hours_outcome eid wk a ev d (Ok e) d
| hours_insufficient : held_of eid d - held_sum eid (escrow_allocations d) < a ->
    hours_outcome eid wk a ev d (Err (Dom ErrInsufficientFunds)) d
| hours_id_clash n : In (gen_uuid ev n) (map a_ID (escrow_allocations d)) ->
    hours_outcome eid wk a ev d (Err (Db TxCommitRollback)) d
| hours_overflow e : In e (escrow_accounts d) -> e_ID e = eid ->
    int64_max < e_ReleasedCents e + a ->
    hours_outcome eid wk a ev d (Err (Db NumericOutOfRange)) d
| hours_done r e u t g :
    0 < a -> In e (escrow_accounts d) -> e_ID e = eid ->
    (forall al, In al (escrow_allocations d) -> for_week eid wk al = false) ->
    a <= held_of eid d - held_sum eid (escrow_allocations d) ->
    ~ In u (map a_ID (escrow_allocations d)) ->
    e_ReleasedCents e + a <= int64_max ->
    committed_answer ev
      (held_to_released a (statusAfterRelease (sub64 (e_HeldCents e) a)) t e) r ->
    hours_outcome eid wk a ev d r
      (release_effect e (new_allocation u eid None (Some wk) a t) None (Some wk) t g
         (reserve_effect (new_allocation u eid None (Some wk) a t) d)).

Inductive refund_outcome (eid : string) (a : Z) (reason : string) (ev : env) (d : escrow_db) :
  res escrow_err Escrow -> escrow_db -> Prop :=
| ref_not_positive : a <= 0 -> refund_outcome eid a reason ev d (Err (Dom ErrAmountNotPositive)) d
| ref_driver : ~ calm ev -> refund_outcome eid a reason ev d (Err (Db Driver)) d
| ref_no_escrow : List.find (has_key e_ID eid) (escrow_accounts d) = None ->
    refund_outcome eid a reason ev d (Err (Dom ErrNotFound)) d
| ref_insufficient : held_of eid d - held_sum eid (escrow_allocations d) < a ->
    refund_outcome eid a reason ev d (Err (Dom ErrInsufficientFunds)) d
| ref_overflow e : In e (escrow_accounts d) -> e_ID e = eid ->
    int64_max < e_RefundedCents e + a ->
    refund_outcome eid a reason ev d (Err (Db NumericOutOfRange)) d
| ref_done r e t g :
    0 < a -> In e (escrow_accounts d) -> e_ID e = eid ->
    a <= held_of eid d - held_sum eid (escrow_allocations d) ->
    e_RefundedCents e + a <= int64_max ->
    committed_answer ev
      (held_to_refunded a (if sub64 (e_HeldCents e) a =? 0 then "refunded" else "held") t e) r ->
    refund_outcome eid a reason ev d r (refund_effect e a reason t g d).
