(* ===== verification/EscrowMeets.v ===== *)
(** * The escrow operations meet their specification

    Symbolic execution of each operation of the escrow service from a database
    that satisfies the invariant: every run, whatever the environment does,
    ends with no open transaction and in one of the outcomes of its specification. *)
From S2P Require Export EscrowRules.

Ltac wp_hook ::= escrow_rules.

(** The goal of an execution: the transaction is closed, the outcome is [O]. *)
Definition ends {A} (O : res escrow_err A -> escrow_db -> Prop)
  (r : res escrow_err A) (w : world escrow_db) : Prop :=
  txs w = NoTx /\ O r (committed w).

Lemma find_opened u cid cur t l :
  keyed e_ID l ->
  (List.find (has_key e_ContractID cid) l = None -> ~ In u (map e_ID l)) ->
  List.find (has_key e_ID (e_ID (opened u cid cur t l))) (open_account u cid cur t l)
  = Some (opened u cid cur t l).
Proof.
  intros Hk Hu. unfold opened, open_account.
  destruct (List.find (has_key e_ContractID cid) l) as [e|] eqn:F.
  - destruct (find_key_In F) as [Hr Hc]. rewrite find_key_update by done. cbn.
    rewrite (keyed_find e_ID _ e) by done. cbn. by rewrite (proj2 (has_key_true _ _ _) Hc).
  - rewrite find_key_app, (proj2 find_key_None) by auto. cbn.
    unfold has_key; cbn; by rewrite String.eqb_refl.
Qed.

(** Before the upsert, the account is there iff the contract has one. *)
Lemma find_opened_before u cid cur t l :
  keyed e_ID l ->
  (List.find (has_key e_ContractID cid) l = None -> ~ In u (map e_ID l)) ->
  List.find (has_key e_ID (e_ID (opened u cid cur t l))) l = List.find (has_key e_ContractID cid) l.
Proof.
  intros Hk Hu. unfold opened. destruct (List.find (has_key e_ContractID cid) l) as [e|] eqn:F.
  - destruct (find_key_In F). by apply (keyed_find e_ID l e).
  - apply find_key_None. auto.
Qed.

Lemma keyed_open_account u cid cur t l :
  keyed e_ID l ->
  (List.find (has_key e_ContractID cid) l = None -> ~ In u (map e_ID l)) ->
  keyed e_ID (open_account u cid cur t l).
Proof.
  intros Hk Hu. unfold open_account.
  destruct (List.find (has_key e_ContractID cid) l) as [e|] eqn:F.
  - by apply keyed_update.
  - by apply keyed_snoc; auto.
Qed.

(** The balance updates fail on BIGINT overflow only. *)
Ltac overflow_only :=
  intros (?&?&?) ?; unfold escrow_check, check_row, bigint, in_int64; cbn;
  unfold int64_min, int64_max in *;
  repeat match goal with |- context [if ?b then _ else _] => destruct b eqn:? end; cbn;
  intros; simplify_eq; first [exfalso; lia | split; [done|lia]].

Lemma held_plus_overflow a t e d :
  row_ok e -> 0 < a <= int64_max -> escrow_check (held_plus a t e) = Some d ->
  d = NumericOutOfRange /\ int64_max < e_HeldCents e + a.
Proof.
  overflow_only.
Qed.

Lemma held_to_released_overflow a st t e d :
  row_ok e -> 0 < a <= e_HeldCents e -> escrow_check (held_to_released a st t e) = Some d ->
  d = NumericOutOfRange /\ int64_max < e_ReleasedCents e + a.
Proof.
  overflow_only.
Qed.

Lemma held_to_refunded_overflow a st t e d :
  row_ok e -> 0 < a <= e_HeldCents e -> escrow_check (held_to_refunded a st t e) = Some d ->
  d = NumericOutOfRange /\ int64_max < e_RefundedCents e + a.
Proof.
  overflow_only.
Qed.

Lemma escrow_check_max e : escrow_check e = None ->
  e_HeldCents e <= int64_max /\ e_ReleasedCents e <= int64_max /\ e_RefundedCents e <= int64_max.
Proof.
  intros HC%first_violation_None.
  inversion HC as [|? ? C1 HC']; inversion HC' as [|? ? C2 HC'']; inversion HC'' as [|? ? C3 _].
  apply bigint_None in C1, C2, C3. lia.
Qed.

Lemma opened_cases u cid cur t l :
  opened u cid cur t l = new_escrow u cid cur t \/
  exists e, In e l /\ e_ContractID e = cid /\ opened u cid cur t l = set_updated_at t e.
Proof.
  unfold opened. destruct (List.find _ l) eqn:F; [right|by left].
  destruct (find_key_In F). eauto.
Qed.

Lemma opened_row_ok u cid cur t l :
  (forall e, In e l -> row_ok e) -> row_ok (opened u cid cur t l).
Proof.
  intros Hl. destruct (opened_cases u cid cur t l) as [->|(e&He&_&->)].
  - unfold row_ok, int64_max; cbn; lia.
  - exact (Hl e He).
Qed.

Lemma inv_row_found d e id :
  escrow_inv d -> List.find (has_key e_ID id) (escrow_accounts d) = Some e ->
  row_ok e /\ In e (escrow_accounts d) /\ e_ID e = id /\ held_of id d = e_HeldCents e.
Proof.
  intros HI F. destruct (find_key_In F) as [He <-].
  repeat split; auto; try by apply (inv_rows d HI).
  by apply at_key_In; [apply inv_ids|].
Qed.

Lemma held_sum_nonneg id l : (forall a, In a l -> alloc_ok a) -> 0 <= held_sum id l.
Proof.
  intros Hl. apply sumZ_nonneg. intros a Ha. destruct (Hl a Ha) as [? _].
  repeat case_match; lia.
Qed.

Lemma held_sum_ge id l a :
  (forall a, In a l -> alloc_ok a) -> In a l -> a_EscrowID a = id -> is_held a = true ->
  a_AmountCents a <= held_sum id l.
Proof.
  intros Hl Ha He Hh. unfold held_sum.
  pose proof (sumZ_ge_member (fun a => if String.eqb (a_EscrowID a) id && is_held a
                                       then a_AmountCents a else 0) l a) as Hm.
  cbn in Hm. rewrite He, String.eqb_refl, Hh in Hm. apply Hm; [|done].
  intros y Hy. destruct (Hl y Hy) as [? _]. repeat case_match; lia.
Qed.

(** The funds available on an account: the code's arithmetic is exact. *)
Lemma available_exact d e id :
  escrow_inv d -> List.find (has_key e_ID id) (escrow_accounts d) = Some e ->
  0 <= held_sum id (escrow_allocations d) <= e_HeldCents e /\ e_HeldCents e <= int64_max /\
  in_int64 (held_sum id (escrow_allocations d)) = true /\
  sub64 (e_HeldCents e) (held_sum id (escrow_allocations d)) =
    held_of id d - held_sum id (escrow_allocations d) /\
  held_of id d = e_HeldCents e.
Proof.
  intros HI F. destruct (inv_row_found d e id HI F) as ((?&?&?)&He&<-&Hh).
  pose proof (inv_reserved d HI (e_ID e)) as Hr. rewrite Hh in Hr.
  pose proof (held_sum_nonneg (e_ID e) _ (inv_allocs d HI)).
  repeat split; try lia.
  - apply in_int64_iff. unfold int64_min, int64_max in *. lia.
  - rewrite Hh. unfold sub64. apply wrap64_id. unfold int64_min, int64_max in *. lia.
Qed.

Lemma inv_active d a : escrow_inv d -> In a (escrow_allocations d) -> active a = true.
Proof.
  intros HI Ha. destruct (inv_allocs d HI a Ha) as [_ [E|E]]; unfold active; by rewrite E.
Qed.

Lemma find_all_none {A} (p : A -> bool) l :
  List.find p l = None -> forall x, In x l -> p x = false.
Proof. intros HF. by apply List.find_none. Qed.

Lemma no_target d (p : Allocation -> bool) :
  escrow_inv d -> List.find (fun a => p a && active a) (escrow_allocations d) = None ->
  forall al, In al (escrow_allocations d) -> p al = false.
Proof.
  intros HI HF al Hal. pose proof (find_all_none _ _ HF al Hal) as Hn. cbn in Hn.
  rewrite (inv_active d) in Hn by done. by rewrite andb_true_r in Hn.
Qed.

(** A new allocation for a free target is rejected only when its generated id
    is taken. *)
Lemma new_allocation_check d u eid mid wk a t :
  escrow_inv d -> 0 < a <= int64_max ->
  (is_Some mid \/ is_Some wk) ->
  (forall al, In al (escrow_allocations d) -> same_target al (new_allocation u eid mid wk a t) = false) ->
  match allocation_check (escrow_allocations d) (new_allocation u eid mid wk a t) with
  | Some e => (exists k, e = UniqueViolation k) /\ In u (map a_ID (escrow_allocations d))
  | None => ~ In u (map a_ID (escrow_allocations d))
  end.
Proof.
  intros HI Ha Hm Ht. unfold allocation_check.
  assert (bigint a = None) as Hb.
  { apply bigint_None. unfold int64_min, int64_max in *. lia. }
  cbn [a_AmountCents a_MilestoneID a_BillingWeek new_allocation]. rewrite Hb.
  cbn [first_violation].
  rewrite (proj2 (check_row_None _ _ _)) by (cbn; lia).
  cbn [first_violation].
  rewrite (proj2 (check_row_None _ _ _)) by (destruct mid, wk; cbn; try done; by destruct Hm as [[? [=]]|[? [=]]]).
  cbn [first_violation].
  unfold unique_index at 1. destruct (existsb _ _) eqn:X; cbn [first_violation].
  { split; [eauto|]. apply existsb_exists in X as (x & Hx & Hk%String.eqb_eq). cbn in Hk. rewrite <- Hk.
    by apply in_map. }
  rewrite (proj2 (unique_index_None _ _ _ _)).
  2:{ intros x Hx. specialize (Ht x Hx). unfold same_target in Ht. cbn in *.
      destruct (opt_clash (a_MilestoneID x) mid); [|by rewrite andb_false_r].
      rewrite orb_true_l, andb_true_r in Ht. by rewrite Ht, !andb_false_r. }
  cbn [first_violation].
  rewrite (proj2 (unique_index_None _ _ _ _)).
  2:{ intros x Hx. specialize (Ht x Hx). unfold same_target in Ht. cbn in *.
      destruct (opt_clash (a_BillingWeek x) wk); [|by rewrite andb_false_r].
      rewrite orb_true_r, andb_true_r in Ht. by rewrite Ht, !andb_false_r. }
  cbn. intros (x & Hx & Hin)%in_map_iff.
  assert (existsb (fun x => String.eqb (a_ID x) u) (escrow_allocations d) = true)
    by (apply existsb_exists; exists x; split; [done|by apply String.eqb_eq]).
  unfold new_allocation in X; cbn in X. congruence.
Qed.

Lemma new_allocation_rejected d u eid mid wk a t e :
  escrow_inv d -> 0 < a <= int64_max -> (is_Some mid \/ is_Some wk) ->
  (forall al, In al (escrow_allocations d) -> same_target al (new_allocation u eid mid wk a t) = false) ->
  allocation_check (escrow_allocations d) (new_allocation u eid mid wk a t) = Some e ->
  (exists k, e = UniqueViolation k) /\ In u (map a_ID (escrow_allocations d)).
Proof.
  intros HI Ha Hm Ht HC. pose proof (new_allocation_check d u eid mid wk a t HI Ha Hm Ht) as HN.
  by rewrite HC in HN.
Qed.

Lemma new_allocation_accepted d u eid mid wk a t :
  escrow_inv d -> 0 < a <= int64_max -> (is_Some mid \/ is_Some wk) ->
  (forall al, In al (escrow_allocations d) -> same_target al (new_allocation u eid mid wk a t) = false) ->
  allocation_check (escrow_allocations d) (new_allocation u eid mid wk a t) = None ->
  ~ In u (map a_ID (escrow_allocations d)).
Proof.
  intros HI Ha Hm Ht HC. pose proof (new_allocation_check d u eid mid wk a t HI Ha Hm Ht) as HN.
  by rewrite HC in HN.
Qed.

(** The deferred trigger accepts a transaction that wrote no legs. *)
Lemma no_legs_deferred before after :
  escrow_ledger after = escrow_ledger before -> deferred_ok before after = true.
Proof. intros E. cbv [deferred_ok escrow_Deferred]. rewrite E. apply no_legs_pass. Qed.

Lemma new_target_milestone d eid mid a u t :
  (forall al, In al (escrow_allocations d) -> for_milestone eid mid al = false) ->
  forall al, In al (escrow_allocations d) ->
    same_target al (new_allocation u eid (Some mid) None a t) = false.
Proof.
  intros Hf al Hal. specialize (Hf al Hal). unfold for_milestone, same_target in *; cbn.
  unfold opt_eqb in Hf. unfold opt_clash. destruct (a_BillingWeek al), (a_MilestoneID al);
    by rewrite ?orb_false_r, ?andb_false_r.
Qed.

Lemma new_target_week d eid wk a u t :
  (forall al, In al (escrow_allocations d) -> for_week eid wk al = false) ->
  forall al, In al (escrow_allocations d) ->
    same_target al (new_allocation u eid None (Some wk) a t) = false.
Proof.
  intros Hf al Hal. specialize (Hf al Hal). unfold for_week, same_target in *; cbn.
  unfold opt_eqb in Hf. unfold opt_clash. destruct (a_BillingWeek al), (a_MilestoneID al);
    by rewrite ?orb_false_l, ?andb_false_r.
Qed.

Section Meets.
Context (ev : env) (d : escrow_db) (n : nat) (HI : escrow_inv d).

Lemma fund_tail u cid cur cur3 k t a v m :
  v = with_account u cid cur3 k t d ->
  0 < a <= int64_max -> bpchar 3 (currency_or_usd cur) = Some cur3 ->
  (k <> "" -> key_used cid k (fund_keys d) = false) ->
  (List.find (has_key e_ContractID cid) (escrow_accounts d) = None ->
     ~ In u (map e_ID (escrow_accounts d))) ->
  wp (e <- AddHeld (e_ID (opened u cid cur3 t (escrow_accounts d))) a ;;
      g <- NewUUID ;;
      WriteLegs g (fund_legs e cid a) ;;;
      Enqueue (funded_event e cid a) ;;;
      commit ;;; ret e) ev (World d (Live t v) m)
     (fun r w => ends (fund_outcome cid a cur k ev d) r (World (committed w) NoTx (tick w))).
Proof.
  intros -> Ha Hc Hk Hu.
  pose proof (find_opened u cid cur3 t _ (inv_ids d HI) Hu) as HF.
  pose proof (opened_row_ok u cid cur3 t _ (inv_rows d HI)) as HR.
  wp_steps; unfold ends; cbn [committed txs].
  all: try (split; [done|constructor; done]).
  all: cbn [with_account escrow_accounts escrow_ledger] in *; try congruence.
  all: try (rewrite HF in FS; injection FS as <-).
  - by apply keyed_open_account; [apply inv_ids|].
  - split; [done|]. apply held_plus_overflow in CHK as [-> Ho]; [|done..].
    destruct (opened_cases u cid cur3 t (escrow_accounts d)) as [E|(e&He&Hce&E)];
      rewrite E in Ho; cbn in Ho; [unfold int64_max in *; lia|].
    by eapply fund_overflow.
  - reflexivity.
  - done.
  - done.
  - by apply inv_balanced.
  - rewrite CW. split; [done|]. by apply fund_driver.
  - assert (committed w = fund_effect u cid cur3 k a t g d) as -> by exact CW.
    split; [done|]. apply escrow_check_max in CHK as [? _].
    apply (fund_done _ _ _ _ _ _ _ u cur3 t g); try done; [lia|by left].
  - assert (committed w = fund_effect u cid cur3 k a t g d) as -> by exact CW.
    split; [done|]. apply escrow_check_max in CHK as [? _].
    apply (fund_done _ _ _ _ _ _ _ u cur3 t g); try done; [lia|by right].
Qed.

Lemma fund_meets cid a cur k :
  int64_min <= a <= int64_max ->
  wp (FundEscrow cid a cur k) ev (rest d n) (ends (fund_outcome cid a cur k ev d)).
Proof.
  intros Ha. unfold FundEscrow, rest.
  wp_step. { wp_step. split; [done|]. constructor. lia. }
  assert (0 < a <= int64_max) as Hpos by lia.
  wp_step. { split; [done|]. by constructor. }
  wp_step. wp_step; unfold ends; cbn [committed txs].
  - by apply inv_contracts.
  - split; [done|by constructor].
  - split; [done|]. by apply fund_currency; [lia|].
  - split; [done|]. by eapply fund_id_clash.
  - pose proof (find_opened (gen_uuid ev (S n)) cid cur3 (clock ev n) _ (inv_ids d HI) PK) as HF.
    wp_step. wp_step; cbn [committed txs escrow_accounts put accounts_t] in *; try congruence.
    { split; [done|by constructor]. }
    wp_step. destruct (String.eqb_spec k "") as [->|Hk]; cbn [negb].
    + wp_step. eapply fund_tail; try done.
    + repeat lazymatch goal with
        | |- wp (bind (AddHeld _ _) _) _ _ _ => fail
        | |- _ => wp_step
        end; cbn [committed txs escrow_accounts put accounts_t] in *.
      all: try (split; [done|by constructor]).
      * rewrite find_opened_before in NF by (done || by apply inv_ids).
        split; [done|]. by apply fund_replay_rolled_back; [lia|..].
      * rewrite find_opened_before in LK0 by (done || by apply inv_ids).
        destruct (find_key_In LK0). split; [done|]. by apply fund_replay; [lia|..].
      * eapply fund_tail; try done.
        by unfold with_account; rewrite (proj2 (String.eqb_neq _ _) Hk).
Qed.

Lemma allocate_meets eid mid a :
  int64_min <= a <= int64_max ->
  wp (AllocateToMilestone eid mid a) ev (rest d n) (ends (allocate_outcome eid mid a ev d)).
Proof.
  intros Ha. unfold AllocateToMilestone, rest.
  wp_step. { wp_step. split; [done|]. constructor. lia. }
  assert (0 < a <= int64_max) as Hpos by lia.
  wp_step. { split; [done|]. by constructor. }
  wp_steps; unfold ends; cbn [committed txs].
  all: try (split; [done|by constructor]).
  all: try destruct (available_exact d e eid HI LK) as (?&?&HB&HA&HH).
  all: try (rewrite no_legs_deferred in DBAD by done; done).
  - congruence.
  - rewrite HA in *. split; [done|]. apply alloc_insufficient. lia.
  - apply new_allocation_rejected in CHK as [_ ?]; eauto using new_target_milestone, no_target.
    split; [done|]. by eapply alloc_id_clash.
  - apply new_allocation_rejected in CHK as [[? ->] _];
      eauto using new_target_milestone, no_target. done.
  - apply new_allocation_accepted in CHK; eauto using new_target_milestone, no_target.
    rewrite HA in *. destruct (find_key_In LK). split; [done|].
    eapply alloc_done; eauto using no_target; [lia..|by left].
  - apply new_allocation_accepted in CHK; eauto using new_target_milestone, no_target.
    rewrite HA in *. destruct (find_key_In LK). split; [done|].
    eapply alloc_done; eauto using no_target; [lia..|by right].
  - apply List.find_some in FA as [? [? _]%andb_true_iff]. split; [done|]. by apply alloc_existing.
Qed.

(** The common tail of the two releases, on a view [v] that may have gained
    the allocation. *)
Lemma release_tail e al mid wk t v m (Q : res escrow_err Escrow -> world escrow_db -> Prop) :
  escrow_accounts v = escrow_accounts d -> escrow_ledger v = escrow_ledger d ->
  List.find (has_key e_ID (e_ID e)) (escrow_accounts d) = Some e ->
  keyed a_ID (escrow_allocations v) -> In al (escrow_allocations v) -> is_held al = true ->
  0 < a_AmountCents al <= e_HeldCents e ->
  (forall w, committed w = d -> ~ calm ev -> Q (Err (Db Driver)) w) ->
  (forall w, committed w = d -> int64_max < e_ReleasedCents e + a_AmountCents al ->
     Q (Err (Db NumericOutOfRange)) w) ->
  (forall g r w, committed w = release_effect e al mid wk t g v ->
     e_ReleasedCents e + a_AmountCents al <= int64_max ->
     committed_answer ev (held_to_released (a_AmountCents al)
       (statusAfterRelease (sub64 (e_HeldCents e) (a_AmountCents al))) t e) r -> Q r w) ->
  wp (MarkAllocationReleased (a_ID al) ;;;
      e' <- MoveHeldToReleased (e_ID e) (a_AmountCents al)
              (statusAfterRelease (sub64 (e_HeldCents e) (a_AmountCents al))) ;;
      g <- NewUUID ;;
      WriteLegs g (release_legs e' (a_AmountCents al)) ;;;
      emitReleased e' mid wk (a_AmountCents al) ;;;
      commit ;;; ret e') ev (World d (Live t v) m) Q.
Proof.
  intros Hacc Hled HF Hka Hal Hh Ha Hf Ho Hd.
  destruct (inv_row_found d e _ HI HF) as (HR&He&_&_).
  assert (a_AmountCents al <= int64_max) by (destruct HR; lia).
  pose proof (keyed_find a_ID _ al Hka Hal) as HFa.
  wp_steps; cbn [escrow_accounts escrow_ledger put allocations_t accounts_t] in *;
    rewrite ?Hacc in *; try (rewrite HF in FS0; injection FS0 as <-).
  all: try (by apply Hf); try congruence.
  - rewrite (NH al) in Hh by done. done.
  - by apply inv_ids.
  - apply held_to_released_overflow in CHK as [-> ?]; auto.
  - reflexivity.
  - cbn. lia.
  - by apply inv_balanced.
  - apply escrow_check_max in CHK as (_&?&_). apply (Hd g); [by rewrite CW, <- Hacc|done|by left].
  - apply escrow_check_max in CHK as (_&?&_). apply (Hd g); [by rewrite CW, <- Hacc|done|by right].
Qed.

Lemma release_meets eid mid a :
  wp (ReleaseMilestone eid mid a) ev (rest d n) (ends (release_outcome eid mid ev d)).
Proof.
  unfold ReleaseMilestone, rest.
  wp_step. { split; [done|]. by constructor. }
  repeat lazymatch goal with
  | |- wp (bind (MarkAllocationReleased _) _) _ _ _ => fail
  | |- _ => wp_step
  end; unfold ends; cbn [committed txs].
  all: try (split; [done|by constructor]).
  all: try destruct (available_exact d e eid HI LK) as (?&?&HB&HA&HH).
  - split; [done|]. apply rel_not_held. by apply find_all_none.
  - congruence.
  - apply List.find_some in FA as [Hal [[He _]%andb_true_iff Hh]%andb_true_iff].
    apply String.eqb_eq in He.
    pose proof (held_sum_ge eid _ a0 (inv_allocs d HI) Hal He Hh).
    apply orb_true_iff in Heqb. lia.
  - destruct (find_key_In LK) as [Hin <-].
    apply List.find_some in FA as [Hal [Hm Hh]%andb_true_iff].
    destruct (inv_allocs d HI a0 Hal) as [? _]. apply orb_false_iff in Heqb.
    apply (release_tail e a0 (Some mid) None); auto using inv_alloc_ids; cbn [committed txs]; [lia|..].
    + intros w -> NC. split; [done|by constructor].
    + intros w -> Ho. split; [done|by eapply rel_overflow].
    + intros g r w -> Ho Hr. split; [done|by apply rel_done].
Qed.

Lemma hours_meets eid wk a :
  int64_min <= a <= int64_max ->
  wp (ReleaseHours eid wk a) ev (rest d n) (ends (hours_outcome eid wk a ev d)).
Proof.
  intros Ha. unfold ReleaseHours, rest.
  wp_step. { wp_step. split; [done|]. constructor. lia. }
  assert (0 < a <= int64_max) as Hpos by lia.
  wp_step. { split; [done|]. by constructor. }
  repeat lazymatch goal with
  | |- wp (bind (MarkAllocationReleased _) _) _ _ _ => fail
  | |- _ => wp_step
  end; unfold ends; cbn [committed txs].
  all: try (split; [done|by constructor]).
  all: try destruct (available_exact d e eid HI LK) as (?&?&HB&HA&HH).
  all: try (rewrite no_legs_deferred in DBAD by done; done).
  - congruence.
  - rewrite HA in *. split; [done|]. apply hours_insufficient. lia.
  - apply new_allocation_rejected in CHK as [_ ?]; eauto using new_target_week, no_target.
    split; [done|]. by eapply hours_id_clash.
  - apply new_allocation_rejected in CHK as [[? ->] _];
      eauto using new_target_week, no_target. done.
  - apply new_allocation_accepted in CHK; eauto using new_target_week, no_target.
    rewrite HA in *. destruct (find_key_In LK) as [Hin <-].
    apply (release_tail e (new_allocation (gen_uuid ev (S (S (S (S n))))) (e_ID e) None (Some wk) a (clock ev n))
             None (Some wk)); cbn [committed txs]; auto.
    + apply keyed_snoc; [by apply inv_alloc_ids|done].
    + apply in_app_iff. right. by left.
    + cbn. lia.
    + intros w -> NC. split; [done|by constructor].
    + intros w -> Ho. split; [done|by eapply hours_overflow].
    + intros g r w -> Ho Hr. split; [done|].
      eapply hours_done; eauto using no_target; [lia..].
  - apply List.find_some in FA as [? [? _]%andb_true_iff]. destruct (find_key_In LK).
    split; [done|]. by eapply hours_already.
Qed.

Lemma refund_meets eid a reason :
  int64_min <= a <= int64_max ->
  wp (RefundEscrow eid a reason) ev (rest d n) (ends (refund_outcome eid a reason ev d)).
Proof.
  intros Ha. unfold RefundEscrow, rest.
  wp_step. { wp_step. split; [done|]. constructor. lia. }
  assert (0 < a <= int64_max) as Hpos by lia.
  wp_step. { split; [done|]. by constructor. }
  wp_steps; unfold ends; cbn [committed txs].
  all: try (split; [done|by constructor]).
  all: try destruct (available_exact d e eid HI LK) as (?&?&HB&HA&HH).
  all: try destruct (inv_row_found d e eid HI LK) as (HR&He&Hid&Hh).
  all: try (rewrite LK in FS; injection FS as <-).
  all: try (rewrite CW; split; [done|by constructor]).
  all: try rewrite HA in *.
  - congruence.
  - split; [done|]. apply ref_insufficient. lia.
  - by apply inv_ids.
  - apply held_to_refunded_overflow in CHK as [-> ?]; [|done|lia].
    split; [done|]. by eapply ref_overflow.
  - reflexivity.
  - done.
  - done.
  - by apply inv_balanced.
  - apply escrow_check_max in CHK as (_&_&?). subst eid.
    assert (committed w = refund_effect e a reason (clock ev n) g d) as -> by exact CW.
    split; [done|]. apply ref_done; try done; [lia..|by left].
  - apply escrow_check_max in CHK as (_&_&?). subst eid.
    assert (committed w = refund_effect e a reason (clock ev n) g d) as -> by exact CW.
    split; [done|]. apply ref_done; try done; [lia..|by right].
Qed.
End Meets.
