(* ===== verification/EscrowInv.v ===== *)
(** * The escrow invariant is preserved

    Every effect of the specification takes a database that satisfies [escrow_inv]
    to one that does; with the outcome lemmas this makes it an invariant of
    everything the service can reach. *)
From S2P Require Export EscrowMeets.

(** ** How sums at a key change *)

Lemma at_key_open {key g} u cid cur t l k :
  keyed e_ContractID l ->
  (forall e, key (set_updated_at t e) = key e) -> (forall e, g (set_updated_at t e) = g e) ->
  g (new_escrow u cid cur t) = 0 ->
  at_key key g k (open_account u cid cur t l) = at_key key g k l.
Proof.
  intros Hk Hkey Hg H0. unfold open_account.
  destruct (List.find (has_key e_ContractID cid) l) as [e|] eqn:F.
  - rewrite (at_key_update e_ContractID key g k cid _ l e) by auto.
    rewrite Hg. case_match; lia.
  - unfold at_key. rewrite sumZ_app. cbn. rewrite H0. case_match; lia.
Qed.

Lemma pool_open u cid cur t l :
  keyed e_ContractID l -> sumZ pool_debits (open_account u cid cur t l) = sumZ pool_debits l.
Proof.
  intros Hk. unfold open_account.
  destruct (List.find (has_key e_ContractID cid) l) as [e|] eqn:F.
  - rewrite (sumZ_update e_ContractID _ _ _ e) by done.
    change (pool_debits (set_updated_at t e)) with (pool_debits e). lia.
  - rewrite sumZ_app. cbn [sumZ]. change (pool_debits (new_escrow u cid cur t)) with 0. lia.
Qed.

Lemma balanced_legs l g legs :
  balanced l -> sumZ l_AmountCents legs = 0 -> balanced (l ++ map (leg_row g) legs).
Proof.
  intros Hb Hs. apply trigger_keeps_balanced; [done|].
  apply (zero_sum_legs_pass _ _ g); [done| |by rewrite sumZ_map].
  by intros r (x & <- & _)%in_map_iff.
Qed.

Lemma neg64_pos a : 0 < a <= int64_max -> neg64 a = - a.
Proof. intros Ha. unfold neg64. rewrite wrap64_id; unfold int64_min, int64_max in *; lia. Qed.

Lemma two_legs_zero a x y : 0 < a <= int64_max ->
  l_AmountCents x = neg64 a -> l_AmountCents y = a -> sumZ l_AmountCents [x; y] = 0.
Proof.
  intros Ha Hx Hy. cbn. rewrite Hx, Hy. unfold neg64.
  rewrite wrap64_id by (unfold int64_min, int64_max in *; lia). lia.
Qed.

(** ** Opening an account *)

Lemma In_open_account u cid cur t l e :
  In e (open_account u cid cur t l) ->
  In e l \/ e = new_escrow u cid cur t \/ exists e0, In e0 l /\ e = set_updated_at t e0.
Proof.
  unfold open_account. destruct (List.find _ l).
  - intros [[? _]|(e1&?&_&->)]%In_update; eauto 6.
  - intros [?|[<-|[]]]%in_app_iff; auto.
Qed.

Lemma open_account_keyed_contract u cid cur t l :
  keyed e_ContractID l -> keyed e_ContractID (open_account u cid cur t l).
Proof.
  intros Hk. unfold open_account. destruct (List.find _ l) eqn:F.
  - by apply keyed_update.
  - apply keyed_snoc; [done|]. by apply find_key_None.
Qed.

Lemma with_account_inv u cid cur k t d :
  escrow_inv d ->
  (List.find (has_key e_ContractID cid) (escrow_accounts d) = None ->
     ~ In u (map e_ID (escrow_accounts d))) ->
  escrow_inv (with_account u cid cur k t d).
Proof.
  intros HI Hu. destruct HI.
  constructor; cbn [with_account escrow_accounts escrow_allocations escrow_ledger]; auto.
  - by apply keyed_open_account.
  - by apply open_account_keyed_contract.
  - intros e [?|[->|(e0&?&->)]]%In_open_account; auto.
    + unfold row_ok, int64_max; cbn; lia.
    + exact (inv_rows e0 H).
  - intros id. unfold held_of; cbn [with_account escrow_accounts].
    rewrite (at_key_open (key := e_ID)); auto.
  - intros id. rewrite (at_key_open (key := e_ID)); auto.
  - intros id. rewrite (at_key_open (key := e_ID)); auto.
  - intros c. rewrite (at_key_open (key := e_ContractID)); auto.
  - intros c. rewrite (at_key_open (key := e_ContractID)); auto.
  - by rewrite pool_open.
Qed.

(** ** Moving money on an account *)

Section Moves.
Context (d : escrow_db) (HI : escrow_inv d).

(** What an account update that keeps the identity owes the invariant:
    the change of its balances is matched by allocations and ledger legs. *)
Lemma moved_inv e f allocs t g legs evt :
  List.find (has_key e_ID (e_ID e)) (escrow_accounts d) = Some e ->
  (forall x, e_ID (f x) = e_ID x /\ e_ContractID (f x) = e_ContractID x) ->
  row_ok (f e) ->
  keyed a_ID allocs ->
  (forall a, In a allocs -> alloc_ok a) ->
  (forall a b, In a allocs -> In b allocs -> same_target a b = true -> a = b) ->
  (forall id, held_sum id allocs <=
     held_of id d + (if String.eqb (e_ID e) id then e_HeldCents (f e) - e_HeldCents e else 0)) ->
  (forall id, released_sum id allocs = released_sum id (escrow_allocations d) +
     (if String.eqb (e_ID e) id then e_ReleasedCents (f e) - e_ReleasedCents e else 0)) ->
  sumZ l_AmountCents legs = 0 ->
  (forall id, balance (sub_account id) (map (leg_row g) legs) =
     if String.eqb (e_ID e) id then funded_cents (f e) - funded_cents e else 0) ->
  (forall c, balance (kind_of_contract "freelancer_balance" c) (map (leg_row g) legs) =
     if String.eqb (e_ContractID e) c then e_ReleasedCents (f e) - e_ReleasedCents e else 0) ->
  (forall c, balance (kind_of_contract "refunds" c) (map (leg_row g) legs) =
     if String.eqb (e_ContractID e) c then e_RefundedCents (f e) - e_RefundedCents e else 0) ->
  balance (of_kind "escrow") (map (leg_row g) legs) = pool_debits e - pool_debits (f e) ->
  escrow_inv (moved (e_ID e) f allocs t g legs evt d).
Proof.
  intros HF Hf HR Hka Hao Hst Hh Hr Hz Hsub Hfr Hre Hpool. destruct HI.
  constructor; cbn [moved escrow_accounts escrow_allocations escrow_ledger]; auto.
  - apply keyed_update; [apply Hf|done].
  - apply keyed_update; [apply Hf|done].
  - intros x [[? _]|(x0&Hx&K%has_key_true&->)]%In_update; auto.
    assert (x0 = e) as ->; [|done]. destruct (find_key_In HF). by eapply (keyed_inj e_ID).
  - intros id. unfold held_of; cbn [moved escrow_accounts].
    rewrite (at_key_update e_ID e_ID _ _ _ _ _ e) by (done || apply Hf). apply Hh.
  - intros id. rewrite (at_key_update e_ID e_ID _ _ _ _ _ e) by (done || apply Hf).
    rewrite Hr, inv_released. done.
  - by apply balanced_legs.
  - intros id. rewrite (at_key_update e_ID e_ID _ _ _ _ _ e) by (done || apply Hf).
    rewrite balance_app, inv_sub_account, Hsub. done.
  - intros c. rewrite (at_key_update e_ID e_ContractID _ _ _ _ _ e) by (done || apply Hf).
    rewrite balance_app, inv_freelancer, Hfr. done.
  - intros c. rewrite (at_key_update e_ID e_ContractID _ _ _ _ _ e) by (done || apply Hf).
    rewrite balance_app, inv_refunds, Hre. done.
  - rewrite (sumZ_update e_ID _ _ _ e), balance_app, inv_pool, Hpool by done. lia.
Qed.
End Moves.

(** ** The effects of the operations *)

Lemma if_zero (b : bool) z : z = 0 -> (if b then z else 0) = 0.
Proof. by intros ->; destruct b. Qed.

Lemma fund_effect_inv u cid cur k a t g d :
  escrow_inv d -> 0 < a ->
  (List.find (has_key e_ContractID cid) (escrow_accounts d) = None ->
     ~ In u (map e_ID (escrow_accounts d))) ->
  e_HeldCents (opened u cid cur t (escrow_accounts d)) + a <= int64_max ->
  escrow_inv (fund_effect u cid cur k a t g d).
Proof.
  intros HI Ha Hu Hmax. pose proof (find_opened u cid cur t _ (inv_ids d HI) Hu) as HF.
  pose proof (opened_row_ok u cid cur t _ (inv_rows d HI)) as HR.
  assert (e_ContractID (opened u cid cur t (escrow_accounts d)) = cid) as Hcid
    by by destruct (opened_cases u cid cur t (escrow_accounts d)) as [->|(?&?&<-&->)].
  unfold fund_effect. cbn zeta.
  set (e := opened u cid cur t (escrow_accounts d)) in *.
  change (e_ID (held_plus a t e)) with (e_ID e).
  pose proof (with_account_inv u cid cur k t d HI Hu) as HW.
  assert (0 < a <= int64_max) by (destruct HR; lia).
  apply (moved_inv _ HW e (held_plus a t)); auto; try by apply HW.
  - unfold row_ok in *; cbn; lia.
  - intros id. pose proof (inv_reserved _ HW id). cbn [escrow_allocations with_account held_plus e_HeldCents] in *.
    case_match; lia.
  - intros id. cbn [held_plus e_ReleasedCents escrow_allocations with_account]. case_match; lia.
  - by apply (two_legs_zero a).
  - intros id. unfold funded_cents; cbn. case_match; lia.
  - intros c. cbn. case_match; lia.
  - intros c. cbn. case_match; lia.
  - unfold pool_debits, funded_cents; cbn. rewrite neg64_pos by done. lia.
Qed.

Lemma held_sum_snoc id l a :
  held_sum id (l ++ [a]) =
  held_sum id l + (if String.eqb (a_EscrowID a) id && is_held a then a_AmountCents a else 0).
Proof. unfold held_sum. rewrite sumZ_app. cbn. lia. Qed.

Lemma released_sum_snoc id l a :
  released_sum id (l ++ [a]) =
  released_sum id l + (if String.eqb (a_EscrowID a) id && is_released a then a_AmountCents a else 0).
Proof. unfold released_sum. rewrite sumZ_app. cbn. lia. Qed.

Lemma reserve_effect_inv u eid mid wk a t d :
  escrow_inv d -> 0 < a <= int64_max ->
  (forall al, In al (escrow_allocations d) -> same_target al (new_allocation u eid mid wk a t) = false) ->
  a <= held_of eid d - held_sum eid (escrow_allocations d) ->
  ~ In u (map a_ID (escrow_allocations d)) ->
  escrow_inv (reserve_effect (new_allocation u eid mid wk a t) d).
Proof.
  intros HI Ha Ht Hav Hu. destruct HI.
  constructor; cbn [reserve_effect escrow_accounts escrow_allocations escrow_ledger]; auto.
  - by apply keyed_snoc.
  - intros al [?|[<-|[]]]%in_app_iff; auto. split; [done|by left].
  - intros id. rewrite held_sum_snoc. specialize (inv_reserved id).
    change (held_of id (reserve_effect _ d)) with (held_of id d).
    cbn [new_allocation a_EscrowID a_AmountCents].
    change (is_held (new_allocation u eid mid wk a t)) with true.
    destruct (String.eqb_spec eid id); cbn [andb]; subst; lia.
  - intros id. rewrite released_sum_snoc.
    change (is_released (new_allocation u eid mid wk a t)) with false.
    rewrite andb_false_r, Z.add_0_r. auto.
  - intros x y [Hx|[<-|[]]]%in_app_iff [Hy|[<-|[]]]%in_app_iff Hs; auto.
    + by rewrite Ht in Hs.
    + assert (forall s1 s2, opt_clash s1 s2 = opt_clash s2 s1) as Hc
        by (intros [?|] [?|]; cbn; auto using String.eqb_sym).
      specialize (Ht y Hy). unfold same_target in *.
      rewrite String.eqb_sym, (Hc (a_MilestoneID y)), (Hc (a_BillingWeek y)) in Ht. congruence.
Qed.

Lemma same_target_released t a b :
  same_target (release_allocation t a) b = same_target a b /\
  same_target a (release_allocation t b) = same_target a b.
Proof. done. Qed.

Lemma release_effect_inv e al mid wk t g d :
  escrow_inv d -> In e (escrow_accounts d) -> In al (escrow_allocations d) ->
  a_EscrowID al = e_ID e -> is_held al = true ->
  e_ReleasedCents e + a_AmountCents al <= int64_max ->
  escrow_inv (release_effect e al mid wk t g d).
Proof.
  intros HI He Hal Hid Hh Hmax.
  pose proof (keyed_find e_ID _ e (inv_ids d HI) He) as HF.
  pose proof (keyed_find a_ID _ al (inv_alloc_ids d HI) Hal) as HA.
  destruct (inv_rows d HI e He) as (?&?&?). destruct (inv_allocs d HI al Hal) as [? _].
  pose proof (held_sum_ge (e_ID e) _ al (inv_allocs d HI) Hal Hid Hh) as Hge.
  pose proof (inv_reserved d HI (e_ID e)) as Hres.
  rewrite (at_key_In e_ID e_HeldCents _ e (inv_ids d HI) He : held_of (e_ID e) d = _) in Hres.
  unfold release_effect. cbn zeta. apply (moved_inv d HI e); auto.
  - unfold row_ok in *; cbn; lia.
  - apply keyed_update; [done|apply (inv_alloc_ids d HI)].
  - intros x [[? _]|(x0&Hx&_&->)]%In_update; [by apply (inv_allocs d HI)|].
    destruct (inv_allocs d HI x0 Hx). split; [done|by right].
  - intros x y [[Hx Kx]|(x0&Hx&Kx&->)]%In_update [[Hy Ky]|(y0&Hy&Ky&->)]%In_update Hs;
      [by apply (inv_targets d HI)|..];
      [pose proof (inv_targets d HI x y0 Hx Hy Hs)|pose proof (inv_targets d HI x0 y Hx Hy Hs)
      |pose proof (inv_targets d HI x0 y0 Hx Hy Hs)]; congruence.
  - intros id. unfold held_sum. rewrite (sumZ_update a_ID _ _ _ al) by (done || apply (inv_alloc_ids d HI)).
    cbn [release_allocation held_to_released a_EscrowID a_AmountCents e_HeldCents].
    change (is_held (release_allocation t al)) with false.
    rewrite Hid, Hh, andb_true_r, andb_false_r. pose proof (inv_reserved d HI id).
    unfold held_sum in *. case_match; lia.
  - intros id. unfold released_sum. rewrite (sumZ_update a_ID _ _ _ al) by (done || apply (inv_alloc_ids d HI)).
    apply String.eqb_eq in Hh. unfold is_released. cbn. rewrite Hid, Hh, andb_true_r, andb_false_r. case_match; lia.
  - by apply (two_legs_zero (a_AmountCents al)).
  - intros id. unfold funded_cents; cbn. symmetry. apply if_zero. lia.
  - intros c. cbn. case_match; lia.
  - intros c. cbn. symmetry. apply if_zero. lia.
  - unfold pool_debits, funded_cents; cbn. rewrite neg64_pos by done. lia.
Qed.

Lemma refund_effect_inv e a reason t g d :
  escrow_inv d -> In e (escrow_accounts d) -> 0 < a ->
  a <= held_of (e_ID e) d - held_sum (e_ID e) (escrow_allocations d) ->
  e_RefundedCents e + a <= int64_max ->
  escrow_inv (refund_effect e a reason t g d).
Proof.
  intros HI He Ha Hav Hmax.
  pose proof (keyed_find e_ID _ e (inv_ids d HI) He) as HF.
  destruct (inv_rows d HI e He) as (?&?&?).
  pose proof (held_sum_nonneg (e_ID e) _ (inv_allocs d HI)).
  rewrite (at_key_In e_ID e_HeldCents _ e (inv_ids d HI) He : held_of (e_ID e) d = _) in Hav.
  unfold refund_effect. cbn zeta. apply (moved_inv d HI e); auto; try by apply HI.
  - unfold row_ok in *; cbn; lia.
  - intros id. cbn [held_to_refunded e_HeldCents]. pose proof (inv_reserved _ HI id) as Hr.
    destruct (String.eqb_spec (e_ID e) id) as [<-|]; [|lia].
    rewrite (at_key_In e_ID e_HeldCents _ e (inv_ids d HI) He : held_of (e_ID e) d = _) in *. lia.
  - intros id. cbn [held_to_refunded e_ReleasedCents]. case_match; lia.
  - apply (two_legs_zero a); [unfold row_ok in *; lia|done..].
  - intros id. unfold funded_cents; cbn. symmetry. apply if_zero. lia.
  - intros c. cbn. symmetry. apply if_zero. lia.
  - intros c. cbn. case_match; lia.
  - unfold pool_debits, funded_cents; cbn. rewrite neg64_pos by (unfold row_ok in *; lia). lia.
Qed.

(** * Escrow accounts as pots of money

    The abstract contract of the escrow service: an account is four amounts
    (free, reserved, paid, refunded) and every operation moves money between
    two of them on one account, or does nothing.  [op_simulates] shows that the
    tables implement it. *)
(** ** Operations, uniformly *)

(** Two answers that agree as success or error. *)
Inductive same_answer {A B} : res escrow_err A -> res escrow_err B -> Prop :=
| same_ok a b : same_answer (Ok a) (Ok b)
| same_err e : same_answer (Err e) (Err e).

Definition op_outcome (op : escrow_op) (ev : env) (d : escrow_db)
  (r : res escrow_err unit) (d' : escrow_db) : Prop :=
  match op with
  | OpFund c a cur k => exists r0, same_answer r0 r /\ fund_outcome c a cur k ev d r0 d'
  | OpAllocate e m a => exists r0, same_answer r0 r /\ allocate_outcome e m a ev d r0 d'
  | OpReleaseMilestone e m _ => exists r0, same_answer r0 r /\ release_outcome e m ev d r0 d'
  | OpReleaseHours e w a => exists r0, same_answer r0 r /\ hours_outcome e w a ev d r0 d'
  | OpRefund e a s => exists r0, same_answer r0 r /\ refund_outcome e a s ev d r0 d'
  end.

Lemma wp_drop {A} (m : eprog A) ev w O :
  wp m ev w (ends O) ->
  wp (m ;;; ret tt) ev w (ends (fun r d' => exists r0, same_answer r0 r /\ O r0 d')).
Proof.
  intros Hm. apply wp_bind. eapply wp_mono; [exact Hm|].
  intros [a|e] w' [Hn HO]; [apply wp_ret|]; (split; [done|]); eexists; split; eauto; constructor.
Qed.

Lemma op_meets op ev d n :
  escrow_inv d -> op_in_range op ->
  wp (run_op op) ev (rest d n) (ends (op_outcome op ev d)).
Proof.
  intros HI Hr. destruct op; cbn [run_op op_outcome op_in_range] in *; apply wp_drop.
  - by apply fund_meets.
  - by apply allocate_meets.
  - by apply release_meets.
  - by apply hours_meets.
  - by apply refund_meets.
Qed.

Lemma for_milestone_escrow eid mid al : for_milestone eid mid al = true -> a_EscrowID al = eid.
Proof. by intros [?%String.eqb_eq _]%andb_true_iff. Qed.

(** A committed ReleaseHours: the reservation, then its release. *)
Lemma hours_effect_inv d e u wk a t g :
  escrow_inv d -> 0 < a <= int64_max -> In e (escrow_accounts d) ->
  (forall al, In al (escrow_allocations d) -> for_week (e_ID e) wk al = false) ->
  a <= held_of (e_ID e) d - held_sum (e_ID e) (escrow_allocations d) ->
  ~ In u (map a_ID (escrow_allocations d)) ->
  e_ReleasedCents e + a <= int64_max ->
  escrow_inv (release_effect e (new_allocation u (e_ID e) None (Some wk) a t) None (Some wk) t g
    (reserve_effect (new_allocation u (e_ID e) None (Some wk) a t) d)).
Proof.
  intros HI Ha He Hw Hav Hu Hmax. apply release_effect_inv; try done.
  - apply reserve_effect_inv; try done. by apply new_target_week.
  - apply in_app_iff. right. by left.
Qed.

Lemma op_outcome_inv op ev d r d' :
  escrow_inv d -> op_in_range op -> op_outcome op ev d r d' -> escrow_inv d'.
Proof.
  intros HI Hr. destruct op; cbn [op_outcome op_in_range] in *; intros (r0 & _ & HO);
    destruct HO; subst; auto.
  - by apply fund_effect_inv.
  - apply reserve_effect_inv; try done; [lia|by apply new_target_milestone].
  - apply release_effect_inv; eauto using for_milestone_escrow.
  - apply hours_effect_inv; auto; lia.
  - by apply refund_effect_inv.
Qed.

Lemma empty_escrow_inv : escrow_inv empty_escrow_db.
Proof. constructor; try done; constructor. Qed.

Lemma after_outcome {A} (m : eprog A) ev d n O :
  wp m ev (rest d n) (ends O) -> O (fst (m ev (rest d n))) (after m ev d n).
Proof. by intros [_ HO]. Qed.

(** Every reachable database satisfies the invariant. *)
Lemma reachable_inv d : escrow_reachable d -> escrow_inv d.
Proof.
  induction 1 as [|d op ev n Hd IH Hr]; [apply empty_escrow_inv|].
  eapply op_outcome_inv; [done|done|]. exact (after_outcome (run_op op) ev d n _ (op_meets op ev d n IH Hr)).
Qed.

(** ** Pots *)

Record pot := Pot { p_free : Z; p_reserved : Z; p_paid : Z; p_refunded : Z }.

Definition empty_pot : pot := Pot 0 0 0 0.

(** The pot of escrow account [id]. *)
Definition pot_of (id : string) (d : escrow_db) : pot :=
  Pot (held_of id d - held_sum id (escrow_allocations d))
      (held_sum id (escrow_allocations d))
      (at_key e_ID e_ReleasedCents id (escrow_accounts d))
      (at_key e_ID e_RefundedCents id (escrow_accounts d)).

(** What one operation may do to a pot: each move is covered by its source. *)
Inductive pot_step : escrow_op -> pot -> pot -> Prop :=
| pot_fund c a cur k f r p q : 0 < a ->
    pot_step (OpFund c a cur k) (Pot f r p q) (Pot (f + a) r p q)
| pot_reserve e m a f r p q : 0 < a <= f ->
    pot_step (OpAllocate e m a) (Pot f r p q) (Pot (f - a) (r + a) p q)
| pot_pay e m x a f r p q : 0 < a <= r ->
    pot_step (OpReleaseMilestone e m x) (Pot f r p q) (Pot f (r - a) (p + a) q)
| pot_pay_hours e w a f r p q : 0 < a <= f ->
    pot_step (OpReleaseHours e w a) (Pot f r p q) (Pot (f - a) r (p + a) q)
| pot_refund e a s f r p q : 0 < a <= f ->
    pot_step (OpRefund e a s) (Pot f r p q) (Pot (f - a) r p (q + a)).

(** The escrow account an operation is about. *)
Definition op_account (op : escrow_op) (d : escrow_db) (id : string) : Prop :=
  match op with
  | OpFund c _ _ _ => exists e, In e (escrow_accounts d) /\ e_ID e = id /\ e_ContractID e = c
  | OpAllocate e _ _ | OpReleaseMilestone e _ _ | OpReleaseHours e _ _ | OpRefund e _ _ => id = e
  end.

Definition simulated (op : escrow_op) (d d' : escrow_db) : Prop :=
  (forall id, pot_of id d' = pot_of id d) \/
  exists id, op_account op d' id /\ pot_step op (pot_of id d) (pot_of id d') /\
    forall id', id' <> id -> pot_of id' d' = pot_of id' d.

Lemma pot_eq f r p q f' r' p' q' :
  f = f' -> r = r' -> p = p' -> q = q' -> Pot f r p q = Pot f' r' p' q'.
Proof. by intros -> -> -> ->. Qed.

(** The pot of [id] after the account [e] became [f e]. *)
Lemma pot_of_moved e f allocs t g legs evt d id :
  escrow_inv d -> List.find (has_key e_ID (e_ID e)) (escrow_accounts d) = Some e ->
  e_ID (f e) = e_ID e ->
  let on x := if String.eqb (e_ID e) id then x else 0 in
  pot_of id (moved (e_ID e) f allocs t g legs evt d) =
  Pot (held_of id d + on (e_HeldCents (f e) - e_HeldCents e) - held_sum id allocs)
      (held_sum id allocs)
      (p_paid (pot_of id d) + on (e_ReleasedCents (f e) - e_ReleasedCents e))
      (p_refunded (pot_of id d) + on (e_RefundedCents (f e) - e_RefundedCents e)).
Proof.
  intros HI HF Hf on. unfold pot_of, held_of. cbn [moved escrow_accounts escrow_allocations p_paid p_refunded].
  by rewrite !(at_key_update e_ID e_ID _ _ _ _ _ e) by (done || apply (inv_ids d HI)).
Qed.

Lemma held_sum_release id al t l :
  keyed a_ID l -> In al l -> is_held al = true ->
  held_sum id (update_where (has_key a_ID (a_ID al)) (release_allocation t) l) =
  held_sum id l - (if String.eqb (a_EscrowID al) id then a_AmountCents al else 0).
Proof.
  intros Hk Hal Hh. unfold held_sum.
  rewrite (sumZ_update a_ID _ _ _ al) by (done || by apply keyed_find).
  cbn [release_allocation a_EscrowID a_AmountCents].
  change (is_held (release_allocation t al)) with false.
  rewrite Hh, andb_true_r, andb_false_r. lia.
Qed.

(** Moving the account [e]: the pots of the other accounts are unchanged, the
    one of [e] makes the step. *)
Lemma moved_simulated op e f allocs t g legs evt d0 d :
  escrow_inv d -> List.find (has_key e_ID (e_ID e)) (escrow_accounts d) = Some e ->
  e_ID (f e) = e_ID e ->
  (forall id, e_ID e <> id -> held_sum id allocs = held_sum id (escrow_allocations d)) ->
  (forall id, pot_of id d = pot_of id d0) ->
  op_account op (moved (e_ID e) f allocs t g legs evt d) (e_ID e) ->
  pot_step op (pot_of (e_ID e) d)
    (Pot (held_of (e_ID e) d + (e_HeldCents (f e) - e_HeldCents e) - held_sum (e_ID e) allocs)
         (held_sum (e_ID e) allocs)
         (p_paid (pot_of (e_ID e) d) + (e_ReleasedCents (f e) - e_ReleasedCents e))
         (p_refunded (pot_of (e_ID e) d) + (e_RefundedCents (f e) - e_RefundedCents e))) ->
  simulated op d0 (moved (e_ID e) f allocs t g legs evt d).
Proof.
  intros HI HF Hf Hs Hp Ho Hst. right. exists (e_ID e). split; [done|]. split.
  - rewrite pot_of_moved, <- Hp by done. by rewrite String.eqb_refl.
  - intros id Hid. rewrite pot_of_moved, <- Hp by done.
    rewrite (proj2 (String.eqb_neq _ _)), Hs by done. apply pot_eq; cbn; lia.
Qed.

Lemma in_update_key {R} (key : R -> string) f r l :
  In r l -> In (f r) (update_where (has_key key (key r)) f l).
Proof. intros Hr. apply in_map_iff. exists r. by rewrite has_key_refl. Qed.

Lemma pot_of_with_account u cid cur k t d id :
  escrow_inv d -> pot_of id (with_account u cid cur k t d) = pot_of id d.
Proof.
  intros HI. unfold pot_of, held_of; cbn [with_account escrow_accounts escrow_allocations].
  by rewrite !(at_key_open (key := e_ID)) by (done || apply (inv_contracts d HI)).
Qed.

Lemma fund_simulated u cid cur cur3 k k' a t g d :
  escrow_inv d -> 0 < a ->
  (List.find (has_key e_ContractID cid) (escrow_accounts d) = None ->
     ~ In u (map e_ID (escrow_accounts d))) ->
  simulated (OpFund cid a cur k') d (fund_effect u cid cur3 k a t g d).
Proof.
  intros HI Ha Hu. pose proof (find_opened u cid cur3 t _ (inv_ids d HI) Hu) as HF.
  pose proof (with_account_inv u cid cur3 k t d HI Hu) as HW.
  unfold fund_effect. cbn zeta.
  assert (e_ContractID (opened u cid cur3 t (escrow_accounts d)) = cid) as Hcid
    by by destruct (opened_cases u cid cur3 t (escrow_accounts d)) as [->|(?&?&<-&->)].
  set (e := opened u cid cur3 t (escrow_accounts d)) in *.
  change (e_ID (held_plus a t e)) with (e_ID e).
  apply (moved_simulated _ _ (held_plus a t)); try done.
  - intros id. by apply pot_of_with_account.
  - exists (held_plus a t e). cbn [moved escrow_accounts with_account].
    split; [|done]. apply in_update_key. by destruct (find_key_In HF).
  - unfold pot_of. cbn [escrow_allocations with_account held_plus e_HeldCents e_ReleasedCents e_RefundedCents
      p_paid p_refunded]. rewrite !Z.sub_diag, !Z.add_0_r.
    replace (_ + (_ + a - _) - _) with (held_of (e_ID e) (with_account u cid cur3 k t d)
      - held_sum (e_ID e) (escrow_allocations d) + a) by lia.
    by constructor.
Qed.

Lemma reserve_simulated u eid mid a t d :
  0 < a -> a <= held_of eid d - held_sum eid (escrow_allocations d) ->
  simulated (OpAllocate eid mid a) d (reserve_effect (new_allocation u eid (Some mid) None a t) d).
Proof.
  intros Ha Hav. right. exists eid. split; [done|].
  assert (forall id, held_sum id (escrow_allocations (reserve_effect (new_allocation u eid (Some mid) None a t) d))
    = held_sum id (escrow_allocations d) + (if String.eqb eid id then a else 0)) as Hs.
  { intros id. cbn [reserve_effect escrow_allocations]. rewrite held_sum_snoc.
    cbn [new_allocation a_EscrowID a_AmountCents].
    change (is_held (new_allocation u eid (Some mid) None a t)) with true. by rewrite andb_true_r. }
  unfold pot_of. split.
  - rewrite Hs, String.eqb_refl. change (held_of eid (reserve_effect _ d)) with (held_of eid d).
    cbn [reserve_effect escrow_accounts].
    replace (_ - (_ + a)) with (held_of eid d - held_sum eid (escrow_allocations d) - a) by lia.
    by constructor.
  - intros id Hid. rewrite Hs, (proj2 (String.eqb_neq _ _)), Z.add_0_r by done. done.
Qed.

Lemma release_simulated eid mid x e al wk t g d :
  escrow_inv d -> In e (escrow_accounts d) -> e_ID e = eid -> In al (escrow_allocations d) ->
  a_EscrowID al = eid -> is_held al = true ->
  simulated (OpReleaseMilestone eid mid x) d (release_effect e al (Some mid) wk t g d).
Proof.
  intros HI He <- Hal Hid Hh. unfold release_effect. cbn zeta.
  destruct (inv_allocs d HI al Hal) as [? _].
  pose proof (held_sum_ge (e_ID e) _ al (inv_allocs d HI) Hal Hid Hh).
  pose proof (fun id => held_sum_release id al t _ (inv_alloc_ids d HI) Hal Hh) as Hs.
  apply moved_simulated; try done.
  - by apply keyed_find; [apply (inv_ids d HI)|].
  - intros id Hne. rewrite Hs, Hid, (proj2 (String.eqb_neq _ _)) by done. lia.
  - rewrite Hs, Hid, String.eqb_refl. unfold pot_of.
    cbn [held_to_released e_HeldCents e_ReleasedCents e_RefundedCents p_paid p_refunded].
    set (s := held_sum _ _) in *. set (h := held_of _ _). set (c := e_HeldCents e).
    set (p := at_key e_ID e_ReleasedCents _ _). set (rp := e_ReleasedCents e).
    replace (h + (c - a_AmountCents al - c) - (s - a_AmountCents al)) with (h - s) by lia.
    replace (p + (rp + a_AmountCents al - rp)) with (p + a_AmountCents al) by lia.
    rewrite Z.sub_diag, Z.add_0_r. constructor. lia.
Qed.

(** A committed ReleaseHours moves from free to paid: the reservation it makes
    is released in the same transaction. *)
Lemma hours_simulated d e u wk a t g :
  escrow_inv d -> 0 < a <= int64_max -> In e (escrow_accounts d) ->
  (forall al, In al (escrow_allocations d) -> for_week (e_ID e) wk al = false) ->
  a <= held_of (e_ID e) d - held_sum (e_ID e) (escrow_allocations d) ->
  ~ In u (map a_ID (escrow_allocations d)) ->
  simulated (OpReleaseHours (e_ID e) wk a) d
    (release_effect e (new_allocation u (e_ID e) None (Some wk) a t) None (Some wk) t g
      (reserve_effect (new_allocation u (e_ID e) None (Some wk) a t) d)).
Proof.
  intros HI Ha He Hw Hav Hu. set (al := new_allocation u (e_ID e) None (Some wk) a t).
  assert (escrow_inv (reserve_effect al d)) as HR
    by (apply reserve_effect_inv; try done; by apply new_target_week).
  assert (In al (escrow_allocations (reserve_effect al d))) as Hal
    by (apply in_app_iff; right; by left).
  pose proof (fun id => held_sum_release id al t _ (inv_alloc_ids _ HR) Hal eq_refl) as Hs.
  assert (forall id, held_sum id (update_where (has_key a_ID (a_ID al)) (release_allocation t)
            (escrow_allocations (reserve_effect al d))) = held_sum id (escrow_allocations d)) as Hs'.
  { intros id. rewrite Hs. cbn [reserve_effect escrow_allocations]. rewrite held_sum_snoc.
    change (is_held al) with true. rewrite andb_true_r. case_match; lia. }
  right. exists (e_ID e). split; [done|].
  pose proof (keyed_find e_ID _ e (inv_ids d HI) He) as HF.
  assert (forall id, pot_of id (release_effect e al None (Some wk) t g (reserve_effect al d)) =
    let on x := if String.eqb (e_ID e) id then x else 0 in
    Pot (p_free (pot_of id d) - on a) (p_reserved (pot_of id d)) (p_paid (pot_of id d) + on a)
      (p_refunded (pot_of id d))) as HP.
  { intros id. unfold release_effect. cbn zeta. rewrite pot_of_moved, Hs' by done.
    unfold pot_of. cbn [held_to_released e_HeldCents e_ReleasedCents e_RefundedCents p_free p_reserved p_paid p_refunded].
    change (held_of id (reserve_effect al d)) with (held_of id d).
    cbn [reserve_effect escrow_accounts]. change (a_AmountCents al) with a.
    apply pot_eq; repeat case_match; lia. }
  split; [|intros id Hid]; rewrite HP; cbn zeta.
  - rewrite String.eqb_refl. unfold pot_of; cbn [p_free p_reserved p_paid p_refunded].
    constructor. lia.
  - rewrite (proj2 (String.eqb_neq _ _)) by done. unfold pot_of; cbn [p_free p_reserved p_paid p_refunded].
    apply pot_eq; lia.
Qed.

Lemma refund_simulated d e a reason t g :
  escrow_inv d -> In e (escrow_accounts d) -> 0 < a ->
  a <= held_of (e_ID e) d - held_sum (e_ID e) (escrow_allocations d) ->
  simulated (OpRefund (e_ID e) a reason) d (refund_effect e a reason t g d).
Proof.
  intros HI He Ha Hav. unfold refund_effect. cbn zeta. apply moved_simulated; try done.
  - by apply keyed_find; [apply (inv_ids d HI)|].
  - unfold pot_of. cbn [held_to_refunded e_HeldCents e_ReleasedCents e_RefundedCents p_paid p_refunded].
    set (s := held_sum _ _) in *. set (h := held_of _ _) in *. set (c := e_HeldCents e).
    set (q := at_key e_ID e_RefundedCents _ _). set (rq := e_RefundedCents e).
    replace (h + (c - a - c) - s) with (h - s - a) by lia.
    replace (q + (rq + a - rq)) with (q + a) by lia.
    rewrite Z.sub_diag, Z.add_0_r. constructor. lia.
Qed.

Lemma op_simulates op ev d r d' :
  escrow_inv d -> op_in_range op -> op_outcome op ev d r d' -> simulated op d d'.
Proof.
  intros HI Hr. destruct op; cbn [op_outcome op_in_range] in *; intros (r0 & _ & HO);
    destruct HO; subst; try (by left).
  - by eapply fund_simulated.
  - by apply reserve_simulated.
  - apply release_simulated; eauto using for_milestone_escrow.
  - apply hours_simulated; auto; lia.
  - by apply refund_simulated.
Qed.
