(* ===== verification/EscrowProofs.v ===== *)
(** * Properties of the escrow service

    Theorems about the operations of services/escrow, each with a witness at a
    concrete database where it has hypotheses. *)
From S2P Require Export EscrowInv.

(** ** Traces of operations *)

Fixpoint run_ops (l : list (escrow_op * env * nat)) (d : escrow_db) : escrow_db :=
  match l with
  | [] => d
  | (op, ev, n) :: l' => run_ops l' (after (run_op op) ev d n)
  end.

Definition ops_in_range (l : list (escrow_op * env * nat)) : Prop :=
  Forall (fun x => op_in_range (fst (fst x))) l.

Lemma run_ops_preserves (P : escrow_db -> Prop) l d :
  (forall op ev d r d', escrow_inv d -> op_in_range op -> op_outcome op ev d r d' -> P d -> P d') ->
  escrow_inv d -> ops_in_range l -> P d -> escrow_inv (run_ops l d) /\ P (run_ops l d).
Proof.
  intros HP HI Hl. revert d HI. induction Hl as [|[[op ev] n] l Hop _ IH]; intros d HI Hd; [done|].
  pose proof (after_outcome (run_op op) ev d n _ (op_meets op ev d n HI Hop)) as HO.
  cbn. apply IH; eauto using op_outcome_inv.
Qed.

Lemma run_ops_reachable l d :
  escrow_reachable d -> ops_in_range l -> escrow_reachable (run_ops l d).
Proof.
  intros Hd Hl. revert d Hd. induction Hl as [|[[op ev] n] l Hop _ IH]; intros d Hd; [done|].
  cbn. apply IH. by constructor.
Qed.

(** Funding keys are never deleted. *)
Lemma outcome_keys op ev d r d' : op_outcome op ev d r d' ->
  exists new, fund_keys d' = fund_keys d ++ new.
Proof.
  destruct op; cbn; intros (r0 & _ & HO); destruct HO;
    try (exists []; by rewrite app_nil_r).
  cbn. destruct (String.eqb _ _); [exists []; by rewrite app_nil_r|eauto].
Qed.

Lemma key_used_app c k l1 l2 : key_used c k l1 = true -> key_used c k (l1 ++ l2) = true.
Proof. unfold key_used. rewrite existsb_app. by intros ->. Qed.

(** A funding that changed the tables recorded its key. *)
Lemma fund_records_key cid a cur k ev d r d' :
  escrow_inv d -> k <> "" -> fund_outcome cid a cur k ev d r d' -> d' <> d ->
  escrow_inv d' /\ key_used cid k (fund_keys d') = true.
Proof.
  intros HI Hk HO Hne. inversion HO; subst; try congruence. split; [by apply fund_effect_inv|].
  cbn. rewrite (proj2 (String.eqb_neq _ _) Hk). unfold key_used. rewrite existsb_app. cbn.
  by rewrite !String.eqb_refl, orb_true_r.
Qed.

(** A recorded key makes FundEscrow a replay. *)
Lemma fund_used_key cid a cur k ev d r d' :
  k <> "" -> key_used cid k (fund_keys d) = true -> fund_outcome cid a cur k ev d r d' -> d' = d.
Proof.
  intros Hk Hu HO. inversion HO as [| | | | | | |? ? ? ? ? ? ? Hn]; try done.
  rewrite Hn in Hu by done. done.
Qed.

(** A released allocation is final. *)
Lemma released_final op ev d r d' al :
  escrow_inv d -> op_outcome op ev d r d' ->
  In al (escrow_allocations d) -> is_released al = true -> In al (escrow_allocations d').
Proof.
  assert (forall t al0 l, is_released al = true -> In al l -> keyed a_ID l -> In al0 l ->
    is_held al0 = true -> In al (update_where (has_key a_ID (a_ID al0)) (release_allocation t) l)) as Hup.
  { intros t al0 l Hr Hal Hk H0 Hh. apply in_map_iff. exists al. split; [|done].
    destruct (has_key a_ID (a_ID al0) al) eqn:K; [|done]. apply has_key_true in K.
    assert (al = al0) as -> by by eapply (keyed_inj a_ID).
    unfold is_released, is_held in *. apply String.eqb_eq in Hh. by rewrite Hh in Hr. }
  intros HI HO Hal Hr. destruct op; cbn in HO; destruct HO as (r0 & _ & HO); destruct HO; try done.
  - apply in_app_iff. by left.
  - apply Hup; auto. apply (inv_alloc_ids d HI).
  - apply Hup; try done.
    + apply in_app_iff. by left.
    + apply keyed_snoc; [apply (inv_alloc_ids d HI)|done].
    + apply in_app_iff. right. by left.
Qed.

(** At most one allocation per milestone. *)
Lemma milestone_unique d eid mid al x :
  escrow_inv d -> In al (escrow_allocations d) -> for_milestone eid mid al = true ->
  In x (escrow_allocations d) -> for_milestone eid mid x = true -> x = al.
Proof.
  intros HI Hal Hm Hx Hxm. apply (inv_targets d HI); [done..|].
  unfold for_milestone, same_target in *.
  apply andb_true_iff in Hm as [->%String.eqb_eq Hm], Hxm as [->%String.eqb_eq Hxm].
  rewrite String.eqb_refl. destruct (a_MilestoneID al), (a_MilestoneID x); try done.
  apply String.eqb_eq in Hm as ->, Hxm as ->. cbn. by rewrite String.eqb_refl.
Qed.

(** ** Concrete databases, for the witnesses *)

Definition demo_ops : list (escrow_op * env * nat) :=
  [(OpFund "c1" 1000 "" "k1", quiet_env, 0%nat);
   (OpAllocate "id-x" "m1" 400, quiet_env, 20%nat)].

Definition demo_db : escrow_db := Eval vm_compute in run_ops demo_ops empty_escrow_db.

Lemma demo_reachable : escrow_reachable demo_db.
Proof.
  change demo_db with (run_ops demo_ops empty_escrow_db).
  apply run_ops_reachable; [constructor|].
  repeat constructor; cbn; unfold int64_min, int64_max; lia.
Qed.

Definition paid_db : escrow_db :=
  Eval vm_compute in after (run_op (OpReleaseMilestone "id-x" "m1" 0)) quiet_env demo_db 40.

Lemma paid_reachable : escrow_reachable paid_db.
Proof.
  change paid_db with (after (run_op (OpReleaseMilestone "id-x" "m1" 0)) quiet_env demo_db 40).
  constructor; [apply demo_reachable|]. cbn. unfold int64_min, int64_max; lia.
Qed.

(** The rest paid too, then funded again. *)
Definition stale_ops : list (escrow_op * env * nat) :=
  [(OpAllocate "id-x" "m2" 600, quiet_env, 60%nat);
   (OpReleaseMilestone "id-x" "m2" 600, quiet_env, 80%nat);
   (OpFund "c1" 5 "" "k2", quiet_env, 100%nat)].

Definition stale_db : escrow_db := Eval vm_compute in run_ops stale_ops paid_db.

Lemma stale_reachable : escrow_reachable stale_db.
Proof.
  change stale_db with (run_ops stale_ops paid_db).
  apply run_ops_reachable; [apply paid_reachable|].
  repeat constructor; cbn; unfold int64_min, int64_max; lia.
Qed.

(** ** Specification and invariant *)

(** Refinement of the operations. From any reachable database, under any
    schedule of driver faults, lost acknowledgements and generated ids, each
    call of the escrow service closes its transaction and ends in one of the
    outcomes of its specification: a listed error with the tables untouched, or
    the whole effect (balances, allocation, ledger legs and outbox event). *)
Theorem escrow_ops_meet_spec d op ev n r w :
  escrow_reachable d -> op_in_range op -> run_op op ev (rest d n) = (r, w) ->
  txs w = NoTx /\ op_outcome op ev d r (committed w).
Proof.
  intros Hd Hr Hrun.
  exact (wp_run _ _ _ _ _ _ Hrun (op_meets op ev d n (reachable_inv d Hd) Hr)).
Qed.

Lemma escrow_ops_meet_spec_witness :
  let op := OpReleaseMilestone "id-x" "m1" 0 in
  let out := run_op op quiet_env (rest demo_db 40) in
  txs (snd out) = NoTx /\ op_outcome op quiet_env demo_db (fst out) (committed (snd out)).
Proof.
  cbv zeta. eapply escrow_ops_meet_spec;
    [apply demo_reachable|cbn; unfold int64_min, int64_max; lia|apply surjective_pairing].
Defined.

(** C1: Ledger reconciliation. In every reachable database every ledger group
    sums to zero, the ledger sub-account of every escrow account holds exactly
    held + released + refunded, what the ledger credits to the freelancer of a
    contract is what the account released, and the reservations of an account
    never exceed its held balance. *)
Theorem escrow_ledger_reconciles d e :
  escrow_reachable d -> In e (escrow_accounts d) ->
  (forall g, group_sum g (escrow_ledger d) = 0) /\
  balance (sub_account (e_ID e)) (escrow_ledger d) =
    e_HeldCents e + e_ReleasedCents e + e_RefundedCents e /\
  balance (kind_of_contract "freelancer_balance" (e_ContractID e)) (escrow_ledger d) =
    e_ReleasedCents e /\
  balance (kind_of_contract "refunds" (e_ContractID e)) (escrow_ledger d) = e_RefundedCents e /\
  released_sum (e_ID e) (escrow_allocations d) = e_ReleasedCents e /\
  0 <= held_sum (e_ID e) (escrow_allocations d) <= e_HeldCents e.
Proof.
  intros Hd He. pose proof (reachable_inv d Hd) as HI. repeat split.
  - apply (inv_balanced d HI).
  - rewrite (inv_sub_account d HI). by apply (at_key_In e_ID), He; apply (inv_ids d HI).
  - rewrite (inv_freelancer d HI). by apply (at_key_In e_ContractID), He; apply (inv_contracts d HI).
  - rewrite (inv_refunds d HI). by apply (at_key_In e_ContractID), He; apply (inv_contracts d HI).
  - rewrite (inv_released d HI). by apply (at_key_In e_ID), He; apply (inv_ids d HI).
  - apply held_sum_nonneg, (inv_allocs d HI).
  - rewrite (inv_reserved d HI). unfold held_of.
    by rewrite (at_key_In e_ID _ _ e) by (done || apply (inv_ids d HI)).
Qed.

Lemma escrow_ledger_reconciles_witness :
  balance (sub_account "id-x") (escrow_ledger paid_db) = 600 + 400 + 0.
Proof.
  destruct (escrow_ledger_reconciles paid_db (nth 0 (escrow_accounts paid_db) (new_escrow "" "" "" 0)))
    as (_ & H & _); [apply paid_reachable|by left|exact H].
Defined.

(** C2: The pots refinement. Seen as four amounts per account (free, reserved,
    paid, refunded), every call either changes nothing or makes one covered
    move on the one account it names: money is created only by funding, leaves
    the reserve only to be paid, and no other account changes. *)
Theorem escrow_refines_pots d op ev n :
  escrow_reachable d -> op_in_range op -> simulated op d (after (run_op op) ev d n).
Proof.
  intros Hd Hr. eapply op_simulates; [by apply reachable_inv|done|].
  exact (after_outcome (run_op op) ev d n _ (op_meets op ev d n (reachable_inv d Hd) Hr)).
Qed.

Lemma escrow_refines_pots_witness :
  simulated (OpReleaseMilestone "id-x" "m1" 0) demo_db paid_db /\
  pot_of "id-x" demo_db = Pot 600 400 0 0 /\ pot_of "id-x" paid_db = Pot 600 0 400 0.
Proof.
  split; [|by vm_compute].
  change paid_db with (after (run_op (OpReleaseMilestone "id-x" "m1" 0)) quiet_env demo_db 40).
  apply escrow_refines_pots; [apply demo_reachable|cbn; unfold int64_min, int64_max; lia].
Defined.

(** C3: Funding is exactly-once per idempotency key. Once a FundEscrow with a
    key took effect (even when its acknowledgement was lost), then whatever
    operations run in between, under whatever faults, a later FundEscrow with
    that contract and key leaves the database as it is. *)
Theorem fund_exactly_once d cid a cur k ev n ops a' cur' ev' n' :
  escrow_reachable d -> int64_min <= a <= int64_max -> int64_min <= a' <= int64_max ->
  k <> "" -> ops_in_range ops ->
  after (FundEscrow cid a cur k) ev d n <> d ->
  let d2 := run_ops ops (after (FundEscrow cid a cur k) ev d n) in
  after (FundEscrow cid a' cur' k) ev' d2 n' = d2.
Proof.
  intros Hd Ha Ha' Hk Hops Hne d2. pose proof (reachable_inv d Hd) as HI.
  pose proof (after_outcome _ ev d n _ (fund_meets ev d n HI cid a cur k Ha)) as HO.
  destruct (fund_records_key _ _ _ _ _ _ _ _ HI Hk HO Hne) as [HI1 Hu1].
  destruct (run_ops_preserves (fun d => key_used cid k (fund_keys d) = true) ops
    (after (FundEscrow cid a cur k) ev d n)) as [HI2 Hu2]; auto.
  { intros op ev0 x r x' _ _ Hx Hu. destruct (outcome_keys op ev0 x r x' Hx) as [new ->].
    by apply key_used_app. }
  pose proof (after_outcome _ ev' d2 n' _ (fund_meets ev' d2 n' HI2 cid a' cur' k Ha')) as HO2.
  by eapply fund_used_key.
Qed.

Lemma fund_exactly_once_witness :
  let d2 := run_ops [(OpAllocate "id-x" "m1" 400, quiet_env, 20%nat)]
              (after (FundEscrow "c1" 1000 "" "k1") quiet_env empty_escrow_db 0) in
  after (FundEscrow "c1" 1000 "" "k1") quiet_env d2 50 = d2.
Proof.
  apply (fund_exactly_once empty_escrow_db "c1" 1000 "" "k1" quiet_env 0).
  - constructor.
  - unfold int64_min, int64_max; lia.
  - unfold int64_min, int64_max; lia.
  - discriminate.
  - repeat constructor; cbn; unfold int64_min, int64_max; lia.
  - intros H. apply (f_equal (fun d => length (fund_keys d))) in H. vm_compute in H. discriminate.
Defined.

(** Funding succeeds. With no driver fault, a positive amount, a currency
    that fits CHAR(3), a fresh key and generated id, and room in the BIGINT
    column, FundEscrow answers the account with the amount added and commits
    its whole effect. *)
Theorem fund_succeeds d cid a cur cur3 k ev n :
  escrow_reachable d -> calm ev -> 0 < a <= int64_max ->
  bpchar 3 (currency_or_usd cur) = Some cur3 ->
  key_used cid k (fund_keys d) = false ->
  (forall m, ~ In (gen_uuid ev m) (map e_ID (escrow_accounts d))) ->
  (forall e, In e (escrow_accounts d) -> e_ContractID e = cid -> e_HeldCents e + a <= int64_max) ->
  exists u t g, let e := opened u cid cur3 t (escrow_accounts d) in
    fst (FundEscrow cid a cur k ev (rest d n)) = Ok (held_plus a t e) /\
    after (FundEscrow cid a cur k) ev d n = fund_effect u cid cur3 k a t g d.
Proof.
  intros Hd Hc Ha Hcur Hk Hu Hmax. pose proof (reachable_inv d Hd) as HI.
  pose proof (after_outcome _ ev d n _ (fund_meets ev d n HI cid a cur k
    ltac:(unfold int64_min, int64_max in *; lia))) as HO.
  revert HO. generalize (fst (FundEscrow cid a cur k ev (rest d n))),
    (after (FundEscrow cid a cur k) ev d n). intros r d' HO.
  destruct HO; try done; try congruence; try lia.
  - exfalso. by eapply Hu.
  - pose proof (Hmax e ltac:(done) ltac:(done)). lia.
  - exists u, t, g. assert (cur0 = cur3) as -> by congruence.
    by match goal with H : committed_answer _ _ _ |- _ => destruct H as [->|[_ ?]] end.
Qed.

Lemma fund_succeeds_witness :
  exists u t g, let e := opened u "c1" "USD" t [] in
    fst (FundEscrow "c1" 1000 "" "k1" quiet_env (rest empty_escrow_db 0)) = Ok (held_plus 1000 t e) /\
    after (FundEscrow "c1" 1000 "" "k1") quiet_env empty_escrow_db 0 =
      fund_effect u "c1" "USD" "k1" 1000 t g empty_escrow_db.
Proof.
  apply fund_succeeds; try done; [constructor|by intros m []].
Defined.

(** C8: Errors have no effect. A call of any escrow operation that reports an
    error other than a failure of the driver left the database exactly as it
    was: no balance, allocation, ledger leg, key or event of a failed call
    survives. *)
Theorem escrow_errors_have_no_effect d op ev n e w :
  escrow_reachable d -> op_in_range op ->
  run_op op ev (rest d n) = (Err e, w) -> e <> Db Driver -> committed w = d.
Proof.
  intros Hd Hr Hrun Hne.
  pose proof (wp_run _ _ _ _ _ _ Hrun (op_meets op ev d n (reachable_inv d Hd) Hr)) as [_ HO].
  assert (forall A (a : A) r, committed_answer ev a r -> @same_answer _ unit r (Err e) -> False) as Hc.
  { intros A a r [->|[-> _]] Hs; inversion Hs; congruence. }
  destruct op; cbn in HO; destruct HO as (r0 & Hs & HO); destruct HO; try done;
    exfalso; by eapply Hc.
Qed.

Lemma escrow_errors_have_no_effect_witness :
  committed (snd (run_op (OpAllocate "id-x" "m2" 601) quiet_env (rest demo_db 50))) = demo_db.
Proof.
  eapply escrow_errors_have_no_effect with
    (op := OpAllocate "id-x" "m2" 601) (ev := quiet_env) (e := Dom ErrInsufficientFunds);
    [apply demo_reachable|cbn; unfold int64_min, int64_max; lia| |done].
  vm_compute. reflexivity.
Defined.

(** C7: A milestone is paid at most once. Once an allocation of a milestone is
    released it stays as it is for ever, it remains the only allocation of that
    milestone, and every later ReleaseMilestone of it is refused with the
    database unchanged, whatever ran in between and whatever fails. *)
Theorem milestone_paid_at_most_once d ops eid mid al amount ev n :
  escrow_reachable d -> ops_in_range ops ->
  In al (escrow_allocations d) -> for_milestone eid mid al = true -> is_released al = true ->
  let d' := run_ops ops d in
  In al (escrow_allocations d') /\
  (forall x, In x (escrow_allocations d') -> for_milestone eid mid x = true -> x = al) /\
  is_ok (fst (ReleaseMilestone eid mid amount ev (rest d' n))) = false /\
  after (ReleaseMilestone eid mid amount) ev d' n = d'.
Proof.
  intros Hd Hops Hal Hm Hr d'.
  destruct (run_ops_preserves (fun d => In al (escrow_allocations d)) ops d) as [HI' Hal'];
    eauto using reachable_inv.
  { intros; by eapply released_final. }
  assert (forall x, In x (escrow_allocations d') -> for_milestone eid mid x = true -> x = al) as Hone by (intros; by eapply milestone_unique).
  split; [done|]. split; [done|].
  pose proof (after_outcome _ ev d' n _ (release_meets ev d' n HI' eid mid amount)) as HO.
  revert HO. generalize (fst (ReleaseMilestone eid mid amount ev (rest d' n))),
    (after (ReleaseMilestone eid mid amount) ev d' n). intros r dd HO.
  destruct HO; try done.
  exfalso. assert (al0 = al) as -> by auto. unfold is_released, is_held in *.
  apply String.eqb_eq in Hr. by rewrite Hr in *.
Qed.

Lemma milestone_paid_at_most_once_witness :
  let d' := run_ops [(OpFund "c1" 500 "" "k2", quiet_env, 60%nat)] paid_db in
  is_ok (fst (ReleaseMilestone "id-x" "m1" 400 quiet_env (rest d' 90))) = false /\
  after (ReleaseMilestone "id-x" "m1" 400) quiet_env d' 90 = d'.
Proof.
  intros d'.
  destruct (milestone_paid_at_most_once paid_db [(OpFund "c1" 500 "" "k2", quiet_env, 60%nat)]
    "id-x" "m1" (nth 0 (escrow_allocations paid_db) (new_allocation "" "" None None 0 0))
    400 quiet_env 90) as (_ & _ & H).
  - apply paid_reachable.
  - repeat constructor; cbn; unfold int64_min, int64_max; lia.
  - by left.
  - reflexivity.
  - reflexivity.
  - exact H.
Defined.

(** Release succeeds. With no driver fault and room in the released column,
    releasing a milestone that has a held allocation answers the account with
    that allocation's amount moved from held to released and commits the whole
    effect; the caller's own amount is irrelevant. *)
Theorem release_succeeds d e al mid amount ev n :
  escrow_reachable d -> calm ev ->
  In e (escrow_accounts d) -> In al (escrow_allocations d) ->
  for_milestone (e_ID e) mid al = true -> is_held al = true ->
  e_ReleasedCents e + a_AmountCents al <= int64_max ->
  exists t g,
    fst (ReleaseMilestone (e_ID e) mid amount ev (rest d n)) =
      Ok (held_to_released (a_AmountCents al)
            (statusAfterRelease (sub64 (e_HeldCents e) (a_AmountCents al))) t e) /\
    after (ReleaseMilestone (e_ID e) mid amount) ev d n = release_effect e al (Some mid) None t g d.
Proof.
  intros Hd Hc He Hal Hm Hh Hmax. pose proof (reachable_inv d Hd) as HI.
  pose proof (after_outcome _ ev d n _ (release_meets ev d n HI (e_ID e) mid amount)) as HO.
  revert HO. generalize (fst (ReleaseMilestone (e_ID e) mid amount ev (rest d n))),
    (after (ReleaseMilestone (e_ID e) mid amount) ev d n). intros r dd HO.
  pose proof (fun x => keyed_inj e_ID (escrow_accounts d) x e (inv_ids d HI)) as Hone.
  destruct HO as [|HF|Hno|e' al' He' Hid Hal' Hm' Hh' Ho|r e' al' t g He' Hid Hal' Hm' Hh' Ho Hr];
    try done.
  - apply find_key_None in HF. destruct HF. by apply in_map.
  - specialize (Hno al Hal). by rewrite Hm, Hh in Hno.
  - assert (al' = al) as -> by (by eapply milestone_unique).
    assert (e' = e) as -> by auto. lia.
  - assert (al' = al) as -> by (by eapply milestone_unique).
    assert (e' = e) as -> by auto. exists t, g. by destruct Hr as [->|[_ ?]].
Qed.

Lemma release_succeeds_witness :
  exists t g,
    fst (ReleaseMilestone "id-x" "m1" 7 quiet_env (rest demo_db 40)) =
      Ok (held_to_released 400 "partially_released" t (nth 0 (escrow_accounts demo_db) (new_escrow "" "" "" 0))) /\
    after (ReleaseMilestone "id-x" "m1" 7) quiet_env demo_db 40 =
      release_effect (nth 0 (escrow_accounts demo_db) (new_escrow "" "" "" 0))
        (nth 0 (escrow_allocations demo_db) (new_allocation "" "" None None 0 0)) (Some "m1") None t g demo_db.
Proof.
  apply (release_succeeds demo_db (nth 0 (escrow_accounts demo_db) (new_escrow "" "" "" 0))
           (nth 0 (escrow_allocations demo_db) (new_allocation "" "" None None 0 0)) "m1" 7 quiet_env 40).
  - apply demo_reachable.
  - intros m. reflexivity.
  - by left.
  - by left.
  - reflexivity.
  - reflexivity.
  - cbn. unfold int64_max. lia.
Defined.

(** The pooled ledger account. In every reachable database the balance of
    the ledger account [escrow] is minus the sum over the accounts of everything
    funded, released and refunded: funding debits it, and so do release and
    refund, although the comment on FundEscrow describes a net credit that
    stays there until the money leaves. *)
Theorem escrow_pool_balance d :
  escrow_reachable d ->
  balance (of_kind "escrow") (escrow_ledger d) =
  - sumZ (fun e => (e_HeldCents e + e_ReleasedCents e + e_RefundedCents e)
                   + e_ReleasedCents e + e_RefundedCents e) (escrow_accounts d).
Proof. intros Hd. apply (inv_pool d (reachable_inv d Hd)). Qed.

Lemma escrow_pool_balance_witness :
  balance (of_kind "escrow") (escrow_ledger paid_db) = - 1400.
Proof. exact (escrow_pool_balance paid_db paid_reachable). Defined.

(** The status column lags behind the balances. Funding does not reset the
    status, so the service reaches a database whose account is marked
    'released' while it holds money. *)
Theorem escrow_status_stale :
  exists d e, escrow_reachable d /\ In e (escrow_accounts d) /\
    e_Status e = "released" /\ 0 < e_HeldCents e.
Proof.
  exists stale_db, (nth 0 (escrow_accounts stale_db) (new_escrow "" "" "" 0)).
  split; [apply stale_reachable|]. split; [by left|by vm_compute].
Qed.
