(* ===== verification/EscrowHttp.v ===== *)
(** * Escrow REST transport (services/escrow/internal/httpapi)

    The handlers of the escrow API: identity header, body decoding, the lookup
    that authorizes the caller against the contract, the call of the service
    and the mapping of its error to a status. *)
From S2P Require Export EscrowProofs ContractParties.

Section Api.
Context (net : transport) (baseURL : string).

Definition mapError (e : err escrow_err) : response :=
  match e with
  | Dom ErrNotFound => writeErr 404 "NOT_FOUND" "resource not found"
  | Dom ErrInsufficientFunds => writeErr 409 "INSUFFICIENT_FUNDS" "insufficient escrow funds"
  | _ => writeErr 500 "INTERNAL" "internal error"
  end.

Definition resolveParties (contractID : string) : step (D := escrow_db) (E := escrow_err) Parties :=
  p <- Get net baseURL contractID ;;
  match p with
  | inr _ => reply_with (writeErr 403 "FORBIDDEN" "cannot authorize against contract")
  | inl p => go_on p
  end.

Definition requireClient (uid contractID : string) : step (D := escrow_db) (E := escrow_err) unit :=
  step_bind (resolveParties contractID) (fun p =>
    if negb (String.eqb uid (ClientID p))
    then reply_with (writeErr 403 "FORBIDDEN" "only the contract client may perform this operation")
    else go_on tt).

Definition requireParty (uid contractID : string) : step (D := escrow_db) (E := escrow_err) unit :=
  step_bind (resolveParties contractID) (fun p =>
    if negb (IsParty p uid)
    then reply_with (writeErr 403 "FORBIDDEN" "not a party to this contract")
    else go_on tt).

Definition contractIDForEscrow (escrowID : string) : step (D := escrow_db) (E := escrow_err) string :=
  step_bind (or_mapped mapError (GetEscrow escrowID)) (fun e => go_on (e_ContractID e)).

Definition escrowDTO (e : Escrow) : json :=
  JObj [("escrow_id", JStr (e_ID e)); ("contract_id", JStr (e_ContractID e));
        ("currency", JStr (e_Currency e)); ("held_cents", JInt (e_HeldCents e));
        ("released_cents", JInt (e_ReleasedCents e)); ("refunded_cents", JInt (e_RefundedCents e));
        ("status", JStr (e_Status e)); ("created_at", JTime (e_CreatedAt e));
        ("updated_at", JTime (e_UpdatedAt e))].

Definition allocationDTO (a : Allocation) : json :=
  JObj [("allocation_id", JStr (a_ID a)); ("escrow_id", JStr (a_EscrowID a));
        ("milestone_id", jopt JStr (a_MilestoneID a)); ("billing_week", jopt JStr (a_BillingWeek a));
        ("amount_cents", JInt (a_AmountCents a)); ("status", JStr (a_Status a));
        ("created_at", JTime (a_CreatedAt a)); ("released_at", jopt JTime (a_ReleasedAt a))].

(** fundReq *)
Record fundReq := mkFundReq {
  fr_ContractID : string;
  fr_AmountCents : Z;
  fr_Currency : string;
  fr_IdempotencyKey : string
}.

Definition decode_fundReq (o : list (string * json)) : option fundReq :=
  match str_field "contract_id" o, int_field "amount_cents" o,
        str_field "currency" o, str_field "idempotency_key" o with
  | Some c, Some a, Some cur, Some k => Some (mkFundReq c a cur k)
  | _, _, _, _ => None
  end.

Definition fund (r : request) : eprog response :=
  uid <-? requireUser r ;;
  req <-? decode decode_fundReq r ;;
  if String.eqb (fr_ContractID req) ""
  then ret (writeErr 400 "MISSING_PARAM" "contract_id is required") else
  _ <-? requireClient uid (fr_ContractID req) ;;
  e <-? or_mapped mapError (FundEscrow (fr_ContractID req) (fr_AmountCents req)
                              (fr_Currency req) (fr_IdempotencyKey req)) ;;
  ret (writeJSON 201 (escrowDTO e)).

Definition getEscrow (r : request) : eprog response :=
  uid <-? requireUser r ;;
  let id := urlParam r "id" in
  contractID <-? contractIDForEscrow id ;;
  _ <-? requireParty uid contractID ;;
  e <-? or_mapped mapError (GetEscrow id) ;;
  ret (writeJSON 200 (escrowDTO e)).

Definition getByContract (r : request) : eprog response :=
  uid <-? requireUser r ;;
  let contractID := query r "contract_id" in
  if String.eqb contractID ""
  then ret (writeErr 400 "MISSING_PARAM" "contract_id is required") else
  _ <-? requireParty uid contractID ;;
  e <-? or_mapped mapError (GetEscrowByContract contractID) ;;
  ret (writeJSON 200 (escrowDTO e)).

(** allocateReq, releaseMilestoneReq: milestone_id, amount_cents *)
Definition decode_milestoneReq (o : list (string * json)) : option (string * Z) :=
  match str_field "milestone_id" o, int_field "amount_cents" o with
  | Some m, Some a => Some (m, a)
  | _, _ => None
  end.

Definition allocate (r : request) : eprog response :=
  uid <-? requireUser r ;;
  req <-? decode decode_milestoneReq r ;;
  if String.eqb (fst req) ""
  then ret (writeErr 400 "MISSING_PARAM" "milestone_id is required") else
  let id := urlParam r "id" in
  contractID <-? contractIDForEscrow id ;;
  _ <-? requireClient uid contractID ;;
  alloc <-? or_mapped mapError (AllocateToMilestone id (fst req) (snd req)) ;;
  ret (writeJSON 201 (allocationDTO alloc)).

Definition releaseMilestone (r : request) : eprog response :=
  uid <-? requireUser r ;;
  req <-? decode decode_milestoneReq r ;;
  if String.eqb (fst req) ""
  then ret (writeErr 400 "MISSING_PARAM" "milestone_id is required") else
  let id := urlParam r "id" in
  contractID <-? contractIDForEscrow id ;;
  _ <-? requireClient uid contractID ;;
  e <-? or_mapped mapError (ReleaseMilestone id (fst req) (snd req)) ;;
  ret (writeJSON 200 (escrowDTO e)).

(** releaseHoursReq: billing_week, amount_cents *)
Definition decode_releaseHoursReq (o : list (string * json)) : option (string * Z) :=
  match str_field "billing_week" o, int_field "amount_cents" o with
  | Some w, Some a => Some (w, a)
  | _, _ => None
  end.

Definition releaseHours (r : request) : eprog response :=
  uid <-? requireUser r ;;
  req <-? decode decode_releaseHoursReq r ;;
  if String.eqb (fst req) ""
  then ret (writeErr 400 "MISSING_PARAM" "billing_week is required") else
  let id := urlParam r "id" in
  contractID <-? contractIDForEscrow id ;;
  _ <-? requireClient uid contractID ;;
  e <-? or_mapped mapError (ReleaseHours id (fst req) (snd req)) ;;
  ret (writeJSON 200 (escrowDTO e)).

(** refundReq: amount_cents, reason *)
Definition decode_refundReq (o : list (string * json)) : option (Z * string) :=
  match int_field "amount_cents" o, str_field "reason" o with
  | Some a, Some s => Some (a, s)
  | _, _ => None
  end.

Definition refund (r : request) : eprog response :=
  uid <-? requireUser r ;;
  req <-? decode decode_refundReq r ;;
  let id := urlParam r "id" in
  contractID <-? contractIDForEscrow id ;;
  _ <-? requireClient uid contractID ;;
  e <-? or_mapped mapError (RefundEscrow id (fst req) (snd req)) ;;
  ret (writeJSON 200 (escrowDTO e)).

Definition listAllocations (r : request) : eprog response :=
  uid <-? requireUser r ;;
  let id := urlParam r "id" in
  contractID <-? contractIDForEscrow id ;;
  _ <-? requireParty uid contractID ;;
  allocs <-? or_mapped mapError (ListAllocations id) ;;
  ret (writeJSON 200 (JObj [("allocations", JList (map allocationDTO allocs))])).

(** The routes that move money (API.Routes). *)
Inductive money_route := RFund | RAllocate | RReleaseMilestone | RReleaseHours | RRefund.

Definition serve (m : money_route) : request -> eprog response :=
  match m with
  | RFund => fund
  | RAllocate => allocate
  | RReleaseMilestone => releaseMilestone
  | RReleaseHours => releaseHours
  | RRefund => refund
  end.
End Api.

(** ** Rules *)

Section ApiRules.
Context (net : transport) (baseURL : string).
Implicit Types (ev : env) (d : escrow_db) (n : nat).

Lemma wp_resolveParties cid ev d t n Q :
  (forall resp, status resp = 403 -> Q (Ok (inl resp)) (World d t (S n))) ->
  (forall p, vouched net baseURL cid p -> Q (Ok (inr p)) (World d t (S n))) ->
  wp (resolveParties net baseURL cid) ev (World d t n) Q.
Proof.
  intros H1 H2. unfold resolveParties. apply wp_bind, wp_Get. cbv beta iota.
  destruct (read_parties _) as [p|e] eqn:R; apply wp_ret; [|by apply H1].
  apply H2. by exists n.
Qed.

Lemma wp_requireClient uid cid ev d t n Q :
  (forall resp, status resp = 403 -> Q (Ok (inl resp)) (World d t (S n))) ->
  (forall p, vouched net baseURL cid p -> ClientID p = uid -> Q (Ok (inr tt)) (World d t (S n))) ->
  wp (requireClient net baseURL uid cid) ev (World d t n) Q.
Proof.
  intros H1 H2. unfold requireClient, step_bind. apply wp_bind, wp_resolveParties.
  - intros resp Hr. apply wp_ret. by apply H1.
  - intros p Hp. destruct (String.eqb_spec uid (ClientID p)) as [E|E]; cbn [negb]; apply wp_ret.
    + by eapply H2.
    + by apply H1.
Qed.

Lemma wp_requireParty uid cid ev d t n Q :
  (forall resp, status resp = 403 -> Q (Ok (inl resp)) (World d t (S n))) ->
  (forall p, vouched net baseURL cid p -> IsParty p uid = true -> Q (Ok (inr tt)) (World d t (S n))) ->
  wp (requireParty net baseURL uid cid) ev (World d t n) Q.
Proof.
  intros H1 H2. unfold requireParty, step_bind. apply wp_bind, wp_resolveParties.
  - intros resp Hr. apply wp_ret. by apply H1.
  - intros p Hp. destruct (IsParty p uid) eqn:E; cbn [negb]; apply wp_ret.
    + by eapply H2.
    + by apply H1.
Qed.

Lemma wp_contractIDForEscrow id ev d t n Q :
  (forall e, Q (Ok (inl (mapError e))) (World d t (S n))) ->
  (forall e, In e (escrow_accounts d) -> e_ID e = id ->
     Q (Ok (inr (e_ContractID e))) (World d t (S n))) ->
  wp (contractIDForEscrow id) ev (World d t n) Q.
Proof.
  intros H1 H2. unfold contractIDForEscrow, step_bind.
  apply wp_bind, wp_or_mapped, wp_GetEscrow.
  - intros _. apply wp_ret, H1.
  - intros _. apply wp_ret, H1.
  - intros e HF. destruct (find_key_In HF). apply wp_ret. by apply H2.
Qed.

End ApiRules.

(** The contract a request is about: named by the body of a funding request,
    otherwise the contract of the escrow account in the path. *)
Definition concerns (m : money_route) (r : request) (d : escrow_db) (cid : string) : Prop :=
  match m with
  | RFund => exists o, members (body r) = Some o /\ str_field "contract_id" o = Some cid
  | _ => exists e, In e (escrow_accounts d) /\ e_ID e = urlParam r "id" /\ e_ContractID e = cid
  end.

(** The caller is the client of that contract, on the word of the contract
    service. *)
Definition client_authorized (net : transport) (baseURL : string) (m : money_route)
  (r : request) (d : escrow_db) : Prop :=
  let uid := header r "X-User-Id" in
  uid <> "" /\
  exists cid p, concerns m r d cid /\ vouched net baseURL cid p /\ ClientID p = uid.

Ltac wp_hook ::=
  lazymatch goal with
  | |- wp (bind_ok _ _) _ _ _ => apply wp_bind_ok
  | |- wp (requireUser _) _ _ _ => apply wp_requireUser; intros ?HU
  | |- wp (decode _ _) _ _ _ => apply wp_decode; [|intros ?o ?req ?HM ?HD]
  | |- wp (requireClient _ _ _ _) _ _ _ => apply wp_requireClient; [intros ?resp ?HR|intros ?p ?HV ?HC]
  | |- wp (requireParty _ _ _ _) _ _ _ => apply wp_requireParty; [intros ?resp ?HR|intros ?p ?HV ?HC]
  | |- wp (contractIDForEscrow _) _ _ _ => apply wp_contractIDForEscrow; [intros ?e|intros ?e ?HE ?HI]
  | |- wp (or_mapped _ _) _ _ _ => apply wp_or_mapped
  | |- _ => escrow_rules
  end.

Lemma decode_fundReq_contract o req :
  decode_fundReq o = Some req -> str_field "contract_id" o = Some (fr_ContractID req).
Proof. unfold decode_fundReq. by repeat case_match; intros; simplify_eq. Qed.

Lemma decode_fundReq_range o req :
  decode_fundReq o = Some req -> int64_min <= fr_AmountCents req <= int64_max.
Proof.
  unfold decode_fundReq. repeat case_match; intros; simplify_eq. cbn. by eapply int_field_range.
Qed.

Lemma authorized_by net baseURL m r ev d n :
  after (serve net baseURL m r) ev d n <> d -> client_authorized net baseURL m r d.
Proof.
  intros Hne.
  cut (wp (serve net baseURL m r) ev (rest d n)
         (fun _ w => committed w = d \/ client_authorized net baseURL m r d)).
  { by intros [H|H]. }
  unfold rest. destruct m; cbn [serve];
    unfold fund, allocate, releaseMilestone, releaseHours, refund;
    repeat lazymatch goal with
    | |- wp (or_mapped _ _) _ _ _ => fail
    | |- _ => wp_step
    end; try (by left).
  all: match goal with |- context [client_authorized ?a ?b ?m ?q ?c] =>
    assert (client_authorized a b m q c)
      by (split; [done|]; eexists _, _; split; [|by split]; cbn; eauto using decode_fundReq_contract)
  end.
  all: apply run_wp; intros [[?|?]|?] w' _; try (by right); apply run_wp; intros; by right.
Qed.

(** C6: Money moves only for the contract's client. If serving a request on any
    of the money routes changed the escrow tables, then the request carried a
    user id and the contract service answered, for the contract the request is
    about, that this user is its client. A lookup that fails in any way denies:
    the authorization fails closed. *)
Theorem money_needs_the_client net baseURL m r ev d n :
  after (serve net baseURL m r) ev d n <> d -> client_authorized net baseURL m r d.
Proof. apply authorized_by. Qed.

(** A contract service that knows one contract. *)
Definition demo_net : transport := fun _ url =>
  if String.eqb url (parties_url "http://contract:8080" "c1")
  then Some (200, Some (JObj [("contract_id", JStr "c1"); ("client_id", JStr "alice");
                              ("freelancer_id", JStr "bob"); ("status", JStr "active")]))
  else None.

Definition demo_release (uid : string) : request :=
  Request (fun h => if String.eqb h "X-User-Id" then uid else "")
    (fun _ => "id-x") (fun _ => "") (-1) (Some (JObj [("milestone_id", JStr "m1")])) None.

Lemma money_needs_the_client_witness :
  client_authorized demo_net "http://contract:8080" RReleaseMilestone (demo_release "alice") demo_db.
Proof.
  apply (money_needs_the_client demo_net "http://contract:8080" RReleaseMilestone
           (demo_release "alice") quiet_env demo_db 40).
  intros H. apply (f_equal (fun d => List.length (escrow_ledger d))) in H.
  vm_compute in H. discriminate.
Defined.

(** A funding request answered 201 has been funded. The account in the
    answer is the one the service returned, and the tables hold either the whole
    effect of the funding or, for a replayed idempotency key, what they held. *)
Theorem fund_created_means_funded net baseURL r ev d n resp :
  escrow_reachable d ->
  fst (fund net baseURL r ev (rest d n)) = Ok resp -> status resp = 201 ->
  exists o req e, members (body r) = Some o /\ decode_fundReq o = Some req /\
    0 < fr_AmountCents req /\ payload_of resp = escrowDTO e /\
    let cid := fr_ContractID req in
    ((key_used cid (fr_IdempotencyKey req) (fund_keys d) = true /\
      after (fund net baseURL r) ev d n = d) \/
     exists u cur t g, e = held_plus (fr_AmountCents req) t (opened u cid cur t (escrow_accounts d)) /\
       after (fund net baseURL r) ev d n =
         fund_effect u cid cur (fr_IdempotencyKey req) (fr_AmountCents req) t g d).
Proof.
  intros Hd Hresp H201. pose proof (reachable_inv d Hd) as HI.
  revert Hresp. unfold after.
  cut (wp (fund net baseURL r) ev (rest d n) (fun x w => x = Ok resp -> 
    exists o req e, members (body r) = Some o /\ decode_fundReq o = Some req /\
      0 < fr_AmountCents req /\ payload_of resp = escrowDTO e /\
      let cid := fr_ContractID req in
      ((key_used cid (fr_IdempotencyKey req) (fund_keys d) = true /\ committed w = d) \/
       exists u cur t g, e = held_plus (fr_AmountCents req) t (opened u cid cur t (escrow_accounts d)) /\
         committed w = fund_effect u cid cur (fr_IdempotencyKey req) (fr_AmountCents req) t g d))).
  { done. }
  unfold fund, rest. repeat lazymatch goal with
  | |- wp (or_mapped _ _) _ _ _ => fail
  | |- _ => wp_step
  end; try (intros [= <-]; cbn in H201; congruence).
  apply wp_or_mapped. eapply wp_mono.
  { apply (fund_meets ev d (S n) HI). by eapply decode_fundReq_range. }
  intros [e|e] w [_ HO]; [|by intros [= <-]; destruct e as [?|[]]].
  apply wp_ret. intros [= <-]. exists o, req, e. cbn zeta.
  remember (Ok e) as x eqn:X.
  destruct HO as [| | | | |e' Hpos Hk Hused| |x u cur3 t g Hpos _ _ _ _ Hans]; try discriminate.
  - injection X as ->. do 4 (split; [done|]). by left.
  - destruct Hans as [->|[-> _]]; [|discriminate]. injection X as <-.
    do 4 (split; [done|]). right. by exists u, cur3, t, g.
Qed.

Definition demo_fund : request :=
  Request (fun h => if String.eqb h "X-User-Id" then "alice" else "") (fun _ => "") (fun _ => "")
    (-1) (Some (JObj [("contract_id", JStr "c1"); ("amount_cents", JInt 250);
                 ("idempotency_key", JStr "k9")])) None.

Lemma fund_created_means_funded_witness :
  exists o req e, members (body demo_fund) = Some o /\ decode_fundReq o = Some req /\
    0 < fr_AmountCents req /\
    payload_of (writeJSON 201 (escrowDTO e)) = escrowDTO e.
Proof.
  destruct (fund_created_means_funded demo_net "http://contract:8080" demo_fund quiet_env demo_db 40
    (writeJSON 201 (escrowDTO (held_plus 250 41 (nth 0 (escrow_accounts demo_db) (new_escrow "" "" "" 0))))))
    as (o & req & e & H1 & H2 & H3 & H4 & _).
  - apply demo_reachable.
  - vm_compute. reflexivity.
  - reflexivity.
  - exists o, req, e. split; [exact H1|]. split; [exact H2|]. split; [exact H3|reflexivity].
Defined.
