(* ===== verification/PaymentStore.v ===== *)
(** * Payment data layer (services/payment/internal/store)

    Payments, the Stripe event log and the double-entry ledger, with the
    constraints of migration 000008. *)
From S2P Require Export Ids Ledger Outbox.

Record Payment := mkPayment {
  p_ID : string;
  p_ContractID : option string;
  p_PayerID : string;
  p_AmountCents : Z;
  p_Currency : string;
  p_Status : string;
  p_StripePaymentIntentID : option string;
  p_StripeChargeID : option string;
  p_IdempotencyKey : option string;
  p_FailureReason : option string;
  p_CreatedAt : Z;
  p_UpdatedAt : Z
}.

(** Table stripe_events. *)
Record StripeEvent := mkStripeEvent {
  se_id : string;
  se_type : string;
  se_payload : string;
  se_processed_at : option Z;
  se_received_at : Z
}.

Record payment_db := mkPaymentDb {
  payments : list Payment;
  stripe_events : list StripeEvent;
  payment_ledger : list TxnRow;
  payment_outbox : list OutboxRow
}.

Definition empty_payment_db : payment_db := mkPaymentDb [] [] [] [].

Definition payments_t : table payment_db Payment :=
  Table payments (fun l d => mkPaymentDb l (stripe_events d) (payment_ledger d) (payment_outbox d)).

Definition stripe_events_t : table payment_db StripeEvent :=
  Table stripe_events (fun l d => mkPaymentDb (payments d) l (payment_ledger d) (payment_outbox d)).

#[export] Instance payment_HasLedger : HasLedger payment_db :=
  Table payment_ledger (fun l d => mkPaymentDb (payments d) (stripe_events d) l (payment_outbox d)).

#[export] Instance payment_HasOutbox : HasOutbox payment_db :=
  Table payment_outbox (fun l d => mkPaymentDb (payments d) (stripe_events d) (payment_ledger d) l).

#[export] Instance payment_ledger_lawful : LawfulTable (transactions (D := payment_db)).
Proof. by constructor; [| |intros []]. Qed.

#[export] Instance payment_Deferred : Deferred payment_db := fun before after =>
  assert_txn_group_balanced (payment_ledger before) (payment_ledger after).

(** The sentinels of the store and the service, and the service's formatted
    errors; [ErrNoPaymentForIntent] wraps [ErrNotFound]. *)
Inductive payment_err :=
| ErrNotFound
| ErrDuplicateKey
| ErrInvalidSignature
| ErrUnbalanced
| ErrAmountNotPositive
| ErrParseWebhook
| ErrMissingEventID
| ErrNoPaymentForIntent
| ErrStripe.

Abbreviation pprog := (prog payment_db payment_err).

(** randHex, and its fallback to the clock. *)
Definition randHex (n : nat) (random : option (list Z)) (ns : Z) : string :=
  hex_encode match random with
             | Some b => b
             | None => map (fun i => Z.land (Z.shiftr ns (8 * (Z.of_nat i mod 8))) 255) (seq 0 n)
             end.

Definition RandToken (n : nat) : pprog string :=
  b <- read_random n ;;
  ns <- time_now ;;
  ret (randHex n b ns).

Definition scanPayment (row : option Payment) : pprog Payment :=
  match row with
  | None => fail ErrNotFound
  | Some p => ret p
  end.

Definition opt_same (o1 o2 : option string) : bool :=
  match o1, o2 with
  | Some x, Some y => String.eqb x y
  | _, _ => false
  end.

(** CHECK (amount_cents > 0), the primary key, UNIQUE (idempotency_key) and
    the partial unique index on the intent id. *)
Definition payment_check (l : list Payment) (p : Payment) : option dberr :=
  first_violation
    [ bigint (p_AmountCents p);
      check_row "payments_amount_cents_check" (fun p => 0 <? p_AmountCents p) p;
      unique_index "payments_pkey" (fun x r => String.eqb (p_ID x) (p_ID r)) l p;
      unique_index "payments_idempotency_key_key"
        (fun x r => opt_same (p_IdempotencyKey x) (p_IdempotencyKey r)) l p;
      unique_index "uq_payments_pi"
        (fun x r => opt_same (p_StripePaymentIntentID x) (p_StripePaymentIntentID r)) l p ].

Definition new_payment (id payerID : string) (contractID : option string) (amountCents : Z)
  (currency intentID : string) (key : option string) (t : Z) : Payment :=
  mkPayment id contractID payerID amountCents currency "processing" (Some intentID) None key None t t.

Definition insert_payment (payerID : string) (contractID : option string) (amountCents : Z)
  (currency intentID : string) (key : option string) : sql payment_db Payment :=
  fun s d =>
    match bpchar 3 currency with
    | None => Reject InvalidText
    | Some cur =>
        insert_row payments_t payment_check
          (fun s => new_payment (fresh s) payerID contractID amountCents cur intentID key (now s)) s d
    end.

Definition InsertPayment (payerID : string) (contractID : option string) (amountCents : Z)
  (currency intentID : string) (idempotencyKey : option string) : pprog Payment :=
  r <- attempt (exec (insert_payment payerID contractID amountCents currency intentID idempotencyKey)) ;;
  match r with
  | Err err => if isUniqueViolation err then fail ErrDuplicateKey else throw err
  | Ok p => ret p
  end.

Definition GetPayment (id : string) : pprog Payment :=
  row <- exec_pool (select_one payments_t (has_key p_ID id)) ;;
  scanPayment row.

Definition has_idem (key : string) (p : Payment) : bool := opt_eqb (p_IdempotencyKey p) key.

Definition GetPaymentByIdempotencyKey (key : string) : pprog Payment :=
  row <- exec_pool (select_one payments_t (has_idem key)) ;;
  scanPayment row.

Definition has_intent (intentID : string) (p : Payment) : bool :=
  opt_eqb (p_StripePaymentIntentID p) intentID.

Definition GetPaymentByIntent (intentID : string) : pprog Payment :=
  row <- exec (select_one payments_t (has_intent intentID)) ;;
  scanPayment row.

Definition is_processing (p : Payment) : bool := String.eqb (p_Status p) "processing".

Definition mark_succeeded (chargeID : string) (t : Z) (p : Payment) : Payment :=
  mkPayment (p_ID p) (p_ContractID p) (p_PayerID p) (p_AmountCents p) (p_Currency p) "succeeded"
    (p_StripePaymentIntentID p) (Some chargeID) (p_IdempotencyKey p) (p_FailureReason p)
    (p_CreatedAt p) t.

Definition MarkSucceeded (id chargeID : string) : pprog Payment :=
  l <- exec (update_rows payments_t (fun p => has_key p_ID id p && is_processing p)
         (fun s => mark_succeeded chargeID (now s)) (fun _ => None)) ;;
  scanPayment (head l).

(** ORDER BY created_at DESC: newest first, rows in insertion order. *)
Definition ListPaymentsForContract (contractID : string) : pprog (list Payment) :=
  l <- exec_pool (select_all payments_t (fun p => opt_eqb (p_ContractID p) contractID)) ;;
  ret (rev l).

Record Leg := mkLeg {
  l_Type : string;
  l_AccountKind : string;
  l_AccountRef : option string;
  l_ContractID : option string;
  l_AmountCents : Z;
  l_Currency : string;
  l_PaymentID : option string;
  l_Memo : option string
}.

Definition leg_row (txnGroup : string) (l : Leg) : TxnRow :=
  mkTxn txnGroup (l_Type l) (l_AccountKind l) (l_AccountRef l) (l_ContractID l)
    (l_AmountCents l) (l_Currency l) (l_PaymentID l) (l_Memo l).

Definition WriteLegs (txnGroup : string) (legs : list Leg) : pprog unit :=
  if negb (sum64 (map l_AmountCents legs) =? 0) then fail ErrUnbalanced
  else for_each legs (fun l =>
    exec (insert_row transactions (fun _ _ => None) (fun _ => leg_row txnGroup l)) ;;;
    ret tt).

(** INSERT ... ON CONFLICT (id) DO NOTHING; true when the row is new. *)
Definition InsertStripeEvent (id typ raw : string) : pprog bool :=
  exec (fun s d =>
    if existsb (has_key se_id id) (stripe_events d) then Done false d
    else Done true (put stripe_events_t
           (stripe_events d ++ [mkStripeEvent id typ raw None (now s)]) d)).

Definition processed (t : Z) (e : StripeEvent) : StripeEvent :=
  mkStripeEvent (se_id e) (se_type e) (se_payload e) (Some t) (se_received_at e).

Definition MarkStripeEventProcessed (id : string) : pprog unit :=
  exec (update_rows stripe_events_t (has_key se_id id) (fun s => processed (now s)) (fun _ => None)) ;;;
  ret tt.
