(* ===== verification/PaymentService.v ===== *)
(** * Payment business logic (services/payment/internal/service)

    Payment intents, capture into the ledger and Stripe webhooks.  The Stripe
    API is an interface ([StripeClient]) whose in-process stub is an instance;
    HMAC-SHA256 is the executable one of [Sha256].  Parsing a webhook body is
    the parameter [unmarshal] (encoding/json). *)
From S2P Require Export PaymentStore Sha256 Http Strings.

(** ** Webhook signatures *)

(** webhookTolerance, in nanoseconds. *)
Definition webhookTolerance : Z := 300 * 1000000000.

(** time.Time keeps seconds since year 1 in an int64. *)
Definition unixToInternal : Z := 62135596800.

(** time.Since(time.Unix(ts, 0)) at wall clock [now] (ns since 1970): a
    Duration, saturated at the int64 bounds. *)
Definition time_since (now ts : Z) : Z :=
  let d := now + unixToInternal * 1000000000 - wrap64 (ts + unixToInternal) * 1000000000 in
  if d <? int64_min then int64_min else if int64_max <? d then int64_max else d.

(** The t= value (the last one) and all the v1= values of a header. *)
Definition sig_part (acc : string * list string) (part : string) : string * list string :=
  match split2 "=" (trim_space part) with
  | None => acc
  | Some (k, v) =>
      if String.eqb k "t" then (v, snd acc)
      else if String.eqb k "v1" then (fst acc, snd acc ++ [v])
      else acc
  end.

Definition sig_parts (header : string) : string * list string :=
  fold_left sig_part (split "," header) ("", []).

(** hex(HMAC-SHA256(secret, ts + "." + payload)) *)
Definition expected_sig (secret ts payload : string) : string :=
  hex_encode (hmac_sha256 (bytes_of secret) (bytes_of (ts ++ "." ++ payload)%string)).

(** None is a valid signature. *)
Definition verifySignature (now : Z) (payload header secret : string) : option payment_err :=
  if String.eqb secret "" then None else
  let (ts, v1s) := sig_parts header in
  if String.eqb ts "" || (List.length v1s =? 0)%nat then Some ErrInvalidSignature else
  match parse_int ts with
  | None => Some ErrInvalidSignature
  | Some tsUnix =>
      let skew := time_since now tsUnix in
      let skew := if skew <? 0 then neg64 skew else skew in
      if webhookTolerance <? skew then Some ErrInvalidSignature
      else if existsb (String.eqb (expected_sig secret ts payload)) v1s then None
      else Some ErrInvalidSignature
  end.

(** ** Stripe *)

(** The payments API: what it promises the service is that calling it touches
    no table. *)
Class StripeClient := {
  CreateIntent : Z -> string -> string -> pprog (string * string);
  CreateIntent_frame ev w a cur key :
    let w' := snd (CreateIntent a cur key ev w) in
    committed w' = committed w /\ txs w' = txs w /\ (tick w <= tick w')%nat
}.

(** stubStripe *)
Definition stub_CreateIntent (amountCents : Z) (currency idempotencyKey : string)
  : pprog (string * string) :=
  id <- RandToken 12 ;;
  secret <- RandToken 16 ;;
  ret (("pi_" ++ id)%string, ("secret_" ++ secret)%string).

Definition placeholder_keys : list string :=
  ["changeme"; "placeholder"; "sk_test_xxx"; "sk_live_xxx"; "xxx"; "none"].

Definition RealStripeKey (secretKey : string) : bool :=
  if String.eqb secretKey "" then false
  else if existsb (String.eqb secretKey) placeholder_keys then false
  else String.prefix "sk_" secretKey || String.prefix "rk_" secretKey.

(** What cmd/server wires, or that it refuses to start. *)
Inductive wiring := Refused | Wired (live verifies : bool).

Definition startup (environment webhookSecret stripeSecret : string) : wiring :=
  if String.eqb webhookSecret "" && String.eqb environment "production" then Refused
  else
    let liveStripe := RealStripeKey stripeSecret in
    if negb liveStripe && String.eqb environment "production" then Refused
    else Wired liveStripe (negb (String.eqb webhookSecret "")).

(** ** Operations *)

Record CreateIntentResult := mkResult {
  r_PaymentID : string;
  r_StripePaymentIntentID : string;
  r_ClientSecret : string;
  r_Status : string
}.

Definition deref (o : option string) : string := default "" o.

Definition resultFromPayment (p : Payment) : CreateIntentResult :=
  mkResult (p_ID p) (deref (p_StripePaymentIntentID p)) "" (p_Status p).

Definition key_ptr (idempotencyKey : string) : option string :=
  if String.eqb idempotencyKey "" then None else Some idempotencyKey.

Definition deposit_legs (p : Payment) : list Leg :=
  let leg kind amount := mkLeg "deposit" kind None (p_ContractID p) amount (p_Currency p) (Some (p_ID p)) None in
  [ leg "stripe_clearing" (neg64 (p_AmountCents p));
    leg "client_funding" (p_AmountCents p);
    leg "client_funding" (neg64 (p_AmountCents p));
    leg "escrow" (p_AmountCents p) ].

Definition captured_event (p : Payment) : Event :=
  mkEvent "payment" (p_ID p) "payment.captured" "payment.events" (p_ID p)
    (JObj [("payment_id", JStr (p_ID p)); ("contract_id", jopt JStr (p_ContractID p));
           ("amount_cents", JInt (p_AmountCents p)); ("currency", JStr (p_Currency p));
           ("payer_id", JStr (p_PayerID p))]) None.

Definition writeDepositLedger (p : Payment) : pprog unit :=
  group <- NewUUID ;;
  WriteLegs group (deposit_legs p) ;;;
  Enqueue (captured_event p).

Section Service.
Context `{StripeClient} (webhookSecret : string) (unmarshal : string -> option json).

(** CreatePaymentIntent after the idempotency lookup found nothing. *)
Definition createFresh (payerID : string) (contractID : option string) (amountCents : Z)
  (currency idempotencyKey : string) : pprog CreateIntentResult :=
  ids <- CreateIntent amountCents currency idempotencyKey ;;
  in_tx (
    r <- attempt (InsertPayment payerID contractID amountCents currency (fst ids)
                    (key_ptr idempotencyKey)) ;;
    match r with
    | Err (Dom ErrDuplicateKey) =>
        rollback ;;;
        if negb (String.eqb idempotencyKey "") then
          existing <- attempt (GetPaymentByIdempotencyKey idempotencyKey) ;;
          match existing with
          | Ok existing => ret (resultFromPayment existing)
          | Err _ => fail ErrDuplicateKey
          end
        else fail ErrDuplicateKey
    | Err err => throw err
    | Ok p =>
        commit ;;;
        ret (mkResult (p_ID p) (deref (p_StripePaymentIntentID p)) (snd ids) (p_Status p))
    end).

Definition CreatePaymentIntent (payerID : string) (contractID : option string) (amountCents : Z)
  (currency idempotencyKey : string) : pprog CreateIntentResult :=
  if amountCents <=? 0 then fail ErrAmountNotPositive else
  let currency := if String.eqb currency "" then "USD" else currency in
  if negb (String.eqb idempotencyKey "") then
    existing <- attempt (GetPaymentByIdempotencyKey idempotencyKey) ;;
    match existing with
    | Ok existing => ret (resultFromPayment existing)
    | Err (Dom ErrNotFound) => createFresh payerID contractID amountCents currency idempotencyKey
    | Err err => throw err
    end
  else createFresh payerID contractID amountCents currency idempotencyKey.

Definition ConfirmPayment (paymentID : string) : pprog Payment :=
  in_tx (
    token <- RandToken 12 ;;
    p <- MarkSucceeded paymentID ("ch_" ++ token)%string ;;
    writeDepositLedger p ;;;
    commit ;;;
    ret p).

(** stripeEvent: id, type, data.object.id *)
Definition object_member (tag : string) (o : list (string * json)) : option (list (string * json)) :=
  into_all (fun old j => match j with JNull => Some old | JObj o' => Some (old ++ o') | _ => None end)
    [] (values_of tag o).

Definition parse_event (b : option json) : option (string * string * string) :=
  match members b with
  | None => None
  | Some o =>
      match str_field "id" o, str_field "type" o, object_member "data" o with
      | Some id, Some typ, Some data =>
          match object_member "object" data with
          | Some obj => option_map (fun x => (id, typ, x)) (str_field "id" obj)
          | None => None
          end
      | _, _, _ => None
      end
  end.

Definition HandleWebhook (payload signatureHeader : string) : pprog unit :=
  now <- time_now ;;
  match verifySignature now payload signatureHeader webhookSecret with
  | Some err => fail err
  | None =>
    match parse_event (unmarshal payload) with
    | None => fail ErrParseWebhook
    | Some (id, typ, intent) =>
      if String.eqb id "" then fail ErrMissingEventID else
      in_tx (
        fresh <- InsertStripeEvent id typ payload ;;
        if negb fresh then rollback ;;; ret tt
        else
          (if String.eqb typ "payment_intent.succeeded" then
             r <- attempt (GetPaymentByIntent intent) ;;
             match r with
             | Err (Dom ErrNotFound) => fail ErrNoPaymentForIntent
             | Err err => throw err
             | Ok p =>
                 if is_processing p then
                   token <- RandToken 12 ;;
                   marked <- MarkSucceeded (p_ID p) ("ch_" ++ token)%string ;;
                   writeDepositLedger marked
                 else ret tt
             end
           else ret tt) ;;;
          MarkStripeEventProcessed id ;;;
          commit)
    end
  end.
End Service.

(** The service with the stub client. *)
#[export] Program Instance stubStripe : StripeClient := { CreateIntent := stub_CreateIntent }.
Next Obligation. intros. cbn. split; [done|]. split; [done|lia]. Qed.
