(* ===== verification/PaymentSpec.v ===== *)
(** * What the payment operations do

    Rules for the store functions, the invariant of the payment tables, the
    effects of a payment's creation and capture, and the outcomes of the three
    operations. *)
From S2P Require Export PaymentService.

(** ** Rules of the data layer *)

Section Rules.
Implicit Types (ev : env) (v c d : payment_db) (t : Z) (n : nat).

Lemma wp_RandToken k ev c x n (Q : res payment_err string -> world payment_db -> Prop) :
  (forall s m, Q (Ok s) (World c x m)) -> wp (RandToken k) ev (World c x n) Q.
Proof. intros HQ. unfold RandToken. wp_steps. apply HQ. Qed.

Lemma wp_GetPaymentByIdempotencyKey k ev d x n Q :
  (~ calm ev -> Q (Err (Db Driver)) (World d x (S n))) ->
  (List.find (has_idem k) (payments d) = None -> Q (Err (Dom ErrNotFound)) (World d x (S n))) ->
  (forall p, List.find (has_idem k) (payments d) = Some p -> Q (Ok p) (World d x (S n))) ->
  wp (GetPaymentByIdempotencyKey k) ev (World d x n) Q.
Proof.
  intros Hf Hn Hs. unfold GetPaymentByIdempotencyKey. wp_step.
  eapply (wp_pool_read _ (List.find (has_idem k) (payments d)));
    [done|intros NC; by apply (Hf NC)|cbn beta iota].
  destruct (List.find (has_idem k) (payments d)); unfold scanPayment; wp_step; auto.
Qed.

Lemma wp_GetPaymentByIntent i ev c t v n Q :
  (~ calm ev -> Q (Err (Db Driver)) (World c Broken (S n))) ->
  (List.find (has_intent i) (payments v) = None -> Q (Err (Dom ErrNotFound)) (World c (Live t v) (S n))) ->
  (forall p, List.find (has_intent i) (payments v) = Some p -> Q (Ok p) (World c (Live t v) (S n))) ->
  wp (GetPaymentByIntent i) ev (World c (Live t v) n) Q.
Proof.
  intros Hf Hn Hs. unfold GetPaymentByIntent. wp_step. wp_step; [by apply Hf|].
  cbn [rows payments_t].
  destruct (List.find (has_intent i) (payments v)); unfold scanPayment; wp_step; auto.
Qed.

Lemma wp_MarkSucceeded id ch ev c t v n Q :
  keyed p_ID (payments v) ->
  (~ calm ev -> Q (Err (Db Driver)) (World c Broken (S n))) ->
  ((forall p, List.find (has_key p_ID id) (payments v) = Some p -> is_processing p = false) ->
   forall w, committed w = c -> Q (Err (Dom ErrNotFound)) w) ->
  (forall p, List.find (has_key p_ID id) (payments v) = Some p -> is_processing p = true ->
   Q (Ok (mark_succeeded ch t p)) (World c (Live t (put payments_t
     (update_where (has_key p_ID id) (mark_succeeded ch t) (payments v)) v)) (S n))) ->
  wp (MarkSucceeded id ch) ev (World c (Live t v) n) Q.
Proof.
  intros Hk Hf Hn Hs. unfold MarkSucceeded. wp_step. wp_step; cbn in *.
  - done.
  - by apply Hf.
  - wp_step. by apply Hn.
  - wp_step. by apply Hs.
Qed.

(** What an insert can collide with. *)
Definition collides (d : payment_db) (p : Payment) : Prop :=
  In (p_ID p) (map p_ID (payments d)) \/
  (exists q, In q (payments d) /\ opt_same (p_IdempotencyKey q) (p_IdempotencyKey p) = true) \/
  (exists q, In q (payments d) /\
     opt_same (p_StripePaymentIntentID q) (p_StripePaymentIntentID p) = true).

Lemma unique_index_Some {R} name (clash : R -> R -> bool) l r e :
  unique_index name clash l r = Some e ->
  e = UniqueViolation name /\ exists x, In x l /\ clash x r = true.
Proof.
  unfold unique_index. destruct (existsb _ l) eqn:X; [|done]. intros [= <-].
  by apply existsb_exists in X.
Qed.

Lemma payment_check_cases d p :
  0 < p_AmountCents p <= int64_max ->
  match payment_check (payments d) p with
  | Some e => (exists k, e = UniqueViolation k) /\ collides d p
  | None => ~ collides d p
  end.
Proof.
  intros Ha. unfold payment_check.
  rewrite (proj2 (bigint_None _)) by (unfold int64_min, int64_max in *; lia).
  cbn [first_violation].
  rewrite (proj2 (check_row_None _ _ _)) by lia. cbn [first_violation].
  destruct (unique_index "payments_pkey" _ _ _) as [e|] eqn:U1.
  { cbn [first_violation].
    apply unique_index_Some in U1 as [-> (x & Hx & K%String.eqb_eq)]. split; [eauto|].
    left. rewrite <- K. by apply in_map. }
  cbn [first_violation].
  destruct (unique_index "payments_idempotency_key_key" _ _ _) as [e|] eqn:U2.
  { cbn [first_violation].
    apply unique_index_Some in U2 as [-> (x & Hx & K)]. split; [eauto|]. right. left. eauto. }
  cbn [first_violation].
  destruct (unique_index "uq_payments_pi" _ _ _) as [e|] eqn:U3; cbn [first_violation].
  { apply unique_index_Some in U3 as [-> (x & Hx & K)]. split; [eauto|]. right. right. eauto. }
  rewrite unique_index_None in U1, U2, U3.
  intros [(x & K & Hx)%in_map_iff|[(x & Hx & K)|(x & Hx & K)]].
  - specialize (U1 x Hx). cbn in U1. by rewrite K, String.eqb_refl in U1.
  - specialize (U2 x Hx). cbn in U2. congruence.
  - specialize (U3 x Hx). cbn in U3. congruence.
Qed.

Lemma wp_InsertPayment payer cid a cur i k ev c t v n Q :
  0 < a <= int64_max ->
  let p cur3 := new_payment (gen_uuid ev n) payer cid a cur3 i k t in
  (~ calm ev -> Q (Err (Db Driver)) (World c Broken (S n))) ->
  (bpchar 3 cur = None -> Q (Err (Db InvalidText)) (World c Broken (S n))) ->
  (forall cur3, bpchar 3 cur = Some cur3 -> collides v (p cur3) ->
     Q (Err (Dom ErrDuplicateKey)) (World c Broken (S n))) ->
  (forall cur3, bpchar 3 cur = Some cur3 -> ~ collides v (p cur3) ->
     Q (Ok (p cur3)) (World c (Live t (put payments_t (payments v ++ [p cur3]) v)) (S n))) ->
  wp (InsertPayment payer cid a cur i k) ev (World c (Live t v) n) Q.
Proof.
  intros Ha p Hf Hb Hd Hs. unfold InsertPayment, insert_payment. wp_step. wp_step. wp_step.
  { cbn. wp_step. by apply Hf. }
  destruct (bpchar 3 cur) as [cur3|] eqn:B; [|cbn; wp_step; by apply Hb].
  unfold insert_row. pose proof (payment_check_cases v (p cur3) Ha) as HC.
  cbn [rows payments_t fresh now]. fold (p cur3).
  destruct (payment_check (payments v) (p cur3)) as [e|].
  - destruct HC as [[k' ->] HC]. cbn. wp_step. by eapply Hd.
  - wp_step. by apply Hs.
Qed.

Lemma wp_InsertStripeEvent id typ raw ev c t v n (Q : res payment_err bool -> world payment_db -> Prop) :
  (~ calm ev -> Q (Err (Db Driver)) (World c Broken (S n))) ->
  (In id (map se_id (stripe_events v)) -> Q (Ok false) (World c (Live t v) (S n))) ->
  (~ In id (map se_id (stripe_events v)) ->
     Q (Ok true) (World c (Live t (put stripe_events_t
       (stripe_events v ++ [mkStripeEvent id typ raw None t]) v)) (S n))) ->
  wp (InsertStripeEvent id typ raw) ev (World c (Live t v) n) Q.
Proof.
  intros Hf Hd Hs. unfold InsertStripeEvent. wp_step; [by apply Hf|].
  destruct (existsb (has_key se_id id) (stripe_events v)) eqn:X.
  - apply Hd. apply existsb_exists in X as (x & Hx & <-%has_key_true). by apply in_map.
  - apply Hs. intros (x & K & Hx)%in_map_iff.
    assert (existsb (has_key se_id id) (stripe_events v) = true)
      by (apply existsb_exists; exists x; split; [done|by apply has_key_true]).
    congruence.
Qed.

Lemma wp_MarkStripeEventProcessed id ev c t v n (Q : res payment_err unit -> world payment_db -> Prop) :
  keyed se_id (stripe_events v) ->
  (~ calm ev -> Q (Err (Db Driver)) (World c Broken (S n))) ->
  Q (Ok tt) (World c (Live t (put stripe_events_t
     (update_where (has_key se_id id) (processed t) (stripe_events v)) v)) (S n)) ->
  wp (MarkStripeEventProcessed id) ev (World c (Live t v) n) Q.
Proof.
  intros Hk Hf Hs. unfold MarkStripeEventProcessed. wp_step. wp_step; cbn in *.
  - done.
  - by apply Hf.
  - wp_step. assert (update_where (has_key se_id id) (processed t) (stripe_events v) = stripe_events v) as E.
    { apply update_none. intros r Hr. apply has_key_false. intros K.
      apply find_key_None in FN. destruct FN. rewrite <- K. by apply in_map. }
    by rewrite E in Hs.
  - done.
  - by wp_step.
Qed.
End Rules.

(** ** The invariant *)

Definition is_succeeded (p : Payment) : bool := String.eqb (p_Status p) "succeeded".

Definition captured_cents (p : Payment) : Z := if is_succeeded p then p_AmountCents p else 0.

(** The ledger entries of account kind [k] that belong to payment [id]. *)
Definition kind_of_payment (k id : string) (r : TxnRow) : bool :=
  of_kind k r && opt_eqb (txn_payment_id r) id.

Definition captured_events (id : string) (l : list OutboxRow) : Z :=
  countZ (fun o => String.eqb (event_type o) "payment.captured" && String.eqb (aggregate_id o) id) l.

Definition payment_ok (p : Payment) : Prop :=
  0 < p_AmountCents p <= int64_max /\ (p_Status p = "processing" \/ p_Status p = "succeeded").

Record payment_inv (d : payment_db) : Prop := {
  pinv_ids : keyed p_ID (payments d);
  pinv_events : keyed se_id (stripe_events d);
  pinv_rows : forall p, In p (payments d) -> payment_ok p;
  pinv_idem : forall p q, In p (payments d) -> In q (payments d) ->
    opt_same (p_IdempotencyKey p) (p_IdempotencyKey q) = true -> p = q;
  pinv_intent : forall p q, In p (payments d) -> In q (payments d) ->
    opt_same (p_StripePaymentIntentID p) (p_StripePaymentIntentID q) = true -> p = q;
  pinv_balanced : balanced (payment_ledger d);
  pinv_escrow : forall id, balance (kind_of_payment "escrow" id) (payment_ledger d) =
    at_key p_ID captured_cents id (payments d);
  pinv_clearing : forall id, balance (kind_of_payment "stripe_clearing" id) (payment_ledger d) =
    - at_key p_ID captured_cents id (payments d);
  pinv_funding : forall id, balance (kind_of_payment "client_funding" id) (payment_ledger d) = 0;
  pinv_captured : forall id, captured_events id (payment_outbox d) =
    at_key p_ID (fun p => if is_succeeded p then 1 else 0) id (payments d)
}.

(** ** Effects *)

Definition created (p : Payment) (d : payment_db) : payment_db :=
  mkPaymentDb (payments d ++ [p]) (stripe_events d) (payment_ledger d) (payment_outbox d).

Definition captured (p : Payment) (ch : string) (t : Z) (g : string) (d : payment_db) : payment_db :=
  let p' := mark_succeeded ch t p in
  mkPaymentDb (update_where (has_key p_ID (p_ID p)) (mark_succeeded ch t) (payments d))
    (stripe_events d)
    (payment_ledger d ++ map (leg_row g) (deposit_legs p'))
    (enqueued t (captured_event p') (payment_outbox d)).

(** The event recorded and stamped in one transaction. *)
Definition event_seen (id typ raw : string) (t : Z) (d : payment_db) : payment_db :=
  mkPaymentDb (payments d) (stripe_events d ++ [mkStripeEvent id typ raw (Some t) t])
    (payment_ledger d) (payment_outbox d).

(** ** Outcomes *)

Definition committed_or_lost {A} (ev : env) (a : A) (r : res payment_err A) : Prop :=
  r = Ok a \/ (r = Err (Db Driver) /\ ~ calm ev).

Section Outcomes.
Context `{StripeClient}.

(** An answer of the Stripe client during the run. *)
Definition stripe_answers (ev : env) a cur key (r : res payment_err (string * string)) : Prop :=
  exists w, fst (CreateIntent a cur key ev w) = r.

Inductive create_outcome (payer : string) (cid : option string) (a : Z) (cur key : string)
  (ev : env) (d : payment_db) : res payment_err CreateIntentResult -> payment_db -> Prop :=
| create_driver : ~ calm ev -> create_outcome payer cid a cur key ev d (Err (Db Driver)) d
| create_currency : bpchar 3 cur = None ->
    create_outcome payer cid a cur key ev d (Err (Db InvalidText)) d
| create_existing p : key <> "" -> In p (payments d) -> has_idem key p = true ->
    create_outcome payer cid a cur key ev d (Ok (resultFromPayment p)) d
| create_stripe_failed e : stripe_answers ev a cur key (Err e) ->
    create_outcome payer cid a cur key ev d (Err e) d
| create_id_clash n : In (gen_uuid ev n) (map p_ID (payments d)) ->
    create_outcome payer cid a cur key ev d (Err (Dom ErrDuplicateKey)) d
| create_intent_clash i s q : stripe_answers ev a cur key (Ok (i, s)) -> In q (payments d) ->
    has_intent i q = true ->
    create_outcome payer cid a cur key ev d (Err (Dom ErrDuplicateKey)) d
| create_readback_failed p : ~ calm ev -> In p (payments d) -> has_idem key p = true ->
    create_outcome payer cid a cur key ev d (Err (Dom ErrDuplicateKey)) d
| create_done r u cur3 i s t : stripe_answers ev a cur key (Ok (i, s)) ->
    bpchar 3 cur = Some cur3 ->
    let p := new_payment u payer cid a cur3 i (key_ptr key) t in
    ~ collides d p ->
    committed_or_lost ev (mkResult u i s "processing") r ->
    create_outcome payer cid a cur key ev d r (created p d).
End Outcomes.

Inductive confirm_outcome (id : string) (ev : env) (d : payment_db) :
  res payment_err Payment -> payment_db -> Prop :=
| confirm_driver : ~ calm ev -> confirm_outcome id ev d (Err (Db Driver)) d
| confirm_refused : (forall p, In p (payments d) -> p_ID p = id -> is_processing p = false) ->
    confirm_outcome id ev d (Err (Dom ErrNotFound)) d
| confirm_done r p ch t g : In p (payments d) -> p_ID p = id -> is_processing p = true ->
    committed_or_lost ev (mark_succeeded ch t p) r ->
    confirm_outcome id ev d r (captured p ch t g d).

(** A verified event [id] of type [typ] about intent [i]. *)
Inductive event_outcome (id typ i raw : string) (ev : env) (d : payment_db) :
  res payment_err unit -> payment_db -> Prop :=
| event_driver : ~ calm ev -> event_outcome id typ i raw ev d (Err (Db Driver)) d
| event_duplicate : In id (map se_id (stripe_events d)) -> event_outcome id typ i raw ev d (Ok tt) d
| event_no_payment : ~ In id (map se_id (stripe_events d)) -> typ = "payment_intent.succeeded" ->
    (forall p, In p (payments d) -> has_intent i p = false) ->
    event_outcome id typ i raw ev d (Err (Dom ErrNoPaymentForIntent)) d
| event_recorded r t : ~ In id (map se_id (stripe_events d)) ->
    (typ = "payment_intent.succeeded" ->
       exists p, In p (payments d) /\ has_intent i p = true /\ is_processing p = false) ->
    committed_or_lost ev tt r -> event_outcome id typ i raw ev d r (event_seen id typ raw t d)
| event_captured r p ch t g : ~ In id (map se_id (stripe_events d)) ->
    typ = "payment_intent.succeeded" ->
    In p (payments d) -> has_intent i p = true -> is_processing p = true ->
    committed_or_lost ev tt r ->
    event_outcome id typ i raw ev d r (event_seen id typ raw t (captured p ch t g d)).

Section Webhooks.
Context (webhookSecret : string) (unmarshal : string -> option json).

Inductive webhook_outcome (raw sig : string) (ev : env) (d : payment_db) :
  res payment_err unit -> payment_db -> Prop :=
| webhook_bad_signature now e : verifySignature now raw sig webhookSecret = Some e ->
    webhook_outcome raw sig ev d (Err (Dom e)) d
| webhook_unparsed : parse_event (unmarshal raw) = None ->
    webhook_outcome raw sig ev d (Err (Dom ErrParseWebhook)) d
| webhook_no_id typ i : parse_event (unmarshal raw) = Some ("", typ, i) ->
    webhook_outcome raw sig ev d (Err (Dom ErrMissingEventID)) d
| webhook_event now id typ i r d' : verifySignature now raw sig webhookSecret = None ->
    parse_event (unmarshal raw) = Some (id, typ, i) -> id <> "" ->
    event_outcome id typ i raw ev d r d' -> webhook_outcome raw sig ev d r d'.
End Webhooks.

(** * The payment operations meet their specification

    Symbolic execution of the three operations and the preservation of the
    invariant by their effects. *)
Lemma sum64_deposit a : 0 < a <= int64_max -> sum64 [neg64 a; a; neg64 a; a] = 0.
Proof.
  unfold sum64, neg64, add64, int64_max. intros H. cbn [fold_left].
  rewrite (wrap64_id (- a)) by (unfold int64_min, int64_max; lia).
  rewrite (wrap64_id (0 + - a)) by (unfold int64_min, int64_max; lia).
  rewrite (wrap64_id (0 + - a + a)) by (unfold int64_min, int64_max; lia).
  rewrite (wrap64_id (0 + - a + a + - a)) by (unfold int64_min, int64_max; lia).
  rewrite wrap64_id by (unfold int64_min, int64_max; lia). lia.
Qed.

Lemma neg64_positive a : 0 < a <= int64_max -> neg64 a = - a.
Proof. intros Ha. unfold neg64. rewrite wrap64_id; unfold int64_min, int64_max in *; lia. Qed.

(** The view after the deposit of [p] was posted. *)
Definition posted (p : Payment) (t : Z) (g : string) (v : payment_db) : payment_db :=
  mkPaymentDb (payments v) (stripe_events v)
    (payment_ledger v ++ map (leg_row g) (deposit_legs p))
    (enqueued t (captured_event p) (payment_outbox v)).

Lemma wp_writeDepositLedger p ev c t v n (Q : res payment_err unit -> world payment_db -> Prop) :
  0 < p_AmountCents p <= int64_max ->
  (forall w, committed w = c -> ~ calm ev -> Q (Err (Db Driver)) w) ->
  (forall g m, Q (Ok tt) (World c (Live t (posted p t g v)) m)) ->
  wp (writeDepositLedger p) ev (World c (Live t v) n) Q.
Proof.
  intros Ha Hf Hs. unfold writeDepositLedger. wp_step. apply wp_NewUUID; intros g m. cbn beta iota.
  wp_step. unfold WriteLegs.
  assert ((sum64 (map l_AmountCents (deposit_legs p)) =? 0) = true) as ->
    by (apply Z.eqb_eq; by apply sum64_deposit).
  cbn [negb]. apply (wp_insert_all transactions); [intros w Hw NC; by apply Hf|].
  intros m'. apply wp_Enqueue; [by apply Hf|]. by apply (Hs g).
Qed.

Lemma deposit_balanced p g l :
  balanced l -> 0 < p_AmountCents p <= int64_max ->
  assert_txn_group_balanced l (l ++ map (leg_row g) (deposit_legs p)) = true.
Proof.
  intros Hb Ha. apply (zero_sum_legs_pass _ _ g); [done| |].
  - by intros r (x & <- & _)%in_map_iff.
  - rewrite sumZ_map. cbn. rewrite neg64_positive by done. lia.
Qed.

Lemma wp_CreateIntent `{StripeClient} a cur key ev c x n Q :
  (forall e m, stripe_answers ev a cur key (Err e) -> Q (Err e) (World c x m)) ->
  (forall i s m, stripe_answers ev a cur key (Ok (i, s)) -> Q (Ok (i, s)) (World c x m)) ->
  wp (CreateIntent a cur key) ev (World c x n) Q.
Proof.
  intros HE HQ. unfold wp. pose proof (CreateIntent_frame ev (World c x n) a cur key) as (H1 & H2 & _).
  destruct (snd (CreateIntent a cur key ev (World c x n))) as [c' x' m'] eqn:W; cbn in *; subst.
  destruct (fst (CreateIntent a cur key ev (World c x n))) as [[i s]|e] eqn:F;
    [apply HQ|apply HE]; by exists (World c x n).
Qed.

Ltac payment_rules :=
  lazymatch goal with
  | |- wp (CreateIntent _ _ _) _ _ _ => apply wp_CreateIntent; [intros ?e ?m ?ANS|intros ?i ?s ?m ?ANS]
  | |- wp (RandToken _) _ _ _ => apply wp_RandToken; intros ?tok ?m
  | |- wp (GetPaymentByIdempotencyKey _) _ _ _ =>
      apply wp_GetPaymentByIdempotencyKey; [intros ?NC|intros ?NF|intros ?p ?FP]
  | |- wp (GetPaymentByIntent _) _ _ _ =>
      apply wp_GetPaymentByIntent; [intros ?NC|intros ?NF|intros ?p ?FP]
  | |- wp (MarkSucceeded _ _) _ _ _ =>
      apply wp_MarkSucceeded; [|intros ?NC|intros ?NP ?w ?CW|intros ?p ?FS ?PR]
  | |- wp (writeDepositLedger _) _ _ _ =>
      apply wp_writeDepositLedger; [|intros ?w ?CW ?NC|intros ?g ?m]
  | |- wp (InsertPayment _ _ _ _ _ _) _ _ _ =>
      apply wp_InsertPayment; [|intros ?NC|intros ?BAD|intros ?cur3 ?CUR ?COL|intros ?cur3 ?CUR ?COL]
  | |- wp (InsertStripeEvent _ _ _) _ _ _ =>
      apply wp_InsertStripeEvent; [intros ?NC|intros ?DUP|intros ?NEW]
  | |- wp (MarkStripeEventProcessed _) _ _ _ =>
      apply wp_MarkStripeEventProcessed; [|intros ?NC|]
  end.

Ltac wp_hook ::= payment_rules.

Definition ends {A} (O : res payment_err A -> payment_db -> Prop)
  (r : res payment_err A) (w : world payment_db) : Prop :=
  txs w = NoTx /\ O r (committed w).

Lemma pay_no_legs_deferred before after :
  payment_ledger after = payment_ledger before -> deferred_ok before after = true.
Proof. intros E. cbv [deferred_ok payment_Deferred]. rewrite E. apply no_legs_pass. Qed.

Lemma has_idem_spec k p : has_idem k p = true <-> p_IdempotencyKey p = Some k.
Proof.
  unfold has_idem, opt_eqb. destruct (p_IdempotencyKey p) as [x|]; [|by split].
  rewrite String.eqb_eq. split; [by intros ->|by intros [= ->]].
Qed.

Lemma has_intent_spec i p : has_intent i p = true <-> p_StripePaymentIntentID p = Some i.
Proof.
  unfold has_intent, opt_eqb. destruct (p_StripePaymentIntentID p) as [x|]; [|by split].
  rewrite String.eqb_eq. split; [by intros ->|by intros [= ->]].
Qed.

Lemma collides_cases d u payer cid a cur i key t :
  collides d (new_payment u payer cid a cur i (key_ptr key) t) ->
  In u (map p_ID (payments d)) \/
  (key <> "" /\ exists q, In q (payments d) /\ has_idem key q = true) \/
  (exists q, In q (payments d) /\ has_intent i q = true).
Proof.
  unfold collides, key_ptr, has_idem, has_intent. cbn.
  intros [?|[(q & Hq & Hs)|(q & Hq & Hs)]]; [by left|right; left|right; right].
  - destruct (String.eqb_spec key ""); [by destruct (p_IdempotencyKey q)|]. split; [done|]. by exists q.
  - by exists q.
Qed.

Section Meets.
Context `{StripeClient} (ev : env) (d : payment_db) (n : nat) (HI : payment_inv d).

Lemma createFresh_meets payer cid a cur key m :
  0 < a <= int64_max ->
  wp (createFresh payer cid a cur key) ev (World d NoTx m) (ends (create_outcome payer cid a cur key ev d)).
Proof.
  intros Ha. unfold createFresh.
  wp_steps; unfold ends; cbn [committed txs].
  all: try (split; [done|by constructor]).
  all: try (apply collides_cases in COL).
  - done.
  - split; [done|]. destruct COL as [?|[(?&q&?&?)|(q&?&?)]].
    + by eapply create_id_clash.
    + by eapply create_readback_failed.
    + by eapply create_intent_clash.
  - split; [done|]. destruct COL as [?|[(?&q&Hq&?)|(q&?&?)]].
    + by eapply create_id_clash.
    + pose proof (List.find_none _ _ NF q Hq). congruence.
    + by eapply create_intent_clash.
  - split; [done|]. apply List.find_some in FP as [? ?].
    apply create_existing; try done. intros ->. by rewrite String.eqb_refl in Heqb.
  - split; [done|]. apply negb_false_iff, String.eqb_eq in Heqb as ->.
    destruct COL as [?|[(?&_)|(q&?&?)]]; [by eapply create_id_clash|done|by eapply create_intent_clash].
  - split; [done|]. eapply (create_done _ _ _ _ _ _ _ _ _ cur3 i s (clock ev m0)); try done. by left.
  - split; [done|]. eapply (create_done _ _ _ _ _ _ _ _ _ cur3 i s (clock ev m0)); try done. by right.
  - by rewrite pay_no_legs_deferred in DBAD.
Qed.

Lemma create_meets payer cid a cur key :
  int64_min <= a <= int64_max ->
  wp (CreatePaymentIntent payer cid a cur key) ev (rest d n)
    (ends (fun r d' => (a <= 0 /\ r = Err (Dom ErrAmountNotPositive) /\ d' = d) \/
       (0 < a /\ create_outcome payer cid a (if String.eqb cur "" then "USD" else cur) key ev d r d'))).
Proof.
  intros Ha. unfold CreatePaymentIntent, rest.
  wp_step. { wp_step. split; [done|]. left. split; [lia|done]. }
  cbv zeta. set (cur' := if String.eqb cur "" then "USD" else cur).
  assert (forall m, wp (createFresh payer cid a cur' key) ev (World d NoTx m)
    (ends (fun r d' => (a <= 0 /\ r = Err (Dom ErrAmountNotPositive) /\ d' = d) \/
       (0 < a /\ create_outcome payer cid a cur' key ev d r d')))) as HF.
  { intros m. eapply wp_mono; [apply (createFresh_meets payer cid a cur' key m); lia|].
    intros r w [Hn HO]. split; [done|]. right. split; [lia|done]. }
  assert (forall w r, txs w = NoTx -> create_outcome payer cid a cur' key ev d r (committed w) ->
    ends (fun r d' => (a <= 0 /\ r = Err (Dom ErrAmountNotPositive) /\ d' = d) \/
       (0 < a /\ create_outcome payer cid a cur' key ev d r d')) r w) as HO.
  { intros w r Hn Hc. split; [done|]. right. split; [lia|done]. }
  destruct (String.eqb_spec key "") as [->|Hk]; cbn [negb]; [apply HF|].
  wp_step. wp_step. wp_step.
  - wp_step. by apply HO; [|constructor].
  - apply HF.
  - wp_step. apply HO; [done|]. apply List.find_some in FP as [? ?]. by apply create_existing.
Qed.

Lemma confirm_meets id : wp (ConfirmPayment id) ev (rest d n) (ends (confirm_outcome id ev d)).
Proof.
  unfold ConfirmPayment, rest. wp_steps; unfold ends; cbn [committed txs].
  all: try (split; [done|by constructor]).
  all: try (rewrite CW; split; [done|by constructor]).
  all: try (destruct (find_key_In FS) as [Hp Hid]; pose proof (pinv_rows d HI p Hp) as [Ha _]).
  - apply (pinv_ids d HI).
  - rewrite CW. split; [done|]. apply confirm_refused. intros p Hp <-. apply NP.
    apply keyed_find; [apply (pinv_ids d HI)|done].
  - done.
  - subst id. split; [done|]. change (confirm_outcome (p_ID p) ev d (Ok (mark_succeeded ("ch_" ++ tok) (clock ev n) p)) (captured p ("ch_" ++ tok) (clock ev n) g d)).
    apply confirm_done; try done. by left.
  - subst id. split; [done|]. change (confirm_outcome (p_ID p) ev d (Err (Db Driver)) (captured p ("ch_" ++ tok) (clock ev n) g d)).
    apply confirm_done; try done. by right.
  - cbv [deferred_ok payment_Deferred] in DBAD. cbn [payment_ledger posted put payments_t] in DBAD.
    rewrite deposit_balanced in DBAD; [done|apply (pinv_balanced d HI)|done].
Qed.

(** Stamping the event just inserted. *)
Lemma stamp_new_event id typ raw t l :
  ~ In id (map se_id l) ->
  update_where (has_key se_id id) (processed t) (l ++ [mkStripeEvent id typ raw None t]) =
  l ++ [mkStripeEvent id typ raw (Some t) t].
Proof.
  intros Hn. unfold update_where. rewrite map_app. f_equal.
  - apply update_none. intros r Hr. apply has_key_false. intros K. destruct Hn.
    rewrite <- K. by apply in_map.
  - cbn. unfold has_key. cbn. by rewrite String.eqb_refl.
Qed.

Lemma event_tail id typ raw t v m (Q : res payment_err unit -> world payment_db -> Prop) :
  ~ In id (map se_id (stripe_events d)) ->
  stripe_events v = stripe_events d ++ [mkStripeEvent id typ raw None t] ->
  assert_txn_group_balanced (payment_ledger d) (payment_ledger v) = true ->
  (forall w, committed w = d -> ~ calm ev -> Q (Err (Db Driver)) w) ->
  (forall r w, committed w = mkPaymentDb (payments v)
       (stripe_events d ++ [mkStripeEvent id typ raw (Some t) t]) (payment_ledger v) (payment_outbox v) ->
     committed_or_lost ev tt r -> Q r w) ->
  wp (MarkStripeEventProcessed id ;;; commit) ev (World d (Live t v) m) Q.
Proof.
  intros Hn Hse Hl Hf Hs. wp_step. wp_step; rewrite ?Hse, ?stamp_new_event by done.
  - apply keyed_snoc; [apply (pinv_events d HI)|done].
  - by apply Hf.
  - wp_step.
    + apply Hs; [done|by left].
    + apply Hs; [done|by right].
    + by apply Hf.
    + cbv [deferred_ok payment_Deferred] in DBAD. cbn [payment_ledger put stripe_events_t] in DBAD.
      congruence.
Qed.

(** An event that moves no money. *)
Lemma recorded_tail id typ i raw m :
  ~ In id (map se_id (stripe_events d)) ->
  (typ = "payment_intent.succeeded" ->
     exists p, In p (payments d) /\ has_intent i p = true /\ is_processing p = false) ->
  wp (MarkStripeEventProcessed id ;;; commit) ev
    (World d (Live (clock ev (S n)) (mkPaymentDb (payments d)
       (stripe_events d ++ [mkStripeEvent id typ raw None (clock ev (S n))]) (payment_ledger d) (payment_outbox d))) m)
    (fun r w => NoTx = NoTx (D := payment_db) /\ event_outcome id typ i raw ev d r (committed w)).
Proof.
  intros Hn Hp. apply event_tail with (id := id) (typ := typ) (raw := raw) (t := clock ev (S n)); try done.
  - apply no_legs_pass.
  - intros w -> NC. split; [done|by constructor].
  - intros r w Hw Hr. split; [done|].
    assert (committed w = event_seen id typ raw (clock ev (S n)) d) as -> by exact Hw. by apply event_recorded.
Qed.

(** The transaction of a webhook. *)
Lemma event_meets id typ i raw :
  wp (in_tx (fresh <- InsertStripeEvent id typ raw ;;
        if negb fresh then rollback ;;; ret tt
        else
          (if String.eqb typ "payment_intent.succeeded" then
             r <- attempt (GetPaymentByIntent i) ;;
             match r with
             | Err (Dom ErrNotFound) => fail ErrNoPaymentForIntent
             | Err err => throw err
             | Ok p =>
                 if is_processing p then
                   token <- RandToken 12 ;;
                   marked <- MarkSucceeded (p_ID p) ("ch_" ++ token)%string ;;
                   writeDepositLedger marked
                 else ret tt
             end
           else ret tt) ;;;
          MarkStripeEventProcessed id ;;;
          commit)) ev (World d NoTx (S n)) (ends (event_outcome id typ i raw ev d)).
Proof.
  repeat lazymatch goal with
  | |- wp (MarkStripeEventProcessed _ ;;; _) _ _ _ => fail
  | |- _ => wp_step
  end; unfold ends; cbn [committed txs] in *.
  all: try (split; [done|by constructor]).
  all: try (rewrite CW; split; [done|by constructor]).
  all: cbn [payments put stripe_events_t payments_t] in *.
  all: try (apply List.find_some in FP as [Hp Hpi]; pose proof (pinv_rows d HI p Hp) as [Ha _];
    pose proof (keyed_find p_ID _ p (pinv_ids d HI) Hp) as HF).
  all: try (rewrite HF in FS; injection FS as <-).
  - split; [done|]. apply event_no_payment; [done|by apply String.eqb_eq|by apply List.find_none].
  - apply (pinv_ids d HI).
  - rewrite NP in Heqb0; done.
  - done.
  - apply event_tail with (id := id) (typ := typ) (raw := raw); try done.
    + by apply deposit_balanced; [apply (pinv_balanced d HI)|].
    + intros w -> NC. split; [done|by constructor].
    + intros r w Hw Hr. split; [done|].
      assert (committed w = event_seen id typ raw (clock ev (S n))
        (captured p ("ch_" ++ tok)%string (clock ev (S n)) g d)) as -> by exact Hw.
      apply event_captured; try done. by apply String.eqb_eq.
  - apply recorded_tail; [done|by exists p].
  - apply recorded_tail; [done|]. intros ->. by rewrite String.eqb_refl in Heqb.
Qed.

Lemma webhook_meets secret unmarshal raw sig :
  wp (HandleWebhook secret unmarshal raw sig) ev (rest d n)
    (ends (webhook_outcome secret unmarshal raw sig ev d)).
Proof.
  unfold HandleWebhook, rest. wp_step. wp_step.
  destruct (verifySignature _ raw sig secret) as [e|] eqn:V.
  { wp_step. split; [done|]. by eapply webhook_bad_signature. }
  destruct (parse_event (unmarshal raw)) as [[[id typ] i]|] eqn:P.
  2:{ wp_step. split; [done|]. by apply webhook_unparsed. }
  destruct (String.eqb_spec id "") as [->|Hid].
  { wp_step. split; [done|]. by eapply webhook_no_id. }
  eapply wp_mono; [apply event_meets|]. intros r w [Hn HO]. split; [done|]. by eapply webhook_event.
Qed.
End Meets.

(** ** Preservation of the invariant *)

Lemma empty_payment_inv : payment_inv empty_payment_db.
Proof. constructor; try done; constructor. Qed.

Lemma created_inv u payer cid a cur i key t d :
  payment_inv d -> 0 < a <= int64_max ->
  ~ collides d (new_payment u payer cid a cur i (key_ptr key) t) ->
  payment_inv (created (new_payment u payer cid a cur i (key_ptr key) t) d).
Proof.
  intros HI Ha Hc. set (p := new_payment u payer cid a cur i (key_ptr key) t) in *.
  assert (forall f : Payment -> option string,
    (forall x, In x (payments d) -> opt_same (f x) (f p) = false) ->
    (forall x y, In x (payments d) -> In y (payments d) -> opt_same (f x) (f y) = true -> x = y) ->
    forall x y, In x (payments d ++ [p]) -> In y (payments d ++ [p]) ->
      opt_same (f x) (f y) = true -> x = y) as Huniq.
  { assert (forall a b, opt_same a b = opt_same b a) as Hsym
      by (intros [?|] [?|]; cbn; auto using String.eqb_sym).
    intros f Hn Hu x y [Hx|[<-|[]]]%in_app_iff [Hy|[<-|[]]]%in_app_iff Hs; auto.
    - by rewrite Hn in Hs.
    - by rewrite Hsym, Hn in Hs. }
  assert (forall id g, g p = 0 -> at_key p_ID g id (payments d ++ [p]) = at_key p_ID g id (payments d)) as Hat.
  { intros id g Hg. rewrite at_key_snoc, Hg. case_match; lia. }
  destruct HI. constructor; cbn [created payments stripe_events payment_ledger payment_outbox]; auto.
  - apply keyed_snoc; [done|]. intros Hin. apply Hc. by left.
  - intros x [?|[<-|[]]]%in_app_iff; auto. split; [done|by left].
  - apply Huniq; [|done]. intros x Hx. destruct (opt_same _ _) eqn:S; [|done].
    destruct Hc. right. left. by exists x.
  - apply Huniq; [|done]. intros x Hx. destruct (opt_same _ _) eqn:S; [|done].
    destruct Hc. right. right. by exists x.
  - intros id. by rewrite Hat.
  - intros id. by rewrite Hat.
  - intros id. by rewrite Hat.
Qed.

Lemma captured_inv p ch t g d :
  payment_inv d -> In p (payments d) -> is_processing p = true -> payment_inv (captured p ch t g d).
Proof.
  intros HI Hp Hpr. pose proof (keyed_find p_ID _ p (pinv_ids d HI) Hp) as HF.
  destruct (pinv_rows d HI p Hp) as [Ha _].
  assert (is_succeeded p = false) as Hns.
  { unfold is_processing, is_succeeded in *. apply String.eqb_eq in Hpr. by rewrite Hpr. }
  assert (forall id, at_key p_ID captured_cents id (payments (captured p ch t g d)) =
    at_key p_ID captured_cents id (payments d) + (if String.eqb (p_ID p) id then p_AmountCents p else 0)) as Hat.
  { intros id. cbn [captured payments]. rewrite (at_key_update p_ID p_ID _ _ _ _ _ p) by (done || apply (pinv_ids d HI)).
    unfold captured_cents. rewrite Hns. change (is_succeeded (mark_succeeded ch t p)) with true.
    cbn [mark_succeeded p_AmountCents]. unfold has_key. case_match; lia. }
  destruct HI. constructor; auto.
  - cbn [captured payments]. by apply keyed_update.
  - cbn [captured payments]. intros x [[? _]|(x0&Hx&_&->)]%In_update; auto.
    destruct (pinv_rows0 x0 Hx). split; [done|by right].
  - cbn [captured payments]. intros x y Hx Hy Hs.
    apply in_map_iff in Hx as (x0 & <- & Hx), Hy as (y0 & <- & Hy).
    assert (x0 = y0) as ->; [|done]. apply pinv_idem0; [done..|].
    revert Hs. by do 2 case_match.
  - cbn [captured payments]. intros x y Hx Hy Hs.
    apply in_map_iff in Hx as (x0 & <- & Hx), Hy as (y0 & <- & Hy).
    assert (x0 = y0) as ->; [|done]. apply pinv_intent0; [done..|].
    revert Hs. by do 2 case_match.
  - cbn [captured payment_ledger]. apply trigger_keeps_balanced; [done|]. by apply deposit_balanced.
  - intros id. rewrite Hat. cbn [captured payment_ledger]. rewrite balance_app, pinv_escrow0.
    cbn. case_match; lia.
  - intros id. rewrite Hat. cbn [captured payment_ledger]. rewrite balance_app, pinv_clearing0.
    cbn. rewrite neg64_positive by done. case_match; lia.
  - intros id. cbn [captured payment_ledger]. rewrite balance_app, pinv_funding0.
    cbn. rewrite neg64_positive by done. case_match; lia.
  - intros id. cbn [captured payment_outbox payments]. unfold enqueued, captured_events.
    rewrite countZ_snoc. fold (captured_events id (payment_outbox d)). rewrite pinv_captured0.
    rewrite (at_key_update p_ID p_ID _ _ _ _ _ p) by done. rewrite Hns.
    change (is_succeeded (mark_succeeded ch t p)) with true.
    unfold has_key. cbn. case_match; lia.
Qed.

Lemma event_seen_inv id typ raw t d :
  payment_inv d -> ~ In id (map se_id (stripe_events d)) -> payment_inv (event_seen id typ raw t d).
Proof.
  intros HI Hn. destruct HI. constructor; cbn [event_seen payments stripe_events payment_ledger payment_outbox]; auto.
  by apply keyed_snoc.
Qed.
