(* ===== verification/PaymentProofs.v ===== *)
(** * Properties of the payment service

    Deposits and webhooks take effect once, which signatures are accepted, the
    events of the service on the bus, and its routes. *)
From S2P Require Export PaymentSpec.
From S2P Require Export Relay.

(** ** Operations and reachable databases *)

Inductive payment_op :=
| OpCreate (payer : string) (cid : option string) (a : Z) (cur key : string)
| OpConfirm (id : string)
| OpWebhook (raw sig : string).

Definition pop_in_range (op : payment_op) : Prop :=
  match op with OpCreate _ _ a _ _ => int64_min <= a <= int64_max | _ => True end.

(** The database after a call on a world at rest. *)
Definition pafter {A} (m : pprog A) (ev : env) (d : payment_db) (n : nat) : payment_db :=
  committed (snd (m ev (rest d n))).

Section Service.
Context `{StripeClient} (secret : string) (unmarshal : string -> option json).

Definition run_pop (op : payment_op) : pprog unit :=
  match op with
  | OpCreate payer cid a cur key => CreatePaymentIntent payer cid a cur key ;;; ret tt
  | OpConfirm id => ConfirmPayment id ;;; ret tt
  | OpWebhook raw sig => HandleWebhook secret unmarshal raw sig
  end.

Inductive payment_reachable : payment_db -> Prop :=
| preach_empty : payment_reachable empty_payment_db
| preach_op d op ev n : payment_reachable d -> pop_in_range op ->
    payment_reachable (pafter (run_pop op) ev d n).

(** What a call may leave behind. *)
Definition pop_effect (op : payment_op) (ev : env) (d d' : payment_db) : Prop :=
  match op with
  | OpCreate payer cid a cur key =>
      d' = d \/ (0 < a /\ exists r, create_outcome payer cid a (if String.eqb cur "" then "USD" else cur) key ev d r d')
  | OpConfirm id => exists r, confirm_outcome id ev d r d'
  | OpWebhook raw sig => exists r, webhook_outcome secret unmarshal raw sig ev d r d'
  end.

Lemma pop_meets op ev d n :
  payment_inv d -> pop_in_range op ->
  wp (run_pop op) ev (rest d n) (fun _ w => pop_effect op ev d (committed w)).
Proof.
  intros HI Hr. destruct op; cbn [run_pop pop_effect pop_in_range] in *.
  - apply wp_bind. eapply wp_mono; [by apply create_meets|].
    intros [x|x] w [_ [(_ & _ & E)|[Hpos HO]]]; try apply wp_ret; eauto.
  - apply wp_bind. eapply wp_mono; [by apply confirm_meets|].
    intros [x|x] w [_ HO]; try apply wp_ret; eauto.
  - eapply wp_mono; [by apply webhook_meets|]. intros r w [_ HO]. eauto.
Qed.

Lemma event_outcome_inv id typ i raw ev d r d' :
  payment_inv d -> event_outcome id typ i raw ev d r d' -> payment_inv d'.
Proof.
  intros HI HO. destruct HO; auto using event_seen_inv, captured_inv.
Qed.

Lemma pop_effect_inv op ev d d' :
  payment_inv d -> pop_in_range op -> pop_effect op ev d d' -> payment_inv d'.
Proof.
  intros HI Hr. destruct op; cbn.
  - intros [->|[Ha [r HO]]]; [done|]. cbn in Hr.
    destruct HO; auto. apply created_inv; [done|lia|done].
  - intros [r HO]. destruct HO; auto using captured_inv.
  - intros [r HO]. destruct HO; eauto using event_outcome_inv.
Qed.

Lemma preachable_inv d : payment_reachable d -> payment_inv d.
Proof.
  induction 1 as [|d op ev n Hd IH Hr]; [apply empty_payment_inv|].
  eapply pop_effect_inv; [done|done|]. exact (pop_meets op ev d n IH Hr).
Qed.

Fixpoint run_pops (l : list (payment_op * env * nat)) (d : payment_db) : payment_db :=
  match l with
  | [] => d
  | (op, ev, n) :: l' => run_pops l' (pafter (run_pop op) ev d n)
  end.

Definition pops_in_range (l : list (payment_op * env * nat)) : Prop :=
  Forall (fun x => pop_in_range (fst (fst x))) l.

Lemma run_pops_preserves (P : payment_db -> Prop) l d :
  (forall op ev d d', payment_inv d -> pop_in_range op -> pop_effect op ev d d' -> P d -> P d') ->
  payment_inv d -> pops_in_range l -> P d -> payment_inv (run_pops l d) /\ P (run_pops l d).
Proof.
  intros HP HI Hl. revert d HI. induction Hl as [|[[op ev] n] l Hop _ IH]; intros d HI Hd; [done|].
  pose proof (pop_meets op ev d n HI Hop) as HO. cbn. apply IH; [by eapply pop_effect_inv|].
  by eapply HP.
Qed.

Lemma run_pops_reachable l d :
  payment_reachable d -> pops_in_range l -> payment_reachable (run_pops l d).
Proof.
  intros Hd Hl. revert d Hd. induction Hl as [|[[op ev] n] l Hop _ IH]; intros d Hd; [done|].
  cbn. apply IH. by constructor.
Qed.

(** Recorded events stay recorded. *)
Lemma events_grow op ev d d' id :
  pop_effect op ev d d' -> In id (map se_id (stripe_events d)) -> In id (map se_id (stripe_events d')).
Proof.
  intros HE Hin. destruct op; cbn in HE.
  - destruct HE as [->|[_ [r HO]]]; [done|]. by destruct HO.
  - destruct HE as [r HO]. by destruct HO.
  - destruct HE as [r HO]. destruct HO as [| | |now id' typ i r d' _ _ _ HO]; try done.
    destruct HO; try done; cbn; rewrite map_app; apply in_app_iff; by left.
Qed.

(** Payments keep their key, intent, amount and payer. *)
Lemma payments_kept op ev d d' p :
  pop_effect op ev d d' -> In p (payments d) ->
  exists p', In p' (payments d') /\ p_ID p' = p_ID p /\ p_IdempotencyKey p' = p_IdempotencyKey p /\
    p_StripePaymentIntentID p' = p_StripePaymentIntentID p /\ p_AmountCents p' = p_AmountCents p.
Proof.
  intros HE Hp.
  assert (forall q ch t g, exists p', In p' (payments (captured q ch t g d)) /\ p_ID p' = p_ID p /\
    p_IdempotencyKey p' = p_IdempotencyKey p /\
    p_StripePaymentIntentID p' = p_StripePaymentIntentID p /\ p_AmountCents p' = p_AmountCents p) as Hc.
  { intros q ch t g. exists (if has_key p_ID (p_ID q) p then mark_succeeded ch t p else p).
    split; [apply in_map_iff; by exists p|]. by destruct (has_key p_ID (p_ID q) p). }
  destruct op; cbn in HE.
  - destruct HE as [->|[_ [r HO]]]; [by exists p|]. destruct HO; try by exists p.
    exists p. split; [apply in_app_iff; by left|done].
  - destruct HE as [r HO]. destruct HO; try by exists p. apply Hc.
  - destruct HE as [r HO]. destruct HO as [| | |now id' typ i r d' _ _ _ HO]; try by exists p.
    destruct HO; try by exists p. apply Hc.
Qed.

(** ** Theorems *)

(** Refinement of the payment operations. From any reachable database and
    under any faults, each call closes its transaction and ends in an outcome of
    its specification: an intent created, found again or refused with nothing
    stored; a payment captured once, whole, or not at all; a webhook refused,
    recognised as a duplicate, or recorded together with its effect. *)
Theorem payment_ops_meet_spec d ev n :
  payment_reachable d ->
  (forall payer cid a cur key, int64_min <= a <= int64_max ->
     wp (CreatePaymentIntent payer cid a cur key) ev (rest d n) (fun r w => txs w = NoTx /\
       ((a <= 0 /\ r = Err (Dom ErrAmountNotPositive) /\ committed w = d) \/
        (0 < a /\ create_outcome payer cid a (if String.eqb cur "" then "USD" else cur) key ev d r (committed w))))) /\
  (forall id, wp (ConfirmPayment id) ev (rest d n)
     (fun r w => txs w = NoTx /\ confirm_outcome id ev d r (committed w))) /\
  (forall raw sig, wp (HandleWebhook secret unmarshal raw sig) ev (rest d n)
     (fun r w => txs w = NoTx /\ webhook_outcome secret unmarshal raw sig ev d r (committed w))).
Proof.
  intros Hd. pose proof (preachable_inv d Hd) as HI. split; [|split].
  - intros. by apply create_meets.
  - intros. by apply confirm_meets.
  - intros. by apply webhook_meets.
Qed.

(** C4: Every deposit is posted exactly once. In every reachable database the
    ledger credits the escrow account, on behalf of a payment, with exactly its
    amount when it succeeded and nothing otherwise; the clearing account carries
    the opposite amount, the funding account nets to zero, and exactly one
    payment.captured event is in the outbox. Confirmations, webhooks, retries and
    lost acknowledgements cannot post it twice or lose it. *)
Theorem deposit_exactly_once d p :
  payment_reachable d -> In p (payments d) ->
  let posted := if String.eqb (p_Status p) "succeeded" then p_AmountCents p else 0 in
  balance (kind_of_payment "escrow" (p_ID p)) (payment_ledger d) = posted /\
  balance (kind_of_payment "stripe_clearing" (p_ID p)) (payment_ledger d) = - posted /\
  balance (kind_of_payment "client_funding" (p_ID p)) (payment_ledger d) = 0 /\
  captured_events (p_ID p) (payment_outbox d) = (if String.eqb (p_Status p) "succeeded" then 1 else 0) /\
  (forall g, group_sum g (payment_ledger d) = 0).
Proof.
  intros Hd Hp posted. pose proof (preachable_inv d Hd) as HI.
  pose proof (fun g => at_key_In p_ID g (payments d) p (pinv_ids d HI) Hp) as Hat.
  rewrite (pinv_escrow d HI), (pinv_clearing d HI), (pinv_captured d HI), !Hat.
  split; [done|]. split; [done|]. split; [apply (pinv_funding d HI)|]. split; [done|].
  apply (pinv_balanced d HI).
Qed.

(** Creating an intent is idempotent. Once a payment with a key exists, any
    later creation with that key, by whatever caller, amount and currency, under
    any faults, stores nothing; when nothing fails it answers that payment. *)
Theorem create_intent_idempotent d payer cid a cur key p ev n :
  payment_reachable d -> 0 < a <= int64_max -> key <> "" ->
  In p (payments d) -> p_IdempotencyKey p = Some key ->
  pafter (CreatePaymentIntent payer cid a cur key) ev d n = d /\
  (calm ev -> fst (CreatePaymentIntent payer cid a cur key ev (rest d n)) = Ok (resultFromPayment p)).
Proof.
  intros Hd Ha Hk Hp Hpk. pose proof (preachable_inv d Hd) as HI.
  assert (exists q, List.find (has_idem key) (payments d) = Some q /\ q = p) as (q & HF & ->).
  { destruct (List.find (has_idem key) (payments d)) as [q|] eqn:F.
    - exists q. split; [done|]. apply List.find_some in F as [Hq Hqk].
      apply (pinv_idem d HI); [done..|]. apply has_idem_spec in Hqk. rewrite Hqk, Hpk.
      cbn. apply String.eqb_refl.
    - pose proof (List.find_none _ _ F p Hp) as Hn. rewrite (proj2 (has_idem_spec key p) Hpk) in Hn. done. }
  cut (wp (CreatePaymentIntent payer cid a cur key) ev (rest d n)
    (fun r w => committed w = d /\ (calm ev -> r = Ok (resultFromPayment p)))); [done|].
  unfold CreatePaymentIntent, rest. wp_step; [lia|]. cbv zeta.
  rewrite (proj2 (String.eqb_neq key "") Hk). cbn [negb].
  wp_step. wp_step. wp_step; [wp_step; by split|congruence|]. wp_step.
  split; [done|]. congruence.
Qed.

(** C5: A Stripe event takes effect at most once. After a webhook changed the
    database, whatever runs in between, a redelivery of an event with the same id
    changes nothing, and is acknowledged when nothing fails. *)
Theorem webhook_exactly_once d raw sig ev n ops raw' sig' id typ i typ' i' ev' n' :
  payment_reachable d -> pops_in_range ops ->
  parse_event (unmarshal raw) = Some (id, typ, i) ->
  parse_event (unmarshal raw') = Some (id, typ', i') ->
  pafter (HandleWebhook secret unmarshal raw sig) ev d n <> d ->
  let d2 := run_pops ops (pafter (HandleWebhook secret unmarshal raw sig) ev d n) in
  pafter (HandleWebhook secret unmarshal raw' sig') ev' d2 n' = d2 /\
  (calm ev' -> (forall now, verifySignature now raw' sig' secret = None) ->
   fst (HandleWebhook secret unmarshal raw' sig' ev' (rest d2 n')) = Ok tt).
Proof.
  intros Hd Hops Hp Hp' Hne d2. pose proof (preachable_inv d Hd) as HI.
  pose proof (webhook_meets ev d n HI secret unmarshal raw sig) as [_ HO].
  assert (In id (map se_id (stripe_events (pafter (HandleWebhook secret unmarshal raw sig) ev d n)))
    /\ id <> "") as [Hin Hid].
  { unfold pafter in *. destruct HO as [| | |now id0 typ0 i0 r d' _ Hp0 Hid HO]; try done.
    rewrite Hp in Hp0. injection Hp0 as -> -> ->. split; [|done].
    destruct HO; try done; cbn; rewrite map_app; apply in_app_iff; right; by left. }
  destruct (run_pops_preserves (fun d => In id (map se_id (stripe_events d))) ops
    (pafter (HandleWebhook secret unmarshal raw sig) ev d n)) as [HI2 Hin2]; [|  |done|done|].
  { intros op ev0 x x' _ _ HE. by apply (events_grow op ev0 x x'). }
  { eapply (pop_effect_inv (OpWebhook raw sig) ev d); [done|done|]. by eexists. }
  fold d2 in HI2, Hin2.
  pose proof (webhook_meets ev' d2 n' HI2 secret unmarshal raw' sig') as [_ HO2].
  revert HO2. unfold pafter. generalize (fst (HandleWebhook secret unmarshal raw' sig' ev' (rest d2 n'))),
    (committed (snd (HandleWebhook secret unmarshal raw' sig' ev' (rest d2 n')))). intros r dd HO2.
  destruct HO2 as [now e Hv|Hu|typ0 i0 Hu|now id0 typ0 i0 r d' _ Hp0 _ HO2].
  - split; [done|]. intros _ Hv'. by rewrite Hv' in Hv.
  - congruence.
  - rewrite Hp' in Hu. injection Hu as -> _ _. done.
  - rewrite Hp' in Hp0. injection Hp0 as <- <- <-. destruct HO2; try done.
Qed.

(** A webhook captures its payment. When nothing fails, a verified, new
    payment_intent.succeeded event about a payment still processing is
    acknowledged, and one commit stores the payment's capture, its ledger legs,
    its event and the record that the Stripe event was processed. *)
Theorem webhook_captures d raw sig id i p ev n :
  payment_reachable d -> calm ev ->
  (forall now, verifySignature now raw sig secret = None) ->
  parse_event (unmarshal raw) = Some (id, "payment_intent.succeeded", i) -> id <> "" ->
  ~ In id (map se_id (stripe_events d)) ->
  In p (payments d) -> p_StripePaymentIntentID p = Some i -> p_Status p = "processing" ->
  exists ch t g,
    fst (HandleWebhook secret unmarshal raw sig ev (rest d n)) = Ok tt /\
    pafter (HandleWebhook secret unmarshal raw sig) ev d n =
      event_seen id "payment_intent.succeeded" raw t (captured p ch t g d).
Proof.
  intros Hd Hc Hv Hp Hid Hnew Hin Hpi Hst. pose proof (preachable_inv d Hd) as HI.
  pose proof (webhook_meets ev d n HI secret unmarshal raw sig) as [_ HO].
  assert (has_intent i p = true) as Hpi' by by apply has_intent_spec.
  assert (forall q, In q (payments d) -> has_intent i q = true -> q = p) as Hone.
  { intros q Hq Hqi%has_intent_spec. apply (pinv_intent d HI); [done..|]. rewrite Hqi, Hpi.
    cbn. apply String.eqb_refl. }
  revert HO. unfold pafter. generalize (fst (HandleWebhook secret unmarshal raw sig ev (rest d n))),
    (committed (snd (HandleWebhook secret unmarshal raw sig ev (rest d n)))). intros r dd HO.
  destruct HO as [now e Hv'|Hu|typ0 i0 Hu|now id0 typ0 i0 r d' _ Hp0 _ HO]; try congruence.
  rewrite Hp in Hp0. injection Hp0 as <- <- <-.
  destruct HO as [|Hdup|_ _ Hno|r t _ Hex _|r q ch t g _ _ Hq Hqi _ Hr]; try done.
  - rewrite Hno in Hpi'; done.
  - destruct (Hex eq_refl) as (q & Hq & Hqi & Hqp). assert (q = p) as -> by auto.
    unfold is_processing in Hqp. by rewrite Hst in Hqp.
  - assert (q = p) as -> by auto. exists ch, t, g. by destruct Hr as [->|[_ ?]].
Qed.

(** Forged webhooks have no effect. With a signing secret configured, a
    webhook changes the database only if its header carries the hex HMAC-SHA256,
    under that secret, of the header's timestamp and the exact body. *)
Theorem forged_webhook_has_no_effect d raw sig ev n :
  payment_reachable d -> secret <> "" ->
  pafter (HandleWebhook secret unmarshal raw sig) ev d n <> d ->
  exists ts v1s, sig_parts sig = (ts, v1s) /\
    In (hex_encode (hmac_sha256 (bytes_of secret) (bytes_of (ts ++ "." ++ raw)%string))) v1s.
Proof.
  intros Hd Hs Hne. pose proof (preachable_inv d Hd) as HI.
  pose proof (webhook_meets ev d n HI secret unmarshal raw sig) as [_ HO].
  unfold pafter in Hne. destruct HO as [| | |now id typ i r d' Hv _ _ _]; try done.
  unfold verifySignature in Hv. rewrite (proj2 (String.eqb_neq secret "") Hs) in Hv.
  destruct (sig_parts sig) as [ts v1s] eqn:P. exists ts, v1s. split; [done|].
  destruct (_ || _); [done|]. destruct (parse_int ts); [|done]. cbv zeta in Hv.
  destruct (webhookTolerance <? _); [done|]. destruct (existsb _ v1s) eqn:E; [|done].
  by apply existsb_exists in E as (x & Hx & <-%String.eqb_eq).
Qed.
End Service.

(** ** Webhook signatures *)

(** The timestamps the tolerance check lets through: within the tolerance, or
    so far in the future that the int64 duration saturates at its minimum, whose
    negation is itself. *)
Definition time_accepted (now ts : Z) : Prop :=
  Z.abs (now - ts * 1000000000) <= webhookTolerance \/
  (now - ts * 1000000000 <= int64_min /\ ts <= int64_max - unixToInternal).

Definition skew_of (now ts : Z) : Z :=
  let skew := time_since now ts in if skew <? 0 then neg64 skew else skew.

Lemma neg64_min : neg64 int64_min = int64_min.
Proof. reflexivity. Qed.

(** The duration, when the seconds fit. *)
Lemma skew_saturated d :
  let skew := if d <? int64_min then int64_min else if int64_max <? d then int64_max else d in
  (webhookTolerance <? (if skew <? 0 then neg64 skew else skew)) = false <->
  Z.abs d <= webhookTolerance \/ d <= int64_min.
Proof.
  cbv zeta. assert (webhookTolerance = 300000000000) as HT by done.
  assert (int64_min = -9223372036854775808) as Hmin by done.
  assert (int64_max = 9223372036854775807) as Hmax by done.
  rewrite Z.ltb_ge.
  destruct (Z.ltb_spec d int64_min).
  { destruct (Z.ltb_spec int64_min 0); [|lia]. rewrite neg64_min. lia. }
  destruct (Z.ltb_spec int64_max d).
  { destruct (Z.ltb_spec int64_max 0); lia. }
  destruct (Z.eq_dec d int64_min) as [->|].
  { destruct (Z.ltb_spec int64_min 0); [|lia]. rewrite neg64_min. lia. }
  destruct (Z.ltb_spec d 0); [|lia].
  unfold neg64. rewrite wrap64_id by lia. lia.
Qed.

Lemma skew_within now ts :
  0 <= now <= int64_max -> int64_min <= ts <= int64_max ->
  (webhookTolerance <? skew_of now ts) = false <-> time_accepted now ts.
Proof.
  intros Hn Ht. unfold skew_of, time_accepted, time_since. rewrite skew_saturated.
  assert (unixToInternal = 62135596800) as HU by done.
  assert (webhookTolerance = 300000000000) as HT by done.
  assert (int64_min = -9223372036854775808) as Hmin by done.
  assert (int64_max = 9223372036854775807) as Hmax by done.
  destruct (Z.le_gt_cases ts (int64_max - unixToInternal)) as [Hw|Hw].
  - rewrite wrap64_id by lia. lia.
  - assert (wrap64 (ts + unixToInternal) = ts + unixToInternal - 2 ^ 64) as ->; [|lia].
    unfold wrap64. change (2 ^ 64) with 18446744073709551616. change (2 ^ 63) with 9223372036854775808.
    rewrite <- (Z.mod_unique_pos _ 18446744073709551616 1 (ts + unixToInternal - 9223372036854775808)); lia.
Qed.

(** C40: Signature verification. With a secret, a webhook header is accepted
    exactly when it has a timestamp and a v1 signature equal to the hex
    HMAC-SHA256 of "timestamp.body" under the secret, and the timestamp is
    within five minutes of the clock, or beyond the range of a Go duration in
    the future. Any one matching v1 value suffices, as key rotation needs. *)
Theorem verifySignature_accepts_iff now raw header secret :
  0 <= now <= int64_max -> secret <> "" ->
  verifySignature now raw header secret = None <->
  exists ts v1s tsUnix, sig_parts header = (ts, v1s) /\ ts <> "" /\ parse_int ts = Some tsUnix /\
    time_accepted now tsUnix /\
    In (hex_encode (hmac_sha256 (bytes_of secret) (bytes_of (ts ++ "." ++ raw)%string))) v1s.
Proof.
  intros Hn Hs. unfold verifySignature. rewrite (proj2 (String.eqb_neq secret "") Hs).
  destruct (sig_parts header) as [ts v1s]. split.
  - destruct (String.eqb_spec ts "") as [|Hts]; [done|]. cbn [orb].
    destruct (List.length v1s =? 0)%nat; [done|].
    destruct (parse_int ts) as [tsUnix|] eqn:P; [|done]. fold (skew_of now tsUnix).
    destruct (webhookTolerance <? skew_of now tsUnix) eqn:T; [done|].
    apply skew_within in T; [|done|by eapply parse_int_range].
    destruct (existsb _ v1s) eqn:E; [|done]. intros _. exists ts, v1s, tsUnix.
    by apply existsb_exists in E as (x & Hx & <-%String.eqb_eq).
  - intros (ts' & v1s' & tsUnix & [= <- <-] & Hts & P & T & Hin).
    rewrite (proj2 (String.eqb_neq ts "") Hts), P. cbn [orb].
    destruct (Nat.eqb_spec (List.length v1s) 0) as [E|_]; [by destruct v1s|].
    fold (skew_of now tsUnix).
    apply skew_within in T as ->; [|done|by eapply parse_int_range].
    assert (existsb (String.eqb (expected_sig secret ts raw)) v1s = true) as ->; [|done].
    apply existsb_exists. eexists. split; [exact Hin|]. apply String.eqb_refl.
Qed.

(** ** Concrete databases, for the witnesses *)

Definition demo_secret : string := "whsec_demo".

Definition demo_intent : string := "pi_000102030405060708090a0b".

Definition demo_unmarshal (raw : string) : option json :=
  if String.eqb raw "evt_1" then
    Some (JObj [("id", JStr "evt_1"); ("type", JStr "payment_intent.succeeded");
      ("data", JObj [("object", JObj [("id", JStr demo_intent)])])])
  else None.

(** The header Stripe would send for the body at time [ts]. *)
Definition demo_header (ts raw : string) : string :=
  ("t=" ++ ts ++ ",v1=" ++ expected_sig demo_secret ts raw)%string.

Definition created_ops : list (payment_op * env * nat) :=
  [(OpCreate "alice" (Some "c1") 500 "" "k1", quiet_env, 0%nat)].

Definition created_db : payment_db :=
  Eval vm_compute in run_pops demo_secret demo_unmarshal created_ops empty_payment_db.

Definition created_payment : Payment :=
  Eval vm_compute in nth 0 (payments created_db) (new_payment "" "" None 0 "" "" None 0).

Lemma created_reachable : payment_reachable demo_secret demo_unmarshal created_db.
Proof.
  change created_db with (run_pops demo_secret demo_unmarshal created_ops empty_payment_db).
  apply run_pops_reachable; [constructor|].
  repeat constructor; cbn; unfold int64_min, int64_max; lia.
Qed.

Definition captured_db : payment_db :=
  Eval vm_compute in pafter (HandleWebhook "" demo_unmarshal "evt_1" "") quiet_env created_db 20.

Lemma captured_reachable : payment_reachable "" demo_unmarshal captured_db.
Proof.
  change captured_db with (run_pops "" demo_unmarshal
    (created_ops ++ [(OpWebhook "evt_1" "", quiet_env, 20%nat)]) empty_payment_db).
  apply run_pops_reachable; [constructor|].
  repeat constructor; cbn; unfold int64_min, int64_max; lia.
Qed.

Lemma payment_ops_meet_spec_witness :
  wp (ConfirmPayment (p_ID created_payment)) quiet_env (rest created_db 20)
    (fun r w => txs w = NoTx /\ confirm_outcome (p_ID created_payment) quiet_env created_db r (committed w)).
Proof.
  exact (proj1 (proj2 (payment_ops_meet_spec demo_secret demo_unmarshal created_db quiet_env 20
    created_reachable)) (p_ID created_payment)).
Defined.

Lemma deposit_exactly_once_witness :
  balance (kind_of_payment "escrow" (p_ID created_payment)) (payment_ledger captured_db) = 500.
Proof.
  exact (proj1 (deposit_exactly_once "" demo_unmarshal captured_db
    (nth 0 (payments captured_db) created_payment) captured_reachable (or_introl eq_refl))).
Defined.

Lemma create_intent_idempotent_witness :
  pafter (CreatePaymentIntent "mallory" None 9 "EUR" "k1") quiet_env created_db 30 = created_db /\
  fst (CreatePaymentIntent "mallory" None 9 "EUR" "k1" quiet_env (rest created_db 30)) =
    Ok (resultFromPayment created_payment).
Proof.
  destruct (create_intent_idempotent demo_secret demo_unmarshal created_db "mallory" None 9 "EUR" "k1"
    created_payment quiet_env 30) as [H1 H2].
  - apply created_reachable.
  - unfold int64_max; lia.
  - discriminate.
  - by left.
  - reflexivity.
  - split; [exact H1|exact (H2 quiet_calm)].
Defined.

Lemma webhook_exactly_once_witness :
  let d2 := run_pops "" demo_unmarshal [(OpConfirm (p_ID created_payment), quiet_env, 40%nat)]
    (pafter (HandleWebhook "" demo_unmarshal "evt_1" "") quiet_env created_db 20) in
  pafter (HandleWebhook "" demo_unmarshal "evt_1" "") quiet_env d2 60 = d2.
Proof.
  intros d2.
  destruct (webhook_exactly_once "" demo_unmarshal created_db "evt_1" "" quiet_env 20
    [(OpConfirm (p_ID created_payment), quiet_env, 40%nat)] "evt_1" "" "evt_1"
    "payment_intent.succeeded" demo_intent "payment_intent.succeeded" demo_intent quiet_env 60) as [HD _].
  - change created_db with (run_pops "" demo_unmarshal created_ops empty_payment_db).
    apply run_pops_reachable; [constructor|].
    repeat constructor; cbn; unfold int64_min, int64_max; lia.
  - repeat constructor.
  - reflexivity.
  - reflexivity.
  - intros H. apply (f_equal (fun d => List.length (stripe_events d))) in H.
    vm_compute in H. discriminate.
  - exact HD.
Defined.

Lemma webhook_captures_witness :
  exists ch t g,
    pafter (HandleWebhook "" demo_unmarshal "evt_1" "") quiet_env created_db 20 =
      event_seen "evt_1" "payment_intent.succeeded" "evt_1" t (captured created_payment ch t g created_db).
Proof.
  destruct (webhook_captures "" demo_unmarshal created_db "evt_1" "" "evt_1" demo_intent
    created_payment quiet_env 20) as (ch & t & g & _ & H).
  - change created_db with (run_pops "" demo_unmarshal created_ops empty_payment_db).
    apply run_pops_reachable; [constructor|].
    repeat constructor; cbn; unfold int64_min, int64_max; lia.
  - apply quiet_calm.
  - reflexivity.
  - reflexivity.
  - discriminate.
  - intros [].
  - by left.
  - reflexivity.
  - reflexivity.
  - exists ch, t, g. exact H.
Defined.

Lemma forged_webhook_has_no_effect_witness :
  exists ts v1s, sig_parts (demo_header "0" "evt_1") = (ts, v1s) /\
    In (hex_encode (hmac_sha256 (bytes_of demo_secret) (bytes_of (ts ++ "." ++ "evt_1")%string))) v1s.
Proof.
  apply (forged_webhook_has_no_effect demo_secret demo_unmarshal created_db "evt_1"
    (demo_header "0" "evt_1") quiet_env 20 created_reachable).
  - discriminate.
  - intros H. apply (f_equal (fun d => List.length (stripe_events d))) in H.
    vm_compute in H. discriminate.
Defined.

Lemma verifySignature_accepts_iff_witness :
  verifySignature 1700000000000000000 "evt_1" (demo_header "1700000042" "evt_1") demo_secret = None.
Proof.
  apply verifySignature_accepts_iff.
  - unfold int64_max; lia.
  - discriminate.
  - eexists _, _, 1700000042. split; [vm_compute; reflexivity|]. split; [discriminate|].
    split; [reflexivity|]. split.
    + left. vm_compute. discriminate.
    + left. vm_compute. reflexivity.
Defined.

(** A validly signed webhook dated centuries ahead passes the tolerance check:
    the skew saturates at the minimal duration, which is its own negation. *)
Lemma far_future_timestamp_accepted :
  verifySignature 1700000000000000000 "evt_1" (demo_header "20000000000" "evt_1") demo_secret = None /\
  webhookTolerance < Z.abs (1700000000000000000 - 20000000000 * 1000000000).
Proof. split; [vm_compute; reflexivity|]. by vm_compute. Qed.

(** Production fails closed. In the production environment the payment
    server starts only with a webhook secret and a Stripe key that is no
    placeholder, so it never runs the stub client or accepts unsigned webhooks. *)
Theorem production_fails_closed webhookSecret stripeSecret live verifies :
  startup "production" webhookSecret stripeSecret = Wired live verifies ->
  live = true /\ verifies = true /\ webhookSecret <> "" /\
  ~ In stripeSecret placeholder_keys /\
  (String.prefix "sk_" stripeSecret = true \/ String.prefix "rk_" stripeSecret = true).
Proof.
  unfold startup, RealStripeKey. rewrite String.eqb_refl, !andb_true_r.
  destruct (String.eqb_spec webhookSecret "") as [|Hw]; [done|].
  destruct (String.eqb_spec stripeSecret ""); [done|].
  destruct (existsb (String.eqb stripeSecret) placeholder_keys) eqn:P; [done|].
  destruct (_ || _) eqn:O; [|done]. intros [= <- <-]. repeat split; try done.
  - intros Hin. assert (existsb (String.eqb stripeSecret) placeholder_keys = true); [|congruence].
    apply existsb_exists. exists stripeSecret. by rewrite String.eqb_refl.
  - by apply orb_true_iff.
Qed.

Lemma production_fails_closed_witness :
  ~ In "sk_live_1" placeholder_keys.
Proof.
  apply (production_fails_closed "whsec" "sk_live_1" true true). reflexivity.
Defined.

(** * The payment service and its relay

    The payment tables keep to the interface of the relay
    ([payment_OutboxClient]): what the relay guarantees holds of the calls of
    the payment service and the drains of its outbox. *)
#[export] Instance payment_outbox_lawful : LawfulTable (outbox (D := payment_db)).
Proof. by constructor; [| |intros []]. Qed.

Lemma payment_inv_marked d t ids :
  payment_inv d -> payment_inv (put outbox (mark_all t ids (rows outbox d)) d).
Proof.
  intros [H1 H2 H3 H4 H5 H6 H7 H8 H9 H10].
  constructor; cbn [put outbox payment_HasOutbox payments stripe_events payment_ledger payment_outbox rows]; auto.
  intros id. unfold captured_events. rewrite countZ_marked; [apply H10|done].
Qed.

(** The group of a transaction is balanced when it posts nothing. *)
Lemma nothing_posted d l : deferred_ok d (put outbox l d) = true.
Proof. apply no_legs_pass. Qed.

Section Client.
Context `{StripeClient} (secret : string) (unmarshal : string -> option json).

Definition payment_step (d d' : payment_db) : Prop :=
  exists op ev n, pop_in_range op /\ d' = pafter (run_pop secret unmarshal op) ev d n.

Lemma payment_step_effect d d' :
  payment_inv d -> payment_step d d' ->
  exists op ev, pop_in_range op /\ pop_effect secret unmarshal op ev d d'.
Proof.
  intros HI (op & ev & n & Hr & ->). exists op, ev. split; [done|].
  exact (pop_meets secret unmarshal op ev d n HI Hr).
Qed.

Lemma pop_effect_outbox op ev d d' :
  pop_effect secret unmarshal op ev d d' ->
  payment_outbox d' = payment_outbox d \/ exists t e, payment_outbox d' = enqueued t e (payment_outbox d).
Proof.
  assert (forall p ch t g x, payment_outbox x = payment_outbox d ->
    exists t' e, payment_outbox (captured p ch t g x) = enqueued t' e (payment_outbox d)) as Hc.
  { intros p ch t g x E. cbn [captured payment_outbox]. rewrite E. eauto. }
  destruct op; cbn [pop_effect].
  - intros [->|[_ [r HO]]]; [by left|]. destruct HO; by left.
  - intros [r HO]. destruct HO; auto.
  - intros [r HO]. destruct HO as [| | |now id typ i r d' _ _ _ HO]; [by left..|].
    destruct HO; auto. right. cbn [event_seen payment_outbox]. by apply Hc.
Qed.

#[refine] Instance payment_OutboxClient : OutboxClient payment_db := {
  client_start := empty_payment_db;
  client_step := payment_step;
  client_inv := payment_inv
}.
Proof.
  - apply empty_payment_inv.
  - done.
  - intros d d' HI Hst. destruct (payment_step_effect d d' HI Hst) as (op & ev & Hr & HE).
    by eapply pop_effect_inv.
  - intros d t ids. apply payment_inv_marked.
  - intros d d' HI Hst. destruct (payment_step_effect d d' HI Hst) as (op & ev & _ & HE).
    by eapply pop_effect_outbox.
  - apply nothing_posted.
Defined.
(** Every captured payment is announced: one row of the outbox says so, and its
    message is on the bus after enough undisturbed drains. *)
Lemma captured_payments_reach_the_bus source batch d b evs p :
  relay_reachable source batch (d, b) -> In p (payments d) -> is_succeeded p = true ->
  Forall (fun en => calm (fst en)) evs ->
  (List.length (backlog d) <= List.length evs * batch)%nat ->
  captured_events (p_ID p) (payment_outbox d) = 1 /\
  exists r, In r (payment_outbox d) /\ event_type r = "payment.captured" /\ aggregate_id r = p_ID p /\
    In (message source r) (snd (drains source batch evs (d, b))).
Proof.
  intros HR Hp St HC HL. destruct (relay_reachable_inv _ _ _ HR) as [HI _]. cbn [fst] in HI.
  assert (captured_events (p_ID p) (payment_outbox d) = 1) as E.
  { rewrite (pinv_captured d HI), (at_key_In p_ID); [by rewrite St|apply (pinv_ids d HI)|done]. }
  split; [done|]. assert (0 < captured_events (p_ID p) (payment_outbox d)) as Hpos by lia.
  apply countZ_pos in Hpos as (r & Hr & Hs).
  apply andb_true_iff in Hs as [He%String.eqb_eq Ha%String.eqb_eq].
  exists r. repeat split; try done. by apply relay_drains.
Qed.
End Client.

(** * Payment REST transport (services/payment/internal/httpapi) *)
Definition mapError (e : err payment_err) : response :=
  match e with
  | Dom ErrNotFound | Dom ErrNoPaymentForIntent => writeErr 404 "NOT_FOUND" "resource not found"
  | Dom ErrInvalidSignature =>
      writeErr 400 "INVALID_SIGNATURE" "stripe signature verification failed"
  | _ => writeErr 500 "INTERNAL" "internal error"
  end.

Definition paymentDTO (p : Payment) : json :=
  JObj [("payment_id", JStr (p_ID p)); ("contract_id", jopt JStr (p_ContractID p));
        ("payer_id", JStr (p_PayerID p)); ("amount_cents", JInt (p_AmountCents p));
        ("currency", JStr (p_Currency p)); ("status", JStr (p_Status p));
        ("stripe_payment_intent_id", jopt JStr (p_StripePaymentIntentID p));
        ("stripe_charge_id", jopt JStr (p_StripeChargeID p));
        ("failure_reason", jopt JStr (p_FailureReason p));
        ("created_at", JTime (p_CreatedAt p)); ("updated_at", JTime (p_UpdatedAt p))].

Definition resultDTO (r : CreateIntentResult) : json :=
  JObj [("payment_id", JStr (r_PaymentID r));
        ("stripe_payment_intent_id", JStr (r_StripePaymentIntentID r));
        ("client_secret", JStr (r_ClientSecret r)); ("status", JStr (r_Status r))].

(** createIntentReq *)
Record createIntentReq := mkCreateIntentReq {
  ci_ContractID : string;
  ci_AmountCents : Z;
  ci_Currency : string;
  ci_IdempotencyKey : string
}.

Definition decode_createIntentReq (o : list (string * json)) : option createIntentReq :=
  match str_field "contract_id" o, int_field "amount_cents" o,
        str_field "currency" o, str_field "idempotency_key" o with
  | Some c, Some a, Some cur, Some k => Some (mkCreateIntentReq c a cur k)
  | _, _, _, _ => None
  end.

Section Api.
Context `{StripeClient} (secret : string) (unmarshal : string -> option json).

Definition createIntent (r : request) : pprog response :=
  req <-? decode decode_createIntentReq r ;;
  payerID <-? requireUser r ;;
  let idemKey := header r "Idempotency-Key" in
  let idemKey := if String.eqb idemKey "" then ci_IdempotencyKey req else idemKey in
  let contractID := if String.eqb (ci_ContractID req) "" then None else Some (ci_ContractID req) in
  res <-? or_mapped mapError (CreatePaymentIntent payerID contractID (ci_AmountCents req)
                                (ci_Currency req) idemKey) ;;
  ret (writeJSON 201 (resultDTO res)).

Definition confirm (r : request) : pprog response :=
  p <-? or_mapped mapError (ConfirmPayment (urlParam r "id")) ;;
  ret (writeJSON 200 (paymentDTO p)).

Definition getPayment (r : request) : pprog response :=
  p <-? or_mapped mapError (GetPayment (urlParam r "id")) ;;
  ret (writeJSON 200 (paymentDTO p)).

Definition listForContract (r : request) : pprog response :=
  let contractID := query r "contract_id" in
  if String.eqb contractID ""
  then ret (writeErr 400 "MISSING_PARAM" "contract_id is required") else
  ps <-? or_mapped mapError (ListPaymentsForContract contractID) ;;
  ret (writeJSON 200 (JObj [("payments", JList (map paymentDTO ps))])).

Definition webhook (r : request) : pprog response :=
  match raw_body r with
  | None => ret (writeErr 400 "INVALID_BODY" "could not read body")
  | Some body =>
      _ <-? or_mapped mapError (HandleWebhook secret unmarshal body (header r "Stripe-Signature")) ;;
      ret (writeJSON 200 (JObj [("received", JBool true)]))
  end.
End Api.

Ltac wp_hook ::=
  lazymatch goal with
  | |- wp (bind_ok _ _) _ _ _ => apply wp_bind_ok
  | |- wp (requireUser _) _ _ _ => apply wp_requireUser; intros ?HU
  | |- wp (decode _ _) _ _ _ => apply wp_decode; [|intros ?o ?req ?HM ?HD]
  | |- wp (or_mapped _ _) _ _ _ => apply wp_or_mapped
  | |- _ => payment_rules
  end.

Lemma decode_createIntentReq_range o req :
  decode_createIntentReq o = Some req -> int64_min <= ci_AmountCents req <= int64_max.
Proof.
  unfold decode_createIntentReq. repeat case_match; intros; simplify_eq. cbn. by eapply int_field_range.
Qed.

(** A new payment belongs to its caller. If serving a create-intent request
    changed the database, then the request carried a user id and the change is
    exactly one new payment, still processing, of a positive amount, whose payer
    is that user. *)
Theorem intent_belongs_to_caller `{StripeClient} secret unmarshal r ev d n :
  payment_reachable secret unmarshal d ->
  pafter (createIntent r) ev d n <> d ->
  header r "X-User-Id" <> "" /\
  exists p, pafter (createIntent r) ev d n = created p d /\ ~ In p (payments d) /\
    p_PayerID p = header r "X-User-Id" /\ p_Status p = "processing" /\ 0 < p_AmountCents p.
Proof.
  intros Hd Hne. pose proof (preachable_inv _ _ d Hd) as HI.
  cut (wp (createIntent r) ev (rest d n) (fun _ w => committed w = d \/
    (header r "X-User-Id" <> "" /\ exists p, committed w = created p d /\ ~ In p (payments d) /\
      p_PayerID p = header r "X-User-Id" /\ p_Status p = "processing" /\ 0 < p_AmountCents p))).
  { by intros [E|E]. }
  unfold createIntent, rest. wp_step. wp_step; [by left|]. wp_step. wp_step; [by left|]. cbv zeta.
  wp_step. wp_step.
  set (Q := fun d' => d' = d \/ (header r "X-User-Id" <> "" /\ exists p, d' = created p d /\
    ~ In p (payments d) /\ p_PayerID p = header r "X-User-Id" /\ p_Status p = "processing" /\
    0 < p_AmountCents p)).
  match goal with |- wp ?m _ _ _ => assert (wp m ev (World d NoTx n) (fun _ w => Q (committed w))) as HW end.
  { eapply wp_mono; [apply (create_meets ev d n); by eapply decode_createIntentReq_range|].
    intros x w [_ [(_ & _ & E)|[Ha HO]]]; [by left|]. unfold Q.
    destruct HO as [| | | | | | |x u cur3 i s t ? ? p Hc]; try by left.
    right. split; [done|]. exists p. split; [done|]. split; [|by split].
    intros Hin. apply Hc. left. by apply in_map. }
  eapply wp_mono; [exact HW|]. intros [x|x] w Hw; [|exact Hw]. by wp_step.
Qed.

Definition demo_create : request :=
  Request (fun h => if String.eqb h "X-User-Id" then "bob" else "") (fun _ => "") (fun _ => "")
    (-1) (Some (JObj [("amount_cents", JInt 700); ("currency", JStr "EUR")])) None.

Lemma intent_belongs_to_caller_witness :
  exists p, pafter (createIntent demo_create) quiet_env empty_payment_db 0 = created p empty_payment_db /\
    p_PayerID p = "bob".
Proof.
  destruct (intent_belongs_to_caller demo_secret demo_unmarshal demo_create quiet_env empty_payment_db 0)
    as (_ & p & H & _ & Hp & _).
  - constructor.
  - intros H. apply (f_equal (fun d => List.length (payments d))) in H. vm_compute in H. discriminate.
  - exists p. split; [exact H|exact Hp].
Defined.

(** The confirm route consults neither the caller nor Stripe: whoever names a
    processing payment captures it. *)
Lemma confirm_ignores_identity r r' ev w :
  urlParam r "id" = urlParam r' "id" -> confirm r ev w = confirm r' ev w.
Proof. unfold confirm. by intros ->. Qed.
