(* ===== verification/ContractStore.v ===== *)
(** * Contract data layer (services/contract/internal/store)

    Contracts, their event-sourced transitions, milestones, deliverables, hourly
    settings and disputes, with the constraints of migration 000005.  Rows hold
    the columns some statement reads; [created_at] order is insertion order. *)
From S2P Require Export Outbox Rbac.

(** ** Domain types *)

Record Contract := mkContract {
  c_ID : string;
  c_ProjectID : string;
  c_ProposalID : string;
  c_ClientID : string;
  c_FreelancerID : string;
  c_BudgetType : string;
  c_Currency : string;
  c_TotalAmountCents : option Z;
  c_HourlyRateCents : option Z;
  c_WeeklyHourLimit : option Z;
  c_Status : string;
  c_PlatformFeeBps : Z;
  c_StartedAt : option Z;
  c_EndedAt : option Z;
  c_EndReason : option string
}.

Record Milestone := mkMilestone {
  m_ID : string;
  m_ContractID : string;
  m_Seq : Z;
  m_Title : string;
  m_Description : option string;
  m_AmountCents : Z;
  m_Status : string;
  m_DueAt : option Z;
  m_FundedAt : option Z;
  m_SubmittedAt : option Z;
  m_ApprovedAt : option Z;
  m_ReleasedAt : option Z
}.

Record MilestoneInput := mkMilestoneInput {
  mi_Seq : Z;
  mi_Title : string;
  mi_Description : option string;
  mi_AmountCents : Z;
  mi_DueAt : option Z
}.

(** A row of contract_events; the Go type leaves out id and contract_id. *)
Record ContractEvent := mkContractEvent {
  ce_id : Z;
  ce_contract_id : string;
  ce_FromStatus : option string;
  ce_ToStatus : string;
  ce_Event : string;
  ce_ActorID : option string;
  ce_Payload : json;
  ce_CreatedAt : Z
}.

Record Dispute := mkDispute {
  dp_ID : string;
  dp_ContractID : string;
  dp_MilestoneID : option string;
  dp_RaisedBy : string;
  dp_Against : string;
  dp_Reason : string;
  dp_AmountCents : option Z;
  dp_Status : string;
  dp_ResolutionNote : option string;
  dp_AssignedAdmin : option string
}.

(** Tables deliverables and hourly_contracts, written but never read here. *)
Record Deliverable := mkDeliverable {
  dl_id : string;
  dl_milestone_id : string;
  dl_submitted_by : string;
  dl_note : string;
  dl_s3_keys : list string
}.

Record HourlyContract := mkHourlyContract { hc_contract_id : string }.

Record contract_db := mkContractDb {
  contracts : list Contract;
  contract_events : list ContractEvent;
  milestones : list Milestone;
  deliverables : list Deliverable;
  hourly_contracts : list HourlyContract;
  disputes : list Dispute;
  contract_outbox : list OutboxRow
}.

Definition empty_contract_db : contract_db := mkContractDb [] [] [] [] [] [] [].

Definition contracts_t : table contract_db Contract :=
  Table contracts (fun l d => mkContractDb l (contract_events d) (milestones d) (deliverables d)
                                (hourly_contracts d) (disputes d) (contract_outbox d)).
Definition contract_events_t : table contract_db ContractEvent :=
  Table contract_events (fun l d => mkContractDb (contracts d) l (milestones d) (deliverables d)
                                (hourly_contracts d) (disputes d) (contract_outbox d)).
Definition milestones_t : table contract_db Milestone :=
  Table milestones (fun l d => mkContractDb (contracts d) (contract_events d) l (deliverables d)
                                (hourly_contracts d) (disputes d) (contract_outbox d)).
Definition deliverables_t : table contract_db Deliverable :=
  Table deliverables (fun l d => mkContractDb (contracts d) (contract_events d) (milestones d) l
                                (hourly_contracts d) (disputes d) (contract_outbox d)).
Definition hourly_contracts_t : table contract_db HourlyContract :=
  Table hourly_contracts (fun l d => mkContractDb (contracts d) (contract_events d) (milestones d)
                                (deliverables d) l (disputes d) (contract_outbox d)).
Definition disputes_t : table contract_db Dispute :=
  Table disputes (fun l d => mkContractDb (contracts d) (contract_events d) (milestones d)
                                (deliverables d) (hourly_contracts d) l (contract_outbox d)).
#[export] Instance contract_HasOutbox : HasOutbox contract_db :=
  Table contract_outbox (fun l d => mkContractDb (contracts d) (contract_events d) (milestones d)
                                (deliverables d) (hourly_contracts d) (disputes d) l).

(** No deferred constraint. *)
#[export] Instance contract_Deferred : Deferred contract_db := fun _ _ => true.

(** ErrNotFound of the store, and the sentinels of the service. *)
Inductive contract_err :=
| ErrNotFound
| ErrInvalidParties
| ErrNoMilestones
| ErrInvalidState
| ErrInvalidMilestoneState
| ErrForbidden
| ErrProposalRequired
| ErrProposalNotSelected
| ErrProposalMismatch.

Abbreviation cprog := (prog contract_db contract_err).

Definition found {A} (row : option A) : cprog A :=
  match row with
  | None => fail ErrNotFound
  | Some a => ret a
  end.

(** ** Contract writes *)

Definition budget_types : list string := ["fixed"; "hourly"].

(** The primary key and the CHECKs parties_distinct and hourly_terms. *)
Definition contract_check (l : list Contract) (c : Contract) : option dberr :=
  first_violation
    [ check_row "parties_distinct" (fun c => negb (String.eqb (c_ClientID c) (c_FreelancerID c))) c;
      check_row "hourly_terms" (fun c => negb (String.eqb (c_BudgetType c) "hourly") ||
        match c_HourlyRateCents c with Some _ => true | None => false end) c;
      unique_index "contracts_pkey" (fun x r => String.eqb (c_ID x) (c_ID r)) l c ].

Definition new_contract (id currency : string) (c : Contract) : Contract :=
  mkContract id (c_ProjectID c) (c_ProposalID c) (c_ClientID c) (c_FreelancerID c) (c_BudgetType c)
    currency (c_TotalAmountCents c) (c_HourlyRateCents c) (c_WeeklyHourLimit c) "pending_funding"
    (c_PlatformFeeBps c) None None None.

Definition insert_contract (c : Contract) : sql contract_db Contract := fun s d =>
  if negb (enum budget_types (c_BudgetType c)) then Reject InvalidText
  else match bpchar 3 (c_Currency c) with
       | None => Reject InvalidText
       | Some cur => insert_row contracts_t contract_check (fun s => new_contract (fresh s) cur c) s d
       end.

Definition InsertContract (c : Contract) : cprog string :=
  if negb (in_int32 (default 0 (c_WeeklyHourLimit c)) && in_int32 (c_PlatformFeeBps c))
  then throw (Db ScanError) else
  r <- exec (insert_contract c) ;;
  ret (c_ID r).

Definition InsertHourlyContract (contractID : string) : cprog unit :=
  exec (fun s d =>
    insert_row hourly_contracts_t (fun l r => first_violation
        [ references "hourly_contracts_contract_id_fkey" (has_key c_ID contractID) (contracts d);
          unique_index "hourly_contracts_pkey"
            (fun x r => String.eqb (hc_contract_id x) (hc_contract_id r)) l r ])
      (fun _ => mkHourlyContract contractID) s d) ;;;
  ret tt.

Definition milestone_check (l : list Milestone) (m : Milestone) : option dberr :=
  first_violation
    [ check_row "milestones_amount_cents_check" (fun m => 0 <? m_AmountCents m) m;
      unique_index "milestones_pkey" (fun x r => String.eqb (m_ID x) (m_ID r)) l m;
      unique_index "milestones_contract_id_seq_key" (fun x r =>
        String.eqb (m_ContractID x) (m_ContractID r) && (m_Seq x =? m_Seq r)) l m ].

Definition new_milestone (id contractID : string) (m : MilestoneInput) : Milestone :=
  mkMilestone id contractID (mi_Seq m) (mi_Title m) (mi_Description m) (mi_AmountCents m) "pending"
    (option_map to_timestamptz (mi_DueAt m)) None None None None.

Definition insert_milestone (contractID : string) (m : MilestoneInput) : sql contract_db Milestone :=
  fun s d =>
    insert_row milestones_t (fun l r => first_violation
        [ milestone_check l r;
          references "milestones_contract_id_fkey" (has_key c_ID contractID) (contracts d) ])
      (fun s => new_milestone (fresh s) contractID m) s d.

Definition InsertMilestone (contractID : string) (m : MilestoneInput) : cprog unit :=
  if negb (in_int32 (mi_Seq m)) then throw (Db ScanError) else
  exec (insert_milestone contractID m) ;;;
  ret tt.

(** A nil payload is stored as the empty object. *)
Definition InsertContractEvent (contractID : string) (fromStatus : option string)
  (toStatus event : string) (actorID : option string) (payload : option json) : cprog unit :=
  exec (fun s d =>
    insert_row contract_events_t
      (fun _ _ => references "contract_events_contract_id_fkey" (has_key c_ID contractID) (contracts d))
      (fun s => mkContractEvent (next_id ce_id (contract_events d)) contractID fromStatus toStatus
                  event actorID (default (JObj []) payload) (now s)) s d) ;;;
  ret tt.

Definition with_status (status : string) (c : Contract) : Contract :=
  mkContract (c_ID c) (c_ProjectID c) (c_ProposalID c) (c_ClientID c) (c_FreelancerID c)
    (c_BudgetType c) (c_Currency c) (c_TotalAmountCents c) (c_HourlyRateCents c)
    (c_WeeklyHourLimit c) status (c_PlatformFeeBps c) (c_StartedAt c) (c_EndedAt c) (c_EndReason c).

Definition in_status (status : string) (c : Contract) : bool := String.eqb (c_Status c) status.

Definition TransitionContract (id fromStatus toStatus : string) : cprog bool :=
  l <- exec (update_rows contracts_t (fun c => has_key c_ID id c && in_status fromStatus c)
         (fun _ => with_status toStatus) (fun _ => None)) ;;
  ret (List.length l =? 1)%nat.

Definition started (t : Z) (c : Contract) : Contract :=
  mkContract (c_ID c) (c_ProjectID c) (c_ProposalID c) (c_ClientID c) (c_FreelancerID c)
    (c_BudgetType c) (c_Currency c) (c_TotalAmountCents c) (c_HourlyRateCents c)
    (c_WeeklyHourLimit c) (c_Status c) (c_PlatformFeeBps c) (Some t) (c_EndedAt c) (c_EndReason c).

Definition MarkContractStarted (id : string) : cprog unit :=
  exec (update_rows contracts_t (has_key c_ID id) (fun s => started (now s)) (fun _ => None)) ;;;
  ret tt.

(** ** Milestone state machine *)

Definition milestoneInfo (milestoneID : string) : cprog (string * string * Z) :=
  row <- exec (select_one milestones_t (has_key m_ID milestoneID)) ;;
  m <- found row ;;
  ret (m_ContractID m, m_Status m, m_AmountCents m).

(** The SET clauses of the three transitions. *)
Definition funded (t : Z) (m : Milestone) : Milestone :=
  mkMilestone (m_ID m) (m_ContractID m) (m_Seq m) (m_Title m) (m_Description m) (m_AmountCents m)
    "funded" (m_DueAt m) (Some t) (m_SubmittedAt m) (m_ApprovedAt m) (m_ReleasedAt m).

Definition submitted (t : Z) (m : Milestone) : Milestone :=
  mkMilestone (m_ID m) (m_ContractID m) (m_Seq m) (m_Title m) (m_Description m) (m_AmountCents m)
    "submitted" (m_DueAt m) (m_FundedAt m) (Some t) (m_ApprovedAt m) (m_ReleasedAt m).

Definition approved (t : Z) (m : Milestone) : Milestone :=
  mkMilestone (m_ID m) (m_ContractID m) (m_Seq m) (m_Title m) (m_Description m) (m_AmountCents m)
    "approved" (m_DueAt m) (m_FundedAt m) (m_SubmittedAt m) (Some t) (m_ReleasedAt m).

Definition FundMilestone (milestoneID : string) : cprog (string * bool) :=
  info <- milestoneInfo milestoneID ;;
  let '(contractID, status, _) := info in
  if negb (String.eqb status "pending") then ret (contractID, false) else
  exec (update_rows milestones_t (has_key m_ID milestoneID) (fun s => funded (now s)) (fun _ => None)) ;;;
  ret (contractID, true).

Definition SubmitMilestone (milestoneID : string) : cprog (string * bool) :=
  info <- milestoneInfo milestoneID ;;
  let '(contractID, status, _) := info in
  if negb (String.eqb status "funded") then ret (contractID, false) else
  exec (update_rows milestones_t (has_key m_ID milestoneID) (fun s => submitted (now s)) (fun _ => None)) ;;;
  ret (contractID, true).

Definition ApproveMilestone (milestoneID : string) : cprog (string * Z * bool) :=
  info <- milestoneInfo milestoneID ;;
  let '(contractID, status, amount) := info in
  if negb (String.eqb status "submitted") then ret (contractID, amount, false) else
  exec (update_rows milestones_t (has_key m_ID milestoneID) (fun s => approved (now s)) (fun _ => None)) ;;;
  ret (contractID, amount, true).

Definition FreelancerOfContract (contractID : string) : cprog string :=
  row <- exec (select_one contracts_t (has_key c_ID contractID)) ;;
  c <- found row ;;
  ret (c_FreelancerID c).

(** A nil slice is sent as NULL. *)
Definition insert_deliverable (milestoneID submittedBy note : string) (s3Keys : option (list string))
  : sql contract_db Deliverable := fun s d =>
  match s3Keys with
  | None => Reject (NotNullViolation "s3_keys")
  | Some keys =>
      insert_row deliverables_t (fun l r => first_violation
          [ unique_index "deliverables_pkey" (fun x r => String.eqb (dl_id x) (dl_id r)) l r;
            references "deliverables_milestone_id_fkey" (has_key m_ID milestoneID) (milestones d) ])
        (fun s => mkDeliverable (fresh s) milestoneID submittedBy note keys) s d
  end.

Definition InsertDeliverable (milestoneID submittedBy note : string) (s3Keys : option (list string))
  : cprog unit :=
  exec (insert_deliverable milestoneID submittedBy note s3Keys) ;;;
  ret tt.

(** ** Disputes *)

Definition new_dispute (id : string) (d : Dispute) : Dispute :=
  mkDispute id (dp_ContractID d) (dp_MilestoneID d) (dp_RaisedBy d) (dp_Against d) (dp_Reason d)
    (dp_AmountCents d) "open" None None.

Definition insert_dispute (dp : Dispute) : sql contract_db Dispute := fun s d =>
  insert_row disputes_t (fun l r => first_violation
      [ unique_index "disputes_pkey" (fun x r => String.eqb (dp_ID x) (dp_ID r)) l r;
        references "disputes_contract_id_fkey" (has_key c_ID (dp_ContractID dp)) (contracts d);
        match dp_MilestoneID dp with
        | None => None
        | Some mid => references "disputes_milestone_id_fkey" (has_key m_ID mid) (milestones d)
        end ])
    (fun s => new_dispute (fresh s) dp) s d.

Definition InsertDispute (dp : Dispute) : cprog string :=
  r <- exec (insert_dispute dp) ;;
  ret (dp_ID r).

Definition CurrentStatus (contractID : string) : cprog string :=
  row <- exec (select_one contracts_t (has_key c_ID contractID)) ;;
  c <- found row ;;
  ret (c_Status c).

Definition ForceStatus (contractID toStatus : string) : cprog unit :=
  exec (update_rows contracts_t (has_key c_ID contractID) (fun _ => with_status toStatus)
          (fun _ => None)) ;;;
  ret tt.

(** ** Reads *)

Definition GetContract (id : string) : cprog Contract :=
  row <- exec_pool (select_one contracts_t (has_key c_ID id)) ;;
  found row.

Definition GetContractTx (id : string) : cprog Contract :=
  row <- exec (select_one contracts_t (has_key c_ID id)) ;;
  found row.

Definition ListMilestones (contractID : string) : cprog (list Milestone) :=
  l <- exec_pool (select_all milestones_t (has_key m_ContractID contractID)) ;;
  ret (order_by m_Seq l).

Definition ListContractEvents (contractID : string) : cprog (list ContractEvent) :=
  l <- exec_pool (select_all contract_events_t (has_key ce_contract_id contractID)) ;;
  ret (order_by ce_id l).

Definition ListForUser (userID role : string) : cprog (list Contract) :=
  let col := if String.eqb role "freelancer" then c_FreelancerID else c_ClientID in
  l <- exec_pool (select_all contracts_t (has_key col userID)) ;;
  ret (rev l).
