(* ===== verification/ContractService.v ===== *)
(** * Contract business logic (services/contract/internal/service)

    Contracts formed from proposals, the contract and milestone transitions,
    disputes and the guarded reads.  The proposal service is reached through
    [ProposalLookup], the HTTP client over the network parameter [net]. *)
From S2P Require Export ContractStore.
From S2P Require ProposalLookup.

Record CreateInput := mkCreateInput {
  in_ProjectID : string;
  in_ProposalID : string;
  in_ClientID : string;
  in_FreelancerID : string;
  in_BudgetType : string;
  in_Currency : string;
  in_TotalAmountCents : option Z;
  in_HourlyRateCents : option Z;
  in_WeeklyHourLimit : option Z;
  in_PlatformFeeBps : Z;
  in_Milestones : list MilestoneInput
}.

Record ContractView := mkContractView {
  v_Contract : Contract;
  v_Milestones : list Milestone
}.

(** deriveContractTerms: the derived terms, or the error that refuses them. *)
Definition deriveContractTerms (inp : CreateInput) (prop : ProposalLookup.Proposal)
  : CreateInput + contract_err :=
  if String.eqb (ProposalLookup.ProjectClientID prop) "" ||
     negb (String.eqb (ProposalLookup.ProjectClientID prop) (in_ClientID inp))
  then inr ErrForbidden
  else if String.eqb (ProposalLookup.Status prop) "withdrawn" ||
          String.eqb (ProposalLookup.Status prop) "declined"
  then inr ErrProposalNotSelected
  else
    let freelancer := ProposalLookup.FreelancerID prop in
    let currency := if String.eqb (ProposalLookup.Currency prop) "" then in_Currency inp
                    else ProposalLookup.Currency prop in
    if String.eqb (in_ClientID inp) freelancer || String.eqb freelancer ""
    then inr ErrInvalidParties
    else
      let currency := if String.eqb currency "" then "USD" else currency in
      let bid := ProposalLookup.BidAmountCents prop in
      let terms total rate :=
        mkCreateInput (ProposalLookup.ProjectID prop) (in_ProposalID inp) (in_ClientID inp) freelancer
          (in_BudgetType inp) currency total rate (in_WeeklyHourLimit inp) 1000 (in_Milestones inp) in
      if String.eqb (in_BudgetType inp) "fixed" then
        if (List.length (in_Milestones inp) =? 0)%nat then inr ErrNoMilestones
        else if negb (sum64 (map mi_AmountCents (in_Milestones inp)) =? bid) then inr ErrProposalMismatch
        else inl (terms (Some bid) None)
      else if String.eqb (in_BudgetType inp) "hourly" then inl (terms None (Some bid))
      else inl (terms (in_TotalAmountCents inp) (in_HourlyRateCents inp)).

(** The contract as CreateFromProposal hands it to the store and, with its id,
    to the caller. *)
Definition contract_of (id : string) (i : CreateInput) : Contract :=
  mkContract id (in_ProjectID i) (in_ProposalID i) (in_ClientID i) (in_FreelancerID i)
    (in_BudgetType i) (in_Currency i) (in_TotalAmountCents i) (in_HourlyRateCents i)
    (in_WeeklyHourLimit i) "pending_funding" (in_PlatformFeeBps i) None None None.

Definition forbidden_of (r : option rbac_err) : cprog unit :=
  match r with Some Forbidden => fail ErrForbidden | None => ret tt end.

Definition activated_event (id : string) (c : Contract) : Event :=
  mkEvent "contract" id "contract.activated" "contract.events" id
    (JObj [("contract_id", JStr id); ("client_id", JStr (c_ClientID c));
           ("freelancer_id", JStr (c_FreelancerID c)); ("budget_type", JStr (c_BudgetType c))]) None.

Definition milestone_approved_event (milestoneID contractID : string) (amount : Z)
  (freelancerID : string) : Event :=
  mkEvent "contract" contractID "milestone.approved" "contract.events" contractID
    (JObj [("milestone_id", JStr milestoneID); ("contract_id", JStr contractID);
           ("amount_cents", JInt amount); ("freelancer_id", JStr freelancerID)]) None.

Definition disputed_event (contractID disputeID raisedBy against : string) : Event :=
  mkEvent "contract" contractID "contract.disputed" "contract.events" contractID
    (JObj [("contract_id", JStr contractID); ("dispute_id", JStr disputeID);
           ("raised_by", JStr raisedBy); ("against", JStr against)]) None.

Section Service.
Context (net : Http.transport) (baseURL : string).

(** The transaction of CreateFromProposal, on derived terms. *)
Definition create_tx (i : CreateInput) : cprog Contract :=
  in_tx (
    id <- InsertContract (contract_of "" i) ;;
    (if String.eqb (in_BudgetType i) "hourly" then InsertHourlyContract id
     else for_each (in_Milestones i) (InsertMilestone id)) ;;;
    InsertContractEvent id None "pending_funding" "create" (Some (in_ClientID i)) None ;;;
    commit ;;;
    ret (contract_of id i)).

Definition CreateFromProposal (i : CreateInput) : cprog Contract :=
  if String.eqb (in_ProposalID i) "" then fail ErrProposalRequired else
  if String.eqb (in_ClientID i) "" then fail ErrInvalidParties else
  prop <- ProposalLookup.Get net baseURL (in_ProposalID i) ;;
  match prop with
  | inr ProposalLookup.LookupNotFound => fail ErrNotFound
  | inr _ => fail ErrForbidden
  | inl prop =>
      match deriveContractTerms i prop with
      | inr e => fail e
      | inl i => create_tx i
      end
  end.

Definition ActivateContract (id actor : string) : cprog unit :=
  in_tx (
    ok <- TransitionContract id "pending_funding" "active" ;;
    if negb ok then fail ErrInvalidState else
    MarkContractStarted id ;;;
    c <- GetContractTx id ;;
    InsertContractEvent id (Some "pending_funding") "active" "activate" (Some actor) None ;;;
    Enqueue (activated_event id c) ;;;
    commit).

Definition FundMilestone (milestoneID caller : string) : cprog unit :=
  in_tx (
    r <- ContractStore.FundMilestone milestoneID ;;
    let '(contractID, ok) := r in
    if negb ok then fail ErrInvalidMilestoneState else
    c <- GetContractTx contractID ;;
    if negb (String.eqb caller (c_ClientID c)) then fail ErrForbidden else
    commit).

Definition SubmitMilestone (milestoneID actorFreelancerID note : string)
  (s3Keys : option (list string)) : cprog unit :=
  in_tx (
    r <- ContractStore.SubmitMilestone milestoneID ;;
    let '(contractID, ok) := r in
    if negb ok then fail ErrInvalidMilestoneState else
    freelancerID <- FreelancerOfContract contractID ;;
    if negb (String.eqb actorFreelancerID freelancerID) then fail ErrForbidden else
    (if negb (String.eqb note "") || (0 <? List.length (default [] s3Keys))%nat
     then InsertDeliverable milestoneID actorFreelancerID note s3Keys
     else ret tt) ;;;
    commit).

Definition ApproveMilestone (milestoneID actorClientID : string) : cprog unit :=
  in_tx (
    r <- ContractStore.ApproveMilestone milestoneID ;;
    let '(contractID, amount, ok) := r in
    if negb ok then fail ErrInvalidMilestoneState else
    c <- GetContractTx contractID ;;
    if negb (String.eqb actorClientID (c_ClientID c)) then fail ErrForbidden else
    Enqueue (milestone_approved_event milestoneID contractID amount (c_FreelancerID c)) ;;;
    commit).

Definition RaiseDispute (contractID raisedBy against : string) (milestoneID : option string)
  (reason : string) (amountCents : option Z) : cprog string :=
  in_tx (
    from <- CurrentStatus contractID ;;
    c <- GetContractTx contractID ;;
    forbidden_of (RequireOneOf raisedBy [c_ClientID c; c_FreelancerID c]) ;;;
    disputeID <- InsertDispute (mkDispute "" contractID milestoneID raisedBy against reason
                                  amountCents "" None None) ;;
    ForceStatus contractID "disputed" ;;;
    let payload := JObj [("dispute_id", JStr disputeID); ("reason", JStr reason)] in
    InsertContractEvent contractID (Some from) "disputed" "dispute" (Some raisedBy) (Some payload) ;;;
    Enqueue (disputed_event contractID disputeID raisedBy against) ;;;
    commit ;;;
    ret disputeID).

(** ** Reads *)

Definition requireParty (contractID userID : string) : cprog Contract :=
  c <- ContractStore.GetContract contractID ;;
  forbidden_of (RequireOneOf userID [c_ClientID c; c_FreelancerID c]) ;;;
  ret c.

Definition GetContract (id userID : string) : cprog ContractView :=
  c <- requireParty id userID ;;
  ms <- ListMilestones id ;;
  ret (mkContractView c ms).

Definition ContractParties (contractID : string) : cprog (string * string * string) :=
  c <- ContractStore.GetContract contractID ;;
  ret (c_ClientID c, c_FreelancerID c, c_Status c).

Definition ListContractsForUser (userID role : string) : cprog (list Contract) :=
  let role := if negb (String.eqb role "freelancer") then "client" else role in
  ListForUser userID role.

Definition ContractEvents (contractID userID : string) : cprog (list ContractEvent) :=
  requireParty contractID userID ;;;
  ListContractEvents contractID.
End Service.
