(* ===== verification/ContractSpec.v ===== *)
(** * What the contract operations do

    Each operation as a function on the tables that answers with the new tables
    or an error ([activate_spec], ...), with no transaction, retry or fault in
    sight, and the rules of the store functions that prove it. *)
From S2P Require Export ContractService.

(** ** Effects on the tables *)

Definition find_contract (id : string) (d : contract_db) : option Contract :=
  List.find (has_key c_ID id) (contracts d).

Definition find_milestone (id : string) (d : contract_db) : option Milestone :=
  List.find (has_key m_ID id) (milestones d).

Definition set_contract (id : string) (f : Contract -> Contract) (d : contract_db) : contract_db :=
  put contracts_t (update_where (has_key c_ID id) f (contracts d)) d.

Definition set_milestone (id : string) (f : Milestone -> Milestone) (d : contract_db) : contract_db :=
  put milestones_t (update_where (has_key m_ID id) f (milestones d)) d.

Definition record (cid : string) (from : option string) (to event actor : string) (payload : json)
  (t : Z) (d : contract_db) : contract_db :=
  put contract_events_t (contract_events d ++
    [mkContractEvent (next_id ce_id (contract_events d)) cid from to event (Some actor) payload t]) d.

Definition publish (e : Event) (t : Z) (d : contract_db) : contract_db :=
  put contract_HasOutbox (enqueued t e (contract_outbox d)) d.

(** ** The operations *)

Definition activated (t : Z) (c : Contract) : Contract := started t (with_status "active" c).

Definition activate_spec (id actor : string) (d : contract_db) (s : draw)
  : unit * contract_db + err contract_err :=
  match find_contract id d with
  | Some c =>
      if in_status "pending_funding" c then
        inl (tt, publish (activated_event id (activated (began s) c)) (began s)
               (record id (Some "pending_funding") "active" "activate" actor (JObj []) (began s)
                 (set_contract id (activated (began s)) d)))
      else inr (Dom ErrInvalidState)
  | None => inr (Dom ErrInvalidState)
  end.

(** A milestone in state [from], moved by the party [who] of its contract. *)
Definition move_spec (from : string) (f : Z -> Milestone -> Milestone) (who : Contract -> string)
  (mid caller : string) (d : contract_db) (s : draw)
  : Milestone * Contract * contract_db + err contract_err :=
  match find_milestone mid d with
  | None => inr (Dom ErrNotFound)
  | Some m =>
      if negb (String.eqb (m_Status m) from) then inr (Dom ErrInvalidMilestoneState) else
      match find_contract (m_ContractID m) d with
      | None => inr (Dom ErrNotFound)
      | Some c =>
          if negb (String.eqb caller (who c)) then inr (Dom ErrForbidden)
          else inl (m, c, set_milestone mid (f (began s)) d)
      end
  end.

Definition fund_spec (mid caller : string) (d : contract_db) (s : draw)
  : unit * contract_db + err contract_err :=
  match move_spec "pending" funded c_ClientID mid caller d s with
  | inl (_, _, d') => inl (tt, d')
  | inr e => inr e
  end.

(** A submission with a note or files records a deliverable: its list of files
    may be empty but not missing. *)
Definition submit_spec (mid caller note : string) (keys : option (list string)) (d : contract_db)
  (s : draw) : unit * contract_db + err contract_err :=
  match move_spec "funded" submitted c_FreelancerID mid caller d s with
  | inl (_, _, d') =>
      if negb (String.eqb note "") || (0 <? List.length (default [] keys))%nat then
        match keys with
        | None => inr (Db (NotNullViolation "s3_keys"))
        | Some ks =>
            if existsb (has_key dl_id (ids s 0)) (deliverables d)
            then inr (Db (UniqueViolation "deliverables_pkey"))
            else inl (tt, put deliverables_t
                   (deliverables d' ++ [mkDeliverable (ids s 0) mid caller note ks]) d')
        end
      else inl (tt, d')
  | inr e => inr e
  end.

Definition approve_spec (mid caller : string) (d : contract_db) (s : draw)
  : unit * contract_db + err contract_err :=
  match move_spec "submitted" approved c_ClientID mid caller d s with
  | inl (m, c, d') =>
      inl (tt, publish (milestone_approved_event mid (m_ContractID m) (m_AmountCents m)
                          (c_FreelancerID c)) (began s) d')
  | inr e => inr e
  end.

(** The dispute row, when the identifier is new and the milestone exists. *)
Definition dispute_problem (mid : option string) (d : contract_db) (id : string) : option dberr :=
  if existsb (has_key dp_ID id) (disputes d) then Some (UniqueViolation "disputes_pkey")
  else match mid with
       | Some m => if existsb (has_key m_ID m) (milestones d) then None
                   else Some (ForeignKeyViolation "disputes_milestone_id_fkey")
       | None => None
       end.

Definition dispute_spec (cid by_ against : string) (mid : option string) (reason : string)
  (amount : option Z) (d : contract_db) (s : draw) : string * contract_db + err contract_err :=
  match find_contract cid d with
  | None => inr (Dom ErrNotFound)
  | Some c =>
      if negb (String.eqb by_ (c_ClientID c) || String.eqb by_ (c_FreelancerID c))
      then inr (Dom ErrForbidden) else
      match dispute_problem mid d (ids s 0) with
      | Some e => inr (Db e)
      | None =>
          let dp := mkDispute (ids s 0) cid mid by_ against reason amount "open" None None in
          let payload := JObj [("dispute_id", JStr (ids s 0)); ("reason", JStr reason)] in
          inl (ids s 0,
            publish (disputed_event cid (ids s 0) by_ against) (began s)
              (record cid (Some (c_Status c)) "disputed" "dispute" by_ payload (began s)
                (set_contract cid (with_status "disputed")
                  (put disputes_t (disputes d ++ [dp]) d))))
      end
  end.

(** The rows of a new contract's milestones, in order. *)
Fixpoint milestone_rows (cid : string) (u : nat -> string) (ms : list MilestoneInput) : list Milestone :=
  match ms with
  | [] => []
  | m :: ms' => new_milestone (u 0%nat) cid m :: milestone_rows cid (fun k => u (S k)) ms'
  end.

(** The first constraint the rows break. *)
Fixpoint milestones_problem (cid : string) (u : nat -> string) (ms : list MilestoneInput)
  (l : list Milestone) : option dberr :=
  match ms with
  | [] => None
  | m :: ms' =>
      if negb (in_int32 (mi_Seq m)) then Some ScanError
      else match milestone_check l (new_milestone (u 0%nat) cid m) with
           | Some e => Some e
           | None => milestones_problem cid (fun k => u (S k)) ms'
                       (l ++ [new_milestone (u 0%nat) cid m])
           end
  end.

Definition is_hourly (i : CreateInput) : bool := String.eqb (in_BudgetType i) "hourly".

(** What can keep a contract of terms [i] from being stored. *)
Definition create_problem (i : CreateInput) (d : contract_db) (u : nat -> string) : option dberr :=
  let cid := u 0%nat in
  if negb (in_int32 (default 0 (in_WeeklyHourLimit i)) && in_int32 (in_PlatformFeeBps i))
  then Some ScanError
  else if negb (enum budget_types (in_BudgetType i)) then Some InvalidText
  else match bpchar 3 (in_Currency i) with
       | None => Some InvalidText
       | Some cur =>
           match contract_check (contracts d) (new_contract cid cur (contract_of "" i)) with
           | Some e => Some e
           | None =>
               if is_hourly i then
                 unique_index "hourly_contracts_pkey"
                   (fun x r => String.eqb (hc_contract_id x) (hc_contract_id r))
                   (hourly_contracts d) (mkHourlyContract cid)
               else milestones_problem cid (fun k => u (S k)) (in_Milestones i) (milestones d)
           end
       end.

(** The tables with the new contract, its settings or milestones, and its first
    event. *)
Definition created (i : CreateInput) (u : nat -> string) (t : Z) (d : contract_db) : contract_db :=
  let cid := u 0%nat in
  let row := new_contract cid (default "" (bpchar 3 (in_Currency i))) (contract_of "" i) in
  record cid None "pending_funding" "create" (in_ClientID i) (JObj []) t
    (mkContractDb (contracts d ++ [row]) (contract_events d)
       (milestones d ++ if is_hourly i then []
                        else milestone_rows cid (fun k => u (S k)) (in_Milestones i))
       (deliverables d)
       (hourly_contracts d ++ if is_hourly i then [mkHourlyContract cid] else [])
       (disputes d) (contract_outbox d)).

Definition create_spec (i : CreateInput) (d : contract_db) (s : draw)
  : Contract * contract_db + err contract_err :=
  match create_problem i d (ids s) with
  | Some e => inr (Db e)
  | None => inl (contract_of (ids s 0%nat) i, created i (ids s) (began s) d)
  end.

(** ** Rules of the data layer *)

Section Rules.
Implicit Types (ev : env) (v c d : contract_db) (t : Z) (n : nat).

Lemma wp_GetContractTx id ev c t v n (Q : res contract_err Contract -> world contract_db -> Prop) :
  (~ calm ev -> Q (Err (Db Driver)) (World c Broken (S n))) ->
  (find_contract id v = None -> Q (Err (Dom ErrNotFound)) (World c (Live t v) (S n))) ->
  (forall k, find_contract id v = Some k -> Q (Ok k) (World c (Live t v) (S n))) ->
  wp (GetContractTx id) ev (World c (Live t v) n) Q.
Proof.
  intros Hf Hn Hs. unfold GetContractTx, find_contract in *. wp_step. wp_step; [by apply Hf|].
  cbn [rows contracts_t]. destruct (List.find _ (contracts v)); cbn; auto.
  - by apply Hs.
  - by apply Hn.
Qed.

Lemma wp_contract_field {A} (f : Contract -> A) id ev c t v n (Q : res contract_err A -> world contract_db -> Prop) :
  (~ calm ev -> Q (Err (Db Driver)) (World c Broken (S n))) ->
  (find_contract id v = None -> Q (Err (Dom ErrNotFound)) (World c (Live t v) (S n))) ->
  (forall k, find_contract id v = Some k -> Q (Ok (f k)) (World c (Live t v) (S n))) ->
  wp (row <- exec (select_one contracts_t (has_key c_ID id)) ;; k <- found row ;; ret (f k))
    ev (World c (Live t v) n) Q.
Proof.
  intros Hf Hn Hs. wp_step. wp_step; [by apply Hf|].
  unfold find_contract in *. cbn [rows contracts_t].
  destruct (List.find _ (contracts v)); cbn; wp_step; [by apply Hs|by apply Hn].
Qed.

Lemma wp_milestoneInfo id ev c t v n (Q : res contract_err (string * string * Z) -> world contract_db -> Prop) :
  (~ calm ev -> Q (Err (Db Driver)) (World c Broken (S n))) ->
  (find_milestone id v = None -> Q (Err (Dom ErrNotFound)) (World c (Live t v) (S n))) ->
  (forall m, find_milestone id v = Some m ->
     Q (Ok (m_ContractID m, m_Status m, m_AmountCents m)) (World c (Live t v) (S n))) ->
  wp (milestoneInfo id) ev (World c (Live t v) n) Q.
Proof.
  intros Hf Hn Hs. unfold milestoneInfo, find_milestone in *. wp_step. wp_step; [by apply Hf|].
  cbn [rows milestones_t]. destruct (List.find _ (milestones v)); cbn; wp_step; [by apply Hs|by apply Hn].
Qed.

Lemma references_found {R} name (key : R -> string) k l r :
  List.find (has_key key k) l = Some r -> references name (has_key key k) l = None.
Proof.
  intros F%List.find_some. unfold references.
  assert (existsb (has_key key k) l = true) as ->; [|done]. apply existsb_exists. eauto.
Qed.

Lemma wp_InsertContractEvent cid from to event actor payload ev c t v n k
  (Q : res contract_err unit -> world contract_db -> Prop) :
  find_contract cid v = Some k ->
  (~ calm ev -> Q (Err (Db Driver)) (World c Broken (S n))) ->
  Q (Ok tt) (World c (Live t (record cid from to event actor (default (JObj []) payload) t v)) (S n)) ->
  wp (InsertContractEvent cid from to event (Some actor) payload) ev (World c (Live t v) n) Q.
Proof.
  intros Hk Hf Hs. unfold InsertContractEvent. wp_step. wp_step; [by apply Hf|].
  unfold insert_row. rewrite (references_found _ _ _ _ _ Hk). by apply wp_ret.
Qed.

Lemma wp_TransitionContract id from to ev c t v n (Q : res contract_err bool -> world contract_db -> Prop) :
  keyed c_ID (contracts v) ->
  (~ calm ev -> Q (Err (Db Driver)) (World c Broken (S n))) ->
  ((forall k, find_contract id v = Some k -> in_status from k = false) ->
     forall w, committed w = c -> Q (Ok false) w) ->
  (forall k, find_contract id v = Some k -> in_status from k = true ->
     Q (Ok true) (World c (Live t (set_contract id (with_status to) v)) (S n))) ->
  wp (TransitionContract id from to) ev (World c (Live t v) n) Q.
Proof.
  intros Hk Hf Hn Hs. unfold TransitionContract. wp_step.
  apply (wp_update_guard contracts_t c_ID); [done|by apply Hf| |].
  - intros HN. cbn. wp_step. by apply Hn.
  - intros r HF HG. cbn. wp_step. by eapply Hs.
Qed.

Lemma wp_InsertDeliverable mid by_ note keys ev c t v n m
  (Q : res contract_err unit -> world contract_db -> Prop) :
  find_milestone mid v = Some m ->
  (~ calm ev -> Q (Err (Db Driver)) (World c Broken (S n))) ->
  (keys = None -> Q (Err (Db (NotNullViolation "s3_keys"))) (World c Broken (S n))) ->
  (forall ks, keys = Some ks -> existsb (has_key dl_id (gen_uuid ev n)) (deliverables v) = true ->
     Q (Err (Db (UniqueViolation "deliverables_pkey"))) (World c Broken (S n))) ->
  (forall ks, keys = Some ks -> existsb (has_key dl_id (gen_uuid ev n)) (deliverables v) = false ->
     Q (Ok tt) (World c (Live t (put deliverables_t (deliverables v ++
       [mkDeliverable (gen_uuid ev n) mid by_ note ks]) v)) (S n))) ->
  wp (InsertDeliverable mid by_ note keys) ev (World c (Live t v) n) Q.
Proof.
  intros Hm Hf Hn Hd Hs. unfold InsertDeliverable, insert_deliverable. wp_step.
  wp_step; [by apply Hf|]. destruct keys as [ks|]; [|by apply Hn].
  unfold insert_row, unique_index. cbn [rows deliverables_t first_violation fresh dl_id].
  change (existsb (fun x => String.eqb (dl_id x) (gen_uuid ev n)) (deliverables v))
    with (existsb (has_key dl_id (gen_uuid ev n)) (deliverables v)).
  destruct (existsb _ (deliverables v)) eqn:X; [by eapply Hd|].
  rewrite (references_found _ _ _ _ _ Hm). apply wp_ret. by apply Hs.
Qed.

Lemma wp_InsertDispute dp ev c t v n k (Q : res contract_err string -> world contract_db -> Prop) :
  find_contract (dp_ContractID dp) v = Some k ->
  (~ calm ev -> Q (Err (Db Driver)) (World c Broken (S n))) ->
  (forall e, dispute_problem (dp_MilestoneID dp) v (gen_uuid ev n) = Some e ->
     Q (Err (Db e)) (World c Broken (S n))) ->
  (dispute_problem (dp_MilestoneID dp) v (gen_uuid ev n) = None ->
     Q (Ok (gen_uuid ev n)) (World c (Live t (put disputes_t (disputes v ++
       [new_dispute (gen_uuid ev n) dp]) v)) (S n))) ->
  wp (InsertDispute dp) ev (World c (Live t v) n) Q.
Proof.
  intros Hk Hf He Hs. unfold InsertDispute, insert_dispute. wp_step.
  wp_step; [by apply Hf|]. unfold dispute_problem in *.
  unfold insert_row, unique_index. cbn [rows disputes_t first_violation fresh dp_ID new_dispute].
  rewrite (references_found _ _ _ _ _ Hk).
  change (existsb (fun x => String.eqb (dp_ID x) (gen_uuid ev n)) (disputes v))
    with (existsb (has_key dp_ID (gen_uuid ev n)) (disputes v)).
  destruct (existsb _ (disputes v)); [by apply He|].
  destruct (dp_MilestoneID dp) as [m|]; [|apply wp_ret; by apply Hs].
  unfold references in *. destruct (existsb _ (milestones v)); [apply wp_ret; by apply Hs|by apply He].
Qed.

(** Updates by key with no constraint. *)
Lemma wp_set_contract id f ev c t v n (Q : res contract_err unit -> world contract_db -> Prop) :
  (~ calm ev -> Q (Err (Db Driver)) (World c Broken (S n))) ->
  Q (Ok tt) (World c (Live t (set_contract id (f (Stamp t (gen_uuid ev n))) v)) (S n)) ->
  wp (exec (update_rows contracts_t (has_key c_ID id) f (fun _ => None)) ;;; ret tt)
    ev (World c (Live t v) n) Q.
Proof. intros Hf Hs. wp_step. apply wp_update_free; [by apply Hf|]. by apply wp_ret. Qed.

Lemma wp_set_milestone {A} (a : A) id f ev c t v n (Q : res contract_err A -> world contract_db -> Prop) :
  (~ calm ev -> Q (Err (Db Driver)) (World c Broken (S n))) ->
  Q (Ok a) (World c (Live t (set_milestone id (f (Stamp t (gen_uuid ev n))) v)) (S n)) ->
  wp (exec (update_rows milestones_t (has_key m_ID id) f (fun _ => None)) ;;; ret a)
    ev (World c (Live t v) n) Q.
Proof. intros Hf Hs. wp_step. apply wp_update_free; [by apply Hf|]. by apply wp_ret. Qed.
End Rules.

Lemma set_contract_find id f d :
  (forall c, c_ID (f c) = c_ID c) ->
  find_contract id (set_contract id f d) = option_map f (find_contract id d).
Proof.
  intros Hf. unfold find_contract, set_contract. cbn. rewrite find_key_update by done.
  destruct (List.find (has_key c_ID id) (contracts d)) as [c|] eqn:F; [|done].
  apply List.find_some in F as [_ K]. cbn. by rewrite K.
Qed.

Lemma set_milestone_find id f d :
  (forall m, m_ID (f m) = m_ID m) ->
  find_milestone id (set_milestone id f d) = option_map f (find_milestone id d).
Proof.
  intros Hf. unfold find_milestone, set_milestone. cbn. rewrite find_key_update by done.
  destruct (List.find (has_key m_ID id) (milestones d)) as [c|] eqn:F; [|done].
  apply List.find_some in F as [_ K]. cbn. by rewrite K.
Qed.

Lemma contract_check_new l c : contract_check l c = None -> ~ In (c_ID c) (map c_ID l).
Proof.
  unfold contract_check. rewrite first_violation_None. intros HF.
  inversion HF as [|? ? _ HF1]; subst. inversion HF1 as [|? ? _ HF2]; subst.
  inversion HF2 as [|? ? HU _]; subst. rewrite unique_index_None in HU.
  intros (x & K & Hx)%in_map_iff. specialize (HU x Hx). cbn in HU.
  by rewrite K, String.eqb_refl in HU.
Qed.

Ltac contract_rules :=
  lazymatch goal with
  | |- wp (GetContractTx _) _ _ _ => apply wp_GetContractTx; [intros ?NC|intros ?NF|intros ?k ?FK]
  | |- wp (FreelancerOfContract _) _ _ _ =>
      apply (wp_contract_field c_FreelancerID); [intros ?NC|intros ?NF|intros ?k ?FK]
  | |- wp (CurrentStatus _) _ _ _ =>
      apply (wp_contract_field c_Status); [intros ?NC|intros ?NF|intros ?k ?FK]
  | |- wp (milestoneInfo _) _ _ _ => apply wp_milestoneInfo; [intros ?NC|intros ?NF|intros ?m ?FM]
  | |- wp (InsertContractEvent _ _ _ _ _ _) _ _ _ => eapply wp_InsertContractEvent; [|intros ?NC|]
  | |- wp (TransitionContract _ _ _) _ _ _ =>
      apply wp_TransitionContract; [|intros ?NC|intros ?NS ?w ?CW|intros ?k ?FK ?ST]
  | |- wp (InsertDeliverable _ _ _ _) _ _ _ =>
      eapply wp_InsertDeliverable; [|intros ?NC|intros ->|intros ?ks -> ?DUP|intros ?ks -> ?NEW]
  | |- wp (InsertDispute _) _ _ _ =>
      eapply wp_InsertDispute; [|intros ?NC|intros ?e ?PB|intros ?PB]
  | |- wp (bind (exec (update_rows contracts_t _ _ _)) _) _ _ _ => apply wp_set_contract; [intros ?NC|]
  | |- wp (bind (exec (update_rows milestones_t _ _ _)) _) _ _ _ => apply wp_set_milestone; [intros ?NC|]
  | |- wp (Enqueue _) _ _ _ => apply wp_Enqueue; [intros ?NC|]
  end.

(** * The contract operations meet their specification *)
Ltac wp_hook ::= contract_rules.

(** The update statements of the store functions. *)
Ltac unfold_updates :=
  lazymatch goal with
  | |- wp (MarkContractStarted _) _ _ _ => unfold MarkContractStarted
  | |- wp (ForceStatus _ _) _ _ _ => unfold ForceStatus
  | |- wp (ContractStore.FundMilestone _) _ _ _ => unfold ContractStore.FundMilestone
  | |- wp (ContractStore.SubmitMilestone _) _ _ _ => unfold ContractStore.SubmitMilestone
  | |- wp (ContractStore.ApproveMilestone _) _ _ _ => unfold ContractStore.ApproveMilestone
  | |- wp (forbidden_of _) _ _ _ => unfold forbidden_of
  end.

Section Meets.
Context (ev : env) (d : contract_db) (n : nat) (HK : keyed c_ID (contracts d)).

(** Runs the operation; driver failures before the commit end in [settles_failed]. *)
Ltac run :=
  repeat first [unfold_updates | wp_step]; cbn [now fresh committed txs] in *;
  repeat match goal with
  | H : context [find_contract ?x (set_milestone ?m ?f d)] |- _ =>
      change (find_contract x (set_milestone m f d)) with (find_contract x d) in H
  | H : context [deliverables (set_milestone ?m ?f d)] |- _ =>
      change (deliverables (set_milestone m f d)) with (deliverables d) in H
  end;
  try (split; [done|by apply settles_failed]); try discriminate.

(** Matches an end of the run with the specification, at the draw [s]. *)
Ltac settle spec s :=
  split; [done|]; cbn [committed];
  first [eapply (settles_ok _ _ _ s) | eapply (settles_err _ _ _ s)
        | eapply (settles_lost _ _ _ s); [assumption| |]];
  [split; cbn [began ids]; [eexists; reflexivity|intros ?j; eexists; reflexivity]|];
  unfold spec, move_spec; cbn [began ids];
  repeat match goal with
  | H : ?x = _ |- context [?x] => rewrite H; cbn beta iota zeta delta [negb]
  end; try done.

Lemma activate_meets id actor :
  wp (ActivateContract id actor) ev (rest d n) (ended (settles ev d (activate_spec id actor d))).
Proof.
  unfold ActivateContract, rest.
  assert (forall c, find_contract id d = Some c ->
    find_contract id (set_contract id (started (clock ev n)) (set_contract id (with_status "active") d)) =
    Some (activated (clock ev n) c)) as HF.
  { intros c F. by rewrite !set_contract_find, F by done. }
  assert (forall t, set_contract id (started t) (set_contract id (with_status "active") d) =
    set_contract id (activated t) d) as HT.
  { intros t. unfold set_contract. cbn [contracts put contracts_t]. by rewrite update_twice. }
  run; try (rewrite (HF k FK) in *; simplify_eq); try exact (HF k FK); try rewrite !HT.
  - done.
  - rewrite CW. settle activate_spec (Draw (clock ev n) (gen_uuid ev)).
    destruct (find_contract id d) as [c|] eqn:F; [|done]. by rewrite NS.
  - reflexivity.
  - settle activate_spec (Draw (clock ev n) (gen_uuid ev)).
  - settle activate_spec (Draw (clock ev n) (gen_uuid ev)).
Qed.

Lemma fund_milestone_meets mid caller :
  wp (FundMilestone mid caller) ev (rest d n) (ended (settles ev d (fund_spec mid caller d))).
Proof.
  unfold FundMilestone, rest. run; settle fund_spec (Draw (clock ev n) (gen_uuid ev)).
Qed.

Lemma approve_meets mid caller :
  wp (ApproveMilestone mid caller) ev (rest d n) (ended (settles ev d (approve_spec mid caller d))).
Proof.
  unfold ApproveMilestone, rest. run; settle approve_spec (Draw (clock ev n) (gen_uuid ev)).
Qed.

Lemma submit_meets mid caller note keys :
  wp (SubmitMilestone mid caller note keys) ev (rest d n)
    (ended (settles ev d (submit_spec mid caller note keys d))).
Proof.
  unfold SubmitMilestone, rest.
  run; try settle submit_spec (Draw (clock ev n) (fun _ => gen_uuid ev (S (S (S (S n)))))).
  rewrite set_milestone_find, FM by done. reflexivity.
Qed.

Lemma dispute_meets cid by_ against mid reason amount :
  wp (RaiseDispute cid by_ against mid reason amount) ev (rest d n)
    (ended (settles ev d (dispute_spec cid by_ against mid reason amount d))).
Proof.
  unfold RaiseDispute, rest.
  run; rewrite ?RequireOneOf_two in *; try (rewrite FK in *; simplify_eq); try exact FK.
  all: repeat match goal with
  | H : context [if ?b then None else Some Forbidden] |- _ => destruct b eqn:?; simplify_eq
  end.
  all: cbn [dp_ContractID dp_MilestoneID] in *.
  all: try settle dispute_spec (Draw (clock ev n) (fun _ => gen_uuid ev (S (S (S n))))).
  rewrite set_contract_find by done.
  transitivity (option_map (with_status "disputed") (find_contract cid d)); [done|].
  rewrite FK. reflexivity.
Qed.

(** ** Creating a contract *)

Lemma wp_insert_milestones cid ms u v t m k (Q : res contract_err unit -> world contract_db -> Prop) :
  find_contract cid v = Some k ->
  (forall j, u j = gen_uuid ev (m + j)) ->
  (forall w, committed w = d -> ~ calm ev -> Q (Err (Db Driver)) w) ->
  (forall e w, committed w = d -> milestones_problem cid u ms (milestones v) = Some e ->
     Q (Err (Db e)) w) ->
  (forall m', milestones_problem cid u ms (milestones v) = None ->
     Q (Ok tt) (World d (Live t (put milestones_t (milestones v ++ milestone_rows cid u ms) v)) m')) ->
  wp (for_each ms (InsertMilestone cid)) ev (World d (Live t v) m) Q.
Proof.
  revert u v m. induction ms as [|x ms IH]; intros u v m Hk Hu Hf He Hs.
  - apply wp_ret. specialize (Hs m eq_refl). cbn [milestone_rows] in Hs. rewrite app_nil_r in Hs.
    by assert (put milestones_t (milestones v) v = v) as E by (by destruct v); rewrite E in Hs.
  - assert (u 0%nat = gen_uuid ev m) as Hu0 by (by rewrite Hu, Nat.add_0_r).
    cbn [milestones_problem milestone_rows for_each] in *. rewrite Hu0 in *.
    wp_step. unfold InsertMilestone at 1. wp_step; [wp_step; by apply He|].
    wp_step. wp_step; [by apply Hf|]. unfold insert_milestone at 1, insert_row at 1.
    cbn [rows milestones_t first_violation fresh].
    destruct (milestone_check (milestones v) _) as [e|] eqn:C; [by apply He|].
    rewrite (references_found _ _ _ _ _ Hk). wp_step.
    apply IH with (u := fun j => u (S j)); try done.
    + intros j. rewrite Hu. f_equal. lia.
    + intros m' HP. specialize (Hs m' HP). cbn [milestones put milestones_t] in *.
      rewrite <- app_assoc. exact Hs.
Qed.

(** The last statements of the transaction, once the rows are in. *)
Lemma create_tail i u t v m k :
  create_problem i d u = None ->
  find_contract (u 0%nat) v = Some k -> drawn ev (Draw t u) ->
  record (u 0%nat) None "pending_funding" "create" (in_ClientID i) (JObj []) t v = created i u t d ->
  wp (InsertContractEvent (u 0%nat) None "pending_funding" "create" (Some (in_ClientID i)) None ;;;
      commit ;;; ret (contract_of (u 0%nat) i)) ev (World d (Live t v) m)
    (fun r w => ended (settles ev d (create_spec i d)) r (World (committed w) NoTx (tick w))).
Proof.
  intros HP Hk HD HE. run; try discriminate; cbn [default] in *; try exact Hk; try rewrite HE.
  - split; [done|]. apply (settles_ok _ _ _ (Draw t u)); [done|]. unfold create_spec. cbn [ids began].
    by rewrite HP.
  - split; [done|]. apply (settles_lost _ _ _ (Draw t u) (contract_of (u 0%nat) i)); [done|done|].
    unfold create_spec. cbn [ids began]. by rewrite HP.
Qed.

Lemma contract_create_meets i m :
  wp (create_tx i) ev (World d NoTx m) (ended (settles ev d (create_spec i d))).
Proof.
  unfold create_tx. wp_step; [split; [done|by apply settles_failed]|].
  set (t := clock ev m). set (u := fun j => gen_uuid ev (S m + j)).
  assert (u 0%nat = gen_uuid ev (S m)) as Hu0 by (unfold u; by rewrite Nat.add_0_r).
  assert (drawn ev (Draw t u)) as HD by (split; [by exists m|intros j; by eexists]).
  assert (forall w e, committed w = d -> create_problem i d u = Some e ->
    ended (settles ev d (create_spec i d)) (Err (Db e)) (World (committed w) NoTx (tick w))) as Hbad.
  { intros w e -> HP. split; [done|]. apply (settles_err _ _ _ (Draw t u)); [done|].
    unfold create_spec. cbn [ids]. by rewrite HP. }
  unfold create_problem in Hbad. rewrite Hu0 in Hbad. cbv zeta in Hbad.
  wp_step. unfold InsertContract. wp_step.
  { wp_step. apply Hbad; [done|]. cbn [contract_of c_WeeklyHourLimit c_PlatformFeeBps] in *. by rewrite Heqb. }
  cbn [contract_of c_WeeklyHourLimit c_PlatformFeeBps] in Heqb. rewrite Heqb in Hbad.
  wp_step. wp_step; [split; [done|by apply settles_failed]|].
  unfold insert_contract. cbn [contract_of c_BudgetType c_Currency].
  destruct (enum budget_types (in_BudgetType i)) eqn:EN; cbn [negb] in *; [|by apply Hbad].
  destruct (bpchar 3 (in_Currency i)) as [cur|] eqn:CUR; [|by apply Hbad].
  unfold insert_row. cbn [rows contracts_t fresh]. fold (contract_of "" i).
  destruct (contract_check (contracts d) _) as [e|] eqn:CK; [by apply Hbad|].
  wp_step. cbn [new_contract c_ID]. rewrite <- Hu0 in *.
  set (row := new_contract (u 0%nat) cur (contract_of "" i)) in *.
  assert (find_contract (u 0%nat) (put contracts_t (contracts d ++ [row]) d) = Some row) as Hrow.
  { unfold find_contract. cbn [contracts put contracts_t]. apply contract_check_new in CK as CKn. change (c_ID row) with (u 0%nat) in CKn.
    rewrite find_key_app, (proj2 find_key_None CKn). cbn. unfold has_key. cbn.
    by rewrite String.eqb_refl. }
  assert (is_hourly i = false -> milestones_problem (u 0%nat) (fun k => u (S k)) (in_Milestones i)
    (milestones d) = None -> create_problem i d u = None) as HPm.
  { intros Hh HP. unfold create_problem. cbv zeta. rewrite Heqb, EN, CUR. cbn [negb]. fold row.
      by rewrite CK, Hh. }
  assert (default "" (bpchar 3 (in_Currency i)) = cur) as Hcur by by rewrite CUR.
  wp_step. fold (is_hourly i). destruct (is_hourly i) eqn:Hh.
  - unfold InsertHourlyContract. wp_step. wp_step; [split; [done|by apply settles_failed]|].
    unfold insert_row. rewrite (references_found _ _ _ _ _ Hrow).
    cbn [rows hourly_contracts_t hourly_contracts put contracts_t first_violation].
    destruct (unique_index _ _ (hourly_contracts d) _) as [e|] eqn:UQ; [by apply Hbad|].
    wp_step. apply create_tail with (u := u) (k := row); [|exact Hrow|done|].
    + unfold create_problem. cbv zeta. rewrite Heqb, EN, CUR. cbn [negb]. fold row.
      by rewrite CK, Hh.
    + unfold created. rewrite Hh, Hcur, app_nil_r. reflexivity.
  - apply wp_insert_milestones with (u := fun k => u (S k)) (k := row); [exact Hrow| | | |].
    + intros j. unfold u. f_equal. lia.
    + intros w -> NC. split; [done|by apply settles_failed].
    + intros e w Hw HP. by apply Hbad.
    + intros m' HP. apply create_tail with (u := u) (k := row); [by apply HPm|exact Hrow|done|].
      unfold created. rewrite Hh, Hcur, app_nil_r. reflexivity.
Qed.
End Meets.
