(* ===== verification/ContractInv.v ===== *)
(** * Invariants of the contract tables

    [timeline]: the status of every contract is what replaying its events
    gives.  [terms]: what a contract is worth never drifts from its milestones.
    [stages]: every milestone is at one of four stages, with the timestamps of
    the stages it passed. *)
From S2P Require Export ContractSpec.

(** ** Event sourcing *)

Definition events_of (cid : string) (l : list ContractEvent) : list ContractEvent :=
  List.filter (has_key ce_contract_id cid) l.

Definition same_status (a b : option string) : bool :=
  match a, b with
  | Some x, Some y => String.eqb x y
  | None, None => true
  | _, _ => false
  end.

(** Replaying events: each must start from the status the previous one left;
    the result is the status at the end. *)
Fixpoint replay (cur : option string) (l : list ContractEvent) : option (option string) :=
  match l with
  | [] => Some cur
  | e :: l' => if same_status (ce_FromStatus e) cur then replay (Some (ce_ToStatus e)) l' else None
  end.

(** The transitions of the contract state machine. *)
Definition transition_ok (e : ContractEvent) : Prop :=
  (ce_FromStatus e = None /\ ce_ToStatus e = "pending_funding" /\ ce_Event e = "create") \/
  (ce_FromStatus e = Some "pending_funding" /\ ce_ToStatus e = "active" /\ ce_Event e = "activate") \/
  (ce_FromStatus e <> None /\ ce_ToStatus e = "disputed" /\ ce_Event e = "dispute").

Record timeline (cs : list Contract) (es : list ContractEvent) : Prop := {
  tl_ids : keyed c_ID cs;
  tl_order : StronglySorted Z.lt (map ce_id es);
  tl_owner e : In e es -> In (ce_contract_id e) (map c_ID cs);
  tl_ok e : In e es -> transition_ok e;
  tl_replay c : In c cs -> replay None (events_of (c_ID c) es) = Some (Some (c_Status c))
}.

Lemma same_status_refl a : same_status a a = true.
Proof. destruct a; [apply String.eqb_refl|done]. Qed.

Lemma replay_snoc cur l e st :
  replay cur l = Some st -> ce_FromStatus e = st -> replay cur (l ++ [e]) = Some (Some (ce_ToStatus e)).
Proof.
  revert cur. induction l as [|x l IH]; intros cur; cbn.
  - intros [= ->] ->. by rewrite same_status_refl.
  - destruct (same_status _ _); [|done]. apply IH.
Qed.

Lemma replay_last cur l s : replay cur l = Some (Some s) -> cur = Some s \/ exists e, In e l /\ ce_ToStatus e = s.
Proof.
  revert cur. induction l as [|e l IH]; intros cur; cbn [replay]; [intros [= ->]; by left|].
  destruct (same_status _ _); [|done]. intros [[= <-]|(x & Hx & E)]%IH; right; [exists e|exists x]; split; auto; [by left|by right].
Qed.

(** No transition ends in another status. *)
Lemma timeline_status cs es c : timeline cs es -> In c cs -> In (c_Status c) ["pending_funding"; "active"; "disputed"].
Proof.
  intros HT Hc. destruct (replay_last _ _ _ (tl_replay _ _ HT c Hc)) as [|(e & He & <-)]; [done|].
  apply List.filter_In in He as [He _].
  destruct (tl_ok _ _ HT e He) as [(_ & -> & _)|[(_ & -> & _)|(_ & -> & _)]]; cbn; auto.
Qed.

Lemma events_of_snoc cid l e :
  events_of cid (l ++ [e]) = events_of cid l ++ if has_key ce_contract_id cid e then [e] else [].
Proof. unfold events_of. rewrite List.filter_app. cbn. by case_match. Qed.

Lemma events_of_none cid cs l :
  (forall e, In e l -> In (ce_contract_id e) (map c_ID cs)) -> ~ In cid (map c_ID cs) -> events_of cid l = [].
Proof.
  intros Ho Hn. apply (select_none (has_key ce_contract_id cid)). intros e He.
  apply has_key_false. intros K. destruct Hn. rewrite <- K. auto.
Qed.

Lemma sorted_snoc_next es cid f t ev a p s :
  StronglySorted Z.lt (map ce_id es) ->
  StronglySorted Z.lt (map ce_id (es ++ [mkContractEvent (next_id ce_id es) cid f t ev a p s])).
Proof.
  intros Hs. rewrite map_app. apply sorted_snoc; [done|].
  intros x (e & <- & He)%in_map_iff. by apply next_id_above.
Qed.

(** One more event, about a contract whose status follows. *)
Lemma timeline_step cs es id f c e :
  timeline cs es -> List.find (has_key c_ID id) cs = Some c ->
  (forall x, c_ID (f x) = c_ID x) ->
  ce_id e = next_id ce_id es -> ce_contract_id e = id -> ce_FromStatus e = Some (c_Status c) ->
  ce_ToStatus e = c_Status (f c) -> transition_ok e ->
  timeline (update_where (has_key c_ID id) f cs) (es ++ [e]).
Proof.
  intros [Hk Ho Hw Hok Hr] HF Hf He1 He2 He3 He4 Htr. destruct (find_key_In HF) as [Hc Hid].
  assert (map c_ID (update_where (has_key c_ID id) f cs) = map c_ID cs) as HM by by apply map_key_update.
  constructor.
  - by apply keyed_update.
  - destruct e; cbn in He1; subst. by apply sorted_snoc_next.
  - rewrite HM. intros x [Hx|[<-|[]]]%in_app_iff; [by apply Hw|].
    rewrite He2, <- Hid. by apply in_map.
  - intros x [Hx|[<-|[]]]%in_app_iff; [by apply Hok|done].
  - intros x [[Hx Hn]|(x0 & Hx & K & ->)]%In_update; rewrite events_of_snoc; unfold has_key at 1; rewrite He2.
    + apply has_key_false in Hn. rewrite (proj2 (String.eqb_neq id (c_ID x))) by congruence.
      rewrite app_nil_r. by apply Hr.
    + apply has_key_true in K. assert (x0 = c) as -> by (eapply keyed_inj; eauto; congruence).
      rewrite Hf, Hid, String.eqb_refl, <- He4. eapply replay_snoc; [|exact He3].
      rewrite <- Hid. by apply Hr.
Qed.

(** A new contract with its first event. *)
Lemma timeline_create cs es c e :
  timeline cs es -> ~ In (c_ID c) (map c_ID cs) ->
  ce_id e = next_id ce_id es -> ce_contract_id e = c_ID c -> ce_FromStatus e = None ->
  ce_ToStatus e = c_Status c -> transition_ok e ->
  timeline (cs ++ [c]) (es ++ [e]).
Proof.
  intros [Hk Ho Hw Hok Hr] Hn He1 He2 He3 He4 Htr. constructor.
  - by apply keyed_snoc.
  - destruct e; cbn in He1; subst. by apply sorted_snoc_next.
  - rewrite map_app. intros x [Hx|[<-|[]]]%in_app_iff; apply in_app_iff; [left; by apply Hw|].
    right. left. by rewrite He2.
  - intros x [Hx|[<-|[]]]%in_app_iff; [by apply Hok|done].
  - intros x [Hx|[<-|[]]]%in_app_iff; rewrite events_of_snoc; unfold has_key at 1; rewrite He2.
    + rewrite (proj2 (String.eqb_neq _ _)); [rewrite app_nil_r; by apply Hr|].
      intros K. destruct Hn. rewrite K. by apply in_map.
    + rewrite String.eqb_refl, (events_of_none (c_ID c) cs) by done. cbn. rewrite He3, <- He4. done.
Qed.

(** ** Terms *)

Definition milestones_of (cid : string) (l : list Milestone) : list Milestone :=
  List.filter (has_key m_ContractID cid) l.

(** The terms of a contract against its milestones and hourly settings. *)
Definition terms_ok (ms : list Milestone) (hs : list HourlyContract) (c : Contract) : Prop :=
  c_ClientID c <> "" /\ c_FreelancerID c <> "" /\ c_ClientID c <> c_FreelancerID c /\
  c_PlatformFeeBps c = 1000 /\
  ((c_BudgetType c = "fixed" /\ milestones_of (c_ID c) ms <> [] /\ c_HourlyRateCents c = None /\
    c_TotalAmountCents c = Some (sum64 (map m_AmountCents (milestones_of (c_ID c) ms)))) \/
   (c_BudgetType c = "hourly" /\ milestones_of (c_ID c) ms = [] /\ c_TotalAmountCents c = None /\
    c_HourlyRateCents c <> None /\ In (mkHourlyContract (c_ID c)) hs)).

(** What the milestones' moves keep. *)
Definition keeps_amount (f : Milestone -> Milestone) : Prop :=
  forall m, m_ID (f m) = m_ID m /\ m_ContractID (f m) = m_ContractID m /\
            m_AmountCents (f m) = m_AmountCents m /\ m_Seq (f m) = m_Seq m.

Lemma milestones_of_update cid id f ms :
  keeps_amount f ->
  map m_AmountCents (milestones_of cid (update_where (has_key m_ID id) f ms)) =
  map m_AmountCents (milestones_of cid ms) /\
  (milestones_of cid (update_where (has_key m_ID id) f ms) = [] <-> milestones_of cid ms = []).
Proof.
  intros Hf. unfold milestones_of. induction ms as [|m ms [IH1 IH2]]; [done|].
  cbn [update_where map List.filter]. fold (update_where (has_key m_ID id) f ms).
  assert (has_key m_ContractID cid (if has_key m_ID id m then f m else m) = has_key m_ContractID cid m) as ->.
  { unfold has_key at 1 3. destruct (has_key m_ID id m); [|done]. by destruct (Hf m) as (_ & -> & _). }
  destruct (has_key m_ContractID cid m); cbn; [|done]. split; [|done].
  rewrite IH1. destruct (has_key m_ID id m); [|done]. by destruct (Hf m) as (_ & _ & -> & _).
Qed.

Lemma terms_ok_moved ms hs id f c :
  keeps_amount f -> terms_ok ms hs c -> terms_ok (update_where (has_key m_ID id) f ms) hs c.
Proof.
  intros Hf. unfold terms_ok. destruct (milestones_of_update (c_ID c) id f ms Hf) as [-> ->]. done.
Qed.

(** ** Stages *)

(** The stage of a milestone and the timestamps it carries. *)
Definition milestone_ok (m : Milestone) : Prop :=
  0 < m_AmountCents m /\
  ((m_Status m = "pending" /\ m_FundedAt m = None /\ m_SubmittedAt m = None /\ m_ApprovedAt m = None) \/
   (m_Status m = "funded" /\ m_FundedAt m <> None /\ m_SubmittedAt m = None /\ m_ApprovedAt m = None) \/
   (m_Status m = "submitted" /\ m_FundedAt m <> None /\ m_SubmittedAt m <> None /\ m_ApprovedAt m = None) \/
   (m_Status m = "approved" /\ m_FundedAt m <> None /\ m_SubmittedAt m <> None /\ m_ApprovedAt m <> None)).

(** A milestone at a stage can move to the next. *)
Lemma funded_ok t m : milestone_ok m -> m_Status m = "pending" -> milestone_ok (funded t m).
Proof.
  intros [Ha [(_ & _ & ? & ?)|[(E & _)|[(E & _)|(E & _)]]]] St; try (by rewrite St in E).
  split; [done|]. right. left. by repeat split.
Qed.

Lemma submitted_ok t m : milestone_ok m -> m_Status m = "funded" -> milestone_ok (submitted t m).
Proof.
  intros [Ha [(E & _)|[(_ & ? & _ & ?)|[(E & _)|(E & _)]]]] St; try (by rewrite St in E).
  split; [done|]. right. right. left. by repeat split.
Qed.

Lemma approved_ok t m : milestone_ok m -> m_Status m = "submitted" -> milestone_ok (approved t m).
Proof.
  intros [Ha [(E & _)|[(E & _)|[(_ & ? & ? & _)|(E & _)]]]] St; try (by rewrite St in E).
  split; [done|]. right. right. right. by repeat split.
Qed.

Definition is_approved (m : Milestone) : bool := String.eqb (m_Status m) "approved".

(** An approval of milestone [mid] in the outbox. *)
Definition approves (mid : string) (r : OutboxRow) : bool :=
  String.eqb (event_type r) "milestone.approved" &&
  match payload r with
  | JObj (("milestone_id", JStr m) :: _) => String.eqb m mid
  | _ => false
  end.

Definition approvals (mid : string) (l : list OutboxRow) : Z := countZ (approves mid) l.

(** A milestone.approved event tells the amount of its milestone and the
    freelancer of its contract. *)
Definition approval_true (ms : list Milestone) (cs : list Contract) (r : OutboxRow) : Prop :=
  exists m c, In m ms /\ In c cs /\ m_ContractID m = c_ID c /\
    payload r = Payload (milestone_approved_event (m_ID m) (c_ID c) (m_AmountCents m) (c_FreelancerID c)) /\
    topic r = "contract.events" /\ partition_key r = c_ID c.

Record contract_inv (d : contract_db) : Prop := {
  cinv_timeline : timeline (contracts d) (contract_events d);
  cinv_milestones : keyed m_ID (milestones d);
  cinv_owner m : In m (milestones d) -> In (m_ContractID m) (map c_ID (contracts d));
  cinv_stage m : In m (milestones d) -> milestone_ok m;
  cinv_seq m m' : In m (milestones d) -> In m' (milestones d) ->
    m_ContractID m = m_ContractID m' -> m_Seq m = m_Seq m' -> m = m';
  cinv_terms c : In c (contracts d) -> terms_ok (milestones d) (hourly_contracts d) c;
  cinv_approvals mid : approvals mid (contract_outbox d) =
    at_key m_ID (fun m => if is_approved m then 1 else 0) mid (milestones d);
  cinv_approval r : In r (contract_outbox d) -> event_type r = "milestone.approved" ->
    approval_true (milestones d) (contracts d) r
}.

Lemma empty_contract_inv : contract_inv empty_contract_db.
Proof. by constructor; [constructor; [| | | |]| | | | | | |]; try done; constructor. Qed.

(** ** Preservation *)

Lemma approvals_publish mid e t l :
  approvals mid (enqueued t e l) =
  approvals mid l + (if approves mid (mkOutbox (next_id o_id l) (AggregateType e) (AggregateID e)
    (EventType e) (Topic e) (PartitionKey e) (Payload e) (Headers e) t None) then 1 else 0).
Proof. apply countZ_snoc. Qed.

Lemma approvals_other mid e t l :
  EventType e <> "milestone.approved" -> approvals mid (enqueued t e l) = approvals mid l.
Proof.
  intros He. rewrite approvals_publish. unfold approves. cbn [event_type].
  rewrite (proj2 (String.eqb_neq _ _) He). cbn [andb]. lia.
Qed.

Lemma funded_keeps t : keeps_amount (funded t). Proof. by intros m. Qed.
Lemma submitted_keeps t : keeps_amount (submitted t). Proof. by intros m. Qed.
Lemma approved_keeps t : keeps_amount (approved t). Proof. by intros m. Qed.

(** Truth of the approvals survives updates that keep ids, amounts and parties. *)
Lemma approval_kept (fm : Milestone -> Milestone) (fc : Contract -> Contract) ms cs ms' cs' r :
  (forall m, m_ID (fm m) = m_ID m /\ m_ContractID (fm m) = m_ContractID m /\
     m_AmountCents (fm m) = m_AmountCents m) ->
  (forall c, c_ID (fc c) = c_ID c /\ c_FreelancerID (fc c) = c_FreelancerID c) ->
  (forall m, In m ms -> In (fm m) ms') -> (forall c, In c cs -> In (fc c) cs') ->
  approval_true ms cs r -> approval_true ms' cs' r.
Proof.
  intros Hfm Hfc Hms Hcs (m & c & Hm & Hc & E & HP & HT). exists (fm m), (fc c).
  destruct (Hfm m) as (-> & -> & ->), (Hfc c) as (-> & ->). auto.
Qed.

Lemma In_update_where {R} (p : R -> bool) f l r :
  In r l -> In (if p r then f r else r) (update_where p f l).
Proof. intros Hr. apply in_map_iff. eauto. Qed.

(** A milestone moved, with the outbox counting its approval. *)
Lemma milestone_moved_inv d mid f m dl ob :
  contract_inv d -> find_milestone mid d = Some m -> keeps_amount f -> milestone_ok (f m) ->
  (forall k, approvals k ob = approvals k (contract_outbox d) +
     (if has_key m_ID k m then (if is_approved (f m) then 1 else 0) - (if is_approved m then 1 else 0) else 0)) ->
  (forall r, In r ob -> In r (contract_outbox d) \/ event_type r <> "milestone.approved" \/
     approval_true (milestones d) (contracts d) r) ->
  contract_inv (mkContractDb (contracts d) (contract_events d)
    (update_where (has_key m_ID mid) f (milestones d)) dl (hourly_contracts d) (disputes d) ob).
Proof.
  intros [Ht Hk Ho Hst Hsq Hte Ha Hap] HF Hf Hok Hob Hnew.
  assert (forall x, m_ID (f x) = m_ID x) as Hid by (intros x; apply Hf).
  assert (forall x, In x (update_where (has_key m_ID mid) f (milestones d)) ->
    exists x0, In x0 (milestones d) /\ (x = x0 \/ (x0 = m /\ x = f m))) as Hin.
  { intros x [[Hx _]|(x0 & Hx & K & ->)]%In_update; [eauto|].
    exists x0. split; [done|]. right. apply has_key_true in K.
    destruct (find_key_In HF) as [Hm Hmid]. assert (x0 = m) as -> by (eapply (keyed_inj m_ID); eauto; congruence).
    done. }
  constructor; cbn [contracts contract_events milestones deliverables hourly_contracts disputes contract_outbox]; auto.
  - by apply keyed_update.
  - intros x (x0 & Hx & [->|[-> ->]])%Hin; [by apply Ho|]. destruct (Hf m) as (_ & -> & _). by apply Ho.
  - intros x (x0 & Hx & [->|[-> ->]])%Hin; auto.
  - intros x y Hx Hy Hc Hs. apply in_map_iff in Hx as (x0 & <- & Hx), Hy as (y0 & <- & Hy).
    assert (x0 = y0) as ->; [|done]. apply Hsq; [done|done| |].
    + revert Hc. do 2 case_match; repeat match goal with |- context [f ?z] => destruct (Hf z) as (_ & -> & _) end; done.
    + revert Hs. do 2 case_match; repeat match goal with |- context [f ?z] => destruct (Hf z) as (_ & _ & _ & ->) end; done.
  - intros c Hc. apply terms_ok_moved; auto.
  - intros k. rewrite Hob, Ha, (at_key_update m_ID m_ID _ _ _ _ _ m) by done. done.
  - intros r Hr He.
    apply (approval_kept (fun m => if has_key m_ID mid m then f m else m) id (milestones d) (contracts d)).
    + intros x. destruct (has_key m_ID mid x); [by destruct (Hf x) as (-> & -> & -> & _)|done].
    + done.
    + intros x. apply In_update_where.
    + done.
    + destruct (Hnew r Hr) as [?|[?|?]]; auto. done.
Qed.

(** A contract whose status changed, with the event that says so. *)
Lemma stepped_inv d id f c e dp ob :
  contract_inv d -> find_contract id d = Some c ->
  (forall x, c_ID (f x) = c_ID x /\ c_ClientID (f x) = c_ClientID x /\ c_FreelancerID (f x) = c_FreelancerID x /\
     c_PlatformFeeBps (f x) = c_PlatformFeeBps x /\ c_BudgetType (f x) = c_BudgetType x /\
     c_HourlyRateCents (f x) = c_HourlyRateCents x /\ c_TotalAmountCents (f x) = c_TotalAmountCents x) ->
  ce_id e = next_id ce_id (contract_events d) -> ce_contract_id e = id ->
  ce_FromStatus e = Some (c_Status c) -> ce_ToStatus e = c_Status (f c) -> transition_ok e ->
  (forall k, approvals k ob = approvals k (contract_outbox d)) ->
  (forall r, In r ob -> In r (contract_outbox d) \/ event_type r <> "milestone.approved") ->
  contract_inv (mkContractDb (update_where (has_key c_ID id) f (contracts d)) (contract_events d ++ [e])
    (milestones d) (deliverables d) (hourly_contracts d) dp ob).
Proof.
  intros [Ht Hk Ho Hst Hsq Hte Ha Hap] HF Hf He1 He2 He3 He4 Htr Hob Hnew.
  assert (forall x, c_ID (f x) = c_ID x) as Hid by (intros x; apply Hf).
  constructor; cbn [contracts contract_events milestones deliverables hourly_contracts disputes contract_outbox]; auto.
  - by apply (timeline_step _ _ id f c).
  - intros m Hm. rewrite map_key_update by done. by apply Ho.
  - intros x [[Hx _]|(x0 & Hx & _ & ->)]%In_update; [by apply Hte|].
    unfold terms_ok. destruct (Hf x0) as (-> & -> & -> & -> & -> & -> & ->). by apply Hte.
  - intros k. by rewrite Hob.
  - intros r Hr He.
    apply (approval_kept (fun m => m) (fun c => if has_key c_ID id c then f c else c) (milestones d) (contracts d)).
    + done.
    + intros x. destruct (has_key c_ID id x); [by destruct (Hf x) as (-> & _ & -> & _)|done].
    + done.
    + intros x. apply In_update_where.
    + destruct (Hnew r Hr) as [?|?]; auto. done.
Qed.

(** ** A new contract *)

Definition seq_unique (l : list Milestone) : Prop :=
  forall m m', In m l -> In m' l -> m_ContractID m = m_ContractID m' -> m_Seq m = m_Seq m' -> m = m'.

Lemma milestone_check_None l m :
  milestone_check l m = None ->
  0 < m_AmountCents m /\ ~ In (m_ID m) (map m_ID l) /\
  (forall x, In x l -> m_ContractID x = m_ContractID m -> m_Seq x <> m_Seq m).
Proof.
  unfold milestone_check. rewrite first_violation_None.
  intros HF. inversion HF as [|? ? H1 HF1]; subst. inversion HF1 as [|? ? H2 HF2]; subst.
  inversion HF2 as [|? ? H3 _]; subst. apply check_row_None in H1.
  rewrite unique_index_None in H2, H3. split; [lia|]. split.
  - intros (x & K & Hx)%in_map_iff. specialize (H2 x Hx). cbn in H2. by rewrite K, String.eqb_refl in H2.
  - intros x Hx Hc Hs. specialize (H3 x Hx). cbn in H3. rewrite Hc, Hs, String.eqb_refl in H3. lia.
Qed.

Lemma milestone_rows_good cid u ms l :
  milestones_problem cid u ms l = None -> keyed m_ID l -> seq_unique l -> (forall m, In m l -> milestone_ok m) ->
  keyed m_ID (l ++ milestone_rows cid u ms) /\ seq_unique (l ++ milestone_rows cid u ms) /\
  (forall m, In m (l ++ milestone_rows cid u ms) -> milestone_ok m).
Proof.
  revert u l. induction ms as [|x ms IH]; intros u l; cbn [milestones_problem milestone_rows].
  - rewrite app_nil_r. auto.
  - destruct (negb _); [done|]. destruct (milestone_check l _) eqn:C; [done|].
    apply milestone_check_None in C as (Ha & Hn & Hs). intros HP Hk Hsq Hok.
    replace (l ++ new_milestone (u 0%nat) cid x :: milestone_rows cid (fun k => u (S k)) ms)
      with ((l ++ [new_milestone (u 0%nat) cid x]) ++ milestone_rows cid (fun k => u (S k)) ms)
      by (by rewrite <- app_assoc).
    apply IH; [done|by apply keyed_snoc| |].
    + intros m m' [Hm|[<-|[]]]%in_app_iff [Hm'|[<-|[]]]%in_app_iff Hc He; auto.
      * by destruct (Hs m Hm Hc).
      * by destruct (Hs m' Hm').
    + intros m [Hm|[<-|[]]]%in_app_iff; auto. split; [done|]. by left.
Qed.

Lemma milestone_rows_in cid u ms m :
  In m (milestone_rows cid u ms) -> m_ContractID m = cid /\ m_Status m = "pending".
Proof.
  revert u. induction ms as [|x ms IH]; intros u; cbn; [done|]. intros [<-|Hm]; [done|by eapply IH].
Qed.

Lemma milestone_rows_amounts cid u ms :
  map m_AmountCents (milestone_rows cid u ms) = map mi_AmountCents ms.
Proof. revert u. induction ms as [|x ms IH]; intros u; cbn; [done|]. by rewrite IH. Qed.

Lemma milestones_of_app cid l1 l2 : milestones_of cid (l1 ++ l2) = milestones_of cid l1 ++ milestones_of cid l2.
Proof. apply List.filter_app. Qed.

Lemma milestones_of_all cid l : (forall m, In m l -> m_ContractID m = cid) -> milestones_of cid l = l.
Proof.
  induction l as [|m l IH]; cbn; intros Hl; [done|]. unfold has_key at 1.
  rewrite (Hl m) by auto. rewrite String.eqb_refl. f_equal. auto.
Qed.

Lemma milestones_of_none cid l : (forall m, In m l -> m_ContractID m <> cid) -> milestones_of cid l = [].
Proof. intros Hl. apply (select_none (has_key m_ContractID cid)). intros m Hm. by apply has_key_false, Hl. Qed.

(** Terms as deriveContractTerms leaves them. *)
Definition derived (i : CreateInput) : Prop :=
  in_ClientID i <> "" /\ in_FreelancerID i <> "" /\ in_ClientID i <> in_FreelancerID i /\
  in_PlatformFeeBps i = 1000 /\
  (in_BudgetType i = "fixed" -> in_Milestones i <> [] /\ in_HourlyRateCents i = None /\
     in_TotalAmountCents i = Some (sum64 (map mi_AmountCents (in_Milestones i)))) /\
  (in_BudgetType i = "hourly" -> in_TotalAmountCents i = None /\ in_HourlyRateCents i <> None).

Lemma create_problem_None i d u :
  create_problem i d u = None ->
  exists cur, bpchar 3 (in_Currency i) = Some cur /\
    (in_BudgetType i = "fixed" \/ in_BudgetType i = "hourly") /\
    ~ In (u 0%nat) (map c_ID (contracts d)) /\
    (is_hourly i = false ->
       milestones_problem (u 0%nat) (fun k => u (S k)) (in_Milestones i) (milestones d) = None).
Proof.
  unfold create_problem. cbv zeta. destruct (negb (_ && _)); [done|].
  destruct (enum budget_types (in_BudgetType i)) eqn:EN; cbn [negb]; [|done].
  destruct (bpchar 3 (in_Currency i)) as [cur|]; [|done].
  destruct (contract_check _ _) eqn:CK; [done|]. intros HP. exists cur. split; [done|]. split.
  - unfold enum in EN. apply existsb_exists in EN as (x & [<-|[<-|[]]] & ->%String.eqb_eq); auto.
  - split; [exact (contract_check_new _ _ CK)|]. intros Hh. by rewrite Hh in HP.
Qed.

Lemma contract_created_inv i u t d :
  contract_inv d -> derived i -> create_problem i d u = None -> contract_inv (created i u t d).
Proof.
  intros [Ht Hk Ho Hst Hsq Hte Ha Hap] (Hc1 & Hc2 & Hc3 & Hfee & Hfix & Hhr) HP.
  destruct (create_problem_None _ _ _ HP) as (cur & Hcur & Hbt & Hnew & Hms).
  unfold created. rewrite Hcur. cbn [default]. set (cid := u 0%nat) in *.
  set (row := new_contract cid cur (contract_of "" i)).
  set (ms := if is_hourly i then [] else milestone_rows cid (fun k => u (S k)) (in_Milestones i)).
  assert (keyed m_ID (milestones d ++ ms) /\ seq_unique (milestones d ++ ms) /\
    (forall m, In m (milestones d ++ ms) -> milestone_ok m)) as (Hk' & Hsq' & Hst').
  { unfold ms. destruct (is_hourly i) eqn:Hh; [rewrite app_nil_r; auto|].
    apply milestone_rows_good; auto. }
  assert (forall m, In m ms -> m_ContractID m = cid /\ m_Status m = "pending") as Hin.
  { unfold ms. destruct (is_hourly i); [done|]. apply milestone_rows_in. }
  assert (milestones_of cid (milestones d ++ ms) = ms) as Hmine.
  { rewrite milestones_of_app, milestones_of_none, milestones_of_all; [done| |].
    - intros m Hm. by apply Hin.
    - intros m Hm K. destruct Hnew. rewrite <- K. by apply Ho. }
  assert (forall c, In c (contracts d) -> milestones_of (c_ID c) (milestones d ++ ms) =
    milestones_of (c_ID c) (milestones d)) as Hother.
  { intros c Hc. rewrite milestones_of_app, (milestones_of_none _ ms), app_nil_r; [done|].
    intros m [-> _]%Hin E. destruct Hnew. rewrite E. by apply in_map. }
  constructor; cbn [record put contract_events_t contracts contract_events milestones hourly_contracts
    contract_outbox]; auto.
  - apply timeline_create; try done. by left.
  - intros m [Hm|Hm]%in_app_iff; rewrite map_app; apply in_app_iff; [left; by apply Ho|].
    right. left. by rewrite (proj1 (Hin m Hm)).
  - intros c [Hc|[<-|[]]]%in_app_iff.
    + unfold terms_ok. rewrite Hother by done.
      destruct (Hte c Hc) as (? & ? & ? & ? & [?|(? & ? & ? & ? & ?)]); repeat split; auto.
      right. repeat split; auto. apply in_app_iff. by left.
    + unfold terms_ok. cbn [new_contract contract_of c_ID c_ClientID c_FreelancerID c_PlatformFeeBps
        c_BudgetType c_HourlyRateCents c_TotalAmountCents]. rewrite Hmine.
      repeat split; auto. destruct Hbt as [Hb|Hb].
      * assert (is_hourly i = false) as Hh by (unfold is_hourly; by rewrite Hb).
        destruct (Hfix Hb) as (? & ? & ?). left. unfold ms. rewrite Hh, milestone_rows_amounts.
        repeat split; auto. by destruct (in_Milestones i).
      * assert (is_hourly i = true) as Hh by (unfold is_hourly; by rewrite Hb).
        destruct (Hhr Hb). right. unfold ms. rewrite Hh. repeat split; auto.
        apply in_app_iff. right. by left.
  - intros mid. rewrite Ha. unfold at_key. rewrite sumZ_app.
    rewrite (sumZ_zero_in _ ms); [lia|]. intros m [_ Hp]%Hin. unfold is_approved. rewrite Hp. by case_match.
  - intros r Hr He. destruct (Hap r Hr He) as (m & c & Hm & Hc & ?). exists m, c.
    rewrite !in_app_iff. auto.
Qed.
