(* ===== verification/ContractProofs.v ===== *)
(** * Properties of the contract service *)
From S2P Require Export ContractInv.
From S2P Require Export Relay.

(** ** Operations and reachable databases *)

Inductive contract_op :=
| OpCreate (i : CreateInput)
| OpActivate (id actor : string)
| OpFund (mid caller : string)
| OpSubmit (mid caller note : string) (keys : option (list string))
| OpApprove (mid caller : string)
| OpDispute (cid by_ against : string) (mid : option string) (reason : string) (amount : option Z).

(** The database after a call on a world at rest. *)
Definition cafter {A} (m : cprog A) (ev : env) (d : contract_db) (n : nat) : contract_db :=
  committed (snd (m ev (rest d n))).

(** Why CreateFromProposal refuses before it opens a transaction. *)
Definition refused (net : Http.transport) (baseURL : string) (i : CreateInput) (e : contract_err) : Prop :=
  (in_ProposalID i = "" /\ e = ErrProposalRequired) \/
  (in_ClientID i = "" /\ e = ErrInvalidParties) \/
  (exists n x, ProposalLookup.read_proposal (net n (ProposalLookup.proposal_url baseURL (in_ProposalID i))) = inr x /\
     e = match x with ProposalLookup.LookupNotFound => ErrNotFound | _ => ErrForbidden end) \/
  (exists p, ProposalLookup.proposed net baseURL (in_ProposalID i) p /\ deriveContractTerms i p = inr e).

Section Service.
Context (net : Http.transport) (baseURL : string).

Definition run_cop (op : contract_op) : cprog unit :=
  match op with
  | OpCreate i => CreateFromProposal net baseURL i ;;; ret tt
  | OpActivate id actor => ActivateContract id actor
  | OpFund mid caller => FundMilestone mid caller
  | OpSubmit mid caller note keys => SubmitMilestone mid caller note keys
  | OpApprove mid caller => ApproveMilestone mid caller
  | OpDispute cid by_ against mid reason amount =>
      RaiseDispute cid by_ against mid reason amount ;;; ret tt
  end.

Inductive contract_reachable : contract_db -> Prop :=
| creach_empty : contract_reachable empty_contract_db
| creach_op d op ev n : contract_reachable d -> contract_reachable (cafter (run_cop op) ev d n).

(** The outcomes of CreateFromProposal. *)
Definition create_outcome (i : CreateInput) (ev : env) (d : contract_db)
  (r : res contract_err Contract) (d' : contract_db) : Prop :=
  (exists e, r = Err (Dom e) /\ d' = d /\ refused net baseURL i e) \/
  (exists p i', ProposalLookup.proposed net baseURL (in_ProposalID i) p /\
     deriveContractTerms i p = inl i' /\ settles ev d (create_spec i' d) r d').

Lemma from_proposal_meets i ev d n :
  wp (CreateFromProposal net baseURL i) ev (rest d n) (ended (create_outcome i ev d)).
Proof.
  unfold CreateFromProposal, rest.
  assert (forall e w, txs w = NoTx -> committed w = d -> refused net baseURL i e ->
    ended (create_outcome i ev d) (Err (Dom e)) w) as Href.
  { intros e w Hn Hw HR. split; [done|]. left. eauto. }
  unfold refused in Href.
  destruct (String.eqb_spec (in_ProposalID i) "") as [?|]; [apply wp_throw, Href; auto|].
  destruct (String.eqb_spec (in_ClientID i) "") as [?|]; [apply wp_throw, Href; auto|].
  apply wp_bind, ProposalLookup.wp_GetProposal.
  destruct (ProposalLookup.read_proposal _) as [p|x] eqn:R.
  - assert (ProposalLookup.proposed net baseURL (in_ProposalID i) p) as Hp by by exists n.
    destruct (deriveContractTerms i p) as [i'|e] eqn:DT; [|apply wp_throw, Href; eauto 6].
    eapply wp_mono; [apply contract_create_meets|]. intros r w [Hn HO]. split; [done|]. right. eauto.
  - destruct x; apply wp_throw, Href; try done; right; right; left; eexists _, _; by split.
Qed.

(** What a call may leave behind. *)
Inductive cop_effect : contract_op -> contract_db -> contract_db -> Prop :=
| eff_none op d : cop_effect op d d
| eff_create i p i' s c d d' : ProposalLookup.proposed net baseURL (in_ProposalID i) p ->
    deriveContractTerms i p = inl i' -> create_spec i' d s = inl (c, d') -> cop_effect (OpCreate i) d d'
| eff_activate id actor s d d' :
    activate_spec id actor d s = inl (tt, d') -> cop_effect (OpActivate id actor) d d'
| eff_fund mid caller s d d' : fund_spec mid caller d s = inl (tt, d') -> cop_effect (OpFund mid caller) d d'
| eff_submit mid caller note keys s d d' :
    submit_spec mid caller note keys d s = inl (tt, d') -> cop_effect (OpSubmit mid caller note keys) d d'
| eff_approve mid caller s d d' :
    approve_spec mid caller d s = inl (tt, d') -> cop_effect (OpApprove mid caller) d d'
| eff_dispute cid by_ against mid reason amount s id d d' :
    dispute_spec cid by_ against mid reason amount d s = inl (id, d') ->
    cop_effect (OpDispute cid by_ against mid reason amount) d d'.

Lemma cop_meets op ev d n :
  contract_inv d -> wp (run_cop op) ev (rest d n) (fun _ w => cop_effect op d (committed w)).
Proof.
  intros HI. pose proof (tl_ids _ _ (cinv_timeline d HI)) as HK.
  destruct op; cbn [run_cop].
  - apply wp_bind. eapply wp_mono; [apply from_proposal_meets|].
    intros r w [_ HO]. assert (cop_effect (OpCreate i) d (committed w)) as HE.
    { destruct HO as [(e & _ & -> & _)|(p & i' & Hp & DT & [->|(s & c & H)]%settles_changed)];
        [by constructor|by constructor|by eapply eff_create]. }
    by destruct r; try apply wp_ret.
  - eapply wp_mono; [by apply activate_meets|].
    intros r w [_ [->|(s & [] & H)]%settles_changed]; [by constructor|by eapply eff_activate].
  - eapply wp_mono; [by apply fund_milestone_meets|].
    intros r w [_ [->|(s & [] & H)]%settles_changed]; [by constructor|by eapply eff_fund].
  - eapply wp_mono; [by apply submit_meets|].
    intros r w [_ [->|(s & [] & H)]%settles_changed]; [by constructor|by eapply eff_submit].
  - eapply wp_mono; [by apply approve_meets|].
    intros r w [_ [->|(s & [] & H)]%settles_changed]; [by constructor|by eapply eff_approve].
  - apply wp_bind. eapply wp_mono; [by apply dispute_meets|].
    intros r w [_ HO]. assert (cop_effect (OpDispute cid by_ against mid reason amount) d (committed w)) as HE.
    { apply settles_changed in HO as [->|(s & id & H)]; [by constructor|by eapply eff_dispute]. }
    by destruct r; try apply wp_ret.
Qed.
End Service.

(** ** Terms *)

(** The terms a contract gets: what the proposal says, and of the request only
    the proposal, the client, the kind of budget and its breakdown. *)
Definition proposed_terms (i : CreateInput) (p : ProposalLookup.Proposal) : CreateInput :=
  let fixed := String.eqb (in_BudgetType i) "fixed" in
  let hourly := String.eqb (in_BudgetType i) "hourly" in
  let bid := ProposalLookup.BidAmountCents p in
  let currency := if String.eqb (ProposalLookup.Currency p) "" then in_Currency i
                  else ProposalLookup.Currency p in
  mkCreateInput (ProposalLookup.ProjectID p) (in_ProposalID i) (in_ClientID i)
    (ProposalLookup.FreelancerID p) (in_BudgetType i)
    (if String.eqb currency "" then "USD" else currency)
    (if fixed then Some bid else if hourly then None else in_TotalAmountCents i)
    (if fixed then None else if hourly then Some bid else in_HourlyRateCents i)
    (in_WeeklyHourLimit i) 1000 (in_Milestones i).

Definition acceptable (i : CreateInput) (p : ProposalLookup.Proposal) : Prop :=
  ProposalLookup.ProjectClientID p <> "" /\ ProposalLookup.ProjectClientID p = in_ClientID i /\
  ProposalLookup.Status p <> "withdrawn" /\ ProposalLookup.Status p <> "declined" /\
  ProposalLookup.FreelancerID p <> "" /\ ProposalLookup.FreelancerID p <> in_ClientID i /\
  (in_BudgetType i = "fixed" -> in_Milestones i <> [] /\
     sum64 (map mi_AmountCents (in_Milestones i)) = ProposalLookup.BidAmountCents p).

(** What a contract may say. deriveContractTerms accepts a request exactly
    when the caller owns the project of the proposal, the proposal is not
    withdrawn or declined, its freelancer is somebody else, and the milestones of
    a fixed-price contract add up (in int64) to the bid; the terms are then those
    of the proposal, whatever the body says. *)
Theorem derive_accepts_iff i p i' :
  deriveContractTerms i p = inl i' <-> acceptable i p /\ i' = proposed_terms i p.
Proof.
  unfold deriveContractTerms, acceptable, proposed_terms. cbv zeta.
  destruct (String.eqb_spec (ProposalLookup.ProjectClientID p) ""); cbn [orb]; [by split; [|intros [(? & _) _]]|].
  destruct (String.eqb_spec (ProposalLookup.ProjectClientID p) (in_ClientID i)) as [E|E]; cbn [negb];
    [|by split; [|intros [(_ & ? & _) _]]].
  destruct (String.eqb_spec (ProposalLookup.Status p) "withdrawn"); cbn [orb];
    [by split; [|intros [(_ & _ & ? & _) _]]|].
  destruct (String.eqb_spec (ProposalLookup.Status p) "declined");
    [by split; [|intros [(_ & _ & _ & ? & _) _]]|].
  destruct (String.eqb_spec (in_ClientID i) (ProposalLookup.FreelancerID p)) as [F|F]; cbn [orb];
    [by split; [|intros [(_ & _ & _ & _ & _ & ? & _) _]]|].
  destruct (String.eqb_spec (ProposalLookup.FreelancerID p) "");
    [by split; [|intros [(_ & _ & _ & _ & ? & _) _]]|].
  destruct (String.eqb_spec (in_BudgetType i) "fixed") as [B|B].
  - destruct (Nat.eqb_spec (List.length (in_Milestones i)) 0) as [L|L].
    + split; [done|]. intros [(_ & _ & _ & _ & _ & _ & HF) _]. destruct (HF B) as [Hm _].
      by destruct (in_Milestones i).
    + destruct (Z.eqb_spec (sum64 (map mi_AmountCents (in_Milestones i))) (ProposalLookup.BidAmountCents p));
        cbn [negb].
      * split; [intros [= <-]|by intros [_ ->]]. repeat split; auto. by destruct (in_Milestones i).
      * split; [done|]. intros [(_ & _ & _ & _ & _ & _ & HF) _]. by destruct (HF B).
  - destruct (String.eqb (in_BudgetType i) "hourly"); (split; [intros [= <-]|by intros [_ ->]]);
      repeat split; auto; done.
Qed.

(** The request body cannot fabricate terms. Two requests for a fixed-price
    or hourly contract on the same proposal, by the same caller, that agree on
    the kind of budget, the weekly limit and the milestones get the same answer,
    whatever project, freelancer, fee and amounts they name; only when the
    proposal has no currency does the body's count. *)
Theorem body_cannot_fabricate i1 i2 p :
  in_ProposalID i1 = in_ProposalID i2 -> in_ClientID i1 = in_ClientID i2 ->
  in_BudgetType i1 = in_BudgetType i2 -> (in_BudgetType i1 = "fixed" \/ in_BudgetType i1 = "hourly") ->
  in_WeeklyHourLimit i1 = in_WeeklyHourLimit i2 -> in_Milestones i1 = in_Milestones i2 ->
  (ProposalLookup.Currency p = "" -> in_Currency i1 = in_Currency i2) ->
  deriveContractTerms i1 p = deriveContractTerms i2 p.
Proof.
  intros E1 E2 E3 Hb E4 E5 Hc. unfold deriveContractTerms. rewrite <- E1, <- E2, <- E3, <- E4, <- E5.
  destruct (String.eqb_spec (ProposalLookup.Currency p) "") as [C|C]; [rewrite (Hc C)|];
    by destruct Hb as [-> | ->].
Qed.

Lemma derive_derived i p i' : deriveContractTerms i p = inl i' -> derived i'.
Proof.
  intros [(H1 & H2 & _ & _ & H3 & H4 & HF) ->]%derive_accepts_iff.
  unfold derived, proposed_terms. cbn. repeat split; try congruence.
  - by destruct (HF H).
  - by rewrite H.
  - destruct (HF H) as [_ E]. rewrite H. cbn. f_equal. symmetry. exact E.
  - by rewrite H.
  - by rewrite H.
Qed.

Lemma move_spec_ok from f who mid caller d s m c d' :
  move_spec from f who mid caller d s = inl (m, c, d') ->
  find_milestone mid d = Some m /\ m_Status m = from /\ find_contract (m_ContractID m) d = Some c /\
  caller = who c /\ d' = set_milestone mid (f (began s)) d.
Proof.
  unfold move_spec. destruct (find_milestone mid d) as [m0|]; [|done].
  destruct (String.eqb_spec (m_Status m0) from); cbn [negb]; [|done].
  destruct (find_contract (m_ContractID m0) d) as [c0|] eqn:F; [|done].
  destruct (String.eqb_spec caller (who c0)); cbn [negb]; [|done]. by intros [= <- <- <-].
Qed.

Lemma milestone_move_inv d mid from f who caller s m c d' dl :
  contract_inv d -> move_spec from f who mid caller d s = inl (m, c, d') ->
  keeps_amount (f (began s)) -> milestone_ok (f (began s) m) ->
  is_approved m = false -> is_approved (f (began s) m) = false ->
  contract_inv (put deliverables_t dl d').
Proof.
  intros HI (HF & _ & _ & _ & ->)%move_spec_ok Hk Hok H1 H2.
  apply (milestone_moved_inv d mid (f (began s)) m dl (contract_outbox d)); try done.
  - intros k. rewrite H1, H2. case_match; lia.
  - auto.
Qed.

Lemma cop_effect_inv net baseURL op d d' : contract_inv d -> cop_effect net baseURL op d d' -> contract_inv d'.
Proof.
  intros HI HE. destruct HE as [|i p i' s c d d' _ DT CS|id actor s d d' H|mid caller s d d' H
    |mid caller note keys s d d' H|mid caller s d d' H|cid by_ against mid reason amount s id d d' H].
  - done.
  - unfold create_spec in CS. destruct (create_problem i' d (ids s)) eqn:CP; [done|].
    injection CS as <- <-. apply contract_created_inv; [done|by eapply derive_derived|done].
  - unfold activate_spec in H. destruct (find_contract id d) as [c|] eqn:F; [|done].
    unfold in_status in H. destruct (String.eqb_spec (c_Status c) "pending_funding") as [St|]; [|done].
    injection H as <-. apply (stepped_inv d id (activated (began s)) c); try done.
    + cbn. by rewrite St.
    + right. by left.
    + intros k. by apply approvals_other.
    + intros r [Hr|[<-|[]]]%in_app_iff; auto.
  - unfold fund_spec in H. destruct (move_spec _ _ _ _ _ _ _) as [[[m c] d1]|] eqn:M; [|done].
    injection H as <-. destruct (move_spec_ok _ _ _ _ _ _ _ _ _ _ M) as (HF & St & _ & _ & ->).
    change (contract_inv (put deliverables_t (deliverables d) (set_milestone mid (funded (began s)) d))).
    assert (milestone_ok m) as Hm by (apply (cinv_stage d HI), (find_key_In HF)).
    eapply milestone_move_inv; [done|exact M|apply funded_keeps| | |done].
    + by apply funded_ok.
    + unfold is_approved. by rewrite St.
  - unfold submit_spec in H. destruct (move_spec _ _ _ _ _ _ _) as [[[m c] d1]|] eqn:M; [|done].
    destruct (move_spec_ok _ _ _ _ _ _ _ _ _ _ M) as (HF & St & _ & _ & E).
    assert (exists dl, d' = put deliverables_t dl d1) as [dl ->].
    { destruct (_ || _).
      - destruct keys; [|done]. destruct (existsb _ _); [done|]. injection H as <-. eauto.
      - injection H as <-. exists (deliverables d1). by destruct d1. }
    assert (milestone_ok m) as Hm by (apply (cinv_stage d HI), (find_key_In HF)).
    eapply milestone_move_inv; [done|exact M|apply submitted_keeps| | |done].
    + by apply submitted_ok.
    + unfold is_approved. by rewrite St.
  - unfold approve_spec in H. destruct (move_spec _ _ _ _ _ _ _) as [[[m c] d1]|] eqn:M; [|done].
    injection H as <-. destruct (move_spec_ok _ _ _ _ _ _ _ _ _ _ M) as (HF & St & FC & _ & ->).
    destruct (find_key_In HF) as [Hin Hmid], (find_key_In FC) as [Hc Hcid].
    assert (milestone_ok m) as Hm by by apply (cinv_stage d HI).
    apply (milestone_moved_inv d mid (approved (began s)) m (deliverables d)); try done.
    + by apply approved_ok.
    + intros k. rewrite approvals_publish. f_equal. unfold is_approved, approves, has_key.
      rewrite St, Hmid. cbn. by case_match.
    + intros r [Hr|[<-|[]]]%in_app_iff; [by left|]. right. right. exists m, c.
      unfold milestone_approved_event. cbn. rewrite Hmid, Hcid. by repeat split.
  - unfold dispute_spec in H. destruct (find_contract cid d) as [c|] eqn:F; [|done].
    destruct (negb _); [done|]. destruct (dispute_problem _ _ _); [done|].
    injection H as <- <-. apply (stepped_inv d cid (with_status "disputed") c); try done.
    + right. by right.
    + intros k. by apply approvals_other.
    + intros r [Hr|[<-|[]]]%in_app_iff; auto.
Qed.

Lemma creachable_inv net baseURL d : contract_reachable net baseURL d -> contract_inv d.
Proof.
  induction 1 as [|d op ev n Hd IH]; [apply empty_contract_inv|].
  eapply cop_effect_inv; [done|]. exact (cop_meets net baseURL op ev d n IH).
Qed.

(** ** Theorems *)

Section Theorems.
Context (net : Http.transport) (baseURL : string).

(** Refinement of the contract operations. From any reachable database and
    under any faults, each call closes its transaction and ends as its
    specification says: a function of the tables that gives the new tables or an
    error. An error leaves the tables as they were; only a driver failure at the
    commit leaves the caller in doubt. *)
Theorem contract_ops_meet_spec d ev n :
  contract_reachable net baseURL d ->
  (forall i, wp (CreateFromProposal net baseURL i) ev (rest d n) (ended (create_outcome net baseURL i ev d))) /\
  (forall id actor, wp (ActivateContract id actor) ev (rest d n)
     (ended (settles ev d (activate_spec id actor d)))) /\
  (forall mid caller, wp (FundMilestone mid caller) ev (rest d n)
     (ended (settles ev d (fund_spec mid caller d)))) /\
  (forall mid caller note keys, wp (SubmitMilestone mid caller note keys) ev (rest d n)
     (ended (settles ev d (submit_spec mid caller note keys d)))) /\
  (forall mid caller, wp (ApproveMilestone mid caller) ev (rest d n)
     (ended (settles ev d (approve_spec mid caller d)))) /\
  (forall cid by_ against mid reason amount,
     wp (RaiseDispute cid by_ against mid reason amount) ev (rest d n)
       (ended (settles ev d (dispute_spec cid by_ against mid reason amount d)))).
Proof.
  intros Hd. pose proof (tl_ids _ _ (cinv_timeline d (creachable_inv _ _ d Hd))).
  split; [intros; by apply from_proposal_meets|]. split; [intros; by apply activate_meets|].
  split; [intros; by apply fund_milestone_meets|]. split; [intros; by apply submit_meets|].
  split; [intros; by apply approve_meets|intros; by apply dispute_meets].
Qed.

(** The timeline of a contract as ListContractEvents returns it. *)
Definition timeline_of (cid : string) (d : contract_db) : list ContractEvent :=
  order_by ce_id (select_rows (has_key ce_contract_id cid) (contract_events d)).

Lemma timeline_of_events cid d : contract_inv d -> timeline_of cid d = events_of cid (contract_events d).
Proof.
  intros HI. apply order_by_id. pose proof (tl_order _ _ (cinv_timeline d HI)) as Hs.
  unfold select_rows, events_of. induction (contract_events d) as [|e l IH]; [constructor|].
  inversion Hs as [|x l' Hl Hx]; subst. cbn [List.filter].
  destruct (has_key ce_contract_id cid e); [|by apply IH].
  constructor; [by apply IH|]. rewrite List.Forall_forall in *. intros x Hin%List.filter_In.
  assert (ce_id e < ce_id x) by (apply Hx, in_map, Hin). lia.
Qed.

(** The status of a contract is the replay of its events. In every
    reachable database the timeline of a contract, in the order the API lists
    it, starts with its creation, each event starting from the status the
    previous one left and being a transition of the state machine (created,
    activated from pending_funding, disputed from anywhere), and it ends in the
    status the contract has. *)
Theorem contract_status_replays d c :
  contract_reachable net baseURL d -> In c (contracts d) ->
  replay None (timeline_of (c_ID c) d) = Some (Some (c_Status c)) /\
  Forall transition_ok (timeline_of (c_ID c) d).
Proof.
  intros Hd Hc. pose proof (creachable_inv _ _ d Hd) as HI. rewrite timeline_of_events by done.
  split; [by apply (tl_replay _ _ (cinv_timeline d HI))|].
  apply List.Forall_forall. intros e [He _]%List.filter_In. by apply (tl_ok _ _ (cinv_timeline d HI)).
Qed.

(** The moves of milestone [m] of contract [c]: the client funds and approves,
    the freelancer submits. *)
Inductive milestone_step (c : Contract) (m : Milestone) : contract_op -> Milestone -> Prop :=
| step_fund t : m_Status m = "pending" -> milestone_step c m (OpFund (m_ID m) (c_ClientID c)) (funded t m)
| step_submit note keys t : m_Status m = "funded" ->
    milestone_step c m (OpSubmit (m_ID m) (c_FreelancerID c) note keys) (submitted t m)
| step_approve t : m_Status m = "submitted" ->
    milestone_step c m (OpApprove (m_ID m) (c_ClientID c)) (approved t m).

(** The operations that move a milestone. *)
Inductive move_of : contract_op -> string -> (Z -> Milestone -> Milestone) -> (Contract -> string) ->
  string -> string -> Prop :=
| move_fund mid caller : move_of (OpFund mid caller) "pending" funded c_ClientID mid caller
| move_submit mid caller note keys :
    move_of (OpSubmit mid caller note keys) "funded" submitted c_FreelancerID mid caller
| move_approve mid caller : move_of (OpApprove mid caller) "submitted" approved c_ClientID mid caller.

(** An operation adds milestones or moves one. *)
Lemma cop_milestones op d d' :
  cop_effect net baseURL op d d' ->
  (exists l, milestones d' = milestones d ++ l) \/
  (exists from f who mid caller s m c d1, move_of op from f who mid caller /\
     move_spec from f who mid caller d s = inl (m, c, d1) /\ milestones d' = milestones d1).
Proof.
  intros HE. destruct HE as [|i p i' s c d d' _ DT CS|id actor s d d' H|mid caller s d d' H
    |mid caller note keys s d d' H|mid caller s d d' H|cid by_ against mid reason amount s id d d' H].
  - left. exists []. by rewrite app_nil_r.
  - left. unfold create_spec in CS. destruct (create_problem i' d (ids s)); [done|].
    injection CS as <- <-. eexists. reflexivity.
  - left. exists []. rewrite app_nil_r. unfold activate_spec in H. destruct (find_contract id d); [|done].
    destruct (in_status _ _); [|done]. by injection H as <-.
  - right. unfold fund_spec in H. destruct (move_spec _ _ _ _ _ _ _) as [[[m0 c0] d1]|] eqn:M; [|done].
    injection H as <-. eexists _, _, _, _, _, _, _, _, _. split; [constructor|]. by split; [exact M|].
  - right. unfold submit_spec in H. destruct (move_spec _ _ _ _ _ _ _) as [[[m0 c0] d1]|] eqn:M; [|done].
    eexists _, _, _, _, _, _, _, _, _. split; [constructor|]. split; [exact M|].
    destruct (_ || _); [|by injection H as <-]. destruct keys; [|done].
    destruct (existsb _ _); [done|]. by injection H as <-.
  - right. unfold approve_spec in H. destruct (move_spec _ _ _ _ _ _ _) as [[[m0 c0] d1]|] eqn:M; [|done].
    injection H as <-. eexists _, _, _, _, _, _, _, _, _. split; [constructor|]. by split; [exact M|].
  - left. exists []. rewrite app_nil_r. unfold dispute_spec in H. destruct (find_contract cid d); [|done].
    destruct (negb _); [done|]. destruct (dispute_problem _ _ _); [done|]. by injection H as <- <-.
Qed.

(** C9: The milestone state machine. Whatever operation runs, under any faults,
    a milestone stays as it is or makes one step pending - funded - submitted -
    approved, made by the party of its contract that may make it; its amount,
    contract and position never change, and it never disappears. *)
Theorem milestone_moves op d ev n m :
  contract_reachable net baseURL d -> In m (milestones d) ->
  exists m', In m' (milestones (cafter (run_cop net baseURL op) ev d n)) /\ m_ID m' = m_ID m /\
    (m' = m \/ exists c, In c (contracts d) /\ c_ID c = m_ContractID m /\ milestone_step c m op m').
Proof.
  intros Hd Hm. pose proof (creachable_inv _ _ d Hd) as HI.
  pose proof (cop_meets net baseURL op ev d n HI) as HE. cbv [wp] in HE.
  change (cop_effect net baseURL op d (cafter (run_cop net baseURL op) ev d n)) in HE.
  revert HE. generalize (cafter (run_cop net baseURL op) ev d n). intros d2 HE.
  destruct (cop_milestones _ _ _ HE) as [[l ->]|
    (from & f & who & mid & caller & s & m0 & c0 & d1 & Hop & HM & ->)].
  { exists m. split; [apply in_app_iff; by left|auto]. }
  apply move_spec_ok in HM as (HF & St & FC & -> & ->). destruct (find_key_In FC).
  exists (if has_key m_ID mid m then f (began s) m else m). split; [by apply In_update_where|].
  destruct (has_key m_ID mid m) eqn:K; [|auto]. split; [by destruct Hop|]. right.
  apply has_key_true in K. subst mid. unfold find_milestone in HF.
  rewrite (keyed_find m_ID _ _ (cinv_milestones d HI) Hm) in HF. injection HF as ->.
  exists c0. split; [done|]. split; [done|]. remember (m_ID m0) as mid' eqn:Hmid.
  remember (who c0) as caller eqn:Hcaller. destruct Hop; subst; by constructor.
Qed.
(** A milestone is approved exactly once, and the event tells the truth. In
    every reachable database the outbox holds one milestone.approved event about
    a milestone that is approved and none about any other; each such event is on
    the topic of the contract, with the milestone's amount and contract and the
    freelancer of that contract. *)
Theorem approval_published_once d m :
  contract_reachable net baseURL d -> In m (milestones d) ->
  approvals (m_ID m) (contract_outbox d) = (if is_approved m then 1 else 0) /\
  forall r, In r (contract_outbox d) -> event_type r = "milestone.approved" ->
    approval_true (milestones d) (contracts d) r.
Proof.
  intros Hd Hm. pose proof (creachable_inv _ _ d Hd) as HI. split; [|apply (cinv_approval d HI)].
  rewrite (cinv_approvals d HI), (at_key_In m_ID); [done|apply (cinv_milestones d HI)|done].
Qed.

(** A contract is worth what its milestones add up to. In every reachable
    database the parties of a contract differ and its fee is the platform's 10%;
    a fixed-price contract has milestones, all of positive amount, and its total
    is their sum as long as it fits an int64 (beyond, the sum wraps); an hourly
    one has a rate, a settings row and no milestones. *)
Theorem contract_worth_its_milestones d c :
  contract_reachable net baseURL d -> In c (contracts d) ->
  let ms := milestones_of (c_ID c) (milestones d) in
  c_ClientID c <> c_FreelancerID c /\ c_PlatformFeeBps c = 1000 /\
  (forall m, In m ms -> 0 < m_AmountCents m) /\
  (c_BudgetType c = "fixed" -> ms <> [] /\
     c_TotalAmountCents c = Some (wrap64 (sumZ m_AmountCents ms)) /\
     (sumZ m_AmountCents ms <= int64_max -> c_TotalAmountCents c = Some (sumZ m_AmountCents ms))) /\
  (c_BudgetType c = "hourly" -> ms = [] /\ c_HourlyRateCents c <> None /\
     In (mkHourlyContract (c_ID c)) (hourly_contracts d)) /\
  (c_BudgetType c = "fixed" \/ c_BudgetType c = "hourly").
Proof.
  intros Hd Hc ms. pose proof (creachable_inv _ _ d Hd) as HI.
  assert (forall m, In m ms -> 0 < m_AmountCents m) as Hpos.
  { intros m [Hm _]%List.filter_In. by apply (cinv_stage d HI). }
  destruct (cinv_terms d HI c Hc) as (_ & _ & Hp & Hf & Hb). fold ms in Hb.
  split; [done|]. split; [done|]. split; [done|]. rewrite sum64_wrap, sumZ_map in Hb.
  destruct Hb as [(Hb & Hn & _ & HT)|(Hb & Hn & _ & Hr & Hh)].
  - split; [|split; [by rewrite Hb|auto]]. intros _. split; [done|]. split; [done|].
    intros Hle. rewrite HT. f_equal. apply wrap64_id. split; [|done].
    assert (0 <= sumZ m_AmountCents ms) by (apply sumZ_nonneg; intros m Hm%Hpos; lia).
    unfold int64_min. lia.
  - split; [by rewrite Hb|]. auto.
Qed.

Lemma move_spec_runs from f who d s m c :
  find_milestone (m_ID m) d = Some m -> m_Status m = from -> find_contract (m_ContractID m) d = Some c ->
  move_spec from f who (m_ID m) (who c) d s = inl (m, c, set_milestone (m_ID m) (f (began s)) d).
Proof.
  intros HM <- HC. unfold move_spec. rewrite HM, String.eqb_refl. cbn [negb].
  rewrite HC, String.eqb_refl. done.
Qed.

(** A call that meets a specification, when nothing fails. *)
Lemma calm_call {A} (p : cprog A) ev d n spec :
  wp p ev (rest d n) (ended (settles ev d spec)) -> calm ev ->
  exists s, drawn ev s /\
    match spec s with
    | inl (a, d1) => fst (p ev (rest d n)) = Ok a /\ cafter p ev d n = d1
    | inr e => fst (p ev (rest d n)) = Err e /\ cafter p ev d n = d
    end.
Proof. intros [_ HS] Hc. exact (settles_calm _ _ _ _ _ HS Hc). Qed.

(** The three moves, when nothing fails. *)
Lemma fund_runs d m c ev n :
  calm ev -> find_milestone (m_ID m) d = Some m -> m_Status m = "pending" ->
  find_contract (m_ContractID m) d = Some c ->
  exists t, fst (FundMilestone (m_ID m) (c_ClientID c) ev (rest d n)) = Ok tt /\
    cafter (FundMilestone (m_ID m) (c_ClientID c)) ev d n = set_milestone (m_ID m) (funded t) d.
Proof.
  intros C HF St HC.
  destruct (calm_call _ ev d n _ (fund_milestone_meets ev d n (m_ID m) (c_ClientID c)) C) as (s & _ & H1).
  unfold fund_spec in H1. rewrite (move_spec_runs _ _ c_ClientID _ _ m c) in H1 by done. eauto.
Qed.

Lemma submit_runs d m c note keys ev n :
  calm ev -> find_milestone (m_ID m) d = Some m -> m_Status m = "funded" ->
  find_contract (m_ContractID m) d = Some c -> ~ (note <> "" /\ keys = None) ->
  (forall k, ~ In (gen_uuid ev k) (map dl_id (deliverables d))) ->
  exists t dl, fst (SubmitMilestone (m_ID m) (c_FreelancerID c) note keys ev (rest d n)) = Ok tt /\
    cafter (SubmitMilestone (m_ID m) (c_FreelancerID c) note keys) ev d n =
      put deliverables_t dl (set_milestone (m_ID m) (submitted t) d).
Proof.
  intros C HF St HC Hkeys Hfresh.
  destruct (calm_call _ ev d n _ (submit_meets ev d n (m_ID m) (c_FreelancerID c) note keys) C)
    as (s & [_ Hid] & H2).
  unfold submit_spec in H2. rewrite (move_spec_runs _ _ c_FreelancerID _ _ m c) in H2 by done.
  destruct (negb (String.eqb note "") || (0 <? List.length (default [] keys))%nat) eqn:HN.
  - destruct keys as [ks|].
    + destruct (existsb _ (deliverables d)) eqn:X; [|destruct H2; eauto].
      exfalso. apply existsb_exists in X as (x & Hx & K%has_key_true). destruct (Hid 0%nat) as [k Hk].
      apply (Hfresh k). rewrite <- Hk, <- K. by apply in_map.
    + exfalso. apply Hkeys. split; [|done]. by intros ->.
  - destruct H2 as [? E]. eexists (began s), (deliverables d). split; [done|]. rewrite E. by destruct d.
Qed.

Lemma approve_runs d m c ev n :
  calm ev -> find_milestone (m_ID m) d = Some m -> m_Status m = "submitted" ->
  find_contract (m_ContractID m) d = Some c ->
  exists t, fst (ApproveMilestone (m_ID m) (c_ClientID c) ev (rest d n)) = Ok tt /\
    In (approved t m) (milestones (cafter (ApproveMilestone (m_ID m) (c_ClientID c)) ev d n)).
Proof.
  intros C HF St HC.
  destruct (calm_call _ ev d n _ (approve_meets ev d n (m_ID m) (c_ClientID c)) C) as (s & _ & H3).
  unfold approve_spec in H3. rewrite (move_spec_runs _ _ c_ClientID _ _ m c) in H3 by done.
  destruct H3 as [R ->]. exists (began s). split; [done|]. apply in_map_iff. exists m.
  split; [|by apply (find_key_In HF)]. unfold has_key. by rewrite String.eqb_refl.
Qed.

(** The life of a milestone. On a pending milestone, when nothing fails, the
    client's funding, the freelancer's submission and the client's approval each
    succeed and leave the milestone approved, with one event published. *)
Theorem milestone_lifecycle d m c keys note ev1 ev2 ev3 n1 n2 n3 :
  contract_reachable net baseURL d -> calm ev1 -> calm ev2 -> calm ev3 ->
  In m (milestones d) -> m_Status m = "pending" -> In c (contracts d) -> c_ID c = m_ContractID m ->
  ~ (note <> "" /\ keys = None) -> (forall k, ~ In (gen_uuid ev2 k) (map dl_id (deliverables d))) ->
  let d1 := cafter (FundMilestone (m_ID m) (c_ClientID c)) ev1 d n1 in
  let d2 := cafter (SubmitMilestone (m_ID m) (c_FreelancerID c) note keys) ev2 d1 n2 in
  let d3 := cafter (ApproveMilestone (m_ID m) (c_ClientID c)) ev3 d2 n3 in
  fst (FundMilestone (m_ID m) (c_ClientID c) ev1 (rest d n1)) = Ok tt /\
  fst (SubmitMilestone (m_ID m) (c_FreelancerID c) note keys ev2 (rest d1 n2)) = Ok tt /\
  fst (ApproveMilestone (m_ID m) (c_ClientID c) ev3 (rest d2 n3)) = Ok tt /\
  approvals (m_ID m) (contract_outbox d3) = 1 /\
  exists t1 t2 t3, In (approved t3 (submitted t2 (funded t1 m))) (milestones d3).
Proof.
  intros Hd C1 C2 C3 Hm St Hc Hcid Hkeys Hfresh d1 d2 d3.
  assert (contract_reachable net baseURL d1) as Hd1 by exact (creach_op _ _ d (OpFund _ _) ev1 n1 Hd).
  assert (contract_reachable net baseURL d2) as Hd2 by exact (creach_op _ _ d1 (OpSubmit _ _ note keys) ev2 n2 Hd1).
  assert (contract_reachable net baseURL d3) as Hd3 by exact (creach_op _ _ d2 (OpApprove _ _) ev3 n3 Hd2).
  pose proof (creachable_inv _ _ d Hd) as HI. pose proof (creachable_inv _ _ d3 Hd3) as HI3.
  assert (find_milestone (m_ID m) d = Some m) as HF by (apply keyed_find; [apply (cinv_milestones d HI)|done]).
  assert (find_contract (m_ContractID m) d = Some c) as HC.
  { rewrite <- Hcid. apply keyed_find; [apply (tl_ids _ _ (cinv_timeline d HI))|done]. }
  destruct (fund_runs d m c ev1 n1 C1 HF St HC) as (t1 & R1 & E1). fold d1 in E1.
  assert (find_milestone (m_ID m) d1 = Some (funded t1 m)) as HF1 by (rewrite E1, set_milestone_find, HF; done).
  assert (find_contract (m_ContractID m) d1 = Some c) as HC1 by by rewrite E1.
  assert (deliverables d1 = deliverables d) as Hdl by by rewrite E1.
  rewrite <- Hdl in Hfresh.
  destruct (submit_runs d1 (funded t1 m) c note keys ev2 n2 C2 HF1 eq_refl HC1
    Hkeys Hfresh) as (t2 & dl & R2 & E2). cbn [funded m_ID] in R2, E2. fold d2 in E2.
  assert (find_milestone (m_ID m) d2 = Some (submitted t2 (funded t1 m))) as HF2.
  { rewrite E2. change (find_milestone (m_ID m) (set_milestone (m_ID m) (submitted t2) d1) =
      Some (submitted t2 (funded t1 m))). by rewrite set_milestone_find, HF1. }
  assert (find_contract (m_ContractID m) d2 = Some c) as HC2 by by rewrite E2.
  destruct (approve_runs d2 (submitted t2 (funded t1 m)) c ev3 n3 C3 HF2 eq_refl HC2)
    as (t3 & R3 & Hin). cbn [funded submitted m_ID] in R3, Hin. fold d3 in Hin.
  split; [done|]. split; [done|]. split; [done|]. split; [|by exists t1, t2, t3].
  rewrite (cinv_approvals d3 HI3 (m_ID m)).
  change (m_ID m) with (m_ID (approved t3 (submitted t2 (funded t1 m)))).
  rewrite (at_key_In m_ID); [done|apply (cinv_milestones d3 HI3)|done].
Qed.
End Theorems.

(** ** Behaviours worth knowing *)

(** A note without a list of files cannot be submitted: the missing list is sent
    as NULL to a NOT NULL column. *)
Lemma note_needs_files mid caller note ev d n d' r :
  note <> "" ->
  SubmitMilestone mid caller note None ev (rest d n) = (r, d') -> r <> Ok tt /\ committed d' = d.
Proof.
  intros Hnote E. pose proof (submit_meets ev d n mid caller note None) as HO.
  unfold wp in HO. rewrite E in HO. destruct HO as [_ HO].
  assert (forall s a d1, submit_spec mid caller note None d s <> inl (a, d1)) as Hno.
  { intros s a d1 H. unfold submit_spec in H. destruct (move_spec _ _ _ _ _ _ _) as [[[m c] d2]|]; [|done].
    by rewrite (proj2 (String.eqb_neq note "") Hnote) in H. }
  cbn in HO. inversion HO as [s a d1 _ H|s e _ H|s a d1 _ _ H|_]; subst; try done; by apply Hno in H.
Qed.

(** Whoever names a contract awaiting funding activates it. *)
Lemma activate_needs_no_party id actor actor' d s d' :
  activate_spec id actor d s = inl (tt, d') -> exists d'', activate_spec id actor' d s = inl (tt, d'').
Proof. unfold activate_spec. repeat case_match; try done. eauto. Qed.

(** Milestones of positive amounts whose int64 sum wraps to a bid of 100. *)
Example milestones_wrap :
  let a := 2 ^ 62 in
  sum64 [a; a; a; a; 100] = 100.
Proof. reflexivity. Qed.

(** A dispute may name as opponent somebody outside the contract. *)
Lemma dispute_against_anybody cid by_ against mid reason amount d s id d' :
  dispute_spec cid by_ against mid reason amount d s = inl (id, d') ->
  forall other, exists d'', dispute_spec cid by_ other mid reason amount d s = inl (id, d'').
Proof.
  unfold dispute_spec. repeat case_match; try done. intros [= <- _] other. eauto.
Qed.

(** ** Concrete databases, for the witnesses *)

Definition demo_proposals : Http.transport := fun _ url =>
  if String.eqb url (ProposalLookup.proposal_url "http://proposal" "p1") then
    Some (200, Some (JObj [("proposal_id", JStr "p1"); ("project_id", JStr "j1");
      ("project_client_id", JStr "alice"); ("freelancer_id", JStr "bob"); ("status", JStr "accepted");
      ("bid_amount_cents", JInt 500); ("currency", JStr "EUR")]))
  else None.

Definition demo_input : CreateInput :=
  mkCreateInput "x" "p1" "alice" "mallory" "fixed" "USD" (Some 1) None None 0
    [mkMilestoneInput 1 "design" None 200 None; mkMilestoneInput 2 "build" None 300 None].

Definition demo_proposal : ProposalLookup.Proposal :=
  ProposalLookup.mkProposal "p1" "j1" "alice" "bob" "accepted" 500 "EUR".

Fixpoint run_cops (l : list (contract_op * env * nat)) (d : contract_db) : contract_db :=
  match l with
  | [] => d
  | (op, ev, n) :: l' => run_cops l' (cafter (run_cop demo_proposals "http://proposal" op) ev d n)
  end.

Lemma run_cops_reachable l d :
  contract_reachable demo_proposals "http://proposal" d ->
  contract_reachable demo_proposals "http://proposal" (run_cops l d).
Proof. revert d. induction l as [|[[op ev] n] l IH]; intros d Hd; cbn; [done|]. apply IH. by constructor. Qed.

Definition signed_ops : list (contract_op * env * nat) := [(OpCreate demo_input, quiet_env, 0%nat)].

(** A contract just created, with two milestones. *)
Definition signed_db : contract_db := Eval vm_compute in run_cops signed_ops empty_contract_db.

Definition signed_contract : Contract :=
  Eval vm_compute in hd (new_contract "" "" (contract_of "" demo_input)) (contracts signed_db).

Definition signed_milestone : Milestone :=
  Eval vm_compute in hd (new_milestone "" "" (mkMilestoneInput 0 "" None 0 None)) (milestones signed_db).

Lemma signed_reachable : contract_reachable demo_proposals "http://proposal" signed_db.
Proof.
  change signed_db with (run_cops signed_ops empty_contract_db). apply run_cops_reachable. constructor.
Qed.

(** The same, its first milestone approved and the contract in dispute. *)
Definition disputed_ops : list (contract_op * env * nat) :=
  [(OpActivate (c_ID signed_contract) "alice", quiet_env, 10%nat);
   (OpFund (m_ID signed_milestone) "alice", quiet_env, 20%nat);
   (OpSubmit (m_ID signed_milestone) "bob" "done" (Some ["s3://k"]), quiet_env, 30%nat);
   (OpApprove (m_ID signed_milestone) "alice", quiet_env, 40%nat);
   (OpDispute (c_ID signed_contract) "bob" "alice" None "late" None, quiet_env, 50%nat)].

Definition disputed_db : contract_db := Eval vm_compute in run_cops disputed_ops signed_db.

Definition disputed_contract : Contract :=
  Eval vm_compute in hd signed_contract (contracts disputed_db).

Definition approved_milestone : Milestone :=
  Eval vm_compute in hd signed_milestone (milestones disputed_db).

Lemma disputed_reachable : contract_reachable demo_proposals "http://proposal" disputed_db.
Proof.
  change disputed_db with (run_cops disputed_ops signed_db). apply run_cops_reachable, signed_reachable.
Qed.

Example disputed_is_disputed : c_Status disputed_contract = "disputed" /\ m_Status approved_milestone = "approved".
Proof. split; reflexivity. Qed.

Lemma body_cannot_fabricate_witness :
  deriveContractTerms demo_input demo_proposal =
  deriveContractTerms (mkCreateInput "j1" "p1" "alice" "bob" "fixed" "EUR" None (Some 9) None 1000
    (in_Milestones demo_input)) demo_proposal.
Proof. apply (body_cannot_fabricate demo_input); try reflexivity; try discriminate. by left. Defined.

Lemma contract_ops_meet_spec_witness :
  wp (FundMilestone (m_ID signed_milestone) "alice") quiet_env (rest signed_db 7)
    (ended (settles quiet_env signed_db (fund_spec (m_ID signed_milestone) "alice" signed_db))).
Proof.
  exact (proj1 (proj2 (proj2 (contract_ops_meet_spec demo_proposals "http://proposal" signed_db quiet_env 7
    signed_reachable))) (m_ID signed_milestone) "alice").
Defined.

Lemma contract_status_replays_witness :
  replay None (timeline_of (c_ID disputed_contract) disputed_db) = Some (Some "disputed").
Proof.
  exact (proj1 (contract_status_replays demo_proposals "http://proposal" disputed_db disputed_contract
    disputed_reachable (or_introl eq_refl))).
Defined.

Lemma milestone_moves_witness :
  exists m', In m' (milestones (cafter (run_cop demo_proposals "http://proposal"
      (OpFund (m_ID signed_milestone) "alice")) quiet_env signed_db 3)) /\ m_ID m' = m_ID signed_milestone.
Proof.
  destruct (milestone_moves demo_proposals "http://proposal" (OpFund (m_ID signed_milestone) "alice") signed_db
    quiet_env 3 signed_milestone signed_reachable (or_introl eq_refl)) as (m' & H1 & H2 & _).
  exists m'. split; [exact H1|exact H2].
Defined.

Lemma approval_published_once_witness :
  approvals (m_ID approved_milestone) (contract_outbox disputed_db) = 1.
Proof.
  exact (proj1 (approval_published_once demo_proposals "http://proposal" disputed_db approved_milestone
    disputed_reachable (or_introl eq_refl))).
Defined.

Lemma contract_worth_its_milestones_witness :
  c_TotalAmountCents signed_contract = Some 500.
Proof.
  destruct (contract_worth_its_milestones demo_proposals "http://proposal" signed_db signed_contract
    signed_reachable (or_introl eq_refl)) as (_ & _ & _ & H & _).
  exact (proj1 (proj2 (H eq_refl))).
Defined.

Lemma milestone_lifecycle_witness :
  fst (FundMilestone (m_ID signed_milestone) "alice" quiet_env (rest signed_db 3)) = Ok tt.
Proof.
  refine (proj1 (milestone_lifecycle demo_proposals "http://proposal" signed_db signed_milestone signed_contract
    (Some ["s3://k"]) "done" quiet_env quiet_env quiet_env 3 9 20 signed_reachable quiet_calm quiet_calm quiet_calm
    (or_introl eq_refl) eq_refl (or_introl eq_refl) eq_refl _ _)).
  - intros [_ H]. discriminate.
  - intros k H. exact H.
Defined.

(** * The contract service and its relay

    The contract tables keep to the interface of the relay
    ([contract_OutboxClient]), so what the relay guarantees holds of the calls of
    the contract service and the drains of its outbox, in any order and under
    any faults. *)
Lemma contract_inv_marked d t ids :
  contract_inv d -> contract_inv (put outbox (mark_all t ids (rows outbox d)) d).
Proof.
  intros [Ht Hk Ho Hst Hsq Hte Ha Hap].
  constructor; cbn [put outbox contract_HasOutbox contracts contract_events milestones hourly_contracts
    contract_outbox rows]; auto.
  - intros mid. unfold approvals. rewrite countZ_marked; [apply Ha|done].
  - intros r (r0 & <- & Hr)%in_map_iff. case_match; auto. intros He. exact (Hap r0 Hr He).
Qed.

(** ** The interface *)

#[export] Instance contract_outbox_lawful : LawfulTable (outbox (D := contract_db)).
Proof. by constructor; [| |intros []]. Qed.

Lemma move_spec_outbox from f who mid caller d s m c d' :
  move_spec from f who mid caller d s = inl (m, c, d') -> contract_outbox d' = contract_outbox d.
Proof. by intros (_ & _ & _ & _ & ->)%move_spec_ok. Qed.

Lemma cop_effect_outbox net baseURL op d d' :
  cop_effect net baseURL op d d' ->
  contract_outbox d' = contract_outbox d \/ exists t e, contract_outbox d' = enqueued t e (contract_outbox d).
Proof.
  intros HE. destruct HE as [|i p i' s c d d' _ _ H|id actor s d d' H|mid caller s d d' H
    |mid caller note keys s d d' H|mid caller s d d' H|cid by_ against mid reason amount s id d d' H].
  - by left.
  - left. unfold create_spec in H. destruct (create_problem i' d (ids s)); [done|]. by injection H as <- <-.
  - right. unfold activate_spec in H. destruct (find_contract id d); [|done].
    destruct (in_status _ _); [|done]. injection H as <-. eexists _, _. reflexivity.
  - left. unfold fund_spec in H. destruct (move_spec _ _ _ _ _ _ _) as [[[m c] d1]|] eqn:M; [|done].
    injection H as <-. by eapply move_spec_outbox.
  - left. unfold submit_spec in H. destruct (move_spec _ _ _ _ _ _ _) as [[[m c] d1]|] eqn:M; [|done].
    apply move_spec_outbox in M. destruct (_ || _); [|by injection H as <-].
    destruct keys; [|done]. destruct (existsb _ _); [done|]. by injection H as <-.
  - right. unfold approve_spec in H. destruct (move_spec _ _ _ _ _ _ _) as [[[m c] d1]|] eqn:M; [|done].
    apply move_spec_outbox in M. injection H as <-. cbn [publish put contract_HasOutbox contract_outbox].
    rewrite M. eauto.
  - right. unfold dispute_spec in H. destruct (find_contract cid d); [|done].
    destruct (negb _); [done|]. destruct (dispute_problem _ _ _); [done|]. injection H as _ <-.
    eexists _, _. reflexivity.
Qed.

Section Client.
Context (net : Http.transport) (baseURL : string).

(** A step of the service is a call, under whatever faults. *)
Definition contract_step (d d' : contract_db) : Prop :=
  exists op ev n, d' = cafter (run_cop net baseURL op) ev d n.

Lemma contract_step_effect d d' :
  contract_inv d -> contract_step d d' -> exists op, cop_effect net baseURL op d d'.
Proof. intros HI (op & ev & n & ->). exists op. exact (cop_meets net baseURL op ev d n HI). Qed.

#[refine] Instance contract_OutboxClient : OutboxClient contract_db := {
  client_start := empty_contract_db;
  client_step := contract_step;
  client_inv := contract_inv
}.
Proof.
  - apply empty_contract_inv.
  - done.
  - intros d d' HI Hst. destruct (contract_step_effect d d' HI Hst) as [op HE]. by eapply cop_effect_inv.
  - intros d t ids. apply contract_inv_marked.
  - intros d d' HI Hst. destruct (contract_step_effect d d' HI Hst) as [op HE]. by eapply cop_effect_outbox.
  - done.
Defined.

(** The service and its relay, named [source] and draining [batch] rows. *)
Definition contract_system (source : string) (batch : nat) : contract_db * list Message -> Prop :=
  relay_reachable source batch.

(** The milestone.approved message of a milestone and its contract. *)
Definition approval_message (m : Milestone) (c : Contract) (msg : Message) : Prop :=
  msg_topic msg = "contract.events" /\ msg_key msg = c_ID c /\
  msg_payload msg =
    Payload (milestone_approved_event (m_ID m) (c_ID c) (m_AmountCents m) (c_FreelancerID c)) /\
  get_header "event-type" (msg_headers msg) = Some "milestone.approved".

(** Every approved milestone is announced. From any state that calls of the
    contract service and drains of its outbox can reach, once the relay has
    drained undisturbed for as many batches as the backlog needs, the bus holds,
    for each milestone approved by then, a milestone.approved message on the
    contract's topic and partition, with the milestone's amount and the
    contract's freelancer. *)
Theorem approved_milestones_reach_the_bus source batch d b evs m :
  contract_system source batch (d, b) -> In m (milestones d) -> m_Status m = "approved" ->
  Forall (fun en => calm (fst en)) evs ->
  (List.length (backlog d) <= List.length evs * batch)%nat ->
  exists c msg, In c (contracts d) /\ c_ID c = m_ContractID m /\
    In msg (snd (drains source batch evs (d, b))) /\ approval_message m c msg.
Proof.
  intros HR Hm St HC HL. destruct (relay_reachable_inv _ _ _ HR) as [HI _]. cbn [fst] in HI.
  assert (0 < approvals (m_ID m) (contract_outbox d)) as Hpos.
  { rewrite (cinv_approvals d HI), (at_key_In m_ID); [|apply (cinv_milestones d HI)|done].
    unfold is_approved. rewrite St. done. }
  apply countZ_pos in Hpos as (r & Hr & Happ). unfold approves in Happ.
  apply andb_true_iff in Happ as [He%String.eqb_eq Hp].
  destruct (cinv_approval d HI r Hr He) as (m' & c & Hm' & Hc & Hown & Hpay & Htop & Hkey).
  rewrite Hpay in Hp. apply String.eqb_eq in Hp.
  assert (m' = m) as -> by (by eapply (keyed_inj m_ID); [apply (cinv_milestones d HI)| | |]).
  exists c, (message source r). split; [done|]. split; [done|].
  split; [by apply relay_drains|]. unfold approval_message, message. cbn [msg_topic msg_key msg_payload msg_headers].
  by rewrite get_set_header, He.
Qed.
End Client.

(** ** Witnesses *)

Lemma contract_system_calls net baseURL source batch d :
  contract_reachable net baseURL d -> contract_system net baseURL source batch (d, []).
Proof.
  induction 1 as [|d op ev n Hd IH].
  { apply (relay_start (OutboxClient0 := contract_OutboxClient net baseURL)). }
  eapply relay_client; [exact IH|]. exists op, ev, n. reflexivity.
Qed.

(** The bus breaks down on the second message, which it kept all the same. *)
Definition shaky_env : env :=
  Env (fun n => Nat.eqb n 64) (fun _ => true) Z.of_nat (fun n => ("id-" ++ marks n)%string)
    (fun _ => Some Z.of_nat).

Definition shaken : contract_db * list Message :=
  Eval vm_compute in after_drain "contract" 10 shaky_env (disputed_db, []) 60.

Definition relayed : contract_db * list Message :=
  Eval vm_compute in after_drain "contract" 10 quiet_env shaken 80.

Lemma shaken_reachable : contract_system demo_proposals "http://proposal" "contract" 10 shaken.
Proof.
  change shaken with (after_drain "contract" 10 shaky_env (disputed_db, []) 60).
  apply (relay_drain (OutboxClient0 := contract_OutboxClient demo_proposals "http://proposal")).
  apply contract_system_calls, disputed_reachable.
Qed.

Lemma relayed_reachable : contract_system demo_proposals "http://proposal" "contract" 10 relayed.
Proof.
  change relayed with (after_drain "contract" 10 quiet_env shaken 80).
  apply (relay_drain (OutboxClient0 := contract_OutboxClient demo_proposals "http://proposal")).
  exact shaken_reachable.
Qed.

(** The retry delivers the first two messages again, under the same ids. *)
Example redelivered :
  map (fun m => get_header "event-id" (msg_headers m)) (snd relayed) =
  [Some "contract:1"; Some "contract:2"; Some "contract:1"; Some "contract:2"; Some "contract:3"].
Proof. reflexivity. Qed.

Definition last_row (s : contract_db * list Message) : OutboxRow :=
  List.last (rows outbox (fst s)) (mkOutbox 0 "" "" "" "" "" (JObj []) None 0 None).

Lemma relay_delivers_in_order_witness : In (message "contract" (last_row relayed)) (snd relayed).
Proof.
  apply (relay_delivers_in_order (OutboxClient0 := contract_OutboxClient demo_proposals "http://proposal")
    "contract" 10 (fst relayed) (snd relayed) relayed_reachable).
  - right. right. left. reflexivity.
  - discriminate.
Defined.

Lemma relay_drains_witness :
  In (message "contract" (last_row shaken)) (snd (drains "contract" 10 [(quiet_env, 80%nat)] shaken)).
Proof.
  refine (relay_drains (OutboxClient0 := contract_OutboxClient demo_proposals "http://proposal")
    "contract" 10 [(quiet_env, 80%nat)] (fst shaken) (snd shaken) shaken_reachable _ _ _ _).
  - constructor; [exact quiet_calm|constructor].
  - vm_compute. lia.
  - right. right. left. reflexivity.
Defined.

Lemma approved_milestones_reach_the_bus_witness :
  exists c msg, In c (contracts (fst shaken)) /\ c_ID c = m_ContractID approved_milestone /\
    In msg (snd (drains "contract" 10 [(quiet_env, 80%nat)] shaken)) /\ approval_message approved_milestone c msg.
Proof.
  refine (approved_milestones_reach_the_bus demo_proposals "http://proposal" "contract" 10
    (fst shaken) (snd shaken) [(quiet_env, 80%nat)] approved_milestone shaken_reachable _ eq_refl _ _).
  - left. reflexivity.
  - constructor; [exact quiet_calm|constructor].
  - vm_compute. lia.
Defined.
