(* ===== verification/ContractHttp.v ===== *)
(** * Contract REST transport (services/contract/internal/httpapi) *)
From S2P Require Export ContractProofs Strings Gateway.
From S2P Require ContractParties.

Definition mapError (e : err contract_err) : response :=
  match e with
  | Dom ErrInvalidParties => writeErr 400 "INVALID_PARTIES" "client and freelancer must differ"
  | Dom ErrNoMilestones =>
      writeErr 400 "NO_MILESTONES" "fixed-price contract requires at least one milestone"
  | Dom ErrProposalRequired => writeErr 400 "PROPOSAL_REQUIRED" "proposal_id is required"
  | Dom ErrProposalMismatch =>
      writeErr 400 "PROPOSAL_MISMATCH" "contract terms must match the accepted proposal"
  | Dom ErrProposalNotSelected =>
      writeErr 409 "PROPOSAL_NOT_SELECTED" "proposal is not in a contractable state"
  | Dom ErrInvalidState =>
      writeErr 409 "INVALID_STATE" "contract is not in a valid state for this operation"
  | Dom ErrInvalidMilestoneState =>
      writeErr 409 "INVALID_MILESTONE_STATE" "milestone is not in a valid state for this operation"
  | Dom ErrNotFound => writeErr 404 "NOT_FOUND" "resource not found"
  | Dom ErrForbidden => writeErr 403 "FORBIDDEN" "not permitted"
  | Db _ => writeErr 500 "INTERNAL" "something went wrong"
  end.

(** ** Request bodies *)

Record milestoneReq := mkMilestoneReq {
  mr_Seq : Z;
  mr_Title : string;
  mr_Description : option string;
  mr_AmountCents : Z;
  mr_DueAt : option string
}.

Definition decode_milestone (j : json) : option milestoneReq :=
  match j with
  | JObj o =>
      match int_field "seq" o, str_field "title" o, field (into_opt as_string) None "description" o,
            int_field "amount_cents" o, field (into_opt as_string) None "due_at" o with
      | Some s, Some t, Some d, Some a, Some due => Some (mkMilestoneReq s t d a due)
      | _, _, _, _, _ => None
      end
  | _ => None
  end.

Record createReq := mkCreateReq {
  cr_ProjectID : string;
  cr_ProposalID : string;
  cr_ClientID : string;
  cr_FreelancerID : string;
  cr_BudgetType : string;
  cr_Currency : string;
  cr_TotalAmountCents : option Z;
  cr_HourlyRateCents : option Z;
  cr_WeeklyHourLimit : option Z;
  cr_PlatformFeeBps : Z;
  cr_Milestones : list milestoneReq
}.

Definition decode_createReq (o : list (string * json)) : option createReq :=
  match str_field "project_id" o, str_field "proposal_id" o, str_field "client_id" o,
        str_field "freelancer_id" o, str_field "budget_type" o, str_field "currency" o with
  | Some pj, Some pp, Some cl, Some fr, Some bt, Some cur =>
      match field (into_opt as_int64) None "total_amount_cents" o,
            field (into_opt as_int64) None "hourly_rate_cents" o,
            field (into_opt as_int64) None "weekly_hour_limit" o, int_field "platform_fee_bps" o,
            field (into_slice (mkMilestoneReq 0 "" None 0 None) decode_milestone) None "milestones" o with
      | Some ta, Some hr, Some wh, Some fee, Some ms =>
          Some (mkCreateReq pj pp cl fr bt cur ta hr wh fee (default [] ms))
      | _, _, _, _, _ => None
      end
  | _, _, _, _, _, _ => None
  end.

(** submitMilestoneReq: note, s3_keys *)
Definition decode_submitReq (o : list (string * json)) : option (string * option (list string)) :=
  match str_field "note" o, field (into_slice "" as_string) None "s3_keys" o with
  | Some n, Some k => Some (n, k)
  | _, _ => None
  end.

Record disputeReq := mkDisputeReq {
  dr_Against : string;
  dr_MilestoneID : option string;
  dr_Reason : string;
  dr_AmountCents : option Z
}.

Definition decode_disputeReq (o : list (string * json)) : option disputeReq :=
  match str_field "against" o, field (into_opt as_string) None "milestone_id" o, str_field "reason" o,
        field (into_opt as_int64) None "amount_cents" o with
  | Some a, Some m, Some r, Some c => Some (mkDisputeReq a m r c)
  | _, _, _, _ => None
  end.

(** parseTimePtr: None is an error. *)
Definition parseTimePtr (s : option string) : option (option Z) :=
  match s with
  | None => Some None
  | Some s => if String.eqb s "" then Some None else option_map Some (parse_rfc3339 s)
  end.

Definition milestone_input (m : milestoneReq) : option MilestoneInput :=
  option_map (mkMilestoneInput (mr_Seq m) (mr_Title m) (mr_Description m) (mr_AmountCents m))
    (parseTimePtr (mr_DueAt m)).

Definition create_input (req : createReq) (ms : list MilestoneInput) : CreateInput :=
  mkCreateInput (cr_ProjectID req) (cr_ProposalID req) (cr_ClientID req) (cr_FreelancerID req)
    (cr_BudgetType req) (cr_Currency req) (cr_TotalAmountCents req) (cr_HourlyRateCents req)
    (cr_WeeklyHourLimit req) (cr_PlatformFeeBps req) ms.

(** ** Responses *)

(** Times are written in RFC 3339. *)
Definition timePtrJSON (t : option Z) : json := jopt JTime t.

Definition contract_fields (c : Contract) : list (string * json) :=
  [("id", JStr (c_ID c)); ("project_id", JStr (c_ProjectID c)); ("proposal_id", JStr (c_ProposalID c));
   ("client_id", JStr (c_ClientID c)); ("freelancer_id", JStr (c_FreelancerID c));
   ("budget_type", JStr (c_BudgetType c)); ("currency", JStr (c_Currency c));
   ("total_amount_cents", jopt JInt (c_TotalAmountCents c));
   ("hourly_rate_cents", jopt JInt (c_HourlyRateCents c));
   ("weekly_hour_limit", jopt JInt (c_WeeklyHourLimit c)); ("status", JStr (c_Status c));
   ("platform_fee_bps", JInt (c_PlatformFeeBps c)); ("started_at", timePtrJSON (c_StartedAt c));
   ("ended_at", timePtrJSON (c_EndedAt c)); ("end_reason", jopt JStr (c_EndReason c))].

Definition contractJSON (c : Contract) : json := JObj (contract_fields c).

Definition milestoneJSON (m : Milestone) : json :=
  JObj [("id", JStr (m_ID m)); ("contract_id", JStr (m_ContractID m)); ("seq", JInt (m_Seq m));
        ("title", JStr (m_Title m)); ("description", jopt JStr (m_Description m));
        ("amount_cents", JInt (m_AmountCents m)); ("status", JStr (m_Status m));
        ("due_at", timePtrJSON (m_DueAt m)); ("funded_at", timePtrJSON (m_FundedAt m));
        ("submitted_at", timePtrJSON (m_SubmittedAt m)); ("approved_at", timePtrJSON (m_ApprovedAt m));
        ("released_at", timePtrJSON (m_ReleasedAt m))].

Definition contractEventJSON (e : ContractEvent) : json :=
  JObj [("from_status", jopt JStr (ce_FromStatus e)); ("to_status", JStr (ce_ToStatus e));
        ("event", JStr (ce_Event e)); ("actor_id", jopt JStr (ce_ActorID e));
        ("payload", ce_Payload e); ("created_at", JTime (ce_CreatedAt e))].

(** ** Handlers *)

Section Api.
Context (net : transport) (baseURL : string).

Definition internalParties (r : request) : cprog response :=
  let id := urlParam r "id" in
  p <-? or_mapped mapError (ContractService.ContractParties id) ;;
  let '(clientID, freelancerID, st) := p in
  ret (writeJSON 200 (JObj [("contract_id", JStr id); ("client_id", JStr clientID);
                            ("freelancer_id", JStr freelancerID); ("status", JStr st)])).

Definition create (r : request) : cprog response :=
  uid <-? authenticated r ;;
  req <-? decode decode_createReq r ;;
  if negb (String.eqb (cr_BudgetType req) "fixed") && negb (String.eqb (cr_BudgetType req) "hourly")
  then ret (writeErr 400 "VALIDATION_FAILED" "budget_type must be fixed or hourly") else
  if negb (String.eqb (cr_ClientID req) uid)
  then ret (writeErr 403 "FORBIDDEN" "client_id must be the authenticated caller") else
  match mapM milestone_input (cr_Milestones req) with
  | None => ret (writeErr 400 "VALIDATION_FAILED" "due_at must be RFC3339")
  | Some ms =>
      c <-? or_mapped mapError (CreateFromProposal net baseURL (create_input req ms)) ;;
      ret (writeJSON 201 (contractJSON c))
  end.

Definition get (r : request) : cprog response :=
  uid <-? authenticated r ;;
  view <-? or_mapped mapError (GetContract (urlParam r "id") uid) ;;
  ret (writeJSON 200 (JObj (contract_fields (v_Contract view) ++
    [("milestones", JList (map milestoneJSON (v_Milestones view)))]))).

Definition events (r : request) : cprog response :=
  uid <-? authenticated r ;;
  evs <-? or_mapped mapError (ContractEvents (urlParam r "id") uid) ;;
  ret (writeJSON 200 (JObj [("events", JList (map contractEventJSON evs))])).

Definition listContracts (r : request) : cprog response :=
  uid <-? authenticated r ;;
  cs <-? or_mapped mapError (ListContractsForUser uid (query r "role")) ;;
  ret (writeJSON 200 (JObj [("contracts", JList (map contractJSON cs))])).

Definition activate (r : request) : cprog response :=
  uid <-? authenticated r ;;
  _ <-? or_mapped mapError (ActivateContract (urlParam r "id") uid) ;;
  ret (writeJSON 200 success).

Definition fundMilestone (r : request) : cprog response :=
  uid <-? authenticated r ;;
  _ <-? or_mapped mapError (FundMilestone (urlParam r "mid") uid) ;;
  ret (writeJSON 200 success).

Definition submitMilestone (r : request) : cprog response :=
  uid <-? authenticated r ;;
  req <-? (if contentLength r =? 0 then go_on ("", None) else decode decode_submitReq r) ;;
  _ <-? or_mapped mapError (SubmitMilestone (urlParam r "mid") uid (fst req) (snd req)) ;;
  ret (writeJSON 200 success).

Definition approveMilestone (r : request) : cprog response :=
  uid <-? authenticated r ;;
  _ <-? or_mapped mapError (ApproveMilestone (urlParam r "mid") uid) ;;
  ret (writeJSON 200 success).

Definition raiseDispute (r : request) : cprog response :=
  uid <-? authenticated r ;;
  req <-? decode decode_disputeReq r ;;
  if String.eqb (dr_Against req) "" || String.eqb (dr_Reason req) ""
  then ret (writeErr 400 "VALIDATION_FAILED" "against and reason are required") else
  id <-? or_mapped mapError (RaiseDispute (urlParam r "id") uid (dr_Against req) (dr_MilestoneID req)
                               (dr_Reason req) (dr_AmountCents req)) ;;
  ret (writeJSON 201 (JObj [("dispute_id", JStr id)])).

(** The routes that write (API.Routes). *)
Inductive contract_route := RCreate | RActivate | RDispute | RFund | RSubmit | RApprove.

Definition serve (m : contract_route) : request -> cprog response :=
  match m with
  | RCreate => create
  | RActivate => activate
  | RDispute => raiseDispute
  | RFund => fundMilestone
  | RSubmit => submitMilestone
  | RApprove => approveMilestone
  end.
End Api.

(** ** Rules *)

Lemma wp_GetContract id ev d t n (Q : res contract_err Contract -> world contract_db -> Prop) :
  (~ calm ev -> Q (Err (Db Driver)) (World d t (S n))) ->
  (find_contract id d = None -> Q (Err (Dom ErrNotFound)) (World d t (S n))) ->
  (forall c, find_contract id d = Some c -> Q (Ok c) (World d t (S n))) ->
  wp (ContractStore.GetContract id) ev (World d t n) Q.
Proof.
  intros Hf Hn Hs. unfold ContractStore.GetContract. apply wp_bind.
  apply (wp_pool_read _ (find_contract id d)); [done|by apply Hf|].
  unfold find_contract in *. destruct (List.find _ (contracts d)); cbn; [by apply Hs|by apply Hn].
Qed.

(** requireParty lets only the parties through. *)
Lemma wp_contract_party id uid ev d t n (Q : res contract_err Contract -> world contract_db -> Prop) :
  (forall e, Q (Err e) (World d t (S n))) ->
  (forall c, find_contract id d = Some c -> uid = c_ClientID c \/ uid = c_FreelancerID c ->
     Q (Ok c) (World d t (S n))) ->
  wp (requireParty id uid) ev (World d t n) Q.
Proof.
  intros Hf Hs. unfold requireParty. apply wp_bind. apply wp_GetContract; [auto..|].
  intros c Hc. rewrite RequireOneOf_two. apply wp_bind.
  destruct (String.eqb_spec uid (c_ClientID c)); [apply wp_ret, wp_ret; auto|].
  destruct (String.eqb_spec uid (c_FreelancerID c)); [apply wp_ret, wp_ret; auto|].
  apply wp_throw, Hf.
Qed.

Ltac wp_hook ::=
  lazymatch goal with
  | |- wp (bind_ok _ _) _ _ _ => apply wp_bind_ok
  | |- wp (ListMilestones _) _ _ _ => apply (wp_listing milestones_t); [intros ?NC|]
  | |- wp (ListContractEvents _) _ _ _ => apply (wp_listing contract_events_t); [intros ?NC|]
  | |- wp (authenticated _) _ _ _ => apply wp_authenticated; [intros ?resp ?HR|intros ?HU]
  | |- wp (decode _ _) _ _ _ => apply wp_decode; [|intros ?o ?req ?HM ?HD]
  | |- wp (or_mapped _ _) _ _ _ => apply wp_or_mapped
  | |- wp (requireParty _ _) _ _ _ => apply wp_contract_party; [intros ?e|intros ?c ?FC ?PY]
  | |- _ => contract_rules
  end.

(** ** Theorems *)

Section Theorems.
Context (net : transport) (baseURL : string).

(** Who may make the change a route made, from [d] to [d'].  The activation
    entitles nobody: it asks for an identity and no more. *)
Definition authorized (m : contract_route) (r : request) (d d' : contract_db) : Prop :=
  let uid := header r "X-User-Id" in
  uid <> "" /\
  match m with
  | RCreate => exists pid p c, ProposalLookup.proposed net baseURL pid p /\
      ProposalLookup.ProjectClientID p = uid /\
      ProposalLookup.Status p <> "withdrawn" /\ ProposalLookup.Status p <> "declined" /\
      contracts d' = contracts d ++ [c] /\ c_ProposalID c = pid /\ c_ClientID c = uid /\
      c_FreelancerID c = ProposalLookup.FreelancerID p /\ c_ProjectID c = ProposalLookup.ProjectID p
  | RActivate => False
  | RDispute => exists c, find_contract (urlParam r "id") d = Some c /\
      (c_ClientID c = uid \/ c_FreelancerID c = uid)
  | RFund | RApprove => exists x c, find_milestone (urlParam r "mid") d = Some x /\
      find_contract (m_ContractID x) d = Some c /\ c_ClientID c = uid
  | RSubmit => exists x c, find_milestone (urlParam r "mid") d = Some x /\
      find_contract (m_ContractID x) d = Some c /\ c_FreelancerID c = uid
  end.

Lemma move_authorized from f who mid uid d s x c d1 :
  move_spec from f who mid uid d s = inl (x, c, d1) ->
  exists x c, find_milestone mid d = Some x /\ find_contract (m_ContractID x) d = Some c /\ who c = uid.
Proof. intros (HF & _ & HC & -> & _)%move_spec_ok. eauto. Qed.

(** The service call a route makes for a request. *)
Definition calls (m : contract_route) (r : request) (op : contract_op) : Prop :=
  match m, op with
  | RCreate, OpCreate i => in_ClientID i = header r "X-User-Id"
  | RActivate, OpActivate id _ => id = urlParam r "id"
  | RDispute, OpDispute cid by_ _ _ _ _ => cid = urlParam r "id" /\ by_ = header r "X-User-Id"
  | RFund, OpFund mid caller | RApprove, OpApprove mid caller | RSubmit, OpSubmit mid caller _ _ =>
      mid = urlParam r "mid" /\ caller = header r "X-User-Id"
  | _, _ => False
  end.

(** The change each service call but the activation makes is authorized. *)
Lemma effect_authorized m r d d' op :
  m <> RActivate -> header r "X-User-Id" <> "" -> cop_effect net baseURL op d d' ->
  calls m r op -> d' = d \/ authorized m r d d'.
Proof.
  intros Hm Hu HE HM. destruct HE as [|i p i' s c d d' Hp DT CS|id actor s d d' H|mid caller s d d' H
    |mid caller note keys s d d' H|mid caller s d d' H|cid by_ against mid reason amount s id d d' H].
  1: by left.
  all: right; split; [done|]; destruct m; cbn [calls] in HM; try done.
  - apply derive_accepts_iff in DT as [(_ & E & Hw & Hd & _ & _ & _) ->].
    unfold create_spec in CS. destruct (create_problem _ _ _); [done|]. injection CS as <- <-.
    eexists _, p, _. split; [exact Hp|]. split; [congruence|]. split; [done|]. split; [done|].
    split; [reflexivity|]. by repeat split.
  - destruct HM as [-> ->]. unfold fund_spec in H. destruct (move_spec _ _ _ _ _ _ _) as [[[x c] d1]|] eqn:M;
      [|done]. exact (move_authorized _ _ _ _ _ _ _ _ _ _ M).
  - destruct HM as [-> ->]. unfold submit_spec in H. destruct (move_spec _ _ _ _ _ _ _) as [[[x c] d1]|] eqn:M;
      [|done]. exact (move_authorized _ _ _ _ _ _ _ _ _ _ M).
  - destruct HM as [-> ->]. unfold approve_spec in H. destruct (move_spec _ _ _ _ _ _ _) as [[[x c] d1]|] eqn:M;
      [|done]. exact (move_authorized _ _ _ _ _ _ _ _ _ _ M).
  - destruct HM as [-> ->]. unfold dispute_spec in H. destruct (find_contract _ d) as [c|]; [|done].
    exists c. split; [done|]. destruct (String.eqb_spec (header r "X-User-Id") (c_ClientID c)); [auto|].
    destruct (String.eqb_spec (header r "X-User-Id") (c_FreelancerID c)); [auto|done].
Qed.

(** C10: On every writing route but the activation, contracts change only for
    those who may change them. If serving a request changed the tables, the
    request carried a user id and: a new contract is on a live proposal to a
    project of that user, as the proposal service answered, with the freelancer
    and project of the proposal; a milestone was funded or approved by the client
    and submitted by the freelancer of its contract; a dispute was raised by a
    party. The activation is left out because it lets any signed-in user activate
    a contract that awaits funding (activate_needs_no_party). *)
Theorem contract_changes_are_authorized m r ev d n :
  m <> RActivate -> contract_reachable net baseURL d ->
  cafter (serve net baseURL m r) ev d n <> d ->
  authorized m r d (cafter (serve net baseURL m r) ev d n).
Proof.
  intros Hm Hd Hne. pose proof (creachable_inv _ _ d Hd) as HI.
  set (Q := fun d' => d' = d \/ authorized m r d d').
  cut (wp (serve net baseURL m r) ev (rest d n) (fun _ w => Q (committed w))); [by intros [?|?]|].
  assert (forall op k, header r "X-User-Id" <> "" ->
    calls m r op -> wp (run_cop net baseURL op) ev (World d NoTx k) (fun _ w => Q (committed w))) as Hrun.
  { intros op k Hu HM. eapply wp_mono; [apply (cop_meets net baseURL op ev d k HI)|].
    intros x w HE. exact (effect_authorized m r d _ op Hm Hu HE HM). }
  unfold rest. destruct m; cbn [serve]; try done;
    unfold create, activate, raiseDispute, fundMilestone, submitMilestone, approveMilestone.
  all: repeat lazymatch goal with
  | |- wp (bind_ok (or_mapped _ _) _) _ _ _ => fail
  | |- _ => wp_step
  end; try (by left).
  all: try (apply wp_go_on).
  all: apply wp_service; [|intros a w P HP; by apply wp_ret].
  - apply wp_drop_answer, (Hrun (OpCreate (create_input req l))); [done|].
    apply negb_false_iff, String.eqb_eq in Heqb0. exact Heqb0.
  - by apply wp_drop_answer, (Hrun (OpDispute _ _ (dr_Against req) (dr_MilestoneID req) (dr_Reason req) (dr_AmountCents req))).
  - by apply (Hrun (OpFund _ _)).
  - by apply (Hrun (OpSubmit _ _ _ _)).
  - by apply (Hrun (OpSubmit _ _ _ _)).
  - by apply (Hrun (OpApprove _ _)).
Qed.

(** A contract is read only by its parties. The contract view and its
    timeline are answered 200 only when the contract exists and the user in the
    request is its client or its freelancer; reading changes nothing. *)
Theorem contract_reads_need_a_party r ev d n resp :
  (fst (get r ev (rest d n)) = Ok resp \/ fst (events r ev (rest d n)) = Ok resp) -> status resp = 200 ->
  exists c, find_contract (urlParam r "id") d = Some c /\
    (header r "X-User-Id" = c_ClientID c \/ header r "X-User-Id" = c_FreelancerID c) /\
    cafter (get r) ev d n = d /\ cafter (events r) ev d n = d.
Proof.
  set (P := exists c, find_contract (urlParam r "id") d = Some c /\
    (header r "X-User-Id" = c_ClientID c \/ header r "X-User-Id" = c_FreelancerID c)).
  assert (forall e, status (mapError e) <> 200) as Herr by by intros [?|[]].
  assert (forall m, m = get r \/ m = events r ->
    wp m ev (rest d n) (fun x w => committed w = d /\ (x = Ok resp -> status resp = 200 -> P))) as HW.
  { intros m [-> | ->]; unfold get, GetContract, events, ContractEvents, rest; wp_steps;
      cbn [committed]; (split; [done|]).
    all: try (intros [= <-] H200; rewrite H200 in HR; discriminate).
    all: try (intros [= <-] H200; by apply Herr in H200).
    all: intros _ _; by exists c. }
  destruct (HW (get r) (or_introl eq_refl)) as [Hg1 Hg2], (HW (events r) (or_intror eq_refl)) as [He1 He2].
  intros HO H200. assert P as (c & HF & HP) by (destruct HO; auto).
  exists c. auto.
Qed.
End Theorems.

(** The parties endpoint round-trips. When nothing fails, the answer of the
    contract service for a stored contract, read by the parties client of the
    escrow, review and timetracking services, is the contract's client,
    freelancer and status; for an unknown contract it reads as not found. *)
Theorem parties_roundtrip r ev d n :
  calm ev ->
  ContractParties.read_parties (answer_of (fst (internalParties r ev (rest d n)))) =
  match find_contract (urlParam r "id") d with
  | Some c => inl (ContractParties.mkParties (urlParam r "id") (c_ClientID c) (c_FreelancerID c) (c_Status c))
  | None => inr ContractParties.PartiesNotFound
  end.
Proof.
  intros Hc. cut (wp (internalParties r) ev (rest d n) (fun x _ =>
    ContractParties.read_parties (answer_of x) =
    match find_contract (urlParam r "id") d with
    | Some c => inl (ContractParties.mkParties (urlParam r "id") (c_ClientID c) (c_FreelancerID c) (c_Status c))
    | None => inr ContractParties.PartiesNotFound
    end)); [done|].
  unfold internalParties, ContractService.ContractParties, rest. wp_step. wp_step. wp_step.
  apply wp_GetContract.
  - done.
  - by intros ->.
  - intros c ->. wp_step. by wp_step.
Qed.

(** ** Witnesses *)

Definition demo_request (uid id : string) : request := demo_request_with uid id (fun _ => "") None.

Lemma contract_changes_are_authorized_witness :
  authorized demo_proposals "http://proposal" RFund (demo_request "alice" (m_ID signed_milestone)) signed_db
    (cafter (serve demo_proposals "http://proposal" RFund (demo_request "alice" (m_ID signed_milestone)))
       quiet_env signed_db 7).
Proof.
  apply (contract_changes_are_authorized demo_proposals "http://proposal" RFund
    (demo_request "alice" (m_ID signed_milestone)) quiet_env signed_db 7); [discriminate|exact signed_reachable|].
  intros H. apply (f_equal (fun d => map m_Status (milestones d))) in H. vm_compute in H. discriminate.
Defined.

Lemma contract_reads_need_a_party_witness :
  exists c, find_contract (c_ID signed_contract) signed_db = Some c /\
    ("bob" = c_ClientID c \/ "bob" = c_FreelancerID c).
Proof.
  destruct (fst (get (demo_request "bob" (c_ID signed_contract)) quiet_env (rest signed_db 7))) as [resp|e] eqn:E;
    [|vm_compute in E; discriminate].
  assert (status resp = 200) as H200.
  { apply (f_equal (fun x => match x with Ok y => status y | Err _ => 0 end)) in E. vm_compute in E.
    exact (eq_sym E). }
  destruct (contract_reads_need_a_party (demo_request "bob" (c_ID signed_contract)) quiet_env signed_db 7 resp
    (or_introl E) H200) as (c & H1 & H2 & _).
  exists c. split; [exact H1|exact H2].
Defined.

Lemma parties_roundtrip_witness :
  ContractParties.read_parties (answer_of (fst (internalParties (demo_request "" (c_ID signed_contract))
    quiet_env (rest signed_db 7)))) =
  inl (ContractParties.mkParties (c_ID signed_contract) "alice" "bob" "pending_funding").
Proof.
  exact (parties_roundtrip (demo_request "" (c_ID signed_contract)) quiet_env signed_db 7 quiet_calm).
Defined.
