(* ===== verification/ProposalStore.v ===== *)
(** * Proposal data layer (services/proposal/internal/store)

    Proposals with their milestones and answers, and the constraints of
    migration 000004.  The projects table belongs to the project service and is
    only read here.  [submitted_at] order is insertion order. *)
From S2P Require Export Outbox Rbac Strings.

(** ** Domain types *)

Record Proposal := mkProposal {
  p_ID : string;
  p_ProjectID : string;
  p_FreelancerID : string;
  p_CoverLetter : string;
  p_BidAmountCents : Z;
  p_Currency : string;
  p_EstimatedDurationDays : option Z;
  p_Status : string;
  p_ConnectsSpent : Z;
  p_withdrawn_at : option Z       (* not in the Go type *)
}.

Record Milestone := mkMilestone {
  pm_ID : string;
  pm_ProposalID : string;
  pm_Seq : Z;
  pm_Title : string;
  pm_AmountCents : Z;
  pm_DueDays : option Z
}.

Record Answer := mkAnswer {
  an_ID : string;
  an_ProposalID : string;
  an_Question : string;
  an_Answer : string
}.

(** The columns of projects the service reads. *)
Record Project := mkProject { pj_id : string; pj_client_id : string }.

Record proposal_db := mkProposalDb {
  projects : list Project;
  proposals : list Proposal;
  proposal_milestones : list Milestone;
  proposal_answers : list Answer;
  proposal_outbox : list OutboxRow
}.

Definition empty_proposal_db : proposal_db := mkProposalDb [] [] [] [] [].

Definition projects_t : table proposal_db Project :=
  Table projects (fun l d => mkProposalDb l (proposals d) (proposal_milestones d)
                               (proposal_answers d) (proposal_outbox d)).
Definition proposals_t : table proposal_db Proposal :=
  Table proposals (fun l d => mkProposalDb (projects d) l (proposal_milestones d)
                               (proposal_answers d) (proposal_outbox d)).
Definition proposal_milestones_t : table proposal_db Milestone :=
  Table proposal_milestones (fun l d => mkProposalDb (projects d) (proposals d) l
                               (proposal_answers d) (proposal_outbox d)).
Definition proposal_answers_t : table proposal_db Answer :=
  Table proposal_answers (fun l d => mkProposalDb (projects d) (proposals d)
                               (proposal_milestones d) l (proposal_outbox d)).
#[export] Instance proposal_HasOutbox : HasOutbox proposal_db :=
  Table proposal_outbox (fun l d => mkProposalDb (projects d) (proposals d)
                               (proposal_milestones d) (proposal_answers d) l).

(** No deferred constraint. *)
#[export] Instance proposal_Deferred : Deferred proposal_db := fun _ _ => true.

(** ErrNotFound of the store, the sentinels of the service and rbac.ErrForbidden. *)
Inductive proposal_err :=
| ErrNotFound
| ErrInvalidBid
| ErrDuplicateProposal
| ErrInvalidState
| ErrForbidden.

Abbreviation pprog := (prog proposal_db proposal_err).

Definition found {A} (row : option A) : pprog A :=
  match row with
  | None => fail ErrNotFound
  | Some a => ret a
  end.

(** ** Writes *)

Definition in_status (statuses : list string) (p : Proposal) : bool :=
  existsb (String.eqb (p_Status p)) statuses.

(** The primary key and UNIQUE (project_id, freelancer_id). *)
Definition proposal_check (l : list Proposal) (p : Proposal) : option dberr :=
  first_violation
    [ unique_index "proposals_pkey" (fun x r => String.eqb (p_ID x) (p_ID r)) l p;
      unique_index "proposals_project_id_freelancer_id_key" (fun x r =>
        String.eqb (p_ProjectID x) (p_ProjectID r) && String.eqb (p_FreelancerID x) (p_FreelancerID r)) l p ].

Definition new_proposal (id currency : string) (p : Proposal) : Proposal :=
  mkProposal id (p_ProjectID p) (p_FreelancerID p) (p_CoverLetter p) (p_BidAmountCents p) currency
    (p_EstimatedDurationDays p) "submitted" (p_ConnectsSpent p) None.

Definition insert_proposal (p : Proposal) : sql proposal_db Proposal := fun s d =>
  match bpchar 3 (p_Currency p) with
  | None => Reject InvalidText
  | Some cur =>
      insert_row proposals_t (fun l r => first_violation
          [ proposal_check l r;
            references "proposals_project_id_fkey" (has_key pj_id (p_ProjectID p)) (projects d) ])
        (fun s => new_proposal (fresh s) cur p) s d
  end.

Definition InsertProposal (p : Proposal) : pprog string :=
  if negb (in_int32 (default 0 (p_EstimatedDurationDays p)) && in_int32 (p_ConnectsSpent p))
  then throw (Db ScanError) else
  r <- exec (insert_proposal p) ;;
  ret (p_ID r).

Definition milestone_check (l : list Milestone) (m : Milestone) : option dberr :=
  first_violation
    [ unique_index "proposal_milestones_pkey" (fun x r => String.eqb (pm_ID x) (pm_ID r)) l m;
      unique_index "proposal_milestones_proposal_id_seq_key" (fun x r =>
        String.eqb (pm_ProposalID x) (pm_ProposalID r) && (pm_Seq x =? pm_Seq r)) l m ].

Definition new_milestone (id proposalID : string) (m : Milestone) : Milestone :=
  mkMilestone id proposalID (pm_Seq m) (pm_Title m) (pm_AmountCents m) (pm_DueDays m).

Definition insert_milestone (proposalID : string) (m : Milestone) : sql proposal_db Milestone :=
  fun s d =>
    insert_row proposal_milestones_t (fun l r => first_violation
        [ milestone_check l r;
          references "proposal_milestones_proposal_id_fkey" (has_key p_ID proposalID) (proposals d) ])
      (fun s => new_milestone (fresh s) proposalID m) s d.

Definition InsertMilestone (proposalID : string) (m : Milestone) : pprog unit :=
  if negb (in_int32 (pm_Seq m) && in_int32 (default 0 (pm_DueDays m))) then throw (Db ScanError) else
  exec (insert_milestone proposalID m) ;;;
  ret tt.

Definition answer_check (l : list Answer) (a : Answer) : option dberr :=
  unique_index "proposal_answers_pkey" (fun x r => String.eqb (an_ID x) (an_ID r)) l a.

Definition new_answer (id proposalID : string) (a : Answer) : Answer :=
  mkAnswer id proposalID (an_Question a) (an_Answer a).

Definition insert_answer (proposalID : string) (a : Answer) : sql proposal_db Answer := fun s d =>
  insert_row proposal_answers_t (fun l r => first_violation
      [ answer_check l r;
        references "proposal_answers_proposal_id_fkey" (has_key p_ID proposalID) (proposals d) ])
    (fun s => new_answer (fresh s) proposalID a) s d.

Definition InsertAnswer (proposalID : string) (a : Answer) : pprog unit :=
  exec (insert_answer proposalID a) ;;;
  ret tt.

Definition withdrawn (t : Z) (p : Proposal) : Proposal :=
  mkProposal (p_ID p) (p_ProjectID p) (p_FreelancerID p) (p_CoverLetter p) (p_BidAmountCents p)
    (p_Currency p) (p_EstimatedDurationDays p) "withdrawn" (p_ConnectsSpent p) (Some t).

Definition shortlisted (p : Proposal) : Proposal :=
  mkProposal (p_ID p) (p_ProjectID p) (p_FreelancerID p) (p_CoverLetter p) (p_BidAmountCents p)
    (p_Currency p) (p_EstimatedDurationDays p) "shortlisted" (p_ConnectsSpent p) (p_withdrawn_at p).

(** Who may withdraw, and from which status. *)
Definition withdrawable (freelancerID : string) (p : Proposal) : bool :=
  has_key p_FreelancerID freelancerID p && in_status ["submitted"; "shortlisted"] p.

Definition WithdrawProposal (id freelancerID : string) : pprog bool :=
  l <- exec (update_rows proposals_t (fun p => has_key p_ID id p && withdrawable freelancerID p)
         (fun s => withdrawn (now s)) (fun _ => None)) ;;
  ret (List.length l =? 1)%nat.

Definition ShortlistProposal (id : string) : pprog bool :=
  l <- exec (update_rows proposals_t (fun p => has_key p_ID id p && in_status ["submitted"] p)
         (fun _ => shortlisted) (fun _ => None)) ;;
  ret (List.length l =? 1)%nat.

(** ** Reads *)

Definition find_proposal (id : string) (d : proposal_db) : option Proposal :=
  List.find (has_key p_ID id) (proposals d).

Definition find_project (id : string) (d : proposal_db) : option Project :=
  List.find (has_key pj_id id) (projects d).

(** FROM proposals p JOIN projects pr ON pr.id = p.project_id WHERE p.id = $1 *)
Definition client_of_proposal (id : string) (d : proposal_db) : option string :=
  match find_proposal id d with
  | Some p => option_map pj_client_id (find_project (p_ProjectID p) d)
  | None => None
  end.

Definition ProjectClientOfProposal (proposalID : string) : pprog string :=
  row <- exec_pool (fun _ d => Done (client_of_proposal proposalID d) d) ;;
  found row.

Definition ProjectClientOf (projectID : string) : pprog string :=
  row <- exec_pool (select_one projects_t (has_key pj_id projectID)) ;;
  pr <- found row ;;
  ret (pj_client_id pr).

Definition GetProposal (id : string) : pprog Proposal :=
  row <- exec_pool (select_one proposals_t (has_key p_ID id)) ;;
  found row.

Definition ListMilestones (proposalID : string) : pprog (list Milestone) :=
  l <- exec_pool (select_all proposal_milestones_t (has_key pm_ProposalID proposalID)) ;;
  ret (order_by pm_Seq l).

(** An empty status filters nothing. The parameter is text, by its first use
    ($2 = ''), and the column an enum: there is no operator for [status = $2]. *)
Definition ListForProject (projectID status : string) : pprog (list Proposal) :=
  l <- exec_pool (fun s d => if negb (eq_operator EnumType TextType) then Reject Driver else
         select_all proposals_t (fun p =>
           has_key p_ProjectID projectID p && (String.eqb status "" || has_key p_Status status p)) s d) ;;
  ret (rev l).

Definition ListForFreelancer (freelancerID : string) : pprog (list Proposal) :=
  l <- exec_pool (select_all proposals_t (has_key p_FreelancerID freelancerID)) ;;
  ret (rev l).
