(* ===== verification/ProposalService.v ===== *)
(** * Proposal business logic (services/proposal/internal/service)

    Bids, their withdrawal and shortlisting, and the guarded reads.  The text of
    a database error, which isUniqueViolation searches, is the driver's: the
    parameter [error_text]. *)
From S2P Require Export ProposalStore Strings.

Record MilestoneInput := mkMilestoneInput {
  mi_Seq : Z;
  mi_Title : string;
  mi_AmountCents : Z;
  mi_DueDays : option Z
}.

Record AnswerInput := mkAnswerInput { ai_Question : string; ai_Answer : string }.

Record SubmitInput := mkSubmitInput {
  si_ProjectID : string;
  si_FreelancerID : string;
  si_CoverLetter : string;
  si_BidAmountCents : Z;
  si_Currency : string;
  si_EstimatedDurationDays : option Z;
  si_ConnectsSpent : Z;
  si_Milestones : list MilestoneInput;
  si_Answers : list AnswerInput
}.

Record ProposalView := mkProposalView {
  v_Proposal : Proposal;
  v_Milestones : list Milestone
}.

Record ContractProposal := mkContractProposal {
  cp_ProposalID : string;
  cp_ProjectID : string;
  cp_ProjectClientID : string;
  cp_FreelancerID : string;
  cp_Status : string;
  cp_BidAmountCents : Z;
  cp_Currency : string
}.

(** The proposal as SubmitProposal hands it to the store and, with its id, to
    the caller. *)
Definition proposal_of (id : string) (i : SubmitInput) : Proposal :=
  mkProposal id (si_ProjectID i) (si_FreelancerID i) (si_CoverLetter i) (si_BidAmountCents i)
    (si_Currency i) (si_EstimatedDurationDays i) "submitted" (si_ConnectsSpent i) None.

Definition milestone_of (m : MilestoneInput) : Milestone :=
  mkMilestone "" "" (mi_Seq m) (mi_Title m) (mi_AmountCents m) (mi_DueDays m).

Definition answer_of_input (a : AnswerInput) : Answer := mkAnswer "" "" (ai_Question a) (ai_Answer a).

Definition with_currency (currency : string) (i : SubmitInput) : SubmitInput :=
  mkSubmitInput (si_ProjectID i) (si_FreelancerID i) (si_CoverLetter i) (si_BidAmountCents i) currency
    (si_EstimatedDurationDays i) (si_ConnectsSpent i) (si_Milestones i) (si_Answers i).

Definition submitted_event (id : string) (i : SubmitInput) : Event :=
  mkEvent "proposal" id "proposal.submitted" "proposal.events" (si_ProjectID i)
    (JObj [("proposal_id", JStr id); ("project_id", JStr (si_ProjectID i));
           ("freelancer_id", JStr (si_FreelancerID i)); ("bid_amount_cents", JInt (si_BidAmountCents i))]) None.

Definition withdrawn_event (id freelancerID : string) : Event :=
  mkEvent "proposal" id "proposal.withdrawn" "proposal.events" id
    (JObj [("proposal_id", JStr id); ("freelancer_id", JStr freelancerID)]) None.

Definition shortlisted_event (id clientID : string) : Event :=
  mkEvent "proposal" id "proposal.shortlisted" "proposal.events" id
    (JObj [("proposal_id", JStr id); ("client_id", JStr clientID)]) None.

Section Service.
Context `{PgErrorText}.

Definition isUniqueViolation (e : err proposal_err) : bool :=
  match e with
  | Db x => contains (error_text x) "23505" ||
            contains (error_text x) "proposals_project_id_freelancer_id_key"
  | Dom _ => false
  end.

(** The transaction of SubmitProposal. *)
Definition submit_tx (i : SubmitInput) : pprog Proposal :=
  in_tx (
    r <- attempt (InsertProposal (proposal_of "" i)) ;;
    match r with
    | Err e => if isUniqueViolation e then fail ErrDuplicateProposal else throw e
    | Ok id =>
        for_each (si_Milestones i) (fun m => InsertMilestone id (milestone_of m)) ;;;
        for_each (si_Answers i) (fun a => InsertAnswer id (answer_of_input a)) ;;;
        Enqueue (submitted_event id i) ;;;
        commit ;;;
        ret (proposal_of id i)
    end).

Definition SubmitProposal (i : SubmitInput) : pprog Proposal :=
  if si_BidAmountCents i <=? 0 then fail ErrInvalidBid else
  submit_tx (with_currency (if String.eqb (si_Currency i) "" then "USD" else si_Currency i) i).

Definition WithdrawProposal (id freelancerID : string) : pprog unit :=
  in_tx (
    ok <- ProposalStore.WithdrawProposal id freelancerID ;;
    if negb ok then fail ErrInvalidState else
    Enqueue (withdrawn_event id freelancerID) ;;;
    commit).

Definition ShortlistProposal (id actorClientID : string) : pprog unit :=
  if String.eqb actorClientID "" then fail ErrForbidden else
  ownerClientID <- ProjectClientOfProposal id ;;
  if negb (String.eqb ownerClientID actorClientID) then fail ErrForbidden else
  in_tx (
    ok <- ProposalStore.ShortlistProposal id ;;
    if negb ok then fail ErrInvalidState else
    Enqueue (shortlisted_event id actorClientID) ;;;
    commit).

(** ** Reads *)

Definition ProposalForContract (id : string) : pprog ContractProposal :=
  p <- ProposalStore.GetProposal id ;;
  clientID <- ProjectClientOfProposal id ;;
  ret (mkContractProposal (p_ID p) (p_ProjectID p) clientID (p_FreelancerID p) (p_Status p)
         (p_BidAmountCents p) (p_Currency p)).

Definition GetProposal (id : string) : pprog ProposalView :=
  p <- ProposalStore.GetProposal id ;;
  ms <- ListMilestones id ;;
  ret (mkProposalView p ms).

Definition ListProposalsForProject (projectID status actorClientID : string) : pprog (list Proposal) :=
  if String.eqb actorClientID "" then fail ErrForbidden else
  ownerClientID <- ProjectClientOf projectID ;;
  if negb (String.eqb ownerClientID actorClientID) then fail ErrForbidden else
  ListForProject projectID status.

Definition ListProposalsForFreelancer (freelancerID : string) : pprog (list Proposal) :=
  ListForFreelancer freelancerID.
End Service.
