(* ===== verification/ProposalSpec.v ===== *)
(** * What the proposal operations do

    Each operation as a function on the tables that answers with the new tables
    or an error ([submit_spec], ...), and the rules of the store functions. *)
From S2P Require Export ProposalService.

(** ** Effects on the tables *)

Definition set_proposal (id : string) (f : Proposal -> Proposal) (d : proposal_db) : proposal_db :=
  put proposals_t (update_where (has_key p_ID id) f (proposals d)) d.

Definition announce (e : Event) (t : Z) (d : proposal_db) : proposal_db :=
  put proposal_HasOutbox (enqueued t e (proposal_outbox d)) d.

(** The rows of a new proposal's milestones and answers, in order. *)
Fixpoint milestone_rows (pid : string) (u : nat -> string) (ms : list MilestoneInput) : list Milestone :=
  match ms with
  | [] => []
  | m :: ms' => new_milestone (u 0%nat) pid (milestone_of m) :: milestone_rows pid (fun k => u (S k)) ms'
  end.

Fixpoint answer_rows (pid : string) (u : nat -> string) (ans : list AnswerInput) : list Answer :=
  match ans with
  | [] => []
  | a :: ans' => new_answer (u 0%nat) pid (answer_of_input a) :: answer_rows pid (fun k => u (S k)) ans'
  end.

(** The first constraint the rows break. *)
Fixpoint milestones_problem (pid : string) (u : nat -> string) (ms : list MilestoneInput)
  (l : list Milestone) : option dberr :=
  match ms with
  | [] => None
  | m :: ms' =>
      if negb (in_int32 (mi_Seq m) && in_int32 (default 0 (mi_DueDays m))) then Some ScanError
      else let r := new_milestone (u 0%nat) pid (milestone_of m) in
           match milestone_check l r with
           | Some e => Some e
           | None => milestones_problem pid (fun k => u (S k)) ms' (l ++ [r])
           end
  end.

Fixpoint answers_problem (pid : string) (u : nat -> string) (ans : list AnswerInput)
  (l : list Answer) : option dberr :=
  match ans with
  | [] => None
  | a :: ans' =>
      let r := new_answer (u 0%nat) pid (answer_of_input a) in
      match answer_check l r with
      | Some e => Some e
      | None => answers_problem pid (fun k => u (S k)) ans' (l ++ [r])
      end
  end.

(** What can keep the proposal row from being stored under identifier [id]. *)
Definition proposal_problem (i : SubmitInput) (d : proposal_db) (id : string) : option dberr :=
  if negb (in_int32 (default 0 (si_EstimatedDurationDays i)) && in_int32 (si_ConnectsSpent i))
  then Some ScanError
  else match bpchar 3 (si_Currency i) with
       | None => Some InvalidText
       | Some cur => first_violation
           [ proposal_check (proposals d) (new_proposal id cur (proposal_of "" i));
             references "proposals_project_id_fkey" (has_key pj_id (si_ProjectID i)) (projects d) ]
       end.

(** The identifiers of the answers come after those of the milestones. *)
Definition answer_ids (i : SubmitInput) (u : nat -> string) : nat -> string :=
  fun k => u (S (List.length (si_Milestones i) + k)).

Definition children_problem (i : SubmitInput) (d : proposal_db) (u : nat -> string) : option dberr :=
  match milestones_problem (u 0%nat) (fun k => u (S k)) (si_Milestones i) (proposal_milestones d) with
  | Some e => Some e
  | None => answers_problem (u 0%nat) (answer_ids i u) (si_Answers i) (proposal_answers d)
  end.

(** The tables with the proposal, its milestones and answers, and its event. *)
Definition submitted (i : SubmitInput) (u : nat -> string) (t : Z) (d : proposal_db) : proposal_db :=
  let pid := u 0%nat in
  announce (submitted_event pid i) t
    (mkProposalDb (projects d)
       (proposals d ++ [new_proposal pid (default "" (bpchar 3 (si_Currency i))) (proposal_of "" i)])
       (proposal_milestones d ++ milestone_rows pid (fun k => u (S k)) (si_Milestones i))
       (proposal_answers d ++ answer_rows pid (answer_ids i u) (si_Answers i))
       (proposal_outbox d)).

Section Operations.
Context `{PgErrorText}.

Definition tx_spec (i : SubmitInput) (d : proposal_db) (s : draw)
  : Proposal * proposal_db + err proposal_err :=
  match proposal_problem i d (ids s 0%nat) with
  | Some e => inr (if isUniqueViolation (Db e) then Dom ErrDuplicateProposal else Db e)
  | None =>
      match children_problem i d (ids s) with
      | Some e => inr (Db e)
      | None => inl (proposal_of (ids s 0%nat) i, submitted i (ids s) (began s) d)
      end
  end.

Definition currency_or_usd (i : SubmitInput) : SubmitInput :=
  with_currency (if String.eqb (si_Currency i) "" then "USD" else si_Currency i) i.

Definition submit_spec (i : SubmitInput) (d : proposal_db) (s : draw)
  : Proposal * proposal_db + err proposal_err :=
  if si_BidAmountCents i <=? 0 then inr (Dom ErrInvalidBid) else tx_spec (currency_or_usd i) d s.
End Operations.

Definition withdraw_spec (id freelancerID : string) (d : proposal_db) (s : draw)
  : unit * proposal_db + err proposal_err :=
  match find_proposal id d with
  | Some p =>
      if withdrawable freelancerID p
      then inl (tt, announce (withdrawn_event id freelancerID) (began s) (set_proposal id (withdrawn (began s)) d))
      else inr (Dom ErrInvalidState)
  | None => inr (Dom ErrInvalidState)
  end.

Definition shortlist_spec (id actor : string) (d : proposal_db) (s : draw)
  : unit * proposal_db + err proposal_err :=
  if String.eqb actor "" then inr (Dom ErrForbidden) else
  match client_of_proposal id d with
  | None => inr (Dom ErrNotFound)
  | Some c =>
      if negb (String.eqb c actor) then inr (Dom ErrForbidden) else
      match find_proposal id d with
      | Some p =>
          if in_status ["submitted"] p
          then inl (tt, announce (shortlisted_event id actor) (began s) (set_proposal id shortlisted d))
          else inr (Dom ErrInvalidState)
      | None => inr (Dom ErrInvalidState)
      end
  end.

(** ** Rules of the data layer *)

Section Rules.
Implicit Types (ev : env) (v c d : proposal_db) (t : Z) (n : nat).

Lemma wp_found {A} (row : option A) ev w (Q : res proposal_err A -> world proposal_db -> Prop) :
  (row = None -> Q (Err (Dom ErrNotFound)) w) -> (forall a, row = Some a -> Q (Ok a) w) ->
  wp (found row) ev w Q.
Proof. intros Hn Hs. destruct row; [by apply Hs|by apply Hn]. Qed.

Lemma wp_ProjectClientOfProposal id ev d x n (Q : res proposal_err string -> world proposal_db -> Prop) :
  (~ calm ev -> Q (Err (Db Driver)) (World d x (S n))) ->
  (client_of_proposal id d = None -> Q (Err (Dom ErrNotFound)) (World d x (S n))) ->
  (forall u, client_of_proposal id d = Some u -> Q (Ok u) (World d x (S n))) ->
  wp (ProjectClientOfProposal id) ev (World d x n) Q.
Proof.
  intros Hf Hn Hs. apply wp_bind, (wp_pool_read _ (client_of_proposal id d)); [done|by apply Hf|].
  by apply wp_found.
Qed.

Lemma wp_ProjectClientOf id ev d x n (Q : res proposal_err string -> world proposal_db -> Prop) :
  (~ calm ev -> Q (Err (Db Driver)) (World d x (S n))) ->
  (find_project id d = None -> Q (Err (Dom ErrNotFound)) (World d x (S n))) ->
  (forall pr, find_project id d = Some pr -> Q (Ok (pj_client_id pr)) (World d x (S n))) ->
  wp (ProjectClientOf id) ev (World d x n) Q.
Proof.
  intros Hf Hn Hs. apply wp_bind, (wp_pool_read _ (find_project id d)); [done|by apply Hf|].
  apply wp_bind, wp_found; [done|]. intros pr E. by apply wp_ret, Hs.
Qed.

Lemma wp_GetProposalRow id ev d x n (Q : res proposal_err Proposal -> world proposal_db -> Prop) :
  (~ calm ev -> Q (Err (Db Driver)) (World d x (S n))) ->
  (find_proposal id d = None -> Q (Err (Dom ErrNotFound)) (World d x (S n))) ->
  (forall p, find_proposal id d = Some p -> Q (Ok p) (World d x (S n))) ->
  wp (ProposalStore.GetProposal id) ev (World d x n) Q.
Proof.
  intros Hf Hn Hs. apply wp_bind, (wp_pool_read _ (find_proposal id d)); [done|by apply Hf|].
  by apply wp_found.
Qed.

(** The guarded updates: no row passes the guard, or the row of the key does. *)
Lemma wp_guarded_update id g f ev c t v n (Q : res proposal_err bool -> world proposal_db -> Prop) :
  keyed p_ID (proposals v) ->
  (~ calm ev -> Q (Err (Db Driver)) (World c Broken (S n))) ->
  ((forall p, find_proposal id v = Some p -> g p = false) ->
     forall w, committed w = c -> Q (Ok false) w) ->
  (forall p, find_proposal id v = Some p -> g p = true ->
     Q (Ok true) (World c (Live t (set_proposal id (f (Stamp t (gen_uuid ev n))) v)) (S n))) ->
  wp (l <- exec (update_rows proposals_t (fun p => has_key p_ID id p && g p) f (fun _ => None)) ;;
      ret (List.length l =? 1)%nat) ev (World c (Live t v) n) Q.
Proof.
  intros Hk Hf Hn Hs. apply wp_bind, (wp_update_guard proposals_t p_ID); [done|by apply Hf| |].
  - intros HN. apply wp_ret. by apply Hn.
  - intros p HF HG. apply wp_ret. by eapply Hs.
Qed.
End Rules.

Ltac proposal_rules :=
  lazymatch goal with
  | |- wp (ProjectClientOfProposal _) _ _ _ =>
      apply wp_ProjectClientOfProposal; [intros ?NC|intros ?NF|intros ?u ?FC]
  | |- wp (ProjectClientOf _) _ _ _ => apply wp_ProjectClientOf; [intros ?NC|intros ?NF|intros ?pr ?FJ]
  | |- wp (ProposalStore.GetProposal _) _ _ _ =>
      apply wp_GetProposalRow; [intros ?NC|intros ?NF|intros ?p ?FP]
  | |- wp (ProposalStore.WithdrawProposal _ _) _ _ _ =>
      apply wp_guarded_update; [|intros ?NC|intros ?NS ?w ?CW|intros ?p ?FP ?ST]
  | |- wp (ProposalStore.ShortlistProposal _) _ _ _ =>
      apply wp_guarded_update; [|intros ?NC|intros ?NS ?w ?CW|intros ?p ?FP ?ST]
  | |- wp (Enqueue _) _ _ _ => apply wp_Enqueue; [intros ?NC|]
  end.

(** * The proposal operations meet their specification *)
Ltac wp_hook ::= proposal_rules.

Section Meets.
Context `{PgErrorText} (ev : env) (d : proposal_db) (n : nat) (HK : keyed p_ID (proposals d)).

Lemma withdraw_meets id fl :
  wp (WithdrawProposal id fl) ev (rest d n) (ended (settles ev d (withdraw_spec id fl d))).
Proof.
  unfold WithdrawProposal, rest. run_op; try settle_as withdraw_spec (Draw (clock ev n) (gen_uuid ev)).
  - done.
  - rewrite CW. settle_as withdraw_spec (Draw (clock ev n) (gen_uuid ev)).
    destruct (find_proposal id d) as [p|] eqn:F; [|done]. by rewrite NS.
Qed.

Lemma shortlist_meets id actor :
  wp (ShortlistProposal id actor) ev (rest d n) (ended (settles ev d (shortlist_spec id actor d))).
Proof.
  unfold ShortlistProposal, rest. run_op; try settle_as shortlist_spec (Draw (clock ev (S n)) (gen_uuid ev)).
  - done.
  - rewrite CW. settle_as shortlist_spec (Draw (clock ev n) (gen_uuid ev)).
    destruct (find_proposal id d) as [p|] eqn:F; [|done]. by rewrite NS.
Qed.

(** ** Submitting a proposal *)

Lemma fk_found {R} name (key : R -> string) k l r :
  List.find (has_key key k) l = Some r -> references name (has_key key k) l = None.
Proof.
  intros F%List.find_some. unfold references.
  by rewrite (proj2 (existsb_exists (has_key key k) l)) by eauto.
Qed.

Lemma wp_insert_proposal_milestones pid ms u v t m k (Q : res proposal_err unit -> world proposal_db -> Prop) :
  find_proposal pid v = Some k ->
  (forall j, u j = gen_uuid ev (m + j)) ->
  (forall w, committed w = d -> ~ calm ev -> Q (Err (Db Driver)) w) ->
  (forall e w, committed w = d -> milestones_problem pid u ms (proposal_milestones v) = Some e ->
     Q (Err (Db e)) w) ->
  (milestones_problem pid u ms (proposal_milestones v) = None ->
     Q (Ok tt) (World d (Live t (put proposal_milestones_t
       (proposal_milestones v ++ milestone_rows pid u ms) v)) (m + List.length ms))) ->
  wp (for_each ms (fun x => InsertMilestone pid (milestone_of x))) ev (World d (Live t v) m) Q.
Proof.
  revert u v m. induction ms as [|x ms IH]; intros u v m Hk Hu Hf He Hs.
  - apply wp_ret. specialize (Hs eq_refl). cbn [milestone_rows List.length] in Hs.
    rewrite app_nil_r, Nat.add_0_r in Hs. by destruct v.
  - assert (u 0%nat = gen_uuid ev m) as Hu0 by (by rewrite Hu, Nat.add_0_r).
    cbn [milestones_problem milestone_rows for_each List.length] in *. rewrite Hu0 in *.
    cbn [pm_Seq pm_DueDays milestone_of] in *.
    wp_step. unfold InsertMilestone at 1. cbn [pm_Seq pm_DueDays milestone_of].
    wp_step; [wp_step; by apply He|].
    wp_step. wp_step; [by apply Hf|]. unfold insert_milestone at 1, insert_row at 1.
    cbn [rows proposal_milestones_t first_violation fresh].
    destruct (milestone_check (proposal_milestones v) _) as [e|] eqn:C; [by apply He|].
    rewrite (fk_found _ _ _ _ _ Hk). wp_step.
    apply IH with (u := fun j => u (S j)); try done.
    + intros j. rewrite Hu. f_equal. lia.
    + intros HP. specialize (Hs HP). cbn [proposal_milestones put proposal_milestones_t] in *.
      rewrite <- app_assoc. replace (S m + List.length ms)%nat with (m + S (List.length ms))%nat by lia.
      exact Hs.
Qed.

Lemma wp_insert_answers pid ans u v t m k (Q : res proposal_err unit -> world proposal_db -> Prop) :
  find_proposal pid v = Some k ->
  (forall j, u j = gen_uuid ev (m + j)) ->
  (forall w, committed w = d -> ~ calm ev -> Q (Err (Db Driver)) w) ->
  (forall e w, committed w = d -> answers_problem pid u ans (proposal_answers v) = Some e ->
     Q (Err (Db e)) w) ->
  (forall m', answers_problem pid u ans (proposal_answers v) = None ->
     Q (Ok tt) (World d (Live t (put proposal_answers_t (proposal_answers v ++ answer_rows pid u ans) v)) m')) ->
  wp (for_each ans (fun x => InsertAnswer pid (answer_of_input x))) ev (World d (Live t v) m) Q.
Proof.
  revert u v m. induction ans as [|x ans IH]; intros u v m Hk Hu Hf He Hs.
  - apply wp_ret. specialize (Hs m eq_refl). cbn [answer_rows] in Hs. rewrite app_nil_r in Hs. by destruct v.
  - assert (u 0%nat = gen_uuid ev m) as Hu0 by (by rewrite Hu, Nat.add_0_r).
    cbn [answers_problem answer_rows for_each] in *. rewrite Hu0 in *. cbv zeta in *.
    wp_step. unfold InsertAnswer at 1.
    wp_step. wp_step; [by apply Hf|]. unfold insert_answer at 1, insert_row at 1.
    cbn [rows proposal_answers_t first_violation fresh].
    destruct (answer_check (proposal_answers v) _) as [e|] eqn:C; [by apply He|].
    rewrite (fk_found _ _ _ _ _ Hk). wp_step.
    apply IH with (u := fun j => u (S j)); try done.
    + intros j. rewrite Hu. f_equal. lia.
    + intros m' HP. specialize (Hs m' HP). cbn [proposal_answers put proposal_answers_t] in *.
      rewrite <- app_assoc. exact Hs.
Qed.

(** How a submission ends: as its specification says, or with a driver failure
    whose text passes for that of a unique violation. *)
Definition ends_as (spec : draw -> Proposal * proposal_db + err proposal_err)
  (r : res proposal_err Proposal) (d' : proposal_db) : Prop :=
  settles ev d spec r d' \/
  (~ calm ev /\ isUniqueViolation (Db Driver) = true /\ r = Err (Dom ErrDuplicateProposal) /\ d' = d).

Lemma proposal_check_new l p : proposal_check l p = None ->
  ~ In (p_ID p) (map p_ID l) /\
  forall x, In x l -> ~ (p_ProjectID x = p_ProjectID p /\ p_FreelancerID x = p_FreelancerID p).
Proof.
  unfold proposal_check. rewrite first_violation_None. intros HF.
  inversion HF as [|? ? H1 HF1]; subst. inversion HF1 as [|? ? H2 _]; subst.
  rewrite unique_index_None in H1, H2. split.
  - intros (x & K & Hx)%in_map_iff. specialize (H1 x Hx). cbn in H1. by rewrite K, String.eqb_refl in H1.
  - intros x Hx [E1 E2]. specialize (H2 x Hx). cbn in H2. by rewrite E1, E2, !String.eqb_refl in H2.
Qed.

(** The rest of the transaction, once the proposal row is in. *)
Lemma submit_children i cur u t m :
  proposal_problem i d (u 0%nat) = None -> bpchar 3 (si_Currency i) = Some cur ->
  proposal_check (proposals d) (new_proposal (u 0%nat) cur (proposal_of "" i)) = None ->
  drawn ev (Draw t u) -> (forall j, u j = gen_uuid ev (S m + j)) ->
  wp (for_each (si_Milestones i) (fun x => InsertMilestone (u 0%nat) (milestone_of x)) ;;;
      for_each (si_Answers i) (fun a => InsertAnswer (u 0%nat) (answer_of_input a)) ;;;
      Enqueue (submitted_event (u 0%nat) i) ;;; commit ;;; ret (proposal_of (u 0%nat) i))
    ev (World d (Live t (put proposals_t (proposals d ++ [new_proposal (u 0%nat) cur (proposal_of "" i)]) d)) (S (S m)))
    (fun r w => ended (ends_as (tx_spec i d)) r (World (committed w) NoTx (tick w))).
Proof.
  intros HP CUR CK HD Hu. set (row := new_proposal (u 0%nat) cur (proposal_of "" i)) in *.
  set (v := put proposals_t (proposals d ++ [row]) d).
  assert (find_proposal (u 0%nat) v = Some row) as Hrow.
  { unfold find_proposal. cbn [proposals v put proposals_t]. apply proposal_check_new in CK as [CKn _].
    change (p_ID row) with (u 0%nat) in CKn.
    rewrite find_key_app, (proj2 find_key_None CKn). cbn. unfold has_key. cbn. by rewrite String.eqb_refl. }
  assert (forall e w, committed w = d -> children_problem i d u = Some e ->
    ended (ends_as (tx_spec i d)) (Err (Db e)) (World (committed w) NoTx (tick w))) as Hbad.
  { intros e w -> CP. split; [done|]. left. apply (settles_err _ _ _ (Draw t u)); [done|].
    unfold tx_spec. cbn [ids]. by rewrite HP, CP. }
  assert (forall w, committed w = d -> ~ calm ev ->
    ended (ends_as (tx_spec i d)) (Err (Db Driver)) (World (committed w) NoTx (tick w))) as Hdrv.
  { intros w -> NC. split; [done|]. left. by apply settles_failed. }
  unfold children_problem in Hbad.
  apply wp_bind, wp_insert_proposal_milestones with (u := fun k => u (S k)) (k := row); [done| |done| |].
  - intros j. rewrite Hu. f_equal. lia.
  - intros e w Hw CP. apply Hbad; [done|]. unfold v in CP. cbn [proposal_milestones put proposals_t] in CP.
    by rewrite CP.
  - intros HM. cbn [v proposal_milestones put proposals_t] in HM. rewrite HM in Hbad.
    apply wp_bind, wp_insert_answers with (u := answer_ids i u) (k := row); [done| |done| |].
    { intros j. unfold answer_ids. rewrite Hu. f_equal. lia. }
    { intros e w Hw CP. by apply Hbad. }
    intros m' HA. wp_step. wp_step; [by apply Hdrv|].
    change (answers_problem (u 0%nat) (answer_ids i u) (si_Answers i) (proposal_answers d) = None) in HA.
    assert (tx_spec i d (Draw t u) = inl (proposal_of (u 0%nat) i, submitted i u t d)) as HS.
    { unfold tx_spec, children_problem. cbn [ids began]. rewrite HP, HM.
      by rewrite HA. }
    assert (default "" (bpchar 3 (si_Currency i)) = cur) as Hcur by by rewrite CUR.
    unfold submitted in HS. rewrite Hcur in HS.
    repeat wp_step; try discriminate; [| |by apply Hdrv]; (split; [done|]); left.
    + by apply (settles_ok _ _ _ (Draw t u)).
    + by apply (settles_lost _ _ _ (Draw t u) (proposal_of (u 0%nat) i)).
Qed.

Lemma submit_tx_meets i m :
  wp (submit_tx i) ev (World d NoTx m) (ended (ends_as (tx_spec i d))).
Proof.
  unfold submit_tx. wp_step; [split; [done|]; left; by apply settles_failed|].
  set (t := clock ev m). set (u := fun j => gen_uuid ev (S m + j)).
  assert (u 0%nat = gen_uuid ev (S m)) as Hu0 by (unfold u; by rewrite Nat.add_0_r).
  assert (drawn ev (Draw t u)) as HD by (split; [by exists m|intros j; by eexists]).
  set (K := fun r => match r : res proposal_err string with Ok id => _ | Err e => _ end).
  set (Q := fun (r : res proposal_err Proposal) (w : world proposal_db) =>
    ended (ends_as (tx_spec i d)) r (World (committed w) NoTx (tick w))).
  assert (forall e w, committed w = d -> proposal_problem i d (gen_uuid ev (S m)) = Some e ->
    wp (K (Err (Db e))) ev w Q) as Hbad.
  { intros e w Hw HP. unfold K.
    assert (Q (Err (if isUniqueViolation (Db e) then Dom ErrDuplicateProposal else Db e)) w) as HQ.
    { split; [done|]. cbn [committed]. rewrite Hw. left. apply (settles_err _ _ _ (Draw t u)); [done|].
      unfold tx_spec. cbn [ids]. by rewrite Hu0, HP. }
    by destruct (isUniqueViolation (Db e)); apply wp_throw. }
  wp_step. apply wp_attempt. unfold InsertProposal, proposal_problem in *.
  cbn [proposal_of p_EstimatedDurationDays p_ConnectsSpent].
  wp_step; [wp_step; by apply Hbad|]. apply wp_bind, wp_exec.
  { intros NC. unfold K. destruct (isUniqueViolation (Db Driver)) eqn:UV; wp_step; (split; [done|]);
      [by right|left; by apply settles_failed]. }
  unfold insert_proposal, insert_row. cbn [proposal_of p_Currency p_ProjectID rows proposals_t fresh].
  fold (proposal_of "" i). destruct (bpchar 3 (si_Currency i)) as [cur|] eqn:CUR; [|by apply Hbad].
  destruct (first_violation _) as [e|] eqn:CK; [by apply Hbad|].
  wp_step. cbn [new_proposal p_ID]. rewrite <- Hu0 in *.
  apply (submit_children i cur u t m); try done.
  - unfold proposal_problem. by rewrite Heqb, CUR, CK.
  - apply first_violation_None in CK. by inversion CK.
Qed.

Lemma submit_proposal_meets i :
  wp (SubmitProposal i) ev (rest d n) (ended (ends_as (submit_spec i d))).
Proof.
  unfold SubmitProposal, submit_spec, rest. destruct (si_BidAmountCents i <=? 0).
  - apply wp_throw. split; [done|]. left.
    apply (settles_err _ _ _ (Draw (clock ev 0) (gen_uuid ev))); [|done].
    split; [by eexists|intros j; by eexists].
  - apply submit_tx_meets.
Qed.
End Meets.
