(* ===== verification/ProposalProofs.v ===== *)
(** * Properties of the proposal service *)
From S2P Require Export ProposalSpec.

(** ** Operations and reachable databases *)

Inductive proposal_op :=
| OpSubmit (i : SubmitInput)
| OpWithdraw (id freelancerID : string)
| OpShortlist (id actor : string).

(** A bid is a Go int64. *)
Definition pop_in_range (op : proposal_op) : Prop :=
  match op with OpSubmit i => int64_min <= si_BidAmountCents i <= int64_max | _ => True end.

(** The database after a call on a world at rest. *)
Definition pafter {A} (m : pprog A) (ev : env) (d : proposal_db) (n : nat) : proposal_db :=
  committed (snd (m ev (rest d n))).

Definition add_project (pr : Project) (d : proposal_db) : proposal_db :=
  put projects_t (projects d ++ [pr]) d.

(** ** The invariant *)

(** The types of the events that lead to a status. *)
Definition history_ok (status : string) (h : list string) : Prop :=
  (status = "submitted" /\ h = ["proposal.submitted"]) \/
  (status = "shortlisted" /\ h = ["proposal.submitted"; "proposal.shortlisted"]) \/
  (status = "withdrawn" /\ (h = ["proposal.submitted"; "proposal.withdrawn"] \/
     h = ["proposal.submitted"; "proposal.shortlisted"; "proposal.withdrawn"])).

Definition history (id : string) (d : proposal_db) : list string :=
  map event_type (events_about id (proposal_outbox d)).

Definition proposal_ok (p : Proposal) : Prop :=
  0 < p_BidAmountCents p <= int64_max /\
  (p_withdrawn_at p <> None <-> p_Status p = "withdrawn").

Record proposal_inv (d : proposal_db) : Prop := {
  prinv_projects : keyed pj_id (projects d);
  prinv_ids : keyed p_ID (proposals d);
  prinv_pair p q : In p (proposals d) -> In q (proposals d) ->
    p_ProjectID p = p_ProjectID q -> p_FreelancerID p = p_FreelancerID q -> p = q;
  prinv_project p : In p (proposals d) -> In (p_ProjectID p) (map pj_id (projects d));
  prinv_rows p : In p (proposals d) -> proposal_ok p;
  prinv_history p : In p (proposals d) -> history_ok (p_Status p) (history (p_ID p) d);
  prinv_about r : In r (proposal_outbox d) -> In (aggregate_id r) (map p_ID (proposals d))
}.

Lemma empty_proposal_inv : proposal_inv empty_proposal_db.
Proof. by constructor; try done; constructor. Qed.

Lemma add_project_inv pr d :
  proposal_inv d -> ~ In (pj_id pr) (map pj_id (projects d)) -> proposal_inv (add_project pr d).
Proof.
  intros [H1 H2 H3 H4 H5 H6 H7] Hn.
  constructor; cbn [add_project put projects_t projects proposals proposal_outbox]; auto.
  - by apply keyed_snoc.
  - intros p Hp. rewrite map_app. apply in_app_iff. left. auto.
Qed.

(** A proposal moved, with the event that says so. *)
Lemma proposal_moved_inv d id f e t p :
  proposal_inv d -> find_proposal id d = Some p -> AggregateID e = id ->
  (forall x, p_ID (f x) = p_ID x /\ p_ProjectID (f x) = p_ProjectID x /\
     p_FreelancerID (f x) = p_FreelancerID x) ->
  proposal_ok (f p) -> history_ok (p_Status (f p)) (history id d ++ [EventType e]) ->
  proposal_inv (announce e t (set_proposal id f d)).
Proof.
  intros [H1 H2 H3 H4 H5 H6 H7] HF He Hf Hok Hh. destruct (find_key_In HF) as [Hp Hid].
  assert (forall x, p_ID (f x) = p_ID x) as Hfid by (intros x; apply Hf).
  assert (forall x, In x (update_where (has_key p_ID id) f (proposals d)) ->
    exists y, In y (proposals d) /\ ((x = y /\ p_ID y <> id) \/ (y = p /\ x = f p))) as Hin.
  { intros x [[Hx K]|(y & Hy & K & ->)]%In_update.
    - exists x. split; [done|]. left. by rewrite has_key_false in K.
    - apply has_key_true in K. assert (y = p) as -> by (by eapply (keyed_inj p_ID); eauto; congruence). eauto. }
  constructor; cbn [announce set_proposal put proposals_t proposal_HasOutbox projects proposals proposal_outbox]; auto.
  - by apply keyed_update.
  - intros x y Hx Hy E1 E2. apply in_map_iff in Hx as (x0 & <- & Hx), Hy as (y0 & <- & Hy).
    assert (x0 = y0) as ->; [|done]. apply H3; [done|done| |].
    + revert E1. destruct (has_key _ _ x0), (has_key _ _ y0);
        repeat match goal with |- context [f ?z] => destruct (Hf z) as (_ & -> & _) end; done.
    + revert E2. destruct (has_key _ _ x0), (has_key _ _ y0);
        repeat match goal with |- context [f ?z] => destruct (Hf z) as (_ & _ & ->) end; done.
  - intros x (y & Hy & [[-> _]|[-> ->]])%Hin; [auto|]. destruct (Hf p) as (_ & -> & _). auto.
  - intros x (y & Hy & [[-> _]|[-> ->]])%Hin; auto.
  - intros x (y & Hy & [[-> K]|[-> ->]])%Hin; unfold history; cbn [proposal_outbox];
      rewrite history_announce, He.
    + rewrite (proj2 (String.eqb_neq id (p_ID y))) by congruence. rewrite app_nil_r. by apply H6.
    + rewrite Hfid, Hid, String.eqb_refl. exact Hh.
  - intros r [Hr|[<-|[]]]%in_app_iff; rewrite map_key_update by done; [auto|].
    cbn. rewrite He, <- Hid. by apply in_map.
Qed.

(** A new proposal. *)
Lemma submitted_inv i u t d :
  proposal_inv d -> 0 < si_BidAmountCents i <= int64_max -> proposal_problem i d (u 0%nat) = None ->
  proposal_inv (submitted i u t d).
Proof.
  intros [H1 H2 H3 H4 H5 H6 H7] Hbid HP. unfold proposal_problem in HP.
  destruct (negb _); [done|]. unfold submitted. destruct (bpchar 3 (si_Currency i)) as [cur|]; [|done].
  cbn [default]. set (row := new_proposal (u 0%nat) cur (proposal_of "" i)) in *.
  rewrite first_violation_None in HP. inversion HP as [|? ? CK HP1]; subst. inversion HP1 as [|? ? FK _]; subst.
  apply proposal_check_new in CK as [Hnew Hpair]. change (p_ID row) with (u 0%nat) in Hnew.
  assert (history (u 0%nat) d = []) as Hnone.
  { unfold history, events_about.
    assert (List.filter (has_key aggregate_id (u 0%nat)) (proposal_outbox d) = []) as ->; [|done].
    apply (select_none (has_key aggregate_id (u 0%nat))). intros r Hr. apply has_key_false.
    intros E. destruct Hnew. rewrite <- E. auto. }
  constructor; cbn [announce put proposal_HasOutbox projects proposals proposal_outbox]; auto.
  - by apply keyed_snoc.
  - intros p q [Hp|[<-|[]]]%in_app_iff [Hq|[<-|[]]]%in_app_iff E1 E2; auto.
    + by destruct (Hpair p Hp).
    + by destruct (Hpair q Hq).
  - intros p [Hp|[<-|[]]]%in_app_iff; [auto|]. cbn. unfold references in FK.
    destruct (existsb _ (projects d)) eqn:X; [|done].
    apply existsb_exists in X as (pr & Hpr & <-%has_key_true). by apply in_map.
  - intros p [Hp|[<-|[]]]%in_app_iff; [auto|]. split; [done|]. cbn. by split.
  - intros p [Hp|[<-|[]]]%in_app_iff; unfold history; cbn [proposal_outbox]; rewrite history_announce;
      cbn [submitted_event AggregateID EventType].
    + rewrite (proj2 (String.eqb_neq (u 0%nat) (p_ID p))), app_nil_r; [by apply H6|].
      intros E. destruct Hnew. rewrite E. by apply in_map.
    + cbn [row new_proposal p_ID p_Status]. rewrite String.eqb_refl. unfold history in Hnone. rewrite Hnone.
      by left.
  - intros r [Hr|[<-|[]]]%in_app_iff; rewrite map_app; apply in_app_iff; [left; auto|right]. cbn. by left.
Qed.

Lemma withdrawable_from p fl : withdrawable fl p = true ->
  p_FreelancerID p = fl /\ (p_Status p = "submitted" \/ p_Status p = "shortlisted").
Proof.
  unfold withdrawable, in_status. intros [Hf Hs]%andb_true_iff. apply has_key_true in Hf. split; [done|].
  apply existsb_exists in Hs as (x & [<-|[<-|[]]] & E%String.eqb_eq); auto.
Qed.

Lemma withdrawn_inv d id p fl t :
  proposal_inv d -> find_proposal id d = Some p -> withdrawable fl p = true ->
  proposal_inv (announce (withdrawn_event id fl) t (set_proposal id (withdrawn t) d)).
Proof.
  intros HI HF [_ HS]%withdrawable_from. destruct (find_key_In HF) as [Hp Hid].
  pose proof (prinv_history d HI p Hp) as HH. rewrite Hid in HH.
  apply (proposal_moved_inv d id (withdrawn t) _ t p); try done.
  - split; [apply (prinv_rows d HI p Hp)|]. by split.
  - unfold history_ok in *. right. right. split; [done|]. cbn [withdrawn_event EventType].
    destruct HH as [[_ ->]|[[_ ->]|[E _]]]; [auto..|]. rewrite E in HS. by destruct HS.
Qed.

Lemma shortlisted_inv d id p actor t :
  proposal_inv d -> find_proposal id d = Some p -> p_Status p = "submitted" ->
  proposal_inv (announce (shortlisted_event id actor) t (set_proposal id shortlisted d)).
Proof.
  intros HI HF HS. destruct (find_key_In HF) as [Hp Hid].
  pose proof (prinv_history d HI p Hp) as HH. rewrite Hid in HH.
  apply (proposal_moved_inv d id shortlisted _ t p); try done.
  - destruct (prinv_rows d HI p Hp) as [? HW]. split; [done|]. cbn. rewrite HW, HS. by split.
  - unfold history_ok in *. right. left. split; [done|]. cbn [shortlisted_event EventType].
    destruct HH as [[_ ->]|[[E _]|[E _]]]; [done|by rewrite E in HS..].
Qed.

(** ** Calls *)

Section Service.
Context `{PgErrorText}.

Definition run_pop (op : proposal_op) : pprog unit :=
  match op with
  | OpSubmit i => SubmitProposal i ;;; ret tt
  | OpWithdraw id fl => WithdrawProposal id fl
  | OpShortlist id actor => ShortlistProposal id actor
  end.

(** Calls of the service, and new projects of the project service. *)
Inductive proposal_reachable : proposal_db -> Prop :=
| preach_empty : proposal_reachable empty_proposal_db
| preach_op d op ev n : proposal_reachable d -> pop_in_range op ->
    proposal_reachable (pafter (run_pop op) ev d n)
| preach_project d pr : proposal_reachable d -> ~ In (pj_id pr) (map pj_id (projects d)) ->
    proposal_reachable (add_project pr d).

(** What a call may leave behind. *)
Inductive pop_effect : proposal_op -> proposal_db -> proposal_db -> Prop :=
| peff_none op d : pop_effect op d d
| peff_submit i s p d d' : submit_spec i d s = inl (p, d') -> pop_effect (OpSubmit i) d d'
| peff_withdraw id fl s d d' : withdraw_spec id fl d s = inl (tt, d') -> pop_effect (OpWithdraw id fl) d d'
| peff_shortlist id actor s d d' :
    shortlist_spec id actor d s = inl (tt, d') -> pop_effect (OpShortlist id actor) d d'.

Lemma proposal_calls_meet op ev d n :
  proposal_inv d -> wp (run_pop op) ev (rest d n) (fun _ w => pop_effect op d (committed w)).
Proof.
  intros HI. pose proof (prinv_ids d HI) as HK. destruct op; cbn [run_pop].
  - apply wp_bind. eapply wp_mono; [by apply submit_proposal_meets|].
    intros r w [_ HO]. assert (pop_effect (OpSubmit i) d (committed w)) as HE.
    { destruct HO as [[->|(s & p & HS)]%settles_changed|(_ & _ & _ & ->)];
        [by constructor|by eapply peff_submit|by constructor]. }
    by destruct r; try apply wp_ret.
  - eapply wp_mono; [by apply withdraw_meets|].
    intros r w [_ [->|(s & [] & HS)]%settles_changed]; [by constructor|by eapply peff_withdraw].
  - eapply wp_mono; [by apply shortlist_meets|].
    intros r w [_ [->|(s & [] & HS)]%settles_changed]; [by constructor|by eapply peff_shortlist].
Qed.

Lemma withdraw_spec_ok id fl d s d' : withdraw_spec id fl d s = inl (tt, d') ->
  exists p, find_proposal id d = Some p /\ withdrawable fl p = true /\
    d' = announce (withdrawn_event id fl) (began s) (set_proposal id (withdrawn (began s)) d).
Proof.
  unfold withdraw_spec. destruct (find_proposal id d) as [p|]; [|done].
  destruct (withdrawable fl p) eqn:W; [|done]. intros [= <-]. eauto.
Qed.

Lemma shortlist_spec_ok id actor d s d' : shortlist_spec id actor d s = inl (tt, d') ->
  actor <> "" /\ client_of_proposal id d = Some actor /\
  exists p, find_proposal id d = Some p /\ p_Status p = "submitted" /\
    d' = announce (shortlisted_event id actor) (began s) (set_proposal id shortlisted d).
Proof.
  unfold shortlist_spec. destruct (String.eqb_spec actor ""); [done|].
  destruct (client_of_proposal id d) as [c|]; [|done].
  destruct (String.eqb_spec c actor) as [->|]; cbn [negb]; [|done].
  destruct (find_proposal id d) as [p|]; [|done]. unfold in_status. cbn [existsb]. rewrite orb_false_r.
  destruct (String.eqb_spec (p_Status p) "submitted"); [|done]. intros [= <-]. eauto 8.
Qed.

Lemma submit_spec_ok i d s p d' : submit_spec i d s = inl (p, d') ->
  0 < si_BidAmountCents i /\ proposal_problem (currency_or_usd i) d (ids s 0%nat) = None /\
  p = proposal_of (ids s 0%nat) (currency_or_usd i) /\ d' = submitted (currency_or_usd i) (ids s) (began s) d.
Proof.
  unfold submit_spec, tx_spec. destruct (Z.leb_spec (si_BidAmountCents i) 0); [done|].
  destruct (proposal_problem _ _ _); [done|]. destruct (children_problem _ _ _); [done|].
  by intros [= <- <-].
Qed.

Lemma proposal_effect_inv op d d' :
  proposal_inv d -> pop_in_range op -> pop_effect op d d' -> proposal_inv d'.
Proof.
  intros HI Hr HE. destruct HE as [|i s p d d' HS|id fl s d d' HS|id actor s d d' HS].
  - done.
  - apply submit_spec_ok in HS as (Hb & HP & _ & ->). cbn in Hr. apply submitted_inv; [done|cbn; lia|done].
  - apply withdraw_spec_ok in HS as (p & HF & HW & ->). by apply (withdrawn_inv d id p).
  - apply shortlist_spec_ok in HS as (_ & _ & p & HF & HS & ->). by apply (shortlisted_inv d id p).
Qed.

Lemma proposal_reachable_inv d : proposal_reachable d -> proposal_inv d.
Proof.
  induction 1 as [|d op ev n Hd IH Hr|d pr Hd IH Hn]; [apply empty_proposal_inv| |by apply add_project_inv].
  eapply proposal_effect_inv; [done|done|]. exact (proposal_calls_meet op ev d n IH).
Qed.
End Service.

(** ** Theorems *)

Section Theorems.
Context `{PgErrorText}.

(** Refinement of the proposal operations. From any reachable database and
    under any faults, each call closes its transaction and ends as its
    specification says: a function of the tables that gives the new tables or an
    error. An error leaves the tables as they were; a driver failure may pass for
    a duplicate proposal when its text quotes the code of one, and at the commit
    it leaves the caller in doubt. *)
Theorem proposal_ops_meet_spec d ev n :
  proposal_reachable d ->
  (forall i, wp (SubmitProposal i) ev (rest d n) (ended (ends_as ev d (submit_spec i d)))) /\
  (forall id fl, wp (WithdrawProposal id fl) ev (rest d n) (ended (settles ev d (withdraw_spec id fl d)))) /\
  (forall id actor, wp (ShortlistProposal id actor) ev (rest d n)
     (ended (settles ev d (shortlist_spec id actor d)))).
Proof.
  intros Hd. pose proof (prinv_ids d (proposal_reachable_inv d Hd)).
  split; [intros; by apply submit_proposal_meets|].
  split; [intros; by apply withdraw_meets|intros; by apply shortlist_meets].
Qed.

(** The events of a proposal tell its life. In every reachable database the
    events of the outbox about a proposal are its submission, then at most one
    shortlisting, then at most one withdrawal, and they are those of the status
    it has; no event is about anything else. *)
Theorem proposal_history_tells_status d :
  proposal_reachable d ->
  (forall p, In p (proposals d) -> history_ok (p_Status p) (history (p_ID p) d)) /\
  (forall r, In r (proposal_outbox d) -> In (aggregate_id r) (map p_ID (proposals d))).
Proof.
  intros Hd. pose proof (proposal_reachable_inv d Hd) as HI.
  split; [apply (prinv_history d HI)|apply (prinv_about d HI)].
Qed.





End Theorems.

(** ** Error texts *)

Lemma substring_prefix s k : exists b, s = (String.substring 0 k s ++ b)%string.
Proof.
  revert k. induction s as [|c s IH]; intros [|k]; [by exists ""|by exists ""|by exists (String c s)|].
  destruct (IH k) as [b E]. exists b.
  change (String c s = String c (String.substring 0 k s ++ b)). by f_equal.
Qed.

Lemma substring_split s i k :
  (i <= String.length s)%nat -> exists a b, s = (a ++ String.substring i k s ++ b)%string.
Proof.
  revert i. induction s as [|c s IH]; intros [|i] Hl.
  - exists "". apply (substring_prefix "" k).
  - cbn in Hl. lia.
  - exists "". apply (substring_prefix (String c s) k).
  - destruct (IH i) as (a & b & E); [cbn in Hl; lia|]. exists (String c a), b.
    change (String c s = String c (a ++ String.substring i k s ++ b)). by f_equal.
Qed.

(** The loop of [contains] finds exactly the substrings. *)
Lemma contains_spec s sub : contains s sub = true <-> exists a b, s = (a ++ sub ++ b)%string.
Proof.
  unfold contains. rewrite existsb_exists. split.
  - intros (i & [_ Hi]%in_seq & E%String.eqb_eq).
    destruct (substring_split s i (String.length sub)) as (a & b & ES); [lia|]. rewrite E in ES. eauto.
  - intros (a & b & ->). exists (String.length a). split; [|apply String.eqb_eq, substring_app].
    apply in_seq. rewrite !string_length_app. lia.
Qed.

(** ** Concrete databases, for the witnesses *)

(** Error texts as pgx prints them; a number that does not fit its column is
    quoted. *)
Definition demo_text (e : dberr) : string :=
  match e with
  | UniqueViolation c =>
      ("ERROR: duplicate key value violates unique constraint " ++ c ++ " (SQLSTATE 23505)")%string
  | ScanError => "unable to encode 2350500000 into binary format for int4 (OID 23)"
  | _ => "ERROR: statement failed (SQLSTATE 22001)"
  end.

#[export, refine] Instance demo_errors : PgErrorText := { error_text := demo_text }.
Proof.
  intros c. apply contains_spec.
  exists ("ERROR: duplicate key value violates unique constraint " ++ c ++ " (SQLSTATE ")%string, ")".
  unfold demo_text. rewrite <- !string_app_assoc. done.
Defined.

Definition demo_bid : SubmitInput :=
  mkSubmitInput "j1" "bob" "hello" 500 "EUR" (Some 10) 2
    [mkMilestoneInput 1 "design" 200 None; mkMilestoneInput 2 "build" 300 (Some 7)]
    [mkAnswerInput "why" "because"].

Definition project_db : proposal_db := add_project (mkProject "j1" "alice") empty_proposal_db.

(** A bid of bob on the project of alice. *)
Definition bid_db : proposal_db := Eval vm_compute in pafter (run_pop (OpSubmit demo_bid)) quiet_env project_db 0.

Definition demo_row : Proposal := Eval vm_compute in hd (proposal_of "" demo_bid) (proposals bid_db).

Definition short_db : proposal_db :=
  Eval vm_compute in pafter (run_pop (OpShortlist (p_ID demo_row) "alice")) quiet_env bid_db 20.

Definition short_row : Proposal := Eval vm_compute in hd demo_row (proposals short_db).

Lemma project_reachable : proposal_reachable project_db.
Proof. apply preach_project; [constructor|]. intros []. Qed.

Lemma bid_reachable : proposal_reachable bid_db.
Proof.
  change bid_db with (pafter (run_pop (OpSubmit demo_bid)) quiet_env project_db 0).
  apply preach_op; [apply project_reachable|]. cbn. unfold int64_min, int64_max. lia.
Qed.

Lemma short_reachable : proposal_reachable short_db.
Proof.
  change short_db with (pafter (run_pop (OpShortlist (p_ID demo_row) "alice")) quiet_env bid_db 20).
  apply preach_op; [apply bid_reachable|done].
Qed.

Example short_status : p_Status short_row = "shortlisted" /\ List.length (proposal_milestones short_db) = 2%nat.
Proof. split; reflexivity. Qed.

(** A number too large for its column passes for a duplicate when the text of
    the refusal quotes digits 23505: nothing is stored, and nothing was there. *)
Lemma quoted_number_passes_for_duplicate :
  fst (SubmitProposal (mkSubmitInput "j1" "bob" "hello" 500 "EUR" None 2350500000 [] []) quiet_env
         (rest project_db 0)) = Err (Dom ErrDuplicateProposal) /\ proposals project_db = [].
Proof. split; reflexivity. Qed.

Lemma proposal_ops_meet_spec_witness :
  wp (WithdrawProposal (p_ID demo_row) "bob") quiet_env (rest short_db 30)
    (ended (settles quiet_env short_db (withdraw_spec (p_ID demo_row) "bob" short_db))).
Proof. exact (proj1 (proj2 (proposal_ops_meet_spec short_db quiet_env 30 short_reachable)) (p_ID demo_row) "bob"). Defined.

Lemma proposal_history_tells_status_witness : history_ok (p_Status short_row) (history (p_ID short_row) short_db).
Proof.
  apply (proposal_history_tells_status short_db short_reachable). left. reflexivity.
Defined.





