(* ===== verification/ProposalHttp.v ===== *)
(** * Proposal REST transport (services/proposal/internal/httpapi) *)
From S2P Require Export ProposalProofs Gateway.
From S2P Require ProposalLookup.

Definition mapError (e : err proposal_err) : response :=
  match e with
  | Dom ErrInvalidBid => writeErr 400 "INVALID_BID" "bid amount must be positive"
  | Dom ErrDuplicateProposal =>
      writeErr 409 "DUPLICATE_PROPOSAL" "you have already submitted a proposal for this project"
  | Dom ErrInvalidState =>
      writeErr 409 "INVALID_STATE" "proposal is not in a valid state for this operation"
  | Dom ErrNotFound => writeErr 404 "NOT_FOUND" "proposal not found"
  | Dom ErrForbidden => writeErr 403 "FORBIDDEN" "not permitted"
  | Db _ => writeErr 500 "INTERNAL" "something went wrong"
  end.

(** ** Request bodies *)

Record milestoneReq := mkMilestoneReq {
  mr_Seq : Z;
  mr_Title : string;
  mr_AmountCents : Z;
  mr_DueDays : option Z
}.

Definition decode_milestoneReq (j : json) : option milestoneReq :=
  match j with
  | JObj o =>
      match int_field "seq" o, str_field "title" o, int_field "amount_cents" o,
            field (into_opt as_int64) None "due_days" o with
      | Some s, Some t, Some a, Some d => Some (mkMilestoneReq s t a d)
      | _, _, _, _ => None
      end
  | _ => None
  end.

Record answerReq := mkAnswerReq { ar_Question : string; ar_Answer : string }.

Definition decode_answerReq (j : json) : option answerReq :=
  match j with
  | JObj o =>
      match str_field "question" o, str_field "answer" o with
      | Some q, Some a => Some (mkAnswerReq q a)
      | _, _ => None
      end
  | _ => None
  end.

Record submitReq := mkSubmitReq {
  sr_ProjectID : string;
  sr_CoverLetter : string;
  sr_BidAmountCents : Z;
  sr_Currency : string;
  sr_EstimatedDurationDays : option Z;
  sr_ConnectsSpent : Z;
  sr_Milestones : list milestoneReq;
  sr_Answers : list answerReq
}.

Definition decode_submitReq (o : list (string * json)) : option submitReq :=
  match str_field "project_id" o, str_field "cover_letter" o, int_field "bid_amount_cents" o,
        str_field "currency" o with
  | Some pj, Some cl, Some bid, Some cur =>
      match field (into_opt as_int64) None "estimated_duration_days" o, int_field "connects_spent" o,
            field (into_slice (mkMilestoneReq 0 "" 0 None) decode_milestoneReq) None "milestones" o,
            field (into_slice (mkAnswerReq "" "") decode_answerReq) None "answers" o with
      | Some dur, Some con, Some ms, Some ans =>
          Some (mkSubmitReq pj cl bid cur dur con (default [] ms) (default [] ans))
      | _, _, _, _ => None
      end
  | _, _, _, _ => None
  end.

Definition submit_input (uid : string) (req : submitReq) : SubmitInput :=
  mkSubmitInput (sr_ProjectID req) uid (sr_CoverLetter req) (sr_BidAmountCents req) (sr_Currency req)
    (sr_EstimatedDurationDays req) (sr_ConnectsSpent req)
    (map (fun m => mkMilestoneInput (mr_Seq m) (mr_Title m) (mr_AmountCents m) (mr_DueDays m)) (sr_Milestones req))
    (map (fun a => mkAnswerInput (ar_Question a) (ar_Answer a)) (sr_Answers req)).

(** ** Responses *)

Definition proposal_fields (p : Proposal) : list (string * json) :=
  [("id", JStr (p_ID p)); ("project_id", JStr (p_ProjectID p)); ("freelancer_id", JStr (p_FreelancerID p));
   ("cover_letter", JStr (p_CoverLetter p)); ("bid_amount_cents", JInt (p_BidAmountCents p));
   ("currency", JStr (p_Currency p)); ("estimated_duration_days", jopt JInt (p_EstimatedDurationDays p));
   ("status", JStr (p_Status p)); ("connects_spent", JInt (p_ConnectsSpent p))].

Definition proposalJSON (p : Proposal) : json := JObj (proposal_fields p).

Definition proposalsJSON (ps : list Proposal) : json := JList (map proposalJSON ps).

Definition milestoneJSON (m : Milestone) : json :=
  JObj [("id", JStr (pm_ID m)); ("seq", JInt (pm_Seq m)); ("title", JStr (pm_Title m));
        ("amount_cents", JInt (pm_AmountCents m)); ("due_days", jopt JInt (pm_DueDays m))].

(** The struct tags of ContractProposal. *)
Definition contractProposalJSON (c : ContractProposal) : json :=
  JObj [("proposal_id", JStr (cp_ProposalID c)); ("project_id", JStr (cp_ProjectID c));
        ("project_client_id", JStr (cp_ProjectClientID c)); ("freelancer_id", JStr (cp_FreelancerID c));
        ("status", JStr (cp_Status c)); ("bid_amount_cents", JInt (cp_BidAmountCents c));
        ("currency", JStr (cp_Currency c))].

(** ** Handlers *)

Section Api.
Context `{PgErrorText}.

Definition internalProposal (r : request) : pprog response :=
  cp <-? or_mapped mapError (ProposalForContract (urlParam r "id")) ;;
  ret (writeJSON 200 (contractProposalJSON cp)).

Definition submit (r : request) : pprog response :=
  uid <-? authenticated r ;;
  req <-? decode decode_submitReq r ;;
  if String.eqb (sr_ProjectID req) ""
  then ret (writeErr 400 "VALIDATION_FAILED" "project_id is required") else
  p <-? or_mapped mapError (SubmitProposal (submit_input uid req)) ;;
  ret (writeJSON 201 (proposalJSON p)).

Definition get (r : request) : pprog response :=
  view <-? or_mapped mapError (GetProposal (urlParam r "id")) ;;
  ret (writeJSON 200 (JObj (proposal_fields (v_Proposal view) ++
    [("milestones", JList (map milestoneJSON (v_Milestones view)))]))).

Definition withdraw (r : request) : pprog response :=
  uid <-? authenticated r ;;
  _ <-? or_mapped mapError (WithdrawProposal (urlParam r "id") uid) ;;
  ret (writeJSON 200 success).

Definition shortlist (r : request) : pprog response :=
  uid <-? authenticated r ;;
  _ <-? or_mapped mapError (ShortlistProposal (urlParam r "id") uid) ;;
  ret (writeJSON 200 success).

Definition listByProject (r : request) : pprog response :=
  uid <-? authenticated r ;;
  let projectID := query r "project_id" in
  if String.eqb projectID ""
  then ret (writeErr 400 "VALIDATION_FAILED" "project_id query param is required") else
  ps <-? or_mapped mapError (ListProposalsForProject projectID (query r "status") uid) ;;
  ret (writeJSON 200 (JObj [("proposals", proposalsJSON ps)])).

Definition listMine (r : request) : pprog response :=
  uid <-? authenticated r ;;
  ps <-? or_mapped mapError (ListProposalsForFreelancer uid) ;;
  ret (writeJSON 200 (JObj [("proposals", proposalsJSON ps)])).

(** The routes (API.Routes). *)
Inductive proposal_route := RSubmit | RListByProject | RListMine | RGet | RWithdraw | RShortlist | RInternal.

Definition serve (m : proposal_route) : request -> pprog response :=
  match m with
  | RSubmit => submit
  | RListByProject => listByProject
  | RListMine => listMine
  | RGet => get
  | RWithdraw => withdraw
  | RShortlist => shortlist
  | RInternal => internalProposal
  end.
End Api.

Ltac wp_hook ::=
  lazymatch goal with
  | |- wp (bind_ok _ _) _ _ _ => apply wp_bind_ok
  | |- wp (ListMilestones _) _ _ _ => apply (wp_listing proposal_milestones_t); [intros ?NC|]
  | |- wp (ListForProject _ _) _ _ _ => apply wp_bind, wp_no_operator
  | |- wp (ListForFreelancer _) _ _ _ => apply (wp_listing proposals_t); [intros ?NC|]
  | |- wp (authenticated _) _ _ _ => apply wp_authenticated; [intros ?resp ?HR|intros ?HU]
  | |- wp (decode _ _) _ _ _ => apply wp_decode; [|intros ?o ?req ?HM ?HD]
  | |- wp (or_mapped _ _) _ _ _ => apply wp_or_mapped
  | |- _ => proposal_rules
  end.

(** ** Theorems *)

Section Theorems.
Context `{PgErrorText}.

(** Who may make the change a route made, from [d] to [d']. *)
Definition authorized (m : proposal_route) (r : request) (d d' : proposal_db) : Prop :=
  let uid := header r "X-User-Id" in
  uid <> "" /\
  match m with
  | RSubmit => exists p, proposals d' = proposals d ++ [p] /\ p_FreelancerID p = uid /\
      p_Status p = "submitted" /\ 0 < p_BidAmountCents p
  | RWithdraw => exists p, find_proposal (urlParam r "id") d = Some p /\ p_FreelancerID p = uid
  | RShortlist => client_of_proposal (urlParam r "id") d = Some uid
  | _ => False
  end.

(** The change each call makes is authorized. *)
Lemma effect_authorized_submit r i d d' :
  header r "X-User-Id" <> "" -> si_FreelancerID i = header r "X-User-Id" ->
  pop_effect (OpSubmit i) d d' -> d' = d \/ authorized RSubmit r d d'.
Proof.
  intros Hu Hi HE. inversion HE as [|i0 s p d0 d1 HS| |]; subst; [by left|right].
  apply submit_spec_ok in HS as (Hb & _ & _ & ->). split; [done|].
  eexists. split; [reflexivity|]. by repeat split.
Qed.

(** Proposals change only for those who may change them. If serving a request
    on any route changed the tables, the request carried a user id and: a new
    proposal is that user's own, with a positive bid; a proposal was withdrawn by
    its freelancer, or shortlisted by the client of its project. The reading
    routes change nothing. *)
Theorem proposal_changes_are_authorized m r ev d n :
  proposal_reachable d -> pafter (serve m r) ev d n <> d -> authorized m r d (pafter (serve m r) ev d n).
Proof.
  intros Hd Hne. pose proof (proposal_reachable_inv d Hd) as HI.
  set (Q := fun d' => d' = d \/ authorized m r d d').
  cut (wp (serve m r) ev (rest d n) (fun _ w => Q (committed w))); [by intros [?|?]|].
  assert (forall op k, (forall d', pop_effect op d d' -> Q d') ->
    wp (run_pop op) ev (World d NoTx k) (fun _ w => Q (committed w))) as Hrun.
  { intros op k HQ. eapply wp_mono; [apply (proposal_calls_meet op ev d k HI)|].
    intros x w HE. by apply HQ. }
  unfold rest. destruct m; cbn [serve];
    unfold submit, listByProject, listMine, get, withdraw, shortlist, internalProposal,
      GetProposal, ProposalForContract, ListProposalsForProject, ListProposalsForFreelancer.
  2-4, 7: repeat wp_step; by left.
  all: repeat lazymatch goal with
  | |- wp (bind_ok (or_mapped _ _) _) _ _ _ => fail
  | |- _ => wp_step
  end; try (by left).
  all: apply wp_service; [|intros a w P HP; by apply wp_ret].
  - apply wp_drop_answer, (Hrun (OpSubmit (submit_input (header r "X-User-Id") req))).
    intros d' HE. by apply (effect_authorized_submit r (submit_input (header r "X-User-Id") req)).
  - apply (Hrun (OpWithdraw _ _)). intros d' HE.
    inversion HE as [| |id fl s d0 d1 HS|]; subst; [by left|right].
    apply withdraw_spec_ok in HS as (p & HF & [HW _]%withdrawable_from & _). split; [done|]. eauto.
  - apply (Hrun (OpShortlist _ _)). intros d' HE.
    inversion HE as [| | |id actor s d0 d1 HS]; subst; [by left|right].
    apply shortlist_spec_ok in HS as (_ & HC & _). by split.
Qed.

(** Bids are listed to nobody: the statement behind the listing fails, for the
    client of the project too. *)
Lemma bids_are_never_listed r ev d n resp :
  fst (listByProject r ev (rest d n)) = Ok resp -> status resp <> 200.
Proof.
  cut (wp (listByProject r) ev (rest d n) (fun x _ => x = Ok resp -> status resp <> 200)); [done|].
  unfold listByProject, ListProposalsForProject, rest. repeat wp_step.
  all: intros [= <-]; first [done | by rewrite HR | by destruct (mapError _)].
Qed.

(** The struct tags of the two services agree, but for the width of the bid. *)
Lemma unmarshal_contract_proposal_as c :
  ProposalLookup.unmarshal_proposal (Some (contractProposalJSON c)) =
  match (match (if in_int64 (cp_BidAmountCents c) then Some (cp_BidAmountCents c) else None) with
    | Some b => Some b | None => None end) with
  | Some b => Some (ProposalLookup.mkProposal (cp_ProposalID c) (cp_ProjectID c) (cp_ProjectClientID c)
      (cp_FreelancerID c) (cp_Status c) b (cp_Currency c))
  | None => None
  end.
Proof. reflexivity. Qed.

Lemma unmarshal_contract_proposal c :
  in_int64 (cp_BidAmountCents c) = true ->
  ProposalLookup.unmarshal_proposal (Some (contractProposalJSON c)) =
  Some (ProposalLookup.mkProposal (cp_ProposalID c) (cp_ProjectID c) (cp_ProjectClientID c)
    (cp_FreelancerID c) (cp_Status c) (cp_BidAmountCents c) (cp_Currency c)).
Proof. intros Hb. by rewrite unmarshal_contract_proposal_as, Hb. Qed.

Lemma unmarshal_contract_proposal_out c :
  in_int64 (cp_BidAmountCents c) = false ->
  ProposalLookup.unmarshal_proposal (Some (contractProposalJSON c)) = None.
Proof. intros Hb. by rewrite unmarshal_contract_proposal_as, Hb. Qed.

(** The contract service reads what the proposal service stored. When nothing
    fails, the internal endpoint's answer for a stored proposal, read by the
    proposal client of the contract service, gives the proposal's project,
    freelancer, status, bid and currency and the client of its project; for an
    unknown proposal it reads as not found. *)
Theorem internal_proposal_roundtrip r ev d n :
  calm ev -> proposal_reachable d ->
  ProposalLookup.read_proposal (answer_of (fst (internalProposal r ev (rest d n)))) =
  match find_proposal (urlParam r "id") d with
  | Some p => inl (ProposalLookup.mkProposal (p_ID p) (p_ProjectID p)
      (default "" (client_of_proposal (urlParam r "id") d)) (p_FreelancerID p) (p_Status p)
      (p_BidAmountCents p) (p_Currency p))
  | None => inr ProposalLookup.LookupNotFound
  end.
Proof.
  intros HC Hd. pose proof (proposal_reachable_inv d Hd) as HI.
  set (Q := fun x : res proposal_err response => ProposalLookup.read_proposal (answer_of x) =
    match find_proposal (urlParam r "id") d with
    | Some p => inl (ProposalLookup.mkProposal (p_ID p) (p_ProjectID p)
        (default "" (client_of_proposal (urlParam r "id") d)) (p_FreelancerID p) (p_Status p)
        (p_BidAmountCents p) (p_Currency p))
    | None => inr ProposalLookup.LookupNotFound
    end).
  cut (wp (internalProposal r) ev (rest d n) (fun x _ => Q x)); [done|].
  unfold internalProposal, ProposalForContract, rest. repeat wp_step; unfold Q; try done.
  - by rewrite NF.
  - exfalso. unfold client_of_proposal in NF. rewrite FP in NF. destruct (find_key_In FP) as [Hp _].
    pose proof (prinv_project d HI p Hp) as (pr & E & Hpr)%in_map_iff.
    unfold find_project in NF. rewrite <- E, (keyed_find pj_id) in NF by (done || apply (prinv_projects d HI)).
    done.
  - rewrite FP, FC. unfold answer_of. cbn [status payload_of writeJSON].
    destruct (find_key_In FP) as [Hp _]. destruct (prinv_rows d HI p Hp) as [Hb _].
    assert (in_int64 (p_BidAmountCents p) = true) as Hin by (apply in_int64_iff; unfold int64_min; lia).
    unfold ProposalLookup.read_proposal. by rewrite unmarshal_contract_proposal by done.
Qed.
End Theorems.

(** ** Witnesses *)

Lemma proposal_changes_are_authorized_witness :
  authorized RWithdraw (demo_request_with "bob" (p_ID demo_row) (fun _ => "") None) short_db
    (pafter (serve RWithdraw (demo_request_with "bob" (p_ID demo_row) (fun _ => "") None)) quiet_env short_db 30).
Proof.
  apply (proposal_changes_are_authorized RWithdraw (demo_request_with "bob" (p_ID demo_row) (fun _ => "") None)
    quiet_env short_db 30 short_reachable).
  intros E. apply (f_equal (fun d => map p_Status (proposals d))) in E. vm_compute in E. discriminate.
Defined.

Lemma internal_proposal_roundtrip_witness :
  ProposalLookup.read_proposal (answer_of (fst (internalProposal
    (demo_request_with "" (p_ID demo_row) (fun _ => "") None) quiet_env (rest short_db 30)))) =
  inl (ProposalLookup.mkProposal (p_ID demo_row) "j1" "alice" "bob" "shortlisted" 500 "EUR").
Proof.
  exact (internal_proposal_roundtrip (demo_request_with "" (p_ID demo_row) (fun _ => "") None)
    quiet_env short_db 30 quiet_calm short_reachable).
Defined.

(** Any reader of a proposal's address reads the bid: the view asks for no
    identity. *)
Example bid_read_by_nobody :
  option_map fst (answer_of (fst (get (demo_request_with "" (p_ID demo_row) (fun _ => "") None)
    quiet_env (rest short_db 30)))) = Some 200.
Proof. reflexivity. Qed.
