(* ===== verification/Marketplace.v ===== *)
(** * The services together

    The proposal service answers the contract service, and the contract service
    answers the escrow service, through their internal endpoints.  Here the
    network parameter of each client is the server on the other side, over
    tables that may change between two requests and under any faults: what a
    contract says is what the proposal service stored, and money moves only for
    the client of a stored contract. *)
From S2P Require Export ContractProofs.
From S2P Require Strings Gateway ProposalHttp ContractHttp EscrowHttp.

(** ** Servers on the network *)

Fixpoint strip_prefix (p s : string) : option string :=
  match p, s with
  | EmptyString, _ => Some s
  | String a p', String b s' => if Ascii.eqb a b then strip_prefix p' s' else None
  | String _ _, EmptyString => None
  end.

(** The segment up to the next slash, and the rest. *)
Fixpoint segment (s : string) : string * string :=
  match s with
  | EmptyString => (EmptyString, EmptyString)
  | String c s' => if Ascii.eqb c "/" then (EmptyString, s)
                   else let '(x, y) := segment s' in (String c x, y)
  end.

Definition get_request (id : string) : Http.request :=
  Http.Request (fun _ => "") (fun _ => id) (fun _ => "") 0 None None.

Section Servers.
Context `{Strings.PgErrorText}.

(** The route GET /v1/internal/proposals/{id}, over the tables [dbs n] at the
    moment [n] of a request. *)
Definition proposal_server (baseURL : string) (dbs : nat -> ProposalStore.proposal_db) (evs : nat -> env)
  : Http.transport := fun n url =>
  match strip_prefix (baseURL ++ "/v1/internal/proposals/") url with
  | None => None
  | Some rest_ =>
      let '(id, tail) := segment rest_ in
      if String.eqb tail ""
      then Gateway.answer_of (fst (ProposalHttp.internalProposal (get_request id) (evs n) (rest (dbs n) 0)))
      else Some (404, None)
  end.
End Servers.

(** The route GET /v1/internal/contracts/{id}/parties. *)
Definition contract_server (baseURL : string) (dbs : nat -> contract_db) (evs : nat -> env)
  : Http.transport := fun n url =>
  match strip_prefix (baseURL ++ "/v1/internal/contracts/") url with
  | None => None
  | Some rest_ =>
      let '(id, tail) := segment rest_ in
      if String.eqb tail "/parties"
      then Gateway.answer_of (fst (ContractHttp.internalParties (get_request id) (evs n) (rest (dbs n) 0)))
      else Some (404, None)
  end.

Lemma strip_prefix_app p s : strip_prefix p (p ++ s) = Some s.
Proof.
  induction p as [|c p IH]; [done|].
  change ((if Ascii.eqb c c then strip_prefix p (p ++ s) else None) = Some s). by rewrite Ascii.eqb_refl.
Qed.

(** The segment of an identifier followed by a fixed tail, when it is the whole
    of what precedes the tail. *)
Lemma segment_split s x y : segment s = (x, y) -> s = (x ++ y)%string.
Proof.
  revert x y. induction s as [|c s IH]; cbn; intros x y; [by intros [= <- <-]|].
  destruct (Ascii.eqb c "/"); [by intros [= <- <-]|].
  destruct (segment s) as [x' y']. intros [= <- <-].
  change (String c s = String c (x' ++ y')). by rewrite (IH x' y').
Qed.

Lemma app_tail_inj (a b t : string) : (a ++ t = b ++ t)%string -> a = b.
Proof.
  revert b. induction a as [|c a IH]; intros [|c' b] E.
  - done.
  - exfalso. apply (f_equal String.length) in E. rewrite !Strings.string_length_app in E. cbn in E. lia.
  - exfalso. apply (f_equal String.length) in E. rewrite !Strings.string_length_app in E. cbn in E. lia.
  - injection E as -> E. f_equal. by apply IH.
Qed.

(** ** What an accepted answer means *)

Ltac answers := lazymatch goal with
  | |- wp (Http.bind_ok _ _) _ _ _ => apply Http.wp_bind_ok
  | |- wp (Http.or_mapped _ _) _ _ _ => apply Http.wp_or_mapped
  | |- wp (ProposalStore.GetProposal _) _ _ _ =>
      apply ProposalSpec.wp_GetProposalRow; [intros ?NC|intros ?NF|intros ?p ?FP]
  | |- wp (ProposalStore.ProjectClientOfProposal _) _ _ _ =>
      apply ProposalSpec.wp_ProjectClientOfProposal; [intros ?NC|intros ?NF|intros ?u ?FC]
  | |- wp (ContractStore.GetContract _) _ _ _ =>
      apply ContractHttp.wp_GetContract; [intros ?NC|intros ?NF|intros ?c ?FK]
  end.
Ltac wp_hook ::= answers.

Section Sound.
Context `{Strings.PgErrorText}.

(** Whatever fails, an answer the proposal client accepts is a stored proposal
    and the client of its project. *)
Lemma internal_proposal_sound r ev d n p :
  ProposalLookup.read_proposal (Gateway.answer_of (fst (ProposalHttp.internalProposal r ev (rest d n)))) = inl p ->
  exists q, ProposalStore.find_proposal (Http.urlParam r "id") d = Some q /\
    ProposalStore.client_of_proposal (Http.urlParam r "id") d = Some (ProposalLookup.ProjectClientID p) /\
    ProposalLookup.FreelancerID p = ProposalStore.p_FreelancerID q /\
    ProposalLookup.ProjectID p = ProposalStore.p_ProjectID q /\
    ProposalLookup.Status p = ProposalStore.p_Status q /\
    ProposalLookup.BidAmountCents p = ProposalStore.p_BidAmountCents q.
Proof.
  set (Q := fun x : res ProposalStore.proposal_err Http.response =>
    ProposalLookup.read_proposal (Gateway.answer_of x) = inl p ->
    exists q, ProposalStore.find_proposal (Http.urlParam r "id") d = Some q /\
    ProposalStore.client_of_proposal (Http.urlParam r "id") d = Some (ProposalLookup.ProjectClientID p) /\
    ProposalLookup.FreelancerID p = ProposalStore.p_FreelancerID q /\
    ProposalLookup.ProjectID p = ProposalStore.p_ProjectID q /\
    ProposalLookup.Status p = ProposalStore.p_Status q /\
    ProposalLookup.BidAmountCents p = ProposalStore.p_BidAmountCents q).
  cut (wp (ProposalHttp.internalProposal r) ev (rest d n) (fun x _ => Q x)); [done|].
  unfold ProposalHttp.internalProposal, ProposalService.ProposalForContract, rest.
  repeat wp_step; unfold Q; try discriminate.
  intros HR. exists p0. split; [done|].
  revert HR. unfold ProposalLookup.read_proposal, Gateway.answer_of.
  cbn [Http.status Http.payload_of Http.writeJSON].
  destruct (in_int64 (ProposalStore.p_BidAmountCents p0)) eqn:HB.
  - rewrite ProposalHttp.unmarshal_contract_proposal by done. intros [= <-]. by rewrite FC.
  - rewrite ProposalHttp.unmarshal_contract_proposal_out by done. done.
Qed.
End Sound.

Lemma internal_parties_sound r ev d n p :
  ContractParties.read_parties (Gateway.answer_of (fst (ContractHttp.internalParties r ev (rest d n)))) = inl p ->
  exists c, find_contract (Http.urlParam r "id") d = Some c /\
    ContractParties.ClientID p = c_ClientID c /\ ContractParties.FreelancerID p = c_FreelancerID c /\
    ContractParties.Status p = c_Status c.
Proof.
  set (Q := fun x : res contract_err Http.response =>
    ContractParties.read_parties (Gateway.answer_of x) = inl p ->
    exists c, find_contract (Http.urlParam r "id") d = Some c /\
    ContractParties.ClientID p = c_ClientID c /\ ContractParties.FreelancerID p = c_FreelancerID c /\
    ContractParties.Status p = c_Status c).
  cut (wp (ContractHttp.internalParties r) ev (rest d n) (fun x _ => Q x)); [done|].
  unfold ContractHttp.internalParties, ContractService.ContractParties, rest.
  repeat wp_step; unfold Q; try discriminate. intros [= <-]. eauto 6.
Qed.

(** ** Contracts over stored proposals *)

Section Together.
Context `{Strings.PgErrorText}.
Context (pbase : string) (pdbs : nat -> ProposalStore.proposal_db) (pevs : nat -> env).

Abbreviation net := (proposal_server pbase pdbs pevs).

Lemma proposed_stored id p :
  ProposalLookup.proposed net pbase id p ->
  exists j q, ProposalStore.find_proposal id (pdbs j) = Some q /\
    ProposalStore.client_of_proposal id (pdbs j) = Some (ProposalLookup.ProjectClientID p) /\
    ProposalLookup.FreelancerID p = ProposalStore.p_FreelancerID q /\
    ProposalLookup.ProjectID p = ProposalStore.p_ProjectID q /\
    ProposalLookup.Status p = ProposalStore.p_Status q /\
    ProposalLookup.BidAmountCents p = ProposalStore.p_BidAmountCents q.
Proof.
  intros [j HR]. exists j. revert HR. unfold proposal_server, ProposalLookup.proposal_url.
  rewrite Strings.string_app_assoc, strip_prefix_app.
  destruct (segment id) as [x y] eqn:S. apply segment_split in S.
  destruct (String.eqb_spec y "") as [->|]; [|done].
  assert (id = x) as -> by by rewrite S, Strings.string_app_nil_r. apply internal_proposal_sound.
Qed.

(** A stored proposal that the contract says: its freelancer and project, the
    client of the project, and its bid as the price. *)
Definition backed (c : Contract) : Prop :=
  exists j q, ProposalStore.find_proposal (c_ProposalID c) (pdbs j) = Some q /\
    ProposalStore.client_of_proposal (c_ProposalID c) (pdbs j) = Some (c_ClientID c) /\
    ProposalStore.p_FreelancerID q = c_FreelancerID c /\ ProposalStore.p_ProjectID q = c_ProjectID c /\
    (c_BudgetType c = "fixed" -> c_TotalAmountCents c = Some (ProposalStore.p_BidAmountCents q)) /\
    (c_BudgetType c = "hourly" -> c_HourlyRateCents c = Some (ProposalStore.p_BidAmountCents q)).

(** What no operation changes of a contract. *)
Definition same_terms (c c' : Contract) : Prop :=
  c_ProposalID c' = c_ProposalID c /\ c_ClientID c' = c_ClientID c /\ c_FreelancerID c' = c_FreelancerID c /\
  c_ProjectID c' = c_ProjectID c /\ c_BudgetType c' = c_BudgetType c /\
  c_TotalAmountCents c' = c_TotalAmountCents c /\ c_HourlyRateCents c' = c_HourlyRateCents c.

Lemma backed_same c c' : same_terms c c' -> backed c -> backed c'.
Proof. intros (E1 & E2 & E3 & E4 & E5 & E6 & E7). unfold backed. by rewrite E1, E2, E3, E4, E5, E6, E7. Qed.

Lemma in_update_same (p : Contract -> bool) f l c :
  (forall x, same_terms x (f x)) -> In c (update_where p f l) -> exists c0, In c0 l /\ same_terms c0 c.
Proof.
  intros Hf [[Hc _]|(c0 & Hc & _ & ->)]%In_update; [|eauto]. exists c. by repeat split.
Qed.

(** The contracts after an effect: old ones on their terms, or a new one on the
    terms of a proposal. *)
Lemma effect_contracts op d d' c :
  cop_effect net pbase op d d' -> In c (contracts d') ->
  (exists c0, In c0 (contracts d) /\ same_terms c0 c) \/
  (exists i p cid cur, ProposalLookup.proposed net pbase (in_ProposalID i) p /\
     acceptable i p /\ c = new_contract cid cur (contract_of "" (proposed_terms i p))).
Proof.
  intros HE Hc. destruct HE as [|i p i' s k d d' Hp DT CS|id actor s d d' H1|mid caller s d d' H1
    |mid caller note keys s d d' H1|mid caller s d d' H1|cid by_ against mid reason amount s id d d' H1].
  1: left; exists c; by repeat split.
  1: { apply derive_accepts_iff in DT as [Hacc ->]. unfold create_spec in CS.
       destruct (create_problem _ _ _); [done|]. injection CS as _ <-.
       apply in_app_iff in Hc as [Hc|[<-|[]]]; [left; exists c; by repeat split|right; eauto 10]. }
  all: left.
  - unfold activate_spec in H1. destruct (find_contract id d); [|done]. destruct (in_status _ _); [|done].
    injection H1 as <-. by eapply in_update_same in Hc.
  - unfold fund_spec in H1. destruct (move_spec _ _ _ _ _ _ _) as [[[m k] d1]|] eqn:M; [|done].
    injection H1 as <-. apply move_spec_ok in M as (_ & _ & _ & _ & ->). exists c. by repeat split.
  - unfold submit_spec in H1. destruct (move_spec _ _ _ _ _ _ _) as [[[m k] d1]|] eqn:M; [|done].
    apply move_spec_ok in M as (_ & _ & _ & _ & ->). exists c. split; [|by repeat split].
    destruct (_ || _); [|by injection H1 as <-]. destruct keys; [|done].
    destruct (existsb _ _); [done|]. by injection H1 as <-.
  - unfold approve_spec in H1. destruct (move_spec _ _ _ _ _ _ _) as [[[m k] d1]|] eqn:M; [|done].
    injection H1 as <-. apply move_spec_ok in M as (_ & _ & _ & _ & ->). exists c. by repeat split.
  - unfold dispute_spec in H1. destruct (find_contract cid d); [|done]. destruct (negb _); [done|].
    destruct (dispute_problem _ _ _); [done|]. injection H1 as _ <-. by eapply in_update_same in Hc.
Qed.

Lemma contracts_backed d c :
  contract_reachable net pbase d -> In c (contracts d) -> backed c.
Proof.
  intros Hd. revert c. induction Hd as [|d op ev n Hd IH]; [by intros c []|].
  intros c Hc. pose proof (creachable_inv _ _ d Hd) as HI.
  destruct (effect_contracts op d _ c (cop_meets net pbase op ev d n HI) Hc)
    as [(c0 & Hc0 & HS)|(i & p & cid & cur & Hp & Hacc & ->)]; [by eapply backed_same, IH|].
  destruct (proposed_stored _ _ Hp) as (j & q & H1 & H2 & H3 & H4 & H5 & H6).
  destruct Hacc as (_ & Hcl & _). exists j, q. cbn. split; [done|]. rewrite <- Hcl. split; [done|].
  split; [done|]. split; [done|]. rewrite H6. by split; intros ->.
Qed.
(** C11: A contract says what a stored proposal says. With the proposal service on
    the network, over tables that may change from one request to the next and
    under any faults on both sides, every contract of a reachable contract
    database is between the freelancer of a stored proposal and the client of the
    proposal's project, on that project, and at the proposal's bid. *)
Theorem contracts_rest_on_stored_proposals d c :
  contract_reachable (proposal_server pbase pdbs pevs) pbase d -> In c (contracts d) -> backed c.
Proof. apply contracts_backed. Qed.

Context (cbase : string) (cdbs : nat -> contract_db) (cevs : nat -> env).

Lemma vouched_stored cid p :
  ContractParties.vouched (contract_server cbase cdbs cevs) cbase cid p ->
  exists k c, find_contract cid (cdbs k) = Some c /\ ContractParties.ClientID p = c_ClientID c /\
    ContractParties.Status p = c_Status c.
Proof.
  intros [k HR]. exists k. revert HR. unfold contract_server, ContractParties.parties_url.
  rewrite Strings.string_app_assoc, strip_prefix_app.
  destruct (segment _) as [x y] eqn:S. apply segment_split in S.
  destruct (String.eqb_spec y "/parties") as [->|]; [|done].
  apply app_tail_inj in S as ->. intros HR%internal_parties_sound. destruct HR as (c & ? & ? & _ & ?). eauto.
Qed.

(** Money moves only for the client of the project. With the contract service
    on the network of the escrow service and the proposal service on that of the
    contract service, a request that changed the escrow tables carried the user
    id of the client of a stored contract, the one the request is about, and that
    user is the client of the project of the proposal the contract was made from. *)
Theorem money_follows_the_project_client m r ev d n :
  (forall k, contract_reachable (proposal_server pbase pdbs pevs) pbase (cdbs k)) ->
  EscrowService.after (EscrowHttp.serve (contract_server cbase cdbs cevs) cbase m r) ev d n <> d ->
  exists cid k c j, EscrowHttp.concerns m r d cid /\ find_contract cid (cdbs k) = Some c /\
    c_ClientID c = Http.header r "X-User-Id" /\ Http.header r "X-User-Id" <> "" /\
    ProposalStore.client_of_proposal (c_ProposalID c) (pdbs j) = Some (Http.header r "X-User-Id").
Proof.
  intros Hc Hne. destruct (EscrowHttp.authorized_by _ _ _ _ _ _ _ Hne) as (Hu & cid & p & Hcon & HV & HP).
  destruct (vouched_stored cid p HV) as (k & c & HF & HE & _).
  destruct (find_key_In HF) as [Hin _].
  destruct (contracts_backed (cdbs k) c (Hc k) Hin) as (j & q & _ & HJ & _).
  exists cid, k, c, j. rewrite <- HP, HE. split; [done|]. split; [done|]. split; [done|].
  split; [|done]. by rewrite HE in HP; rewrite HP.
Qed.
End Together.

(** ** Witnesses *)

Definition stored_proposals : nat -> ProposalStore.proposal_db := fun _ => ProposalProofs.short_db.

Definition demo_server : Http.transport := proposal_server "http://proposal" stored_proposals (fun _ => quiet_env).

Definition bid_input : CreateInput :=
  mkCreateInput "j1" (ProposalStore.p_ID ProposalProofs.demo_row) "alice" "bob" "fixed" "EUR" None None None 0
    [mkMilestoneInput 1 "all" None 500 None].

Definition made_db : contract_db :=
  Eval vm_compute in cafter (run_cop demo_server "http://proposal" (OpCreate bid_input)) quiet_env empty_contract_db 0.

Definition made_contract : Contract :=
  Eval vm_compute in hd (new_contract "" "" (contract_of "" bid_input)) (contracts made_db).

Lemma made_reachable : contract_reachable demo_server "http://proposal" made_db.
Proof.
  change made_db with (cafter (run_cop demo_server "http://proposal" (OpCreate bid_input)) quiet_env
    empty_contract_db 0). apply creach_op, creach_empty.
Qed.

Lemma contracts_rest_on_stored_proposals_witness : backed stored_proposals made_contract.
Proof.
  apply (contracts_rest_on_stored_proposals "http://proposal" stored_proposals (fun _ => quiet_env) made_db
    made_contract made_reachable).
  left. reflexivity.
Defined.

Definition fund_request : Http.request :=
  Gateway.demo_request_with "alice" "" (fun _ => "")
    (Some (JObj [("contract_id", JStr (c_ID made_contract)); ("amount_cents", JInt 500)])).

Lemma money_follows_the_project_client_witness :
  exists cid c, find_contract cid made_db = Some c /\ c_ClientID c = "alice" /\
    ProposalStore.client_of_proposal (c_ProposalID c) ProposalProofs.short_db = Some "alice".
Proof.
  destruct (money_follows_the_project_client "http://proposal" stored_proposals (fun _ => quiet_env)
    "http://contract" (fun _ => made_db) (fun _ => quiet_env) EscrowHttp.RFund fund_request quiet_env
    EscrowStore.empty_escrow_db 0) as (cid & k & c & j & _ & H1 & H2 & _ & H3).
  - intros k. exact made_reachable.
  - intros E. apply (f_equal (fun d => List.length (EscrowStore.escrow_accounts d))) in E.
    vm_compute in E. discriminate.
  - exists cid, c. split; [exact H1|]. split; [exact H2|exact H3].
Defined.
