(* ===== verification/ProjectStore.v ===== *)
(** * Project data layer (services/project/internal/store)

    Projects with their skills and attachments, and the constraints of migration
    000004.  The text search of PostgreSQL is a parameter. *)
From S2P Require Export Outbox Rbac Strings Gateway.

(** ** Domain types *)

Record Project := mkProject {
  pj_ID : string;
  pj_ClientID : string;
  pj_CategoryID : option string;
  pj_Title : string;
  pj_Description : string;
  pj_BudgetType : string;
  pj_BudgetMinCents : option Z;
  pj_BudgetMaxCents : option Z;
  pj_Currency : string;
  pj_WeeklyHourLimit : option Z;
  pj_ExperienceRequired : option string;
  pj_EstimatedDurationDs : option Z;
  pj_Status : string;
  pj_Visibility : string;
  pj_ProposalsCount : Z;
  pj_HiredCount : Z;
  pj_PublishedAt : option Z;
  pj_ClosedAt : option Z;
  pj_CreatedAt : Z;
  pj_UpdatedAt : Z;
  pj_deleted_at : option Z        (* not in the Go type *)
}.

(** CreateProjectInput of the store; the service's has the same fields. *)
Record CreateProjectInput := mkCreateProjectInput {
  ip_ClientID : string;
  ip_CategoryID : option string;
  ip_Title : string;
  ip_Description : string;
  ip_BudgetType : string;
  ip_BudgetMinCents : option Z;
  ip_BudgetMaxCents : option Z;
  ip_Currency : string;
  ip_WeeklyHourLimit : option Z;
  ip_ExperienceRequired : option string;
  ip_EstimatedDurationDs : option Z;
  ip_SkillIDs : list string
}.

Record Attachment := mkAttachment {
  at_ID : string;
  at_ProjectID : string;
  at_S3Key : string;
  at_Filename : string;
  at_SizeBytes : Z;
  at_ContentType : string;
  at_CreatedAt : Z
}.

(** The tables; of users, categories and skills only the identifiers are read. *)
Record project_db := mkProjectDb {
  projects : list Project;
  project_skills : list (string * string);
  project_attachments : list Attachment;
  user_ids : list string;
  category_ids : list string;
  skill_ids : list string;
  project_outbox : list OutboxRow
}.

Definition projects_t : table project_db Project :=
  Table projects (fun l d => mkProjectDb l (project_skills d) (project_attachments d) (user_ids d) (category_ids d)
                               (skill_ids d) (project_outbox d)).
Definition project_skills_t : table project_db (string * string) :=
  Table project_skills (fun l d => mkProjectDb (projects d) l (project_attachments d) (user_ids d) (category_ids d)
                               (skill_ids d) (project_outbox d)).
Definition project_attachments_t : table project_db Attachment :=
  Table project_attachments (fun l d => mkProjectDb (projects d) (project_skills d) l (user_ids d) (category_ids d)
                               (skill_ids d) (project_outbox d)).
#[export] Instance project_HasOutbox : HasOutbox project_db :=
  Table project_outbox (fun l d => mkProjectDb (projects d) (project_skills d) (project_attachments d) (user_ids d)
                               (category_ids d) (skill_ids d) l).

#[export] Instance project_Deferred : Deferred project_db := fun _ _ => true.

(** ErrNotFound of the store and the sentinels of the service. *)
Inductive project_err :=
| ErrNotFound
| ErrInvalidBudget
| ErrInvalidState
| ErrForbidden
| ErrValidation.

Abbreviation jprog := (prog project_db project_err).

(** ** Projects *)

Definition budget_types : list string := ["fixed"; "hourly"].
Definition experience_levels : list string := ["entry"; "intermediate"; "expert"].
Definition project_statuses : list string := ["draft"; "published"; "in_progress"; "closed"; "archived"; "flagged"].

(** The primary key and budget_range. *)
Definition project_check (l : list Project) (p : Project) : option dberr :=
  first_violation
    [ unique_index "projects_pkey" (fun x r => String.eqb (pj_ID x) (pj_ID r)) l p;
      check_row "budget_range" (fun r =>
        match pj_BudgetMaxCents r, pj_BudgetMinCents r with
        | Some hi, Some lo => lo <=? hi
        | _, _ => true
        end) p ].

Definition new_project (id currency : string) (t : Z) (i : CreateProjectInput) : Project :=
  mkProject id (ip_ClientID i) (ip_CategoryID i) (ip_Title i) (ip_Description i) (ip_BudgetType i)
    (ip_BudgetMinCents i) (ip_BudgetMaxCents i) currency (ip_WeeklyHourLimit i) (ip_ExperienceRequired i)
    (ip_EstimatedDurationDs i) "draft" "public" 0 0 None None t t None.

Definition known (name : string) (l : list string) (id : string) : option dberr :=
  references name (String.eqb id) l.

Definition insert_project (i : CreateProjectInput) : sql project_db Project := fun s d =>
  if negb (enum budget_types (ip_BudgetType i)) || negb (enum experience_levels (default "entry" (ip_ExperienceRequired i)))
  then Reject InvalidText else
  match bpchar 3 (ip_Currency i) with
  | None => Reject InvalidText
  | Some cur =>
      insert_row projects_t (fun l r => first_violation
          [ project_check l r;
            known "projects_client_id_fkey" (user_ids d) (ip_ClientID i);
            match ip_CategoryID i with
            | Some c => known "projects_category_id_fkey" (category_ids d) c
            | None => None
            end ])
        (fun s => new_project (fresh s) cur (now s) i) s d
  end.

(** ON CONFLICT DO NOTHING *)
Definition insert_skill (projectID skillID : string) : sql project_db unit := fun _ d =>
  if existsb (fun x => String.eqb (fst x) projectID && String.eqb (snd x) skillID) (project_skills d) then Done tt d else
  match known "project_skills_skill_id_fkey" (skill_ids d) skillID with
  | Some e => Reject e
  | None => Done tt (put project_skills_t (project_skills d ++ [(projectID, skillID)]) d)
  end.

(** The Go ints of INT columns are tested before the statement is sent. *)
Definition CreateProject (i : CreateProjectInput) : jprog Project :=
  if negb (in_int32 (default 0 (ip_WeeklyHourLimit i)) && in_int32 (default 0 (ip_EstimatedDurationDs i)))
  then throw (Db ScanError) else
  p <- exec (insert_project i) ;;
  for_each (ip_SkillIDs i) (fun sid => exec (insert_skill (pj_ID p) sid)) ;;;
  ret p.

Definition live (p : Project) : bool := match pj_deleted_at p with None => true | Some _ => false end.

Definition find_project (id : string) (d : project_db) : option Project :=
  List.find (fun p => has_key pj_ID id p && live p) (projects d).

Definition found {A} (row : option A) : jprog A :=
  match row with
  | None => fail ErrNotFound
  | Some a => ret a
  end.

Definition GetProject (id : string) : jprog Project :=
  o <- exec_pool (fun _ d => Done (find_project id d) d) ;;
  found o.

Definition GetProjectForUpdate (id : string) : jprog Project :=
  o <- exec (fun _ d => Done (find_project id d) d) ;;
  found o.

Definition with_status (status : string) (published closed : option Z) (t : Z) (p : Project) : Project :=
  mkProject (pj_ID p) (pj_ClientID p) (pj_CategoryID p) (pj_Title p) (pj_Description p) (pj_BudgetType p)
    (pj_BudgetMinCents p) (pj_BudgetMaxCents p) (pj_Currency p) (pj_WeeklyHourLimit p) (pj_ExperienceRequired p)
    (pj_EstimatedDurationDs p) status (pj_Visibility p) (pj_ProposalsCount p) (pj_HiredCount p) published closed
    (pj_CreatedAt p) t (pj_deleted_at p).

Definition published (t : Z) (p : Project) : Project := with_status "published" (Some t) (pj_ClosedAt p) t p.
Definition closed (t : Z) (p : Project) : Project := with_status "closed" (pj_PublishedAt p) (Some t) t p.

Definition SetStatusPublished (id : string) : jprog unit :=
  exec (update_rows projects_t (has_key pj_ID id) (fun s => published (now s)) (fun _ => None)) ;;;
  ret tt.

Definition SetStatusClosed (id : string) : jprog unit :=
  exec (update_rows projects_t (has_key pj_ID id) (fun s => closed (now s)) (fun _ => None)) ;;;
  ret tt.

(** ** Listings *)

(** search_tsv @@ plainto_tsquery('english', query), for a title and description. *)
Class TextSearch := matches : string -> string -> string -> bool.

Record ListFilter := mkListFilter {
  lf_Status : string;
  lf_CategoryID : string;
  lf_Search : string;
  lf_Limit : Z;
  lf_Offset : Z
}.

Section Listing.
Context `{TextSearch}.

Definition wanted (f : ListFilter) (status : string) (p : Project) : bool :=
  live p && String.eqb (pj_Status p) status &&
  (String.eqb (lf_CategoryID f) "" || bool_decide (pj_CategoryID p = Some (lf_CategoryID f))) &&
  (String.eqb (lf_Search f) "" || matches (pj_Title p) (pj_Description p) (lf_Search f)).

(** published_at DESC NULLS LAST *)
Definition newest_first (l : list Project) : list Project :=
  order_by (fun p => - default 0 (pj_PublishedAt p)) (List.filter (fun p => bool_decide (is_Some (pj_PublishedAt p))) l) ++
  List.filter (fun p => negb (bool_decide (is_Some (pj_PublishedAt p)))) l.

Definition page (limit offset : Z) (l : list Project) : list Project :=
  take (Z.to_nat limit) (drop (Z.to_nat offset) l).

Definition ListProjects (f : ListFilter) : jprog (list Project) :=
  let status := if String.eqb (lf_Status f) "" then "published" else lf_Status f in
  let limit := if (lf_Limit f <=? 0) || (100 <? lf_Limit f) then 20 else lf_Limit f in
  exec_pool (fun _ d =>
    if negb (enum project_statuses status) then Reject InvalidText
    else if lf_Offset f <? 0 then Reject NumericOutOfRange
    else Done (page limit (lf_Offset f) (newest_first (select_rows (wanted f status) (projects d)))) d).
End Listing.

(** ** Attachments *)

Definition new_attachment (id projectID s3Key filename : string) (size : Z) (contentType : string) (t : Z) : Attachment :=
  mkAttachment id projectID s3Key filename size contentType t.

Definition AddAttachment (projectID s3Key filename : string) (sizeBytes : Z) (contentType : string) : jprog Attachment :=
  exec_pool (fun s d =>
    insert_row project_attachments_t (fun l r => first_violation
        [ unique_index "project_attachments_pkey" (fun x r => String.eqb (at_ID x) (at_ID r)) l r;
          references "project_attachments_project_id_fkey" (has_key pj_ID projectID) (projects d) ])
      (fun s => new_attachment (fresh s) projectID s3Key filename sizeBytes contentType (now s)) s d).

(** * Projects (services/project/internal/service)

    Creation with its budget rules, publication and closing by the owner, and
    attachments. *)
Definition validBudgetTypes : list string := ["fixed"; "hourly"].
Definition validExperience : list string := ["entry"; "intermediate"; "expert"].

Definition positive (o : option Z) : bool := match o with Some z => 0 <? z | None => false end.

Definition validateBudget (i : CreateProjectInput) : option project_err :=
  let range := match ip_BudgetMaxCents i with
               | Some hi => default 0 (ip_BudgetMinCents i) <=? hi
               | None => true
               end in
  if String.eqb (ip_BudgetType i) "fixed" then
    if negb (positive (ip_BudgetMinCents i)) then Some ErrInvalidBudget
    else if negb range then Some ErrInvalidBudget else None
  else if String.eqb (ip_BudgetType i) "hourly" then
    if negb (positive (ip_BudgetMinCents i)) then Some ErrInvalidBudget
    else if negb range then Some ErrInvalidBudget
    else if negb (positive (ip_WeeklyHourLimit i)) then Some ErrInvalidBudget else None
  else Some ErrInvalidBudget.

(** The checks of CreateProject before its transaction. *)
Definition create_problem (i : CreateProjectInput) : option project_err :=
  if String.eqb (ip_ClientID i) "" || String.eqb (ip_Title i) "" then Some ErrValidation
  else if negb (existsb (String.eqb (ip_BudgetType i)) validBudgetTypes) then Some ErrValidation
  else if match ip_ExperienceRequired i with
          | Some x => negb (existsb (String.eqb x) validExperience)
          | None => false
          end then Some ErrValidation
  else validateBudget i.

Definition with_currency (cur : string) (i : CreateProjectInput) : CreateProjectInput :=
  mkCreateProjectInput (ip_ClientID i) (ip_CategoryID i) (ip_Title i) (ip_Description i) (ip_BudgetType i)
    (ip_BudgetMinCents i) (ip_BudgetMaxCents i) cur (ip_WeeklyHourLimit i) (ip_ExperienceRequired i)
    (ip_EstimatedDurationDs i) (ip_SkillIDs i).

Definition service_CreateProject (i : CreateProjectInput) : jprog Project :=
  match create_problem i with
  | Some e => fail e
  | None =>
      let i := with_currency (if String.eqb (ip_Currency i) "" then "USD" else ip_Currency i) i in
      in_tx (
        p <- CreateProject i ;;
        commit ;;;
        ret p)
  end.

Definition service_GetProject (id : string) : jprog Project := GetProject id.

Definition service_ListProjects `{TextSearch} (f : ListFilter) : jprog (list Project) := ListProjects f.

Definition published_event (id clientID : string) (p : Project) : Event :=
  mkEvent "project" id "project.published" "project.events" id
    (JObj [("project_id", JStr id); ("client_id", JStr clientID); ("budget_type", JStr (pj_BudgetType p));
           ("title", JStr (pj_Title p))]) None.

Definition closed_event (id clientID : string) (p : Project) : Event :=
  mkEvent "project" id "project.closed" "project.events" id
    (JObj [("project_id", JStr id); ("client_id", JStr clientID); ("title", JStr (pj_Title p))]) None.

(** p.Status = ... on the row read before. *)
Definition answer_status (status : string) (p : Project) : Project :=
  with_status status (pj_PublishedAt p) (pj_ClosedAt p) (pj_UpdatedAt p) p.

Definition PublishProject (id clientID : string) : jprog Project :=
  in_tx (
    p <- GetProjectForUpdate id ;;
    if negb (String.eqb (pj_ClientID p) clientID) then fail ErrForbidden else
    if negb (String.eqb (pj_Status p) "draft") then fail ErrInvalidState else
    SetStatusPublished id ;;;
    Enqueue (published_event id clientID p) ;;;
    commit ;;;
    ret (answer_status "published" p)).

Definition CloseProject (id clientID : string) : jprog Project :=
  in_tx (
    p <- GetProjectForUpdate id ;;
    if negb (String.eqb (pj_ClientID p) clientID) then fail ErrForbidden else
    if String.eqb (pj_Status p) "closed" || String.eqb (pj_Status p) "archived" then fail ErrInvalidState else
    SetStatusClosed id ;;;
    Enqueue (closed_event id clientID p) ;;;
    commit ;;;
    ret (answer_status "closed" p)).

Definition service_AddAttachment (projectID clientID s3Key filename : string) (sizeBytes : Z) (contentType : string)
  : jprog Attachment :=
  if String.eqb projectID "" || String.eqb s3Key "" then fail ErrValidation else
  p <- GetProject projectID ;;
  if negb (String.eqb (pj_ClientID p) clientID) then fail ErrForbidden else
  AddAttachment projectID s3Key filename sizeBytes contentType.
