(* ===== verification/ProjectProofs.v ===== *)
(** * Properties of the project service

    What each operation does to the tables, and the life of a project: a draft
    is published at most once and closed at most once, by its owner, with
    one event each.  Then the routes. *)
From stdpp Require Import relations.
From S2P Require Export Gateway Strings.
From S2P Require Export ProjectStore.

(** ** Effects *)

Definition add_project (p : Project) (skills : list (string * string)) (d : project_db) : project_db :=
  put project_skills_t (project_skills d ++ skills) (put projects_t (projects d ++ [p]) d).

Definition move_project (id : string) (f : Project -> Project) (e : Event) (t : Z) (d : project_db) : project_db :=
  put project_HasOutbox (enqueued t e (project_outbox d))
    (put projects_t (update_where (has_key pj_ID id) f (projects d)) d).

Definition add_attachment (a : Attachment) (d : project_db) : project_db :=
  put project_attachments_t (project_attachments d ++ [a]) d.

(** ** Outcomes *)

Section Outcomes.
Implicit Types (ev : env) (c : project_db).

(** Creating: an error and nothing, or the draft with its skills. *)
Inductive created (i : CreateProjectInput) (c : project_db) : res project_err Project -> project_db -> Prop :=
| cr_invalid e : create_problem i = Some e -> created i c (Err (Dom e)) c
| cr_failed e : create_problem i = None -> created i c (Err (Db e)) c
| cr_done r id cur t skills : create_problem i = None -> project_check (projects c) (new_project id cur t i) = None ->
    In (ip_ClientID i) (user_ids c) -> (r = Ok (new_project id cur t i) \/ r = Err (Db Driver)) ->
    created i c r (add_project (new_project id cur t i) skills c).

Lemma known_In name l id : known name l id = None -> In id l.
Proof.
  unfold known, references. destruct (existsb (String.eqb id) l) eqn:E; [|done]. intros _.
  apply existsb_exists in E as (x & Hx & ->%String.eqb_eq). done.
Qed.

Lemma wp_skills pid sids ev c t v n (Q : res project_err unit -> world project_db -> Prop) :
  (forall e w, committed w = c -> Q (Err (Db e)) w) ->
  (forall skills m, Q (Ok tt) (World c (Live t (put project_skills_t (project_skills v ++ skills) v)) m)) ->
  wp (for_each sids (fun sid => exec (insert_skill pid sid))) ev (World c (Live t v) n) Q.
Proof.
  revert v n. induction sids as [|sid sids IH]; intros v n Hf Hs.
  - apply wp_ret. specialize (Hs [] n). rewrite app_nil_r in Hs. by destruct v.
  - cbn [for_each]. apply wp_bind, wp_exec; [intros _; by apply Hf|]. unfold insert_skill.
    destruct (existsb _ (project_skills v)); [by apply IH|].
    destruct (known _ _ sid); [by apply Hf|]. apply IH; [done|]. intros skills m.
    specialize (Hs ((pid, sid) :: skills) m). cbn [put project_skills_t project_skills].
    replace ((project_skills v ++ [(pid, sid)]) ++ skills) with (project_skills v ++ (pid, sid) :: skills)
      by by rewrite <- app_assoc.
    exact Hs.
Qed.

Lemma new_project_currency i cur0 id cur t :
  new_project id cur t (with_currency cur0 i) = new_project id cur t i.
Proof. done. Qed.

Lemma CreateProject_outcome i ev c n :
  wp (service_CreateProject i) ev (rest c n) (ended (created i c)).
Proof.
  unfold service_CreateProject, rest. destruct (create_problem i) as [e|] eqn:CP.
  { apply wp_throw. split; [done|]. by constructor. }
  set (cur0 := if String.eqb (ip_Currency i) "" then "USD" else ip_Currency i).
  assert (forall e (m : nat), ended (created i c) (Err (Db e)) (World c NoTx m)) as Herr
    by (intros; split; [done|by constructor]).
  apply wp_in_tx; [intros _; by apply Herr|]. apply wp_bind. unfold CreateProject.
  destruct (negb _); [by apply wp_throw, Herr|]. apply wp_bind, wp_exec; [intros _; by apply Herr|].
  unfold insert_project. destruct (_ || _); [by apply Herr|].
  destruct (bpchar 3 _) as [cur|]; [|by apply Herr]. unfold insert_row. cbn [now fresh]. cbv zeta.
  rewrite new_project_currency. change (rows projects_t c) with (projects c).
  change (ip_ClientID (with_currency cur0 i)) with (ip_ClientID i).
  destruct (first_violation _) as [e|] eqn:FV; [by apply Herr|].
  rewrite first_violation_None in FV. apply Forall_cons_1 in FV as [HC FV]. apply Forall_cons_1 in FV as [HU _].
  apply known_In in HU.
  apply wp_bind, wp_skills; [intros e w ->; by apply Herr|]. intros skills m. apply wp_ret.
  assert (forall r, r = Ok (new_project (gen_uuid ev (S n)) cur (clock ev n) i) \/ r = Err (Db Driver) ->
    created i c r (add_project (new_project (gen_uuid ev (S n)) cur (clock ev n) i) skills c)) as Hdone
    by (intros; by eapply cr_done).
  apply wp_bind, wp_commit; intros; try (by apply Herr); try apply wp_ret; split; try done; apply Hdone; auto.
Qed.

(** A transition: refused, or the row is moved and the event stored. *)
Inductive moved (id uid : string) (allowed : Project -> bool) (f : Z -> Project -> Project) (e : Project -> Event)
  (answer : Project -> Project) (ev : env) (c : project_db) : res project_err Project -> project_db -> Prop :=
| mv_failed x : ~ calm ev -> moved id uid allowed f e answer ev c (Err (Db x)) c
| mv_missing : find_project id c = None -> moved id uid allowed f e answer ev c (Err (Dom ErrNotFound)) c
| mv_foreign p : find_project id c = Some p -> pj_ClientID p <> uid ->
    moved id uid allowed f e answer ev c (Err (Dom ErrForbidden)) c
| mv_state p : find_project id c = Some p -> pj_ClientID p = uid -> allowed p = false ->
    moved id uid allowed f e answer ev c (Err (Dom ErrInvalidState)) c
| mv_done r p t : find_project id c = Some p -> pj_ClientID p = uid -> allowed p = true ->
    (r = Ok (answer p) \/ ~ calm ev) ->
    moved id uid allowed f e answer ev c r (move_project id (f t) (e p) t c).

(** The common shape of PublishProject and CloseProject. *)
Definition transition (id uid : string) (refused : Project -> bool) (f : Z -> Project -> Project)
  (e : Project -> Event) (answer : Project -> Project) : jprog Project :=
  in_tx (
    p <- GetProjectForUpdate id ;;
    if negb (String.eqb (pj_ClientID p) uid) then fail ErrForbidden else
    if refused p then fail ErrInvalidState else
    (exec (update_rows projects_t (has_key pj_ID id) (fun s => f (now s)) (fun _ => None)) ;;; ret tt) ;;;
    Enqueue (e p) ;;;
    commit ;;;
    ret (answer p)).

Lemma transition_outcome id uid refused f e answer ev c n :
  wp (transition id uid refused f e answer) ev (rest c n)
    (ended (moved id uid (fun p => negb (refused p)) f e answer ev c)).
Proof.
  unfold transition, rest.
  assert (forall x (m : nat), ~ calm ev ->
    ended (moved id uid (fun p => negb (refused p)) f e answer ev c) (Err (Db x)) (World c NoTx m)) as Herr
    by (intros; split; [done|by constructor]).
  apply wp_in_tx; [intros NC; by apply Herr|]. apply wp_bind. unfold GetProjectForUpdate.
  apply wp_bind, wp_exec; [intros NC; by apply Herr|].
  destruct (find_project id c) as [p|] eqn:F; unfold found.
  2:{ apply wp_throw. split; [done|by apply mv_missing]. }
  apply wp_ret. destruct (String.eqb_spec (pj_ClientID p) uid) as [O|O]; cbn [negb].
  2:{ apply wp_throw. split; [done|by eapply mv_foreign]. }
  destruct (refused p) eqn:A.
  { apply wp_throw. split; [done|]. eapply mv_state; [done..|]. cbn beta. by rewrite A. }
  apply wp_bind, wp_bind, (wp_update_free projects_t); [intros; by apply Herr|]. apply wp_ret.
  apply wp_bind, wp_Enqueue; [intros NC; by apply Herr|].
  assert (forall r, r = Ok (answer p) \/ ~ calm ev ->
    moved id uid (fun p => negb (refused p)) f e answer ev c r (move_project id (f (clock ev n)) (e p) (clock ev n) c)) as Hdone.
  { intros r Hr. eapply mv_done; [done..| |done]. cbn beta. by rewrite A. }
  apply wp_bind, wp_commit; intros; try done; try (by apply Herr); try apply wp_ret; split; try done; apply Hdone; auto.
Qed.

Definition draft (p : Project) : bool := negb (negb (String.eqb (pj_Status p) "draft")).
Definition open (p : Project) : bool := negb (String.eqb (pj_Status p) "closed" || String.eqb (pj_Status p) "archived").

Lemma PublishProject_outcome id uid ev c n :
  wp (PublishProject id uid) ev (rest c n)
    (ended (moved id uid draft published (published_event id uid) (answer_status "published") ev c)).
Proof. apply transition_outcome. Qed.

Lemma CloseProject_outcome id uid ev c n :
  wp (CloseProject id uid) ev (rest c n)
    (ended (moved id uid open closed (closed_event id uid) (answer_status "closed") ev c)).
Proof. apply transition_outcome. Qed.

(** An attachment, to a project of the caller. *)
Inductive attached (pid uid : string) (ev : env) (c : project_db) : res project_err Attachment -> project_db -> Prop :=
| at_err e : attached pid uid ev c (Err e) c
| at_done r p a : find_project pid c = Some p -> pj_ClientID p = uid -> at_ProjectID a = pid ->
    (r = Ok a \/ ~ calm ev) -> attached pid uid ev c r (add_attachment a c).

Lemma AddAttachment_outcome pid uid key name size ct ev c n :
  wp (service_AddAttachment pid uid key name size ct) ev (rest c n) (ended (attached pid uid ev c)).
Proof.
  unfold service_AddAttachment, rest.
  assert (forall e (m : nat), ended (attached pid uid ev c) (Err e) (World c NoTx m)) as Herr
    by (intros; split; [done|by constructor]).
  destruct (_ || _); [by apply wp_throw, Herr|]. apply wp_bind. unfold GetProject.
  apply wp_bind. apply (wp_pool_read _ (find_project pid c)); [done|intros _; by apply Herr|].
  destruct (find_project pid c) as [p|] eqn:F; unfold found; [|by apply wp_throw, Herr]. apply wp_ret.
  destruct (String.eqb_spec (pj_ClientID p) uid); cbn [negb]; [|by apply wp_throw, Herr].
  unfold AddAttachment. apply wp_exec_pool. unfold insert_row. cbn [now fresh].
  destruct (first_violation _); [split; intros; by apply Herr|].
  assert (forall r, r = Ok (new_attachment (gen_uuid ev (S n)) pid key name size ct (clock ev (S n))) \/ ~ calm ev ->
    attached pid uid ev c r (add_attachment (new_attachment (gen_uuid ev (S n)) pid key name size ct (clock ev (S n))) c)) as Hdone
    by (intros; by eapply at_done).
  split; [|split]; intros; try (by apply Herr); split; try done; apply Hdone; auto.
Qed.
End Outcomes.

(** ** The invariant *)

(** The status that the dates tell, and the events a project has had. *)
Definition status_of (p : Project) : string :=
  match pj_ClosedAt p, pj_PublishedAt p with
  | Some _, _ => "closed"
  | None, Some _ => "published"
  | None, None => "draft"
  end.

Definition announced (p : Project) : list string :=
  match pj_PublishedAt p with Some _ => ["project.published"] | None => [] end ++
  match pj_ClosedAt p with Some _ => ["project.closed"] | None => [] end.

Definition project_history (id : string) (d : project_db) : list string :=
  map event_type (events_about id (project_outbox d)).

(** The budget rules. *)
Record budget_ok (p : Project) : Prop := {
  bo_type : In (pj_BudgetType p) ["fixed"; "hourly"];
  bo_min : exists lo, pj_BudgetMinCents p = Some lo /\ 0 < lo /\
    forall hi, pj_BudgetMaxCents p = Some hi -> lo <= hi;
  bo_hours : pj_BudgetType p = "hourly" -> exists h, pj_WeeklyHourLimit p = Some h /\ 0 < h
}.

(** What an event says of its project. *)
Definition event_true (d : project_db) (r : OutboxRow) : Prop :=
  exists p rest_, In p (projects d) /\ aggregate_id r = pj_ID p /\ topic r = "project.events" /\
    payload r = JObj (("project_id", JStr (pj_ID p)) :: ("client_id", JStr (pj_ClientID p)) :: rest_).

Record project_inv (d : project_db) : Prop := {
  pji_keyed : keyed pj_ID (projects d);
  pji_owner : forall p, In p (projects d) -> In (pj_ClientID p) (user_ids d);
  pji_status : forall p, In p (projects d) -> pj_Status p = status_of p;
  pji_budget : forall p, In p (projects d) -> budget_ok p;
  pji_history : forall p, In p (projects d) -> project_history (pj_ID p) d = announced p;
  pji_true : forall r, In r (project_outbox d) -> event_true d r
}.

(** The tables before the service starts. *)
Definition no_projects (users cats skills : list string) : project_db := mkProjectDb [] [] [] users cats skills [].

Lemma project_inv_start users cats skills : project_inv (no_projects users cats skills).
Proof. by constructor; try done; constructor. Qed.

Lemma positive_true o : positive o = true -> exists z, o = Some z /\ 0 < z.
Proof. destruct o as [z|]; [|done]. intros H%Z.ltb_lt. by exists z. Qed.

Lemma valid_budget i id cur t : create_problem i = None -> budget_ok (new_project id cur t i).
Proof.
  unfold create_problem. destruct (_ || _); [done|]. destruct (negb _); [done|].
  destruct (match ip_ExperienceRequired i with Some _ => _ | None => _ end); [done|]. unfold validateBudget.
  assert (positive (ip_BudgetMinCents i) = true ->
    (match ip_BudgetMaxCents i with Some hi => default 0 (ip_BudgetMinCents i) <=? hi | None => true end) = true ->
    exists lo, ip_BudgetMinCents i = Some lo /\ 0 < lo /\ forall hi, ip_BudgetMaxCents i = Some hi -> lo <= hi) as Hmin.
  { intros (lo & E & P)%positive_true R. exists lo. split; [done|]. split; [done|]. intros hi Ehi.
    rewrite Ehi, E in R. by apply Z.leb_le. }
  destruct (String.eqb_spec (ip_BudgetType i) "fixed") as [F|NF].
  - destruct (positive (ip_BudgetMinCents i)); [|done]. cbn [negb].
    destruct (match ip_BudgetMaxCents i with Some _ => _ | None => _ end); [|done]. intros _.
    constructor; cbn [new_project pj_BudgetType pj_BudgetMinCents pj_BudgetMaxCents pj_WeeklyHourLimit];
      [rewrite F; by left|by apply Hmin|by rewrite F].
  - destruct (String.eqb_spec (ip_BudgetType i) "hourly") as [F|]; [|done].
    destruct (positive (ip_BudgetMinCents i)); [|done]. cbn [negb].
    destruct (match ip_BudgetMaxCents i with Some _ => _ | None => _ end); [|done].
    destruct (positive (ip_WeeklyHourLimit i)) eqn:PW; [|done]. intros _.
    constructor; cbn [new_project pj_BudgetType pj_BudgetMinCents pj_BudgetMaxCents pj_WeeklyHourLimit];
      [rewrite F; right; by left|by apply Hmin|intros _; by apply positive_true].
Qed.

(** The aggregates of the events are projects. *)
Lemma history_of_new id d : project_inv d -> ~ In id (map pj_ID (projects d)) -> project_history id d = [].
Proof.
  intros HI Hn. unfold project_history, events_about.
  assert (List.filter (has_key aggregate_id id) (project_outbox d) = []) as ->; [|done].
  apply (select_none (has_key aggregate_id id)). intros r Hr. apply not_true_iff_false. intros K%has_key_true.
  destruct (pji_true d HI r Hr) as (p & _ & Hp & E & _). apply Hn. rewrite <- K, E. by apply in_map.
Qed.

Lemma project_inv_new i id cur t skills d :
  project_inv d -> create_problem i = None -> project_check (projects d) (new_project id cur t i) = None ->
  In (ip_ClientID i) (user_ids d) -> project_inv (add_project (new_project id cur t i) skills d).
Proof.
  intros HI HP HC HU. assert (~ In id (map pj_ID (projects d))) as Hn.
  { unfold project_check in HC. rewrite first_violation_None in HC. apply Forall_cons_1 in HC as [HC _].
    rewrite unique_index_None in HC. intros (x & E & Hx)%in_map_iff. specialize (HC x Hx).
    cbn in HC. by rewrite E, String.eqb_refl in HC. }
  pose proof (history_of_new id d HI Hn) as Hh. destruct HI as [H1 H2 H3 H4 H5 H6].
  constructor; cbn [add_project put projects_t project_skills_t projects user_ids project_outbox].
  - by apply keyed_snoc.
  - intros p [Hp|[<-|[]]]%in_app_iff; auto.
  - intros p [Hp|[<-|[]]]%in_app_iff; auto.
  - intros p [Hp|[<-|[]]]%in_app_iff; [auto|by apply valid_budget].
  - intros p [Hp|[<-|[]]]%in_app_iff; [by apply H5|exact Hh].
  - intros r Hr. destruct (H6 r Hr) as (p & rest_ & Hp & E). exists p, rest_. split; [|done].
    apply in_app_iff. by left.
Qed.

(** A move that keeps what the rules are about. *)
Lemma project_inv_move id p f e t rest_ d :
  project_inv d -> find_project id d = Some p ->
  (forall x, pj_ID (f x) = pj_ID x /\ pj_ClientID (f x) = pj_ClientID x) -> (budget_ok p -> budget_ok (f p)) ->
  AggregateID e = id -> Topic e = "project.events" ->
  Payload e = JObj (("project_id", JStr id) :: ("client_id", JStr (pj_ClientID p)) :: rest_) ->
  pj_Status (f p) = status_of (f p) -> announced (f p) = announced p ++ [EventType e] ->
  project_inv (move_project id f e t d).
Proof.
  intros [H1 H2 H3 H4 H5 H6] HF Hf Hb Ha Ht Hpl Hs Han.
  assert (In p (projects d) /\ pj_ID p = id) as [Hp Hid].
  { unfold find_project in HF. apply List.find_some in HF as [? [K%has_key_true _]%andb_true_iff]. done. }
  assert (forall x, In x (update_where (has_key pj_ID id) f (projects d)) ->
    (In x (projects d) /\ pj_ID x <> id) \/ x = f p) as Hin.
  { intros x [[Hx K]|(y & Hy & K & ->)]%In_update.
    - left. split; [done|]. by rewrite has_key_false in K.
    - right. apply has_key_true in K. f_equal. apply (keyed_inj pj_ID (projects d)); congruence. }
  assert (In (f p) (update_where (has_key pj_ID id) f (projects d))) as Hfp.
  { apply in_map_iff. exists p. split; [|done]. by rewrite <- Hid, has_key_refl. }
  constructor; cbn [move_project put projects_t project_HasOutbox projects user_ids project_outbox].
  - apply keyed_update; [|done]. intros x. apply Hf.
  - intros x [[Hx _]| ->]%Hin; [auto|]. destruct (Hf p) as [_ ->]. auto.
  - intros x [[Hx _]| ->]%Hin; auto.
  - intros x [[Hx _]| ->]%Hin; auto.
  - intros x [[Hx K]| ->]%Hin; unfold project_history;
      cbn [move_project put projects_t project_HasOutbox project_outbox]; rewrite history_announce, Ha.
    + rewrite (proj2 (String.eqb_neq id (pj_ID x))) by congruence. rewrite app_nil_r. by apply H5.
    + destruct (Hf p) as [-> _]. rewrite Hid, String.eqb_refl, Han. f_equal. rewrite <- Hid. by apply H5.
  - intros r [Hr|[<-|[]]]%in_app_iff.
    + destruct (H6 r Hr) as (q & rest' & Hq & E1 & E2 & E3).
      destruct (String.eqb_spec (pj_ID q) id) as [K|K].
      * assert (q = p) as -> by (apply (keyed_inj pj_ID (projects d)); congruence).
        exists (f p), rest'. destruct (Hf p) as [-> ->]. done.
      * exists q, rest'. split; [|done]. apply in_map_iff. exists q. split; [|done].
        destruct (has_key pj_ID id q) eqn:Kq; [|done]. by apply has_key_true in Kq.
    + exists (f p), rest_. destruct (Hf p) as [-> ->]. cbn [aggregate_id topic payload]. by rewrite Ha, Ht, Hpl, Hid.
Qed.

(** ** Reachable tables *)

Inductive project_call :=
| PjCreate (i : CreateProjectInput)
| PjPublish (id uid : string)
| PjClose (id uid : string)
| PjAttach (pid uid key name : string) (size : Z) (contentType : string).

Definition project_run (call : project_call) : jprog unit :=
  match call with
  | PjCreate i => service_CreateProject i ;;; ret tt
  | PjPublish id uid => PublishProject id uid ;;; ret tt
  | PjClose id uid => CloseProject id uid ;;; ret tt
  | PjAttach pid uid key name size ct => service_AddAttachment pid uid key name size ct ;;; ret tt
  end.

Definition project_after (call : project_call) (ev : env) (d : project_db) (n : nat) : project_db :=
  committed (snd (project_run call ev (rest d n))).

(** New users, categories and skills of other services. *)
Definition grown (users cats skills : list string) (d : project_db) : project_db :=
  mkProjectDb (projects d) (project_skills d) (project_attachments d) (user_ids d ++ users) (category_ids d ++ cats)
    (skill_ids d ++ skills) (project_outbox d).

Inductive project_step (d : project_db) : project_db -> Prop :=
| pjs_call call ev n : project_step d (project_after call ev d n)
| pjs_grown users cats skills : project_step d (grown users cats skills d).

Definition project_later : project_db -> project_db -> Prop := rtc project_step.

Definition project_reachable (d : project_db) : Prop :=
  exists users cats skills, project_later (no_projects users cats skills) d.

(** A call is a creation, a move or an attachment by the owner, or nothing. *)
Inductive project_change (d : project_db) : project_db -> Prop :=
| pc_none : project_change d d
| pc_new i id cur t skills : create_problem i = None -> project_check (projects d) (new_project id cur t i) = None ->
    In (ip_ClientID i) (user_ids d) -> project_change d (add_project (new_project id cur t i) skills d)
| pc_publish p t : find_project (pj_ID p) d = Some p -> pj_Status p = "draft" ->
    project_change d (move_project (pj_ID p) (published t) (published_event (pj_ID p) (pj_ClientID p) p) t d)
| pc_close p t : find_project (pj_ID p) d = Some p -> pj_Status p <> "closed" ->
    project_change d (move_project (pj_ID p) (closed t) (closed_event (pj_ID p) (pj_ClientID p) p) t d)
| pc_attach p a : find_project (pj_ID p) d = Some p -> at_ProjectID a = pj_ID p ->
    project_change d (add_attachment a d).

(** The caller and the project a change is about. *)
Definition caller (call : project_call) : string :=
  match call with
  | PjCreate i => ip_ClientID i
  | PjPublish _ uid | PjClose _ uid => uid
  | PjAttach _ uid _ _ _ _ => uid
  end.

Lemma find_project_id id d p : find_project id d = Some p -> In p (projects d) /\ pj_ID p = id.
Proof. intros F. by apply List.find_some in F as [? [K%has_key_true _]%andb_true_iff]. Qed.

Lemma wp_project_call call ev d n (P : project_db -> Prop) :
  P d ->
  (forall i id cur t skills, call = PjCreate i -> create_problem i = None ->
     project_check (projects d) (new_project id cur t i) = None -> In (ip_ClientID i) (user_ids d) ->
     P (add_project (new_project id cur t i) skills d)) ->
  (forall p t, call = PjPublish (pj_ID p) (pj_ClientID p) -> find_project (pj_ID p) d = Some p -> pj_Status p = "draft" ->
     P (move_project (pj_ID p) (published t) (published_event (pj_ID p) (pj_ClientID p) p) t d)) ->
  (forall p t, call = PjClose (pj_ID p) (pj_ClientID p) -> find_project (pj_ID p) d = Some p -> pj_Status p <> "closed" ->
     P (move_project (pj_ID p) (closed t) (closed_event (pj_ID p) (pj_ClientID p) p) t d)) ->
  (forall p a, caller call = pj_ClientID p -> find_project (pj_ID p) d = Some p -> at_ProjectID a = pj_ID p ->
     P (add_attachment a d)) ->
  P (project_after call ev d n).
Proof.
  intros H0 Hn Hp Hc Ha.
  assert (forall A (m : jprog A) (O : res project_err A -> project_db -> Prop),
    wp m ev (rest d n) (ended O) -> (forall r d', O r d' -> P d') ->
    P (committed (snd ((m ;;; ret tt) ev (rest d n))))) as Hdrop.
  { intros A m O HW HO. unfold wp, bind in *. destruct (m ev (rest d n)) as [[a|e] w]; cbn in *; destruct HW; eauto. }
  unfold project_after. destruct call as [i|id uid|id uid|pid uid key name size ct]; cbn [project_run].
  - eapply Hdrop; [apply CreateProject_outcome|]. intros r d'. destruct 1; eauto.
  - eapply Hdrop; [apply PublishProject_outcome|]. intros r d'. destruct 1 as [| | | |r p t F O A _]; try done.
    destruct (find_project_id _ _ _ F) as [_ <-]. rewrite <- O. apply Hp; [by rewrite O|done|].
    unfold draft in A. rewrite negb_involutive in A. by apply String.eqb_eq.
  - eapply Hdrop; [apply CloseProject_outcome|]. intros r d'. destruct 1 as [| | | |r p t F O A _]; try done.
    destruct (find_project_id _ _ _ F) as [_ <-]. rewrite <- O. apply Hc; [by rewrite O|done|].
    intros E. unfold open in A. by rewrite E in A.
  - eapply Hdrop; [apply AddAttachment_outcome|]. intros r d'. destruct 1 as [|r p a F O E _]; [done|].
    destruct (find_project_id _ _ _ F) as [_ Eid]. apply (Ha p a); [done|by rewrite Eid|by rewrite Eid].
Qed.

Lemma call_change call ev d n : project_change d (project_after call ev d n).
Proof. apply wp_project_call; [constructor|by constructor..|]. intros p a _ F E. by eapply pc_attach. Qed.

Lemma with_status_same status a b t x : pj_ID (with_status status a b t x) = pj_ID x /\
  pj_ClientID (with_status status a b t x) = pj_ClientID x /\ (budget_ok x -> budget_ok (with_status status a b t x)).
Proof. split; [done|]. split; [done|]. intros [H1 H2 H3]. by constructor. Qed.

Lemma project_inv_change d d' : project_inv d -> project_change d d' -> project_inv d'.
Proof.
  intros HI. destruct 1 as [|i id cur t skills HP HC HU|p t F S|p t F S|p a F E].
  - done.
  - by apply project_inv_new.
  - destruct (find_project_id _ _ _ F) as [Hp _]. pose proof (pji_status d HI p Hp) as HS. rewrite S in HS.
    unfold status_of in HS. destruct (pj_ClosedAt p) eqn:C; [done|]. destruct (pj_PublishedAt p) eqn:Pb; [done|].
    eapply (project_inv_move (pj_ID p) p); try done; unfold published.
    + intros Hb. by apply with_status_same.
    + cbn [with_status pj_Status]. unfold status_of. cbn [with_status pj_ClosedAt pj_PublishedAt]. by rewrite C.
    + unfold announced. cbn [with_status pj_PublishedAt pj_ClosedAt]. by rewrite C, Pb.
  - destruct (find_project_id _ _ _ F) as [Hp _]. pose proof (pji_status d HI p Hp) as HS.
    unfold status_of in HS. destruct (pj_ClosedAt p) eqn:C; [done|].
    eapply (project_inv_move (pj_ID p) p); try done; unfold closed.
    + intros Hb. by apply with_status_same.
    + unfold announced. cbn [with_status pj_PublishedAt pj_ClosedAt]. rewrite C. by rewrite app_nil_r.
  - destruct HI as [H1 H2 H3 H4 H5 H6]. by constructor.
Qed.

Lemma project_inv_step d d' : project_inv d -> project_step d d' -> project_inv d'.
Proof.
  intros HI. destruct 1 as [call ev n|users cats skills].
  - eapply project_inv_change; [exact HI|]. apply call_change.
  - destruct HI as [H1 H2 H3 H4 H5 H6]. constructor; try done. intros p Hp. apply in_app_iff. left. by apply H2.
Qed.

Lemma project_reachable_inv d : project_reachable d -> project_inv d.
Proof.
  intros (users & cats & skills & Hl). pose proof (project_inv_start users cats skills) as HI. revert HI.
  induction Hl as [|x y z Hs _ IH]; [done|]. intros HI. apply IH. by eapply project_inv_step.
Qed.

(** A project is announced exactly as it moves. In every reachable database
    the status of a project is the one its dates tell, its budget obeys the
    rules of its type, and the outbox events about it are one publication if it
    was published and one closing if it was closed, in this order; every event
    of the service names a stored project and its owner. *)
Theorem project_announced_once d p (Hd : project_reachable d) (Hp : In p (projects d)) :
  pj_Status p = status_of p /\ budget_ok p /\ project_history (pj_ID p) d = announced p /\
  forall r, In r (project_outbox d) -> event_true d r.
Proof.
  destruct (project_reachable_inv d Hd) as [H1 H2 H3 H4 H5 H6].
  split; [by apply H3|]. split; [by apply H4|]. split; [by apply H5|exact H6].
Qed.

(** ** Demonstration *)

Definition demo_project : CreateProjectInput :=
  mkCreateProjectInput "alice" None "A site" "Build it" "fixed" (Some 50000) None "" None (Some "expert") None ["go"].

Definition drafted_db : project_db := Eval vm_compute in
  project_after (PjCreate demo_project) quiet_env (no_projects ["alice"] [] ["go"]) 0.

Definition demo_project_id : string := Eval vm_compute in
  match projects drafted_db with p :: _ => pj_ID p | [] => "" end.

Definition closed_db : project_db := Eval vm_compute in
  project_after (PjClose demo_project_id "alice") quiet_env
    (project_after (PjPublish demo_project_id "alice") quiet_env drafted_db 10) 20.

Lemma project_later_call call ev n d d' : project_after call ev d n = d' -> project_step d d'.
Proof. intros <-. constructor. Qed.

Lemma closed_reachable : project_reachable closed_db.
Proof.
  exists ["alice"], [], ["go"]. eapply rtc_l; [by apply (project_later_call (PjCreate demo_project) quiet_env 0)|].
  eapply rtc_l; [by apply (project_later_call (PjPublish demo_project_id "alice") quiet_env 10)|].
  eapply rtc_l; [by apply (project_later_call (PjClose demo_project_id "alice") quiet_env 20)|]. apply rtc_refl.
Qed.

Example project_announced_once_witness :
  exists p, projects closed_db = [p] /\ project_history (pj_ID p) closed_db = ["project.published"; "project.closed"].
Proof.
  eexists. split; [reflexivity|].
  refine (proj1 (proj2 (proj2 (project_announced_once closed_db _ closed_reachable _)))). left. reflexivity.
Defined.

(** * Project REST transport (services/project/internal/httpapi) *)
Definition mapError (e : err project_err) : response :=
  match e with
  | Dom ErrNotFound => writeErr 404 "NOT_FOUND" "resource not found"
  | Dom ErrInvalidBudget => writeErr 400 "INVALID_BUDGET" "budget values are invalid for this budget type"
  | Dom ErrValidation => writeErr 400 "VALIDATION_FAILED" "request failed validation"
  | Dom ErrInvalidState => writeErr 409 "INVALID_STATE" "project is not in a valid state for this action"
  | Dom ErrForbidden => writeErr 403 "FORBIDDEN" "not permitted"
  | _ => writeErr 500 "INTERNAL" "something went wrong"
  end.

Record createProjectReq := mkCreateProjectReq {
  cp_Title : string;
  cp_Description : string;
  cp_BudgetType : string;
  cp_BudgetMinCents : option Z;
  cp_BudgetMaxCents : option Z;
  cp_Currency : string;
  cp_WeeklyHourLimit : option Z;
  cp_ExperienceRequired : option string;
  cp_EstimatedDurationDs : option Z;
  cp_CategoryID : option string;
  cp_SkillIDs : option (list string)
}.

(** Pointers: null is nil. *)
Definition opt_str := field (into_opt as_string) None.
Definition opt_int := field (into_opt as_int64) None.
Definition str_slice := field (into_slice "" as_string) None.

Definition decode_createProjectReq (o : list (string * json)) : option createProjectReq :=
  obind (str_field "title" o) (fun title =>
  obind (str_field "description" o) (fun description =>
  obind (str_field "budget_type" o) (fun budgetType =>
  obind (opt_int "budget_min_cents" o) (fun lo =>
  obind (opt_int "budget_max_cents" o) (fun hi =>
  obind (str_field "currency" o) (fun currency =>
  obind (opt_int "weekly_hour_limit" o) (fun hours =>
  obind (opt_str "experience_required" o) (fun experience =>
  obind (opt_int "estimated_duration_days" o) (fun days =>
  obind (opt_str "category_id" o) (fun category =>
  obind (str_slice "skill_ids" o) (fun skills =>
  Some (mkCreateProjectReq title description budgetType lo hi currency hours experience days category skills)))))))))))).

Definition project_input (clientID : string) (q : createProjectReq) : CreateProjectInput :=
  mkCreateProjectInput clientID (cp_CategoryID q) (cp_Title q) (cp_Description q) (cp_BudgetType q)
    (cp_BudgetMinCents q) (cp_BudgetMaxCents q) (cp_Currency q) (cp_WeeklyHourLimit q) (cp_ExperienceRequired q)
    (cp_EstimatedDurationDs q) (default [] (cp_SkillIDs q)).

Definition when (name : string) (o : option Z) : list (string * json) :=
  match o with Some t => [(name, JStr (format_rfc3339 t))] | None => [] end.

Definition projectJSON (p : Project) : json :=
  JObj ([("id", JStr (pj_ID p)); ("client_id", JStr (pj_ClientID p)); ("category_id", jopt JStr (pj_CategoryID p));
         ("title", JStr (pj_Title p)); ("description", JStr (pj_Description p)); ("budget_type", JStr (pj_BudgetType p));
         ("budget_min_cents", jopt JInt (pj_BudgetMinCents p)); ("budget_max_cents", jopt JInt (pj_BudgetMaxCents p));
         ("currency", JStr (pj_Currency p)); ("weekly_hour_limit", jopt JInt (pj_WeeklyHourLimit p));
         ("experience_required", jopt JStr (pj_ExperienceRequired p));
         ("estimated_duration_days", jopt JInt (pj_EstimatedDurationDs p)); ("status", JStr (pj_Status p));
         ("visibility", JStr (pj_Visibility p)); ("proposals_count", JInt (pj_ProposalsCount p));
         ("hired_count", JInt (pj_HiredCount p)); ("created_at", JStr (format_rfc3339 (pj_CreatedAt p)));
         ("updated_at", JStr (format_rfc3339 (pj_UpdatedAt p)))] ++
        when "published_at" (pj_PublishedAt p) ++ when "closed_at" (pj_ClosedAt p)).

Record attachmentReq := mkAttachmentReq { aq_S3Key : string; aq_Filename : string; aq_SizeBytes : Z; aq_ContentType : string }.

Definition decode_attachmentReq (o : list (string * json)) : option attachmentReq :=
  obind (str_field "s3_key" o) (fun key =>
  obind (str_field "filename" o) (fun name =>
  obind (int_field "size_bytes" o) (fun size =>
  obind (str_field "content_type" o) (fun ct => Some (mkAttachmentReq key name size ct))))).

Definition attachmentJSON (a : Attachment) : json :=
  JObj [("id", JStr (at_ID a)); ("project_id", JStr (at_ProjectID a)); ("s3_key", JStr (at_S3Key a));
        ("filename", JStr (at_Filename a)); ("size_bytes", JInt (at_SizeBytes a)); ("content_type", JStr (at_ContentType a));
        ("created_at", JStr (format_rfc3339 (at_CreatedAt a)))].

Section Api.
Context `{TextSearch}.

Definition createProject (r : request) : jprog response :=
  let p := principal r in
  if String.eqb (UserID p) "" then ret (writeErr 401 "UNAUTHORIZED" "missing identity") else
  if negb (String.eqb (AccountType p) "client")
  then ret (writeErr 403 "FORBIDDEN" "only client accounts may post projects") else
  req <-? decode decode_createProjectReq r ;;
  proj <-? or_mapped mapError (service_CreateProject (project_input (UserID p) req)) ;;
  ret (writeJSON 201 (projectJSON proj)).

Definition listProjects (r : request) : jprog response :=
  l <-? or_mapped mapError (service_ListProjects (mkListFilter (query r "status") (query r "category") (query r "q")
          (atoi (query r "limit")) (atoi (query r "offset")))) ;;
  ret (writeJSON 200 (JObj [("projects", JList (map projectJSON l))])).

Definition getProject (r : request) : jprog response :=
  p <-? or_mapped mapError (service_GetProject (urlParam r "id")) ;;
  ret (writeJSON 200 (projectJSON p)).

Definition publishProject (r : request) : jprog response :=
  uid <-? authenticated r ;;
  p <-? or_mapped mapError (PublishProject (urlParam r "id") uid) ;;
  ret (writeJSON 200 (projectJSON p)).

Definition closeProject (r : request) : jprog response :=
  uid <-? authenticated r ;;
  p <-? or_mapped mapError (CloseProject (urlParam r "id") uid) ;;
  ret (writeJSON 200 (projectJSON p)).

Definition addAttachment (r : request) : jprog response :=
  uid <-? authenticated r ;;
  req <-? decode decode_attachmentReq r ;;
  a <-? or_mapped mapError (service_AddAttachment (urlParam r "id") uid (aq_S3Key req) (aq_Filename req)
          (aq_SizeBytes req) (aq_ContentType req)) ;;
  ret (writeJSON 201 (attachmentJSON a)).

Inductive project_route := CreateR | ListR | GetR | PublishR | CloseR | AttachR | HealthR.

Definition serve (x : project_route) (r : request) : jprog response :=
  match x with
  | CreateR => createProject r
  | ListR => listProjects r
  | GetR => getProject r
  | PublishR => publishProject r
  | CloseR => closeProject r
  | AttachR => addAttachment r
  | HealthR => ret (Response 200 JNull)
  end.
End Api.

(** ** What the routes do *)

Section Routes.
Context `{TextSearch}.

(** The call of the service that a request amounts to, if any. *)
Definition project_call_of (x : project_route) (r : request) : option project_call :=
  let uid := header r "X-User-Id" in
  if String.eqb uid "" then None else
  match x with
  | CreateR =>
      if String.eqb (header r "X-Account-Type") "client"
      then option_map (fun q => PjCreate (project_input uid q)) (obind (members (body r)) decode_createProjectReq)
      else None
  | PublishR => Some (PjPublish (urlParam r "id") uid)
  | CloseR => Some (PjClose (urlParam r "id") uid)
  | AttachR =>
      option_map (fun q => PjAttach (urlParam r "id") uid (aq_S3Key q) (aq_Filename q) (aq_SizeBytes q) (aq_ContentType q))
        (obind (members (body r)) decode_attachmentReq)
  | ListR | GetR | HealthR => None
  end.

Definition after_route (x : project_route) (r : request) (ev : env) (d : project_db) (n : nat) : project_db :=
  committed (snd (serve x r ev (rest d n))).

Definition after_call (o : option project_call) (ev : env) (d : project_db) (n : nat) : project_db :=
  match o with Some call => project_after call ev d n | None => d end.

Lemma wp_project_after {A} (m : jprog A) ev d n :
  wp m ev (rest d n) (fun _ w => committed w = committed (snd ((m ;;; ret tt) ev (rest d n)))).
Proof. unfold wp, bind. by destruct (m ev (rest d n)) as [[a|e] w]. Qed.

Lemma wp_decoded_body {A} (f : list (string * json) -> option A) r (k : A -> jprog response)
    (call : A -> project_call) ev d n :
  (forall a, wp (k a) ev (rest d n) (fun _ w => committed w = project_after (call a) ev d n)) ->
  wp (bind_ok (decode f r) k) ev (rest d n) (fun _ w => committed w =
     after_call (option_map call (obind (members (body r)) f)) ev d n).
Proof.
  intros Hk. apply wp_bind_ok. unfold decode. destruct (members (body r)) as [o|]; [|by apply wp_ret].
  cbn [obind]. destruct (f o) as [a|]; [apply wp_ret, Hk|by apply wp_ret].
Qed.

Lemma wp_reading {A} (m : jprog A) (k : A -> jprog response) ev d n :
  wp m ev (rest d n) (fun _ w => committed w = d) -> (forall a w, committed (snd (k a ev w)) = committed w) ->
  wp (bind_ok (or_mapped mapError m) k) ev (rest d n) (fun _ w => committed w = d).
Proof.
  intros Hm Hk. apply wp_bind_ok, wp_or_mapped. eapply wp_mono; [exact Hm|].
  intros [a|e] w Hw; [|done]. unfold wp. by rewrite Hk.
Qed.

Lemma wp_ListProjects f ev d n : wp (service_ListProjects f) ev (rest d n) (fun _ w => committed w = d).
Proof.
  unfold service_ListProjects, ListProjects. apply wp_exec_pool.
  destruct (negb _); [done|]. by destruct (lf_Offset f <? 0).
Qed.

Lemma wp_GetProject id ev d n : wp (service_GetProject id) ev (rest d n) (fun _ w => committed w = d).
Proof.
  unfold service_GetProject, GetProject. apply wp_bind, (wp_pool_read _ (find_project id d)); [done..|].
  destruct (find_project id d); [by apply wp_ret|by apply wp_throw].
Qed.

Lemma wp_as_caller r (k : string -> jprog response) (call : string -> option project_call) ev d n :
  (header r "X-User-Id" <> "" -> wp (k (header r "X-User-Id")) ev (rest d n)
     (fun _ w => committed w = after_call (call (header r "X-User-Id")) ev d n)) ->
  wp (bind_ok (authenticated r) k) ev (rest d n) (fun _ w => committed w =
     after_call (if String.eqb (header r "X-User-Id") "" then None else call (header r "X-User-Id")) ev d n).
Proof.
  intros Hk. apply wp_bind_ok. unfold authenticated. cbn [principal UserID].
  destruct (String.eqb_spec (header r "X-User-Id") ""); [by apply wp_ret|]. apply wp_ret. by apply Hk.
Qed.

Lemma project_route_call x r ev d n :
  after_route x r ev d n = after_call (project_call_of x r) ev d n.
Proof.
  assert (forall A (p : jprog A) f call,
    wp p ev (rest d n) (fun _ w => committed w = project_after call ev d n) ->
    wp (bind_ok (or_mapped mapError p) (fun a => ret (writeJSON 200 (f a)))) ev (rest d n)
      (fun _ w => committed w = project_after call ev d n)) as Hend.
  { intros A p f call Hp. apply (wp_service (fun d' => d' = project_after call ev d n)); [exact Hp|].
    intros. by apply wp_ret. }
  assert (after_call None ev d n = d) as Hnone by done. unfold project_call_of.
  destruct x; unfold after_route, serve.
  - unfold createProject. cbv zeta. cbn [principal UserID AccountType].
    destruct (String.eqb (header r "X-User-Id") ""); [done|].
    destruct (String.eqb (header r "X-Account-Type") "client"); [|done]. cbn [negb].
    apply (wp_decoded_body decode_createProjectReq). intros q.
    apply (wp_service (fun d' => d' = project_after _ ev d n)); [apply wp_project_after|].
    intros. by apply wp_ret.
  - destruct (String.eqb _ ""); rewrite Hnone; (apply wp_reading; [apply wp_ListProjects|done]).
  - destruct (String.eqb _ ""); rewrite Hnone; (apply wp_reading; [apply wp_GetProject|done]).
  - apply (wp_as_caller r _ (fun uid => Some (PjPublish (urlParam r "id") uid))). intros _.
    apply Hend, wp_project_after.
  - apply (wp_as_caller r _ (fun uid => Some (PjClose (urlParam r "id") uid))). intros _.
    apply Hend, wp_project_after.
  - apply (wp_as_caller r _ (fun uid => option_map (fun q => PjAttach (urlParam r "id") uid (aq_S3Key q)
      (aq_Filename q) (aq_SizeBytes q) (aq_ContentType q)) (obind (members (body r)) decode_attachmentReq))). intros _.
    apply (wp_decoded_body decode_attachmentReq). intros q.
    apply (wp_service (fun d' => d' = project_after _ ev d n)); [apply wp_project_after|].
    intros. by apply wp_ret.
  - by destruct (String.eqb _ "").
Qed.

(** What a call may change on behalf of [uid]: a new project of theirs, or one
    project they own, and its attachments. *)
Definition owned_change (uid : string) (d d' : project_db) : Prop :=
  (exists p skills, d' = add_project p skills d /\ pj_ClientID p = uid /\ pj_Status p = "draft") \/
  (exists p, In p (projects d) /\ pj_ClientID p = uid /\
     (forall q, In q (projects d) -> pj_ID q <> pj_ID p -> In q (projects d')) /\
     forall a, In a (project_attachments d') -> In a (project_attachments d) \/ at_ProjectID a = pj_ID p).

Lemma moved_owned p f e t d :
  In p (projects d) -> owned_change (pj_ClientID p) d (move_project (pj_ID p) f e t d).
Proof.
  intros Hp. right. exists p. split; [done|]. split; [done|]. split.
  - intros q Hq Hne. cbn [move_project put projects_t project_HasOutbox projects]. apply in_map_iff. exists q.
    split; [|done]. destruct (has_key pj_ID (pj_ID p) q) eqn:K; [|done]. by apply has_key_true in K.
  - intros a Ha. by left.
Qed.

Lemma call_owned call ev d n :
  project_after call ev d n = d \/ owned_change (caller call) d (project_after call ev d n).
Proof.
  apply (wp_project_call call ev d n (fun d' => d' = d \/ owned_change (caller call) d d')).
  - by left.
  - intros i id cur t skills -> _ _ _. right. left. eexists _, skills. by split.
  - intros p t -> F _. right. apply moved_owned. by apply (find_project_id (pj_ID p)).
  - intros p t -> F _. right. apply moved_owned. by apply (find_project_id (pj_ID p)).
  - intros p a Hc F E. right. right. exists p. split; [by apply (find_project_id (pj_ID p))|].
    split; [done|]. split; [by intros q Hq _|].
    cbn [add_attachment put project_attachments_t project_attachments]. intros b [Hb|[<-|[]]]%in_app_iff; [by left|by right].
Qed.

(** Projects change only for their owner. If serving a request changed the
    tables, then it carried a user id, and the change is a new draft of that
    user, who then has a client account, or touches only one project that the
    user owns. *)
Theorem projects_change_for_their_owner x r ev d n
    (Hne : after_route x r ev d n <> d) :
  header r "X-User-Id" <> "" /\ owned_change (header r "X-User-Id") d (after_route x r ev d n) /\
  (x = CreateR -> header r "X-Account-Type" = "client").
Proof.
  rewrite project_route_call in *. destruct (project_call_of x r) as [call|] eqn:C; [|done]. cbn [after_call] in *.
  assert (header r "X-User-Id" <> "" /\ caller call = header r "X-User-Id" /\
    (x = CreateR -> header r "X-Account-Type" = "client")) as (Hu & Hc & Ha).
  { unfold project_call_of in C. destruct (String.eqb_spec (header r "X-User-Id") ""); [done|]. split; [done|].
    destruct x; try done.
    - destruct (String.eqb_spec (header r "X-Account-Type") "client"); [|done].
      destruct (obind _ decode_createProjectReq); [|done]. by injection C as <-.
    - by injection C as <-.
    - by injection C as <-.
    - destruct (obind _ decode_attachmentReq); [|done]. by injection C as <-. }
  split; [done|]. split; [|done]. rewrite <- Hc.
  by destruct (call_owned call ev d n).
Qed.

(** Posting needs the account type. *)
Lemma no_account_type_no_project r ev d n :
  header r "X-User-Id" <> "" -> header r "X-Account-Type" <> "client" ->
  serve CreateR r ev (rest d n) = (Ok (writeErr 403 "FORBIDDEN" "only client accounts may post projects"), rest d n).
Proof.
  intros Hu Ha. unfold serve, createProject. cbv zeta. cbn [principal UserID AccountType].
  destruct (String.eqb_spec (header r "X-User-Id") ""); [done|].
  by destruct (String.eqb_spec (header r "X-Account-Type") "client").
Qed.
End Routes.

(** ** Demonstration *)

#[export] Instance no_search : TextSearch := fun _ _ _ => false.

Definition post_request : request :=
  Request (fun h => if String.eqb h "X-User-Id" then "alice" else if String.eqb h "X-Account-Type" then "client" else "")
    (fun _ => "") (fun _ => "") 100
    (Some (JObj [("title", JStr "A site"); ("budget_type", JStr "fixed"); ("budget_min_cents", JInt 50000)])) None.

Definition posted_db : project_db := Eval vm_compute in
  after_route CreateR post_request quiet_env (no_projects ["alice"] [] []) 0.

Lemma posting : after_route CreateR post_request quiet_env (no_projects ["alice"] [] []) 0 = posted_db.
Proof. by vm_compute. Qed.

Example projects_change_for_their_owner_witness :
  owned_change "alice" (no_projects ["alice"] [] []) posted_db.
Proof.
  rewrite <- posting.
  refine (proj1 (proj2 (projects_change_for_their_owner CreateR post_request quiet_env (no_projects ["alice"] [] []) 0 _))).
  rewrite posting. discriminate.
Defined.
