(* ===== verification/AnalyticsStore.v ===== *)
(** * Analytics data layer (services/analytics/internal/store)

    The rollup tables of migration 000012, which upserts add to, and the
    processed_events rows that the service claims in the same transaction.
    Days are numbered from 1970-01-01.  The users table belongs to the auth
    service and is only counted here. *)
From S2P Require Export Kafka Strings.
From S2P Require Export Float64.

(** ** Row types *)

Record EventCountRow := mkEventCount {
  ec_Day : Z;
  ec_EventType : string;
  ec_Count : Z
}.

Record GMVRow := mkGMV {
  gm_Day : Z;
  gm_Currency : string;
  gm_GrossCents : Z;
  gm_FeeCents : Z;
  gm_NetCents : Z;
  gm_Contracts : Z
}.

Record FunnelRow := mkFunnel {
  fn_Day : Z;
  fn_ProjectsPublished : Z;
  fn_ProposalsSubmitted : Z;
  fn_ContractsActivated : Z
}.

Record analytics_db := mkAnalyticsDb {
  analytics_processed : list ProcessedEvent;
  event_counts : list EventCountRow;
  gmv_daily : list GMVRow;
  funnel_daily : list FunnelRow;
  users_deleted_at : list (option Z)       (* the deleted_at column of users *)
}.

Definition empty_analytics_db : analytics_db := mkAnalyticsDb [] [] [] [] [].

#[export] Instance analytics_HasProcessed : HasProcessed analytics_db :=
  Table analytics_processed (fun l d => mkAnalyticsDb l (event_counts d) (gmv_daily d) (funnel_daily d) (users_deleted_at d)).
Definition event_counts_t : table analytics_db EventCountRow :=
  Table event_counts (fun l d => mkAnalyticsDb (analytics_processed d) l (gmv_daily d) (funnel_daily d) (users_deleted_at d)).
Definition gmv_daily_t : table analytics_db GMVRow :=
  Table gmv_daily (fun l d => mkAnalyticsDb (analytics_processed d) (event_counts d) l (funnel_daily d) (users_deleted_at d)).
Definition funnel_daily_t : table analytics_db FunnelRow :=
  Table funnel_daily (fun l d => mkAnalyticsDb (analytics_processed d) (event_counts d) (gmv_daily d) l (users_deleted_at d)).

#[export] Instance analytics_Deferred : Deferred analytics_db := fun _ _ => true.

(** The service defines no error of its own. *)
Abbreviation aprog := (prog analytics_db Empty_set).

(** ** Writes *)

Definition ClaimEvent (group eventID : string) : aprog bool :=
  exec (record_processed group eventID).

Definition event_count_pk (r : EventCountRow) : Z * string := (ec_Day r, ec_EventType r).

Definition one_more (r : EventCountRow) : EventCountRow :=
  mkEventCount (ec_Day r) (ec_EventType r) (ec_Count r + 1).

Definition BumpEventCount (day : Z) (eventType : string) : aprog unit :=
  exec (upsert event_counts_t event_count_pk (fun r => bigint (ec_Count r))
          (mkEventCount day eventType 1) one_more).

Definition gmv_pk (r : GMVRow) : Z * string := (gm_Day r, gm_Currency r).

Definition gmv_check (r : GMVRow) : option dberr :=
  first_violation [ bigint (gm_GrossCents r); bigint (gm_FeeCents r); bigint (gm_NetCents r);
                    bigint (gm_Contracts r) ].

(** The row with the proposed amounts or contract added. *)
Definition gmv_plus (n r : GMVRow) : GMVRow :=
  mkGMV (gm_Day r) (gm_Currency r) (gm_GrossCents r + gm_GrossCents n) (gm_FeeCents r + gm_FeeCents n)
    (gm_NetCents r + gm_NetCents n) (gm_Contracts r + gm_Contracts n).

(** The upsert of a row whose currency fits CHAR(3). *)
Definition upsert_gmv (new : string -> GMVRow) (currency : string) : sql analytics_db unit := fun s d =>
  match bpchar 3 currency with
  | None => Reject InvalidText
  | Some cur => upsert gmv_daily_t gmv_pk gmv_check (new cur) (gmv_plus (new cur)) s d
  end.

Definition AddGMV (day : Z) (currency : string) (grossCents feeCents netCents : Z) : aprog unit :=
  exec (upsert_gmv (fun cur => mkGMV day cur grossCents feeCents netCents 0) currency).

Definition AddContractCount (day : Z) (currency : string) : aprog unit :=
  exec (upsert_gmv (fun cur => mkGMV day cur 0 0 0 1) currency).

(** The columns BumpFunnel is called with. *)
Inductive funnel_column := projects_published | proposals_submitted | contracts_activated.

Definition funnel_one (day : Z) (column : funnel_column) : FunnelRow :=
  match column with
  | projects_published => mkFunnel day 1 0 0
  | proposals_submitted => mkFunnel day 0 1 0
  | contracts_activated => mkFunnel day 0 0 1
  end.

Definition funnel_plus (n r : FunnelRow) : FunnelRow :=
  mkFunnel (fn_Day r) (fn_ProjectsPublished r + fn_ProjectsPublished n)
    (fn_ProposalsSubmitted r + fn_ProposalsSubmitted n) (fn_ContractsActivated r + fn_ContractsActivated n).

Definition funnel_check (r : FunnelRow) : option dberr :=
  first_violation [ bigint (fn_ProjectsPublished r); bigint (fn_ProposalsSubmitted r);
                    bigint (fn_ContractsActivated r) ].

Definition BumpFunnel (day : Z) (column : funnel_column) : aprog unit :=
  exec (upsert funnel_daily_t fn_Day funnel_check (funnel_one day column) (funnel_plus (funnel_one day column))).

(** ** Reads *)

Definition by_day_text `{Collation} {R} (day : R -> Z) (text : R -> string) (x y : R) : bool :=
  (day x <? day y) || ((day x =? day y) && text_le (text x) (text y)).

(** day >= $1 AND day <= $2 AND ($3 IS NULL OR column = $3) *)
Definition in_days (from to day : Z) : bool := (from <=? day) && (day <=? to).

Definition wanted (filter : option string) (column : string) : bool :=
  match filter with None => true | Some v => String.eqb column v end.

Definition EventCounts `{Collation} (from to : Z) (eventType : option string) : aprog (list EventCountRow) :=
  l <- exec_pool (select_all event_counts_t (fun r =>
         in_days from to (ec_Day r) && wanted eventType (ec_EventType r))) ;;
  ret (ordered_by (by_day_text ec_Day ec_EventType) l).

(** A comparison of CHAR(3) with a text ignores the padding. *)
Definition GMV `{Collation} (from to : Z) (currency : option string) : aprog (list GMVRow) :=
  l <- exec_pool (select_all gmv_daily_t (fun r =>
         in_days from to (gm_Day r) && wanted currency (trim_right (gm_Currency r)))) ;;
  ret (ordered_by (by_day_text gm_Day gm_Currency) l).

Definition Funnel (from to : Z) : aprog (list FunnelRow) :=
  l <- exec_pool (select_all funnel_daily_t (fun r => in_days from to (fn_Day r))) ;;
  ret (order_by fn_Day l).

(** SUM of a BIGINT column is NUMERIC; it is scanned into an int64. *)
Definition GMVTotals : aprog (Z * Z) :=
  l <- exec_pool (select_all gmv_daily_t (fun _ => true)) ;;
  let gross := sumZ gm_GrossCents l in
  let contracts := sumZ gm_Contracts l in
  if in_int64 gross && in_int64 contracts then ret (gross, contracts) else throw (Db ScanError).

Definition UserCount : aprog Z :=
  exec_pool (fun _ d => Done (countZ (fun u => match u with None => true | Some _ => false end)
                                (users_deleted_at d)) d).

(** * Analytics (services/analytics/internal/service and cmd/consumer)

    [IngestEvent] folds one event into every rollup it touches, in one
    transaction with the claim of the event; [ingest_delivery] is the handler
    the consumer runs for each message of the bus; the queries sum rollups. *)
(** ** Ingestion *)

Definition gmvEvents (eventType : string) : bool := String.eqb eventType "payment.captured".

Definition contractCountEvent : string := "contract.activated".

Definition funnelColumns (eventType : string) : option funnel_column :=
  if String.eqb eventType "project.published" then Some projects_published
  else if String.eqb eventType "proposal.submitted" then Some proposals_submitted
  else if String.eqb eventType "contract.activated" then Some contracts_activated
  else None.

Definition platformFeeBps : Z := 1000.

(** The integer division of Go truncates. *)
Definition platform_fee (amountCents : Z) : Z := Z.quot (wrap64 (amountCents * platformFeeBps)) 10000.

Definition nanos_per_day : Z := 86400000000000.

(** t.UTC().Truncate(24 * time.Hour), as a day. *)
Definition day_of (t : Z) : Z := t / nanos_per_day.

Definition apply_rollups (day : Z) (eventType : string) (amountCents : Z) (currency : string) : aprog unit :=
  BumpEventCount day eventType ;;;
  (if gmvEvents eventType then
     let fee := platform_fee amountCents in
     let net := sub64 amountCents fee in
     AddGMV day currency amountCents fee net
   else ret tt) ;;;
  (if String.eqb eventType contractCountEvent then AddContractCount day currency else ret tt) ;;;
  match funnelColumns eventType with
  | Some col => BumpFunnel day col
  | None => ret tt
  end.

Definition IngestEvent (group eventID eventType : string) (occurredAt amountCents : Z) (currency : string)
  : aprog unit :=
  let day := day_of occurredAt in
  let currency := if String.eqb currency "" then "USD" else currency in
  in_tx (
    claimed <- (if String.eqb eventID "" then ret true else ClaimEvent group eventID) ;;
    if negb claimed then commit else
    apply_rollups day eventType amountCents currency ;;;
    commit).

(** ** The consumer's handler *)

(** int64(v) of a float64 integer; out of range amd64 gives the least int64. *)
Definition int64_of_float (f : Z) : Z := if in_int64 f then f else int64_min.

Fixpoint centsField (o : list (string * json)) (keys : list string) : Z :=
  match keys with
  | [] => 0
  | k :: keys' => match member k o with
                  | Some (JInt v) => int64_of_float (float_of_int v)
                  | _ => centsField o keys'
                  end
  end.

Definition resolveEventType (topic : string) (m : list (string * json)) : string :=
  let t := stringField m ["type"; "event_type"] in
  if negb (String.eqb t "") then t
  else if String.eqb topic "payment.events" then "payment.captured"
  else if String.eqb topic "proposal.events" then "proposal.submitted"
  else if String.eqb topic "contract.events" then
    if has_member "dispute_id" m then "contract.disputed"
    else if has_member "milestone_id" m then "milestone.approved"
    else "contract.activated"
  else if String.eqb topic "worksession.events" then "worksession.closed"
  else if String.eqb topic "screenshot.ingested" then "screenshot.ingested"
  else if String.eqb topic "review.events" then "review.published"
  else if String.eqb topic "user.events" then
    if has_member "kyc_status" m then "user.kyc_updated" else "profile.updated"
  else if String.eqb topic "fraud.events" then
    if has_member "resolution" m then "fraud.case_resolved" else "fraud.case_opened"
  else if String.eqb topic "project.events" then
    if has_member "closed_at" m then "project.closed" else "project.published"
  else topic.

Definition consumerGroup : string := "analytics-consumer".

Definition event_type_of (m : Delivery) (payload : list (string * json)) : string :=
  if String.eqb (d_EventType m) "" then resolveEventType (d_Topic m) payload else d_EventType m.

Definition ingest_delivery (m : Delivery) : aprog unit :=
  match payload_members m with
  | None => ret tt
  | Some payload =>
      let amount := centsField payload ["amount_cents"; "bid_amount_cents"] in
      let currency := stringField payload ["currency"] in
      occurredAt <- time_now ;;
      IngestEvent consumerGroup (d_EventID m) (event_type_of m payload) occurredAt amount currency
  end.

(** ** Queries *)

Record GMVTotal := mkGMVTotal {
  gt_GrossCents : Z;
  gt_FeeCents : Z;
  gt_NetCents : Z;
  gt_Contracts : Z
}.

Definition gmv_total (rows : list GMVRow) : GMVTotal :=
  mkGMVTotal (sum64 (map gm_GrossCents rows)) (sum64 (map gm_FeeCents rows))
    (sum64 (map gm_NetCents rows)) (sum64 (map gm_Contracts rows)).

(** float64(num) / float64(denom) *)
Definition ratio (num denom : Z) : spec_float :=
  if denom =? 0 then f0 else fdiv (float64 num) (float64 denom).

Record FunnelResult := mkFunnelResult {
  fr_Rows : list FunnelRow;
  fr_ProjectsPublished : Z;
  fr_ProposalsSubmitted : Z;
  fr_ContractsActivated : Z;
  fr_ProposalRate : spec_float;
  fr_ActivationRate : spec_float
}.

Definition funnel_result (rows : list FunnelRow) : FunnelResult :=
  let projects := sum64 (map fn_ProjectsPublished rows) in
  let proposals := sum64 (map fn_ProposalsSubmitted rows) in
  let contracts := sum64 (map fn_ContractsActivated rows) in
  mkFunnelResult rows projects proposals contracts (ratio proposals projects) (ratio contracts proposals).

Section Queries.
Context `{Collation}.

Definition service_GMV (from to : Z) (currency : option string) : aprog (list GMVRow * GMVTotal) :=
  rows <- GMV from to currency ;;
  ret (rows, gmv_total rows).

Definition service_Funnel (from to : Z) : aprog FunnelResult :=
  rows <- Funnel from to ;;
  ret (funnel_result rows).

Record Summary := mkSummary {
  sm_TotalGMVCents : Z;
  sm_TotalContracts : Z;
  sm_TotalUsers : Z
}.

Definition service_Summary : aprog Summary :=
  totals <- GMVTotals ;;
  users <- UserCount ;;
  ret (mkSummary (fst totals) (snd totals) users).
End Queries.
