(* ===== verification/AnalyticsProofs.v ===== *)
(** * Analytics: every event is counted exactly once

    The upserts add to sums over the rollups; ingestion adds one event's worth
    or nothing; and in every state the consumer reaches the rollups are the
    sums over the events recorded as processed.  Then the routes. *)
From S2P Require Export Gateway.
From S2P Require Export AnalyticsStore Kafka.

(** ** What the rollups add up to *)

Definition when (b : bool) (z : Z) : Z := if b then z else 0.

(** The sums over the days of a set [on]. *)
Section Sums.
Context (on : Z -> bool).

(** The events of a type. *)
Definition counted (ty : string) (d : analytics_db) : Z :=
  sumZ (fun r => when (on (ec_Day r)) (when (String.eqb (ec_EventType r) ty) (ec_Count r))) (event_counts d).

Definition gmv_sum (column : GMVRow -> Z) (d : analytics_db) : Z :=
  sumZ (fun r => when (on (gm_Day r)) (column r)) (gmv_daily d).

Definition gross : analytics_db -> Z := gmv_sum gm_GrossCents.
Definition fees : analytics_db -> Z := gmv_sum gm_FeeCents.
Definition nets : analytics_db -> Z := gmv_sum gm_NetCents.
Definition contract_count : analytics_db -> Z := gmv_sum gm_Contracts.

Definition funnel_sum (column : FunnelRow -> Z) (d : analytics_db) : Z :=
  sumZ (fun r => when (on (fn_Day r)) (column r)) (funnel_daily d).

Definition funnel_projects : analytics_db -> Z := funnel_sum fn_ProjectsPublished.
Definition funnel_proposals : analytics_db -> Z := funnel_sum fn_ProposalsSubmitted.
Definition funnel_contracts : analytics_db -> Z := funnel_sum fn_ContractsActivated.

(** What is [z] for an event counted on a day. *)
Definition share (day : Z) (b : bool) (z : Z) : Z := when (on day) (when b z).

(** One event's worth of every rollup. *)
Record adds (day : Z) (ty : string) (amount : Z) (d d' : analytics_db) : Prop := {
  ad_counted x : counted x d' = counted x d + share day (String.eqb ty x) 1;
  ad_gross : gross d' = gross d + share day (gmvEvents ty) amount;
  ad_fees : fees d' = fees d + share day (gmvEvents ty) (platform_fee amount);
  ad_nets : nets d' = nets d + share day (gmvEvents ty) (sub64 amount (platform_fee amount));
  ad_contracts : contract_count d' = contract_count d + share day (String.eqb ty "contract.activated") 1;
  ad_projects : funnel_projects d' = funnel_projects d + share day (String.eqb ty "project.published") 1;
  ad_proposals : funnel_proposals d' = funnel_proposals d + share day (String.eqb ty "proposal.submitted") 1;
  ad_activated : funnel_contracts d' = funnel_contracts d + share day (String.eqb ty "contract.activated") 1;
  ad_processed : analytics_processed d' = analytics_processed d
}.
End Sums.

(** The primary keys of the rollup tables. *)
Record rollup_keys (d : analytics_db) : Prop := {
  rk_counts : List.NoDup (map event_count_pk (event_counts d));
  rk_gmv : List.NoDup (map gmv_pk (gmv_daily d));
  rk_funnel : List.NoDup (map fn_Day (funnel_daily d))
}.

(** A table after an upsert. *)
Definition count_table (day : Z) (ty : string) (d : analytics_db) : analytics_db :=
  put event_counts_t (upserted event_count_pk (mkEventCount day ty 1) one_more (event_counts d)) d.

Definition gmv_table (n : GMVRow) (d : analytics_db) : analytics_db :=
  put gmv_daily_t (upserted gmv_pk n (gmv_plus n) (gmv_daily d)) d.

Definition funnel_table (n : FunnelRow) (d : analytics_db) : analytics_db :=
  put funnel_daily_t (upserted fn_Day n (funnel_plus n) (funnel_daily d)) d.

Lemma count_table_keys day ty d : rollup_keys d -> rollup_keys (count_table day ty d).
Proof. intros [? ? ?]. constructor; try done. by apply upserted_NoDup. Qed.

Lemma gmv_table_keys n d : rollup_keys d -> rollup_keys (gmv_table n d).
Proof. intros [? ? ?]. constructor; try done. by apply upserted_NoDup. Qed.

Lemma funnel_table_keys n d : rollup_keys d -> rollup_keys (funnel_table n d).
Proof. intros [? ? ?]. constructor; try done. by apply upserted_NoDup. Qed.

Lemma when_add b x y : when b (x + y) = when b x + when b y.
Proof. by destruct b. Qed.

Lemma share_none on day b z : b = false -> share on day b z = 0.
Proof. intros ->. unfold share. by destruct (on day). Qed.

Section TableSums.
Context (on : Z -> bool).

Lemma count_table_counted day ty d x :
  rollup_keys d -> counted on x (count_table day ty d) = counted on x d + share on day (String.eqb ty x) 1.
Proof.
  intros HK. unfold counted, count_table. cbn [event_counts put event_counts_t].
  rewrite upserted_sum; [done|apply HK|]. intros r [= Hd Ht]. cbn. rewrite Hd, Ht, <- when_add.
  by destruct (String.eqb ty x).
Qed.

Lemma gmv_table_sum column n d : rollup_keys d ->
  (forall r, column (gmv_plus n r) = column r + column n) ->
  gmv_sum on column (gmv_table n d) = gmv_sum on column d + when (on (gm_Day n)) (column n).
Proof.
  intros HK Hc. unfold gmv_sum, gmv_table. cbn [gmv_daily put gmv_daily_t].
  rewrite upserted_sum; [done|apply HK|]. intros r [= Hd _]. rewrite Hc, when_add. cbn. by rewrite Hd.
Qed.

Lemma funnel_table_sum column n d : rollup_keys d ->
  (forall r, column (funnel_plus n r) = column r + column n) ->
  funnel_sum on column (funnel_table n d) = funnel_sum on column d + when (on (fn_Day n)) (column n).
Proof.
  intros HK Hc. unfold funnel_sum, funnel_table. cbn [funnel_daily put funnel_daily_t].
  rewrite upserted_sum; [done|apply HK|]. intros r Hd. rewrite Hc, when_add. cbn. by rewrite Hd.
Qed.
End TableSums.

(** ** Ingestion *)

Lemma wp_upsert_gmv new currency ev c t0 v n (Q : res Empty_set unit -> world analytics_db -> Prop) :
  (forall e w, committed w = c -> Q (Err e) w) ->
  (forall cur, Q (Ok tt) (World c (Live t0 (gmv_table (new cur) v)) (S n))) ->
  wp (exec (upsert_gmv new currency)) ev (World c (Live t0 v) n) Q.
Proof.
  intros Hf Hs. apply wp_exec; [intros _; by apply Hf|]. unfold upsert_gmv.
  destruct (bpchar 3 currency) as [cur|]; [|by apply Hf]. unfold upsert.
  destruct (first_violation _); [by apply Hf|apply Hs].
Qed.

(** The upserts that one event causes, with the currency as CHAR(3) stores it. *)
Definition gmv_part (day : Z) (ty : string) (amount : Z) (cur : string) (d : analytics_db) : analytics_db :=
  if gmvEvents ty
  then gmv_table (mkGMV day cur amount (platform_fee amount) (sub64 amount (platform_fee amount)) 0) d else d.

Definition contract_part (day : Z) (ty cur : string) (d : analytics_db) : analytics_db :=
  if String.eqb ty contractCountEvent then gmv_table (mkGMV day cur 0 0 0 1) d else d.

Definition funnel_part (day : Z) (ty : string) (d : analytics_db) : analytics_db :=
  match funnelColumns ty with
  | Some col => funnel_table (funnel_one day col) d
  | None => d
  end.

(** The money sums and the funnel sums. *)
Definition money (on : Z -> bool) (d : analytics_db) : Z * Z * Z * Z :=
  (gross on d, fees on d, nets on d, contract_count on d).
Definition funnel (on : Z -> bool) (d : analytics_db) : Z * Z * Z :=
  (funnel_projects on d, funnel_proposals on d, funnel_contracts on d).

Lemma when_zero b : when b 0 = 0.
Proof. by destruct b. Qed.

Lemma gmv_part_money on day ty amount cur d : rollup_keys d ->
  rollup_keys (gmv_part day ty amount cur d) /\
  money on (gmv_part day ty amount cur d) =
    (gross on d + share on day (gmvEvents ty) amount, fees on d + share on day (gmvEvents ty) (platform_fee amount),
     nets on d + share on day (gmvEvents ty) (sub64 amount (platform_fee amount)), contract_count on d).
Proof.
  intros HK. unfold gmv_part, share. destruct (gmvEvents ty); cbn [when].
  2: split; [done|]; unfold money; by rewrite when_zero, !Z.add_0_r.
  split; [by apply gmv_table_keys|]. unfold money, gross, fees, nets, contract_count.
  rewrite !gmv_table_sum by done. cbn. by rewrite when_zero, Z.add_0_r.
Qed.

Lemma contract_part_money on day ty cur d : rollup_keys d ->
  rollup_keys (contract_part day ty cur d) /\
  money on (contract_part day ty cur d) =
    (gross on d, fees on d, nets on d, contract_count on d + share on day (String.eqb ty "contract.activated") 1).
Proof.
  intros HK. unfold contract_part, contractCountEvent, share.
  destruct (String.eqb ty "contract.activated"); cbn [when].
  2: split; [done|]; unfold money; by rewrite when_zero, !Z.add_0_r.
  split; [by apply gmv_table_keys|]. unfold money, gross, fees, nets, contract_count.
  rewrite !gmv_table_sum by done. cbn. by rewrite !when_zero, !Z.add_0_r.
Qed.

Lemma funnel_part_funnel on day ty d : rollup_keys d ->
  rollup_keys (funnel_part day ty d) /\
  funnel on (funnel_part day ty d) =
    (funnel_projects on d + share on day (String.eqb ty "project.published") 1,
     funnel_proposals on d + share on day (String.eqb ty "proposal.submitted") 1,
     funnel_contracts on d + share on day (String.eqb ty "contract.activated") 1).
Proof.
  intros HK. unfold funnel_part, funnelColumns, share.
  assert (forall col, rollup_keys (funnel_table (funnel_one day col) d)) as Hk
    by (intros; by apply funnel_table_keys).
  destruct (String.eqb_spec ty "project.published") as [->|N1];
    [|destruct (String.eqb_spec ty "proposal.submitted") as [->|N2];
      [|destruct (String.eqb_spec ty "contract.activated") as [->|N3]]].
  4: split; [done|]; unfold funnel; cbn; by rewrite when_zero, !Z.add_0_r.
  all: split; [done|]; unfold funnel, funnel_projects, funnel_proposals, funnel_contracts;
    rewrite !funnel_table_sum by done; cbn; by rewrite !when_zero, !Z.add_0_r.
Qed.

(** All the upserts together. *)
Definition rolled_up (day : Z) (ty : string) (amount : Z) (cur1 cur2 : string) (d : analytics_db) : analytics_db :=
  funnel_part day ty (contract_part day ty cur2 (gmv_part day ty amount cur1 (count_table day ty d))).

Lemma rolled_up_adds on day ty amount cur1 cur2 d : rollup_keys d ->
  rollup_keys (rolled_up day ty amount cur1 cur2 d) /\
  adds on day ty amount d (rolled_up day ty amount cur1 cur2 d).
Proof.
  intros HK. unfold rolled_up. set (d1 := count_table day ty d).
  assert (rollup_keys d1) as HK1 by by apply count_table_keys.
  destruct (gmv_part_money on day ty amount cur1 d1 HK1) as [HK2 M2]. set (d2 := gmv_part _ _ _ _ d1) in *.
  destruct (contract_part_money on day ty cur2 d2 HK2) as [HK3 M3]. set (d3 := contract_part _ _ _ d2) in *.
  destruct (funnel_part_funnel on day ty d3 HK3) as [HK4 M4]. set (d4 := funnel_part _ _ d3) in *.
  split; [done|].
  assert (money on d4 = money on d3) as E4 by (unfold d4, funnel_part; by destruct (funnelColumns ty)).
  assert (funnel on d3 = funnel on d) as F3.
  { unfold d3, contract_part. destruct (String.eqb ty _); unfold d2, gmv_part; by destruct (gmvEvents ty). }
  assert (forall x, counted on x d4 = counted on x d1 /\ analytics_processed d4 = analytics_processed d) as Hx.
  { intros x. unfold d4, funnel_part. destruct (funnelColumns ty); unfold d3, contract_part;
      destruct (String.eqb ty _); unfold d2, gmv_part; by destruct (gmvEvents ty). }
  unfold money, funnel in *. injection M2 as ? ? ? ?. injection M3 as ? ? ? ?. injection M4 as ? ? ?.
  injection E4 as ? ? ? ?. injection F3 as ? ? ?.
  assert (gross on d1 = gross on d) by done. assert (fees on d1 = fees on d) by done.
  assert (nets on d1 = nets on d) by done. assert (contract_count on d1 = contract_count on d) by done.
  constructor; try lia.
  - intros x. rewrite (proj1 (Hx x)). by apply count_table_counted.
  - apply (Hx "").
Qed.

Lemma rolled_up_processed day ty amount cur1 cur2 d :
  analytics_processed (rolled_up day ty amount cur1 cur2 d) = analytics_processed d.
Proof.
  unfold rolled_up, funnel_part, contract_part, gmv_part.
  destruct (funnelColumns ty), (String.eqb ty _); by destruct (gmvEvents ty).
Qed.

(** Applying one event: an error, or all its upserts. *)
Lemma wp_apply_rollups day ty amount currency ev c t v n (Q : res Empty_set unit -> world analytics_db -> Prop) :
  (forall e w, committed w = c -> Q (Err e) w) ->
  (forall cur1 cur2 m, Q (Ok tt) (World c (Live t (rolled_up day ty amount cur1 cur2 v)) m)) ->
  wp (apply_rollups day ty amount currency) ev (World c (Live t v) n) Q.
Proof.
  intros Hf Hend. unfold apply_rollups, BumpEventCount, AddGMV, AddContractCount, BumpFunnel.
  unfold rolled_up, funnel_part, contract_part, gmv_part in Hend.
  apply wp_bind, wp_upsert; [intros; by apply Hf|]. change (put event_counts_t _ v) with (count_table day ty v).
  apply wp_bind. destruct (gmvEvents ty); [apply wp_upsert_gmv; [done|intros cur1]|apply wp_ret];
    (apply wp_bind; destruct (String.eqb ty contractCountEvent);
      [apply wp_upsert_gmv; [done|intros cur2]|apply wp_ret]);
    (destruct (funnelColumns ty) as [col|]; [apply wp_upsert; [intros; by apply Hf|]|apply wp_ret]).
  all: first [apply (Hend cur1 cur2) | apply (Hend cur1 "") | apply (Hend "" cur2) | apply (Hend "" "")].
Qed.

(** ** The claim *)

Definition is_claimed (eventID : string) (d : analytics_db) : bool :=
  existsb (is_processed consumerGroup eventID) (analytics_processed d).

Definition claim_row (eventID : string) (t : Z) (d : analytics_db) : analytics_db :=
  put processed (analytics_processed d ++ [mkProcessed consumerGroup eventID t]) d.

(** The tables after an event was claimed and applied. *)
Inductive ingested (eventID ty : string) (amount : Z) (d : analytics_db) : analytics_db -> Prop :=
| ingested_once t day cur1 cur2 : is_claimed eventID d = false ->
    ingested eventID ty amount d (rolled_up day ty amount cur1 cur2 (claim_row eventID t d)).

Lemma claimed_after eventID t d : is_claimed eventID (claim_row eventID t d) = true.
Proof.
  unfold is_claimed, claim_row. cbn. rewrite existsb_app. unfold is_processed. cbn.
  by rewrite !String.eqb_refl, orb_true_r.
Qed.

(** An event with an identifier: it was claimed before and nothing changes, or
    it is claimed and applied in full, or the call reports an error; after
    success it is claimed. *)
Lemma IngestEvent_once eventID ty at_time amount currency ev d n :
  eventID <> "" ->
  wp (IngestEvent consumerGroup eventID ty at_time amount currency) ev (World d NoTx n) (fun r w =>
    (committed w = d \/ ingested eventID ty amount d (committed w)) /\
    (r = Ok tt -> is_claimed eventID (committed w) = true)).
Proof.
  intros He. unfold IngestEvent. apply wp_in_tx; [intros _; by split; [left|]|].
  apply String.eqb_neq in He as ->. apply wp_bind. unfold ClaimEvent.
  apply wp_exec; [intros _; by split; [left|]|]. unfold record_processed.
  fold (is_claimed eventID d). change (rows processed d) with (analytics_processed d).
  destruct (is_claimed eventID d) eqn:C; pose proof C as C'; unfold is_claimed in C'; rewrite C'; cbn [negb].
  - apply wp_commit; intros; cbn [committed]; by split; [left|].
  - apply wp_bind, wp_apply_rollups; [intros e w ->; by split; [left|]|]. intros cur1 cur2 m.
    assert (forall t day, is_claimed eventID (rolled_up day ty amount cur1 cur2 (claim_row eventID t d)) = true) as Ha.
    { intros. unfold is_claimed. rewrite rolled_up_processed. apply claimed_after. }
    apply wp_commit; intros; cbn [committed]; (split; [|first [done | intros _; apply Ha]]);
      first [by left | right; by apply (ingested_once _ _ _ _ (clock ev n))].
Qed.

(** An event without one is applied again at each call. *)
Lemma IngestEvent_anonymous ty at_time amount currency g ev d n :
  wp (IngestEvent g "" ty at_time amount currency) ev (World d NoTx n) (fun r w =>
    analytics_processed (committed w) = analytics_processed d).
Proof.
  unfold IngestEvent. apply wp_in_tx; [done|]. apply wp_bind, wp_ret. cbn [negb].
  apply wp_bind, wp_apply_rollups; [by intros e w ->|]. intros cur1 cur2 m.
  apply wp_commit; intros; cbn [committed]; by rewrite ?rolled_up_processed.
Qed.

(** ** The handler is reliable *)

#[export] Instance analytics_processed_lawful : LawfulTable (processed (T := analytics_db)).
Proof. by split; intros; destruct d. Qed.

(** What the rollups take from a message: its type and amount. *)
Definition fold_event (m : Delivery) : option (string * Z) :=
  match payload_members m with
  | None => None
  | Some payload =>
      Some (event_type_of m payload, centsField payload ["amount_cents"; "bid_amount_cents"])
  end.

Lemma ingest_delivery_once m ev d n :
  wp (ingest_delivery m) ev (World d NoTx n) (fun r w =>
    match fold_event m with
    | None => committed w = d
    | Some (ty, amount) => d_EventID m <> "" ->
        (committed w = d \/ ingested (d_EventID m) ty amount d (committed w)) /\
        (r = Ok tt -> is_claimed (d_EventID m) (committed w) = true)
    end).
Proof.
  unfold ingest_delivery, fold_event. destruct (payload_members m) as [p|]; [|by apply wp_ret].
  apply wp_bind, wp_time_now.
  destruct (String.eqb_spec (d_EventID m) "") as [E|NE].
  - apply run_wp. by intros r w _ NE.
  - eapply wp_mono; [by apply IngestEvent_once|]. intros r w Hw _. exact Hw.
Qed.

Lemma ingested_processed eventID ty amount d d' : ingested eventID ty amount d d' ->
  exists t, analytics_processed d' = analytics_processed d ++ [mkProcessed consumerGroup eventID t].
Proof. intros [t day cur1 cur2 _]. exists t. by rewrite rolled_up_processed. Qed.

(** The rows of processed_events after the handler. *)
Lemma ingest_delivery_claims m ev d n :
  wp (ingest_delivery m) ev (World d NoTx n) (fun r w =>
    analytics_processed (committed w) = analytics_processed d \/
    exists t, analytics_processed (committed w) =
      analytics_processed d ++ [mkProcessed consumerGroup (d_EventID m) t]).
Proof.
  destruct (String.eqb_spec (d_EventID m) "") as [E|NE].
  - unfold ingest_delivery. destruct (payload_members m); [|apply wp_ret; by left].
    apply wp_bind, wp_time_now. rewrite E. eapply wp_mono; [apply IngestEvent_anonymous|]. by left.
  - eapply wp_mono; [apply ingest_delivery_once|]. intros r w. destruct (fold_event m) as [[ty a]|].
    + intros [[->|Hi%ingested_processed] _]%(fun f => f NE); auto.
    + intros ->. by left.
Qed.

(** Handled: counted, or nothing to count. *)
Definition taken (m : Delivery) (d : analytics_db) : Prop :=
  d_EventID m = "" \/ fold_event m = None \/ is_claimed (d_EventID m) d = true.

Lemma is_claimed_grows id d d' l :
  analytics_processed d' = analytics_processed d ++ l -> is_claimed id d = true -> is_claimed id d' = true.
Proof. unfold is_claimed. intros -> H. by rewrite existsb_app, H. Qed.

#[export] Instance analytics_reliable : Reliable consumerGroup ingest_delivery taken.
Proof.
  split.
  - intros m ev d n. eapply wp_mono; [apply ingest_delivery_once|]. intros r w Hw Hr. unfold taken.
    destruct (fold_event m) as [[ty a]|]; [|by right; left].
    destruct (String.eqb_spec (d_EventID m) "") as [E|NE]; [by left|]. right; right. by apply Hw.
  - intros m m' ev d n Hm. eapply wp_mono; [apply ingest_delivery_claims|]. intros r w Hw. unfold taken in *.
    destruct Hm as [?|[?|Hc]]; auto. right; right. destruct Hw as [E|[t E]].
    + unfold is_claimed in *. by rewrite E.
    + by apply (is_claimed_grows _ d _ _ E).
  - intros m ev d n. apply run_wp. intros r w Hrun x Hx _.
    pose proof (wp_run _ _ _ _ _ _ Hrun (ingest_delivery_claims m ev d n)) as Hc. cbn beta in Hc.
    pose proof (wp_run _ _ _ _ _ _ Hrun (ingest_delivery_once m ev d n)) as Ho. cbn beta in Ho.
    change (rows processed (committed w)) with (analytics_processed (committed w)) in Hx.
    change (rows processed d) with (analytics_processed d).
    destruct Hc as [E|[t E]]; rewrite E in Hx; [by left|].
    apply in_app_iff in Hx as [Hx|[<-|[]]]; [by left|right]. split; [done|]. right; right.
    unfold is_claimed. rewrite E, existsb_app. unfold is_processed. cbn.
    by rewrite !String.eqb_refl, orb_true_r.
  - intros m d s consumer id Hm. unfold record_processed. destruct (existsb _ _) eqn:X; [done|].
    destruct Hm as [?|[?|Hc]]; unfold taken; auto. right; right. by eapply is_claimed_grows.
Qed.

(** ** Exactly once *)

Section Exactly.
(** What each event identifier stands for: the relay gives every event of every
    outbox its own identifier. *)
Context (event_of : string -> option (string * Z)).

(** A delivery of the event that its identifier names. *)
Definition genuine (m : Delivery) : Prop :=
  d_EventID m <> "" /\ fold_event m = event_of (d_EventID m).

(** The sum of [f] over the distinct events recorded for the consumer, of those
    that were counted on the days of [on]. *)
Definition over_events (day : string -> Z) (on : Z -> bool) (f : string * Z -> Z) (d : analytics_db) : Z :=
  sumZ (fun r => when (String.eqb (pe_consumer r) consumerGroup)
    match event_of (pe_event_id r) with Some e => when (on (day (pe_event_id r))) (f e) | None => 0 end)
    (analytics_processed d).

(** [day] says on which day each event was counted. *)
Record exact (day : string -> Z) (d : analytics_db) : Prop := {
  ex_keys : rollup_keys d;
  ex_distinct : List.NoDup (map (fun r => (pe_consumer r, pe_event_id r)) (analytics_processed d));
  ex_counted on x : counted on x d = over_events day on (fun e => when (String.eqb (fst e) x) 1) d;
  ex_gross on : gross on d = over_events day on (fun e => when (gmvEvents (fst e)) (snd e)) d;
  ex_fees on : fees on d = over_events day on (fun e => when (gmvEvents (fst e)) (platform_fee (snd e))) d;
  ex_nets on : nets on d = over_events day on (fun e =>
    when (gmvEvents (fst e)) (sub64 (snd e) (platform_fee (snd e)))) d;
  ex_contracts on : contract_count on d =
    over_events day on (fun e => when (String.eqb (fst e) "contract.activated") 1) d;
  ex_projects on : funnel_projects on d =
    over_events day on (fun e => when (String.eqb (fst e) "project.published") 1) d;
  ex_proposals on : funnel_proposals on d =
    over_events day on (fun e => when (String.eqb (fst e) "proposal.submitted") 1) d;
  ex_activated on : funnel_contracts on d =
    over_events day on (fun e => when (String.eqb (fst e) "contract.activated") 1) d
}.

Lemma exact_empty : exact (fun _ => 0) empty_analytics_db.
Proof. constructor; try done; repeat constructor. Qed.

Lemma over_events_snoc day on f l r d :
  over_events day on f (put processed (l ++ [r]) d) =
  over_events day on f (put processed l d) +
  when (String.eqb (pe_consumer r) consumerGroup)
    match event_of (pe_event_id r) with Some e => when (on (day (pe_event_id r))) (f e) | None => 0 end.
Proof. unfold over_events. cbn. rewrite sumZ_app. cbn. lia. Qed.

Lemma over_events_processed day on f d d' :
  analytics_processed d' = analytics_processed d -> over_events day on f d' = over_events day on f d.
Proof. unfold over_events. by intros ->. Qed.

Lemma over_claim day on f id t d :
  over_events day on f (claim_row id t d) =
  over_events day on f d + match event_of id with Some e => when (on (day id)) (f e) | None => 0 end.
Proof.
  unfold claim_row. rewrite over_events_snoc. cbn [pe_consumer pe_event_id]. rewrite String.eqb_refl. cbn [when].
  by rewrite (over_events_processed day on f d (put processed (analytics_processed d) d)).
Qed.

(** The days of events that are not recorded do not matter. *)
Definition counted_at (id : string) (D : Z) (day : string -> Z) (i : string) : Z :=
  if String.eqb i id then D else day i.

Lemma over_counted_at day on f id D d :
  is_claimed id d = false -> over_events (counted_at id D day) on f d = over_events day on f d.
Proof.
  unfold is_claimed, over_events. induction (analytics_processed d) as [|r l IH]; [done|]. cbn [existsb sumZ].
  intros [Hr Hl]%orb_false_iff. rewrite IH by done. f_equal. unfold is_processed in Hr.
  destruct (String.eqb (pe_consumer r) consumerGroup) eqn:E; [|done]. cbn [when]. unfold counted_at.
  cbn [andb] in Hr. by rewrite Hr.
Qed.

Lemma claim_distinct id t d :
  is_claimed id d = false ->
  List.NoDup (map (fun r => (pe_consumer r, pe_event_id r)) (analytics_processed d)) ->
  List.NoDup (map (fun r => (pe_consumer r, pe_event_id r)) (analytics_processed (claim_row id t d))).
Proof.
  intros C Hd. cbn. rewrite map_app. apply List.NoDup_app; [done|cbn; constructor; [by intros []|constructor]|].
  intros k (r & <- & Hr)%in_map_iff [[= Hc Hi]|[]]. apply not_true_iff_false in C. apply C, existsb_exists.
  exists r. split; [done|]. unfold is_processed. by rewrite <- Hc, <- Hi, !String.eqb_refl.
Qed.

(** An event counted on top of exact tables. *)
Lemma exact_ingested day id ty amount d d' :
  event_of id = Some (ty, amount) -> exact day d -> ingested id ty amount d d' -> exists day', exact day' d'.
Proof.
  intros He Hx [t D cur1 cur2 C]. exists (counted_at id D day). set (d1 := claim_row id t d).
  assert (rollup_keys d1) as HK1 by (by destruct (ex_keys _ _ Hx)).
  pose proof (fun on => proj2 (rolled_up_adds on D ty amount cur1 cur2 d1 HK1)) as Ha.
  destruct (rolled_up_adds (fun _ => true) D ty amount cur1 cur2 d1 HK1) as [HK' _].
  set (d2 := rolled_up _ _ _ _ _ d1) in *.
  assert (forall on f, over_events (counted_at id D day) on f d2 =
    over_events day on f d + when (on D) (f (ty, amount))) as Ho.
  { intros on f. rewrite (over_events_processed _ on f d1 d2) by apply (ad_processed _ _ _ _ _ _ (Ha on)). unfold d1.
    rewrite over_claim, He, over_counted_at by done. unfold counted_at. by rewrite String.eqb_refl. }
  constructor; try done; intros; rewrite ?Ho.
  - rewrite (ad_processed _ _ _ _ _ _ (Ha (fun _ => true))). by apply claim_distinct, Hx.
  - rewrite (ad_counted _ _ _ _ _ _ (Ha on)). change (counted on x d1) with (counted on x d). by rewrite (ex_counted _ _ Hx).
  - rewrite (ad_gross _ _ _ _ _ _ (Ha on)). change (gross on d1) with (gross on d). by rewrite (ex_gross _ _ Hx).
  - rewrite (ad_fees _ _ _ _ _ _ (Ha on)). change (fees on d1) with (fees on d). by rewrite (ex_fees _ _ Hx).
  - rewrite (ad_nets _ _ _ _ _ _ (Ha on)). change (nets on d1) with (nets on d). by rewrite (ex_nets _ _ Hx).
  - rewrite (ad_contracts _ _ _ _ _ _ (Ha on)). change (contract_count on d1) with (contract_count on d).
    by rewrite (ex_contracts _ _ Hx).
  - rewrite (ad_projects _ _ _ _ _ _ (Ha on)). change (funnel_projects on d1) with (funnel_projects on d).
    by rewrite (ex_projects _ _ Hx).
  - rewrite (ad_proposals _ _ _ _ _ _ (Ha on)). change (funnel_proposals on d1) with (funnel_proposals on d).
    by rewrite (ex_proposals _ _ Hx).
  - rewrite (ad_activated _ _ _ _ _ _ (Ha on)). change (funnel_contracts on d1) with (funnel_contracts on d).
    by rewrite (ex_activated _ _ Hx).
Qed.

(** Recording an event that counts for nothing. *)
Lemma exact_recorded day id t d :
  event_of id = None -> is_claimed id d = false -> exact day d -> exact day (claim_row id t d).
Proof.
  intros He C Hx.
  assert (forall on f, over_events day on f (claim_row id t d) = over_events day on f d) as Ho
    by (intros on f; rewrite over_claim, He; lia).
  constructor; intros; rewrite ?Ho; try apply Hx.
  - by destruct (ex_keys _ _ Hx).
  - by apply claim_distinct, Hx.
Qed.

Definition analytics_consumer : Consumer := WithDedupe (NewConsumer consumerGroup).

Lemma session_exact map_order error_text ctx_done session ev s n :
  Forall (fun k => genuine (decode (km k))) session -> (exists day, exact day (fst s)) ->
  wp (Run map_order error_text ctx_done analytics_consumer ingest_delivery session) ev (World s NoTx n)
    (fun _ w => exists day, exact day (fst (committed w))).
Proof.
  intros Hc Hs. apply (Run_stays _ _ _ _ _ (fun d => exists day, exact day d) taken genuine); try done.
  - intros m ev' d n' [NE Hm] Hx. apply run_wp. intros r w Hrun.
    pose proof (wp_run _ _ _ _ _ _ Hrun (ingest_delivery_once m ev' d n')) as Ho. cbn beta in Ho.
    split; [|intros ->; exact (wp_run _ _ _ _ _ _ Hrun (handler_ok (Reliable := analytics_reliable) m ev' d n') eq_refl)].
    destruct (fold_event m) as [[ty a]|]; [|by rewrite Ho].
    destruct (Ho NE) as [[->|Hi] _]; [done|]. destruct Hx as [day Hx]. by eapply exact_ingested.
  - intros m d s0 [NE Hm] Hx Hr. unfold record_processed.
    change (existsb _ _) with (is_claimed (d_EventID m) d).
    destruct (is_claimed (d_EventID m) d) eqn:C; [done|].
    destruct Hx as [day Hx]. exists day. change (exact day (claim_row (d_EventID m) (now s0) d)).
    apply exact_recorded; try done.
    destruct Hr as [?|[Hf|Hc']]; congruence.
Qed.

(** The states the deployed consumer reaches: sessions of deliveries, each
    possibly repeated, cut short or replayed; the users table belongs to
    another service. *)
Inductive consumed : analytics_db * Broker -> Prop :=
| consumed_start : consumed (empty_analytics_db, mkBroker [] [])
| consumed_session s map_order error_text ctx_done session ev n :
    consumed s -> Forall (fun k => genuine (decode (km k))) session ->
    consumed (committed (snd (Run map_order error_text ctx_done analytics_consumer ingest_delivery
                                session ev (World s NoTx n))))
| consumed_users d b users : consumed (d, b) ->
    consumed (mkAnalyticsDb (analytics_processed d) (event_counts d) (gmv_daily d) (funnel_daily d) users, b).

Lemma consumed_exact s : consumed s -> exists day, exact day (fst s).
Proof.
  induction 1 as [|s mo et cd session ev n _ IH Hs|d b users _ IH].
  - eexists. apply exact_empty.
  - exact (session_exact mo et cd session ev s n Hs IH).
  - destruct IH as [day [[? ? ?] ? ? ? ? ? ? ? ? ?]]. exists day. by constructor.
Qed.
End Exactly.

(** C18: Whatever fails, and however often deliveries are repeated: in every
    state the analytics consumer reaches, each event recorded as processed was
    counted on one day, and over any set of days each rollup is exactly the sum
    over the distinct events counted on them - the event counts of each type,
    the gross, fee and net volume of the captured payments, the activated
    contracts, and the projects, proposals and contracts of the funnel. *)
Theorem events_counted_exactly_once (event_of : string -> option (string * Z)) s
    (Hs : consumed event_of s) :
  let d := fst s in
  List.NoDup (map (fun r => (pe_consumer r, pe_event_id r)) (analytics_processed d)) /\
  exists day : string -> Z, forall on : Z -> bool,
    let over f := over_events event_of day on f d in
    (forall ty, counted on ty d = over (fun e => when (String.eqb (fst e) ty) 1)) /\
    gross on d = over (fun e => when (gmvEvents (fst e)) (snd e)) /\
    fees on d = over (fun e => when (gmvEvents (fst e)) (platform_fee (snd e))) /\
    nets on d = over (fun e => when (gmvEvents (fst e)) (sub64 (snd e) (platform_fee (snd e)))) /\
    contract_count on d = over (fun e => when (String.eqb (fst e) "contract.activated") 1) /\
    funnel_projects on d = over (fun e => when (String.eqb (fst e) "project.published") 1) /\
    funnel_proposals on d = over (fun e => when (String.eqb (fst e) "proposal.submitted") 1) /\
    funnel_contracts on d = over (fun e => when (String.eqb (fst e) "contract.activated") 1).
Proof.
  destruct (consumed_exact event_of s Hs) as [day [? ? ? ? ? ? ? ? ? ?]]. split; [done|]. exists day. by repeat split.
Qed.

Definition demo_event (id ty : string) (amount : Z) : Message :=
  mkMessage "payment.events" "k" (JObj [("amount_cents", JInt amount); ("currency", JStr "USD")])
    [("event-id", id); ("event-type", ty)].

Definition demo_catalogue (id : string) : option (string * Z) :=
  if String.eqb id "payment:1" then Some ("payment.captured", 2500)
  else if String.eqb id "contract:1" then Some ("contract.activated", 900) else None.

(** The payment is delivered twice. *)
Definition demo_session : list Fetched :=
  [ mkFetched 0 (demo_event "payment:1" "payment.captured" 2500);
    mkFetched 1 (demo_event "payment:1" "payment.captured" 2500);
    mkFetched 2 (demo_event "contract:1" "contract.activated" 900) ].

Definition demo_consumed : analytics_db * Broker :=
  committed (snd (Run (fun h => h) (fun _ => "") (fun _ => false) analytics_consumer ingest_delivery
    demo_session quiet_env (World (empty_analytics_db, mkBroker [] []) NoTx 0))).

Example events_counted_exactly_once_witness :
  let all (_ : Z) := true in
  gross all (fst demo_consumed) = 2500 /\ contract_count all (fst demo_consumed) = 1 /\
  commits (snd demo_consumed) = [0; 1; 2] /\
  exists day, over_events demo_catalogue day all (fun e => when (gmvEvents (fst e)) (snd e)) (fst demo_consumed) = 2500 /\
    over_events demo_catalogue day all
      (fun e => when (gmvEvents (fst e)) (sub64 (snd e) (platform_fee (snd e)))) (fst demo_consumed) = 2250.
Proof.
  assert (consumed demo_catalogue demo_consumed) as H.
  { apply consumed_session; [constructor|]. repeat constructor; done. }
  destruct (events_counted_exactly_once demo_catalogue demo_consumed H) as (_ & day & Hd).
  destruct (Hd (fun _ => true)) as (_ & Hg & _ & Hn & _).
  split; [by vm_compute|]. split; [by vm_compute|]. split; [by vm_compute|]. exists day.
  split; [rewrite <- Hg|rewrite <- Hn]; by vm_compute.
Defined.

Example committed_messages_are_settled_witness :
  commits (snd demo_consumed) = [0; 1; 2] /\
  exists l, commits (snd demo_consumed) = [] ++ l /\
    forall o, In o l -> exists k, In k demo_session /\ km_Offset k = o /\
      settled (E := Empty_set) (fun h => h) (fun _ => "") analytics_consumer taken (decode (km k)) demo_consumed.
Proof.
  split; [by vm_compute|].
  refine (proj2 (committed_messages_are_settled (fun h => h) (fun _ => "") (fun _ => false) analytics_consumer
    ingest_delivery taken demo_session quiet_env empty_analytics_db (mkBroker [] []) 0 _ _)).
  - reflexivity.
  - intros r Hr. cbn in Hr. destruct Hr.
Defined.

(** * Analytics REST transport (services/analytics/internal/httpapi) *)
From stdpp Require Import pretty.
#[local] Open Scope Z_scope.

(** ** Handlers *)

Definition queryPtr (r : request) (key : string) : option string :=
  let v := query r key in if String.eqb v "" then None else Some v.

Definition internal_error {A} (m : aprog A) : step (D := analytics_db) (E := Empty_set) A :=
  or_mapped (fun _ => writeErr 500 "INTERNAL" "something went wrong") m.

Definition parseRange (r : request) : step (D := analytics_db) (E := Empty_set) (Z * Z) :=
  t <- time_now ;;
  let today := day_of t in
  let v := query r "from" in
  match (if String.eqb v "" then Some (today - 30) else parse_date v) with
  | None => reply_with (writeErr 400 "VALIDATION_FAILED" "from must be YYYY-MM-DD")
  | Some from =>
      let v := query r "to" in
      match (if String.eqb v "" then Some today else parse_date v) with
      | None => reply_with (writeErr 400 "VALIDATION_FAILED" "to must be YYYY-MM-DD")
      | Some to =>
          if to <? from then reply_with (writeErr 400 "VALIDATION_FAILED" "from must not be after to")
          else go_on (from, to)
      end
  end.

Definition range_members (range : Z * Z) : list (string * json) :=
  [("from", JStr (format_date (fst range))); ("to", JStr (format_date (snd range)))].

Section Api.
Context `{Collation}.

Definition eventCounts (r : request) : aprog response :=
  range <-? parseRange r ;;
  out <-? internal_error (EventCounts (fst range) (snd range) (queryPtr r "type")) ;;
  ret (writeJSON 200 (JObj (range_members range ++
    [("rows", JList (map (fun x => JObj [("day", JStr (format_date (ec_Day x)));
        ("event_type", JStr (ec_EventType x)); ("count", JInt (ec_Count x))]) out))]))).

Definition gmv (r : request) : aprog response :=
  range <-? parseRange r ;;
  res <-? internal_error (service_GMV (fst range) (snd range) (queryPtr r "currency")) ;;
  ret (writeJSON 200 (JObj (range_members range ++
    [("rows", JList (map (fun x => JObj [("day", JStr (format_date (gm_Day x)));
        ("currency", JStr (gm_Currency x)); ("gross_cents", JInt (gm_GrossCents x));
        ("fee_cents", JInt (gm_FeeCents x)); ("net_cents", JInt (gm_NetCents x));
        ("contracts", JInt (gm_Contracts x))]) (fst res)));
     ("total", JObj [("gross_cents", JInt (gt_GrossCents (snd res)));
        ("fee_cents", JInt (gt_FeeCents (snd res))); ("net_cents", JInt (gt_NetCents (snd res)));
        ("contracts", JInt (gt_Contracts (snd res)))])]))).

Definition funnel_route (r : request) : aprog response :=
  range <-? parseRange r ;;
  res <-? internal_error (service_Funnel (fst range) (snd range)) ;;
  ret (writeJSON 200 (JObj (range_members range ++
    [("rows", JList (map (fun x => JObj [("day", JStr (format_date (fn_Day x)));
        ("projects_published", JInt (fn_ProjectsPublished x));
        ("proposals_submitted", JInt (fn_ProposalsSubmitted x));
        ("contracts_activated", JInt (fn_ContractsActivated x))]) (fr_Rows res)));
     ("totals", JObj [("projects_published", JInt (fr_ProjectsPublished res));
        ("proposals_submitted", JInt (fr_ProposalsSubmitted res));
        ("contracts_activated", JInt (fr_ContractsActivated res))]);
     ("conversion", JObj [("proposal_rate", JFloat (fr_ProposalRate res));
        ("activation_rate", JFloat (fr_ActivationRate res))])]))).

Definition summary (r : request) : aprog response :=
  s <-? internal_error service_Summary ;;
  ret (writeJSON 200 (JObj [("total_gmv_cents", JInt (sm_TotalGMVCents s));
    ("total_contracts", JInt (sm_TotalContracts s)); ("total_users", JInt (sm_TotalUsers s))])).

(** ingestReq *)
Record ingestReq := mkIngestReq {
  ir_EventType : string;
  ir_OccurredAt : option string;
  ir_AmountCents : Z;
  ir_Currency : string
}.

Definition decode_ingestReq (o : list (string * json)) : option ingestReq :=
  match str_field "event_type" o, field (into_opt as_string) None "occurred_at" o,
        int_field "amount_cents" o, str_field "currency" o with
  | Some ty, Some at_, Some a, Some cur => Some (mkIngestReq ty at_ a cur)
  | _, _, _, _ => None
  end.

(** occurred_at, when given and not empty. *)
Definition occurred_at (req : ingestReq) : option string :=
  match ir_OccurredAt req with
  | Some s => if String.eqb s "" then None else Some s
  | None => None
  end.

Definition ingest (r : request) : aprog response :=
  req <-? Http.decode decode_ingestReq r ;;
  if String.eqb (ir_EventType req) ""
  then ret (writeErr 400 "VALIDATION_FAILED" "event_type is required") else
  t <- time_now ;;
  match (match occurred_at req with None => Some t | Some s => parse_rfc3339 s end) with
  | None => ret (writeErr 400 "VALIDATION_FAILED" "occurred_at must be RFC3339")
  | Some occurredAt =>
      _ <-? internal_error (IngestEvent "" "" (ir_EventType req) occurredAt
              (ir_AmountCents req) (ir_Currency req)) ;;
      ret (writeJSON 202 (JObj [("accepted", JBool true)]))
  end.

(** The routes. *)
Inductive route := REventCounts | RGmv | RFunnel | RSummary | RIngest.

Definition serve (x : route) (r : request) : aprog response :=
  match x with
  | REventCounts => eventCounts r
  | RGmv => gmv r
  | RFunnel => funnel_route r
  | RSummary => summary r
  | RIngest => ingest r
  end.
End Api.

Example parse_format_leap : parse_date (format_date 19782) = Some 19782.
Proof. vm_compute. reflexivity. Qed.
