(* ===== verification/TrackingStore.v ===== *)
(** * Time tracking data layer (services/timetracking/internal/store)

    Work sessions, time slices and weekly timesheets with the constraints of
    migration 000006.  Of the contracts table only the hourly terms are read; of
    users and devices only the identifiers. *)
From S2P Require Export Outbox Rbac Strings Gateway.
From S2P Require Export ContractParties Activity.

(** ** Row types *)

Record WorkSession := mkSession {
  ws_id : string;
  ws_contract_id : string;
  ws_freelancer_id : string;
  ws_device_id : option string;
  ws_status : string;
  ws_started_at : Z;
  ws_ended_at : option Z;
  ws_active_seconds : Z;
  ws_idle_seconds : Z;
  ws_billed_seconds : Z;
  ws_avg_activity_pct : option Z;
  ws_memo : option string;
  ws_timezone : string;
  ws_billing_week : string
}.

(** Slice carries one ingested billing unit; its IsIdle is not stored. *)
Record Slice := mkSlice {
  sl_SessionID : string;
  sl_ContractID : string;
  sl_Start : Z;
  sl_End : Z;
  sl_KeyboardEvents : Z;
  sl_MouseEvents : Z;
  sl_ActiveSeconds : Z;
  sl_ActivityPct : Z;
  sl_ActiveApp : string;
  sl_ActiveAppTitle : string;
  sl_BrowserHost : string;
  sl_ScreenshotID : string;
  sl_IsIdle : bool;
  sl_IsManual : bool;
  sl_Flagged : bool;
  sl_FlagReason : string
}.

Record TimeSlice := mkTimeSlice {
  ts_id : string;
  ts_slice : Slice          (* screenshot_id: the empty string is NULL *)
}.

Record Timesheet := mkTimesheet {
  tm_id : string;
  tm_contract_id : string;
  tm_billing_week : string;
  tm_total_seconds : Z;
  tm_billable_seconds : Z;
  tm_amount_cents : Z;
  tm_avg_activity_pct : option Z;
  tm_status : string
}.

Record ContractTerms := mkTerms {
  HourlyRateCents : Z;
  WeeklyHourLimit : Z
}.

(** The columns of contracts that are read here. *)
Record ContractRow := mkContractRow {
  cr_id : string;
  cr_hourly_rate_cents : option Z;
  cr_weekly_hour_limit : option Z
}.

Record tracking_db := mkTrackingDb {
  work_sessions : list WorkSession;
  time_slices : list TimeSlice;
  timesheets : list Timesheet;
  contract_rows : list ContractRow;
  user_ids : list string;
  device_ids : list string;
  tracking_outbox : list OutboxRow
}.

Definition work_sessions_t : table tracking_db WorkSession :=
  Table work_sessions (fun l d => mkTrackingDb l (time_slices d) (timesheets d) (contract_rows d) (user_ids d)
                                    (device_ids d) (tracking_outbox d)).
Definition time_slices_t : table tracking_db TimeSlice :=
  Table time_slices (fun l d => mkTrackingDb (work_sessions d) l (timesheets d) (contract_rows d) (user_ids d)
                                  (device_ids d) (tracking_outbox d)).
Definition timesheets_t : table tracking_db Timesheet :=
  Table timesheets (fun l d => mkTrackingDb (work_sessions d) (time_slices d) l (contract_rows d) (user_ids d)
                                 (device_ids d) (tracking_outbox d)).
#[export] Instance tracking_HasOutbox : HasOutbox tracking_db :=
  Table tracking_outbox (fun l d => mkTrackingDb (work_sessions d) (time_slices d) (timesheets d) (contract_rows d)
                                      (user_ids d) (device_ids d) l).

#[export] Instance tracking_Deferred : Deferred tracking_db := fun _ _ => true.

(** store.ErrNotFound and rbac.ErrForbidden. *)
Inductive tracking_err := ErrNotFound | ErrForbidden.

Abbreviation tprog := (prog tracking_db tracking_err).

(** ** Sessions *)

Definition find_session (id : string) (d : tracking_db) : option WorkSession :=
  List.find (has_key ws_id id) (work_sessions d).

Definition SessionFreelancer (sessionID : string) : tprog string :=
  o <- exec_pool (fun _ d => Done (find_session sessionID d) d) ;;
  match o with
  | None => fail ErrNotFound
  | Some s => ret (ws_freelancer_id s)
  end.

Definition nullif_empty (s : string) : option string := if String.eqb s "" then None else Some s.

Definition open_session (id contractID freelancerID deviceID tz billingWeek : string) (startedAt : Z) : WorkSession :=
  mkSession id contractID freelancerID (nullif_empty deviceID) "open" (to_timestamptz startedAt) None 0 0 0 None None
    tz billingWeek.

Definition known (name : string) (l : list string) (id : string) : option dberr :=
  references name (String.eqb id) l.

Definition OpenSession (contractID freelancerID deviceID tz billingWeek : string) (startedAt : Z) : tprog string :=
  s <- exec (fun s d =>
    insert_row work_sessions_t (fun l r => first_violation
        [ unique_index "work_sessions_pkey" (fun x r => String.eqb (ws_id x) (ws_id r)) l r;
          references "work_sessions_contract_id_fkey" (has_key cr_id contractID) (contract_rows d);
          known "work_sessions_freelancer_id_fkey" (user_ids d) freelancerID;
          match ws_device_id r with
          | Some dev => known "work_sessions_device_id_fkey" (device_ids d) dev
          | None => None
          end ])
      (fun s => open_session (fresh s) contractID freelancerID deviceID tz billingWeek startedAt) s d) ;;
  ret (ws_id s).

(** ** Slices *)

(** The stored form: instants keep microseconds. *)
Definition stored_slice (sl : Slice) : Slice :=
  mkSlice (sl_SessionID sl) (sl_ContractID sl) (to_timestamptz (sl_Start sl)) (to_timestamptz (sl_End sl))
    (sl_KeyboardEvents sl) (sl_MouseEvents sl) (sl_ActiveSeconds sl) (sl_ActivityPct sl) (sl_ActiveApp sl)
    (sl_ActiveAppTitle sl) (sl_BrowserHost sl) (sl_ScreenshotID sl) false (sl_IsManual sl) (sl_Flagged sl)
    (sl_FlagReason sl).

Definition slice_key (r : TimeSlice) : string * Z := (sl_SessionID (ts_slice r), sl_Start (ts_slice r)).

(** The SET clause: contract_id and slice_end stay. *)
Definition reingested (new old : TimeSlice) : TimeSlice :=
  let n := ts_slice new in
  let o := ts_slice old in
  mkTimeSlice (ts_id old)
    (mkSlice (sl_SessionID o) (sl_ContractID o) (sl_Start o) (sl_End o) (sl_KeyboardEvents n) (sl_MouseEvents n)
       (sl_ActiveSeconds n) (sl_ActivityPct n) (sl_ActiveApp n) (sl_ActiveAppTitle n) (sl_BrowserHost n)
       (sl_ScreenshotID n) (sl_IsIdle o) (sl_IsManual n) (sl_Flagged n) (sl_FlagReason n)).

Definition in_int16 (z : Z) : bool := (- 2 ^ 15 <=? z) && (z <=? 2 ^ 15 - 1).

(** INT columns refuse a Go int that does not fit, before the statement is
    sent. *)
Definition UpsertSlice (sl : Slice) : tprog unit :=
  if negb (in_int32 (sl_KeyboardEvents sl) && in_int32 (sl_MouseEvents sl) && in_int32 (sl_ActiveSeconds sl) &&
           in_int16 (sl_ActivityPct sl))
  then throw (Db ScanError) else
  exec (fun s d =>
    match references "time_slices_session_id_fkey" (has_key ws_id (sl_SessionID sl)) (work_sessions d) with
    | Some e => Reject e
    | None =>
        let new := mkTimeSlice (fresh s) (stored_slice sl) in
        upsert time_slices_t slice_key (fun _ => None) new (reingested new) s d
    end).

(** ** Closing *)

Definition session_slices (sessionID : string) (d : tracking_db) : list Slice :=
  List.filter (has_key sl_SessionID sessionID) (map ts_slice (time_slices d)).

(** round() of numerics: halves away from zero. *)
Definition round_half_away (num den : Z) : Z := Z.sgn num * ((2 * Z.abs num + den) / (2 * den)).

(** extract(epoch FROM (slice_end-slice_start))::int *)
Definition slice_length (s : Slice) : Z := round_half_away (sl_End s - sl_Start s) 1000000000.

(** The three aggregates, or the overflow of an int4 in one of them. *)
Definition slice_totals (l : list Slice) : option (Z * Z * Z) :=
  if forallb (fun s => in_int32 (slice_length s) && in_int32 (slice_length s - sl_ActiveSeconds s)) l
  then Some (sumZ sl_ActiveSeconds l, sumZ (fun s => Z.max (slice_length s - sl_ActiveSeconds s) 0) l,
             match l with [] => 0 | _ => round_half_away (sumZ sl_ActivityPct l) (Z.of_nat (length l)) end)
  else None.

Definition closed_session (endedAt : Z) (memo : string) (active idle avgPct : Z) (s : WorkSession) : WorkSession :=
  mkSession (ws_id s) (ws_contract_id s) (ws_freelancer_id s) (ws_device_id s) "closed" (ws_started_at s)
    (Some (to_timestamptz endedAt)) active idle active (Some avgPct) (Some memo) (ws_timezone s) (ws_billing_week s).

Definition CloseSession (sessionID : string) (endedAt : Z) (memo : string) : tprog (Z * Z * Z * string * string) :=
  t <- exec (fun _ d => match slice_totals (session_slices sessionID d) with
                        | Some t => Done t d
                        | None => Reject NumericOutOfRange
                        end) ;;
  let '(active, idle, avgPct) := t in
  if negb (in_int32 active && in_int32 idle && in_int16 avgPct) then throw (Db ScanError) else
  l <- exec (update_rows work_sessions_t (has_key ws_id sessionID)
         (fun _ => closed_session endedAt memo active idle avgPct) (fun _ => None)) ;;
  match l with
  | [] => throw (Db Driver)
  | s :: _ => ret (active, idle, avgPct, ws_contract_id s, ws_billing_week s)
  end.

(** ** Timesheets *)

Definition timesheet_key (r : Timesheet) : string * string := (tm_contract_id r, tm_billing_week r).

Definition accrued (new old : Timesheet) : Timesheet :=
  mkTimesheet (tm_id old) (tm_contract_id old) (tm_billing_week old) (tm_total_seconds old + tm_total_seconds new)
    (tm_billable_seconds old + tm_billable_seconds new) (tm_amount_cents old + tm_amount_cents new)
    (tm_avg_activity_pct new) (tm_status old).

(** rateCents * int64(billableSeconds) / 3600 *)
Definition accrual_amount (rateCents billableSeconds : Z) : Z := Z.quot (wrap64 (rateCents * billableSeconds)) 3600.

Definition timesheet_check (r : Timesheet) : option dberr :=
  if in_int32 (tm_total_seconds r) && in_int32 (tm_billable_seconds r) then bigint (tm_amount_cents r)
  else Some NumericOutOfRange.

Definition AccrueTimesheet (contractID week : string) (billableSeconds avgPct rateCents : Z) : tprog unit :=
  let amount := accrual_amount rateCents billableSeconds in
  if negb (in_int32 billableSeconds && in_int16 avgPct) then throw (Db ScanError) else
  exec (fun s d =>
    match references "timesheets_contract_id_fkey" (has_key cr_id contractID) (contract_rows d) with
    | Some e => Reject e
    | None =>
        let new := mkTimesheet (fresh s) contractID week billableSeconds billableSeconds amount (Some avgPct) "accumulating" in
        upsert timesheets_t timesheet_key timesheet_check new (accrued new) s d
    end).

(** Nulls read as zero. *)
Definition terms_of (c : ContractRow) : ContractTerms :=
  mkTerms (default 0 (cr_hourly_rate_cents c)) (default 0 (cr_weekly_hour_limit c)).

Definition find_contract (id : string) (d : tracking_db) : option ContractRow :=
  List.find (has_key cr_id id) (contract_rows d).

Definition store_ContractTerms (contractID : string) : tprog ContractTerms :=
  o <- exec_pool (fun _ d => Done (find_contract contractID d) d) ;;
  match o with
  | None => fail ErrNotFound
  | Some c => ret (terms_of c)
  end.

Record TimesheetView := mkTimesheetView {
  tv_Week : string;
  tv_BillableSeconds : Z;
  tv_AmountCents : Z;
  tv_Status : string;
  tv_AvgActivityPct : Z
}.

Definition timesheet_view (r : Timesheet) : TimesheetView :=
  mkTimesheetView (tm_billing_week r) (tm_billable_seconds r) (tm_amount_cents r) (tm_status r)
    (default 0 (tm_avg_activity_pct r)).

Definition find_timesheet (contractID week : string) (d : tracking_db) : option Timesheet :=
  List.find (fun r => has_key tm_contract_id contractID r && has_key tm_billing_week week r) (timesheets d).

Definition GetTimesheet (contractID week : string) : tprog TimesheetView :=
  o <- exec_pool (fun _ d => Done (find_timesheet contractID week d) d) ;;
  match o with
  | None => fail ErrNotFound
  | Some r => ret (timesheet_view r)
  end.

(** * Time tracking (services/timetracking/internal/service)

    Opening a session for a party of the contract, ingesting slices whose
    activity the server computes anew, and closing a session into the weekly
    timesheet.  Time is UTC. *)
From stdpp Require Import pretty.
#[local] Open Scope Z_scope.

(** ** Weeks *)

(** t.ISOWeek(): the year and week of the Thursday of the week of t. *)
Definition ISOWeek (t : Z) : Z * Z :=
  let day := t / 86400000000000 in
  let thursday := day - (day + 3) mod 7 + 3 in
  let '(year, _, _) := civil_from_days thursday in
  (year, (thursday - days_from_civil year 1 1) / 7 + 1).

Definition isoWeek (t : Z) : string :=
  let '(y, w) := ISOWeek t in (pretty y ++ "-W" ++ padded 2 w)%string.

(** ** Sessions *)

Record StartResult := mkStartResult {
  st_SessionID : string;
  st_BillingWeek : string;
  st_CaptureInterval : Z
}.

Section Start.
Context (net : transport) (baseURL : string).

Definition StartSession (contractID freelancerID deviceID tz : string) (startedAt : Z) : tprog StartResult :=
  if String.eqb contractID "" then fail ErrForbidden else
  p <- ContractParties.Get net baseURL contractID ;;
  match p with
  | inr _ => fail ErrForbidden
  | inl p =>
      if String.eqb freelancerID "" || negb (String.eqb freelancerID (FreelancerID p)) ||
         negb (String.eqb (Status p) "active") then fail ErrForbidden else
      let week := isoWeek startedAt in
      in_tx (
        id <- OpenSession contractID freelancerID deviceID tz week startedAt ;;
        commit ;;;
        ret (mkStartResult id week 900))
  end.
End Start.

(** ** Slices *)

Record IncomingSlice := mkIncomingSlice {
  in_SessionID : string;
  in_ContractID : string;
  in_Start : Z;
  in_End : Z;
  in_Samples : list Sample;
  in_ActiveApp : string;
  in_ActiveAppTitle : string;
  in_BrowserHost : string;
  in_ScreenshotID : string;
  in_IsManual : bool
}.

Definition requireSessionOwner (sessionID caller : string) : tprog unit :=
  freelancerID <- SessionFreelancer sessionID ;;
  match RequireOneOf caller [freelancerID] with
  | Some _ => fail ErrForbidden
  | None => ret tt
  end.

(** s.params.Compute with the default parameters, which returns
    ([compute_returns]). *)
Definition compute_slice (i : IncomingSlice) : SliceResult :=
  default no_result (Compute DefaultParams (in_Samples i) (in_Start i) (in_End i)).

(** sum(samples) *)
Definition sum_samples (samples : list Sample) : Z * Z :=
  (fold_left (fun a s => add64 a (KeyboardCount s)) samples 0, fold_left (fun a s => add64 a (MouseCount s)) samples 0).

Fixpoint joinReasons (rs : list string) : string :=
  match rs with
  | [] => ""
  | [r] => r
  | r :: rs' => (r ++ "," ++ joinReasons rs')%string
  end.

Definition slice_row (i : IncomingSlice) (res : SliceResult) : Slice :=
  let '(kb, mouse) := sum_samples (in_Samples i) in
  mkSlice (in_SessionID i) (in_ContractID i) (in_Start i) (in_End i) kb mouse (ActiveSeconds res) (ActivityPct res)
    (in_ActiveApp i) (in_ActiveAppTitle i) (in_BrowserHost i) (in_ScreenshotID i) (ActiveSeconds res =? 0)
    (in_IsManual i) (Suspicious res) (joinReasons (SuspectReasons res)).

Definition suspicious_event (i : IncomingSlice) (res : SliceResult) : Event :=
  mkEvent "contract" (in_ContractID i) "activity.suspicious" "worksession.events" (in_ContractID i)
    (JObj [("contract_id", JStr (in_ContractID i)); ("session_id", JStr (in_SessionID i));
           ("slice_start", JTime (in_Start i)); ("reasons", JList (map JStr (SuspectReasons res)));
           ("activity_pct", JInt (ActivityPct res))]) None.

(** The loop of IngestSlices; the error of Enqueue is dropped. *)
Fixpoint ingest_all (slices : list IncomingSlice) (accepted : Z) : tprog Z :=
  match slices with
  | [] => ret accepted
  | i :: slices' =>
      let res := compute_slice i in
      UpsertSlice (slice_row i res) ;;;
      (if Suspicious res then attempt (Enqueue (suspicious_event i res)) ;;; ret tt else ret tt) ;;;
      ingest_all slices' (accepted + 1)
  end.

Definition IngestSlices (sessionID contractID caller : string) (slices : list IncomingSlice) : tprog Z :=
  requireSessionOwner sessionID caller ;;;
  in_tx (
    accepted <- ingest_all slices 0 ;;
    commit ;;;
    ret accepted).

(** ** Closing *)

Record CloseResult := mkCloseResult {
  cl_ActiveSeconds : Z;
  cl_IdleSeconds : Z;
  cl_AvgActivityPct : Z
}.

Definition closed_event (sessionID contractID week : string) (active avg : Z) : Event :=
  mkEvent "contract" contractID "worksession.closed" "worksession.events" contractID
    (JObj [("session_id", JStr sessionID); ("contract_id", JStr contractID); ("billing_week", JStr week);
           ("billable_seconds", JInt active); ("avg_activity_pct", JInt avg)]) None.

Definition StopSession (sessionID caller memo : string) (endedAt : Z) : tprog CloseResult :=
  requireSessionOwner sessionID caller ;;;
  in_tx (
    closed <- CloseSession sessionID endedAt memo ;;
    let '(active, idle, avg, contractID, week) := closed in
    terms <- store_ContractTerms contractID ;;
    AccrueTimesheet contractID week active avg (HourlyRateCents terms) ;;;
    Enqueue (closed_event sessionID contractID week active avg) ;;;
    commit ;;;
    ret (mkCloseResult active idle avg)).

Definition service_GetTimesheet (contractID week : string) : tprog TimesheetView :=
  week <- (if String.eqb week "" then t <- time_now ;; ret (isoWeek t) else ret week) ;;
  GetTimesheet contractID week.

(** ** Examples *)

Example week_of_release : isoWeek 1782000000000000000 = "2026-W25".
Proof. vm_compute. reflexivity. Qed.

(** The first days of 2027 belong to the last week of 2026. *)
Example week_of_new_year : isoWeek (days_from_civil 2027 1 1 * 86400000000000) = "2026-W53".
Proof. vm_compute. reflexivity. Qed.

Example week_of_epoch : isoWeek 0 = "1970-W01".
Proof. vm_compute. reflexivity. Qed.
