(* ===== verification/TrackingProofs.v ===== *)
(** * Properties of time tracking

    What each operation does to the tables, and what holds of all reachable
    tables: the timesheets are the sums of the closings that were announced,
    and stored slices carry the results of the scoring.  Then the routes. *)
From stdpp Require Import relations.
From S2P Require Export Activity TrackingStore.
From S2P Require Export Strings Gateway.

(** ** Announced closings *)

(** What a worksession.closed row says: contract, week and seconds. *)
Definition closing (r : OutboxRow) : option (string * string * Z) :=
  if String.eqb (event_type r) "worksession.closed" then
    match payload r with
    | JObj [_; (_, JStr contractID); (_, JStr week); (_, JInt seconds); _] => Some (contractID, week, seconds)
    | _ => None
    end
  else None.

Definition for_week (k : string * string) (f : Z -> Z) (r : OutboxRow) : Z :=
  match closing r with
  | Some (c, w, s) => if bool_decide ((c, w) = k) then f s else 0
  | None => 0
  end.

(** The seconds and the number of the closings of a contract and week. *)
Definition closed_seconds (k : string * string) (l : list OutboxRow) : Z := sumZ (for_week k (fun s => s)) l.
Definition closings (k : string * string) (l : list OutboxRow) : Z := sumZ (for_week k (fun _ => 1)) l.

Definition of_key (k : string * string) (f : Timesheet -> Z) (r : Timesheet) : Z :=
  if bool_decide (timesheet_key r = k) then f r else 0.

Definition billed_seconds (k : string * string) (d : tracking_db) : Z := sumZ (of_key k tm_billable_seconds) (timesheets d).

(** ** Effects *)

Definition add_session (s : WorkSession) (d : tracking_db) : tracking_db :=
  put work_sessions_t (work_sessions d ++ [s]) d.

(** Events that are no closings, and slices that the scoring can have made. *)
Definition other_event (r : OutboxRow) : Prop := closing r = None.

Definition scored (r : TimeSlice) : Prop :=
  0 <= sl_ActiveSeconds (ts_slice r) <= max_seconds /\ 0 <= sl_ActivityPct (ts_slice r) <= 100.

Record ingested (d d' : tracking_db) : Prop := {
  ig_sessions : work_sessions d' = work_sessions d;
  ig_timesheets : timesheets d' = timesheets d;
  ig_contracts : contract_rows d' = contract_rows d;
  ig_users : user_ids d' = user_ids d;
  ig_devices : device_ids d' = device_ids d;
  ig_events : exists l, tracking_outbox d' = tracking_outbox d ++ l /\ Forall other_event l;
  ig_scored : Forall scored (time_slices d) -> Forall scored (time_slices d')
}.

Lemma ingested_refl d : ingested d d.
Proof. constructor; try done. exists []. by rewrite app_nil_r. Qed.

Lemma ingested_trans d1 d2 d3 : ingested d1 d2 -> ingested d2 d3 -> ingested d1 d3.
Proof.
  intros [A1 A2 A3 A4 A5 (l & E1 & F1) A7] [B1 B2 B3 B4 B5 (l' & E2 & F2) B7]. constructor; try congruence; [|auto].
  exists (l ++ l'). rewrite E2, E1, app_assoc. split; [done|]. by apply Forall_app.
Qed.

Lemma compute_slice_scored i :
  0 <= ActiveSeconds (compute_slice i) <= max_seconds /\ 0 <= ActivityPct (compute_slice i) <= 100.
Proof.
  unfold compute_slice. destruct (Compute _ _ _ _) as [r|] eqn:C; cbn [default from_option id]; [|cbn; unfold max_seconds; lia].
  rewrite Compute_summary in C by done. injection C as <-.
  destruct (Z.leb_spec (seconds_between (in_Start i) (in_End i)) 0); [cbn; unfold max_seconds; lia|].
  apply (summary_fits DefaultParams); [done|lia].
Qed.

Definition upsert_slice (new : TimeSlice) (d : tracking_db) : tracking_db :=
  put time_slices_t (upserted slice_key new (reingested new) (time_slices d)) d.

Lemma ingested_slice new d : scored new -> ingested d (upsert_slice new d).
Proof.
  intros Hs. constructor; try done; [exists []; by rewrite app_nil_r|]. intros Hl.
  cbn [upsert_slice put time_slices_t time_slices]. by apply upserted_Forall.
Qed.

Definition announce (t : Z) (e : Event) (d : tracking_db) : tracking_db :=
  put tracking_HasOutbox (enqueued t e (tracking_outbox d)) d.

Lemma ingested_event i x t d : ingested d (announce t (suspicious_event i x) d).
Proof.
  constructor; try done. eexists. split; [reflexivity|]. constructor; [done|constructor].
Qed.

(** The tables a closing leaves. *)
Definition stopped (t now : Z) (sid memo : string) (active idle avg : Z) (s : WorkSession) (row : Timesheet)
  (d : tracking_db) : tracking_db :=
  announce t (closed_event sid (ws_contract_id s) (ws_billing_week s) active avg)
    (put timesheets_t (upserted timesheet_key row (accrued row) (timesheets d))
       (put work_sessions_t (update_where (has_key ws_id sid) (closed_session now memo active idle avg) (work_sessions d)) d)).

(** ** Outcomes *)

Section Outcomes.
Implicit Types (ev : env) (d c v : tracking_db).

Lemma wp_UpsertSlice i x ev c t v n (Q : res tracking_err unit -> world tracking_db -> Prop) :
  (forall e w, committed w = c -> Q (Err e) w) ->
  (forall id, Q (Ok tt) (World c (Live t (upsert_slice (mkTimeSlice id (stored_slice (slice_row i x))) v)) (S n))) ->
  wp (UpsertSlice (slice_row i x)) ev (World c (Live t v) n) Q.
Proof.
  intros Hf Hs. unfold UpsertSlice. destruct (negb _); [by apply wp_throw, Hf|].
  apply wp_exec; [intros _; by apply Hf|]. destruct (references _ _ _); [by apply Hf|].
  unfold upsert. assert (forall l : list TimeSlice, first_violation (map (fun _ => None) l) = None) as ->.
  { induction l; [done|]. done. }
  apply Hs.
Qed.

(** A failed Enqueue breaks the transaction. *)
Definition ingesting (c v : tracking_db) (t : Z) (w : world tracking_db) : Prop :=
  committed w = c /\ (txs w = Broken \/ exists v', txs w = Live t v' /\ ingested v v').

Lemma wp_ingest_broken l a ev c n (Q : res tracking_err Z -> world tracking_db -> Prop) :
  (forall e w, committed w = c -> Q (Err e) w) -> (forall b w, committed w = c -> txs w = Broken -> Q (Ok b) w) ->
  wp (ingest_all l a) ev (World c Broken n) Q.
Proof.
  intros Hf Hs. destruct l as [|i l]; cbn [ingest_all]; [by apply wp_ret, Hs|]. apply wp_bind. unfold UpsertSlice.
  destruct (negb _); [by apply wp_throw, Hf|]. apply wp_exec_broken. by apply Hf.
Qed.

Lemma wp_ingest_all l a ev c t v n (Q : res tracking_err Z -> world tracking_db -> Prop) :
  (forall e w, committed w = c -> Q (Err e) w) -> (forall b w, ingesting c v t w -> Q (Ok b) w) ->
  wp (ingest_all l a) ev (World c (Live t v) n) Q.
Proof.
  revert a v n. induction l as [|i l IH]; intros a v n Hf Hs; cbn [ingest_all].
  { apply wp_ret, Hs. split; [done|right]. exists v. split; [done|apply ingested_refl]. }
  apply wp_bind, wp_UpsertSlice; [done|]. intros id. set (new := mkTimeSlice _ _).
  assert (ingested v (upsert_slice new v)) as I1.
  { apply ingested_slice. unfold new, slice_row. destruct (sum_samples _). apply compute_slice_scored. }
  assert (forall v2 m, ingested v v2 -> wp (ingest_all l (a + 1)) ev (World c (Live t v2) m) Q) as Hgo.
  { intros v2 m I2. apply IH; [done|]. intros b w [C [B|(v' & L & I')]]; apply Hs; (split; [done|]); [by left|right].
    exists v'. split; [done|]. by eapply ingested_trans. }
  apply wp_bind. destruct (Suspicious _).
  - apply wp_bind, wp_attempt, wp_Enqueue.
    + intros _. apply wp_ret, wp_ingest_broken; [done|]. intros b w C B. apply Hs. split; [done|by left].
    + apply wp_ret. apply Hgo. eapply ingested_trans; [exact I1|]. apply ingested_event.
  - apply wp_ret, Hgo, I1.
Qed.

Lemma wp_requireSessionOwner sid caller ev d n (Q : res tracking_err unit -> world tracking_db -> Prop) :
  (forall e m, Q (Err e) (World d NoTx m)) ->
  (forall s m, find_session sid d = Some s -> ws_freelancer_id s = caller -> Q (Ok tt) (World d NoTx m)) ->
  wp (requireSessionOwner sid caller) ev (World d NoTx n) Q.
Proof.
  intros Hf Hs. unfold requireSessionOwner, SessionFreelancer. apply wp_bind, wp_bind.
  apply (wp_pool_read _ (find_session sid d)); [done|intros _; by apply Hf|].
  destruct (find_session sid d) as [s|] eqn:F; [|by apply wp_throw, Hf]. apply wp_ret.
  destruct (RequireOneOf caller [ws_freelancer_id s]) eqn:R; [by apply wp_throw, Hf|]. apply wp_ret.
  apply RequireOneOf_spec in R as [R|[]]. by eapply Hs.
Qed.

(** Ingesting changes nothing, or slices and events, for the freelancer. *)
Definition ingest_outcome (sid caller : string) (d d' : tracking_db) : Prop :=
  d' = d \/ exists s, find_session sid d = Some s /\ ws_freelancer_id s = caller /\ ingested d d'.

Lemma IngestSlices_outcome sid cid caller slices ev d n :
  wp (IngestSlices sid cid caller slices) ev (rest d n) (ended (fun _ d' => ingest_outcome sid caller d d')).
Proof.
  unfold IngestSlices, rest. apply wp_bind, wp_requireSessionOwner; [intros; split; [done|by left]|].
  intros s m F O. assert (forall e w, committed w = d ->
    ended (fun (_ : res tracking_err Z) d' => ingest_outcome sid caller d d') (Err e) (World (committed w) NoTx (tick w))) as Herr
    by (intros e w ->; split; [done|by left]).
  apply wp_in_tx; [intros _; split; [done|by left]|].
  apply wp_bind, wp_ingest_all; [exact Herr|]. intros b [c x k] [C [B|(v' & L & I)]]; cbn in *; subst.
  - apply wp_bind, wp_commit_broken. by apply Herr.
  - assert (ingest_outcome sid (ws_freelancer_id s) d v') as Hok by (right; eauto).
    apply wp_bind, wp_commit; intros; try apply wp_ret; split; try done; by left.
Qed.

(** What closing a session writes. *)
Record closes (sid caller : string) (d : tracking_db) (s : WorkSession) (active idle avg : Z) (row : Timesheet) : Prop := {
  cs_session : find_session sid d = Some s;
  cs_owner : ws_freelancer_id s = caller;
  cs_totals : slice_totals (session_slices sid d) = Some (active, idle, avg);
  cs_range : in_int32 active = true;
  cs_key : timesheet_key row = (ws_contract_id s, ws_billing_week s);
  cs_seconds : tm_total_seconds row = active /\ tm_billable_seconds row = active;
  cs_amount : exists cr, find_contract (ws_contract_id s) d = Some cr /\
    tm_amount_cents row = accrual_amount (HourlyRateCents (terms_of cr)) active
}.

Definition stop_outcome (sid caller memo : string) (endedAt : Z) (d d' : tracking_db) : Prop :=
  d' = d \/ exists s t active idle avg row, closes sid caller d s active idle avg row /\
    d' = stopped t endedAt sid memo active idle avg s row d.

Lemma find_select {R} (p : R -> bool) l x : List.find p l = Some x -> exists l', select_rows p l = x :: l'.
Proof.
  unfold select_rows. induction l as [|y l IH]; cbn; [done|]. destruct (p y); [|done]. intros [= ->]. eauto.
Qed.

Lemma wp_CloseSession sid endedAt memo s ev c t v n (Q : res tracking_err (Z * Z * Z * string * string) -> world tracking_db -> Prop) :
  find_session sid v = Some s ->
  (forall e w, committed w = c -> Q (Err e) w) ->
  (forall active idle avg m, slice_totals (session_slices sid v) = Some (active, idle, avg) -> in_int32 active = true ->
     Q (Ok (active, idle, avg, ws_contract_id s, ws_billing_week s))
       (World c (Live t (put work_sessions_t (update_where (has_key ws_id sid) (closed_session endedAt memo active idle avg)
          (work_sessions v)) v)) m)) ->
  wp (CloseSession sid endedAt memo) ev (World c (Live t v) n) Q.
Proof.
  intros F Hf Hs. unfold CloseSession. apply wp_bind, wp_exec; [intros _; by apply Hf|].
  destruct (slice_totals _) as [[[active idle] avg]|] eqn:T; [|by apply Hf].
  destruct (in_int32 active) eqn:R; [|by apply wp_throw, Hf]. cbn [andb].
  destruct (negb _); [by apply wp_throw, Hf|].
  apply wp_bind, (wp_update_free work_sessions_t); [intros; by apply Hf|].
  destruct (find_select _ _ _ F) as (l' & E). change (rows work_sessions_t v) with (work_sessions v). rewrite E.
  cbn [map]. apply wp_ret. by apply Hs.
Qed.

Lemma wp_AccrueTimesheet cid week active avg rate ev c t v n (Q : res tracking_err unit -> world tracking_db -> Prop) :
  (forall e w, committed w = c -> Q (Err e) w) ->
  (forall id, let row := mkTimesheet id cid week active active (accrual_amount rate active) (Some avg) "accumulating" in
     Q (Ok tt) (World c (Live t (put timesheets_t (upserted timesheet_key row (accrued row) (timesheets v)) v)) (S n))) ->
  wp (AccrueTimesheet cid week active avg rate) ev (World c (Live t v) n) Q.
Proof.
  intros Hf Hs. unfold AccrueTimesheet. cbv zeta. destruct (negb _); [by apply wp_throw, Hf|].
  apply wp_exec; [intros _; by apply Hf|]. destruct (references _ _ _); [by apply Hf|].
  unfold upsert. destruct (first_violation _); [by apply Hf|]. apply Hs.
Qed.

Lemma StopSession_outcome sid caller memo endedAt ev d n :
  wp (StopSession sid caller memo endedAt) ev (rest d n) (ended (fun _ d' => stop_outcome sid caller memo endedAt d d')).
Proof.
  unfold StopSession, rest. apply wp_bind, wp_requireSessionOwner; [intros; split; [done|by left]|].
  intros s m F O. assert (forall e w, committed w = d ->
    ended (fun (_ : res tracking_err CloseResult) d' => stop_outcome sid caller memo endedAt d d') (Err e)
      (World (committed w) NoTx (tick w))) as Herr by (intros e w ->; split; [done|by left]).
  apply wp_in_tx; [intros _; split; [done|by left]|].
  apply wp_bind, (wp_CloseSession _ _ _ s); [done|exact Herr|]. intros active idle avg k T R.
  unfold store_ContractTerms. set (v1 := put work_sessions_t _ _).
  apply wp_bind, wp_bind, (wp_pool_read _ (find_contract (ws_contract_id s) d)); [done|intros _; by apply Herr|].
  destruct (find_contract _ d) as [cr|] eqn:FC; [|by apply wp_throw, Herr]. apply wp_ret.
  apply wp_bind, wp_AccrueTimesheet; [exact Herr|]. intros id row.
  apply wp_bind, wp_Enqueue; [intros _; by apply Herr|]. set (v2 := put outbox _ _).
  assert (stop_outcome sid caller memo endedAt d v2) as Hok.
  { right. exists s. eexists _, active, idle, avg, row. split; [|reflexivity].
    constructor; try done. by exists cr. }
  apply wp_bind, wp_commit; intros; try apply wp_ret; split; try done; by left.
Qed.

(** A session that the contract service vouched for. *)
Record opens (net : transport) (base cid caller : string) (d : tracking_db) (s : WorkSession) : Prop := {
  op_contract : ws_contract_id s = cid;
  op_freelancer : ws_freelancer_id s = caller;
  op_vouched : exists p, vouched net base cid p /\ FreelancerID p = caller /\ Status p = "active";
  op_fresh : ~ In (ws_id s) (map ws_id (work_sessions d));
  op_open : ws_status s = "open" /\ ws_active_seconds s = 0 /\ ws_billed_seconds s = 0
}.

Definition start_outcome (net : transport) (base cid caller : string) (d d' : tracking_db) : Prop :=
  d' = d \/ exists s, opens net base cid caller d s /\ d' = add_session s d.

Lemma StartSession_outcome net base cid caller dev tz at_time ev d n :
  wp (StartSession net base cid caller dev tz at_time) ev (rest d n) (ended (fun _ d' => start_outcome net base cid caller d d')).
Proof.
  unfold StartSession, rest.
  assert (forall e w, committed w = d -> ended (fun (_ : res tracking_err StartResult) d' => start_outcome net base cid caller d d')
    (Err e) (World (committed w) NoTx (tick w))) as Herr by (intros e w ->; split; [done|by left]).
  assert (forall e m, ended (fun (_ : res tracking_err StartResult) d' => start_outcome net base cid caller d d')
    (Err e) (World d NoTx m)) as Hrest by (intros; split; [done|by left]).
  destruct (String.eqb cid ""); [by apply wp_throw|]. apply wp_bind, wp_Get.
  destruct (read_parties _) as [p|] eqn:RP; [|by apply wp_throw].
  destruct (String.eqb caller "") eqn:NE; [by apply wp_throw|].
  destruct (String.eqb_spec caller (FreelancerID p)) as [E|]; [|by apply wp_throw].
  destruct (String.eqb_spec (Status p) "active") as [A|]; [|by apply wp_throw]. cbn [negb orb].
  apply wp_in_tx; [intros _; by apply Hrest|]. apply wp_bind. unfold OpenSession.
  apply wp_bind, wp_exec; [intros _; by apply Herr|]. unfold insert_row. cbn [now fresh].
  destruct (first_violation _) as [e|] eqn:FV; [by apply Herr|]. apply wp_ret.
  rewrite first_violation_None in FV. apply Forall_cons_1 in FV as [HK _].
  set (s := open_session _ _ _ _ _ _ _) in *. assert (opens net base cid caller d s) as Hopen.
  { constructor; try done; [by exists p; split; [eexists|split]|].
    rewrite unique_index_None in HK. intros (x & Ex & Hx)%in_map_iff. specialize (HK x Hx). cbn beta in HK.
    by rewrite Ex, String.eqb_refl in HK. }
  assert (start_outcome net base cid caller d (add_session s d)) as Hok by (right; eauto).
  apply wp_bind, wp_commit; intros; try apply wp_ret; split; try done; by left.
Qed.
End Outcomes.

(** ** Calls and reachable tables *)

Inductive tracking_call :=
| TkStart (net : transport) (base cid uid dev tz : string) (at_time : Z)
| TkIngest (sid cid uid : string) (slices : list IncomingSlice)
| TkStop (sid uid memo : string) (at_time : Z).

Definition tracking_run (call : tracking_call) : tprog unit :=
  match call with
  | TkStart net base cid uid dev tz t => StartSession net base cid uid dev tz t ;;; ret tt
  | TkIngest sid cid uid slices => IngestSlices sid cid uid slices ;;; ret tt
  | TkStop sid uid memo t => StopSession sid uid memo t ;;; ret tt
  end.

Definition tracking_after (call : tracking_call) (ev : env) (d : tracking_db) (n : nat) : tracking_db :=
  committed (snd (tracking_run call ev (rest d n))).

(** What a call can have done. *)
Definition tracking_change (call : tracking_call) (d d' : tracking_db) : Prop :=
  match call with
  | TkStart net base cid uid _ _ _ => start_outcome net base cid uid d d'
  | TkIngest sid _ uid _ => ingest_outcome sid uid d d'
  | TkStop sid uid memo t => stop_outcome sid uid memo t d d'
  end.

Lemma call_tracking_change call ev d n : tracking_change call d (tracking_after call ev d n).
Proof.
  assert (forall A (m : tprog A) (O : tracking_db -> Prop), wp m ev (rest d n) (ended (fun _ => O)) ->
    O (committed (snd ((m ;;; ret tt) ev (rest d n))))) as Hdrop.
  { intros A m O HW. unfold wp, bind in *. destruct (m ev (rest d n)) as [[a|e] w]; cbn in *; by destruct HW. }
  unfold tracking_after. destruct call; cbn [tracking_run tracking_change]; apply Hdrop;
    [apply StartSession_outcome|apply IngestSlices_outcome|apply StopSession_outcome].
Qed.

(** Contracts, users and devices appear; the terms of a contract do not change. *)
Definition joined (cs : list ContractRow) (users devices : list string) (d : tracking_db) : tracking_db :=
  mkTrackingDb (work_sessions d) (time_slices d) (timesheets d) (contract_rows d ++ cs) (user_ids d ++ users)
    (device_ids d ++ devices) (tracking_outbox d).

Inductive tracking_step (d : tracking_db) : tracking_db -> Prop :=
| tks_call call ev n : tracking_step d (tracking_after call ev d n)
| tks_joined cs users devices : tracking_step d (joined cs users devices d).

Definition no_tracking : tracking_db := mkTrackingDb [] [] [] [] [] [] [].

Definition tracking_reachable (d : tracking_db) : Prop := rtc tracking_step no_tracking d.

(** ** The invariant *)

Definition rate_of (id : string) (d : tracking_db) : option Z :=
  option_map (fun c => HourlyRateCents (terms_of c)) (find_contract id d).

(** Each closing rounds its amount down to a cent. *)
Definition amount_ok (d : tracking_db) (r : Timesheet) : Prop :=
  forall rate, rate_of (tm_contract_id r) d = Some rate -> 0 <= rate <= 2 ^ 32 ->
  rate * tm_billable_seconds r - 3600 * closings (timesheet_key r) (tracking_outbox d) <= 3600 * tm_amount_cents r
    <= rate * tm_billable_seconds r.

Record tracking_inv (d : tracking_db) : Prop := {
  ti_keys : List.NoDup (map timesheet_key (timesheets d));
  ti_sessions : keyed ws_id (work_sessions d);
  ti_scored : Forall scored (time_slices d);
  ti_seconds : forall k, billed_seconds k d = closed_seconds k (tracking_outbox d);
  ti_total : forall r, In r (timesheets d) -> tm_total_seconds r = tm_billable_seconds r;
  ti_contracts : forall r, In r (timesheets d) -> is_Some (find_contract (tm_contract_id r) d);
  ti_amount : forall r, In r (timesheets d) -> amount_ok d r
}.

Lemma tracking_inv_start : tracking_inv no_tracking.
Proof. by constructor; try done; constructor. Qed.

Lemma find_contract_joined id d cs users devices c :
  find_contract id d = Some c -> find_contract id (joined cs users devices d) = Some c.
Proof. unfold find_contract. cbn [contract_rows joined]. rewrite find_key_app. by intros ->. Qed.

Lemma tracking_inv_joined cs users devices d : tracking_inv d -> tracking_inv (joined cs users devices d).
Proof.
  intros [H1 H2 H3 H4 H5 H6 H7]. constructor; try done.
  - intros r Hr. destruct (H6 r Hr) as [c Hc]. exists c. by apply find_contract_joined.
  - intros r Hr rate E. destruct (H6 r Hr) as [c Hc]. apply (H7 r Hr). unfold rate_of in *.
    rewrite (find_contract_joined _ _ _ _ _ _ Hc) in E. by rewrite Hc.
Qed.

Lemma other_events_sum k f l l' : Forall other_event l' -> sumZ (for_week k f) (l ++ l') = sumZ (for_week k f) l.
Proof.
  intros F. rewrite sumZ_app, (sumZ_zero_in _ l'); [lia|]. intros r Hr. rewrite List.Forall_forall in F.
  unfold for_week. by rewrite (F r Hr).
Qed.

Lemma tracking_inv_ingested d d' : ingested d d' -> tracking_inv d -> tracking_inv d'.
Proof.
  intros [E1 E2 E3 E4 E5 (l & E6 & F) E7] [H1 H2 H3 H4 H5 H6 H7].
  assert (forall id, find_contract id d' = find_contract id d) as FC by (intros id; unfold find_contract; by rewrite E3).
  constructor; rewrite ?E1, ?E2; auto.
  - intros k. unfold billed_seconds, closed_seconds. rewrite E2, E6, other_events_sum by done. apply H4.
  - intros r Hr. rewrite FC. auto.
  - intros r Hr rate R. unfold closings. rewrite E6, other_events_sum by done. apply (H7 r Hr).
    unfold rate_of in *. by rewrite <- FC.
Qed.

Lemma tracking_inv_opened s d : ~ In (ws_id s) (map ws_id (work_sessions d)) -> tracking_inv d -> tracking_inv (add_session s d).
Proof. intros Hn [H1 H2 H3 H4 H5 H6 H7]. constructor; try done. by apply keyed_snoc. Qed.

(** *** A closing *)


Lemma for_week_closed k f sid c w active avg t id :
  for_week k f (mkOutbox id "contract" c "worksession.closed" "worksession.events" c
    (Payload (closed_event sid c w active avg)) None t None) = if bool_decide ((c, w) = k) then f active else 0.
Proof. done. Qed.

Lemma announced_sum k f t sid c w active avg l :
  sumZ (for_week k f) (enqueued t (closed_event sid c w active avg) l) =
  sumZ (for_week k f) l + if bool_decide ((c, w) = k) then f active else 0.
Proof. unfold enqueued. rewrite sumZ_app. cbn [sumZ]. rewrite <- (for_week_closed k f sid c w active avg t (next_id o_id l)). cbn. lia. Qed.

Lemma closings_announced k t sid c w active avg l :
  closings k (enqueued t (closed_event sid c w active avg) l) = closings k l + if bool_decide ((c, w) = k) then 1 else 0.
Proof. apply announced_sum. Qed.

Lemma closed_seconds_announced k t sid c w active avg l :
  closed_seconds k (enqueued t (closed_event sid c w active avg) l) =
  closed_seconds k l + if bool_decide ((c, w) = k) then active else 0.
Proof. apply announced_sum. Qed.

Lemma accrual_amount_bounds rate active : 0 <= rate <= 2 ^ 32 -> 0 <= active <= 2 ^ 31 - 1 ->
  rate * active - 3600 <= 3600 * accrual_amount rate active <= rate * active.
Proof.
  intros Hr Ha. unfold accrual_amount. rewrite wrap64_id by (unfold int64_min, int64_max; nia).
  assert (0 <= rate * active) by nia. rewrite Z.quot_div_nonneg by lia.
  pose proof (Z.mul_div_le (rate * active) 3600 ltac:(lia)).
  pose proof (Z.mul_succ_div_gt (rate * active) 3600 ltac:(lia)). lia.
Qed.

Lemma closings_nonneg k l : 0 <= closings k l.
Proof.
  apply sumZ_nonneg. intros r _. unfold for_week. destruct (closing r) as [[[c w] s]|]; [|lia]. destruct (bool_decide _); lia.
Qed.

Lemma totals_nonneg sid d active idle avg : Forall scored (time_slices d) ->
  slice_totals (session_slices sid d) = Some (active, idle, avg) -> 0 <= active.
Proof.
  intros F. unfold slice_totals. destruct (forallb _ _); [|done]. intros [= <- _ _].
  apply sumZ_nonneg. intros s Hs. unfold session_slices in Hs. apply List.filter_In in Hs as [(r & <- & Hr)%in_map_iff _].
  rewrite List.Forall_forall in F. apply (F r Hr).
Qed.

Lemma in_int32_max z : in_int32 z = true -> z <= 2 ^ 31 - 1.
Proof. unfold in_int32. lia. Qed.

Lemma stopped_amounts t at_time sid caller memo s active idle avg row d :
  closes sid caller d s active idle avg row -> tracking_inv d ->
  let d' := stopped t at_time sid memo active idle avg s row d in
  forall r, In r (timesheets d') -> amount_ok d' r.
Proof.
  intros [F O T R K [Kt Kb] (cr & FC & KA)] [H1 H2 H3 H4 H5 H6 H7] d' r Hr rate.
  pose proof (totals_nonneg _ _ _ _ _ H3 T) as Ha. pose proof (in_int32_max _ R) as Ha'.
  change (rate_of (tm_contract_id r) d') with (rate_of (tm_contract_id r) d).
  cbn [d' stopped announce put timesheets_t timesheets tracking_HasOutbox] in Hr.
  cbn [d' stopped announce put tracking_HasOutbox tracking_outbox]. intros RT B. rewrite closings_announced.
  cbn [put timesheets_t work_sessions_t tracking_outbox].
  assert (forall id, id = ws_contract_id s -> rate_of id d = Some (HourlyRateCents (terms_of cr))) as Hrate
    by (intros id ->; unfold rate_of; by rewrite FC).
  injection K as K1 K2.
  apply upserted_In in Hr as [[Hr Hk]|[(o & Ho & Ek & ->)| ->]].
  - pose proof (H7 r Hr rate RT B) as A.
    destruct (bool_decide_reflect ((ws_contract_id s, ws_billing_week s) = timesheet_key r)) as [E|]; [|by rewrite Z.add_0_r].
    destruct Hk. unfold timesheet_key at 2. by rewrite K1, K2.
  - change (timesheet_key (accrued row o)) with (timesheet_key o).
    change (tm_contract_id (accrued row o)) with (tm_contract_id o) in RT. pose proof (H7 o Ho rate RT B).
    unfold timesheet_key in Ek at 1 2. injection Ek as Ec Ew. rewrite Hrate in RT by congruence. apply (inj Some) in RT as <-.
    rewrite bool_decide_eq_true_2 by (unfold timesheet_key; congruence).
    cbn [accrued tm_billable_seconds tm_amount_cents]. rewrite Kb, KA.
    pose proof (accrual_amount_bounds _ active B ltac:(lia)). lia.
  - rewrite Hrate in RT by done. apply (inj Some) in RT as <-. rewrite bool_decide_eq_true_2 by (unfold timesheet_key; congruence).
    rewrite Kb, KA. pose proof (accrual_amount_bounds _ active B ltac:(lia)).
    pose proof (closings_nonneg (timesheet_key row) (tracking_outbox d)). lia.
Qed.

Lemma tracking_inv_stopped t at_time sid caller memo s active idle avg row d :
  closes sid caller d s active idle avg row -> tracking_inv d ->
  tracking_inv (stopped t at_time sid memo active idle avg s row d).
Proof.
  intros C HI. pose proof (stopped_amounts t at_time sid caller memo s active idle avg row d C HI) as HA.
  destruct C as [F O T R K [Kt Kb] (cr & FC & KA)]. destruct HI as [H1 H2 H3 H4 H5 H6 H7].
  constructor; cbn [stopped announce put timesheets_t work_sessions_t timesheets work_sessions time_slices
    tracking_HasOutbox tracking_outbox]; try done.
  - by apply upserted_NoDup.
  - by apply keyed_update.
  - intros k. unfold billed_seconds. rewrite closed_seconds_announced.
    cbn [timesheets stopped announce put timesheets_t work_sessions_t tracking_HasOutbox].
    rewrite (upserted_sum timesheet_key); [|done|].
    + fold (billed_seconds k d). rewrite H4. unfold of_key. rewrite K, Kb. lia.
    + intros r Er. unfold of_key. change (timesheet_key (accrued row r)) with (timesheet_key r). rewrite Er.
      destruct (bool_decide _); cbn [accrued tm_billable_seconds]; lia.
  - intros r [[Hr _]|[(o & Ho & _ & ->)| ->]]%upserted_In; [auto| |congruence].
    cbn [accrued tm_total_seconds tm_billable_seconds]. rewrite (H5 o Ho). congruence.
  - intros r [[Hr _]|[(o & Ho & _ & ->)| ->]]%upserted_In; [by apply H6|by apply (H6 o)|].
    injection K as -> _. exists cr. exact FC.
Qed.

Lemma tracking_inv_step d d' : tracking_inv d -> tracking_step d d' -> tracking_inv d'.
Proof.
  intros HI. destruct 1 as [call ev n|cs users devices]; [|by apply tracking_inv_joined].
  pose proof (call_tracking_change call ev d n) as C. destruct call; cbn [tracking_change] in C.
  - destruct C as [->|(s & O & ->)]; [done|]. apply tracking_inv_opened; [apply O|done].
  - destruct C as [->|(s & _ & _ & I)]; [done|]. by apply (tracking_inv_ingested d).
  - destruct C as [->|(s & t & active & idle & avg & row & C & ->)]; [done|]. by eapply tracking_inv_stopped.
Qed.

Lemma tracking_reachable_inv d : tracking_reachable d -> tracking_inv d.
Proof.
  intros R. assert (forall d0, tracking_inv d0 -> rtc tracking_step d0 d -> tracking_inv d) as H.
  { intros d0 HI. induction 1 as [|d0 d1 d2 S _ IH]; [done|]. by eapply IH, tracking_inv_step. }
  exact (H _ tracking_inv_start R).
Qed.

(** C28: The timesheets add up. In every reachable database there is at most one
    timesheet per contract and week; its billable seconds are the sum of the
    seconds of all worksession.closed events for that contract and week, and its
    amount is those seconds at the hourly rate of the contract, short of at most
    one cent per closing (for a rate up to 2^32 cents, so that no product
    overflows). *)
Theorem timesheets_add_up d r :
  tracking_reachable d -> In r (timesheets d) ->
  (forall r', In r' (timesheets d) -> timesheet_key r' = timesheet_key r -> r' = r) /\
  tm_total_seconds r = tm_billable_seconds r /\
  tm_billable_seconds r = closed_seconds (timesheet_key r) (tracking_outbox d) /\
  (forall rate, rate_of (tm_contract_id r) d = Some rate -> 0 <= rate <= 2 ^ 32 ->
     rate * tm_billable_seconds r - 3600 * closings (timesheet_key r) (tracking_outbox d) <= 3600 * tm_amount_cents r
       <= rate * tm_billable_seconds r).
Proof.
  intros HR Hr. destruct (tracking_reachable_inv d HR) as [H1 H2 H3 H4 H5 H6 H7].
  assert (forall r', In r' (timesheets d) -> timesheet_key r' = timesheet_key r -> r' = r) as U
    by (intros r' Hr' E; by eapply (NoDup_map_inj timesheet_key)).
  split; [done|]. split; [auto|]. split; [|by apply H7]. rewrite <- H4. symmetry. by apply (sumZ_only timesheet_key).
Qed.

(** ** Demonstration

    A freelancer works ten minutes on a contract of 36 dollars an hour. *)

Definition demo_parties : transport := fun _ _ =>
  Some (200, Some (JObj [("contract_id", JStr "c1"); ("client_id", JStr "ann"); ("freelancer_id", JStr "bob");
                         ("status", JStr "active")])).

Definition demo_minute : Z := 60000000000.

(** One minute of input, nine of silence. *)
Definition demo_slice : IncomingSlice :=
  mkIncomingSlice "id-xx" "c1" 0 (10 * demo_minute) [mkSample 0 60 40 3000] "editor" "" "" "" false.

Definition demo_calls : list (tracking_call * nat) :=
  [(TkStart demo_parties "http://contract" "c1" "bob" "" "UTC" 0, O); (TkIngest "id-xx" "c1" "bob" [demo_slice], O);
   (TkStop "id-xx" "bob" "done" (10 * demo_minute), O)].

Definition run_calls (l : list (tracking_call * nat)) (d : tracking_db) : tracking_db :=
  fold_left (fun d x => tracking_after (fst x) quiet_env d (snd x)) l d.

Lemma run_calls_steps l d : rtc tracking_step d (run_calls l d).
Proof.
  revert d. induction l as [|[call n] l IH]; intros d; [constructor|].
  eapply rtc_l; [exact (tks_call d call quiet_env n)|]. apply IH.
Qed.

Definition demo_contract : ContractRow := mkContractRow "c1" (Some 3600) None.
Definition demo_start : tracking_db := joined [demo_contract] ["bob"] [] no_tracking.

Lemma demo_start_reachable l : tracking_reachable (run_calls l demo_start).
Proof. eapply rtc_l; [exact (tks_joined no_tracking [demo_contract] ["bob"] [])|]. apply run_calls_steps. Qed.

Definition worked : tracking_db := Eval vm_compute in run_calls demo_calls demo_start.

Lemma worked_eq : run_calls demo_calls demo_start = worked.
Proof. vm_compute. reflexivity. Qed.

Lemma worked_reachable : tracking_reachable worked.
Proof. rewrite <- worked_eq. apply demo_start_reachable. Qed.

Definition worked_timesheet : Timesheet := Eval vm_compute in
  match timesheets worked with r :: _ => r | [] => mkTimesheet "" "" "" 0 0 0 None "" end.

Lemma timesheets_add_up_witness :
  (tm_billable_seconds worked_timesheet = 60 /\ tm_amount_cents worked_timesheet = 60) /\
  ((forall r', In r' (timesheets worked) -> timesheet_key r' = timesheet_key worked_timesheet -> r' = worked_timesheet) /\
   tm_total_seconds worked_timesheet = tm_billable_seconds worked_timesheet /\
   tm_billable_seconds worked_timesheet = closed_seconds (timesheet_key worked_timesheet) (tracking_outbox worked) /\
   (forall rate, rate_of (tm_contract_id worked_timesheet) worked = Some rate -> 0 <= rate <= 2 ^ 32 ->
      rate * tm_billable_seconds worked_timesheet -
        3600 * closings (timesheet_key worked_timesheet) (tracking_outbox worked)
      <= 3600 * tm_amount_cents worked_timesheet <= rate * tm_billable_seconds worked_timesheet)).
Proof.
  split; [by split|]. apply (timesheets_add_up worked worked_timesheet worked_reachable). by left.
Defined.

(** Stopping the session again bills its minute again. *)
Definition restopped : tracking_db := Eval vm_compute in
  tracking_after (TkStop "id-xx" "bob" "again" (11 * demo_minute)) quiet_env worked 0.

Example stopping_again_bills_again :
  tracking_after (TkStop "id-xx" "bob" "again" (11 * demo_minute)) quiet_env worked 0 = restopped /\
  map ws_billed_seconds (work_sessions restopped) = [60] /\
  map tm_billable_seconds (timesheets restopped) = [120] /\ map tm_amount_cents (timesheets restopped) = [120].
Proof. split; [vm_compute|]; by repeat split. Qed.

(** A slice sent again with a later end bills the longer time over the old
    interval. *)
Definition longer_slice : IncomingSlice :=
  mkIncomingSlice "id-xx" "c1" 0 (60 * demo_minute)
    (map (fun i => mkSample (Z.of_nat i * demo_minute) 60 40 3000) (seq 0 20)) "editor" "" "" "" false.

Example reingested_slice_outgrows_its_interval :
  map (fun r => (slice_length (ts_slice r), sl_ActiveSeconds (ts_slice r)))
    (time_slices (tracking_after (TkIngest "id-xx" "c1" "bob" [longer_slice]) quiet_env worked 0)) = [(600, 1200)].
Proof. vm_compute. reflexivity. Qed.

(** * Time tracking REST transport (services/timetracking/internal/httpapi) *)
(** ** Bodies *)

Record startReq := mkStartReq { sr_ContractID : string; sr_DeviceID : string; sr_Timezone : string }.

Definition decode_startReq (o : list (string * json)) : option startReq :=
  obind (str_field "contract_id" o) (fun c =>
  obind (str_field "device_id" o) (fun dev =>
  obind (str_field "timezone" o) (fun tz => Some (mkStartReq c dev tz)))).

Definition sampleDTO (o : list (string * json)) : option Sample :=
  obind (time_field "at" o) (fun t =>
  obind (int_field "keyboard_count" o) (fun kb =>
  obind (int_field "mouse_count" o) (fun mouse =>
  obind (int_field "mouse_distance" o) (fun dist => Some (mkSample t kb mouse dist))))).

(** The slices of a body, for the session of the path. *)
Definition sliceDTO (sessionID : string) (o : list (string * json)) : option IncomingSlice :=
  obind (str_field "contract_id" o) (fun c =>
  obind (time_field "slice_start" o) (fun start =>
  obind (time_field "slice_end" o) (fun stop =>
  obind (structs_field (mkSample zero_time 0 0 0) sampleDTO "samples" o) (fun samples =>
  obind (str_field "active_app" o) (fun app =>
  obind (str_field "active_app_title" o) (fun title =>
  obind (str_field "browser_url_host" o) (fun host =>
  obind (str_field "screenshot_id" o) (fun shot =>
  obind (bool_field "is_manual" o) (fun manual =>
  Some (mkIncomingSlice sessionID c start stop samples app title host shot manual)))))))))).

Definition decode_submitReq (sessionID : string) (o : list (string * json)) : option (list IncomingSlice) :=
  structs_field (mkIncomingSlice sessionID "" zero_time zero_time [] "" "" "" "" false) (sliceDTO sessionID) "slices" o.

(** ** Handlers *)

Section Api.
Context `{PgErrorText} (net : transport) (baseURL : string).

Definition err_text (e : err tracking_err) : string :=
  match e with
  | Db d => error_text d
  | Dom ErrNotFound => "store: not found"
  | Dom ErrForbidden => "rbac: forbidden"
  end.

Definition mapError (e : err tracking_err) : response :=
  match e with
  | Dom ErrNotFound => writeErr 404 "NOT_FOUND" "session not found"
  | Dom ErrForbidden => writeErr 403 "FORBIDDEN" "not permitted"
  | _ => writeErr 500 "INTERNAL" (err_text e)
  end.

Definition tracker (r : request) : step (D := tracking_db) (E := tracking_err) string :=
  let caller := header r "X-User-Id" in
  if String.eqb caller "" then reply_with (writeErr 401 "UNAUTHORIZED" "missing identity") else go_on caller.

Definition startSession (r : request) : tprog response :=
  req <-? Http.decode decode_startReq r ;;
  freelancer <-? tracker r ;;
  t <- time_now ;;
  res <-? or_mapped mapError (StartSession net baseURL (sr_ContractID req) freelancer (sr_DeviceID req) (sr_Timezone req) t) ;;
  ret (writeJSON 201 (JObj [("session_id", JStr (st_SessionID res)); ("billing_week", JStr (st_BillingWeek res));
                            ("capture_interval_seconds", JInt (st_CaptureInterval res))])).

Definition first_contract (l : list IncomingSlice) : string :=
  match l with [] => "" | i :: _ => in_ContractID i end.

Definition submitSlices (r : request) : tprog response :=
  caller <-? tracker r ;;
  slices <-? Http.decode (decode_submitReq (urlParam r "id")) r ;;
  accepted <-? or_mapped mapError (IngestSlices (urlParam r "id") (first_contract slices) caller slices) ;;
  ret (writeJSON 200 (JObj [("accepted", JInt accepted)])).

(** The error of decode is dropped after it was written: the memo is what was
    decoded, and a status already sent stays. *)
Definition partial_memo (b : option json) : string :=
  match members b with
  | Some o => fold_left (fun m j => match j with JStr s => s | _ => m end) (values_of "memo" o) ""
  | None => ""
  end.

Definition bad_body (r : request) : option response :=
  match obind (members (body r)) (str_field "memo") with
  | Some _ => None
  | None => Some (writeErr 400 "INVALID_JSON" "could not parse request body")
  end.

Definition stopSession (r : request) : tprog response :=
  caller <-? tracker r ;;
  t <- time_now ;;
  res <- attempt (StopSession (urlParam r "id") caller (partial_memo (body r)) t) ;;
  let answer := match res with
                | Ok c => writeJSON 200 (JObj [("active_seconds", JInt (cl_ActiveSeconds c));
                                               ("idle_seconds", JInt (cl_IdleSeconds c));
                                               ("avg_activity_pct", JInt (cl_AvgActivityPct c))])
                | Err e => mapError e
                end in
  ret (default answer (bad_body r)).

Definition getTimesheet (r : request) : tprog response :=
  res <- attempt (service_GetTimesheet (urlParam r "contractID") (query r "billing_week")) ;;
  ret match res with
      | Err _ => writeErr 404 "NOT_FOUND" "timesheet not found"
      | Ok v => writeJSON 200 (JObj [("billing_week", JStr (tv_Week v)); ("total_billable_seconds", JInt (tv_BillableSeconds v));
                                     ("amount_cents", JInt (tv_AmountCents v)); ("status", JStr (tv_Status v));
                                     ("avg_activity_pct", JInt (tv_AvgActivityPct v))])
      end.

Inductive tracking_route := StartR | SlicesR | StopR | TimesheetR | HealthR.

Definition serve (x : tracking_route) (r : request) : tprog response :=
  match x with
  | StartR => startSession r
  | SlicesR => submitSlices r
  | StopR => stopSession r
  | TimesheetR => getTimesheet r
  | HealthR => ret (Response 200 JNull)
  end.

Definition after_route (x : tracking_route) (r : request) (ev : env) (d : tracking_db) (n : nat) : tracking_db :=
  committed (snd (serve x r ev (rest d n))).

(** ** What the routes may change *)

(** The caller is the freelancer of the session of the path. *)
Definition owns_session (r : request) (d : tracking_db) : Prop :=
  exists s, find_session (urlParam r "id") d = Some s /\ ws_freelancer_id s = header r "X-User-Id".

(** The contract service vouched for the caller as the freelancer of an active
    contract. *)
Definition may_start (r : request) (s : WorkSession) : Prop :=
  exists p, vouched net baseURL (ws_contract_id s) p /\ FreelancerID p = header r "X-User-Id" /\ Status p = "active".

Inductive route_change (x : tracking_route) (r : request) (d : tracking_db) : tracking_db -> Prop :=
| rc_none : route_change x r d d
| rc_start s : x = StartR -> header r "X-User-Id" <> "" -> may_start r s -> ws_freelancer_id s = header r "X-User-Id" ->
    route_change x r d (add_session s d)
| rc_slices d' : x = SlicesR -> header r "X-User-Id" <> "" -> owns_session r d -> ingested d d' -> route_change x r d d'
| rc_stop t at_time memo active idle avg s row : x = StopR -> header r "X-User-Id" <> "" -> owns_session r d ->
    closes (urlParam r "id") (header r "X-User-Id") d s active idle avg row ->
    route_change x r d (stopped t at_time (urlParam r "id") memo active idle avg s row d).

Lemma wp_tracker r ev w (Q : res tracking_err (response + string) -> world tracking_db -> Prop) :
  (forall resp, Q (Ok (inl resp)) w) -> (header r "X-User-Id" <> "" -> Q (Ok (inr (header r "X-User-Id"))) w) ->
  wp (tracker r) ev w Q.
Proof.
  intros H1 H2. unfold tracker. cbv zeta. destruct (String.eqb_spec (header r "X-User-Id") ""); apply wp_ret; auto.
Qed.

Lemma wp_ended_service {A} (O : tracking_db -> Prop) (m : tprog A) (k : A -> tprog response) ev d n :
  wp m ev (rest d n) (ended (fun _ => O)) -> (forall a w (P : res tracking_err response -> world tracking_db -> Prop),
    (forall x, P x w) -> wp (k a) ev w P) ->
  wp (bind_ok (or_mapped mapError m) k) ev (rest d n) (fun _ w => O (committed w)).
Proof.
  intros Hm Hk. apply (wp_service O); [|done]. eapply wp_mono; [exact Hm|]. intros r w HW. apply HW.
Qed.

Lemma wp_GetTimesheet cid week ev d n :
  wp (service_GetTimesheet cid week) ev (rest d n) (fun _ w => committed w = d).
Proof.
  unfold service_GetTimesheet. apply wp_bind.
  assert (forall week m, wp (GetTimesheet cid week) ev (World d NoTx m) (fun _ w => committed w = d)) as Hget.
  { intros k m. unfold GetTimesheet. apply wp_bind, (wp_pool_read _ (find_timesheet cid k d)); [done..|].
    destruct (find_timesheet cid k d); [by apply wp_ret|by apply wp_throw]. }
  destruct (String.eqb week ""); [|apply wp_ret, Hget]. apply wp_bind. exact (Hget _ _).
Qed.

Lemma stop_keeps_session sid caller d s active idle avg row :
  closes sid caller d s active idle avg row -> find_session sid d = Some s /\ ws_freelancer_id s = caller.
Proof. intros C. by split; apply C. Qed.

(** Hours are recorded only for the freelancer. If serving a request to the
    tracking service changed its tables, the request carried a user id, and the
    change is one of three: a new session of that user on a contract whose
    service vouched, during the call, that the user is its freelancer and the
    contract active; slices and their warnings, in a session of that user; or the
    closing of a session of that user, with its timesheet and event. *)
Theorem hours_are_the_freelancers x r ev d n : route_change x r d (after_route x r ev d n).
Proof.
  unfold after_route.
  assert (wp (serve x r) ev (rest d n) (fun _ w => route_change x r d (committed w))) as Hserve; [|exact Hserve].
  destruct x; cbn [serve].
  - unfold startSession. apply wp_bind_ok, wp_decode; [by constructor|]. intros o q _ _.
    apply wp_bind_ok, wp_tracker; [by constructor|]. intros U. apply wp_bind.
    apply (wp_ended_service (route_change StartR r d)); [|intros a w P HP; by apply wp_ret].
    eapply wp_mono; [apply (StartSession_outcome net baseURL)|]. intros r' w [T O]. split; [done|].
    destruct O as [->|(s & [O1 O2 O3 O4 O5] & ->)]; [constructor|]. apply rc_start; [done..| |done]. by rewrite <- O1 in O3.
  - unfold submitSlices. apply wp_bind_ok, wp_tracker; [by constructor|]. intros U.
    apply wp_bind_ok, wp_decode; [by constructor|]. intros o q _ _.
    apply (wp_ended_service (route_change SlicesR r d)); [|intros a w P HP; by apply wp_ret].
    eapply wp_mono; [apply IngestSlices_outcome|]. intros r' w [T O]. split; [done|].
    destruct O as [->|(s & F & O & I)]; [constructor|]. apply rc_slices; [done..| |done]. by exists s.
  - unfold stopSession. apply wp_bind_ok, wp_tracker; [by constructor|]. intros U. apply wp_bind.
    apply wp_bind, wp_attempt. eapply wp_mono; [apply StopSession_outcome|]. intros r' w [T O]. apply wp_ret.
    destruct O as [->|(s & t & active & idle & avg & row & C & ->)]; [constructor|].
    eapply rc_stop; [done..| |exact C]. exists s. by eapply stop_keeps_session.
  - unfold getTimesheet. apply wp_bind, wp_attempt. eapply wp_mono; [apply wp_GetTimesheet|].
    intros r' w E. apply wp_ret. rewrite E. constructor.
  - apply wp_ret. constructor.
Qed.
End Api.

(** A body that does not decode is answered with status 400, and the session is
    stopped and billed all the same. *)
Example bad_body_still_bills `{PgErrorText} (net : transport) (base : string) :
  let d := run_calls (firstn 2 demo_calls) demo_start in
  let r := demo_request_with "bob" "id-xx" (fun _ => "") (Some (JStr "garbled")) in
  (exists resp, fst (serve net base StopR r quiet_env (rest d 0)) = Ok resp /\ status resp = 400) /\
  map tm_billable_seconds (timesheets (after_route net base StopR r quiet_env d 0)) = [60].
Proof. split; [eexists; split|]; vm_compute; reflexivity. Qed.

(** Anyone reads a timesheet: the route asks for no identity. *)
Example timesheet_needs_no_identity `{PgErrorText} (net : transport) (base : string) :
  exists resp, fst (serve net base TimesheetR (Request (fun _ => "") (fun _ => "c1") (fun _ => "1970-W01") 0 None None)
    quiet_env (rest worked 0)) = Ok resp /\ status resp = 200.
Proof. eexists. split; vm_compute; reflexivity. Qed.
