(* ===== verification/Base64.v ===== *)
(** * encoding/base64

    RawStdEncoding, RawURLEncoding and the padded StdEncoding: encoding of byte lists, and Go's
    decoder, which skips line breaks and ignores the spare bits at the end. *)
From S2P Require Export Sha256.

(** ** Alphabets *)

Definition std_alphabet : string := "ABCDEFGHIJKLMNOPQRSTUVWXYZabcdefghijklmnopqrstuvwxyz0123456789+/".
Definition url_alphabet : string := "ABCDEFGHIJKLMNOPQRSTUVWXYZabcdefghijklmnopqrstuvwxyz0123456789-_".

Definition char_at (alphabet : string) (v : Z) : Ascii.ascii :=
  default "A"%char (String.get (Z.to_nat v) alphabet).

Fixpoint index_from (k : Z) (alphabet : string) (c : Ascii.ascii) : option Z :=
  match alphabet with
  | EmptyString => None
  | String a rest => if Ascii.eqb a c then Some k else index_from (k + 1) rest c
  end.

Definition value_of (alphabet : string) (c : Ascii.ascii) : option Z := index_from 0 alphabet c.

(** ** EncodeToString *)

Fixpoint encode_b64 (alphabet : string) (l : list Z) : string :=
  let e v := char_at alphabet v in
  match l with
  | [] => ""
  | [a] => String (e (a / 4)) (String (e (a mod 4 * 16)) "")
  | [a; b] => String (e (a / 4)) (String (e (a mod 4 * 16 + b / 16)) (String (e (b mod 16 * 4)) ""))
  | a :: b :: c :: l' =>
      String (e (a / 4)) (String (e (a mod 4 * 16 + b / 16)) (String (e (b mod 16 * 4 + c / 64))
        (String (e (c mod 64)) (encode_b64 alphabet l'))))
  end.

(** ** DecodeString *)

(** The six-bit values of the characters; line breaks are skipped. *)
Fixpoint sextets (alphabet : string) (s : string) : option (list Z) :=
  match s with
  | EmptyString => Some []
  | String c s' =>
      if Ascii.eqb c "010"%char || Ascii.eqb c "013"%char then sextets alphabet s'
      else match value_of alphabet c, sextets alphabet s' with
           | Some v, Some l => Some (v :: l)
           | _, _ => None
           end
  end.

Fixpoint unpack (l : list Z) : option (list Z) :=
  match l with
  | [] => Some []
  | [_] => None
  | [w; x] => Some [w * 4 + x / 16]
  | [w; x; y] => Some [w * 4 + x / 16; x mod 16 * 16 + y / 4]
  | w :: x :: y :: z :: l' =>
      option_map (fun r => w * 4 + x / 16 :: x mod 16 * 16 + y / 4 :: y mod 4 * 64 + z :: r) (unpack l')
  end.

Definition decode_b64 (alphabet : string) (s : string) : option (list Z) :=
  match sextets alphabet s with Some l => unpack l | None => None end.

(** ** Round trip *)

Definition is_byte (z : Z) : Prop := 0 <= z < 256.

Ltac sextet_bounds := unfold is_byte in *; Z.to_euclidean_division_equations; lia.

(** What an alphabet has to satisfy. *)
Definition alphabet_ok (alphabet : string) : bool :=
  forallb (fun k => let c := char_at alphabet (Z.of_nat k) in
    match value_of alphabet c with Some v => v =? Z.of_nat k | None => false end &&
    negb (Ascii.eqb c "010"%char || Ascii.eqb c "013"%char)) (seq 0 64).

Lemma std_ok : alphabet_ok std_alphabet = true.
Proof. reflexivity. Qed.

Lemma url_ok : alphabet_ok url_alphabet = true.
Proof. reflexivity. Qed.

Section RoundTrip.
Context (alphabet : string) (Hok : alphabet_ok alphabet = true).

Lemma sextets_char v s : 0 <= v < 64 ->
  sextets alphabet (String (char_at alphabet v) s) = option_map (cons v) (sextets alphabet s).
Proof.
  intros Hv. pose proof Hok as H. unfold alphabet_ok in H. rewrite forallb_forall in H.
  specialize (H (Z.to_nat v)). rewrite Z2Nat.id in H by lia.
  destruct (andb_prop _ _ (H ltac:(apply in_seq; lia))) as [H1 H2%negb_true_iff].
  cbn [sextets]. rewrite H2. destruct (value_of alphabet _) as [w|]; [|done].
  apply Z.eqb_eq in H1 as ->. by destruct (sextets alphabet s).
Qed.

(** The six-bit groups of a byte list. *)
Fixpoint groups (l : list Z) : list Z :=
  match l with
  | [] => []
  | [a] => [a / 4; a mod 4 * 16]
  | [a; b] => [a / 4; a mod 4 * 16 + b / 16; b mod 16 * 4]
  | a :: b :: c :: l' =>
      a / 4 :: a mod 4 * 16 + b / 16 :: b mod 16 * 4 + c / 64 :: c mod 64 :: groups l'
  end.

Lemma three_ind (P : list Z -> Prop) :
  P [] -> (forall a, P [a]) -> (forall a b, P [a; b]) ->
  (forall a b c l, P l -> P (a :: b :: c :: l)) -> forall l, P l.
Proof.
  intros H0 H1 H2 H3 l. enough (P l /\ (forall a, P (a :: l)) /\ forall a b, P (a :: b :: l)) by tauto.
  induction l as [|x l (IH1 & IH2 & IH3)]; repeat split; intros; auto.
Qed.

Lemma sextets_encode l : Forall is_byte l -> sextets alphabet (encode_b64 alphabet l) = Some (groups l).
Proof.
  induction l as [|a|a b|a b c l IH] using three_ind; intros Hl; rewrite ?Forall_cons in Hl; [done|..];
    cbn [encode_b64 groups]; rewrite !sextets_char by sextet_bounds; cbn [option_map sextets]; [done..|].
  by rewrite IH by tauto.
Qed.

Lemma unpack_groups l : Forall is_byte l -> unpack (groups l) = Some l.
Proof.
  induction l as [|a|a b|a b c l IH] using three_ind; intros Hl; rewrite ?Forall_cons in Hl; [done|..];
    cbn [groups unpack].
  - repeat f_equal; sextet_bounds.
  - repeat f_equal; sextet_bounds.
  - rewrite IH by tauto. cbn [option_map]. repeat f_equal; sextet_bounds.
Qed.

Lemma decode_encode_b64 l : Forall is_byte l -> decode_b64 alphabet (encode_b64 alphabet l) = Some l.
Proof. intros Hl. unfold decode_b64. by rewrite sextets_encode, unpack_groups. Qed.

Lemma encode_b64_inj l l' :
  Forall is_byte l -> Forall is_byte l' -> encode_b64 alphabet l = encode_b64 alphabet l' -> l = l'.
Proof. intros H1 H2 E. apply decode_encode_b64 in H1, H2. rewrite E in H1. congruence. Qed.
End RoundTrip.

Example encode_b64_man : encode_b64 std_alphabet (bytes_of "light w") = "bGlnaHQgdw".
Proof. reflexivity. Qed.

(** * base64.StdEncoding, with padding

    The decoder returns what it decoded up to the first error. *)

Fixpoint encode_std (l : list Z) : string :=
  let e v := char_at std_alphabet v in
  match l with
  | [] => ""
  | [a] => String (e (a / 4)) (String (e (a mod 4 * 16)) "==")
  | [a; b] => String (e (a / 4)) (String (e (a mod 4 * 16 + b / 16)) (String (e (b mod 16 * 4)) "="))
  | a :: b :: c :: l' =>
      String (e (a / 4)) (String (e (a mod 4 * 16 + b / 16)) (String (e (b mod 16 * 4 + c / 64))
        (String (e (c mod 64)) (encode_std l'))))
  end.

Definition line_break (c : Ascii.ascii) : bool := Ascii.eqb c "010"%char || Ascii.eqb c "013"%char.

Fixpoint skip_breaks (s : string) : string :=
  match s with
  | String c s' => if line_break c then skip_breaks s' else s
  | EmptyString => EmptyString
  end.

(** [acc] are the sextets of the quantum so far: the bytes, and whether there
    was no error. *)
Fixpoint decode_std (acc : list Z) (s : string) : list Z * bool :=
  match s with
  | EmptyString => ([], match acc with [] => true | _ => false end)
  | String c s' =>
      if line_break c then decode_std acc s' else
      if Ascii.eqb c "="%char then
        match acc with
        | [w; x] =>
            match skip_breaks s' with
            | String "="%char rest => ([w * 4 + x / 16], String.eqb (skip_breaks rest) "")
            | _ => ([], false)
            end
        | [w; x; y] => ([w * 4 + x / 16; x mod 16 * 16 + y / 4], String.eqb (skip_breaks s') "")
        | _ => ([], false)
        end
      else match value_of std_alphabet c with
           | None => ([], false)
           | Some v =>
               match acc with
               | [w; x; y] => let '(r, ok) := decode_std [] s' in
                              (w * 4 + x / 16 :: x mod 16 * 16 + y / 4 :: y mod 4 * 64 + v :: r, ok)
               | _ => decode_std (acc ++ [v]) s'
               end
           end
  end.

(** base64.StdEncoding.DecodeString *)
Definition DecodeString (s : string) : option (list Z) :=
  let '(b, ok) := decode_std [] s in if ok then Some b else None.

Lemma decode_std_char acc v s : 0 <= v < 64 ->
  decode_std acc (String (char_at std_alphabet v) s) =
  match acc with
  | [w; x; y] => let '(r, ok) := decode_std [] s in
                 (w * 4 + x / 16 :: x mod 16 * 16 + y / 4 :: y mod 4 * 64 + v :: r, ok)
  | _ => decode_std (acc ++ [v]) s
  end.
Proof.
  intros Hv. assert (forallb (fun k => let c := char_at std_alphabet (Z.of_nat k) in
    match value_of std_alphabet c with Some v => v =? Z.of_nat k | None => false end &&
    negb (line_break c) && negb (Ascii.eqb c "=")) (seq 0 64) = true) as H by reflexivity.
  rewrite forallb_forall in H. specialize (H (Z.to_nat v)). rewrite Z2Nat.id in H by lia.
  specialize (H ltac:(apply in_seq; lia)). cbn beta zeta in H.
  apply andb_prop in H as [[H1 H2%negb_true_iff]%andb_prop H3%negb_true_iff].
  cbn [decode_std]. rewrite H2, H3. destruct (value_of _ _) as [w|]; [|done]. by apply Z.eqb_eq in H1 as ->.
Qed.

Lemma decode_encode_std l : Forall is_byte l -> decode_std [] (encode_std l) = (l, true).
Proof.
  induction l as [|a|a b|a b c l IH] using three_ind; intros Hl; rewrite ?Forall_cons in Hl; [done|..];
    cbn [encode_std]; rewrite !decode_std_char by sextet_bounds; cbn [app]; rewrite ?decode_std_char by sextet_bounds;
    cbn [app]; rewrite ?decode_std_char by sextet_bounds; cbn [app]; rewrite ?decode_std_char by sextet_bounds.
  - cbn. repeat f_equal. sextet_bounds.
  - cbn. repeat f_equal; sextet_bounds.
  - rewrite IH by tauto. repeat f_equal; sextet_bounds.
Qed.

Lemma DecodeString_encode l : Forall is_byte l -> DecodeString (encode_std l) = Some l.
Proof. intros Hl. unfold DecodeString. by rewrite decode_encode_std. Qed.

Example encode_std_pad : encode_std (bytes_of "light w") = "bGlnaHQgdw==".
Proof. reflexivity. Qed.

Example decode_std_error : decode_std [] "bGlnaHQg!w==" = (bytes_of "light ", false).
Proof. reflexivity. Qed.
