(* ===== verification/Password.v ===== *)
(** * Password hashes (services/pkg/crypto/password.go)

    Argon2id hashes in PHC string format.  The key derivation itself is the
    argon2 library: a parameter of the model, of which only the length of its
    result matters. *)
From S2P Require Export Base64 Strings.

Record Argon2Params := mkArgon2 {
  Memory : Z;          (* uint32, KiB *)
  Iterations : Z;      (* uint32 *)
  Parallelism : Z;     (* uint8 *)
  SaltLength : Z;
  KeyLength : Z
}.

Definition DefaultArgon2Params : Argon2Params := mkArgon2 (64 * 1024) 3 2 16 32.

(** argon2.IDKey(password, salt, time, memory, threads, keyLen) *)
Class Argon2 := IDKey : list Z -> list Z -> Z -> Z -> Z -> Z -> list Z.

Definition argon2_Version : Z := 19.

(** ** fmt *)

Fixpoint dec_digits (fuel : nat) (z : Z) (acc : string) : string :=
  match fuel with
  | O => acc
  | S n => let acc := String (Ascii.ascii_of_nat (Z.to_nat (48 + z mod 10))) acc in
           if z <? 10 then acc else dec_digits n (z / 10) acc
  end.

(** %d of a number of at most 20 digits. *)
Definition decimal (z : Z) : string := dec_digits 20 z "".

Fixpoint skip_spaces (s : string) : string :=
  match s with
  | String c s' => if is_space c then skip_spaces s' else s
  | EmptyString => EmptyString
  end.

Fixpoint literal (prefix s : string) : option string :=
  match prefix, s with
  | EmptyString, _ => Some s
  | String a p, String b s' => if Ascii.eqb a b then literal p s' else None
  | String _ _, EmptyString => None
  end.

(** The digits at the head of [s] as a number, and the rest. *)
Fixpoint scan_digits (acc : Z) (s : string) : Z * string :=
  match s with
  | String c s' => match digit c with Some d => scan_digits (10 * acc + d) s' | None => (acc, s) end
  | EmptyString => (acc, EmptyString)
  end.

Definition scan_nat (s : string) : option (Z * string) :=
  match s with
  | String c _ => match digit c with Some _ => Some (scan_digits 0 s) | None => None end
  | EmptyString => None
  end.

(** Sscanf %d into an unsigned integer of [bits] bits. *)
Definition scan_uint (bits : Z) (s : string) : option (Z * string) :=
  match scan_nat (skip_spaces s) with
  | Some (v, rest) => if v <? 2 ^ bits then Some (v, rest) else None
  | None => None
  end.

(** Sscanf %d into an int. *)
Definition scan_int (s : string) : option (Z * string) :=
  let in_range (r : option (Z * string)) sign :=
    match r with
    | Some (v, rest) => if in_int64 (sign * v) then Some (sign * v, rest) else None
    | None => None
    end in
  match skip_spaces s with
  | String "-"%char s' => in_range (scan_nat s') (-1)
  | String "+"%char s' => in_range (scan_nat s') 1
  | s' => in_range (scan_nat s') 1
  end.

(** ** HashPassword and VerifyPassword *)

Section Password.
Context `{Argon2}.

(** The string for a salt. *)
Definition phc (p : Argon2Params) (salt key : list Z) : string :=
  ("$argon2id$v=" ++ decimal argon2_Version ++ "$m=" ++ decimal (Memory p) ++ ",t=" ++ decimal (Iterations p)
   ++ ",p=" ++ decimal (Parallelism p) ++ "$" ++ encode_b64 std_alphabet salt ++ "$"
   ++ encode_b64 std_alphabet key)%string.

(** [None] when the salt cannot be read. *)
Definition HashPassword (salt : option (list Z)) (password : string) (p : Argon2Params) : option string :=
  obind salt (fun salt =>
    Some (phc p salt (IDKey (bytes_of password) salt (Iterations p) (Memory p) (Parallelism p) (KeyLength p)))).

Definition decodeHash (encoded : string) : option (Argon2Params * list Z * list Z) :=
  match Strings.split "$" encoded with
  | [_; alg; v; params; salt; hash] =>
      if negb (String.eqb alg "argon2id") then None else
      obind (obind (literal "v=" v) scan_int) (fun '(version, _) =>
      if negb (version =? argon2_Version) then None else
      obind (obind (literal "m=" params) (scan_uint 32)) (fun '(m, rest) =>
      obind (obind (literal ",t=" rest) (scan_uint 32)) (fun '(t, rest) =>
      obind (obind (literal ",p=" rest) (scan_uint 8)) (fun '(par, _) =>
      obind (decode_b64 std_alphabet salt) (fun salt =>
      obind (decode_b64 std_alphabet hash) (fun hash =>
      Some (mkArgon2 m t par 0 0, salt, hash)))))))
  | _ => None
  end.

(** [None] is an error. *)
Definition VerifyPassword (password encoded : string) : option bool :=
  obind (decodeHash encoded) (fun '(p, salt, hash) =>
    let other := IDKey (bytes_of password) salt (Iterations p) (Memory p) (Parallelism p)
                   (Z.of_nat (List.length hash)) in
    Some (bool_decide (hash = other))).
End Password.

(** ** Printing and scanning numbers *)

Lemma digit_char z : 0 <= z < 10 -> digit (Ascii.ascii_of_nat (Z.to_nat (48 + z))) = Some z.
Proof.
  intros Hz. assert (z = 0 \/ z = 1 \/ z = 2 \/ z = 3 \/ z = 4 \/ z = 5 \/ z = 6 \/ z = 7 \/ z = 8 \/ z = 9) as H by lia.
  by repeat destruct H as [->|H]; [reflexivity..|subst].
Qed.

(** No digit and no scanned text starts with this character. *)
Definition no_digit_head (s : string) : Prop :=
  match s with String c _ => digit c = None | EmptyString => True end.

Lemma scan_digits_stop acc s : no_digit_head s -> scan_digits acc s = (acc, s).
Proof. destruct s as [|c s]; [done|]. cbn. by intros ->. Qed.

Lemma scan_dec_digits fuel z acc s :
  0 <= z < 10 ^ Z.of_nat fuel -> exists k, 0 <= k /\
    forall a, scan_digits a (dec_digits fuel z acc ++ s) = scan_digits (a * 10 ^ k + z) (acc ++ s).
Proof.
  revert z acc. induction fuel as [|n IH]; intros z acc Hz.
  - exists 0. split; [lia|]. intros a. assert (z = 0) as -> by (cbn in Hz; lia).
    cbn [dec_digits]. f_equal. lia.
  - cbn [dec_digits]. set (c := Ascii.ascii_of_nat _).
    assert (digit c = Some (z mod 10)) as Hc by (apply digit_char, Z.mod_pos_bound; lia).
    assert (forall b, scan_digits b (String c acc ++ s) = scan_digits (10 * b + z mod 10) (acc ++ s)) as Hstep.
    { intros b. change (String c acc ++ s)%string with (String c (acc ++ s)). cbn [scan_digits]. by rewrite Hc. }
    destruct (Z.ltb_spec z 10) as [Hlt|Hge].
    + exists 1. split; [lia|]. intros a. rewrite Hstep. f_equal. rewrite Z.mod_small by lia. lia.
    + destruct (IH (z / 10) (String c acc)) as (k & Hk & Hs).
      { rewrite Nat2Z.inj_succ, Z.pow_succ_r in Hz by lia. Z.to_euclidean_division_equations; lia. }
      exists (k + 1). split; [lia|]. intros a. rewrite Hs, Hstep. f_equal.
      rewrite Z.pow_add_r by lia. pose proof (Z.div_mod z 10). lia.
Qed.

Lemma dec_digits_head fuel z acc : (0 < fuel)%nat -> 0 <= z ->
  exists c s, dec_digits fuel z acc = String c s /\ is_Some (digit c).
Proof.
  intros Hf. destruct fuel as [|n]; [lia|]. clear Hf. revert z acc. induction n as [|n IH]; intros z acc Hz.
  - cbn [dec_digits]. assert (is_Some (digit (Ascii.ascii_of_nat (Z.to_nat (48 + z mod 10))))) as Hd
      by (rewrite digit_char by (apply Z.mod_pos_bound; lia); eauto).
    destruct (z <? 10); eauto.
  - cbn [dec_digits] in *. assert (is_Some (digit (Ascii.ascii_of_nat (Z.to_nat (48 + z mod 10))))) as Hd
      by (rewrite digit_char by (apply Z.mod_pos_bound; lia); eauto).
    destruct (z <? 10); [eauto|]. apply (IH (z / 10)). Z.to_euclidean_division_equations; lia.
Qed.

Lemma digit_no_space c : is_Some (digit c) -> is_space c = false.
Proof.
  unfold digit, is_space. intros [d Hd].
  destruct ((48 <=? Z.of_nat (nat_of_ascii c)) && (Z.of_nat (nat_of_ascii c) <=? 57)) eqn:X; [|done].
  apply andb_true_iff in X as [X%Z.leb_le _].
  apply orb_false_iff. rewrite andb_false_iff, !Nat.leb_gt, Nat.eqb_neq. lia.
Qed.

Lemma scan_nat_decimal z s :
  0 <= z < 10 ^ 20 -> no_digit_head s ->
  skip_spaces (decimal z ++ s) = (decimal z ++ s)%string /\ scan_nat (decimal z ++ s) = Some (z, s).
Proof.
  intros Hz Hs. unfold decimal. destruct (dec_digits_head 20 z "") as (c & r & E & Hd); [lia..|].
  destruct (scan_dec_digits 20 z "" s) as (k & Hk & Hscan); [done|]. specialize (Hscan 0).
  rewrite E in *. change (String c r ++ s)%string with (String c (r ++ s)) in *.
  split; [cbn [skip_spaces]; by rewrite digit_no_space|].
  cbn [scan_nat]. destruct Hd as [d Hd]. rewrite Hd, Hscan.
  change ("" ++ s)%string with s. rewrite scan_digits_stop by done. done.
Qed.

(** ** The PHC string is read back *)

Lemma split_no_sep sep a : (forall c, In c (String.list_ascii_of_string a) -> c <> sep) -> Strings.split sep a = [a].
Proof.
  induction a as [|c a IH]; cbn [String.list_ascii_of_string Strings.split]; intros Hn; [done|].
  destruct (Ascii.eqb_spec c sep) as [->|]; [by exfalso; apply (Hn sep); [left|]|].
  rewrite IH; [done|]. intros x Hx. apply Hn. by right.
Qed.

Lemma split_sep sep a b : (forall c, In c (String.list_ascii_of_string a) -> c <> sep) ->
  Strings.split sep (a ++ String sep b) = a :: Strings.split sep b.
Proof.
  induction a as [|c a IH]; intros Hn.
  - change ("" ++ String sep b)%string with (String sep b). cbn [Strings.split]. by rewrite Ascii.eqb_refl.
  - change (String c a ++ String sep b)%string with (String c (a ++ String sep b)). cbn [Strings.split].
    destruct (Ascii.eqb_spec c sep) as [->|]; [by exfalso; apply (Hn sep); [left|]|].
    rewrite IH; [done|]. intros x Hx. apply Hn. by right.
Qed.

Lemma chars_app a b : String.list_ascii_of_string (a ++ b)%string = String.list_ascii_of_string a ++ String.list_ascii_of_string b.
Proof.
  induction a as [|c a IH]; [done|].
  change (String.list_ascii_of_string (String c (a ++ b))%string = (c :: String.list_ascii_of_string a) ++ String.list_ascii_of_string b).
  cbn [String.list_ascii_of_string]. by rewrite IH.
Qed.

(** No digit and no base64 character is a dollar sign. *)
Lemma decimal_no_dollar z c : 0 <= z -> In c (String.list_ascii_of_string (decimal z)) -> c <> "$"%char.
Proof.
  unfold decimal. generalize 20%nat. intros fuel.
  assert (forall z acc, 0 <= z -> (forall c, In c (String.list_ascii_of_string acc) -> c <> "$"%char) ->
    forall c, In c (String.list_ascii_of_string (dec_digits fuel z acc)) -> c <> "$"%char) as H.
  { induction fuel as [|n IH]; intros y acc Hy Ha; [done|]. cbn [dec_digits].
    assert (forall x, In x (String.list_ascii_of_string (String (Ascii.ascii_of_nat (Z.to_nat (48 + y mod 10))) acc)) ->
      x <> "$"%char) as Ha'.
    { intros x [<-|Hx]; [|by apply Ha]. intros E.
      pose proof (digit_char (y mod 10) (Z.mod_pos_bound y 10 ltac:(lia))) as D. by rewrite E in D. }
    destruct (y <? 10); [done|]. apply IH; [|done]. Z.to_euclidean_division_equations; lia. }
  intros Hz. by apply H.
Qed.

Lemma base64_no_dollar l c : Forall is_byte l ->
  In c (String.list_ascii_of_string (encode_b64 std_alphabet l)) -> c <> "$"%char.
Proof.
  intros Hl Hc. assert (forall v, char_at std_alphabet v <> "$"%char) as Hv.
  { intros v. unfold char_at. generalize (Z.to_nat v). intros n.
    do 64 (destruct n as [|n]; [by vm_compute|]). by vm_compute. }
  induction l as [|a|a b|a b d l IH] using three_ind; cbn [encode_b64 String.list_ascii_of_string In] in Hc; [done|..].
  1,2: by repeat destruct Hc as [<-|Hc]; try apply Hv.
  apply Forall_cons_1 in Hl as [_ Hl]. apply Forall_cons_1 in Hl as [_ Hl]. apply Forall_cons_1 in Hl as [_ Hl].
  destruct Hc as [<-|[<-|[<-|[<-|Hc]]]]; try apply Hv. by apply IH.
Qed.

(** Hash parameters at their Go types. *)
Definition params_ok (p : Argon2Params) : Prop :=
  0 <= Memory p < 2 ^ 32 /\ 0 <= Iterations p < 2 ^ 32 /\ 0 <= Parallelism p < 2 ^ 8.

Lemma literal_app a s : literal a (a ++ s) = Some s.
Proof.
  induction a as [|c a IH]; [by destruct s|]. change (String c a ++ s)%string with (String c (a ++ s)).
  cbn [literal]. by rewrite Ascii.eqb_refl.
Qed.

Lemma scan_uint_decimal bits z s :
  0 <= z < 2 ^ bits -> 2 ^ bits <= 10 ^ 20 -> no_digit_head s ->
  scan_uint bits (decimal z ++ s) = Some (z, s).
Proof.
  intros Hz Hb Hs. unfold scan_uint.
  destruct (scan_nat_decimal z s) as [-> ->]; [lia|done|].
  by destruct (Z.ltb_spec z (2 ^ bits)); [|lia].
Qed.

Section RoundTrip.
Context `{Argon2}.

Definition params_field (p : Argon2Params) : string :=
  ("m=" ++ decimal (Memory p) ++ ",t=" ++ decimal (Iterations p) ++ ",p=" ++ decimal (Parallelism p))%string.

(** Every character of the string satisfies [P]; used to keep '$' out. *)
Definition no_dollar (s : string) : Prop := forall c, In c (String.list_ascii_of_string s) -> c <> "$"%char.

Lemma no_dollar_app a b : no_dollar a -> no_dollar b -> no_dollar (a ++ b)%string.
Proof. unfold no_dollar. intros Ha Hb c. rewrite chars_app. intros [?|?]%in_app_iff; auto. Qed.

Lemma params_field_no_dollar p : params_ok p -> no_dollar (params_field p).
Proof.
  intros (Hm & Ht & Hp). unfold params_field.
  assert (forall s, forallb (fun c => negb (Ascii.eqb c "$"%char)) (String.list_ascii_of_string s) = true ->
    no_dollar s) as Hlit.
  { intros s Hs c Hc ->. rewrite forallb_forall in Hs. by specialize (Hs _ Hc). }
  repeat apply no_dollar_app; try (by apply Hlit); intros c; apply decimal_no_dollar; lia.
Qed.

Lemma split_phc p salt key : params_ok p -> Forall is_byte salt -> Forall is_byte key ->
  Strings.split "$" (phc p salt key) =
  [""; "argon2id"; "v=19"; params_field p; encode_b64 std_alphabet salt; encode_b64 std_alphabet key].
Proof.
  intros Hp Hs Hk.
  assert (phc p salt key = ("" ++ String "$" ("argon2id" ++ String "$" ("v=19" ++ String "$" (params_field p ++
    String "$" (encode_b64 std_alphabet salt ++ String "$" (encode_b64 std_alphabet key)))))))%string as ->.
  { unfold phc, params_field. change (decimal argon2_Version) with "19". rewrite <- !string_app_assoc.
    reflexivity. }
  rewrite split_sep by (by intros c []).
  rewrite split_sep by (intros c Hc ->; cbn in Hc; intuition discriminate).
  rewrite split_sep by (intros c Hc ->; cbn in Hc; intuition discriminate).
  rewrite split_sep by (by apply params_field_no_dollar).
  rewrite split_sep by (intros c; by apply base64_no_dollar).
  by rewrite split_no_sep by (intros c; by apply base64_no_dollar).
Qed.

Lemma decodeHash_phc p salt key : params_ok p -> Forall is_byte salt -> Forall is_byte key ->
  decodeHash (phc p salt key) = Some (mkArgon2 (Memory p) (Iterations p) (Parallelism p) 0 0, salt, key).
Proof.
  intros Hp Hs Hk. unfold decodeHash. rewrite split_phc by done.
  change (negb (String.eqb "argon2id" "argon2id")) with false. cbn iota.
  change (obind (literal "v=" "v=19") scan_int) with (Some (19, "")). cbn [obind].
  change (negb (19 =? argon2_Version)) with false. cbn iota.
  destruct Hp as (Hm & Ht & Hpar). unfold params_field. rewrite literal_app. cbn [obind].
  rewrite (scan_uint_decimal 32 (Memory p) (",t=" ++ _)) by (lia || reflexivity). cbn [obind]. rewrite literal_app. cbn [obind].
  rewrite (scan_uint_decimal 32 (Iterations p) (",p=" ++ _)) by (lia || reflexivity). cbn [obind]. rewrite literal_app. cbn [obind].
  rewrite <- (string_app_nil_r (decimal (Parallelism p))).
  rewrite (scan_uint_decimal 8 (Parallelism p) "") by (lia || exact I). cbn [obind].
  rewrite !(decode_encode_b64 _ std_ok) by done. done.
Qed.

(** A stored hash verifies the password it was made from, and another
    password only if the key derivation maps both to the same key: for every
    parameter setting, salt and key that the Go types allow. *)
Theorem password_roundtrip (p : Argon2Params) salt password other encoded
    (Hp : params_ok p) (Hsalt : Forall is_byte salt)
    (Hkey : forall pw, Forall is_byte (IDKey pw salt (Iterations p) (Memory p) (Parallelism p) (KeyLength p)))
    (Hlen : forall pw, Z.of_nat (List.length (IDKey pw salt (Iterations p) (Memory p) (Parallelism p) (KeyLength p)))
                       = KeyLength p)
    (Hhash : HashPassword (Some salt) password p = Some encoded) :
  VerifyPassword password encoded = Some true /\
  (VerifyPassword other encoded = Some true <->
   IDKey (bytes_of other) salt (Iterations p) (Memory p) (Parallelism p) (KeyLength p) =
   IDKey (bytes_of password) salt (Iterations p) (Memory p) (Parallelism p) (KeyLength p)) /\
  is_Some (VerifyPassword other encoded).
Proof.
  cbn [HashPassword obind] in Hhash. injection Hhash as <-.
  unfold VerifyPassword. rewrite decodeHash_phc by done. cbn [obind Memory Iterations Parallelism].
  rewrite Hlen, bool_decide_eq_true_2 by done. repeat split; [intros [= E%bool_decide_eq_true]; done| |eauto].
  intros E. by rewrite bool_decide_eq_true_2 by done.
Qed.
End RoundTrip.

(** A key derivation for the demonstrations: password and salt, cut or padded
    to the length of the key. *)
Definition demo_argon2 : Argon2 := fun pw salt _ _ _ n =>
  firstn (Z.to_nat n) (map (fun z => z mod 256) (pw ++ salt) ++ repeat 0 (Z.to_nat n)).

Lemma demo_argon2_key pw salt t m par n : 0 <= n ->
  Forall is_byte (demo_argon2 pw salt t m par n) /\
  Z.of_nat (List.length (demo_argon2 pw salt t m par n)) = n.
Proof.
  intros Hn. unfold demo_argon2. split.
  - apply Forall_take, Forall_app_2.
    + apply List.Forall_forall. intros x (y & <- & _)%in_map_iff. apply Z.mod_pos_bound. lia.
    + apply List.Forall_forall. intros x Hx%repeat_spec. unfold is_byte. lia.
  - rewrite List.length_firstn, length_app, repeat_length. lia.
Qed.

Example password_roundtrip_witness :
  exists encoded,
    HashPassword (H := demo_argon2) (Some [1; 2; 3]) "correct horse" DefaultArgon2Params = Some encoded /\
    VerifyPassword (H := demo_argon2) "correct horse" encoded = Some true /\
    VerifyPassword (H := demo_argon2) "battery staple" encoded <> Some true.
Proof.
  eexists. split; [reflexivity|].
  destruct (password_roundtrip (H := demo_argon2) DefaultArgon2Params [1; 2; 3] "correct horse" "battery staple"
    _ ltac:(by vm_compute) ltac:(repeat constructor; done)
    (fun pw => proj1 (demo_argon2_key pw _ _ _ _ 32 ltac:(done)))
    (fun pw => proj2 (demo_argon2_key pw _ _ _ _ 32 ltac:(done))) eq_refl) as (H1 & H2 & _).
  split; [exact H1|]. intros E%H2. vm_compute in E. discriminate.
Defined.
