(* ===== verification/Token.v ===== *)
(** * Access tokens and key sets (services/pkg/token/jwt.go)

    The claims of an access token, issuing and verifying it through the JWT
    library, and the JWKS document by which the public keys travel.  The
    library and the elliptic-curve arithmetic are parameters: [Jwt] states
    what the code relies on. *)
From S2P Require Export Base64 Http.

(** ** Claims *)

Record Claims := mkClaims {
  Issuer : string;
  Audience : list string;
  Subject : string;
  IssuedAt : Z;          (* seconds *)
  NotBefore : Z;
  ExpiresAt : Z;
  jti : string;
  cl_UserID : string;
  cl_SessionID : string;
  cl_Roles : list string;
  cl_Permissions : list string;
  cl_ResidencyCountry : string;
  cl_AccountType : string
}.

(** ecdsa.PublicKey; the private key is opaque. *)
Record PublicKey := mkPublicKey { Curve : string; key_X : Z; key_Y : Z }.

#[export] Instance PublicKey_eq_dec : EqDecision PublicKey.
Proof. solve_decision. Defined.

(** What the parser is told to accept. *)
Record parser_options := mkOptions {
  ValidMethods : list string;
  want_issuer : string;
  want_audience : string
}.

(** Whether the registered claims are acceptable at [now]. *)
Definition claims_valid (o : parser_options) (now : Z) (c : Claims) : Prop :=
  Issuer c = want_issuer o /\ In (want_audience o) (Audience c) /\
  NotBefore c <= now /\ now < ExpiresAt c.

(** The jwt library, for ES256 keys. [Signed key kid raw c] says that [raw] is a
    token with key id [kid] and claims [c] signed by the owner of [key]. The
    parser asks [keyfunc] for the key of the algorithm and key id in the header
    and accepts signed tokens with valid claims, and only those. *)
Class Jwt := {
  PrivateKey : Type;
  public : PrivateKey -> PublicKey;
  SignedString : PrivateKey -> string -> Claims -> option string;
  ParseWithClaims : (string -> string -> option PublicKey) -> parser_options -> Z -> string -> option Claims;
  Signed : PublicKey -> string -> string -> Claims -> Prop;
  SignedString_Signed priv kid c raw :
    SignedString priv kid c = Some raw -> Signed (public priv) kid raw c;
  ParseWithClaims_sound keyfunc o now raw c :
    ParseWithClaims keyfunc o now raw = Some c ->
    claims_valid o now c /\
    exists alg kid key, In alg (ValidMethods o) /\ keyfunc alg kid = Some key /\ Signed key kid raw c;
  ParseWithClaims_complete keyfunc o now raw c kid key :
    Signed key kid raw c -> In "ES256" (ValidMethods o) -> keyfunc "ES256" kid = Some key ->
    claims_valid o now c -> ParseWithClaims keyfunc o now raw = Some c
}.

Definition seconds (t : Z) : Z := t / 1000000000.

(** newJTI: 16 random bytes, or the clock's. *)
Definition newJTI (random : option (list Z)) (t : Z) : string :=
  encode_b64 url_alphabet
    (match random with
     | Some b => b
     | None => map (fun i => if (i <? 8)%nat then Z.land (Z.shiftr t (8 * Z.of_nat i)) 255 else 0) (seq 0 16)
     end).

(** Claims.roles is null or a list in the token; both read as a list. *)
Section Issuer.
Context `{Jwt}.

Record IssuerConfig := mkIssuer {
  priv : PrivateKey;
  is_kid : string;
  is_issuer : string;
  is_audience : string;
  accessTTL : Z            (* nanoseconds *)
}.

(** The claims Issue signs at time [t]. *)
Definition issued_claims (i : IssuerConfig) (t : Z) (id : string) (c : Claims) : Claims :=
  mkClaims (is_issuer i) [is_audience i] (cl_UserID c) (seconds t) (seconds t) (seconds (t + accessTTL i)) id
    (cl_UserID c) (cl_SessionID c) (cl_Roles c) (cl_Permissions c) (cl_ResidencyCountry c) (cl_AccountType c).

(** [None] is an error of the library. *)
Definition Issue {D E} (i : IssuerConfig) (c : Claims) : prog D E (option string) :=
  t <- time_now ;;
  b <- read_random 16 ;;
  t' <- time_now ;;
  ret (SignedString (priv i) (is_kid i) (issued_claims i t (newJTI b t') c)).

Record VerifierConfig := mkVerifier {
  keys : list (string * PublicKey);      (* a Go map *)
  vf_issuer : string;
  vf_audience : string
}.

Definition key_of (kid : string) (l : list (string * PublicKey)) : option PublicKey :=
  option_map snd (List.find (fun kv => String.eqb (fst kv) kid) l).

(** The key function of Verify: an ECDSA method and a known key id. *)
Definition keyfunc (v : VerifierConfig) (alg kid : string) : option PublicKey :=
  if existsb (String.eqb alg) ["ES256"; "ES384"; "ES512"] then key_of kid (keys v) else None.

Definition Verify (v : VerifierConfig) (now : Z) (raw : string) : option Claims :=
  ParseWithClaims (keyfunc v) (mkOptions ["ES256"] (vf_issuer v) (vf_audience v)) (seconds now) raw.

(** What Issue signs, a verifier that knows the key accepts until it expires. *)
Lemma Verify_issued i v t id c raw now :
  SignedString (priv i) (is_kid i) (issued_claims i t id c) = Some raw ->
  key_of (is_kid i) (keys v) = Some (public (priv i)) ->
  vf_issuer v = is_issuer i -> vf_audience v = is_audience i ->
  seconds t <= seconds now < seconds (t + accessTTL i) ->
  Verify v now raw = Some (issued_claims i t id c).
Proof.
  intros Hs Hk Hi Ha Ht. unfold Verify. apply ParseWithClaims_complete with (is_kid i) (public (priv i)).
  - by apply SignedString_Signed.
  - by left.
  - done.
  - repeat split; cbn; [done|by left|lia..].
Qed.

(** An accepted token was signed by a known key. *)
Lemma Verify_signed v now raw c :
  Verify v now raw = Some c ->
  exists kid key, key_of kid (keys v) = Some key /\ Signed key kid raw c /\
    seconds now < ExpiresAt c.
Proof.
  intros (Hv & alg & kid & key & _ & Hk & Hs)%ParseWithClaims_sound. unfold keyfunc in Hk.
  destruct (existsb _ _); [|done]. exists kid, key. repeat split; try done. apply Hv.
Qed.
End Issuer.

(** ** The signing key at start-up *)

Section SigningKey.
Context `{Jwt}.

(** The file system, PEM, the parsers of SEC 1 and PKCS #8 keys (elliptic-curve
    keys only) and the key generator. *)
Context (ReadFile pem_Decode : string -> option string) (ParseECPrivateKey ParsePKCS8PrivateKey : string -> option PrivateKey).
Context (GenerateKey : option PrivateKey).

(** The key and its id; [None] is an error, and the server does not start. *)
Definition loadSigningKey (pemPath env_ configured_kid : string) : option (PrivateKey * string) :=
  if String.eqb pemPath "" then
    if String.eqb env_ "production" then None
    else option_map (fun k => (k, "dev-ephemeral")) GenerateKey
  else
    match ReadFile pemPath with
    | None => None
    | Some data =>
        match pem_Decode data with
        | None => None
        | Some block =>
            match ParseECPrivateKey block with
            | Some k => Some (k, configured_kid)
            | None => option_map (fun k => (k, configured_kid)) (ParsePKCS8PrivateKey block)
            end
        end
    end.

(** In production the key always comes from the configured file. *)
Lemma production_key_configured pemPath kid k :
  loadSigningKey pemPath "production" kid = Some k -> pemPath <> "" /\ ReadFile pemPath <> None.
Proof.
  unfold loadSigningKey. destruct (String.eqb_spec pemPath ""); [done|]. by destruct (ReadFile pemPath).
Qed.
End SigningKey.

(** ** JWKS *)

(** big.Int.Bytes: the shortest big-endian form. *)
Definition big_bytes (n : Z) : list Z :=
  be_bytes (if n =? 0 then 0 else Z.to_nat (Z.log2 n / 8 + 1)) n.

(** big.Int.SetBytes *)
Definition set_bytes (l : list Z) : Z := word_of l.

(** b64: left-padded to 32 bytes. *)
Definition b64 (n : Z) : string :=
  let b := big_bytes n in
  encode_b64 url_alphabet (repeat 0 (32 - List.length b) ++ b).

Definition jwk (kid : string) (pub : PublicKey) : json :=
  JObj [("kty", JStr "EC"); ("crv", JStr "P-256"); ("kid", JStr kid); ("use", JStr "sig"); ("alg", JStr "ES256");
        ("x", JStr (b64 (key_X pub))); ("y", JStr (b64 (key_Y pub)))].

(** Only P-256 is supported. *)
Fixpoint MarshalJWKS (keys : list (string * PublicKey)) : option (list json) :=
  match keys with
  | [] => Some []
  | (kid, pub) :: keys' =>
      if negb (String.eqb (Curve pub) "P-256") then None
      else option_map (cons (jwk kid pub)) (MarshalJWKS keys')
  end.

(** buildJWKS of the auth server's main. *)
Definition buildJWKS (kid : string) (pub : PublicKey) : option json :=
  option_map (fun l => JObj [("keys", JList l)]) (MarshalJWKS [(kid, pub)]).

(** A struct jwk decoded: the fields the parser looks at. *)
Definition decode_jwk (j : json) : option (string * string * string * string * string) :=
  match members (Some j) with
  | Some o =>
      match str_field "kty" o, str_field "crv" o, str_field "kid" o, str_field "x" o, str_field "y" o,
            str_field "use" o, str_field "alg" o with
      | Some kty, Some crv, Some kid, Some x, Some y, Some _, Some _ => Some (kty, crv, kid, x, y)
      | _, _, _, _, _, _, _ => None
      end
  | None => None
  end.

(** Assignment to the map of keys. *)
Fixpoint set_key (kid : string) (pub : PublicKey) (l : list (string * PublicKey)) : list (string * PublicKey) :=
  match l with
  | [] => [(kid, pub)]
  | (k, p) :: l' => if String.eqb k kid then (kid, pub) :: l' else (k, p) :: set_key kid pub l'
  end.

Fixpoint parse_keys (l : list (string * string * string * string * string)) (out : list (string * PublicKey))
  : option (list (string * PublicKey)) :=
  match l with
  | [] => Some out
  | (kty, crv, kid, x, y) :: l' =>
      if negb (String.eqb kty "EC") || negb (String.eqb crv "P-256") then parse_keys l' out else
      match decode_b64 url_alphabet x, decode_b64 url_alphabet y with
      | Some xb, Some yb => parse_keys l' (set_key kid (mkPublicKey "P-256" (set_bytes xb) (set_bytes yb)) out)
      | _, _ => None
      end
  end.

(** The document is an object whose keys are a list of objects; of repeated
    members the last counts. *)
Definition decode_keys (j : json) : option (list (string * string * string * string * string)) :=
  match members (Some j) with
  | Some o =>
      match List.last (values_of "keys" o) JNull with
      | JNull => Some []
      | JList l => mapM decode_jwk l
      | _ => None
      end
  | None => None
  end.

Definition ParseJWKS (doc : json) : option (list (string * PublicKey)) :=
  match decode_keys doc with
  | Some l => match parse_keys l [] with
              | Some [] => None
              | r => r
              end
  | None => None
  end.

(** ** The key set is read back *)

Lemma be_byte_range n z : Forall is_byte (be_bytes n z).
Proof.
  unfold be_bytes. apply List.Forall_forall. intros x (i & <- & _)%in_map_iff. unfold is_byte.
  change 255 with (Z.ones 8). rewrite Z.land_ones by lia. apply Z.mod_pos_bound. lia.
Qed.

Lemma be_bytes_length n z : List.length (be_bytes n z) = n.
Proof. unfold be_bytes. by rewrite List.length_map, List.length_seq. Qed.

Lemma be_bytes_succ n z : be_bytes (S n) z = Z.land (Z.shiftr z (8 * Z.of_nat n)) 255 :: be_bytes n z.
Proof.
  unfold be_bytes. cbn [seq map]. f_equal; [by rewrite Nat.sub_0_r, Nat.sub_succ, Nat.sub_0_r|].
  rewrite <- seq_shift, map_map. apply map_ext. intros i. do 3 f_equal. lia.
Qed.

Lemma word_of_acc l a : fold_left (fun acc x => 256 * acc + x) l a = a * 256 ^ Z.of_nat (List.length l) + word_of l.
Proof.
  unfold word_of. revert a. induction l as [|x l IH]; intros a; cbn [fold_left List.length]; [lia|].
  rewrite IH, (IH (256 * 0 + x)), Nat2Z.inj_succ, Z.pow_succ_r by lia. lia.
Qed.

Lemma word_of_be_bytes n z : 0 <= z -> word_of (be_bytes n z) = z mod 256 ^ Z.of_nat n.
Proof.
  intros Hz. induction n as [|n IH]; [by rewrite Z.mod_1_r|].
  rewrite be_bytes_succ. unfold word_of. cbn [fold_left]. rewrite word_of_acc, be_bytes_length, IH.
  change 255 with (Z.ones 8). rewrite Z.land_ones, Z.shiftr_div_pow2 by lia.
  rewrite Nat2Z.inj_succ, Z.pow_succ_r by lia. replace (2 ^ (8 * Z.of_nat n)) with (256 ^ Z.of_nat n)
    by (rewrite Z.pow_mul_r by lia; done).
  set (p := 256 ^ Z.of_nat n). assert (0 < p) by (apply Z.pow_pos_nonneg; lia).
  replace (256 * p) with (p * 256) by lia. rewrite (Z.rem_mul_r z p 256) by lia. change (2 ^ 8) with 256. lia.
Qed.

Lemma word_of_zeros k l : word_of (repeat 0 k ++ l) = word_of l.
Proof. induction k as [|k IH]; [done|]. exact IH. Qed.

Lemma big_bytes_length n : 0 <= n < 2 ^ 256 -> (List.length (big_bytes n) <= 32)%nat.
Proof.
  intros Hn. unfold big_bytes. rewrite be_bytes_length. destruct (Z.eqb_spec n 0); [lia|].
  assert (Z.log2 n < 256) by (apply Z.log2_lt_pow2; lia). pose proof (Z.log2_nonneg n).
  assert (Z.log2 n / 8 < 32) by (apply Z.div_lt_upper_bound; lia). lia.
Qed.

Lemma set_bytes_big_bytes n : 0 <= n -> set_bytes (big_bytes n) = n.
Proof.
  intros Hn. unfold set_bytes, big_bytes. rewrite word_of_be_bytes by done.
  destruct (Z.eqb_spec n 0) as [->|]; [done|]. apply Z.mod_small. split; [done|].
  pose proof (Z.log2_nonneg n). rewrite Z2Nat.id by (pose proof (Z.div_pos (Z.log2 n) 8); lia).
  apply Z.lt_le_trans with (2 ^ Z.succ (Z.log2 n)); [by apply Z.log2_spec; lia|].
  replace 256 with (2 ^ 8) by done. rewrite <- Z.pow_mul_r by (pose proof (Z.div_pos (Z.log2 n) 8); lia).
  apply Z.pow_le_mono_r; [lia|]. pose proof (Z.mod_pos_bound (Z.log2 n) 8). pose proof (Z.div_mod (Z.log2 n) 8). lia.
Qed.

Lemma decode_b64_coordinate n : 0 <= n ->
  exists l, decode_b64 url_alphabet (b64 n) = Some l /\ set_bytes l = n.
Proof.
  intros Hn. eexists. split.
  - apply decode_encode_b64; [apply url_ok|]. apply Forall_app_2; [|apply be_byte_range].
    apply List.Forall_forall. intros x ->%repeat_spec. unfold is_byte. lia.
  - unfold set_bytes. rewrite word_of_zeros. by apply set_bytes_big_bytes.
Qed.

(** A P-256 key, published and parsed back. *)
Definition p256 (pub : PublicKey) : Prop := Curve pub = "P-256" /\ 0 <= key_X pub /\ 0 <= key_Y pub.

Lemma decode_jwk_jwk kid pub : decode_jwk (jwk kid pub) = Some ("EC", "P-256", kid, b64 (key_X pub), b64 (key_Y pub)).
Proof. reflexivity. Qed.

Lemma MarshalJWKS_p256 ks : Forall (fun kv => p256 (snd kv)) ks ->
  MarshalJWKS ks = Some (map (fun kv => jwk (fst kv) (snd kv)) ks).
Proof.
  induction ks as [|[kid pub] ks IH]; intros Hk; [done|]. apply Forall_cons_1 in Hk as [[Hc _] Hk].
  cbn [MarshalJWKS]. cbn [snd] in Hc. by rewrite Hc, IH.
Qed.

Lemma set_key_new kid pub l : ~ In kid (map fst l) -> set_key kid pub l = l ++ [(kid, pub)].
Proof.
  induction l as [|[k p] l IH]; cbn [map fst In set_key]; intros Hn; [done|].
  destruct (String.eqb_spec k kid) as [->|]; [tauto|]. cbn. f_equal. apply IH. tauto.
Qed.

Lemma parse_marshalled ks out :
  Forall (fun kv => p256 (snd kv)) ks -> List.NoDup (map fst (out ++ ks)) ->
  parse_keys (map (fun kv => ("EC", "P-256", fst kv, b64 (key_X (snd kv)), b64 (key_Y (snd kv)))) ks) out
  = Some (out ++ ks).
Proof.
  revert out. induction ks as [|[kid [crv x y]] ks IH]; intros out Hk Hd; [by rewrite app_nil_r|].
  apply Forall_cons_1 in Hk as [(Hc & Hx & Hy) Hk]. cbn [snd Curve key_X key_Y] in *. subst crv.
  cbn [map parse_keys fst snd key_X key_Y]. change (_ || _) with false. cbn iota.
  destruct (decode_b64_coordinate x Hx) as (lx & -> & Ex), (decode_b64_coordinate y Hy) as (ly & -> & Ey).
  rewrite Ex, Ey, set_key_new.
  - rewrite IH, <- app_assoc; try done. by rewrite <- app_assoc.
  - rewrite map_app in Hd. cbn [map fst] in Hd. apply NoDup_remove_2 in Hd. rewrite in_app_iff in Hd. tauto.
Qed.

(** The key set that auth publishes is parsed back, by the gateway and the
    other services, to the same keys under the same ids: for every non-empty
    set of P-256 keys with distinct ids, in whatever order. *)
Theorem jwks_roundtrip (ks : list (string * PublicKey)) l
    (Hne : ks <> []) (Hk : Forall (fun kv => p256 (snd kv)) ks) (Hd : List.NoDup (map fst ks))
    (Hm : MarshalJWKS ks = Some l) :
  ParseJWKS (JObj [("keys", JList l)]) = Some ks.
Proof.
  rewrite MarshalJWKS_p256 in Hm by done. injection Hm as <-.
  unfold ParseJWKS, decode_keys. cbn [members].
  change (values_of "keys" [("keys", JList (map (fun kv => jwk (fst kv) (snd kv)) ks))])
    with [JList (map (fun kv => jwk (fst kv) (snd kv)) ks)]. cbn [List.last].
  assert (mapM decode_jwk (map (fun kv => jwk (fst kv) (snd kv)) ks) =
    Some (map (fun kv => ("EC", "P-256", fst kv, b64 (key_X (snd kv)), b64 (key_Y (snd kv)))) ks)) as ->.
  { clear. induction ks as [|[kid pub] ks IH]; [done|].
    cbn [map fst snd mapM]. by rewrite decode_jwk_jwk, IH. }
  rewrite (parse_marshalled ks []) by done. by destruct ks.
Qed.

Example jwks_roundtrip_witness :
  let ks := [("auth-1", mkPublicKey "P-256" 5 (2 ^ 255)); ("auth-0", mkPublicKey "P-256" 0 77)] in
  exists l, MarshalJWKS ks = Some l /\ ParseJWKS (JObj [("keys", JList l)]) = Some ks.
Proof.
  eexists. split; [reflexivity|]. apply jwks_roundtrip; [done| | |reflexivity].
  - repeat constructor; cbn; lia.
  - cbn. repeat constructor; cbn; intuition discriminate.
Defined.
