(* ===== verification/AuthStore.v ===== *)
(** * Auth data layer (services/auth/internal/store)

    Accounts, sessions, refresh tokens and roles of migration 000002, as the
    service's statements see them.  Emails are CITEXT: compared without regard
    to case.  Statuses belong to the admin service and devices to the user
    service; both are only read here. *)
From S2P Require Export Outbox Token Strings.

(** ** Rows *)

(** The store's User, with the columns it does not return. *)
Record User := mkUser {
  u_ID : string;
  u_Email : string;
  u_PasswordHash : string;
  u_Status : string;
  u_PrimaryType : string;
  u_EmailVerified : bool;
  u_MFAEnabled : bool;
  u_Residency : string;
  u_FailedLogins : Z;
  u_LockedUntil : option Z;
  u_locale : string;
  u_last_login_at : option Z;
  u_deleted_at : option Z
}.

Record SessionRow := mkSession {
  s_ID : string;
  s_UserID : string;
  s_device_id : option string;
  s_IP : string;
  s_UserAgent : string;
  s_FamilyID : string;
  s_CreatedAt : Z;
  s_LastActiveAt : Z;
  s_expires_at : Z;
  s_revoked_at : option Z;
  s_revoked_reason : option string
}.

Record TokenRow := mkToken {
  t_ID : string;
  t_SessionID : string;
  t_UserID : string;
  t_hash : list Z;
  t_replaced_by : option string;
  t_ExpiresAt : Z;
  t_UsedAt : option Z;
  t_RevokedAt : option Z
}.

Record UserRole := mkUserRole { ur_user : string; ur_role : string; ur_scope : string }.

Record auth_db := mkAuthDb {
  users : list User;
  sessions : list SessionRow;
  refresh_tokens : list TokenRow;
  user_roles : list UserRole;
  roles : list (string * string);                (* id, name *)
  permissions : list (string * string);          (* id, code *)
  role_permissions : list (string * string);     (* role id, permission id *)
  devices : list (string * string);              (* id, display name *)
  auth_outbox : list OutboxRow
}.

Definition users_t : table auth_db User :=
  Table users (fun l d => mkAuthDb l (sessions d) (refresh_tokens d) (user_roles d) (roles d) (permissions d)
                            (role_permissions d) (devices d) (auth_outbox d)).
Definition sessions_t : table auth_db SessionRow :=
  Table sessions (fun l d => mkAuthDb (users d) l (refresh_tokens d) (user_roles d) (roles d) (permissions d)
                               (role_permissions d) (devices d) (auth_outbox d)).
Definition refresh_tokens_t : table auth_db TokenRow :=
  Table refresh_tokens (fun l d => mkAuthDb (users d) (sessions d) l (user_roles d) (roles d) (permissions d)
                                     (role_permissions d) (devices d) (auth_outbox d)).
Definition user_roles_t : table auth_db UserRole :=
  Table user_roles (fun l d => mkAuthDb (users d) (sessions d) (refresh_tokens d) l (roles d) (permissions d)
                                 (role_permissions d) (devices d) (auth_outbox d)).
#[export] Instance auth_HasOutbox : HasOutbox auth_db :=
  Table auth_outbox (fun l d => mkAuthDb (users d) (sessions d) (refresh_tokens d) (user_roles d) (roles d)
                                  (permissions d) (role_permissions d) (devices d) l).

#[export] Instance auth_Deferred : Deferred auth_db := fun _ _ => true.

(** The seed of the migration. *)
Definition seeded_roles (ids : string * string * string * string * string) : list (string * string) :=
  let '(a, b, c, d, e) := ids in
  [(a, "client"); (b, "freelancer"); (c, "support"); (d, "admin"); (e, "finance_admin")].

(** ErrNotFound of the store, the sentinels of the service, and the errors of
    the random source and of the signer. *)
Inductive auth_err :=
| ErrNotFound
| ErrInvalidCredentials
| ErrAccountLocked
| ErrEmailTaken
| ErrTokenReuse
| ErrTokenExpired
| ErrRandom
| ErrSigning.

Abbreviation uprog := (prog auth_db auth_err).

(** The identifier of a DEFAULT gen_random_uuid() column that is not the key. *)
Definition server_uuid : uprog string := fun ev w =>
  (Ok (gen_uuid ev (tick w)), World (committed w) (txs w) (S (tick w))).

(** ** Users *)

Definition account_types : list string := ["client"; "freelancer"; "admin"; "support"].

Definition active (u : User) : bool := match u_deleted_at u with None => true | Some _ => false end.

(** CITEXT equality. *)
Definition same_email (a b : string) : bool := String.eqb (lower a) (lower b).

(** The primary key and uq_users_email_active. *)
Definition user_check (l : list User) (r : User) : option dberr :=
  first_violation
    [ unique_index "users_pkey" (fun x r => String.eqb (u_ID x) (u_ID r)) l r;
      unique_index "uq_users_email_active" (fun x r =>
        active x && active r && same_email (u_Email x) (u_Email r)) l r ].

Definition new_user (id email hash accountType residency locale : string) : User :=
  mkUser id email hash "pending" accountType false false residency 0 None locale None None.

Definition create_user (email hash accountType residency locale : string) : sql auth_db User := fun s d =>
  if negb (enum account_types accountType) then Reject InvalidText else
  match bpchar 2 residency with
  | None => Reject InvalidText
  | Some res => insert_row users_t user_check (fun s => new_user (fresh s) email hash accountType res locale) s d
  end.

Definition CreateUser (email hash accountType residency locale : string) : uprog string :=
  r <- exec (create_user email hash accountType residency locale) ;;
  ret (u_ID r).

Definition found {A} (row : option A) : uprog A :=
  match row with
  | None => fail ErrNotFound
  | Some a => ret a
  end.

Definition GetUserByEmail (email : string) : uprog User :=
  o <- exec_pool (select_one users_t (fun u => same_email (u_Email u) email && active u)) ;;
  found o.

Definition GetUserByID (id : string) : uprog User :=
  o <- exec_pool (select_one users_t (fun u => has_key u_ID id u && active u)) ;;
  found o.

Definition logged_in (t : Z) (u : User) : User :=
  mkUser (u_ID u) (u_Email u) (u_PasswordHash u) (u_Status u) (u_PrimaryType u) (u_EmailVerified u)
    (u_MFAEnabled u) (u_Residency u) 0 None (u_locale u) (Some t) (u_deleted_at u).

Definition RecordLoginSuccess (userID : string) : uprog unit :=
  exec_pool (update_rows users_t (has_key u_ID userID) (fun s => logged_in (now s)) (fun _ => None)) ;;;
  ret tt.

Definition failed_login (threshold lockFor t : Z) (u : User) : User :=
  mkUser (u_ID u) (u_Email u) (u_PasswordHash u) (u_Status u) (u_PrimaryType u) (u_EmailVerified u)
    (u_MFAEnabled u) (u_Residency u) (u_FailedLogins u + 1)
    (if threshold <=? u_FailedLogins u + 1 then Some (t + lockFor) else u_LockedUntil u)
    (u_locale u) (u_last_login_at u) (u_deleted_at u).

Definition RecordLoginFailure (userID : string) (threshold lockFor : Z) : uprog unit :=
  exec_pool (update_rows users_t (has_key u_ID userID) (fun s => failed_login threshold lockFor (now s))
    (fun u => if in_int32 (u_FailedLogins u) then None else Some NumericOutOfRange)) ;;;
  ret tt.

(** ** Roles *)

Definition roles_of (userID : string) (d : auth_db) : list string :=
  flat_map (fun ur => map snd (List.filter (fun r => String.eqb (fst r) (ur_role ur)) (roles d)))
    (select_rows (has_key ur_user userID) (user_roles d)).

Definition permissions_of (userID : string) (d : auth_db) : list string :=
  remove_dups
    (flat_map (fun ur => flat_map (fun rp => map snd (List.filter (fun p => String.eqb (fst p) (snd rp)) (permissions d)))
        (List.filter (fun rp => String.eqb (fst rp) (ur_role ur)) (role_permissions d)))
      (select_rows (has_key ur_user userID) (user_roles d))).

(** Both queries run on the pool, outside any transaction the caller has open. *)
Definition RolesAndPermissions (userID : string) : uprog (list string * list string) :=
  rs <- exec_pool (fun _ d => Done (roles_of userID d) d) ;;
  ps <- exec_pool (fun _ d => Done (permissions_of userID d) d) ;;
  ret (rs, ps).

(** INSERT ... SELECT ... ON CONFLICT DO NOTHING *)
Definition assign_role (userID roleName : string) : sql auth_db unit := fun s d =>
  let new := map (fun r => mkUserRole userID (fst r) "") (List.filter (fun r => String.eqb (snd r) roleName) (roles d)) in
  let fresh_rows := List.filter (fun x => negb (existsb (fun y =>
    String.eqb (ur_user y) userID && String.eqb (ur_role y) (ur_role x) && String.eqb (ur_scope y) "") (user_roles d))) new in
  match fresh_rows, references "user_roles_user_id_fkey" (has_key u_ID userID) (users d) with
  | _ :: _, Some e => Reject e
  | _, _ => Done tt (put user_roles_t (user_roles d ++ fresh_rows) d)
  end.

Definition AssignRole (userID roleName : string) : uprog unit := exec (assign_role userID roleName).

(** ** Sessions and refresh tokens *)

Definition session_check (l : list SessionRow) (r : SessionRow) : option dberr :=
  unique_index "sessions_pkey" (fun x r => String.eqb (s_ID x) (s_ID r)) l r.

Definition new_session (id userID ip ua family : string) (t ttl : Z) : SessionRow :=
  mkSession id userID None ip ua family t t (t + ttl) None None.

Section WithInet.
Context `{PgInet}.

Definition create_session (userID ip ua family : string) (ttl : Z) : sql auth_db SessionRow := fun s d =>
  if negb (inet_ok ip) then Reject InvalidText else
  insert_row sessions_t (fun l r => first_violation
      [ session_check l r; references "sessions_user_id_fkey" (has_key u_ID userID) (users d) ])
    (fun s => new_session (fresh s) userID ip ua family (now s) ttl) s d.

Definition CreateSession (userID ip ua : string) (ttl : Z) : uprog (string * string) :=
  family <- server_uuid ;;
  r <- exec (create_session userID ip ua family ttl) ;;
  ret (s_ID r, s_FamilyID r).
End WithInet.

Definition same_hash (h : list Z) (t : TokenRow) : bool := bool_decide (t_hash t = h).

(** The primary key and uq_refresh_token_hash. *)
Definition token_check (l : list TokenRow) (r : TokenRow) : option dberr :=
  first_violation
    [ unique_index "refresh_tokens_pkey" (fun x r => String.eqb (t_ID x) (t_ID r)) l r;
      unique_index "uq_refresh_token_hash" (fun x r => same_hash (t_hash r) x) l r ].

Definition new_token (id sessionID userID : string) (hash : list Z) (expires : Z) : TokenRow :=
  mkToken id sessionID userID hash None expires None None.

Definition insert_token (sessionID userID : string) (hash : list Z) (ttl : Z) : sql auth_db TokenRow := fun s d =>
  insert_row refresh_tokens_t (fun l r => first_violation
      [ token_check l r;
        references "refresh_tokens_session_id_fkey" (has_key s_ID sessionID) (sessions d);
        references "refresh_tokens_user_id_fkey" (has_key u_ID userID) (users d) ])
    (fun s => new_token (fresh s) sessionID userID hash (now s + ttl)) s d.

Definition InsertRefreshToken (sessionID userID : string) (hash : list Z) (ttl : Z) : uprog string :=
  r <- exec (insert_token sessionID userID hash ttl) ;;
  ret (t_ID r).

Record RefreshToken := mkRefreshToken {
  rt_ID : string;
  rt_SessionID : string;
  rt_UserID : string;
  rt_FamilyID : string;
  rt_UsedAt : option Z;
  rt_RevokedAt : option Z;
  rt_ExpiresAt : Z
}.

Definition refresh_token (t : TokenRow) (s : SessionRow) : RefreshToken :=
  mkRefreshToken (t_ID t) (t_SessionID t) (t_UserID t) (s_FamilyID s) (t_UsedAt t) (t_RevokedAt t) (t_ExpiresAt t).

Definition find_token (hash : list Z) (d : auth_db) : option TokenRow :=
  List.find (same_hash hash) (refresh_tokens d).

Definition find_session (id : string) (d : auth_db) : option SessionRow :=
  List.find (has_key s_ID id) (sessions d).

(** The join of the token with its session. *)
Definition lookup_token (hash : list Z) (d : auth_db) : option RefreshToken :=
  match find_token hash d with
  | Some t => option_map (refresh_token t) (find_session (t_SessionID t) d)
  | None => None
  end.

Definition LookupRefreshToken (hash : list Z) : uprog RefreshToken :=
  o <- exec (fun _ d => Done (lookup_token hash d) d) ;;
  found o.

Definition token_used (t : Z) (by_ : string) (r : TokenRow) : TokenRow :=
  mkToken (t_ID r) (t_SessionID r) (t_UserID r) (t_hash r) (Some by_) (t_ExpiresAt r) (Some t) (t_RevokedAt r).

(** replaced_by references a token. *)
Definition mark_used (id replacedBy : string) : sql auth_db (list TokenRow) := fun s d =>
  update_rows refresh_tokens_t (has_key t_ID id) (fun s => token_used (now s) replacedBy)
    (fun _ => references "refresh_tokens_replaced_by_fkey" (has_key t_ID replacedBy) (refresh_tokens d)) s d.

Definition MarkTokenUsed (id replacedBy : string) : uprog unit :=
  exec (mark_used id replacedBy) ;;;
  ret tt.

Definition unrevoked_session (s : SessionRow) : bool := match s_revoked_at s with None => true | Some _ => false end.
Definition unrevoked_token (t : TokenRow) : bool := match t_RevokedAt t with None => true | Some _ => false end.

Definition session_revoked (reason : string) (t : Z) (s : SessionRow) : SessionRow :=
  mkSession (s_ID s) (s_UserID s) (s_device_id s) (s_IP s) (s_UserAgent s) (s_FamilyID s) (s_CreatedAt s)
    (s_LastActiveAt s) (s_expires_at s) (Some t) (Some reason).

Definition token_revoked (t : Z) (r : TokenRow) : TokenRow :=
  mkToken (t_ID r) (t_SessionID r) (t_UserID r) (t_hash r) (t_replaced_by r) (t_ExpiresAt r) (t_UsedAt r) (Some t).

(** session_id IN (SELECT id FROM sessions WHERE family_id = $1) *)
Definition in_family (family : string) (l : list SessionRow) (t : TokenRow) : bool :=
  existsb (fun s => has_key s_FamilyID family s && has_key s_ID (t_SessionID t) s) l.

Definition RevokeFamily (familyID reason : string) : uprog unit :=
  exec (update_rows sessions_t (fun s => has_key s_FamilyID familyID s && unrevoked_session s)
          (fun s => session_revoked reason (now s)) (fun _ => None)) ;;;
  exec (fun s d => update_rows refresh_tokens_t (fun t => in_family familyID (sessions d) t && unrevoked_token t)
          (fun s => token_revoked (now s)) (fun _ => None) s d) ;;;
  ret tt.

Definition RevokeSessionByID (sessionID reason : string) : uprog unit :=
  exec (update_rows sessions_t (fun s => has_key s_ID sessionID s && unrevoked_session s)
          (fun s => session_revoked reason (now s)) (fun _ => None)) ;;;
  exec (update_rows refresh_tokens_t (fun t => has_key t_SessionID sessionID t && unrevoked_token t)
          (fun s => token_revoked (now s)) (fun _ => None)) ;;;
  ret tt.

(** A session that is not there counts as revoked. *)
Definition SessionRevokedForUpdate (sessionID : string) : uprog bool :=
  o <- exec (select_one sessions_t (has_key s_ID sessionID)) ;;
  ret (match o with None => true | Some s => negb (unrevoked_session s) end).

Definition RevokeSession (userID sessionID reason : string) : uprog unit :=
  l <- exec_pool (update_rows sessions_t
         (fun s => has_key s_ID sessionID s && has_key s_UserID userID s && unrevoked_session s)
         (fun s => session_revoked reason (now s)) (fun _ => None)) ;;
  match l with
  | [] => fail ErrNotFound
  | _ => ret tt
  end.

(** The store's Session. *)
Record Session := mkSessionView {
  sv_ID : string;
  sv_DeviceName : string;
  sv_IP : string;
  sv_UserAgent : string;
  sv_CreatedAt : Z;
  sv_LastActiveAt : Z
}.

Section Listing.
Context `{PgInet}.

Definition session_view (d : auth_db) (s : SessionRow) : Session :=
  mkSessionView (s_ID s)
    (match s_device_id s with
     | Some id => default "" (option_map snd (List.find (fun x => String.eqb (fst x) id) (devices d)))
     | None => ""
     end) (inet_host (s_IP s)) (s_UserAgent s) (s_CreatedAt s) (s_LastActiveAt s).

(** Newest first: [order_by] is stable and ascending. *)
Definition ListSessions (userID : string) : uprog (list Session) :=
  exec_pool (fun _ d =>
    Done (map (session_view d)
      (order_by (fun s => - s_LastActiveAt s)
         (select_rows (fun s => has_key s_UserID userID s && unrevoked_session s) (sessions d)))) d).
End Listing.
