(* ===== verification/AuthService.v ===== *)
(** * Auth (services/auth/internal/service)

    Registration, login with lockout, refresh-token rotation with reuse
    detection and logout.  The password hashing is [Password], the signing of
    access tokens [Token]; texts of database errors are a parameter. *)
From S2P Require Export AuthStore Password.

(** lockoutThreshold, lockoutDuration (15 minutes, in nanoseconds) *)
Definition lockoutThreshold : Z := 5.
Definition lockoutDuration : Z := 15 * 60 * 1000000000.

Record Tokens := mkTokens {
  AccessToken : string;
  RefreshToken : string;
  AccessExpiresIn : Z;
  tk_UserID : string
}.

Record Identity := mkIdentity {
  id_UserID : string;
  id_Email : string;
  id_AccountType : string;
  id_Roles : list string;
  id_EmailVerified : bool;
  id_MFAEnabled : bool
}.

Definition sha256Sum (s : string) : list Z := sha256 (bytes_of s).

(** newOpaqueToken: the error of the random source is ignored, the buffer is
    then the zero bytes. *)
Definition opaque (random : option (list Z)) : string :=
  encode_b64 url_alphabet (default (repeat 0 32) random).

Definition newOpaqueToken : uprog (string * list Z) :=
  b <- read_random 32 ;;
  let raw := opaque b in
  ret (raw, sha256Sum raw).

Definition registered_event (userID accountType residency : string) : Event :=
  mkEvent "user" userID "user.registered" "user.events" userID
    (JObj [("user_id", JStr userID); ("account_type", JStr accountType);
           ("residency_country", JStr residency)]) None.

Definition session_event (userID ip : string) : Event :=
  mkEvent "session" userID "session.created" "user.events" userID
    (JObj [("user_id", JStr userID); ("ip", JStr ip)]) None.

Section Service.
Context `{Jwt} `{Argon2} `{PgErrorText} `{PgInet}.

Record Config := mkConfig {
  AccessTTL : Z;             (* nanoseconds *)
  RefreshTTL : Z;
  cf_Argon2 : Argon2Params;
  cf_issuer : IssuerConfig
}.

Context (cfg : Config).

Definition isUniqueViolation (e : err auth_err) : bool :=
  match e with
  | Db x => contains (error_text x) "23505" || contains (error_text x) "uq_users_email_active"
  | Dom _ => false
  end.

(** crypto.HashPassword *)
Definition hash_password (password : string) : uprog string :=
  salt <- read_random (Z.to_nat (SaltLength (cf_Argon2 cfg))) ;;
  match HashPassword salt password (cf_Argon2 cfg) with
  | None => fail ErrRandom
  | Some h => ret h
  end.

Definition issue (c : Claims) : uprog string :=
  o <- Issue (cf_issuer cfg) c ;;
  match o with None => fail ErrSigning | Some raw => ret raw end.

(** The claims issueSession fills in; Issue sets the others. *)
Definition session_claims (userID sessionID accountType residency : string) (roles perms : list string) : Claims :=
  mkClaims "" [] "" 0 0 0 "" userID sessionID roles perms residency accountType.

Definition tokens (access raw userID : string) : Tokens :=
  mkTokens access raw (Z.quot (AccessTTL cfg) 1000000000) userID.

Definition issueSession (userID accountType residency ip ua : string) : uprog Tokens :=
  s <- CreateSession userID ip ua (RefreshTTL cfg) ;;
  let sessionID := fst s in
  t <- newOpaqueToken ;;
  InsertRefreshToken sessionID userID (snd t) (RefreshTTL cfg) ;;;
  rp <- RolesAndPermissions userID ;;
  access <- issue (session_claims userID sessionID accountType residency (fst rp) (snd rp)) ;;
  ret (tokens access (fst t) userID).

Definition Register (email password accountType residency locale ip ua : string) : uprog Tokens :=
  hash <- hash_password password ;;
  in_tx (
    r <- attempt (CreateUser email hash accountType residency locale) ;;
    match r with
    | Err e => if isUniqueViolation e then fail ErrEmailTaken else throw e
    | Ok userID =>
        AssignRole userID accountType ;;;
        toks <- issueSession userID accountType residency ip ua ;;
        Enqueue (registered_event userID accountType residency) ;;;
        commit ;;;
        ret toks
    end).

(** The session of a login that passed. *)
Definition login_session (u : User) (ip ua : string) : uprog Tokens :=
  in_tx (
    toks <- issueSession (u_ID u) (u_PrimaryType u) (u_Residency u) ip ua ;;
    attempt (Enqueue (session_event (tk_UserID toks) ip)) ;;;
    commit ;;;
    ret toks).

Definition Login (email password ip ua : string) : uprog Tokens :=
  r <- attempt (GetUserByEmail email) ;;
  match r with
  | Err (Dom ErrNotFound) =>
      attempt (hash_password password) ;;;
      fail ErrInvalidCredentials
  | Err e => throw e
  | Ok u =>
      locked <- (match u_LockedUntil u with
                 | None => ret false
                 | Some until => t <- time_now ;; ret (t <? until)
                 end) ;;
      if locked : bool then fail ErrAccountLocked else
      match VerifyPassword password (u_PasswordHash u) with
      | Some true =>
          attempt (RecordLoginSuccess (u_ID u)) ;;;
          login_session u ip ua
      | _ =>
          attempt (RecordLoginFailure (u_ID u) lockoutThreshold lockoutDuration) ;;;
          fail ErrInvalidCredentials
      end
  end.

(** Minting the next token of the chain and retiring this one. *)
Definition rotate (rt : AuthStore.RefreshToken) : uprog Tokens :=
  rp <- RolesAndPermissions (rt_UserID rt) ;;
  t <- newOpaqueToken ;;
  newID <- InsertRefreshToken (rt_SessionID rt) (rt_UserID rt) (snd t) (RefreshTTL cfg) ;;
  MarkTokenUsed (rt_ID rt) newID ;;;
  access <- issue (session_claims (rt_UserID rt) (rt_SessionID rt) "" "" (fst rp) (snd rp)) ;;
  commit ;;;
  ret (tokens access (fst t) (rt_UserID rt)).

Definition Refresh (rawRefresh ip ua : string) : uprog Tokens :=
  let hash := sha256Sum rawRefresh in
  in_tx (
    r <- attempt (LookupRefreshToken hash) ;;
    match r with
    | Err (Dom ErrNotFound) => fail ErrTokenExpired
    | Err e => throw e
    | Ok rt =>
        expired <- (match rt_RevokedAt rt with
                    | Some _ => ret true
                    | None => t <- time_now ;; ret (rt_ExpiresAt rt <? t)
                    end) ;;
        if expired : bool then fail ErrTokenExpired else
        match rt_UsedAt rt with
        | Some _ =>
            attempt (RevokeFamily (rt_FamilyID rt) "refresh_token_reuse") ;;;
            attempt commit ;;;
            fail ErrTokenReuse
        | None =>
            revoked <- SessionRevokedForUpdate (rt_SessionID rt) ;;
            if revoked : bool then fail ErrTokenExpired else rotate rt
        end
    end).

Definition service_ListSessions (userID : string) : uprog (list Session) := ListSessions userID.

Definition service_RevokeSession (userID sessionID : string) : uprog unit :=
  RevokeSession userID sessionID "user_revoked".

Definition Logout (rawRefresh : string) (allSessions : bool) : uprog unit :=
  if String.eqb rawRefresh "" then ret tt else
  in_tx (
    r <- attempt (LookupRefreshToken (sha256Sum rawRefresh)) ;;
    match r with
    | Err (Dom ErrNotFound) => ret tt
    | Err e => throw e
    | Ok rt =>
        (if allSessions then RevokeFamily (rt_FamilyID rt) "user_logout_all"
         else RevokeSessionByID (rt_SessionID rt) "user_logout") ;;;
        commit
    end).

Definition Me (userID : string) : uprog Identity :=
  u <- GetUserByID userID ;;
  rp <- RolesAndPermissions userID ;;
  ret (mkIdentity (u_ID u) (u_Email u) (u_PrimaryType u) (fst rp) (u_EmailVerified u) (u_MFAEnabled u)).
End Service.
