(* ===== verification/AuthSpec.v ===== *)
(** * What the auth operations do

    The changes of the tables each operation can leave, and the rules of its
    parts. *)
From S2P Require Export AuthService.

(** ** Effects on the tables *)

Definition add_user (u : User) (rs : list UserRole) (d : auth_db) : auth_db :=
  put user_roles_t (user_roles d ++ rs) (put users_t (users d ++ [u]) d).

(** A session with its first refresh token. *)
Definition add_session (s : SessionRow) (t : TokenRow) (d : auth_db) : auth_db :=
  put refresh_tokens_t (refresh_tokens d ++ [t]) (put sessions_t (sessions d ++ [s]) d).

Definition announce (e : Event) (t : Z) (d : auth_db) : auth_db :=
  put auth_HasOutbox (enqueued t e (auth_outbox d)) d.

(** The token with identifier [id] is used and replaced by [new]. *)
Definition rotated (id : string) (new : TokenRow) (t : Z) (d : auth_db) : auth_db :=
  put refresh_tokens_t (update_where (has_key t_ID id) (token_used t (t_ID new)) (refresh_tokens d ++ [new])) d.

Definition revoke_sessions (p : SessionRow -> bool) (reason : string) (t : Z) (d : auth_db) : auth_db :=
  put sessions_t (update_where (fun s => p s && unrevoked_session s) (session_revoked reason t) (sessions d)) d.

Definition revoke_tokens (p : TokenRow -> bool) (t : Z) (d : auth_db) : auth_db :=
  put refresh_tokens_t (update_where (fun x => p x && unrevoked_token x) (token_revoked t) (refresh_tokens d)) d.

Definition family_revoked (family reason : string) (t : Z) (d : auth_db) : auth_db :=
  let d1 := revoke_sessions (has_key s_FamilyID family) reason t d in
  revoke_tokens (in_family family (sessions d1)) t d1.

Definition session_and_tokens_revoked (id reason : string) (t : Z) (d : auth_db) : auth_db :=
  revoke_tokens (has_key t_SessionID id) t (revoke_sessions (has_key s_ID id) reason t d).

Definition login_recorded (id : string) (t : Z) (d : auth_db) : auth_db :=
  put users_t (update_where (has_key u_ID id) (logged_in t) (users d)) d.

Definition failure_recorded (id : string) (t : Z) (d : auth_db) : auth_db :=
  put users_t (update_where (has_key u_ID id) (failed_login lockoutThreshold lockoutDuration t) (users d)) d.

(** A fresh session of user [uid] and its token. *)
Record fresh_session (uid : string) (s : SessionRow) (t : TokenRow) (d : auth_db) : Prop := {
  fs_session : session_check (sessions d) s = None;
  fs_token : token_check (refresh_tokens d) t = None;
  fs_user : In uid (map u_ID (users d));
  fs_owner : s_UserID s = uid;
  fs_live : s_revoked_at s = None;
  fs_link : t_SessionID t = s_ID s;
  fs_holder : t_UserID t = uid;
  fs_unused : t_UsedAt t = None;
  fs_unrevoked : t_RevokedAt t = None
}.

Section Spec.
Context `{Jwt} `{Argon2} `{PgErrorText} `{PgInet} (cfg : Config).
Implicit Types (ev : env) (c v : auth_db).

(** [access] was signed for this user, session and account type, with the roles
    of [c]. *)
Definition access_for (c : auth_db) (uid sid account : string) (access : string) : Prop :=
  exists t id residency,
    SignedString (priv (cf_issuer cfg)) (is_kid (cf_issuer cfg))
      (issued_claims (cf_issuer cfg) t id
         (session_claims uid sid account residency (roles_of uid c) (permissions_of uid c))) = Some access.

(** ** Rules *)

Lemma wp_pool_fun {A} (f : auth_db -> A) ev c t n (Q : res auth_err A -> world auth_db -> Prop) :
  (Q (Err (Db Driver)) (World c t (S n))) -> Q (Ok (f c)) (World c t (S n)) ->
  wp (exec_pool (fun _ d => Done (f d) d)) ev (World c t n) Q.
Proof. intros Hf Hs. by apply (wp_pool_read _ (f c)). Qed.

Lemma wp_RolesAndPermissions uid ev c t n (Q : res auth_err (list string * list string) -> world auth_db -> Prop) :
  (forall e m, ~ calm ev -> Q (Err e) (World c t m)) ->
  (forall m, Q (Ok (roles_of uid c, permissions_of uid c)) (World c t m)) ->
  wp (RolesAndPermissions uid) ev (World c t n) Q.
Proof.
  intros Hf Hs. unfold RolesAndPermissions. apply wp_bind.
  apply (wp_pool_read _ (roles_of uid c)); [done|intros NC; by apply Hf|].
  apply wp_bind. apply (wp_pool_read _ (permissions_of uid c)); [done|intros NC; by apply Hf|].
  apply wp_ret, Hs.
Qed.

Lemma wp_newOpaqueToken ev c t n (Q : res auth_err (string * list Z) -> world auth_db -> Prop) :
  (forall raw m, Q (Ok (raw, sha256Sum raw)) (World c t m)) -> wp newOpaqueToken ev (World c t n) Q.
Proof.
  intros HQ. unfold newOpaqueToken. apply wp_bind, wp_read_random. intros o. apply wp_ret, HQ.
Qed.

Lemma wp_issue cl ev c t n (Q : res auth_err string -> world auth_db -> Prop) :
  (forall m, Q (Err (Dom ErrSigning)) (World c t m)) ->
  (forall t0 id raw m,
     SignedString (priv (cf_issuer cfg)) (is_kid (cf_issuer cfg)) (issued_claims (cf_issuer cfg) t0 id cl) = Some raw ->
     Q (Ok raw) (World c t m)) ->
  wp (issue cfg cl) ev (World c t n) Q.
Proof.
  intros Hf Hs. unfold issue, Issue. apply wp_bind, wp_bind, wp_time_now, wp_bind, wp_read_random. intros b.
  apply wp_bind, wp_time_now, wp_ret. destruct (SignedString _ _ _) as [raw|] eqn:S; [by eapply wp_ret, Hs|].
  apply wp_throw, Hf.
Qed.

Lemma wp_InsertRefreshToken sid uid hash ttl ev c t v n (Q : res auth_err string -> world auth_db -> Prop) :
  (forall e m, Q (Err (Db e)) (World c Broken m)) ->
  (forall id m, let tk := new_token id sid uid hash (t + ttl) in
     token_check (refresh_tokens v) tk = None -> In uid (map u_ID (users v)) ->
     Q (Ok id) (World c (Live t (put refresh_tokens_t (refresh_tokens v ++ [tk]) v)) m)) ->
  wp (InsertRefreshToken sid uid hash ttl) ev (World c (Live t v) n) Q.
Proof.
  intros Hf Hs. unfold InsertRefreshToken. apply wp_bind, wp_exec; [intros _; apply Hf|].
  unfold insert_token, insert_row. cbn [first_violation].
  change (rows refresh_tokens_t v) with (refresh_tokens v).
  destruct (token_check (refresh_tokens v) _) as [e|] eqn:C; [apply Hf|]. unfold references.
  destruct (existsb (has_key s_ID sid) (sessions v)); [|apply Hf].
  destruct (existsb (has_key u_ID uid) (users v)) eqn:U; [|apply Hf].
  apply wp_ret, Hs; [done|]. apply existsb_exists in U as (u & Hu & Hk%has_key_true). rewrite <- Hk. by apply in_map.
Qed.

Lemma wp_issueSession uid acct resid ip ua ev c t v n (Q : res auth_err Tokens -> world auth_db -> Prop) :
  (forall e w, committed w = c -> Q (Err e) w) ->
  (forall s tk toks m, fresh_session uid s tk v ->
     t_hash tk = sha256Sum (RefreshToken toks) -> tk_UserID toks = uid ->
     access_for c uid (s_ID s) acct (AccessToken toks) ->
     Q (Ok toks) (World c (Live t (add_session s tk v)) m)) ->
  wp (issueSession cfg uid acct resid ip ua) ev (World c (Live t v) n) Q.
Proof.
  intros Hf Hs. unfold issueSession. apply wp_bind. unfold CreateSession. apply wp_bind.
  unfold server_uuid. unfold wp at 1. cbn [fst snd committed txs tick]. set (family := gen_uuid ev n).
  apply wp_bind, wp_exec; [intros _; by apply Hf|]. unfold create_session.
  destruct (negb (inet_ok ip)); [by apply Hf|]. unfold insert_row. cbn [first_violation now fresh].
  set (s := new_session _ _ _ _ _ _ _). change (rows sessions_t v) with (sessions v).
  destruct (session_check (sessions v) s) as [e|] eqn:C; [by apply Hf|]. unfold references.
  destruct (existsb (has_key u_ID uid) (users v)) eqn:U; [|by apply Hf].
  apply wp_ret. cbn [fst snd]. apply wp_bind, wp_newOpaqueToken. intros raw m1. cbn [fst snd].
  apply wp_bind, wp_InsertRefreshToken; [intros e m; by apply Hf|]. intros id m2 tk Htk Hu.
  apply wp_bind, wp_RolesAndPermissions; [intros e m _; by apply Hf|]. intros m3. cbn [fst snd].
  apply wp_bind, wp_issue; [intros m; by apply Hf|]. intros t0 jid access m4 Hsign.
  apply wp_ret. apply (Hs s tk); try done. by exists t0, jid, resid.
Qed.

(** ** Outcomes *)

(** Registering: an error and nothing changed, or the account with its role,
    session, token and event; the answer may be lost. *)
Inductive registered (email acct ip : string) (c : auth_db) : res auth_err Tokens -> auth_db -> Prop :=
| rg_err e : registered email acct ip c (Err e) c
| rg_done r u rs s t toks e at_ :
    user_check (users c) u = None -> u_Email u = email -> active u = true -> u_PrimaryType u = acct ->
    Forall (fun x => ur_user x = u_ID u /\ In (ur_role x, acct) (roles c)) rs ->
    fresh_session (u_ID u) s t (add_user u rs c) ->
    t_hash t = sha256Sum (RefreshToken toks) -> tk_UserID toks = u_ID u ->
    access_for c (u_ID u) (s_ID s) acct (AccessToken toks) ->
    (r = Ok toks \/ r = Err (Db Driver)) ->
    registered email acct ip c r (announce e at_ (add_session s t (add_user u rs c))).

Lemma Register_outcome email password acct resid locale ip ua ev c n :
  wp (Register cfg email password acct resid locale ip ua) ev (rest c n)
    (ended (registered email acct ip c)).
Proof.
  unfold Register, rest. apply wp_bind. unfold hash_password. apply wp_bind, wp_read_random. intros salt.
  assert (forall e (m : nat), ended (registered email acct ip c) (Err e) (World c NoTx m)) as Herr
    by (intros; split; [done|constructor]).
  destruct (HashPassword _ _ _) as [hash|]; [|by apply wp_throw, Herr]. apply wp_ret.
  apply wp_in_tx; [intros _; by apply Herr|]. apply wp_bind, wp_attempt. unfold CreateUser. apply wp_bind.
  assert (forall e w, committed w = c ->
    wp (if isUniqueViolation e then fail ErrEmailTaken else throw e) ev w
      (fun r w' => ended (registered email acct ip c) r (World (committed w') NoTx (tick w')))) as Hdup.
  { intros e w <-. destruct (isUniqueViolation e); apply wp_throw, Herr. }
  apply wp_exec; [intros _; by apply Hdup|]. unfold create_user.
  destruct (negb (enum account_types acct)); [by apply Hdup|].
  destruct (bpchar 2 resid) as [res|]; [|by apply Hdup]. unfold insert_row.
  cbn [now fresh]. set (u := new_user _ _ _ _ _ _). change (rows users_t c) with (users c).
  destruct (user_check (users c) u) as [e|] eqn:C; [by apply Hdup|].
  apply wp_ret. cbn beta iota. apply wp_bind. unfold AssignRole. apply wp_exec; [intros _; by apply Herr|].
  unfold assign_role. change (user_roles (put users_t (users c ++ [u]) c)) with (user_roles c).
  set (rs := List.filter _ _).
  assert (Forall (fun x => ur_user x = u_ID u /\ In (ur_role x, acct) (roles c)) rs) as Hrs.
  { apply List.Forall_forall. intros x [Hx _]%List.filter_In. apply in_map_iff in Hx as (y & <- & Hy).
    apply List.filter_In in Hy as [Hy E%String.eqb_eq]. split; [done|]. cbn [ur_role]. by rewrite <- E, <- surjective_pairing. }
  assert (forall e, wp (toks <- issueSession cfg (u_ID u) acct resid ip ua ;;
      Enqueue (registered_event (u_ID u) acct resid) ;;; commit ;;; ret toks) ev
    (World c (Live (clock ev (S n)) (add_user u rs c)) e)
    (fun r w' => ended (registered email acct ip c) r (World (committed w') NoTx (tick w')))) as Hgo.
  { intros k. apply wp_bind, wp_issueSession; [intros e w ->; by apply Herr|]. intros s t toks m Hs Ht Hu Ha.
    apply wp_bind, wp_Enqueue; [intros _; by apply Herr|].
    assert (forall r, r = Ok toks \/ r = Err (Db Driver) ->
      registered email acct ip c r (announce (registered_event (u_ID u) acct resid) (clock ev (S n))
        (add_session s t (add_user u rs c)))) as Hdone by (intros; by eapply rg_done).
    apply wp_bind, wp_commit; cbn beta iota; intros; try (by apply Herr);
      try apply wp_ret; split; try done; apply Hdone; auto. }
  destruct rs as [|x rs']; [apply Hgo|]. destruct (references _ _ _); [by apply Herr|apply Hgo].
Qed.
(** Opening the session of a login. *)
Inductive opened (u : User) (ip : string) (d : auth_db) : res auth_err Tokens -> auth_db -> Prop :=
| op_err e : opened u ip d (Err e) d
| op_done r s t toks e at_ :
    fresh_session (u_ID u) s t d -> t_hash t = sha256Sum (RefreshToken toks) -> tk_UserID toks = u_ID u ->
    access_for d (u_ID u) (s_ID s) (u_PrimaryType u) (AccessToken toks) -> (r = Ok toks \/ r = Err (Db Driver)) ->
    opened u ip d r (announce e at_ (add_session s t d)).

Lemma login_session_outcome u ip ua ev d n :
  wp (login_session cfg u ip ua) ev (World d NoTx n) (ended (opened u ip d)).
Proof.
  unfold login_session.
  assert (forall e (m : nat), ended (opened u ip d) (Err e) (World d NoTx m)) as Herr
    by (intros; split; [done|constructor]).
  apply wp_in_tx; [intros _; by apply Herr|].
  apply wp_bind, wp_issueSession; [intros e w ->; by apply Herr|]. intros s t toks m Hs Ht Hu Ha.
  apply wp_bind, wp_attempt, wp_Enqueue.
  { intros _. apply wp_bind, wp_commit_broken, Herr. }
  assert (forall r, r = Ok toks \/ r = Err (Db Driver) ->
    opened u ip d r (announce (session_event (tk_UserID toks) ip) (clock ev n) (add_session s t d))) as Hdone
    by (intros; by eapply op_done).
  apply wp_bind, wp_commit; cbn beta iota; intros; try (by apply Herr);
    try apply wp_ret; split; try done; apply Hdone; auto.
Qed.

Definition account_of (email : string) (c : auth_db) : option User :=
  List.find (fun u => same_email (u_Email u) email && active u) (users c).

(** At some time of the run the account is not locked. *)
Definition unlocked (ev : env) (u : User) : Prop :=
  forall until, u_LockedUntil u = Some until -> exists k, until <= clock ev k.

(** Logging in: refused, or the failure is recorded on the account, or the
    success and a new session (recording either is best effort). *)
Inductive logged (email password ip : string) (ev : env) (c : auth_db) : res auth_err Tokens -> auth_db -> Prop :=
| lg_err e : logged email password ip ev c (Err e) c
| lg_failure u t : account_of email c = Some u -> unlocked ev u ->
    VerifyPassword password (u_PasswordHash u) <> Some true ->
    logged email password ip ev c (Err (Dom ErrInvalidCredentials)) (failure_recorded (u_ID u) t c)
| lg_success r u d1 d2 : account_of email c = Some u -> unlocked ev u ->
    VerifyPassword password (u_PasswordHash u) = Some true ->
    (d1 = c \/ exists t, d1 = login_recorded (u_ID u) t c) -> opened u ip d1 r d2 ->
    logged email password ip ev c r d2.

Lemma wp_RecordLoginSuccess id ev d n (Q : res auth_err unit -> world auth_db -> Prop) :
  (forall e m, Q (Err e) (World d NoTx m)) ->
  (forall r t m, Q r (World (login_recorded id t d) NoTx m)) ->
  wp (RecordLoginSuccess id) ev (World d NoTx n) Q.
Proof.
  intros Hf Hs. unfold RecordLoginSuccess. apply wp_bind, wp_exec_pool. unfold update_rows.
  assert (forall l, List.find (fun _ : User => false) l = None) as -> by by induction l.
  repeat split; intros; try apply wp_ret; try apply Hf; try (by apply (Hs _ (clock ev n))).
Qed.

Lemma wp_RecordLoginFailure id ev d n (Q : res auth_err unit -> world auth_db -> Prop) :
  (forall e m, Q (Err e) (World d NoTx m)) ->
  (forall r m, Q r (World (failure_recorded id (clock ev n) d) NoTx m)) ->
  wp (RecordLoginFailure id lockoutThreshold lockoutDuration) ev (World d NoTx n) Q.
Proof.
  intros Hf Hs. unfold RecordLoginFailure. apply wp_bind, wp_exec_pool. unfold update_rows.
  destruct (List.find _ _); repeat split; intros; try apply wp_ret; try apply Hf; apply Hs.
Qed.

Lemma Login_outcome email password ip ua ev c n :
  wp (Login cfg email password ip ua) ev (rest c n) (ended (logged email password ip ev c)).
Proof.
  assert (forall e (m : nat), ended (logged email password ip ev c) (Err e) (World c NoTx m)) as Herr
    by (intros; split; [done|constructor]).
  unfold Login, rest, GetUserByEmail. apply wp_bind, wp_attempt, wp_bind.
  apply (wp_pool_read _ (account_of email c)); [done|intros _; by apply wp_throw, Herr|].
  destruct (account_of email c) as [u|] eqn:F; unfold found.
  2:{ apply wp_throw. cbn beta iota. apply wp_bind, wp_attempt. unfold hash_password.
      apply wp_bind, wp_read_random. intros salt. destruct (HashPassword _ _ _);
        [apply wp_ret|apply wp_throw]; apply wp_throw, Herr. }
  apply wp_ret. cbn beta iota. apply wp_bind.
  assert (forall m, unlocked ev u -> wp (match VerifyPassword password (u_PasswordHash u) with
      | Some true => attempt (RecordLoginSuccess (u_ID u)) ;;; login_session cfg u ip ua
      | _ => attempt (RecordLoginFailure (u_ID u) lockoutThreshold lockoutDuration) ;;; fail ErrInvalidCredentials
      end) ev (World c NoTx m) (ended (logged email password ip ev c))) as Hgo.
  { intros m Hl. assert (VerifyPassword password (u_PasswordHash u) <> Some true ->
      wp (attempt (RecordLoginFailure (u_ID u) lockoutThreshold lockoutDuration) ;;; fail ErrInvalidCredentials) ev
        (World c NoTx m) (ended (logged email password ip ev c))) as Hbad.
    { intros V. apply wp_bind, wp_attempt, wp_RecordLoginFailure; intros; apply wp_throw; [apply Herr|].
      split; [done|]. by apply lg_failure. }
    destruct (VerifyPassword password (u_PasswordHash u)) as [[]|] eqn:V; [|by apply Hbad..].
    apply wp_bind, wp_attempt, wp_RecordLoginSuccess; intros; (eapply wp_mono; [apply login_session_outcome|]);
      intros r0 w [Htx Ho]; (split; [done|]); (eapply lg_success; [done..| |exact Ho]); eauto. }
  destruct (u_LockedUntil u) as [until|] eqn:L.
  - apply wp_bind, wp_time_now, wp_ret. destruct (Z.ltb_spec (clock ev (S n)) until); [apply wp_throw, Herr|].
    apply Hgo. intros x. rewrite L. intros [= <-]. eauto.
  - apply wp_ret, Hgo. intros x. by rewrite L.
Qed.

(** Redeeming a refresh token, on every branch. *)
Inductive refreshed (raw : string) (ev : env) (c : auth_db) : res auth_err Tokens -> auth_db -> Prop :=
| rf_failed e : ~ calm ev -> refreshed raw ev c (Err e) c
| rf_unknown : lookup_token (sha256Sum raw) c = None -> refreshed raw ev c (Err (Dom ErrTokenExpired)) c
| rf_expired rt k : lookup_token (sha256Sum raw) c = Some rt ->
    (rt_RevokedAt rt <> None \/ rt_ExpiresAt rt < clock ev k) -> refreshed raw ev c (Err (Dom ErrTokenExpired)) c
| rf_reuse rt t : lookup_token (sha256Sum raw) c = Some rt -> rt_RevokedAt rt = None -> rt_UsedAt rt <> None ->
    refreshed raw ev c (Err (Dom ErrTokenReuse)) (family_revoked (rt_FamilyID rt) "refresh_token_reuse" t c)
| rf_reuse_failed rt : lookup_token (sha256Sum raw) c = Some rt -> rt_UsedAt rt <> None -> ~ calm ev ->
    refreshed raw ev c (Err (Dom ErrTokenReuse)) c
| rf_dead_session rt s : lookup_token (sha256Sum raw) c = Some rt -> find_session (rt_SessionID rt) c = Some s ->
    rt_UsedAt rt = None -> unrevoked_session s = false -> refreshed raw ev c (Err (Dom ErrTokenExpired)) c
| rf_refused rt e : lookup_token (sha256Sum raw) c = Some rt -> rt_UsedAt rt = None -> rt_RevokedAt rt = None ->
    refreshed raw ev c (Err e) c
| rf_rotated r rt s new toks t : lookup_token (sha256Sum raw) c = Some rt ->
    rt_RevokedAt rt = None -> rt_UsedAt rt = None -> (exists k, clock ev k <= rt_ExpiresAt rt) ->
    find_session (rt_SessionID rt) c = Some s -> unrevoked_session s = true ->
    token_check (refresh_tokens c) new = None -> In (rt_UserID rt) (map u_ID (users c)) ->
    t_SessionID new = rt_SessionID rt -> t_UserID new = rt_UserID rt ->
    t_UsedAt new = None -> t_RevokedAt new = None -> t_hash new = sha256Sum (RefreshToken toks) ->
    tk_UserID toks = rt_UserID rt -> access_for c (rt_UserID rt) (rt_SessionID rt) "" (AccessToken toks) ->
    (r = Ok toks \/ r = Err (Db Driver)) ->
    refreshed raw ev c r (rotated (rt_ID rt) new t c).

Lemma wp_RevokeFamily family reason ev c t v n (Q : res auth_err unit -> world auth_db -> Prop) :
  (forall e m, ~ calm ev -> Q (Err e) (World c Broken m)) ->
  (forall m, Q (Ok tt) (World c (Live t (family_revoked family reason t v)) m)) ->
  wp (RevokeFamily family reason) ev (World c (Live t v) n) Q.
Proof.
  intros Hf Hs. unfold RevokeFamily. apply wp_bind, (wp_update_free sessions_t); [intros; by apply Hf|].
  apply wp_bind, wp_exec; [intros; by apply Hf|]. unfold update_rows.
  assert (forall l, List.find (fun _ : TokenRow => false) l = None) as -> by by induction l.
  apply wp_ret, Hs.
Qed.

Lemma rotate_outcome rt s raw ev c t n :
  lookup_token (sha256Sum raw) c = Some rt -> rt_RevokedAt rt = None -> rt_UsedAt rt = None ->
  (exists k, clock ev k <= rt_ExpiresAt rt) ->
  find_session (rt_SessionID rt) c = Some s -> unrevoked_session s = true ->
  wp (rotate cfg rt) ev (World c (Live t c) n)
    (fun r w => ended (refreshed raw ev c) r (World (committed w) NoTx (tick w))).
Proof.
  intros HL HR HU HE HS HN.
  assert (forall e m, ended (refreshed raw ev c) (Err e) (World c NoTx m)) as Href
    by (intros; split; [done|by eapply rf_refused]).
  unfold rotate. apply wp_bind, wp_RolesAndPermissions; [intros e m _; by apply Href|]. intros m1. cbn [fst snd].
  apply wp_bind, wp_newOpaqueToken. intros newRaw m2. cbn [fst snd].
  apply wp_bind, wp_InsertRefreshToken; [intros e m; by apply Href|]. intros id m3 tk Htk Hu.
  apply wp_bind. unfold MarkTokenUsed. apply wp_bind, wp_exec; [intros _; by apply Href|].
  unfold mark_used, update_rows. destruct (List.find _ _); [by apply Href|]. apply wp_ret.
  apply wp_bind, wp_issue; [intros m; by apply Href|]. intros t0 jid access m4 Hsign.
  assert (forall r m, r = Ok (tokens cfg access newRaw (rt_UserID rt)) \/ r = Err (Db Driver) ->
    ended (refreshed raw ev c) r (World (rotated (rt_ID rt) tk t c) NoTx m)) as Hdone.
  { intros r m Hr. split; [done|]. apply (rf_rotated raw ev c r rt s tk (tokens cfg access newRaw (rt_UserID rt)) t); try done.
    by exists t0, jid, "". }
  apply wp_bind, wp_commit; cbn beta iota; intros; try (by apply Href); try apply wp_ret; apply Hdone; auto.
Qed.

Lemma Refresh_outcome raw ip ua ev c n :
  wp (Refresh cfg raw ip ua) ev (rest c n) (ended (refreshed raw ev c)).
Proof.
  assert (forall e (m : nat), ~ calm ev -> ended (refreshed raw ev c) (Err e) (World c NoTx m)) as Herr
    by (intros; split; [done|by constructor]).
  unfold Refresh, rest. apply wp_in_tx; [intros NC; by apply Herr|].
  apply wp_bind, wp_attempt. unfold LookupRefreshToken. apply wp_bind, wp_exec; [intros NC; by apply wp_throw, Herr|].
  destruct (lookup_token (sha256Sum raw) c) as [rt|] eqn:L; unfold found.
  2:{ apply wp_throw. cbn beta iota. apply wp_throw. split; [done|by constructor]. }
  apply wp_ret. cbn beta iota. apply wp_bind.
  destruct (rt_RevokedAt rt) as [at_|] eqn:R.
  { apply wp_ret, wp_throw. split; [done|]. apply (rf_expired _ _ _ rt 0%nat); [done|]. left. by rewrite R. }
  apply wp_bind, wp_time_now, wp_ret.
  destruct (Z.ltb_spec (rt_ExpiresAt rt) (clock ev (S (S n)))) as [X|X].
  { apply wp_throw. split; [done|]. eapply rf_expired; [done|]. by right; exact X. }
  destruct (rt_UsedAt rt) as [at_|] eqn:U.
  - assert (forall m, ~ calm ev -> ended (refreshed raw ev c) (Err (Dom ErrTokenReuse)) (World c NoTx m)) as Hno.
    { intros m NC. split; [done|]. apply (rf_reuse_failed _ _ _ rt); [done| |done]. by rewrite U. }
    apply wp_bind, wp_attempt, wp_RevokeFamily.
    { intros e m NC. apply wp_bind, wp_attempt, wp_commit_broken, wp_throw. by apply Hno. }
    intros m. apply wp_bind, wp_attempt, wp_commit; intros; try done; apply wp_throw; try (by apply Hno);
      (split; [done|]); (apply rf_reuse; [done..|]); by rewrite U.
  - unfold SessionRevokedForUpdate. apply wp_bind, wp_bind, wp_exec; [intros NC; by apply Herr|].
    cbn [select_one]. unfold select_one. change (List.find _ (rows sessions_t c)) with (find_session (rt_SessionID rt) c).
    assert (exists s, find_session (rt_SessionID rt) c = Some s) as [s HS].
    { unfold lookup_token in L. destruct (find_token _ c) as [tk|]; [|done].
      destruct (find_session (t_SessionID tk) c) as [s|] eqn:E; [|done]. injection L as <-. by exists s. }
    rewrite HS. apply wp_ret. destruct (unrevoked_session s) eqn:N; cbn [negb].
    + eapply rotate_outcome; try done. eauto.
    + apply wp_throw. split; [done|]. by eapply rf_dead_session.
Qed.
(** Logging out: nothing for an unknown token, or its session, or its family,
    is revoked with the tokens. *)
Inductive logged_out (raw : string) (all : bool) (ev : env) (c : auth_db) : res auth_err unit -> auth_db -> Prop :=
| lo_failed e : ~ calm ev -> logged_out raw all ev c (Err e) c
| lo_nothing : raw = "" \/ lookup_token (sha256Sum raw) c = None -> logged_out raw all ev c (Ok tt) c
| lo_session r rt t : lookup_token (sha256Sum raw) c = Some rt -> all = false ->
    (r = Ok tt \/ ~ calm ev) ->
    logged_out raw all ev c r (session_and_tokens_revoked (rt_SessionID rt) "user_logout" t c)
| lo_family r rt t : lookup_token (sha256Sum raw) c = Some rt -> all = true ->
    (r = Ok tt \/ ~ calm ev) ->
    logged_out raw all ev c r (family_revoked (rt_FamilyID rt) "user_logout_all" t c).

Lemma wp_RevokeSessionByID id reason ev c t v n (Q : res auth_err unit -> world auth_db -> Prop) :
  (forall e m, ~ calm ev -> Q (Err e) (World c Broken m)) ->
  (forall m, Q (Ok tt) (World c (Live t (session_and_tokens_revoked id reason t v)) m)) ->
  wp (RevokeSessionByID id reason) ev (World c (Live t v) n) Q.
Proof.
  intros Hf Hs. unfold RevokeSessionByID. apply wp_bind, (wp_update_free sessions_t); [intros; by apply Hf|].
  apply wp_bind, (wp_update_free refresh_tokens_t); [intros; by apply Hf|]. apply wp_ret, Hs.
Qed.

Lemma Logout_outcome raw all ev c n :
  wp (Logout raw all) ev (rest c n) (ended (logged_out raw all ev c)).
Proof.
  assert (forall e (m : nat), ~ calm ev -> ended (logged_out raw all ev c) (Err e) (World c NoTx m)) as Herr
    by (intros; split; [done|by constructor]).
  unfold Logout, rest. destruct (String.eqb_spec raw "") as [->|NE].
  { apply wp_ret. split; [done|]. apply lo_nothing. by left. }
  apply wp_in_tx; [intros NC; by apply Herr|]. apply wp_bind, wp_attempt.
  unfold LookupRefreshToken. apply wp_bind, wp_exec; [intros NC; by apply wp_throw, Herr|].
  destruct (lookup_token (sha256Sum raw) c) as [rt|] eqn:L; unfold found.
  2:{ apply wp_throw, wp_ret. split; [done|]. apply lo_nothing. by right. }
  apply wp_ret. cbn beta iota. apply wp_bind. destruct all.
  - apply wp_RevokeFamily; [intros e m NC; by apply Herr|]. intros m.
    apply wp_commit; intros; try done; try (by apply Herr); (split; [done|]); apply lo_family; auto.
  - apply wp_RevokeSessionByID; [intros e m NC; by apply Herr|]. intros m.
    apply wp_commit; intros; try done; try (by apply Herr); (split; [done|]); apply lo_session; auto.
Qed.

(** Revoking one's own session. *)
Inductive session_ended (uid sid : string) (ev : env) (c : auth_db) : res auth_err unit -> auth_db -> Prop :=
| se_failed e : ~ calm ev -> session_ended uid sid ev c (Err e) c
| se_unknown : select_rows (fun s => has_key s_ID sid s && has_key s_UserID uid s && unrevoked_session s) (sessions c) = [] ->
    session_ended uid sid ev c (Err (Dom ErrNotFound)) c
| se_done r t : (r = Ok tt \/ ~ calm ev) ->
    session_ended uid sid ev c r
      (revoke_sessions (fun s => has_key s_ID sid s && has_key s_UserID uid s) "user_revoked" t c).

Lemma RevokeSession_outcome uid sid ev c n :
  wp (service_RevokeSession uid sid) ev (rest c n) (ended (session_ended uid sid ev c)).
Proof.
  unfold service_RevokeSession, RevokeSession, rest. apply wp_bind, wp_exec_pool. unfold update_rows.
  assert (forall l, List.find (fun _ : SessionRow => false) l = None) as -> by by induction l.
  change (rows sessions_t c) with (sessions c).
  split; [|split].
  - intros NC. split; [done|by apply se_failed].
  - intros NC. split; [done|]. apply (se_done uid sid ev c _ (clock ev n)). by right.
  - destruct (select_rows _ (sessions c)) as [|x l] eqn:S.
    + apply wp_throw. split; [done|]. cbn [map committed]. rewrite update_none.
      * change (put sessions_t (sessions c) c) with (mkAuthDb (users c) (sessions c) (refresh_tokens c) (user_roles c)
          (roles c) (permissions c) (role_permissions c) (devices c) (auth_outbox c)).
        destruct c. by apply se_unknown.
      * intros r Hr. destruct (_ && unrevoked_session r) eqn:X; [|done].
        assert (In r []) as []. rewrite <- S. by apply List.filter_In.
    + cbn [map]. apply wp_ret. split; [done|]. apply (se_done uid sid ev c _ (clock ev n)). by left.
Qed.
End Spec.

(** * A small world for the demonstrations of the auth theorems

    A JWT library whose tokens are the encoded claims, permissive texts, and a
    database with one account. *)
From stdpp Require Import countable.
#[local] Open Scope Z_scope.

(** ** A JWT library *)

Definition claims_tuple (c : Claims) :=
  (Issuer c, Audience c, Subject c, (IssuedAt c, NotBefore c, ExpiresAt c), jti c,
   (cl_UserID c, cl_SessionID c, cl_Roles c, cl_Permissions c, cl_ResidencyCountry c, cl_AccountType c)).

Definition tuple_claims t : Claims :=
  let '(i, a, s, (ia, nb, ex), j, (u, sid, r, p, rc, act)) := t in mkClaims i a s ia nb ex j u sid r p rc act.

#[export] Instance Claims_eq_dec : EqDecision Claims.
Proof. solve_decision. Defined.

#[export] Instance Claims_countable : Countable Claims.
Proof. apply (inj_countable' claims_tuple tuple_claims). by intros []. Defined.

#[export] Instance PublicKey_countable : Countable PublicKey.
Proof.
  apply (inj_countable' (fun k => (Curve k, key_X k, key_Y k)) (fun '(c, x, y) => mkPublicKey c x y)). by intros [].
Defined.

Fixpoint text_of_pos (p : positive) : string :=
  match p with
  | xH => "."
  | xO p => String "0"%char (text_of_pos p)
  | xI p => String "1"%char (text_of_pos p)
  end.

Fixpoint pos_of_text (s : string) : option positive :=
  match s with
  | EmptyString => None
  | String c s' =>
      if Ascii.eqb c "."%char then match s' with EmptyString => Some xH | _ => None end
      else if Ascii.eqb c "0"%char then option_map xO (pos_of_text s')
      else if Ascii.eqb c "1"%char then option_map xI (pos_of_text s') else None
  end.

Lemma pos_of_text_of_pos p : pos_of_text (text_of_pos p) = Some p.
Proof. induction p as [p IH|p IH|]; cbn; [by rewrite IH..|done]. Qed.

Definition toy_token (key : PublicKey) (kid : string) (c : Claims) : string := text_of_pos (countable.encode (key, kid, c)).

Definition toy_read (raw : string) : option (PublicKey * string * Claims) :=
  match pos_of_text raw with Some p => countable.decode p | None => None end.

Lemma toy_read_token key kid c : toy_read (toy_token key kid c) = Some (key, kid, c).
Proof. unfold toy_read, toy_token. by rewrite pos_of_text_of_pos, decode_encode. Qed.

Definition claims_ok (o : parser_options) (now : Z) (c : Claims) : bool :=
  String.eqb (Issuer c) (want_issuer o) && existsb (String.eqb (want_audience o)) (Audience c) &&
  (NotBefore c <=? now) && (now <? ExpiresAt c).

Lemma claims_ok_valid o now c : claims_ok o now c = true <-> claims_valid o now c.
Proof.
  unfold claims_ok, claims_valid. rewrite !andb_true_iff, String.eqb_eq, existsb_exists, Z.leb_le, Z.ltb_lt.
  split.
  - intros [[[H1 (x & Hx & ->%String.eqb_eq)] H3] H4]. tauto.
  - intros (H1 & H2 & H3 & H4). repeat split; try done. exists (want_audience o). by rewrite String.eqb_refl.
Qed.

#[export, refine] Instance toy_jwt : Jwt := {
  PrivateKey := PublicKey;
  public := fun k => k;
  SignedString := fun k kid c => Some (toy_token k kid c);
  ParseWithClaims := fun kf o now raw =>
    match toy_read raw with
    | Some (key, kid, c) =>
        if existsb (String.eqb "ES256") (ValidMethods o) && bool_decide (kf "ES256" kid = Some key) && claims_ok o now c
        then Some c else None
    | None => None
    end;
  Signed := fun key kid raw c => toy_read raw = Some (key, kid, c)
}.
Proof.
  - intros priv kid c raw [= <-]. apply toy_read_token.
  - intros kf o now raw c. destruct (toy_read raw) as [[[key kid] c']|] eqn:R; [|done].
    destruct (_ && _) eqn:X; [|done]. intros [= ->].
    apply andb_true_iff in X as [[X1 X2%bool_decide_eq_true]%andb_true_iff X3%claims_ok_valid].
    split; [done|]. exists "ES256", kid, key. repeat split; try done.
    apply existsb_exists in X1 as (x & Hx & ->%String.eqb_eq). done.
  - intros kf o now raw c kid key -> Hm Hk Hv%claims_ok_valid. rewrite Hv, bool_decide_eq_true_2 by done.
    assert (existsb (String.eqb "ES256") (ValidMethods o) = true) as ->; [|done].
    apply existsb_exists. exists "ES256". by rewrite String.eqb_refl.
Defined.

(** ** Parameters and environment *)

#[export] Instance toy_inet : PgInet := { inet_ok := fun _ => true; inet_host := fun s => s }.

#[export] Instance toy_argon2 : Argon2 := demo_argon2.

#[export] Instance toy_error_text : PgErrorText := plain_error_text.

Definition demo_key : PublicKey := mkPublicKey "P-256" 11 12.

Definition demo_config : Config :=
  mkConfig (900 * 1000000000) (3600 * 1000000000) (mkArgon2 64 1 1 4 8)
    (mkIssuer demo_key "auth-1" "https://auth.aizorix.com" "aizorix" (900 * 1000000000)).

(** A quiet run whose random bytes depend on the moment and on [seed]. *)
Definition random_env (seed : Z) : env :=
  Env (fun _ => false) (fun _ => false) (fun n => 1000 + Z.of_nat n)
    (fun n => ("id-" ++ marks (Z.to_nat seed) ++ "-" ++ marks n)%string)
    (fun n => Some (fun i => (seed * 31 + Z.of_nat n * 7 + Z.of_nat i) mod 256)).

(** The same with a clock that stands at [t]. *)
Definition still_env (seed t : Z) : env :=
  Env (fun _ => false) (fun _ => false) (fun _ => t) (gen_uuid (random_env seed)) (rand_read (random_env seed)).

Definition demo_roles : list (string * string) := seeded_roles ("r1", "r2", "r3", "r4", "r5").

(** The client alice registers. *)
Definition demo_registration : res auth_err Tokens * world auth_db :=
  Register demo_config "alice@example.org" "correct horse battery" "client" "DE" "en-US" "10.0.0.1" "firefox"
    (random_env 1) (rest (mkAuthDb [] [] [] [] demo_roles [] [] [] []) 0).

Definition demo_auth_db : auth_db := Eval vm_compute in committed (snd demo_registration).

Definition demo_raw : string := Eval vm_compute in
  match fst demo_registration with Ok t => RefreshToken t | Err _ => "" end.
