(* ===== verification/AuthProofs.v ===== *)
(** * What holds of accounts, sessions and refresh tokens

    An invariant of the reachable tables, and the life of a refresh token: once
    it cannot be redeemed, it never can be again.  Then the lockout of accounts
    and whom the tokens name. *)
From stdpp Require Import relations.
From S2P Require Export AuthSpec.

(** ** One change of the tables *)

(** What other services change: statuses (admin), devices (user), permissions. *)
Definition with_status (status : string -> string) (u : User) : User :=
  mkUser (u_ID u) (u_Email u) (u_PasswordHash u) (status (u_ID u)) (u_PrimaryType u) (u_EmailVerified u)
    (u_MFAEnabled u) (u_Residency u) (u_FailedLogins u) (u_LockedUntil u) (u_locale u) (u_last_login_at u)
    (u_deleted_at u).

Definition external (status : string -> string) (ps rps ds : list (string * string)) (d : auth_db) : auth_db :=
  mkAuthDb (map (with_status status) (users d)) (sessions d) (refresh_tokens d) (user_roles d) (roles d) ps rps ds
    (auth_outbox d).

Inductive auth_effect (d : auth_db) : auth_db -> Prop :=
| ae_account u rs : user_check (users d) u = None -> Forall (fun x => ur_user x = u_ID u) rs ->
    auth_effect d (add_user u rs d)
| ae_session uid s t : fresh_session uid s t d -> auth_effect d (add_session s t d)
| ae_event e t : auth_effect d (announce e t d)
| ae_failure id t : auth_effect d (failure_recorded id t d)
| ae_login id t : auth_effect d (login_recorded id t d)
| ae_rotate hash rt new t : lookup_token hash d = Some rt -> rt_UsedAt rt = None ->
    token_check (refresh_tokens d) new = None -> t_SessionID new = rt_SessionID rt ->
    t_UserID new = rt_UserID rt -> t_UsedAt new = None -> t_RevokedAt new = None ->
    auth_effect d (rotated (rt_ID rt) new t d)
| ae_family family reason t : auth_effect d (family_revoked family reason t d)
| ae_logout id reason t : auth_effect d (session_and_tokens_revoked id reason t d)
| ae_revoke p reason t : auth_effect d (revoke_sessions p reason t d)
| ae_external status ps rps ds : auth_effect d (external status ps rps ds d).

(** ** The operations *)

Inductive auth_call :=
| CRegister (email password acct resid locale ip ua : string)
| CLogin (email password ip ua : string)
| CRefresh (raw ip ua : string)
| CLogout (raw : string) (all : bool)
| CRevoke (uid sid : string).

Section Calls.
Context `{Jwt} `{Argon2} `{PgErrorText} `{PgInet} (cfg : Config).

Definition run_call (call : auth_call) : uprog unit :=
  match call with
  | CRegister email password acct resid locale ip ua =>
      Register cfg email password acct resid locale ip ua ;;; ret tt
  | CLogin email password ip ua => Login cfg email password ip ua ;;; ret tt
  | CRefresh raw ip ua => Refresh cfg raw ip ua ;;; ret tt
  | CLogout raw all => Logout raw all
  | CRevoke uid sid => service_RevokeSession uid sid
  end.

Definition after_call (call : auth_call) (ev : env) (d : auth_db) (n : nat) : auth_db :=
  committed (snd (run_call call ev (rest d n))).

Inductive auth_step (d : auth_db) : auth_db -> Prop :=
| as_call call ev n : auth_step d (after_call call ev d n)
| as_external status ps rps ds : auth_step d (external status ps rps ds d).

Definition later : auth_db -> auth_db -> Prop := rtc auth_step.

(** The tables after the migrations. *)
Definition seeded (rs ps : list (string * string)) : auth_db := mkAuthDb [] [] [] [] rs ps [] [] [].

Definition auth_reachable (d : auth_db) : Prop := exists rs ps, later (seeded rs ps) d.

Lemma wp_dropped {A} (p : uprog A) ev d n (Q : res auth_err A -> auth_db -> Prop) (P : auth_db -> Prop) :
  wp p ev (rest d n) (ended Q) -> (forall r d', Q r d' -> P d') ->
  P (committed (snd ((p ;;; ret tt) ev (rest d n)))).
Proof. unfold wp, bind. destruct (p ev (rest d n)) as [[a|e] w]; cbn; intros [_ HQ] HP; eauto. Qed.

Lemma registered_effects email acct ip d r d' : registered cfg email acct ip d r d' -> rtc auth_effect d d'.
Proof.
  destruct 1 as [e|r u rs s t toks e at_ HC _ _ _ Hrs Hfs _ _ _ _]; [apply rtc_refl|].
  eapply rtc_l; [apply ae_account; [done|by eapply Forall_impl; [exact Hrs|intros x []]]|]. eapply rtc_l; [by eapply ae_session|].
  eapply rtc_once. apply ae_event.
Qed.

Lemma logged_effects email password ip ev d r d' : logged cfg email password ip ev d r d' -> rtc auth_effect d d'.
Proof.
  destruct 1 as [e|u t|r u d1 d2 _ _ _ Hd1 Ho]; [apply rtc_refl|apply rtc_once, ae_failure|].
  assert (rtc auth_effect d d1) as Hfirst by (destruct Hd1 as [->|[t ->]]; [apply rtc_refl|apply rtc_once, ae_login]).
  transitivity d1; [done|]. destruct Ho as [e|r s t toks e at_ Hfs]; [apply rtc_refl|].
  eapply rtc_l; [by eapply ae_session|]. apply rtc_once, ae_event.
Qed.

Lemma refreshed_effects raw ev d r d' : refreshed cfg raw ev d r d' -> rtc auth_effect d d'.
Proof.
  destruct 1; try apply rtc_refl; apply rtc_once; [apply ae_family|by eapply ae_rotate].
Qed.

Lemma step_effects d d' : auth_step d d' -> rtc auth_effect d d'.
Proof.
  destruct 1 as [call ev n|]; [|apply rtc_once, ae_external]. unfold after_call.
  destruct call; cbn [run_call].
  - eapply wp_dropped; [apply Register_outcome|]. apply registered_effects.
  - eapply wp_dropped; [apply Login_outcome|]. apply logged_effects.
  - eapply wp_dropped; [apply Refresh_outcome|]. apply refreshed_effects.
  - destruct (Logout_outcome raw all ev d n) as [_ Ho]. destruct Ho; try apply rtc_refl; apply rtc_once.
    + apply ae_logout.
    + apply ae_family.
  - destruct (RevokeSession_outcome uid sid ev d n) as [_ Ho]. destruct Ho; try apply rtc_refl.
    apply rtc_once, ae_revoke.
Qed.

Lemma later_effects d d' : later d d' -> rtc auth_effect d d'.
Proof. induction 1 as [|x y z Hs _ IH]; [apply rtc_refl|]. transitivity y; [by apply step_effects|done]. Qed.
End Calls.

(** ** The invariant *)

Definition unused (t : TokenRow) : bool := match t_UsedAt t with None => true | Some _ => false end.

(** The unused tokens of a session. *)
Definition unused_of (sid : string) (d : auth_db) : Z :=
  countZ (fun t => has_key t_SessionID sid t && unused t) (refresh_tokens d).

Record auth_inv (d : auth_db) : Prop := {
  ai_users : keyed u_ID (users d);
  ai_emails : forall u1 u2, In u1 (users d) -> In u2 (users d) -> active u1 = true -> active u2 = true ->
    same_email (u_Email u1) (u_Email u2) = true -> u1 = u2;
  ai_sessions : keyed s_ID (sessions d);
  ai_tokens : keyed t_ID (refresh_tokens d);
  ai_hashes : List.NoDup (map t_hash (refresh_tokens d));
  ai_linked : forall t, In t (refresh_tokens d) ->
    exists s, In s (sessions d) /\ s_ID s = t_SessionID t /\ s_UserID s = t_UserID t;
  ai_owners : forall s, In s (sessions d) -> In (s_UserID s) (map u_ID (users d));
  ai_roles : forall r, In r (user_roles d) -> In (ur_user r) (map u_ID (users d));
  ai_one_unused : forall s, In s (sessions d) -> unused_of (s_ID s) d = 1
}.

Lemma auth_inv_seeded rs ps : auth_inv (seeded rs ps).
Proof. constructor; cbn; try done; try constructor. Qed.

(** ** Updates that keep what the invariant is about *)

Definition user_shape (u : User) := (u_ID u, u_Email u, active u).
Definition session_shape (s : SessionRow) := (s_ID s, s_UserID s).
Definition token_shape (t : TokenRow) := (t_ID t, t_hash t, t_SessionID t, t_UserID t, unused t).

Lemma map_shape_update {A B} (shape : A -> B) p f l :
  (forall r, shape (f r) = shape r) -> map shape (update_where p f l) = map shape l.
Proof. intros Hf. unfold update_where. rewrite map_map. apply map_ext. intros r. by destruct (p r); rewrite ?Hf. Qed.

Lemma In_shape {A B} (shape : A -> B) l l' x :
  map shape l' = map shape l -> In x l' -> exists y, In y l /\ shape y = shape x.
Proof. intros E Hx. apply (in_map shape) in Hx. rewrite E in Hx. apply in_map_iff in Hx as (y & ? & ?). eauto. Qed.

Lemma map_via {A B C} (shape : A -> B) (g : B -> C) (f : A -> C) l l' :
  (forall x, g (shape x) = f x) -> map shape l' = map shape l -> map f l' = map f l.
Proof.
  intros Hg E. rewrite <- (map_ext _ _ Hg l), <- (map_ext _ _ Hg l').
  by rewrite <- !(map_map shape g), E.
Qed.

Lemma auth_inv_shape d d' :
  map user_shape (users d') = map user_shape (users d) ->
  map session_shape (sessions d') = map session_shape (sessions d) ->
  map token_shape (refresh_tokens d') = map token_shape (refresh_tokens d) ->
  user_roles d' = user_roles d -> auth_inv d -> auth_inv d'.
Proof.
  intros Hu Hs Ht Hr [HU HE HS HT HH HL HO HR H1].
  assert (map u_ID (users d') = map u_ID (users d)) as Eu
    by (by apply (map_via user_shape (fun x => fst (fst x)))).
  assert (keyed u_ID (users d')) as HU' by (unfold keyed in *; by rewrite Eu).
  constructor.
  - done.
  - intros u1 u2 I1 I2 A1 A2 SE.
    destruct (In_shape _ _ _ _ Hu I1) as (v1 & J1 & [= D1 M1 B1]), (In_shape _ _ _ _ Hu I2) as (v2 & J2 & [= D2 M2 B2]).
    apply (keyed_inj u_ID (users d')); try done. rewrite <- D1, <- D2. f_equal. apply HE; congruence.
  - unfold keyed in *. by rewrite (map_via session_shape fst s_ID (sessions d) (sessions d')).
  - unfold keyed in *. by rewrite (map_via token_shape (fun x => fst (fst (fst (fst x)))) t_ID (refresh_tokens d)).
  - by rewrite (map_via token_shape (fun x => snd (fst (fst (fst x)))) t_hash (refresh_tokens d)).
  - intros t It. destruct (In_shape _ _ _ _ Ht It) as (t0 & It0 & [= _ _ E1 E2 _]).
    destruct (HL t0 It0) as (s0 & Is0 & F1 & F2). destruct (In_shape _ _ _ _ (eq_sym Hs) Is0) as (s & Is & [= G1 G2]).
    exists s. repeat split; congruence.
  - intros s Is. destruct (In_shape _ _ _ _ Hs Is) as (s0 & Is0 & [= _ G2]). rewrite <- G2, Eu. by apply HO.
  - intros r. rewrite Hr, Eu. apply HR.
  - intros s Is. destruct (In_shape _ _ _ _ Hs Is) as (s0 & Is0 & [= G1 _]). rewrite <- G1, <- (H1 s0 Is0).
    unfold unused_of, countZ.
    assert (forall l, sumZ (fun t => if has_key t_SessionID (s_ID s0) t && unused t then 1 else 0) l =
      sumZ (fun x => if String.eqb (snd (fst (fst x))) (s_ID s0) && snd x then 1 else 0) (map token_shape l)) as Hsum
      by (intros l; by rewrite sumZ_map).
    by rewrite !Hsum, Ht.
Qed.

(** ** Additions *)

Lemma user_check_new l u : user_check l u = None ->
  ~ In (u_ID u) (map u_ID l) /\
  forall x, In x l -> active x = true -> active u = true -> same_email (u_Email x) (u_Email u) = false.
Proof.
  unfold user_check. cbn [first_violation].
  destruct (unique_index "users_pkey" _ l u) eqn:U1; [done|].
  destruct (unique_index "uq_users_email_active" _ l u) eqn:U2; [done|]. intros _.
  rewrite unique_index_None in U1, U2. split.
  - intros (x & E & Hx)%in_map_iff. specialize (U1 x Hx). by rewrite E, String.eqb_refl in U1.
  - intros x Hx A1 A2. specialize (U2 x Hx). by rewrite A1, A2 in U2.
Qed.

Lemma session_check_new l s : session_check l s = None -> ~ In (s_ID s) (map s_ID l).
Proof.
  unfold session_check. rewrite unique_index_None. intros U (x & E & Hx)%in_map_iff. specialize (U x Hx).
  by rewrite E, String.eqb_refl in U.
Qed.

Lemma token_check_new l t : token_check l t = None ->
  ~ In (t_ID t) (map t_ID l) /\ ~ In (t_hash t) (map t_hash l).
Proof.
  unfold token_check. cbn [first_violation].
  destruct (unique_index "refresh_tokens_pkey" _ l t) eqn:U1; [done|].
  destruct (unique_index "uq_refresh_token_hash" _ l t) eqn:U2; [done|]. intros _.
  rewrite unique_index_None in U1, U2. split; intros (x & E & Hx)%in_map_iff.
  - specialize (U1 x Hx). by rewrite E, String.eqb_refl in U1.
  - specialize (U2 x Hx). unfold same_hash in U2. by rewrite bool_decide_eq_true_2 in U2.
Qed.

Lemma NoDup_snoc {A} (l : list A) x : List.NoDup l -> ~ In x l -> List.NoDup (l ++ [x]).
Proof.
  intros Hd Hn. apply List.NoDup_app; [done|repeat constructor; by intros []|]. by intros a Ha [<-|[]].
Qed.

Lemma auth_inv_user u rs d :
  user_check (users d) u = None -> Forall (fun x => ur_user x = u_ID u) rs -> auth_inv d -> auth_inv (add_user u rs d).
Proof.
  intros [Hn He]%user_check_new Hrs [HU HE HS HT HH HL HO HR H1].
  assert (forall x, In x (map u_ID (users d)) -> In x (map u_ID (users d ++ [u]))) as Hin
    by (intros x Hx; rewrite map_app; apply in_app_iff; by left).
  constructor; cbn [add_user users put users_t user_roles_t sessions refresh_tokens user_roles]; try done.
  - by apply keyed_snoc.
  - intros u1 u2 [I1|[<-|[]]]%in_app_iff [I2|[<-|[]]]%in_app_iff A1 A2 SE; auto.
    + by rewrite (He u1 I1 A1 A2) in SE.
    + assert (same_email (u_Email u2) (u_Email u) = true) as SE'.
      { unfold same_email in *. by rewrite String.eqb_sym. }
      by rewrite (He u2 I2 A2 A1) in SE'.
  - intros s Is. by apply Hin, HO.
  - intros r [Ir|Ir]%in_app_iff; [by apply Hin, HR|]. rewrite List.Forall_forall in Hrs. rewrite (Hrs r Ir), map_app.
    apply in_app_iff. right. by left.
Qed.

Lemma unused_snoc sid l t :
  countZ (fun t => has_key t_SessionID sid t && unused t) (l ++ [t]) =
  countZ (fun t => has_key t_SessionID sid t && unused t) l + (if has_key t_SessionID sid t && unused t then 1 else 0).
Proof. apply (countZ_snoc (fun t => has_key t_SessionID sid t && unused t)). Qed.

Lemma auth_inv_session uid s t d : fresh_session uid s t d -> auth_inv d -> auth_inv (add_session s t d).
Proof.
  intros [HCs HCt Hu Ho Hl Hk Hh Hun Hrv] [HU HE HS HT HH HL HO HR H1].
  apply session_check_new in HCs. apply token_check_new in HCt as [Hi Hha].
  constructor; cbn [add_session users put users_t sessions_t refresh_tokens_t sessions refresh_tokens user_roles]; try done.
  - by apply keyed_snoc.
  - by apply keyed_snoc.
  - rewrite map_app. by apply NoDup_snoc.
  - intros x [Ix|[<-|[]]]%in_app_iff.
    + destruct (HL x Ix) as (s0 & I0 & ?). exists s0. split; [apply in_app_iff; by left|done].
    + exists s. split; [apply in_app_iff; right; by left|]. by rewrite Hk, Hh.
  - intros x [Ix|[<-|[]]]%in_app_iff; [by apply HO|by rewrite Ho].
  - intros x [Ix|[<-|[]]]%in_app_iff; unfold unused_of; cbn [put sessions_t refresh_tokens_t refresh_tokens];
      rewrite unused_snoc.
    + unfold unused_of in H1. rewrite (H1 x Ix). unfold has_key. rewrite Hk.
      destruct (String.eqb_spec (s_ID s) (s_ID x)) as [E|]; [|done]. destruct HCs. rewrite E. by apply in_map.
    + unfold countZ. rewrite sumZ_zero_in.
      * unfold has_key, unused. by rewrite Hk, String.eqb_refl, Hun.
      * intros y Iy. destruct (has_key t_SessionID (s_ID s) y) eqn:K; [|done]. apply has_key_true in K.
        destruct (HL y Iy) as (s0 & I0 & E0 & _). destruct HCs. rewrite <- K, <- E0. by apply in_map.
Qed.

Lemma auth_inv_rotate hash rt new t d :
  lookup_token hash d = Some rt -> rt_UsedAt rt = None -> token_check (refresh_tokens d) new = None ->
  t_SessionID new = rt_SessionID rt -> t_UserID new = rt_UserID rt -> t_UsedAt new = None ->
  auth_inv d -> auth_inv (rotated (rt_ID rt) new t d).
Proof.
  intros HLk HUn [Hi Hha]%token_check_new Es Eu Hn [HU HE HS HT HH HL HO HR H1].
  unfold lookup_token in HLk. destruct (find_token hash d) as [tk|] eqn:F; [|done].
  apply List.find_some in F as [Itk _]. destruct (find_session _ d) as [s|]; [|done]. injection HLk as <-.
  cbn [refresh_token rt_ID rt_SessionID rt_UserID rt_UsedAt] in *.
  destruct (HL tk Itk) as (s0 & I0 & E0 & U0).
  assert (keyed t_ID (refresh_tokens d ++ [new])) as HT' by by apply keyed_snoc.
  constructor; cbn [rotated users put refresh_tokens_t sessions refresh_tokens user_roles]; try done.
  - by apply keyed_update.
  - rewrite map_shape_update by done. rewrite map_app. by apply NoDup_snoc.
  - intros x Hx. assert (exists y, In y (refresh_tokens d ++ [new]) /\ t_SessionID x = t_SessionID y /\
      t_UserID x = t_UserID y) as (y & Iy & -> & ->).
    { apply In_update in Hx as [[Hx _]|(y & Hy & _ & ->)]; [by exists x|by exists y]. }
    apply in_app_iff in Iy as [Iy|[<-|[]]]; [by apply HL|]. exists s0. by rewrite Es, Eu.
  - intros x Ix. unfold unused_of, rotated. cbn [put refresh_tokens_t refresh_tokens]. unfold countZ.
    rewrite (sumZ_update t_ID _ _ _ tk); [|done|].
    2:{ rewrite find_key_app. by rewrite (keyed_find t_ID). }
    fold (countZ (fun t => has_key t_SessionID (s_ID x) t && unused t) (refresh_tokens d ++ [new])).
    rewrite unused_snoc. specialize (H1 x Ix). unfold unused_of in H1. rewrite H1.
    unfold has_key. cbn [token_used t_SessionID]. unfold unused. cbn [t_UsedAt token_used].
    rewrite HUn, Hn, Es. destruct (String.eqb (t_SessionID tk) (s_ID x)); done.
Qed.

Lemma auth_inv_effect d d' : auth_inv d -> auth_effect d d' -> auth_inv d'.
Proof.
  intros HI. destruct 1 as [u rs HC Hrs|uid s t Hfs|e t|id t|id t|hash rt new t HL HUn HC Es Eu Hn Hv|family reason t
    |id reason t|p reason t|status ps rps ds].
  - by apply auth_inv_user.
  - by eapply auth_inv_session.
  - by apply (auth_inv_shape d).
  - apply (auth_inv_shape d); try done. by apply map_shape_update.
  - apply (auth_inv_shape d); try done. by apply map_shape_update.
  - by eapply auth_inv_rotate.
  - apply (auth_inv_shape d); try done; by apply map_shape_update.
  - apply (auth_inv_shape d); try done; by apply map_shape_update.
  - apply (auth_inv_shape d); try done. by apply map_shape_update.
  - apply (auth_inv_shape d); try done. cbn. rewrite map_map. by apply map_ext.
Qed.

(** ** The life of a refresh token *)

(** The token can still be redeemed: it is unused, neither it nor its session
    is revoked. *)
Definition redeemable (hash : list Z) (d : auth_db) : bool :=
  match find_token hash d with
  | Some t => unused t && unrevoked_token t &&
              match find_session (t_SessionID t) d with Some s => unrevoked_session s | None => false end
  | None => false
  end.

Definition known (hash : list Z) (d : auth_db) : Prop := find_token hash d <> None.

Lemma find_update {R} (q p : R -> bool) f l :
  (forall r, q (f r) = q r) ->
  List.find q (update_where p f l) = option_map (fun r => if p r then f r else r) (List.find q l).
Proof.
  intros Hf. induction l as [|x l IH]; cbn; [done|].
  assert (q (if p x then f x else x) = q x) as -> by (destruct (p x); by rewrite ?Hf).
  by destruct (q x).
Qed.

Lemma find_app_some {R} (q : R -> bool) l1 l2 x : List.find q l1 = Some x -> List.find q (l1 ++ l2) = Some x.
Proof. induction l1 as [|y l1 IH]; cbn; [done|]. by destruct (q y). Qed.

(** Dead stays dead, and known stays known, over a change of both tables that
    only updates the rows there are, never reviving one, or appends rows. *)
Lemma stays_dead hash d d' (ft : TokenRow -> TokenRow) (fs : SessionRow -> SessionRow) :
  (forall t, find_token hash d = Some t -> find_token hash d' = Some (ft t)) ->
  (forall t, t_SessionID (ft t) = t_SessionID t /\
     (unused (ft t) && unrevoked_token (ft t) = true -> unused t && unrevoked_token t = true)) ->
  (forall t s, find_token hash d = Some t -> find_session (t_SessionID t) d = Some s ->
     find_session (t_SessionID t) d' = Some (fs s)) ->
  (forall s, unrevoked_session (fs s) = true -> unrevoked_session s = true) ->
  (forall t, find_token hash d = Some t -> find_session (t_SessionID t) d <> None) ->
  known hash d -> known hash d' /\ (redeemable hash d = false -> redeemable hash d' = false).
Proof.
  intros Hft Ht Hfs Hs Hl HK. unfold known, redeemable in *.
  destruct (find_token hash d) as [t|] eqn:F; [|done]. rewrite (Hft t eq_refl). split; [done|].
  destruct (Ht t) as [-> Hdead]. destruct (find_session (t_SessionID t) d) as [s|] eqn:FS; [|by destruct (Hl t)].
  rewrite (Hfs t s eq_refl FS). intros D. apply not_true_iff_false. intros [A B]%andb_true_iff.
  apply Hdead in A. apply Hs in B. by rewrite A, B in D.
Qed.

Lemma linked_session hash d t : auth_inv d -> find_token hash d = Some t -> find_session (t_SessionID t) d <> None.
Proof.
  intros HI F. apply List.find_some in F as [Ht _]. destruct (ai_linked d HI t Ht) as (s & Hs & E & _).
  unfold find_session. rewrite <- E. by rewrite (keyed_find s_ID) by (apply HI || done).
Qed.

Lemma find_session_update id p f d d' :
  (forall s, s_ID (f s) = s_ID s) -> sessions d' = update_where p f (sessions d) ->
  find_session id d' = option_map (fun r => if p r then f r else r) (find_session id d).
Proof.
  intros Hf E. unfold find_session. rewrite E. apply find_update. intros r. unfold has_key. by rewrite Hf.
Qed.

Lemma find_token_update h p f d d' :
  (forall t, t_hash (f t) = t_hash t) -> refresh_tokens d' = update_where p f (refresh_tokens d) ->
  find_token h d' = option_map (fun r => if p r then f r else r) (find_token h d).
Proof.
  intros Hf E. unfold find_token. rewrite E. apply find_update. intros r. unfold same_hash. by rewrite Hf.
Qed.

Lemma dead_effect hash d d' :
  auth_inv d -> auth_effect d d' -> known hash d ->
  known hash d' /\ (redeemable hash d = false -> redeemable hash d' = false).
Proof.
  intros HI HE HK. pose proof (fun t => linked_session hash d t HI) as Hl.
  destruct HE as [u rs HC Hrs|uid s t Hfs|e t|id t|id t|h rt new t HL HUn HC Es Eu Hn Hv|family reason t
    |id reason t|p reason t|status ps rps ds]; try done.
  - apply (stays_dead hash d _ id id); try done.
    + intros x F. by apply find_app_some.
    + intros x y F FS. by apply find_app_some.
  - set (d' := rotated _ _ _ _).
    apply (stays_dead hash d _ (fun x => if has_key t_ID (rt_ID rt) x then token_used t (t_ID new) x else x) id); try done.
    + intros x F. unfold find_token, d', rotated. cbn [put refresh_tokens_t refresh_tokens].
      rewrite find_update by done. by rewrite (find_app_some _ _ _ x).
    + intros x. destruct (has_key t_ID (rt_ID rt) x); split; done.
  - set (d1 := revoke_sessions (has_key s_FamilyID family) reason t d).
    apply (stays_dead hash d _
      (fun x => if in_family family (sessions d1) x && unrevoked_token x then token_revoked t x else x)
      (fun x => if has_key s_FamilyID family x && unrevoked_session x then session_revoked reason t x else x)); try done.
    + intros x F. rewrite (find_token_update hash (fun x => in_family family (sessions d1) x && unrevoked_token x)
        (token_revoked t) d) by done. by rewrite F.
    + intros x. destruct (_ && _); split; try done. cbn. by rewrite andb_false_r.
    + intros x y F FS. rewrite (find_session_update _ (fun x => has_key s_FamilyID family x && unrevoked_session x)
        (session_revoked reason t) d) by done. by rewrite FS.
    + intros x. by destruct (_ && _).
  - apply (stays_dead hash d _
      (fun x => if has_key t_SessionID id x && unrevoked_token x then token_revoked t x else x)
      (fun x => if has_key s_ID id x && unrevoked_session x then session_revoked reason t x else x)); try done.
    + intros x F. rewrite (find_token_update hash (fun x => has_key t_SessionID id x && unrevoked_token x)
        (token_revoked t) d) by done. by rewrite F.
    + intros x. destruct (_ && _); split; try done. cbn. by rewrite andb_false_r.
    + intros x y F FS. rewrite (find_session_update _ (fun x => has_key s_ID id x && unrevoked_session x)
        (session_revoked reason t) d) by done. by rewrite FS.
    + intros x. by destruct (_ && _).
  - apply (stays_dead hash d _ (fun x => x)
      (fun x => if p x && unrevoked_session x then session_revoked reason t x else x)); try done.
    + intros x y F FS. rewrite (find_session_update _ (fun x => p x && unrevoked_session x)
        (session_revoked reason t) d) by done. by rewrite FS.
    + intros x. by destruct (_ && _).
Qed.

Lemma dead_forever hash d d' :
  rtc auth_effect d d' -> auth_inv d -> known hash d -> redeemable hash d = false ->
  auth_inv d' /\ known hash d' /\ redeemable hash d' = false.
Proof.
  induction 1 as [|x y z Hs _ IH]; [done|]. intros HI HK HR.
  destruct (dead_effect hash x y HI Hs HK) as [HK' HR']. apply IH; auto. by eapply auth_inv_effect.
Qed.

Section Theorems.
Context `{Jwt} `{Argon2} `{PgErrorText} `{PgInet} (cfg : Config).

Lemma auth_reachable_inv d : auth_reachable cfg d -> auth_inv d.
Proof.
  intros (rs & ps & Hl%later_effects). pose proof (auth_inv_seeded rs ps) as HI. revert HI.
  induction Hl as [|x y z Hs _ IH]; [done|]. intros HI. apply IH. by eapply auth_inv_effect.
Qed.

Lemma reachable_later d d' : auth_reachable cfg d -> later cfg d d' -> auth_reachable cfg d'.
Proof. intros (rs & ps & Hl) Hl'. exists rs, ps. by transitivity d. Qed.

Lemma lookup_found hash rt d : lookup_token hash d = Some rt ->
  exists t s, find_token hash d = Some t /\ find_session (t_SessionID t) d = Some s /\ rt = refresh_token t s.
Proof.
  unfold lookup_token. destruct (find_token hash d) as [t|]; [|done].
  destruct (find_session _ d) as [s|] eqn:F; [|done]. intros [= <-]. eauto.
Qed.

(** A refresh that answers tokens redeemed a redeemable token, which is then
    used. *)
Lemma refreshed_ok raw ev d toks d' :
  auth_inv d -> refreshed cfg raw ev d (Ok toks) d' ->
  redeemable (sha256Sum raw) d = true /\ known (sha256Sum raw) d' /\ redeemable (sha256Sum raw) d' = false.
Proof.
  intros HI HR. inversion HR as [| | | | | | |r rt s new toks' t HL HRv HUn _ HS HN HC _ Es _ _ _ _ _ _ _ Er Ed]; subst.
  destruct (lookup_found _ _ _ HL) as (tk & s' & F & FS & ->).
  cbn [refresh_token rt_RevokedAt rt_UsedAt rt_SessionID rt_ID] in *.
  rewrite FS in HS. injection HS as <-. split.
  - unfold redeemable. rewrite F, FS. unfold unused, unrevoked_token. by rewrite HUn, HRv, HN.
  - assert (find_token (sha256Sum raw) (rotated (t_ID tk) new t d) = Some (token_used t (t_ID new) tk)) as F'.
    { unfold find_token, rotated. cbn [put refresh_tokens_t refresh_tokens]. rewrite find_update by done.
      rewrite (find_app_some _ _ _ tk F). cbn [option_map]. by rewrite has_key_refl. }
    unfold known, redeemable. by rewrite F'.
Qed.

Lemma Refresh_committed raw ip ua ev d n r w :
  Refresh cfg raw ip ua ev (rest d n) = (r, w) -> refreshed cfg raw ev d r (committed w).
Proof. intros E. pose proof (Refresh_outcome cfg raw ip ua ev d n) as O. unfold wp in O. rewrite E in O. apply O. Qed.

(** C14: A refresh token is redeemed at most once: after a refresh answered new
    tokens for it, no refresh of it ever answers tokens again, whatever is
    called in between and whatever fails. *)
Theorem refresh_token_redeemed_once raw ip ua ev n d toks w d2 ip' ua' ev' n'
    (Hd : auth_reachable cfg d)
    (Hfirst : Refresh cfg raw ip ua ev (rest d n) = (Ok toks, w))
    (Hlater : later cfg (committed w) d2) :
  is_ok (fst (Refresh cfg raw ip' ua' ev' (rest d2 n'))) = false.
Proof.
  pose proof (auth_reachable_inv d Hd) as HI. apply Refresh_committed in Hfirst.
  destruct (refreshed_ok raw ev d toks _ HI Hfirst) as (_ & HK & HR).
  assert (auth_inv (committed w)) as HI1.
  { apply refreshed_effects in Hfirst. clear -HI Hfirst.
    induction Hfirst as [|x y z Hs _ IH]; [done|]. apply IH. by eapply auth_inv_effect. }
  destruct (dead_forever _ _ _ (later_effects cfg _ _ Hlater) HI1 HK HR) as (HI2 & _ & HR2).
  destruct (Refresh cfg raw ip' ua' ev' (rest d2 n')) as [[toks2|e] w2] eqn:R2; [|done].
  apply Refresh_committed in R2. destruct (refreshed_ok raw ev' d2 toks2 _ HI2 R2) as (HT & _). congruence.
Qed.

Lemma auth_inv_later d d' : auth_inv d -> rtc auth_effect d d' -> auth_inv d'.
Proof. intros HI. induction 1 as [|x y z Hs _ IH]; [done|]. apply IH. by eapply auth_inv_effect. Qed.

(** ** Revoked sessions *)

(** A token of a revoked session is never redeemed. *)
Lemma dead_session_never_refreshes raw t s d d2 :
  auth_inv d -> find_token (sha256Sum raw) d = Some t -> find_session (t_SessionID t) d = Some s ->
  unrevoked_session s = false -> later cfg d d2 ->
  forall ip ua ev n, is_ok (fst (Refresh cfg raw ip ua ev (rest d2 n))) = false.
Proof.
  intros HI F FS HN Hl ip ua ev n.
  assert (known (sha256Sum raw) d) as HK by (unfold known; by rewrite F).
  assert (redeemable (sha256Sum raw) d = false) as HR by (unfold redeemable; by rewrite F, FS, HN, andb_false_r).
  destruct (dead_forever _ _ _ (later_effects cfg _ _ Hl) HI HK HR) as (HI2 & _ & HR2).
  destruct (Refresh cfg raw ip ua ev (rest d2 n)) as [[toks|e] w] eqn:R; [|done].
  apply Refresh_committed in R. destruct (refreshed_ok raw ev d2 toks _ HI2 R) as (HT & _). congruence.
Qed.

(** What a calm refresh of a used token leaves. *)
Lemma reuse_revokes raw rt ev d r d' :
  lookup_token (sha256Sum raw) d = Some rt -> rt_UsedAt rt <> None -> rt_RevokedAt rt = None ->
  (forall k, clock ev k <= rt_ExpiresAt rt) -> calm ev -> refreshed cfg raw ev d r d' ->
  r = Err (Dom ErrTokenReuse) /\ exists t, d' = family_revoked (rt_FamilyID rt) "refresh_token_reuse" t d.
Proof.
  intros Hrt Hused Hlive Htime Hcalm HR. destruct HR as [e NC|HL|rt0 k HL HX|rt0 t HL|rt0 HL HU NC
    |rt0 s HL HS HU HN|rt0 e HL HU|r rt0 s new toks t HL HV HU]; try (by destruct (NC Hcalm));
    rewrite Hrt in HL; try done; injection HL as <-; try congruence.
  - destruct HX as [?|HX]; [done|]. specialize (Htime k). lia.
  - split; [done|]. by exists t.
Qed.

(** The sessions of a burned family are revoked. *)
Lemma family_revoked_sessions family reason t d id s :
  find_session id d = Some s -> s_FamilyID s = family ->
  exists s', find_session id (family_revoked family reason t d) = Some s' /\ unrevoked_session s' = false.
Proof.
  intros F E. rewrite (find_session_update id (fun x => has_key s_FamilyID family x && unrevoked_session x)
    (session_revoked reason t) d) by done.
  rewrite F. cbn [option_map]. unfold has_key. rewrite E, String.eqb_refl. cbn [andb].
  destruct (unrevoked_session s) eqn:N; eexists; by split.
Qed.

Lemma family_revoked_token family reason t d h tk :
  find_token h d = Some tk ->
  exists tk', find_token h (family_revoked family reason t d) = Some tk' /\ t_SessionID tk' = t_SessionID tk.
Proof.
  intros F. set (d1 := revoke_sessions (has_key s_FamilyID family) reason t d).
  rewrite (find_token_update h (fun x => in_family family (sessions d1) x && unrevoked_token x)
    (token_revoked t) d) by done. rewrite F. cbn [option_map]. destruct (_ && _); by eexists.
Qed.

(** C15: Presenting a refresh token that was already used burns its family: the
    call reports the reuse, and from then on no token of any session of the
    family ever answers tokens again, whatever is called. *)
Theorem reuse_burns_family raw rt ip ua ev n d
    (Hd : auth_reachable cfg d)
    (Hrt : lookup_token (sha256Sum raw) d = Some rt)
    (Hused : rt_UsedAt rt <> None) (Hlive : rt_RevokedAt rt = None)
    (Htime : forall k, clock ev k <= rt_ExpiresAt rt) (Hcalm : calm ev) :
  let '(r, w) := Refresh cfg raw ip ua ev (rest d n) in
  r = Err (Dom ErrTokenReuse) /\
  forall raw' rt' d2, lookup_token (sha256Sum raw') d = Some rt' -> rt_FamilyID rt' = rt_FamilyID rt ->
    later cfg (committed w) d2 ->
    forall ip' ua' ev' n', is_ok (fst (Refresh cfg raw' ip' ua' ev' (rest d2 n'))) = false.
Proof.
  destruct (Refresh cfg raw ip ua ev (rest d n)) as [r w] eqn:R. apply Refresh_committed in R.
  pose proof (auth_reachable_inv d Hd) as HI.
  assert (auth_inv (committed w)) as HI' by (apply (auth_inv_later d); [done|by eapply refreshed_effects]).
  destruct (reuse_revokes _ _ _ _ _ _ Hrt Hused Hlive Htime Hcalm R) as (-> & t & Ew). split; [done|].
  intros raw' rt' d2 Hrt' Hfam Hl. destruct (lookup_found _ _ _ Hrt') as (tk & s & F & FS & ->).
  cbn [refresh_token rt_FamilyID] in Hfam. rewrite Ew in *.
  destruct (family_revoked_token (rt_FamilyID rt) "refresh_token_reuse" t d _ _ F) as (tk' & F' & E').
  destruct (family_revoked_sessions (rt_FamilyID rt) "refresh_token_reuse" t d _ _ FS Hfam) as (s' & FS' & N').
  rewrite <- E' in FS'. by apply (dead_session_never_refreshes raw' tk' s' (family_revoked (rt_FamilyID rt) "refresh_token_reuse" t d)).
Qed.

Lemma logout_sessions id reason t d s :
  find_session id d = Some s ->
  exists s', find_session id (session_and_tokens_revoked id reason t d) = Some s' /\ unrevoked_session s' = false.
Proof.
  intros F. rewrite (find_session_update id (fun x => has_key s_ID id x && unrevoked_session x)
    (session_revoked reason t) d) by done.
  rewrite F. apply find_key_In in F as [_ E]. cbn [option_map]. unfold has_key. rewrite E, String.eqb_refl.
  cbn [andb]. destruct (unrevoked_session s) eqn:N; eexists; by split.
Qed.

Lemma logout_token id reason t d h tk :
  find_token h d = Some tk ->
  exists tk', find_token h (session_and_tokens_revoked id reason t d) = Some tk' /\ t_SessionID tk' = t_SessionID tk.
Proof.
  intros F. rewrite (find_token_update h (fun x => has_key t_SessionID id x && unrevoked_token x)
    (token_revoked t) d) by done. rewrite F. cbn [option_map]. destruct (_ && _); by eexists.
Qed.

(** After an undisturbed logout no token of the session ever answers tokens
    again; with all_sessions, none of the family. *)
Theorem logout_ends_session raw (all : bool) rt ev n d
    (Hd : auth_reachable cfg d) (Hraw : raw <> "")
    (Hrt : lookup_token (sha256Sum raw) d = Some rt) (Hcalm : calm ev) :
  let '(r, w) := Logout raw all ev (rest d n) in
  r = Ok tt /\
  forall raw' rt' d2, lookup_token (sha256Sum raw') d = Some rt' ->
    (if all then rt_FamilyID rt' = rt_FamilyID rt else rt_SessionID rt' = rt_SessionID rt) ->
    later cfg (committed w) d2 ->
    forall ip' ua' ev' n', is_ok (fst (Refresh cfg raw' ip' ua' ev' (rest d2 n'))) = false.
Proof.
  pose proof (auth_reachable_inv d Hd) as HI.
  assert (auth_inv (committed (snd (Logout raw all ev (rest d n))))) as HI'
    by (apply (auth_inv_later d); [done|apply (step_effects cfg), (as_call cfg d (CLogout raw all) ev n)]).
  pose proof (Logout_outcome raw all ev d n) as O. unfold wp in O.
  destruct (Logout raw all ev (rest d n)) as [r w]. cbn [fst snd] in *. destruct O as [_ O].
  destruct O as [e NC|[?|HL]|r rt0 t HL -> Hr|r rt0 t HL -> Hr]; try (by destruct (NC Hcalm)); try congruence;
    rewrite Hrt in HL; injection HL as <-;
    (split; [by destruct Hr|]); intros raw' rt' d2 Hrt' Hsame Hl;
    destruct (lookup_found _ _ _ Hrt') as (tk & s & F & FS & ->);
    cbn [refresh_token rt_FamilyID rt_SessionID] in Hsame.
  - destruct (logout_token (rt_SessionID rt) "user_logout" t d _ _ F) as (tk' & F' & E').
    rewrite Hsame in FS. destruct (logout_sessions (rt_SessionID rt) "user_logout" t d _ FS) as (s' & FS' & N').
    eapply dead_session_never_refreshes; [done|exact F'| |exact N'|exact Hl]. by rewrite E', Hsame.
  - destruct (family_revoked_token (rt_FamilyID rt) "user_logout_all" t d _ _ F) as (tk' & F' & E').
    destruct (family_revoked_sessions (rt_FamilyID rt) "user_logout_all" t d _ _ FS Hsame) as (s' & FS' & N').
    rewrite <- E' in FS'. eapply dead_session_never_refreshes; [done|exact F'|exact FS'|exact N'|exact Hl].
Qed.
End Theorems.

(** ** The demonstration *)

Definition register_alice : auth_call :=
  CRegister "alice@example.org" "correct horse battery" "client" "DE" "en-US" "10.0.0.1" "firefox".

Lemma later_call `{Jwt} `{Argon2} `{PgErrorText} `{PgInet} (cfg : Config) call ev n d d' d2 :
  after_call cfg call ev d n = d' -> later cfg d' d2 -> later cfg d d2.
Proof. intros <- Hl. eapply rtc_l; [constructor|done]. Qed.

Lemma alice_reachable : auth_reachable demo_config demo_auth_db.
Proof.
  exists demo_roles, []. eapply (later_call demo_config register_alice (random_env 1) 0); [by vm_compute|apply rtc_refl].
Qed.

Lemma random_env_calm seed : calm (random_env seed).
Proof. by intros n. Qed.

Lemma still_env_calm seed t : calm (still_env seed t).
Proof. by intros n. Qed.

(** Alice redeems her token. *)
Definition first_refresh : res auth_err Tokens * world auth_db :=
  Refresh demo_config demo_raw "10.0.0.1" "firefox" (still_env 2 5000) (rest demo_auth_db 0).

Definition second_tokens : Tokens :=
  match fst first_refresh with Ok t => t | Err _ => mkTokens "" "" 0 "" end.

Definition second_raw : string := Eval vm_compute in RefreshToken second_tokens.

Definition refreshed_db : auth_db := Eval vm_compute in committed (snd first_refresh).

Lemma first_refresh_ok : first_refresh = (Ok second_tokens, World refreshed_db NoTx 13).
Proof. by vm_compute. Qed.

Lemma refreshed_reachable : auth_reachable demo_config refreshed_db.
Proof.
  eapply reachable_later; [apply alice_reachable|].
  eapply (later_call demo_config (CRefresh demo_raw "10.0.0.1" "firefox") (still_env 2 5000) 0); [by vm_compute|apply rtc_refl].
Qed.

Definition reused_token : AuthStore.RefreshToken := Eval vm_compute in
  default (mkRefreshToken "" "" "" "" None None 0) (lookup_token (sha256Sum demo_raw) refreshed_db).

Definition second_token : AuthStore.RefreshToken := Eval vm_compute in
  default (mkRefreshToken "" "" "" "" None None 0) (lookup_token (sha256Sum second_raw) refreshed_db).

Example refresh_token_redeemed_once_witness :
  is_ok (fst (Refresh demo_config demo_raw "10.0.0.1" "firefox" (random_env 3) (rest refreshed_db 0))) = false.
Proof.
  exact (refresh_token_redeemed_once demo_config demo_raw "10.0.0.1" "firefox" (still_env 2 5000) 0 demo_auth_db
    second_tokens (World refreshed_db NoTx 13) refreshed_db "10.0.0.1" "firefox" (random_env 3) 0
    alice_reachable first_refresh_ok (rtc_refl _ _)).
Defined.

Example reuse_burns_family_witness :
  let '(r, w) := Refresh demo_config demo_raw "10.0.0.1" "firefox" (still_env 3 6000) (rest refreshed_db 0) in
  r = Err (Dom ErrTokenReuse) /\
  forall raw' rt' d2, lookup_token (sha256Sum raw') refreshed_db = Some rt' -> rt_FamilyID rt' = rt_FamilyID reused_token ->
    later demo_config (committed w) d2 ->
    forall ip' ua' ev' n', is_ok (fst (Refresh demo_config raw' ip' ua' ev' (rest d2 n'))) = false.
Proof.
  apply (reuse_burns_family demo_config demo_raw reused_token "10.0.0.1" "firefox" (still_env 3 6000) 0 refreshed_db).
  - apply refreshed_reachable.
  - by vm_compute.
  - discriminate.
  - reflexivity.
  - intros k. by vm_compute.
  - apply still_env_calm.
Defined.

Example logout_ends_session_witness :
  let '(r, w) := Logout second_raw false (random_env 3) (rest refreshed_db 0) in
  r = Ok tt /\
  forall raw' rt' d2, lookup_token (sha256Sum raw') refreshed_db = Some rt' -> rt_SessionID rt' = rt_SessionID second_token ->
    later demo_config (committed w) d2 ->
    forall ip' ua' ev' n', is_ok (fst (Refresh demo_config raw' ip' ua' ev' (rest d2 n'))) = false.
Proof.
  apply (logout_ends_session demo_config second_raw false second_token (random_env 3) 0 refreshed_db).
  - apply refreshed_reachable.
  - discriminate.
  - by vm_compute.
  - apply random_env_calm.
Defined.

(** * Lockout, and whom the tokens name

    Five failures lock an account for a quarter of an hour, and every access
    token the service answers verifies to the claims of its holder's session. *)
Section Lockout.
Context `{Jwt} `{Argon2} `{PgErrorText} `{PgInet} (cfg : Config).

(** ** Logins of a locked account, and failing ones *)

Definition before (limit : Z) (ev : env) : Prop := forall k, clock ev k < limit.

(** The account of the address is locked until that time. *)
Definition locked_until (email : string) (until : Z) (d : auth_db) : Prop :=
  exists u, account_of email d = Some u /\ u_LockedUntil u = Some until.

Lemma wp_login_account email password ip ua u ev c n (Q : res auth_err Tokens -> world auth_db -> Prop) :
  account_of email c = Some u ->
  (~ calm ev -> Q (Err (Db Driver)) (World c NoTx (S n))) ->
  wp (locked <- (match u_LockedUntil u with
                 | None => ret false
                 | Some until => t <- time_now ;; ret (t <? until)
                 end) ;;
      if locked : bool then fail ErrAccountLocked else
      match VerifyPassword password (u_PasswordHash u) with
      | Some true =>
          attempt (RecordLoginSuccess (u_ID u)) ;;;
          login_session cfg u ip ua
      | _ =>
          attempt (RecordLoginFailure (u_ID u) lockoutThreshold lockoutDuration) ;;;
          fail ErrInvalidCredentials
      end) ev (World c NoTx (S n)) Q ->
  wp (Login cfg email password ip ua) ev (World c NoTx n) Q.
Proof.
  intros F Hf Hgo. unfold Login, GetUserByEmail. apply wp_bind, wp_attempt, wp_bind.
  apply (wp_pool_read _ (account_of email c)); [done|intros NC; by apply wp_throw, Hf|].
  rewrite F. apply wp_ret. exact Hgo.
Qed.

Lemma locked_login email until password ip ua ev c n :
  locked_until email until c -> before until ev ->
  wp (Login cfg email password ip ua) ev (rest c n) (fun r w => committed w = c /\ is_ok r = false /\
    (calm ev -> r = Err (Dom ErrAccountLocked))).
Proof.
  intros (u & F & L) Hb. apply (wp_login_account email password ip ua u); [done| |]; [done|].
  rewrite L. apply wp_bind, wp_bind, wp_time_now, wp_ret.
  destruct (Z.ltb_spec (clock ev (S n)) until); [by apply wp_throw|]. specialize (Hb (S n)). lia.
Qed.

(** An undisturbed login was refused and the failure recorded. *)
Definition failure_kept (u : User) (ev : env) (c : auth_db) (r : res auth_err Tokens) (w : world auth_db) : Prop :=
  calm ev -> r = Err (Dom ErrInvalidCredentials) /\
    exists k, committed w = failure_recorded (u_ID u) (clock ev k) c.

Lemma select_user u c : auth_inv c -> In u (users c) -> select_rows (has_key u_ID (u_ID u)) (users c) = [u].
Proof.
  intros HI Hu. apply (select_one_row u_ID); [apply HI|done|apply has_key_refl|]. by intros x E%has_key_true.
Qed.

Lemma wp_failure_kept u ev c n :
  auth_inv c -> In u (users c) -> in_int32 (u_FailedLogins u + 1) = true ->
  wp (attempt (RecordLoginFailure (u_ID u) lockoutThreshold lockoutDuration) ;;; (fail ErrInvalidCredentials : uprog Tokens))
    ev (World c NoTx n) (failure_kept u ev c).
Proof.
  intros HI Hu Hr. apply wp_bind, wp_attempt. unfold RecordLoginFailure. apply wp_bind, wp_exec_pool.
  unfold update_rows. change (rows users_t c) with (users c). rewrite select_user by done.
  cbn [map List.find failed_login u_FailedLogins]. rewrite Hr. split; [|split].
  - intros NC. apply wp_throw. by intros C; destruct (NC C).
  - intros NC. apply wp_throw. by intros C; destruct (NC C).
  - apply wp_ret, wp_throw. intros _. split; [done|]. by exists n.
Qed.

Lemma account_of_In email c u : account_of email c = Some u -> In u (users c).
Proof. intros F. by apply List.find_some in F as [? _]. Qed.

Lemma wrong_password_login email password ip ua u ev c n :
  auth_inv c -> account_of email c = Some u ->
  (forall until, u_LockedUntil u = Some until -> forall k, until <= clock ev k) ->
  VerifyPassword password (u_PasswordHash u) <> Some true -> in_int32 (u_FailedLogins u + 1) = true ->
  wp (Login cfg email password ip ua) ev (rest c n) (failure_kept u ev c).
Proof.
  intros HI F Hl V Hr. pose proof (account_of_In _ _ _ F) as Hu.
  apply (wp_login_account email password ip ua u); [done|by intros NC C; destruct (NC C)|].
  apply wp_bind. destruct (u_LockedUntil u) as [until|] eqn:L.
  - apply wp_bind, wp_time_now, wp_ret. specialize (Hl until eq_refl (S n)).
    destruct (Z.ltb_spec (clock ev (S n)) until); [lia|].
    destruct (VerifyPassword _ _) as [[]|]; [done|by apply wp_failure_kept..].
  - apply wp_ret. destruct (VerifyPassword _ _) as [[]|]; [done|by apply wp_failure_kept..].
Qed.
(** ** While the lock lasts *)

(** The steps whose clocks stay below the limit. *)
Inductive step_before (limit : Z) (d : auth_db) : auth_db -> Prop :=
| sb_call call ev n : before limit ev -> step_before limit d (after_call cfg call ev d n)
| sb_external status ps rps ds : step_before limit d (external status ps rps ds d).

(** What a change of the accounts may do to a locked one. *)
Inductive users_effect (until : Z) (l : list User) : list User -> Prop :=
| ue_same : users_effect until l l
| ue_new u : users_effect until l (l ++ [u])
| ue_record u f : In u l -> (forall t, u_LockedUntil u = Some t -> t < until) ->
    (forall x, u_ID (f x) = u_ID x /\ u_Email (f x) = u_Email x /\ active (f x) = active x) ->
    users_effect until l (update_where (has_key u_ID (u_ID u)) f l)
| ue_status status : users_effect until l (map (with_status status) l).

Lemma unlocked_before until ev u :
  before until ev -> unlocked ev u -> forall t, u_LockedUntil u = Some t -> t < until.
Proof. intros Hb Hl t Ht. destruct (Hl t Ht) as [k Hk]. specialize (Hb k). lia. Qed.

Lemma step_users until d d' : step_before until d d' -> users_effect until (users d) (users d').
Proof.
  destruct 1 as [call ev n Hb|]; [|apply ue_status]. unfold after_call. destruct call; cbn [run_call].
  - eapply wp_dropped; [apply Register_outcome|]. intros r d'. destruct 1; [apply ue_same|apply ue_new].
  - eapply wp_dropped; [apply Login_outcome|]. intros r d'. destruct 1 as [e|u t F Hl _|r u d1 d2 F Hl _ Hd1 Ho].
    + apply ue_same.
    + apply (ue_record _ _ u); [by eapply account_of_In|by eapply unlocked_before|done].
    + assert (users d2 = users d1) as -> by by destruct Ho. destruct Hd1 as [->|[t ->]]; [apply ue_same|].
      apply (ue_record _ _ u); [by eapply account_of_In|by eapply unlocked_before|done].
  - eapply wp_dropped; [apply Refresh_outcome|]. intros r d'. destruct 1; apply ue_same.
  - destruct (Logout_outcome raw all ev d n) as [_ Ho]. destruct Ho; apply ue_same.
  - destruct (RevokeSession_outcome uid sid ev d n) as [_ Ho]. destruct Ho; apply ue_same.
Qed.

Lemma locked_effect email until d d' :
  auth_inv d -> users_effect until (users d) (users d') -> locked_until email until d -> locked_until email until d'.
Proof.
  intros HI HE (u & F & L). unfold locked_until, account_of in *.
  destruct HE as [|v|v f Hv Hu Hf|status].
  - by exists u.
  - exists u. split; [by apply find_app_some|done].
  - assert (forall x, same_email (u_Email (f x)) email && active (f x) = same_email (u_Email x) email && active x) as Hq
      by (intros x; destruct (Hf x) as (_ & -> & ->); done).
    exists u. split; [|done]. rewrite (find_update (fun x => same_email (u_Email x) email && active x)) by done.
    rewrite F. cbn [option_map]. destruct (has_key u_ID (u_ID v) u) eqn:K; [|done]. apply has_key_true in K.
    apply List.find_some in F as [F _]. rewrite (keyed_inj u_ID (users d) u v) in L by (apply HI || done).
    specialize (Hu _ L). lia.
  - exists (with_status status u). split; [|done]. clear L. induction (users d) as [|x l IH]; cbn in *; [done|].
    change (active (with_status status x)) with (active x). destruct (_ && _); [by injection F as ->|by apply IH].
Qed.

Lemma step_before_step until d d' : step_before until d d' -> auth_step cfg d d'.
Proof. destruct 1; constructor. Qed.

Lemma locked_while email until d d' :
  rtc (step_before until) d d' -> auth_inv d -> locked_until email until d -> locked_until email until d'.
Proof.
  induction 1 as [|x y z Hs _ IH]; [done|]. intros HI HL. apply IH.
  - eapply auth_inv_later; [exact HI|]. by eapply step_effects, step_before_step.
  - eapply locked_effect; [exact HI|by apply step_users|done].
Qed.

Lemma failure_locks email u t c :
  account_of email c = Some u -> lockoutThreshold <= u_FailedLogins u + 1 ->
  locked_until email (t + lockoutDuration) (failure_recorded (u_ID u) t c).
Proof.
  intros F Hn. exists (failed_login lockoutThreshold lockoutDuration t u). split.
  - unfold account_of, failure_recorded in *. cbn [put users_t users]. rewrite find_update by done.
    rewrite F. cbn [option_map]. by rewrite has_key_refl.
  - cbn [failed_login u_LockedUntil]. by apply Z.leb_le in Hn as ->.
Qed.
(** C37: The fifth wrong password in a row locks the account: a failed login of
    an account with four failures behind it is refused and, until a quarter of
    an hour after that login, every login for the address fails, with the right
    password too and whatever else is called, and changes nothing. *)
Theorem fifth_failure_locks_out email password ip ua u ev n d
    (Hd : auth_reachable cfg d) (Hu : account_of email d = Some u)
    (Hlock : forall until, u_LockedUntil u = Some until -> forall k, until <= clock ev k)
    (Hfails : lockoutThreshold <= u_FailedLogins u + 1) (Hrange : in_int32 (u_FailedLogins u + 1) = true)
    (Hwrong : VerifyPassword password (u_PasswordHash u) <> Some true) (Hcalm : calm ev) :
  let '(r, w) := Login cfg email password ip ua ev (rest d n) in
  r = Err (Dom ErrInvalidCredentials) /\
  exists k, forall d2, rtc (step_before (clock ev k + lockoutDuration)) (committed w) d2 ->
    forall password' ip' ua' ev' n', before (clock ev k + lockoutDuration) ev' ->
    let '(r', w') := Login cfg email password' ip' ua' ev' (rest d2 n') in
    is_ok r' = false /\ committed w' = d2 /\ (calm ev' -> r' = Err (Dom ErrAccountLocked)).
Proof.
  pose proof (auth_reachable_inv cfg d Hd) as HI.
  pose proof (wrong_password_login email password ip ua u ev d n HI Hu Hlock Hwrong Hrange) as O.
  unfold wp in O. destruct (Login cfg email password ip ua ev (rest d n)) as [r w]. cbn [fst snd] in O.
  destruct (O Hcalm) as [-> [k Ew]]. split; [done|]. exists k. rewrite Ew. intros d2 Hl password' ip' ua' ev' n' Hb.
  assert (locked_until email (clock ev k + lockoutDuration) d2) as HL.
  { eapply locked_while; [exact Hl| |by apply failure_locks].
    eapply auth_inv_effect; [exact HI|]. apply ae_failure. }
  pose proof (locked_login email _ password' ip' ua' ev' d2 n' HL Hb) as O2.
  unfold wp in O2. destruct (Login cfg email password' ip' ua' ev' (rest d2 n')) as [r' w'].
  destruct O2 as (Ed & Er & Ec). by repeat split.
Qed.
End Lockout.

(** ** Access tokens *)

Section Holder.
Context `{Jwt} `{Argon2} `{PgErrorText} `{PgInet} (cfg : Config).

(** The calls that answer tokens. *)
Definition tokens_call (call : auth_call) : option (uprog Tokens) :=
  match call with
  | CRegister email password acct resid locale ip ua => Some (Register cfg email password acct resid locale ip ua)
  | CLogin email password ip ua => Some (Login cfg email password ip ua)
  | CRefresh raw ip ua => Some (Refresh cfg raw ip ua)
  | CLogout _ _ | CRevoke _ _ => None
  end.

(** A verifier that knows the service's key and expects its issuer and audience. *)
Record trusts (v : VerifierConfig) : Prop := {
  tr_key : key_of (is_kid (cf_issuer cfg)) (keys v) = Some (public (priv (cf_issuer cfg)));
  tr_issuer : vf_issuer v = is_issuer (cf_issuer cfg);
  tr_audience : vf_audience v = is_audience (cf_issuer cfg)
}.

(** A live session of the user. *)
Definition live_session (uid sid : string) (d : auth_db) : Prop :=
  exists s, find_session sid d = Some s /\ s_UserID s = uid /\ unrevoked_session s = true.

(** The token was signed for a live session of that user, with these roles and
    account type. *)
Definition names_holder (roles : list string) (account : string) (toks : Tokens) (d : auth_db) : Prop :=
  exists t c, live_session (tk_UserID toks) (cl_SessionID c) d /\
    cl_UserID c = tk_UserID toks /\ Subject c = tk_UserID toks /\ cl_Roles c = roles /\ cl_AccountType c = account /\
    forall v now, trusts v -> seconds t <= seconds now < seconds (t + accessTTL (cf_issuer cfg)) ->
      Verify v now (AccessToken toks) = Some c.

(** The account type a token of the call carries. *)
Definition account_claim (call : auth_call) (d : auth_db) (account : string) : Prop :=
  match call with
  | CRegister _ _ acct _ _ _ _ => account = acct
  | CLogin email _ _ _ => exists u, account_of email d = Some u /\ account = u_PrimaryType u
  | _ => account = ""
  end.

Lemma find_app_new {R} (q : R -> bool) l x : List.find q l = None -> q x = true -> List.find q (l ++ [x]) = Some x.
Proof. intros F Hx. induction l as [|y l IH]; cbn in *; [by rewrite Hx|]. destruct (q y); [done|by apply IH]. Qed.

Lemma fresh_is_live uid s t d : fresh_session uid s t d -> live_session uid (s_ID s) (add_session s t d).
Proof.
  intros [HC _ _ Ho Hl _ _ _ _]. exists s. split; [|split; [done|by unfold unrevoked_session; rewrite Hl]].
  unfold find_session. apply find_app_new; [|apply has_key_refl]. by apply find_key_None, session_check_new.
Qed.

Lemma access_names c toks sid acct d :
  access_for cfg c (tk_UserID toks) sid acct (AccessToken toks) -> live_session (tk_UserID toks) sid d ->
  names_holder (roles_of (tk_UserID toks) c) acct toks d.
Proof.
  intros (t & id & resid & S) Hl.
  exists t, (issued_claims (cf_issuer cfg) t id (session_claims (tk_UserID toks) sid acct resid
    (roles_of (tk_UserID toks) c) (permissions_of (tk_UserID toks) c))).
  split; [exact Hl|]. do 4 (split; [done|]). intros v now [Hk Hi Ha] Ht. by apply (Verify_issued (cf_issuer cfg) v t).
Qed.

(** The token of a refresh. *)
Lemma refresh_names raw ip ua toks ev d n w :
  auth_inv d -> Refresh cfg raw ip ua ev (rest d n) = (Ok toks, w) ->
  names_holder (roles_of (tk_UserID toks) d) "" toks (committed w).
Proof.
  intros HI Hrun%Refresh_committed.
  inversion Hrun as [| | | | | | |r rt s new toks' t HL HRv HUn _ HS HN HC _ Es Eu _ _ _ Hu Ha Hr Er Ed]; subst.
  destruct Hr as [[= ->]|]; [|done]. rewrite <- Hu in *.
  eapply access_names; [exact Ha|]. exists s. split; [exact HS|]. split; [|done].
  destruct (lookup_found _ _ _ HL) as (tk & s' & F & FS & ->). cbn [refresh_token rt_SessionID rt_UserID] in *.
  rewrite FS in HS. injection HS as ->. rewrite Hu. apply List.find_some in F as [Ft _].
  destruct (ai_linked d HI tk Ft) as (s0 & I0 & E0 & U0). rewrite <- U0. f_equal.
  apply List.find_some in FS as [Is Ks%has_key_true]. by apply (keyed_inj s_ID (sessions d)); [apply HI|..|rewrite E0].
Qed.

(** Every access token the service answers, at registration, login or
    refresh, names its holder: until it expires, any verifier that trusts the
    service's key accepts it, and the claims are the user's, of a live session
    of that user, with the roles the tables gave the user when the call began,
    and with the account type at registration and login - and none after a
    refresh. *)
Theorem access_token_names_holder call p toks ev d n w
    (Hd : auth_reachable cfg d) (Hcall : tokens_call call = Some p)
    (Hrun : p ev (rest d n) = (Ok toks, w)) :
  exists account, account_claim call d account /\
    names_holder (roles_of (tk_UserID toks) d) account toks (committed w).
Proof.
  pose proof (auth_reachable_inv cfg d Hd) as HI.
  destruct call as [email password acct resid locale ip ua|email password ip ua|raw ip ua|raw all|uid sid];
    try done; injection Hcall as <-.
  - pose proof (Register_outcome cfg email password acct resid locale ip ua ev d n) as O. unfold wp in O.
    rewrite Hrun in O. destruct O as [_ O].
    inversion O as [|r u rs s t toks' e at_ HC _ _ _ Hrs Hfs _ Hu Ha Hr Er Ed]; subst.
    destruct Hr as [[= ->]|]; [|done]. rewrite <- Hu in *. exists acct. split; [done|].
    eapply access_names; [exact Ha|]. exact (fresh_is_live _ _ _ _ Hfs).
  - pose proof (Login_outcome cfg email password ip ua ev d n) as O. unfold wp in O.
    rewrite Hrun in O. destruct O as [_ O].
    inversion O as [| |r u d1 d2 F Hl _ Hd1 Ho Er Ed]; subst.
    inversion Ho as [|r s t toks' e at_ Hfs _ Hu Ha Hr Er Ed]; subst.
    destruct Hr as [[= ->]|]; [|done]. rewrite <- Hu in *.
    assert (roles_of (tk_UserID toks') d = roles_of (tk_UserID toks') d1) as ->
      by (destruct Hd1 as [->|[t0 ->]]; done).
    exists (u_PrimaryType u). split; [by exists u|].
    eapply access_names; [exact Ha|]. exact (fresh_is_live _ _ _ _ Hfs).
  - exists "". split; [done|]. by eapply refresh_names.
Qed.
(** The roles of the first token are read outside the transaction that assigns
    them: there are none. *)
Lemma first_token_has_no_roles email password acct resid locale ip ua toks ev d n w :
  auth_reachable cfg d ->
  Register cfg email password acct resid locale ip ua ev (rest d n) = (Ok toks, w) ->
  roles_of (tk_UserID toks) d = [].
Proof.
  intros Hd%auth_reachable_inv Hrun.
  pose proof (Register_outcome cfg email password acct resid locale ip ua ev d n) as O. unfold wp in O.
  rewrite Hrun in O. destruct O as [_ O].
  inversion O as [|r u rs s t toks' e at_ HC _ _ _ _ _ _ Hu _ Hr Er Ed]; subst.
  destruct Hr as [[= ->]|]; [|done]. apply user_check_new in HC as [Hn _]. unfold roles_of.
  rewrite select_none; [done|]. intros r Ir. apply not_true_iff_false. intros K%has_key_true.
  apply Hn. rewrite <- Hu, <- K. by apply (ai_roles d Hd).
Qed.

(** C38: In every reachable state of the auth tables accounts, sessions and
    tokens are well formed: identifiers are unique, no two active accounts share
    an e-mail address in whatever case, every session has an account and every
    token its session's, and each session has exactly one unused refresh token. *)
Theorem auth_tables_well_formed d (Hd : auth_reachable cfg d) : auth_inv d.
Proof. by eapply auth_reachable_inv. Qed.
End Holder.

(** Alice's account after four wrong passwords. *)
Definition wrong_login (d : auth_db) : auth_db :=
  after_call demo_config (CLogin "ALICE@example.org" "password1" "10.0.0.9" "curl") (still_env 2 5000) d 0.

Definition failing_db : auth_db := Eval vm_compute in Nat.iter 4 wrong_login demo_auth_db.

Lemma wrong_logins k d : auth_reachable demo_config d -> auth_reachable demo_config (Nat.iter k wrong_login d).
Proof.
  intros Hd. induction k as [|k IH]; [done|]. eapply reachable_later; [exact IH|]. cbn [Nat.iter nat_rect].
  eapply rtc_l; [apply as_call|apply rtc_refl].
Qed.

Lemma failing_reachable : auth_reachable demo_config failing_db.
Proof.
  assert (failing_db = Nat.iter 4 wrong_login demo_auth_db) as -> by by vm_compute.
  apply wrong_logins, alice_reachable.
Qed.

Definition failing_alice : User := Eval vm_compute in
  default (new_user "" "" "" "" "" "") (account_of "alice@example.org" failing_db).

Example fifth_failure_locks_out_witness :
  u_FailedLogins failing_alice = 4 /\
  let '(r, w) := Login demo_config "alice@example.org" "password5" "10.0.0.9" "curl" (still_env 3 6000) (rest failing_db 0) in
  r = Err (Dom ErrInvalidCredentials) /\
  exists k, forall d2, rtc (step_before demo_config (clock (still_env 3 6000) k + lockoutDuration)) (committed w) d2 ->
    forall password' ip' ua' ev' n', before (clock (still_env 3 6000) k + lockoutDuration) ev' ->
    let '(r', w') := Login demo_config "alice@example.org" password' ip' ua' ev' (rest d2 n') in
    is_ok r' = false /\ committed w' = d2 /\ (calm ev' -> r' = Err (Dom ErrAccountLocked)).
Proof.
  split; [reflexivity|].
  apply (fifth_failure_locks_out demo_config "alice@example.org" "password5" "10.0.0.9" "curl" failing_alice
    (still_env 3 6000) 0 failing_db).
  - apply failing_reachable.
  - by vm_compute.
  - discriminate.
  - by vm_compute.
  - by vm_compute.
  - by vm_compute.
  - apply still_env_calm.
Defined.

Definition demo_verifier : VerifierConfig :=
  mkVerifier [("auth-1", demo_key)] "https://auth.aizorix.com" "aizorix".

Lemma second_tokens_named : names_holder demo_config ["client"] "" second_tokens refreshed_db.
Proof.
  exact (refresh_names demo_config demo_raw "10.0.0.1" "firefox" second_tokens (still_env 2 5000) demo_auth_db 0
    (World refreshed_db NoTx 13) (auth_reachable_inv demo_config demo_auth_db alice_reachable) first_refresh_ok).
Qed.

Example access_token_names_holder_witness :
  exists account, account_claim (CRefresh demo_raw "10.0.0.1" "firefox") demo_auth_db account /\
    names_holder demo_config ["client"] account second_tokens refreshed_db.
Proof.
  exact (access_token_names_holder demo_config (CRefresh demo_raw "10.0.0.1" "firefox") _ second_tokens
    (still_env 2 5000) demo_auth_db 0 (World refreshed_db NoTx 13) alice_reachable eq_refl first_refresh_ok).
Defined.

Example auth_tables_well_formed_witness : auth_inv refreshed_db /\ map (fun s => unused_of (s_ID s) refreshed_db) (sessions refreshed_db) = [1].
Proof. split; [exact (auth_tables_well_formed demo_config refreshed_db refreshed_reachable)|by vm_compute]. Defined.
