(* ===== verification/AuthHttp.v ===== *)
(** * Auth REST transport (services/auth/internal/httpapi)

    The handlers answer a response and may set the refresh cookie.  Cookies of
    the request and the address of the peer are arguments. *)
From stdpp Require Import relations.
From S2P Require Export AuthProofs Gateway Strings.

Record cookie := mkCookie {
  ck_Name : string;
  ck_Value : string;
  ck_Path : string;
  HttpOnly : bool;
  Secure : bool;
  SameSite : string;
  MaxAge : Z
}.

Abbreviation reply := (response * option cookie)%type.

Definition refreshCookieName : string := "aizorix_refresh".

Definition mapError (e : err auth_err) : response :=
  match e with
  | Dom ErrInvalidCredentials => writeErr 401 "INVALID_CREDENTIALS" "invalid email or password"
  | Dom ErrAccountLocked => writeErr 423 "ACCOUNT_LOCKED" "account temporarily locked"
  | Dom ErrEmailTaken => writeErr 409 "EMAIL_TAKEN" "email already registered"
  | Dom ErrTokenReuse | Dom ErrTokenExpired => writeErr 401 "INVALID_REFRESH" "session is no longer valid"
  | _ => writeErr 500 "INTERNAL" "something went wrong"
  end.

(** ** Bodies *)

Record registerReq := mkRegisterReq {
  rq_Email : string;
  rq_Password : string;
  rq_AccountType : string;
  rq_Residency : string;
  rq_Locale : string;
  AcceptedTerms : bool;
  AcceptedMonitor : bool
}.

Definition decode_registerReq (o : list (string * json)) : option registerReq :=
  obind (str_field "email" o) (fun email =>
  obind (str_field "password" o) (fun password =>
  obind (str_field "account_type" o) (fun acct =>
  obind (str_field "residency_country" o) (fun resid =>
  obind (str_field "locale" o) (fun locale =>
  obind (bool_field "accepted_terms" o) (fun terms =>
  obind (bool_field "accepted_monitoring_disclosure" o) (fun monitor =>
  Some (mkRegisterReq email password acct resid locale terms monitor)))))))).

(** loginReq: the address and the password. *)
Definition decode_loginReq (o : list (string * json)) : option (string * string) :=
  obind (str_field "email" o) (fun email => obind (str_field "password" o) (fun password => Some (email, password))).

(** Decoding whose error is ignored: a value of another type leaves the field
    alone and the rest is decoded. *)
Definition lenient {A} (f : A -> json -> option A) (zero : A) (tag : string) (b : option json) : A :=
  match members b with
  | Some o => fold_left (fun old j => default old (f old j)) (values_of tag o) zero
  | None => zero
  end.

(** refreshReq and logoutReq *)
Definition body_token (r : request) : string := lenient into_string "" "refresh_token" (body r).
Definition body_all_sessions (r : request) : bool := lenient into_bool false "all_sessions" (body r).

Definition session_json (s : Session) : json :=
  JObj [("id", JStr (sv_ID s)); ("device_name", JStr (sv_DeviceName s)); ("ip", JStr (sv_IP s));
        ("created_at", JStr (format_rfc3339 (sv_CreatedAt s)));
        ("last_active_at", JStr (format_rfc3339 (sv_LastActiveAt s)))].

Definition tokenResponse (t : Tokens) : json :=
  JObj [("access_token", JStr (AccessToken t)); ("refresh_token", JStr (RefreshToken t));
        ("access_expires_in", JInt (AccessExpiresIn t)); ("token_type", JStr "Bearer");
        ("user_id", JStr (tk_UserID t))].

(** A nil slice is null. *)
Definition roles_json (l : list string) : json :=
  match l with [] => JNull | _ => JList (map JStr l) end.

Section Api.
Context `{Jwt} `{Argon2} `{PgErrorText} `{PgInet} (cfg : Config).

(** jwks, cookieSecure; the cookies and the peer of a request. *)
Context (jwks : option json) (cookieSecure : bool).
Context (cookies : request -> string -> option string) (remoteAddr : request -> string).

Definition clientIP (r : request) : string :=
  let xff := header r "X-Forwarded-For" in
  if String.eqb xff "" then remoteAddr r else xff.

Definition refreshFromRequest (r : request) (bodyToken : string) : string :=
  if String.eqb bodyToken "" then default "" (cookies r refreshCookieName) else bodyToken.

Definition refresh_cookie (value : string) (maxAge : Z) : cookie :=
  mkCookie refreshCookieName value "/" true cookieSecure "Lax" maxAge.

Definition writeTokens (code : Z) (t : Tokens) : reply :=
  (writeJSON code (tokenResponse t), Some (refresh_cookie (RefreshToken t) (30 * 24 * 3600))).

Definition clearRefreshCookie : option cookie := Some (refresh_cookie "" (-1)).

(** A handler that sets no cookie. *)
Definition plain (m : uprog response) : uprog reply := r <- m ;; ret (r, None).

(** A step that may answer; then no cookie is set. *)
Definition bind_plain {A} (m : step (D := auth_db) (E := auth_err) A) (k : A -> uprog reply) : uprog reply :=
  o <- m ;; match o with inl r => ret (r, None) | inr a => k a end.

Definition reject (code : Z) (name msg : string) : uprog reply := ret (writeErr code name msg, None).

Definition register (r : request) : uprog reply :=
  bind_plain (decode decode_registerReq r) (fun req =>
  if negb (String.eqb (rq_AccountType req) "client") && negb (String.eqb (rq_AccountType req) "freelancer")
  then reject 400 "VALIDATION_FAILED" "account_type must be client or freelancer" else
  if Z.of_nat (String.length (rq_Password req)) <? 12
  then reject 400 "VALIDATION_FAILED" "password must be at least 12 characters" else
  if negb (AcceptedTerms req) then reject 400 "TERMS_REQUIRED" "must accept terms of service" else
  bind_plain (or_mapped mapError (Register cfg (rq_Email req) (rq_Password req) (rq_AccountType req)
                (rq_Residency req) (rq_Locale req) (clientIP r) (header r "User-Agent"))) (fun toks =>
  ret (writeTokens 201 toks))).

Definition login (r : request) : uprog reply :=
  bind_plain (decode decode_loginReq r) (fun req =>
  bind_plain (or_mapped mapError (Login cfg (fst req) (snd req) (clientIP r) (header r "User-Agent"))) (fun toks =>
  ret (writeTokens 200 toks))).

Definition refresh (r : request) : uprog reply :=
  let token := refreshFromRequest r (body_token r) in
  bind_plain (or_mapped mapError (Refresh cfg token (clientIP r) (header r "User-Agent"))) (fun toks =>
  ret (writeTokens 200 toks)).

Definition logout (r : request) : uprog reply :=
  let token := refreshFromRequest r (body_token r) in
  bind_plain (or_mapped mapError (Logout token (body_all_sessions r))) (fun _ =>
  ret (writeJSON 200 success, clearRefreshCookie)).

Definition serveJWKS : response :=
  writeJSON 200 (default (JObj [("keys", JList [])]) jwks).

Definition identified (r : request) : step (D := auth_db) (E := auth_err) string :=
  let userID := header r "X-User-Id" in
  if String.eqb userID "" then reply_with (writeErr 401 "UNAUTHORIZED" "missing identity") else go_on userID.

Definition me (r : request) : uprog response :=
  userID <-? identified r ;;
  i <-? or_mapped mapError (Me userID) ;;
  ret (writeJSON 200 (JObj
    [("user_id", JStr (id_UserID i)); ("email", JStr (id_Email i)); ("account_type", JStr (id_AccountType i));
     ("roles", roles_json (id_Roles i)); ("email_verified", JBool (id_EmailVerified i));
     ("mfa_enabled", JBool (id_MFAEnabled i))])).

Definition listSessions (r : request) : uprog response :=
  userID <-? identified r ;;
  l <-? or_mapped mapError (service_ListSessions userID) ;;
  ret (writeJSON 200 (JObj [("sessions", JList (map session_json l))])).

Definition revokeSession (r : request) : uprog response :=
  userID <-? identified r ;;
  _ <-? or_mapped mapError (service_RevokeSession userID (urlParam r "id")) ;;
  ret (writeJSON 200 success).

Inductive auth_route := RegisterR | LoginR | RefreshR | LogoutR | MeR | SessionsR | RevokeR | JwksR | HealthR.

Definition serve (x : auth_route) (r : request) : uprog reply :=
  match x with
  | RegisterR => register r
  | LoginR => login r
  | RefreshR => refresh r
  | LogoutR => logout r
  | MeR => plain (me r)
  | SessionsR => plain (listSessions r)
  | RevokeR => plain (revokeSession r)
  | JwksR => ret (serveJWKS, None)
  | HealthR => ret (Response 200 JNull, None)
  end.
End Api.

(** ** Rules *)

Section Rules.
Context `{Jwt} `{Argon2} `{PgErrorText} `{PgInet} (cfg : Config).
Implicit Types (ev : env) (d : auth_db).

Lemma wp_plain (Q : auth_db -> Prop) (m : uprog response) ev w :
  wp m ev w (fun _ w' => Q (committed w')) -> wp (plain m) ev w (fun _ w' => Q (committed w')).
Proof. intros Hm. apply wp_bind. eapply wp_mono; [exact Hm|]. by intros [x|e] w' Hw; [apply wp_ret|]. Qed.

Lemma wp_reply (Q : auth_db -> Prop) {A} (p : uprog A) (k : A -> uprog reply) ev d n :
  wp p ev (rest d n) (fun _ w => Q (committed w)) ->
  (forall a w (P : auth_db -> Prop), P (committed w) -> wp (k a) ev w (fun _ w' => P (committed w'))) ->
  wp (bind_plain (or_mapped mapError p) k) ev (rest d n) (fun _ w => Q (committed w)).
Proof.
  intros Hp Hk. apply wp_bind, wp_or_mapped. eapply wp_mono; [exact Hp|].
  intros [a|e] w Hw; [by apply Hk|by apply wp_ret].
Qed.

Lemma wp_decoded (Q : auth_db -> Prop) {A} (f : list (string * json) -> option A) r (k : A -> uprog reply) ev d n :
  Q d -> (forall a, wp (k a) ev (rest d n) (fun _ w => Q (committed w))) ->
  wp (bind_plain (decode f r) k) ev (rest d n) (fun _ w => Q (committed w)).
Proof.
  intros HQ Hk. apply wp_bind, wp_decode; [by apply wp_ret|]. intros o a _ _. apply Hk.
Qed.

Lemma wp_identified (Q : auth_db -> Prop) r (k : string -> uprog response) ev d n :
  Q d -> (header r "X-User-Id" <> "" -> wp (k (header r "X-User-Id")) ev (rest d n) (fun _ w => Q (committed w))) ->
  wp (bind_ok (identified r) k) ev (rest d n) (fun _ w => Q (committed w)).
Proof.
  intros HQ Hk. apply wp_bind_ok. unfold identified.
  destruct (String.eqb_spec (header r "X-User-Id") ""); apply wp_ret; auto.
Qed.

Lemma wp_Me uid ev d n : wp (Me uid) ev (rest d n) (fun _ w => committed w = d).
Proof.
  unfold Me, GetUserByID. apply wp_bind, wp_bind.
  apply (wp_pool_read _ (List.find (fun u => has_key u_ID uid u && active u) (users d))); [done..|].
  unfold found. destruct (List.find _ (users d)); [|by apply wp_throw]. apply wp_ret.
  apply wp_bind, wp_RolesAndPermissions; [done|]. intros m. by apply wp_ret.
Qed.

Lemma wp_ListSessions uid ev d n : wp (service_ListSessions uid) ev (rest d n) (fun _ w => committed w = d).
Proof. unfold service_ListSessions, ListSessions. by apply wp_pool_fun. Qed.
End Rules.

(** ** What the routes do *)

Section Routes.
Context `{Jwt} `{Argon2} `{PgErrorText} `{PgInet} (cfg : Config) (jwks : option json) (cookieSecure : bool).
Context (cookies : request -> string -> option string) (remoteAddr : request -> string).

Definition decoded {A} (f : list (string * json) -> option A) (r : request) : option A := obind (members (body r)) f.

(** The account types one may register. *)
Definition public_type (acct : string) : bool := String.eqb acct "client" || String.eqb acct "freelancer".

(** The call of the service that a request amounts to, if any. *)
Definition call_of (x : auth_route) (r : request) : option auth_call :=
  let ip := clientIP remoteAddr r in
  let ua := header r "User-Agent" in
  let uid := header r "X-User-Id" in
  match x with
  | RegisterR =>
      obind (decoded decode_registerReq r) (fun req =>
      if public_type (rq_AccountType req) && (12 <=? Z.of_nat (String.length (rq_Password req))) && AcceptedTerms req
      then Some (CRegister (rq_Email req) (rq_Password req) (rq_AccountType req) (rq_Residency req) (rq_Locale req) ip ua)
      else None)
  | LoginR => option_map (fun req => CLogin (fst req) (snd req) ip ua) (decoded decode_loginReq r)
  | RefreshR => Some (CRefresh (refreshFromRequest cookies r (body_token r)) ip ua)
  | LogoutR => Some (CLogout (refreshFromRequest cookies r (body_token r)) (body_all_sessions r))
  | RevokeR => if String.eqb uid "" then None else Some (CRevoke uid (urlParam r "id"))
  | MeR | SessionsR | JwksR | HealthR => None
  end.

Definition after_route (x : auth_route) (r : request) (ev : env) (d : auth_db) (n : nat) : auth_db :=
  committed (snd (serve cfg jwks cookieSecure cookies remoteAddr x r ev (rest d n))).

Lemma wp_after {A} (m : uprog A) ev d n :
  wp m ev (rest d n) (fun _ w => committed w = committed (snd ((m ;;; ret tt) ev (rest d n)))).
Proof. unfold wp, bind. by destruct (m ev (rest d n)) as [[a|e] w]. Qed.

Lemma wp_call (m : uprog unit) ev d n :
  wp m ev (rest d n) (fun _ w => committed w = committed (snd (m ev (rest d n)))).
Proof. unfold wp. by destruct (m ev (rest d n)) as [r w]. Qed.

Lemma wp_decoded_call {A} (f : list (string * json) -> option A) r (k : A -> uprog reply)
    (call : A -> option auth_call) ev d n :
  (forall a, wp (k a) ev (rest d n) (fun _ w => committed w =
     match call a with Some c => after_call cfg c ev d n | None => d end)) ->
  wp (bind_plain (decode f r) k) ev (rest d n) (fun _ w => committed w =
     match obind (decoded f r) call with Some c => after_call cfg c ev d n | None => d end).
Proof.
  intros Hk. unfold decoded, bind_plain, decode. apply wp_bind.
  destruct (members (body r)) as [o|]; [|by apply wp_ret, wp_ret]. cbn [obind].
  destruct (f o) as [a|]; [|by apply wp_ret, wp_ret]. apply wp_ret. apply Hk.
Qed.

Ltac answer := intros; by apply wp_ret.

Lemma register_call r ev d n :
  after_route RegisterR r ev d n =
  match call_of RegisterR r with Some c => after_call cfg c ev d n | None => d end.
Proof.
  apply (wp_decoded_call decode_registerReq r). intros req. unfold public_type.
  destruct (String.eqb _ "client"), (String.eqb _ "freelancer"); cbn [negb andb orb];
    try (by apply wp_ret);
    rewrite Z.leb_antisym; (destruct (_ <? _); [by apply wp_ret|]); cbn [negb andb];
    (destruct (AcceptedTerms req); [|by apply wp_ret]); cbn [negb];
    apply (wp_reply (fun d' => d' = after_call cfg _ ev d n)); first [apply wp_after|answer].
Qed.

Lemma route_call x r ev d n :
  after_route x r ev d n = match call_of x r with Some c => after_call cfg c ev d n | None => d end.
Proof.
  destruct x; try done.
  - apply register_call.
  - unfold call_of. set (g := fun req : string * string => _).
    assert (option_map g (decoded decode_loginReq r) = obind (decoded decode_loginReq r) (fun a => Some (g a))) as -> by done.
    apply (wp_decoded_call decode_loginReq r). intros req.
    apply (wp_reply (fun d' => d' = after_call cfg _ ev d n)); [apply wp_after|answer].
  - apply (wp_reply (fun d' => d' = after_call cfg _ ev d n)); [apply wp_after|answer].
  - apply (wp_reply (fun d' => d' = after_call cfg _ ev d n)); [apply wp_call|answer].
  - apply (wp_plain (fun d' => d' = d)), (wp_identified (fun d' => d' = d)); [done|]. intros _.
    apply (wp_service (fun d' => d' = d)); [apply wp_Me|answer].
  - apply (wp_plain (fun d' => d' = d)), (wp_identified (fun d' => d' = d)); [done|]. intros _.
    apply (wp_service (fun d' => d' = d)); [apply wp_ListSessions|answer].
  - unfold call_of, after_route. cbn [serve].
    set (Q := fun d' => d' = match (if String.eqb (header r "X-User-Id") "" then None
      else Some (CRevoke (header r "X-User-Id") (urlParam r "id"))) with Some c => after_call cfg c ev d n | None => d end).
    apply (wp_plain Q), wp_bind_ok. unfold identified.
    destruct (String.eqb (header r "X-User-Id") ""); [by apply wp_ret|]. apply wp_ret.
    apply (wp_service (fun d' => d' = after_call cfg _ ev d n)); [apply wp_call|answer].
Qed.

(** Every request to the auth service is at most one call of the service,
    [call_of] the request, and changes the tables as that call does: the guards
    of the routes, no more and no less, decide which.  So what holds of the
    tables that calls can reach holds of those that requests can reach. *)
Theorem auth_routes_are_calls x r ev d n :
  after_route x r ev d n = match call_of x r with Some c => after_call cfg c ev d n | None => d end /\
  later cfg d (after_route x r ev d n).
Proof.
  split; [apply route_call|]. rewrite route_call.
  destruct (call_of x r) as [call|]; [apply rtc_once, as_call|apply rtc_refl].
Qed.
(** What a call does to the roles of users. *)
Lemma call_roles call ev d n :
  user_roles (after_call cfg call ev d n) = user_roles d \/
  exists email password acct resid locale ip ua rs,
    call = CRegister email password acct resid locale ip ua /\
    user_roles (after_call cfg call ev d n) = user_roles d ++ rs /\
    Forall (fun x => In (ur_role x, acct) (roles d)) rs.
Proof.
  unfold after_call. destruct call as [email password acct resid locale ip ua|email password ip ua|raw ip ua|raw all|uid sid];
    cbn [run_call].
  - eapply wp_dropped; [apply Register_outcome|]. intros r d'.
    destruct 1 as [e|r u rs s t toks e at_ _ _ _ _ Hrs _ _ _ _ _]; [by left|]. right.
    exists email, password, acct, resid, locale, ip, ua, rs. split; [done|]. split; [done|].
    eapply Forall_impl; [exact Hrs|]. by intros x [].
  - left. eapply wp_dropped; [apply Login_outcome|]. intros r d'. destruct 1 as [| |r u d1 d2 _ _ _ Hd1 Ho]; try done.
    destruct Ho, Hd1 as [->|[? ->]]; done.
  - left. eapply wp_dropped; [apply Refresh_outcome|]. intros r d'. by destruct 1.
  - left. destruct (Logout_outcome raw all ev d n) as [_ Ho]. by destruct Ho.
  - left. destruct (RevokeSession_outcome uid sid ev d n) as [_ Ho]. by destruct Ho.
Qed.

(** Nobody registers as staff: a role that a request to the auth service
    gives to anybody, whatever the body asks for, is a role named client or
    freelancer. *)
Theorem nobody_registers_as_staff x r ev d n ur
    (Hnew : In ur (user_roles (after_route x r ev d n))) :
  In ur (user_roles d) \/ exists name, public_type name = true /\ In (ur_role ur, name) (roles d).
Proof.
  assert (forall call, call_of x r = Some call -> after_route x r ev d n = after_call cfg call ev d n) as Hcall
    by (intros call E; pose proof (route_call x r ev d n) as R; by rewrite E in R).
  destruct (call_of x r) as [call|] eqn:C.
  2:{ left. pose proof (route_call x r ev d n) as R. rewrite C in R. by rewrite R in Hnew. }
  rewrite (Hcall call eq_refl) in Hnew.
  destruct (call_roles call ev d n) as [E|(email & password & acct & resid & locale & ip & ua & rs & -> & E & Hrs)];
    rewrite E in Hnew; [by left|].
  apply in_app_iff in Hnew as [Hnew|Hnew]; [by left|]. right. exists acct.
  rewrite List.Forall_forall in Hrs. split; [|by apply Hrs].
  destruct x; try done; cbn [call_of] in C.
  - unfold obind in C. destruct (decoded _ r) as [req|]; [|done].
    destruct (public_type (rq_AccountType req) && _) eqn:G; cbn [andb] in C; [|done].
    destruct (AcceptedTerms req); [|done]. injection C as <- <- <- <- <- <- <-. by apply andb_true_iff in G as [G _].
  - by destruct (decoded decode_loginReq r).
  - by destruct (String.eqb _ _).
Qed.
End Routes.

(** Alice's request to register. *)
Definition register_request (acct : string) : request :=
  demo_request_with "" "" (fun _ => "")
    (Some (JObj [("email", JStr "alice@example.org"); ("password", JStr "correct horse battery");
                 ("account_type", JStr acct); ("residency_country", JStr "DE"); ("locale", JStr "en-US");
                 ("accepted_terms", JBool true)])).

Abbreviation registering acct :=
  (after_route demo_config None true (fun _ _ => None) (fun _ => "10.0.0.1") RegisterR (register_request acct)
    (random_env 1) (seeded demo_roles []) 0).

Example admins_are_refused : registering "admin" = seeded demo_roles [].
Proof. by vm_compute. Qed.

Definition registered_freelancer : auth_db := Eval vm_compute in registering "freelancer".

Lemma registering_freelancer : registering "freelancer" = registered_freelancer.
Proof. by vm_compute. Qed.

Example nobody_registers_as_staff_witness :
  let ur := mkUserRole "id-x-xx" "r2" "" in
  In ur (user_roles (registering "freelancer")) /\
    (In ur (user_roles (seeded demo_roles [])) \/
     exists name, public_type name = true /\ In (ur_role ur, name) (roles (seeded demo_roles []))).
Proof.
  cbv zeta.
  assert (In (mkUserRole "id-x-xx" "r2" "") (user_roles (registering "freelancer"))) as Hin
    by (rewrite registering_freelancer; by left).
  split; [exact Hin|]. exact (nobody_registers_as_staff _ _ _ _ _ RegisterR _ _ _ _ _ Hin).
Defined.
