(* ===== verification/RateLimit.v ===== *)
(** * The gateway's rate limiter (services/gateway/internal/ratelimit)

    The token bucket of the Lua script over one Redis key, the keys and
    policies of requests, and what the limiter lets through.  The script's
    floating-point numbers are exact rationals here. *)
From Stdlib Require Export QArith Qround Lqa.
From stdpp Require Import gmap strings.
From S2P Require Export Strings Http.

(** ** The script *)

(** Bucket: the capacity and the window in nanoseconds. *)
Record Bucket := mkBucket { Capacity : Z; Window : Z }.

Definition ratePerSecond (b : Bucket) : Q :=
  if (Window b <=? 0)%Z then inject_Z (Capacity b)
  else inject_Z (Capacity b) / (inject_Z (Window b) / inject_Z 1000000000).

(** The fields of the key's hash. *)
Record bucket_state := mkState { st_tokens : Q; st_ts : Q }.

Record verdict := mkVerdict { allowed : bool; remaining : Z; retry_after : Z }.

Definition q_min (a b : Q) : Q := if Qle_bool a b then a else b.
Definition q_max (a b : Q) : Q := if Qle_bool a b then b else a.

(** The tokens after the refill. *)
Definition refilled (capacity rate now : Q) (data : option bucket_state) : Q :=
  match data with
  | None => q_min capacity (capacity + q_max 0 (now - now) * rate)
  | Some d => q_min capacity (st_tokens d + q_max 0 (now - st_ts d) * rate)
  end.

Definition tokenBucket (capacity rate now cost : Q) (data : option bucket_state) : verdict * bucket_state :=
  let tokens := refilled capacity rate now data in
  if Qle_bool cost tokens
  then (mkVerdict true (Qfloor (tokens - cost)) 0, mkState (tokens - cost) now)
  else (mkVerdict false (Qfloor tokens)
          (if Qle_bool rate 0 then 1%Z else Qceiling ((cost - tokens) / rate)), mkState tokens now).

(** The seconds after which an idle key is dropped. *)
Definition ttl (capacity rate : Q) : Z := (Qceiling (capacity / q_max rate (1 # 10000)) + 1)%Z.

(** ** Redis *)

(** A key with its time of expiry, on the clock of Redis. *)
Record entry := mkEntry { en_state : bucket_state; en_expires : Q }.

Abbreviation redis := (gmap string entry).

(** The hash under a key; an expired key is not there. *)
Definition fetch (rnow : Q) (key : string) (s : redis) : option bucket_state :=
  match s !! key with
  | Some e => if Qle_bool (en_expires e) rnow then None else Some (en_state e)
  | None => None
  end.

(** allow: the script runs atomically at the gateway's time [now] and Redis'
    time [rnow]. *)
Definition allow (key : string) (b : Bucket) (now rnow : Q) (s : redis) : verdict * redis :=
  let capacity := inject_Z (Capacity b) in
  let rate := ratePerSecond b in
  let '(v, st) := tokenBucket capacity rate now 1 (fetch rnow key s) in
  (v, <[key := mkEntry st (rnow + inject_Z (ttl capacity rate))]> s).

(** ** Which key and which policy *)

Definition index_byte (c : Ascii.ascii) (s : string) : option nat := String.index 0 (String c "") s.

Fixpoint last_index (c : Ascii.ascii) (s : string) : option nat :=
  match s with
  | EmptyString => None
  | String x s' =>
      match last_index c s' with
      | Some i => Some (S i)
      | None => if Ascii.eqb x c then Some O else None
      end
  end.

Definition drop_bytes (n : nat) (s : string) : string := String.substring n (String.length s - n) s.
Definition take_bytes (n : nat) (s : string) : string := String.substring 0 n s.
Definition has_byte (c : Ascii.ascii) (s : string) : bool := match index_byte c s with Some _ => true | None => false end.

(** net.SplitHostPort, the host. *)
Definition split_host (hostport : string) : option string :=
  match last_index ":" hostport with
  | None => None
  | Some i =>
      if String.prefix "[" hostport then
        match index_byte "]" hostport with
        | None => None
        | Some end_ =>
            if negb (end_ + 1 =? i)%nat then None
            else if has_byte "[" (drop_bytes 1 hostport) || has_byte "]" (drop_bytes (end_ + 1) hostport) then None
            else Some (String.substring 1 (end_ - 1) hostport)
        end
      else
        let host := take_bytes i hostport in
        if has_byte ":" host || has_byte "[" hostport || has_byte "]" hostport then None else Some host
  end.

Definition remoteHost (remoteAddr : string) : string := default remoteAddr (split_host remoteAddr).

Example remote_v4 : remoteHost "203.0.113.7:44321" = "203.0.113.7".
Proof. reflexivity. Qed.

Example remote_v6 : remoteHost "[2001:db8::1]:80" = "2001:db8::1".
Proof. reflexivity. Qed.

(** Limiter: the policies and the networks of the trusted proxies, each by the
    hosts it contains; [disabled] when there is no Redis. *)
Record Limiter := mkLimiter {
  disabled : bool;
  general : Bucket;
  auth_bucket : Bucket;
  trustedProxies : list (string -> bool)
}.

Definition peerTrusted (l : Limiter) (host : string) : bool := existsb (fun n => n host) (trustedProxies l).

Definition clientIP (l : Limiter) (remoteAddr xff : string) : string :=
  let peer := remoteHost remoteAddr in
  if peerTrusted l peer && negb (String.eqb xff "") then
    match index_byte "," xff with
    | Some i => trim_space (take_bytes i xff)
    | None => trim_space xff
    end
  else peer.

(** classify: the user the authentication put in the context, if any. *)
Definition classify (l : Limiter) (path remoteAddr xff : string) (uid : option string) : Bucket * string :=
  let bucket := if String.prefix "/v1/auth" path then auth_bucket l else general l in
  let u := default "" uid in
  if String.eqb u "" then (bucket, ("rl:ip:" ++ clientIP l remoteAddr xff)%string)
  else (bucket, ("rl:user:" ++ u)%string).

(** ** The arithmetic of the bucket *)

#[local] Open Scope Q_scope.

Lemma q_min_spec a b : (q_min a b == a /\ a <= b) \/ (q_min a b == b /\ b <= a).
Proof.
  unfold q_min. destruct (Qle_bool a b) eqn:E.
  - left. apply Qle_bool_iff in E. split; [reflexivity|done].
  - right. split; [reflexivity|]. apply Qlt_le_weak, Qnot_le_lt. intros C%Qle_bool_iff. congruence.
Qed.

Lemma q_max_spec a b : (q_max a b == b /\ a <= b) \/ (q_max a b == a /\ b <= a).
Proof.
  unfold q_max. destruct (Qle_bool a b) eqn:E.
  - left. apply Qle_bool_iff in E. split; [reflexivity|done].
  - right. split; [reflexivity|]. apply Qlt_le_weak, Qnot_le_lt. intros C%Qle_bool_iff. congruence.
Qed.

Lemma Qle_bool_false a b : Qle_bool a b = false -> b < a.
Proof. intros E. apply Qnot_le_lt. intros C%Qle_bool_iff. congruence. Qed.

Lemma q_min_le a b : q_min a b <= a /\ q_min a b <= b.
Proof. destruct (q_min_spec a b) as [[-> L]|[-> L]]; split; (done || apply Qle_refl). Qed.

Lemma q_min_glb a b c : c <= a -> c <= b -> c <= q_min a b.
Proof. by destruct (q_min_spec a b) as [[-> L]|[-> L]]. Qed.

Lemma q_max_pos x : 0 <= q_max 0 x.
Proof. destruct (q_max_spec 0 x) as [[-> L]|[-> L]]; [done|apply Qle_refl]. Qed.

Lemma q_max_same x : 0 <= x -> q_max 0 x == x.
Proof. intros Hx. destruct (q_max_spec 0 x) as [[-> L]|[-> L]]; [reflexivity|]. by apply Qle_antisym. Qed.

(** The refill keeps between nothing and the capacity. *)
Lemma refilled_bounds capacity rate now data :
  0 <= capacity -> 0 <= rate -> (forall d, data = Some d -> 0 <= st_tokens d) ->
  0 <= refilled capacity rate now data <= capacity.
Proof.
  intros Hc Hr Hd.
  assert (forall x, 0 <= q_max 0 x * rate) as Hx by (intros x; apply Qmult_le_0_compat; [apply q_max_pos|done]).
  destruct data as [d|]; cbn [refilled]; (split; [|apply q_min_le]); apply q_min_glb; try done.
  - specialize (Hd d eq_refl). specialize (Hx (now - st_ts d)). lra.
  - specialize (Hx (now - now)). lra.
Qed.

(** A policy of at most [C] tokens and rate [R]. *)
Definition within (C R : Q) (b : Bucket) : Prop :=
  0 <= inject_Z (Capacity b) <= C /\ 0 <= ratePerSecond b <= R.

(** One policy's request at a time. *)
Definition request_at (b : Bucket) (now : Q) (data : option bucket_state) : verdict * bucket_state :=
  tokenBucket (inject_Z (Capacity b)) (ratePerSecond b) now 1 data.

Lemma allow_request key b now rnow s :
  allow key b now rnow s =
  (fst (request_at b now (fetch rnow key s)),
   <[key := mkEntry (snd (request_at b now (fetch rnow key s)))
              (rnow + inject_Z (ttl (inject_Z (Capacity b)) (ratePerSecond b)))]> s).
Proof. unfold allow, request_at. by destruct (tokenBucket _ _ _ _ _). Qed.

(** A request for a key: its policy, the gateway's time and Redis' time. *)
Record attempt := mkAttempt { at_policy : Bucket; at_now : Q; at_redis : Q }.

(** The requests for a key, one after the other, and which were granted. *)
Fixpoint grants (key : string) (reqs : list attempt) (s : redis) : list bool :=
  match reqs with
  | [] => []
  | r :: reqs' =>
      let '(v, s') := allow key (at_policy r) (at_now r) (at_redis r) s in allowed v :: grants key reqs' s'
  end.

(** The gateway's clock does not go back, and Redis' does not run ahead of it. *)
Fixpoint in_order (t rt : Q) (reqs : list attempt) : Prop :=
  match reqs with
  | [] => True
  | r :: reqs' => t <= at_now r /\ at_redis r - rt <= at_now r - t /\ in_order (at_now r) (at_redis r) reqs'
  end.

Definition last_time (t : Q) (reqs : list attempt) : Q := List.last (map at_now reqs) t.

(** The rate with which the script computes the time to live. *)
Definition ttl_rate (b : Bucket) : Q := q_max (ratePerSecond b) (1 # 10000).

(** To refill [C] tokens at rate [R] takes at most a second longer than to refill
    the policy's capacity at that rate. *)
Definition lasting (C R : Q) (b : Bucket) : Prop :=
  C * ttl_rate b <= R * (inject_Z (Capacity b) + ttl_rate b).

Definition granted (l : list bool) : Z := Z.of_nat (List.length (List.filter id l)).

(** A key is kept for as long as it takes to refill [C] tokens at rate [R]. *)
Lemma ttl_lasts C R b : 0 <= R -> lasting C R b ->
  C <= R * inject_Z (ttl (inject_Z (Capacity b)) (ratePerSecond b)).
Proof.
  intros HR HL. unfold lasting in HL. unfold ttl. fold (ttl_rate b). set (m := ttl_rate b) in *.
  assert (0 < m) as Hm.
  { unfold m, ttl_rate. destruct (q_max_spec (ratePerSecond b) (1 # 10000)) as [[E L]|[E L]]; rewrite E; lra. }
  pose proof (Qle_ceiling (inject_Z (Capacity b) / m)) as Hk. rewrite inject_Z_plus. change (inject_Z 1) with 1.
  set (k := inject_Z (Qceiling _)) in *.
  assert (inject_Z (Capacity b) <= k * m) as Hc.
  { apply (Qmult_le_compat_r _ _ m) in Hk; [|by apply Qlt_le_weak]. 
    assert (inject_Z (Capacity b) / m * m == inject_Z (Capacity b)) as E by (field; lra). by rewrite E in Hk. }
  apply (Qmult_lt_0_le_reg_r _ _ m Hm). 
  assert (R * (inject_Z (Capacity b) + m) <= R * (k * m + m)) as Hr by nra. lra.
Qed.

Lemma refill_le C R b now d :
  within C R b -> st_ts d <= now -> 0 <= st_tokens d ->
  let t := refilled (inject_Z (Capacity b)) (ratePerSecond b) now (Some d) in
  0 <= t /\ t <= C /\ t <= st_tokens d + R * (now - st_ts d).
Proof.
  intros [[H1 H2] [H3 H4]] Ht Hd. cbv zeta.
  destruct (refilled_bounds (inject_Z (Capacity b)) (ratePerSecond b) now (Some d) H1 H3) as [L0 L1]; [by intros x [= <-]|].
  split; [done|]. split; [by apply (Qle_trans _ (inject_Z (Capacity b)))|]. cbn [refilled].
  destruct (q_min_le (inject_Z (Capacity b)) (st_tokens d + q_max 0 (now - st_ts d) * ratePerSecond b)) as [_ L].
  assert (0 <= now - st_ts d) as Hn by lra. rewrite (q_max_same _ Hn) in L at 2.
  pose proof (Qmult_le_compat_r _ _ _ H4 Hn). lra.
Qed.

Lemma request_state b now data : 0 <= inject_Z (Capacity b) ->
  let t := refilled (inject_Z (Capacity b)) (ratePerSecond b) now data in
  let '(v, st) := request_at b now data in
  st_ts st = now /\
  ((allowed v = true /\ 1 <= t /\ st_tokens st = t - 1) \/ (allowed v = false /\ t < 1 /\ st_tokens st = t)).
Proof.
  intros HC. unfold request_at, tokenBucket. cbv zeta. destruct (Qle_bool 1 _) eqn:E; cbn; (split; [done|]).
  - left. apply Qle_bool_iff in E. done.
  - right. apply Qle_bool_false in E. done.
Qed.

Lemma granted_cons v l : inject_Z (granted (v :: l)) == (if v : bool then 1 else 0) + inject_Z (granted l).
Proof.
  unfold granted. destruct v.
  - change (List.filter id (true :: l)) with (true :: List.filter id l). cbn [List.length].
    rewrite Nat2Z.inj_succ. unfold Z.succ. rewrite inject_Z_plus. apply Qplus_comm.
  - change (List.filter id (false :: l)) with (List.filter id l). symmetry. apply Qplus_0_l.
Qed.

Lemma last_time_cons t r reqs : last_time t (r :: reqs) = last_time (at_now r) reqs.
Proof.
  unfold last_time. cbn [map]. destruct (map at_now reqs) as [|x l]; [done|].
  change (List.last (at_now r :: x :: l) t) with (List.last (x :: l) t). revert x.
  induction l as [|y l IH]; intros x; [done|]. apply (IH y).
Qed.

Lemma refilled_none capacity rate now : 0 <= rate -> refilled capacity rate now None = capacity.
Proof.
  intros Hr. cbn [refilled]. unfold q_min.
  destruct (Qle_bool capacity _) eqn:E; [done|]. apply Qle_bool_false in E.
  destruct (q_max_spec 0 (now - now)) as [[E1 L]|[E1 L]]; rewrite E1 in E; nra.
Qed.

(** What a request finds under a key whose last request left [e] at Redis' time
    [rt]: also when the key has expired, no more than what accrued since. *)
Lemma found_le C R key b now rnow rt s e :
  0 <= R -> within C R b -> s !! key = Some e -> 0 <= st_tokens (en_state e) -> C <= R * (en_expires e - rt) ->
  st_ts (en_state e) <= now -> rnow - rt <= now - st_ts (en_state e) ->
  let t := refilled (inject_Z (Capacity b)) (ratePerSecond b) now (fetch rnow key s) in
  0 <= t /\ t <= C /\ t <= st_tokens (en_state e) + R * (now - st_ts (en_state e)).
Proof.
  intros HR Hb Hs Ht Hx Hn Hc. cbv zeta. unfold fetch. rewrite Hs.
  destruct (Qle_bool (en_expires e) rnow) eqn:E; [|by apply refill_le]. apply Qle_bool_iff in E.
  destruct Hb as [[K1 K2] [K3 K4]]. rewrite refilled_none by done. split; [done|]. split; [done|].
  assert (en_expires e - rt <= now - st_ts (en_state e)) as L by lra.
  apply (Qmult_le_compat_r _ _ R) in L; [|done]. lra.
Qed.

(** A policy that the bound covers. *)
Definition covered (C R : Q) (r : attempt) : Prop := within C R (at_policy r) /\ lasting C R (at_policy r).

(** From a key with some tokens on, at most those and what accrues. *)
Lemma grants_bound C R key reqs s e rt :
  0 <= R -> Forall (covered C R) reqs -> in_order (st_ts (en_state e)) rt reqs ->
  s !! key = Some e -> 0 <= st_tokens (en_state e) -> C <= R * (en_expires e - rt) ->
  inject_Z (granted (grants key reqs s)) <=
    st_tokens (en_state e) + R * (last_time (st_ts (en_state e)) reqs - st_ts (en_state e)).
Proof.
  intros HR. revert s e rt. induction reqs as [|[b now rnow] reqs IH]; intros s e rt Hw Ho Hs Hd Hx.
  { unfold last_time. cbn [map List.last grants]. change (inject_Z (granted [])) with 0. lra. }
  apply Forall_cons_1 in Hw as [[Hb Hl] Hw]. cbn [at_policy at_now at_redis] in *. destruct Ho as (Ht & Hc & Ho).
  cbn [grants at_policy at_now at_redis]. rewrite allow_request, last_time_cons, granted_cons. cbn [at_now].
  destruct (found_le C R key b now rnow rt s e HR Hb Hs Hd Hx Ht Hc) as (L0 & L1 & L2).
  pose proof (request_state b now (fetch rnow key s) (proj1 (proj1 Hb))) as HS.
  destruct (request_at b now (fetch rnow key s)) as [v st]. cbv zeta in HS. destruct HS as [Ets HS]. cbn [fst snd].
  set (t := refilled _ _ _ _) in *. set (e' := mkEntry st _).
  assert (0 <= st_tokens st) as Hst by (destruct HS as [(_ & H1 & ->)|(_ & H1 & ->)]; lra).
  specialize (IH (<[key := e']> s) e' rnow Hw). cbn [e' en_state en_expires] in IH. rewrite Ets in IH.
  specialize (IH Ho (lookup_insert_eq _ _ _) Hst).
  pose proof (ttl_lasts C R b HR Hl) as Httl. set (k := inject_Z (ttl _ _)) in *.
  assert (C <= R * (rnow + k - rnow)) as Hk by nra. specialize (IH Hk).
  destruct HS as [(-> & H1 & E)|(-> & H1 & E)]; rewrite E in IH; nra.
Qed.

(** C39: The limiter's bound. Whatever the mix of policies under which a key is
    asked for, from a request on that finds no key in Redis, up to any moment
    allow has granted at most the largest capacity plus what the fastest rate
    accrues since - also when Redis forgets the key in between, because its time
    to live outlasts the refill.  This needs clocks in order: the gateway's does
    not go back, and Redis' does not run ahead of it; and policies of which none
    refills much sooner than the bound's, as the two of the gateway by default
    (default_policies_covered). *)
Theorem rate_limit_bound C R key r0 reqs s
    (HR : 0 <= R) (Hw : Forall (covered C R) (r0 :: reqs)) (Ho : in_order (at_now r0) (at_redis r0) reqs)
    (Hs : fetch (at_redis r0) key s = None) :
  inject_Z (granted (grants key (r0 :: reqs) s)) <= C + R * (last_time (at_now r0) reqs - at_now r0).
Proof.
  apply Forall_cons_1 in Hw as [[Hb Hl] Hw]. destruct r0 as [b t0 rt0]. cbn [at_policy at_now at_redis] in *.
  cbn [grants at_policy at_now at_redis]. rewrite allow_request, Hs, granted_cons.
  pose proof (request_state b t0 None (proj1 (proj1 Hb))) as HS.
  destruct (request_at b t0 None) as [v st]. cbv zeta in HS. destruct HS as [Ets HS]. cbn [fst snd].
  destruct Hb as [[K1 K2] [K3 K4]]. rewrite refilled_none in HS by done. set (e := mkEntry st _).
  assert (0 <= st_tokens st) as Hst by (destruct HS as [(_ & H1 & ->)|(_ & H1 & ->)]; lra).
  pose proof (ttl_lasts C R b HR Hl) as Httl. set (k := inject_Z (ttl _ _)) in *.
  pose proof (grants_bound C R key reqs (<[key := e]> s) e rt0 HR Hw) as HG.
  cbn [e en_state en_expires] in HG. rewrite Ets in HG. specialize (HG Ho (lookup_insert_eq _ _ _) Hst).
  assert (C <= R * (rt0 + k - rt0)) as Hk by lra. specialize (HG Hk).
  destruct HS as [(-> & H1 & E)|(-> & H1 & E)]; rewrite E in HG; lra.
Qed.

(** ** Forgetting idle keys *)

Lemma refilled_full capacity rate now d :
  capacity <= st_tokens d + (now - st_ts d) * rate -> 0 <= rate -> st_ts d <= now ->
  refilled capacity rate now (Some d) = capacity.
Proof.
  intros Hf Hr Ht. cbn [refilled]. unfold q_min.
  destruct (Qle_bool capacity _) eqn:E; [done|]. apply Qle_bool_false in E.
  destruct (q_max_spec 0 (now - st_ts d)) as [[E1 L]|[E1 L]]; rewrite E1 in E; nra.
Qed.

Lemma ttl_refills capacity rate : 0 <= capacity -> 1 # 10000 <= rate -> capacity <= inject_Z (ttl capacity rate) * rate.
Proof.
  intros Hc Hr. unfold ttl. rewrite inject_Z_plus.
  pose proof (Qle_ceiling (capacity / q_max rate (1 # 10000))) as Hce.
  set (k := inject_Z (Qceiling _)) in *. change (inject_Z 1) with 1.
  destruct (q_max_spec rate (1 # 10000)) as [[E L]|[E L]]; rewrite E in Hce.
  - assert (rate == 1 # 10000) as Er by lra. rewrite Er.
    assert (capacity == capacity / (1 # 10000) * (1 # 10000)) as Ec by (field; lra). nra.
  - assert (capacity == capacity / rate * rate) as Ec by (field; lra). nra.
Qed.

Lemma request_at_refilled b now d1 d2 :
  refilled (inject_Z (Capacity b)) (ratePerSecond b) now d1 = refilled (inject_Z (Capacity b)) (ratePerSecond b) now d2 ->
  request_at b now d1 = request_at b now d2.
Proof. intros E. unfold request_at, tokenBucket. by rewrite E. Qed.

(** Dropping an idle key changes nothing: after a request for a key, Redis
    may forget it when its time to live has passed, and the next request gets
    the verdict, and leaves the bucket, of a key that is never forgotten,
    provided the gateway's clock advanced by at least as much as Redis'. *)
Theorem expiry_unobservable key b now0 rnow0 now rnow (s : redis)
    (Hcap : 0 <= inject_Z (Capacity b)) (Hrate : 1 # 10000 <= ratePerSecond b)
    (Hs : forall d, fetch rnow0 key s = Some d -> 0 <= st_tokens d)
    (Hback : now0 <= now) (Hclocks : rnow - rnow0 <= now - now0) :
  let s1 := snd (allow key b now0 rnow0 s) in
  request_at b now (fetch rnow key s1) = request_at b now (option_map en_state (s1 !! key)).
Proof.
  cbv zeta. unfold allow, fetch at 1. fold (request_at b now0 (fetch rnow0 key s)).
  pose proof (request_state b now0 (fetch rnow0 key s) Hcap) as HS.
  destruct (request_at b now0 (fetch rnow0 key s)) as [v st]. cbv zeta in HS. destruct HS as [Ets HS].
  cbn [snd]. rewrite lookup_insert_eq. cbn [option_map en_state en_expires].
  destruct (Qle_bool _ rnow) eqn:E; [|done]. apply Qle_bool_iff in E.
  assert (0 <= st_tokens st) as Hst.
  { set (t := refilled _ _ _ _) in HS. assert (0 <= t) as Ht by (apply refilled_bounds; [done|lra|exact Hs]).
    destruct HS as [(_ & H1 & ->)|(_ & H1 & ->)]; lra. }
  apply request_at_refilled. rewrite refilled_none by lra. symmetry.
  pose proof (ttl_refills (inject_Z (Capacity b)) (ratePerSecond b) Hcap Hrate) as HT.
  set (k := inject_Z (ttl _ _)) in *. apply refilled_full; rewrite ?Ets; [|lra|done].
  assert (k <= now - now0) as Hk by lra. nra.
Qed.

(** ** Demonstrations *)

(** The policies the gateway configures by default. *)
Definition default_general : Bucket := mkBucket 120 60000000000.
Definition default_auth : Bucket := mkBucket 10 60000000000.

Example default_policies_covered :
  forall now rnow, covered 120 2 (mkAttempt default_general now rnow) /\ covered 120 2 (mkAttempt default_auth now rnow).
Proof. intros now rnow. split; (split; [|by apply Qle_bool_iff]); repeat split; by apply Qle_bool_iff. Qed.

(** Logins and other requests; Redis forgets the key before the last one. *)
Definition demo_attempts : list attempt :=
  [mkAttempt default_auth 101 8; mkAttempt default_general 103 9; mkAttempt default_auth 200 100].

Example rate_limit_bound_witness :
  granted (grants "rl:ip:10.0.0.1" (mkAttempt default_auth 100 7 :: demo_attempts) ∅) = 4%Z /\
  inject_Z (granted (grants "rl:ip:10.0.0.1" (mkAttempt default_auth 100 7 :: demo_attempts) ∅)) <=
    120 + 2 * (last_time 100 demo_attempts - 100).
Proof.
  split; [vm_compute; reflexivity|]. apply (rate_limit_bound 120 2 "rl:ip:10.0.0.1" (mkAttempt default_auth 100 7) demo_attempts ∅).
  - by apply Qle_bool_iff.
  - repeat (apply List.Forall_cons; [apply default_policies_covered|]). apply List.Forall_nil.
  - cbn. repeat split; by apply Qle_bool_iff.
  - vm_compute. reflexivity.
Defined.

Example expiry_unobservable_witness :
  let s1 := snd (allow "rl:ip:10.0.0.1" default_auth 100 7 ∅) in
  fetch 80 "rl:ip:10.0.0.1" s1 = None /\
  request_at default_auth 200 (fetch 80 "rl:ip:10.0.0.1" s1) =
    request_at default_auth 200 (option_map en_state (s1 !! "rl:ip:10.0.0.1")).
Proof.
  split; [by vm_compute|]. apply expiry_unobservable.
  - by apply Qle_bool_iff.
  - by apply Qle_bool_iff.
  - intros d F. by vm_compute in F.
  - by apply Qle_bool_iff.
  - by apply Qle_bool_iff.
Defined.

(** The key does not tell the policies apart: a caller who mixes in other
    requests is granted far more logins than the policy of /v1/auth allows.
    Here, in half a minute, 31 instead of 15. *)
Definition at_second (b : Bucket) (i : nat) : attempt := mkAttempt b (inject_Z (Z.of_nat i)) (inject_Z (Z.of_nat i)).

Definition mixed_requests : list attempt := flat_map (fun i => [at_second default_general i; at_second default_auth i]) (seq 0 31).

Definition granted_for (b : Bucket) (reqs : list attempt) : Z :=
  granted (map snd (List.filter (fun x => Z.eqb (Capacity (at_policy (fst x))) (Capacity b))
    (combine reqs (grants "rl:user:u1" reqs ∅)))).

Example mixing_defeats_auth_policy :
  granted_for default_auth mixed_requests = 31%Z /\
  granted_for default_auth (List.filter (fun r => Z.eqb (Capacity (at_policy r)) 10) mixed_requests) = 15%Z.
Proof. vm_compute. split; reflexivity. Qed.

(** A clock that lags resets the time of the last refill: two replicas a minute
    apart grant everything. *)
Example skewed_clocks_defeat_limit :
  granted (grants "rl:user:u1" (flat_map (fun i => [mkAttempt default_auth 60 0; mkAttempt default_auth 0 0]) (seq 0 100)) ∅) = 200%Z.
Proof. vm_compute. reflexivity. Qed.

(** The time to live takes the rate to be at least one in 10000 seconds: a policy
    of 10 in 1000 hours is forgotten after 28 hours, and starts anew. *)
Definition slow_policy : Bucket := mkBucket 10 3600000000000000.

Definition ten_at (t : Q) : list attempt := repeat (mkAttempt slow_policy t t) 10.

Example slow_policy_forgets :
  within 10 (ratePerSecond slow_policy) slow_policy /\
  granted (grants "rl:user:u1" (ten_at 0 ++ ten_at 200000) ∅) = 20%Z /\
  Qle_bool 20 (10 + ratePerSecond slow_policy * 200000) = false.
Proof. split; [repeat split; by apply Qle_bool_iff|]. split; vm_compute; reflexivity. Qed.
