(* ===== verification/Edge.v ===== *)
(** * The API gateway (services/gateway/internal/auth and internal/proxy)

    What the gateway does to a request: it strips the identity headers, limits
    the rate, verifies the bearer token, injects the identity of the claims and
    forwards the rest to the upstream of the path.  Headers are a function of
    the canonical name; the Go library's reverse proxy is modelled as far as it
    touches headers. *)
From S2P Require Export Token RateLimit.
From S2P Require Export AuthProofs.

(** ** net/http headers *)

Definition headers := string -> list string.

Definition get (h : string) (hs : headers) : string := List.hd "" (hs h).
Definition del (h : string) (hs : headers) : headers := fun k => if String.eqb k h then [] else hs k.
Definition set_ (h v : string) (hs : headers) : headers := fun k => if String.eqb k h then [v] else hs k.

(** The bytes of a token in RFC 9110. *)
Definition token_byte (c : Ascii.ascii) : bool :=
  let n := nat_of_ascii c in
  ((48 <=? n) && (n <=? 57) || (65 <=? n) && (n <=? 90) || (97 <=? n) && (n <=? 122))%nat ||
  match String.index 0 (String c "") "!#$%&'*+-.^_`|~" with Some _ => true | None => false end.

Definition upper_char (c : Ascii.ascii) : Ascii.ascii :=
  let n := nat_of_ascii c in if (97 <=? n)%nat && (n <=? 122)%nat then ascii_of_nat (n - 32) else c.

Fixpoint recase (upper : bool) (s : string) : string :=
  match s with
  | EmptyString => EmptyString
  | String c s' =>
      String (if upper then upper_char c else lower_char c) (recase (Ascii.eqb c "-"%char) s')
  end.

Fixpoint all_bytes (p : Ascii.ascii -> bool) (s : string) : bool :=
  match s with EmptyString => true | String c s' => p c && all_bytes p s' end.

(** textproto.CanonicalMIMEHeaderKey *)
Definition canonical (s : string) : string := if all_bytes token_byte s then recase true s else s.

Example canonical_id : canonical "x-user-ID" = "X-User-Id".
Proof. reflexivity. Qed.

(** An inbound request: what the gateway looks at. *)
Record inbound := mkInbound {
  in_method : string;
  in_path : string;
  in_headers : headers;
  in_remote : string
}.

Definition with_headers (hs : headers) (r : inbound) : inbound :=
  mkInbound (in_method r) (in_path r) hs (in_remote r).

(** ** Identity (internal/auth) *)

Definition trustedHeaders : list string :=
  ["X-User-Id"; "X-Permissions"; "X-Roles"; "X-Residency"; "X-User-Permissions"; "X-User-Roles"; "X-Account-Type"].

Definition StripTrustedHeaders (hs : headers) : headers := fold_left (fun hs h => del h hs) trustedHeaders hs.

Definition injectIdentity (c : Claims) (hs : headers) : headers :=
  let perms := String.concat "," (cl_Permissions c) in
  let roles := String.concat "," (cl_Roles c) in
  set_ "X-Account-Type" (cl_AccountType c)
    (set_ "X-User-Roles" roles
      (set_ "X-User-Permissions" perms
        (set_ "X-Residency" (cl_ResidencyCountry c)
          (set_ "X-Roles" roles
            (set_ "X-Permissions" perms
              (set_ "X-User-Id" (cl_UserID c) hs)))))).

Definition bearerToken (hs : headers) : option string :=
  let h := get "Authorization" hs in
  if (String.length h <=? 7)%nat || negb (String.eqb (lower (take_bytes 7 h)) "bearer ") then None
  else
    let tok := trim_space (drop_bytes 7 h) in
    if String.eqb tok "" then None else Some tok.

(** ** Routing (internal/proxy) *)

Definition publicRoutes : list (string * string) :=
  [("POST", "/v1/auth/register"); ("POST", "/v1/auth/login"); ("POST", "/v1/auth/refresh");
   ("POST", "/v1/auth/logout"); ("GET", "/.well-known/jwks.json"); ("POST", "/v1/payments/webhook/stripe");
   ("GET", "/healthz")].

Definition isPublic (r : inbound) : bool :=
  existsb (fun mp => String.eqb (fst mp) (in_method r) && String.eqb (snd mp) (in_path r)) publicRoutes.

Record upstreamProxy := mkUpstream { up_name : string; up_prefix : string; up_target : string }.

(** Upstream, routeDef and routingTable of the configuration. *)
Definition routingTable : list (string * string) :=
  [("/v1/auth", "auth"); ("/v1/users", "user"); ("/v1/projects", "project"); ("/v1/proposals", "proposal");
   ("/v1/contracts", "contract"); ("/v1/tracking", "timetracking"); ("/v1/screenshots", "screenshot");
   ("/v1/sessions", "screenshot"); ("/v1/payments", "payment"); ("/v1/escrow", "escrow");
   ("/v1/reviews", "review"); ("/v1/messages", "messaging"); ("/v1/conversations", "messaging");
   ("/v1/notifications", "notification"); ("/v1/search", "search"); ("/v1/admin", "admin");
   ("/v1/fraud", "fraud"); ("/v1/analytics", "analytics")].

(** sort.SliceStable, longest prefix first. *)
Fixpoint insert_longest (u : upstreamProxy) (l : list upstreamProxy) : list upstreamProxy :=
  match l with
  | [] => [u]
  | x :: l' => if (String.length (up_prefix x) <? String.length (up_prefix u))%nat
               then u :: l else x :: insert_longest u l'
  end.

Definition by_length (l : list upstreamProxy) : list upstreamProxy :=
  fold_left (fun sorted u => insert_longest u sorted) l [].

(** The upstreams of Load: [base] is the value of UPSTREAM_<SERVICE>, or the
    default address. *)
Definition upstreams_of (base : string -> option string) : list upstreamProxy :=
  by_length (map (fun rd =>
    mkUpstream (snd rd) (fst rd) (default ("http://" ++ snd rd ++ ":8080")%string (base (snd rd)))) routingTable).

Definition jwksPath : string := "/.well-known/jwks.json".

(** NewRouter, for addresses that parse: the key set is served by auth. *)
Definition NewRouter (ups : list upstreamProxy) : list upstreamProxy :=
  match List.last (map up_target (List.filter (fun u => String.eqb (up_name u) "auth") ups)) "" with
  | "" => ups
  | authBase => mkUpstream "auth" jwksPath authBase :: ups
  end.

Definition matchPrefix (path prefix : string) : bool :=
  String.eqb path prefix || String.prefix (prefix ++ "/") path.

Definition match_ (router : list upstreamProxy) (path : string) : option upstreamProxy :=
  List.find (fun u => matchPrefix path (up_prefix u)) router.

(** The logical upstream of a request, for the metrics. *)
Definition RouteName (router : list upstreamProxy) (path : string) : string :=
  if String.eqb path "/healthz" || String.eqb path "/metrics" then "internal" else
  match match_ router path with
  | Some u => up_name u
  | None => "unmatched"
  end.

Definition statusText (code : Z) : string :=
  if 500 <=? code then "5xx" else if 400 <=? code then "4xx" else if 300 <=? code then "3xx"
  else if 200 <=? code then "2xx" else "1xx".

(** A comma-separated setting. *)
Definition splitCSV (s : string) : list string :=
  List.filter (fun t => negb (String.eqb t "")) (map trim_space (Strings.split "," s)).

(** ** The reverse proxy *)

Definition hopHeaders : list string :=
  ["Connection"; "Proxy-Connection"; "Keep-Alive"; "Proxy-Authenticate"; "Proxy-Authorization"; "Te"; "Trailer";
   "Transfer-Encoding"; "Upgrade"].

(** The headers the Connection header names. *)
Definition connection_names (hs : headers) : list string :=
  List.filter (fun s => negb (String.eqb s ""))
    (map trim_space (flat_map (Strings.split ",") (hs "Connection"))).

(** removeHopByHopHeaders, and the Forwarded headers that Rewrite starts
    without. *)
Definition outbound_headers (hs : headers) : headers :=
  fold_left (fun hs h => del h hs)
    (map canonical (connection_names hs) ++ hopHeaders ++
     ["Forwarded"; "X-Forwarded-For"; "X-Forwarded-Host"; "X-Forwarded-Proto"]) hs.

(** SetXForwarded, as far as the services read it: the host of the peer. *)
Definition forwarded_headers (r : inbound) : headers :=
  let hs := outbound_headers (in_headers r) in
  match split_host (in_remote r) with
  | Some ip => set_ "X-Forwarded-For" ip hs
  | None => hs
  end.

(** ** The pipeline *)

(** What becomes of a request: an answer of the gateway, or the upstream with
    the headers it gets. *)
Inductive outcome :=
| Forward (u : upstreamProxy) (hs : headers)
| Refuse (code : Z) (name : string)
| Limited (retry : Z)
| Internal (path : string).

(** The clocks of the gateway and of Redis and whether Redis answers, at the
    first and the second asking. *)
Record edge_env := mkEdgeEnv { en_now : bool -> Q; en_rnow : bool -> Q; en_up : bool -> bool }.

Section Pipeline.
Context (router : list upstreamProxy) (limiter : Limiter) (e : edge_env).

(** The verifier at the time of the request. *)
Context (verify : string -> option Claims).

(** Router.ServeHTTP *)
Definition proxied (r : inbound) (s : redis) : outcome * redis :=
  match match_ router (in_path r) with
  | None => (Refuse 404 "NOT_FOUND", s)
  | Some u => (Forward u (forwarded_headers r), s)
  end.

(** Limiter.Middleware: it lets a request pass when Redis fails. *)
Definition limited (second : bool) (uid : option string) (next : inbound -> redis -> outcome * redis)
  (r : inbound) (s : redis) : outcome * redis :=
  if disabled limiter then next r s else
  let '(b, key) := classify limiter (in_path r) (in_remote r) (get "X-Forwarded-For" (in_headers r)) uid in
  if negb (en_up e second) then next r s else
  let '(v, s') := allow key b (en_now e second) (en_rnow e second) s in
  if allowed v then next r s' else (Limited (Z.max 1 (retry_after v)), s').

(** Verifier.Middleware around the limit by user. *)
Definition protected (r : inbound) (s : redis) : outcome * redis :=
  match bearerToken (in_headers r) with
  | None => (Refuse 401 "UNAUTHORIZED", s)
  | Some raw =>
      match verify raw with
      | None => (Refuse 401 "UNAUTHORIZED", s)
      | Some c =>
          limited true (Some (cl_UserID c)) proxied (with_headers (injectIdentity c (in_headers r)) r) s
      end
  end.

Definition dispatch (r : inbound) (s : redis) : outcome * redis :=
  if isPublic r then proxied r s else protected r s.

Definition proxyPipeline (r : inbound) (s : redis) : outcome * redis :=
  limited false None dispatch (with_headers (StripTrustedHeaders (in_headers r)) r) s.

(** middleware.RequestID, with a fresh identifier. *)
Definition RequestID (fresh : string) (r : inbound) : inbound :=
  let id := get "X-Request-Id" (in_headers r) in
  with_headers (set_ "X-Request-Id" (if String.eqb id "" then fresh else id) (in_headers r)) r.

(** Handler, for clean paths: the gateway answers its health probe and metrics
    itself. *)
Definition Handler (fresh : string) (r : inbound) (s : redis) : outcome * redis :=
  let r := RequestID fresh r in
  if String.eqb (in_path r) "/healthz" || String.eqb (in_path r) "/metrics" then (Internal (in_path r), s)
  else proxyPipeline r s.
End Pipeline.

(** ** The key set of the verifier (verifier.go) *)

(** refresh: the answer of the JWKS endpoint, its status and parsed body; on
    any failure the keys stay. *)
Definition refresh_keys (answer : option (Z * option json)) (ks : list (string * PublicKey))
  : list (string * PublicKey) :=
  match answer with
  | Some (200, Some doc) => default ks (ParseJWKS doc)
  | _ => ks
  end.

(** NewVerifier: the first fetch must succeed. *)
Definition initial_keys (answer : option (Z * option json)) : option (list (string * PublicKey)) :=
  match answer with
  | Some (200, Some doc) => ParseJWKS doc
  | _ => None
  end.

(** * Whose identity the services see

    The identity headers of a forwarded request come from the claims of a
    verified token and from nowhere else; and the tokens of the auth service
    carry their holder through the gateway. *)
(** ** Headers *)

Lemma fold_del l hs k : fold_left (fun hs h => del h hs) l hs k = if existsb (String.eqb k) l then [] else hs k.
Proof.
  revert hs. induction l as [|h l IH]; intros hs; cbn [fold_left existsb]; [done|].
  rewrite IH. unfold del. by destruct (String.eqb k h), (existsb (String.eqb k) l).
Qed.

Lemma existsb_In k l : existsb (String.eqb k) l = true <-> In k l.
Proof.
  rewrite existsb_exists. split; [by intros (x & Hx & ->%String.eqb_eq)|]. intros Hk. exists k.
  by rewrite String.eqb_refl.
Qed.

Lemma stripped_trusted hs h : In h trustedHeaders -> StripTrustedHeaders hs h = [].
Proof. intros Hh%existsb_In. unfold StripTrustedHeaders. by rewrite fold_del, Hh. Qed.

Lemma stripped_other hs h : ~ In h trustedHeaders -> StripTrustedHeaders hs h = hs h.
Proof.
  intros Hh. unfold StripTrustedHeaders. rewrite fold_del.
  destruct (existsb (String.eqb h) trustedHeaders) eqn:E; [|done]. by apply existsb_In in E.
Qed.

(** What the claims say under a header. *)
Definition identity_value (c : Claims) (h : string) : string := get h (injectIdentity c (fun _ => [])).

Lemma injected c hs h : In h trustedHeaders -> injectIdentity c hs h = [identity_value c h].
Proof. unfold trustedHeaders. intros Hh. repeat destruct Hh as [<-|Hh]; done. Qed.

(** Forwarding keeps a header or drops it. *)
Lemma forwarded_trusted r h :
  In h trustedHeaders -> forwarded_headers r h = [] \/ forwarded_headers r h = in_headers r h.
Proof.
  intros Hh. assert (outbound_headers (in_headers r) h = [] \/ outbound_headers (in_headers r) h = in_headers r h) as Ho.
  { unfold outbound_headers. rewrite fold_del. destruct (existsb _ _); auto. }
  unfold forwarded_headers. destruct (split_host (in_remote r)) as [ip|]; [|done]. unfold set_.
  assert (String.eqb h "X-Forwarded-For" = false) as -> by (repeat destruct Hh as [<-|Hh]; done). done.
Qed.

(** Nothing is dropped when no Connection header names it. *)
Lemma forwarded_kept r h :
  In h trustedHeaders -> in_headers r "Connection" = [] -> forwarded_headers r h = in_headers r h.
Proof.
  intros Hh Hc. assert (outbound_headers (in_headers r) h = in_headers r h) as Ho.
  { unfold outbound_headers, connection_names. rewrite fold_del, Hc. cbn [flat_map map List.filter app].
    repeat destruct Hh as [<-|Hh]; done. }
  unfold forwarded_headers. destruct (split_host (in_remote r)) as [ip|]; [|done]. unfold set_.
  assert (String.eqb h "X-Forwarded-For" = false) as -> by (repeat destruct Hh as [<-|Hh]; done). done.
Qed.

Lemma bearer_stripped hs : bearerToken (StripTrustedHeaders hs) = bearerToken hs.
Proof. unfold bearerToken, get. by rewrite stripped_other by (cbn; intuition discriminate). Qed.

Section Identity.
Context (router : list upstreamProxy) (limiter : Limiter) (e : edge_env) (verify : string -> option Claims).

(** A limited step forwards only what the next one does. *)
Lemma limited_forward second uid next r s u hs s' :
  limited limiter e second uid next r s = (Forward u hs, s') ->
  exists s1 s2, next r s1 = (Forward u hs, s2).
Proof.
  unfold limited. destruct (disabled limiter); [by intros; exists s, s'|].
  destruct (classify _ _ _ _ _) as [b key]. destruct (negb _); [by intros; exists s, s'|].
  destruct (allow _ _ _ _ _) as [v s1]. destruct (allowed v); [by intros; exists s1, s'|done].
Qed.

Lemma proxied_forward r s u hs s' :
  proxied router r s = (Forward u hs, s') -> match_ router (in_path r) = Some u /\ hs = forwarded_headers r.
Proof. unfold proxied. destruct (match_ _ _); [|done]. by intros [= -> <- _]. Qed.

(** What is forwarded: on a public route no identity, elsewhere that of the
    verified claims. *)
Lemma pipeline_forward r s u hs s' :
  proxyPipeline router limiter e verify r s = (Forward u hs, s') ->
  (isPublic r = true /\ hs = forwarded_headers (with_headers (StripTrustedHeaders (in_headers r)) r)) \/
  exists raw c, bearerToken (in_headers r) = Some raw /\ verify raw = Some c /\
    hs = forwarded_headers (with_headers (injectIdentity c (StripTrustedHeaders (in_headers r))) r).
Proof.
  unfold proxyPipeline. intros (s1 & s2 & HD)%limited_forward. unfold dispatch in HD.
  change (isPublic (with_headers (StripTrustedHeaders (in_headers r)) r)) with (isPublic r) in HD.
  destruct (isPublic r); [apply proxied_forward in HD as [_ ->]; by left|]. right.
  unfold protected in HD. cbn [with_headers in_headers] in HD. rewrite bearer_stripped in HD.
  destruct (bearerToken (in_headers r)) as [raw|]; [|done].
  destruct (verify raw) as [c|] eqn:V; [|done]. apply limited_forward in HD as (s3 & s4 & HD).
  apply proxied_forward in HD as [_ ->]. by exists raw, c.
Qed.
End Identity.

(** The headers that say who the user is.  The handlers of the services read
    X-User-Id, X-User-Roles, X-User-Permissions and X-Account-Type, and the
    screenshot service X-Permissions; X-Roles and X-Residency are set by the
    gateway and read by none.  X-Internal-Service, in which the user service
    sees an internal caller, names no user and is not among them: the gateway
    lets it pass as the client sent it. *)
Definition user_identity_headers : list string :=
  ["X-User-Id"; "X-User-Roles"; "X-User-Permissions"; "X-Account-Type"; "X-Permissions"; "X-Roles"; "X-Residency"].

Lemma user_identity_trusted h : In h user_identity_headers -> In h trustedHeaders.
Proof. unfold user_identity_headers. intros Hh. repeat destruct Hh as [<-|Hh]; try done; cbn; tauto. Qed.

Section Theorems.
Context `{Jwt} (router : list upstreamProxy) (limiter : Limiter) (e : edge_env).

(** C13: The services see a user's identity only as the gateway read it in a
    token.  Whatever headers a client sends, a forwarded request carries under
    each of the seven headers that name the user, the roles, the permissions, the
    account type and the residency either nothing, or, when the route is not
    public, what the claims of its bearer token say, and that token was signed by
    the owner of one of the published keys and has not expired.  Other headers
    pass as the client sent them, X-Internal-Service among them. *)
Theorem identity_only_from_token v now fresh r s u hs s'
    (Hf : Handler router limiter e (Verify v now) fresh r s = (Forward u hs, s')) :
  (isPublic r = true /\ forall h, In h user_identity_headers -> hs h = []) \/
  exists raw c kid key, bearerToken (in_headers r) = Some raw /\
    key_of kid (keys v) = Some key /\ Signed key kid raw c /\ seconds now < ExpiresAt c /\
    forall h, In h user_identity_headers -> hs h = [] \/ hs h = [identity_value c h].
Proof.
  unfold Handler in Hf. set (r1 := RequestID fresh r) in *.
  destruct (_ || _); [done|]. apply pipeline_forward in Hf as [[Hp ->]|(raw & c & Hb & Hv & ->)].
  - left. split; [done|]. intros h Hh%user_identity_trusted. destruct (forwarded_trusted (with_headers (StripTrustedHeaders (in_headers r1)) r1) h Hh)
      as [->| ->]; [done|]. by apply stripped_trusted.
  - right. destruct (Verify_signed v now raw c Hv) as (kid & key & Hk & Hs & He).
    exists raw, c, kid, key. do 4 (split; [done|]). intros h Hh%user_identity_trusted.
    destruct (forwarded_trusted (with_headers (injectIdentity c (StripTrustedHeaders (in_headers r1))) r1) h Hh)
      as [->| ->]; [by left|]. right. by apply injected.
Qed.
End Theorems.

(** ** From the auth service to the upstream *)

Section Holder.
Context `{Jwt} `{Argon2} `{PgErrorText} `{PgInet} (cfg : Config).
Context (router : list upstreamProxy) (limiter : Limiter) (e : edge_env).

(** A bearer token is read back from the header. *)
Lemma bearer_read hs tok :
  hs "Authorization" = ["Bearer " ++ tok]%string -> tok <> "" -> trim_space tok = tok -> bearerToken hs = Some tok.
Proof.
  intros Hh Hne Ht. unfold bearerToken, get. rewrite Hh. cbn [List.hd].
  assert (forall a : string, take_bytes 7 ("Bearer " ++ a) = "Bearer ") as Htake by by intros [].
  assert (forall a : string, drop_bytes 7 ("Bearer " ++ a) = a) as Hdrop.
  { intros a. change (drop_bytes 7 ("Bearer " ++ a)) with (String.substring 0 (String.length a - 0) a).
    rewrite Nat.sub_0_r. induction a as [|x a IH]; [done|]. cbn [String.length String.substring]. by rewrite IH. }
  rewrite Htake, Hdrop, Ht. destruct (String.eqb_spec tok ""); [done|].
  rewrite string_length_app. cbn [String.length]. destruct tok as [|x tok]; [done|]. done.
Qed.

Lemma carries_holder roles account toks d v r s u
    (Hn : names_holder cfg roles account toks d) (Ht : trusts cfg v)
    (Hjwt : AccessToken toks <> "" /\ trim_space (AccessToken toks) = AccessToken toks)
    (Hauth : in_headers r "Authorization" = ["Bearer " ++ AccessToken toks]%string)
    (Hconn : in_headers r "Connection" = [])
    (Hprot : isPublic r = false) (Hlim : disabled limiter = true)
    (Hroute : match_ router (in_path r) = Some u) :
  exists t, forall now, seconds t <= seconds now < seconds (t + accessTTL (cf_issuer cfg)) ->
  exists hs, proxyPipeline router limiter e (Verify v now) r s = (Forward u hs, s) /\
    hs "X-User-Id" = [tk_UserID toks] /\ hs "X-User-Roles" = [String.concat "," roles] /\
    hs "X-Account-Type" = [account].
Proof.
  destruct Hn as (t & c & _ & Hid & _ & Hr & Ha & Hv). exists t. intros now Hnow. specialize (Hv v now Ht Hnow).
  unfold proxyPipeline, limited. rewrite Hlim. unfold dispatch.
  change (isPublic (with_headers (StripTrustedHeaders (in_headers r)) r)) with (isPublic r). rewrite Hprot.
  unfold protected. cbn [with_headers in_headers]. rewrite bearer_stripped.
  rewrite (bearer_read _ (AccessToken toks)) by (done || apply Hjwt). rewrite Hv. unfold limited. rewrite Hlim.
  unfold proxied. cbn [with_headers in_path]. rewrite Hroute. eexists. split; [done|].
  assert (forall h, In h trustedHeaders ->
    forwarded_headers (with_headers (injectIdentity c (StripTrustedHeaders (in_headers r))) r) h = [identity_value c h]) as Hh.
  { intros h Hh. rewrite forwarded_kept; [by apply injected|done|].
    transitivity (StripTrustedHeaders (in_headers r) "Connection"); [done|].
    rewrite stripped_other; [done|]. cbn. intuition discriminate. }
  change (mkInbound (in_method r) (in_path r) (injectIdentity c (StripTrustedHeaders (in_headers r))) (in_remote r))
    with (with_headers (injectIdentity c (StripTrustedHeaders (in_headers r))) r).
  rewrite !Hh by (cbn; tauto). unfold identity_value. cbn. by rewrite Hid, Hr, Ha.
Qed.

(** The holder of an access token keeps the identity the auth service gave.
    For the tokens of any call that answered some - a registration, a login, a
    refresh - an undisturbed protected request that bears the access token
    before it expires reaches the upstream of its path with the holder's user
    id, the roles the tables gave when the call began, and the account type of
    the call (which a refresh leaves empty). *)
Theorem edge_carries_holder call p toks ev d n w v r s u
    (Hd : auth_reachable cfg d) (Hcall : tokens_call cfg call = Some p)
    (Hrun : p ev (rest d n) = (Ok toks, w)) (Ht : trusts cfg v)
    (Hjwt : AccessToken toks <> "" /\ trim_space (AccessToken toks) = AccessToken toks)
    (Hauth : in_headers r "Authorization" = ["Bearer " ++ AccessToken toks]%string)
    (Hconn : in_headers r "Connection" = [])
    (Hprot : isPublic r = false) (Hlim : disabled limiter = true)
    (Hroute : match_ router (in_path r) = Some u) :
  exists account t, account_claim call d account /\
  forall now, seconds t <= seconds now < seconds (t + accessTTL (cf_issuer cfg)) ->
  exists hs, proxyPipeline router limiter e (Verify v now) r s = (Forward u hs, s) /\
    hs "X-User-Id" = [tk_UserID toks] /\
    hs "X-User-Roles" = [String.concat "," (roles_of (tk_UserID toks) d)] /\ hs "X-Account-Type" = [account].
Proof.
  destruct (access_token_names_holder cfg call p toks ev d n w Hd Hcall Hrun) as (account & Hac & Hn).
  destruct (carries_holder _ account toks _ v r s u Hn Ht Hjwt Hauth Hconn Hprot Hlim Hroute) as (t & Hgo).
  by exists account, t.
Qed.
End Holder.

(** ** Demonstrations *)

Definition demo_router : list upstreamProxy := NewRouter (upstreams_of (fun _ => None)).

Definition no_limiter : Limiter := mkLimiter true default_general default_auth [].

Definition quiet_edge : edge_env := mkEdgeEnv (fun _ => 0%Q) (fun _ => 0%Q) (fun _ => true).

(** A request with forged identity headers. *)
Definition forged_request (connection : list string) : inbound :=
  mkInbound "GET" "/v1/contracts" (fun h =>
    if String.eqb h "Authorization" then ["Bearer " ++ AccessToken second_tokens]%string
    else if String.eqb h "Connection" then connection
    else if existsb (String.eqb h) trustedHeaders then ["admin"] else []) "10.0.0.9:4711".

Example edge_carries_holder_witness :
  exists account t, account_claim (CRefresh demo_raw "10.0.0.1" "firefox") demo_auth_db account /\
  forall now, seconds t <= seconds now < seconds (t + accessTTL (cf_issuer demo_config)) ->
  exists hs, proxyPipeline demo_router no_limiter quiet_edge (Verify demo_verifier now) (forged_request []) ∅ =
      (Forward (mkUpstream "contract" "/v1/contracts" "http://contract:8080") hs, ∅) /\
    hs "X-User-Id" = [tk_UserID second_tokens] /\
    hs "X-User-Roles" = [String.concat "," (roles_of (tk_UserID second_tokens) demo_auth_db)] /\
    hs "X-Account-Type" = [account].
Proof.
  apply (edge_carries_holder demo_config demo_router no_limiter quiet_edge
    (CRefresh demo_raw "10.0.0.1" "firefox") _ second_tokens (still_env 2 5000) demo_auth_db 0
    (World refreshed_db NoTx 13) demo_verifier (forged_request []) ∅ _ alice_reachable eq_refl first_refresh_ok).
  - by constructor.
  - split; [by vm_compute|by vm_compute].
  - reflexivity.
  - reflexivity.
  - reflexivity.
  - reflexivity.
  - reflexivity.
Defined.

Definition forwarded_to (connection : list string) : option (upstreamProxy * Edge.headers) :=
  match fst (Handler demo_router no_limiter quiet_edge (Verify demo_verifier 6000) "req-1" (forged_request connection) ∅) with
  | Forward u hs => Some (u, hs)
  | _ => None
  end.

Example identity_only_from_token_witness :
  exists u hs, forwarded_to [] = Some (u, hs) /\
  ((isPublic (forged_request []) = true /\ forall h, In h user_identity_headers -> hs h = []) \/
   exists raw c kid key, bearerToken (in_headers (forged_request [])) = Some raw /\
     key_of kid (keys demo_verifier) = Some key /\ Signed key kid raw c /\ seconds 6000 < ExpiresAt c /\
     forall h, In h user_identity_headers -> hs h = [] \/ hs h = [identity_value c h]).
Proof.
  destruct (Handler demo_router no_limiter quiet_edge (Verify demo_verifier 6000) "req-1" (forged_request []) ∅)
    as [o s'] eqn:E.
  unfold forwarded_to. rewrite E. cbn [fst]. destruct o as [u hs|code name|retry|path].
  - exists u, hs. split; [reflexivity|]. exact (identity_only_from_token _ _ _ _ _ _ _ _ _ _ _ E).
  - apply (f_equal fst) in E. vm_compute in E. discriminate E.
  - apply (f_equal fst) in E. vm_compute in E. discriminate E.
  - apply (f_equal fst) in E. vm_compute in E. discriminate E.
Defined.

(** A client can have the identity withheld: the reverse proxy drops the headers
    that the client's Connection header names, the injected ones too. *)
Example connection_header_withholds_identity :
  option_map (fun x => (snd x "X-User-Id", snd x "X-User-Roles")) (forwarded_to ["x-user-id"]) = Some ([], ["client"]).
Proof. vm_compute. reflexivity. Qed.
