(* ===== verification/NotifyStore.v ===== *)
(** * Notifications (services/notification: internal/store, internal/service, cmd/consumer)

    An event becomes one notification for one user and one delivery attempt
    per channel the user has enabled for its type.  The tables are those of
    migration 000009; of users only the identifiers are kept. *)
From stdpp Require Import pretty.
From S2P Require Export Gateway Kafka.

(** ** Row types *)

Record Notification := mkNotification {
  nt_ID : string;
  nt_UserID : string;
  nt_Type : string;
  nt_Title : string;
  nt_Body : option string;
  nt_Data : json;
  nt_ReadAt : option Z;
  nt_CreatedAt : Z
}.

(** A row of notification_preferences. *)
Record PreferenceRow := mkPreferenceRow {
  pr_user_id : string;
  pr_EventType : string;
  pr_Channel : string;
  pr_Enabled : bool
}.

Record DeliveryAttempt := mkAttempt {
  da_id : string;
  da_notification_id : string;
  da_channel : string;
  da_status : string;
  da_provider_ref : option string;
  da_error : option string;
  da_attempted_at : Z
}.

Record notify_db := mkNotifyDb {
  notify_processed : list ProcessedEvent;
  notify_users : list string;
  preferences : list PreferenceRow;
  notifications : list Notification;
  attempts : list DeliveryAttempt
}.

#[export] Instance notify_HasProcessed : HasProcessed notify_db :=
  Table notify_processed (fun l d => mkNotifyDb l (notify_users d) (preferences d) (notifications d) (attempts d)).
Definition preferences_t : table notify_db PreferenceRow :=
  Table preferences (fun l d => mkNotifyDb (notify_processed d) (notify_users d) l (notifications d) (attempts d)).
Definition notifications_t : table notify_db Notification :=
  Table notifications (fun l d => mkNotifyDb (notify_processed d) (notify_users d) (preferences d) l (attempts d)).
Definition attempts_t : table notify_db DeliveryAttempt :=
  Table attempts (fun l d => mkNotifyDb (notify_processed d) (notify_users d) (preferences d) (notifications d) l).

#[export] Instance notify_Deferred : Deferred notify_db := fun _ _ => true.

Inductive notify_err := ErrNotFound.

Abbreviation nprog := (prog notify_db notify_err).

(** ** Store *)

Definition notification_channel : list string := ["in_app"; "email"; "push"; "sms"].

Definition known_user (userID : string) (name : string) (d : notify_db) : option dberr :=
  references name (String.eqb userID) (notify_users d).

Definition same_id {R} (id : R -> string) (x r : R) : bool := String.eqb (id x) (id r).

Definition InsertNotification (userID typ title : string) (body : option string) (data : option (list (string * json)))
  : nprog string :=
  r <- exec (fun s d => insert_row notifications_t
         (fun l r => first_violation [unique_index "notifications_pkey" (same_id nt_ID) l r;
                                      known_user userID "notifications_user_id_fkey" d])
         (fun s => mkNotification (fresh s) userID typ title body (marshal data) None (to_timestamptz (now s))) s d) ;;
  ret (nt_ID r).

Definition enabled_for (userID eventType : string) (r : PreferenceRow) : bool :=
  String.eqb (pr_user_id r) userID && String.eqb (pr_EventType r) eventType && pr_Enabled r.

Definition EnabledChannels (userID eventType : string) : nprog (list string) :=
  l <- exec (select_all preferences_t (enabled_for userID eventType)) ;;
  ret (map pr_Channel l).

Definition InsertDeliveryAttempt (notificationID channel status : string) : nprog string :=
  r <- exec (fun s d => insert_row attempts_t
         (fun l r => if enum notification_channel channel
                     then first_violation [unique_index "delivery_attempts_pkey" (same_id da_id) l r;
                       references "delivery_attempts_notification_id_fkey" (has_key nt_ID notificationID) (notifications d)]
                     else Some InvalidText)
         (fun s => mkAttempt (fresh s) notificationID channel status None None (to_timestamptz (now s))) s d) ;;
  ret (da_id r).

Definition with_outcome (status : string) (ref msg : option string) (r : DeliveryAttempt) : DeliveryAttempt :=
  mkAttempt (da_id r) (da_notification_id r) (da_channel r) status ref msg (da_attempted_at r).

Definition MarkDeliveryStatus (attemptID status : string) (ref msg : option string) : nprog unit :=
  exec (update_rows attempts_t (has_key da_id attemptID) (fun _ => with_outcome status ref msg) (fun _ => None)) ;;;
  ret tt.

(** The data column read back into a map. *)
Definition scanned (r : Notification) : Notification :=
  mkNotification (nt_ID r) (nt_UserID r) (nt_Type r) (nt_Title r) (nt_Body r) (through_any (nt_Data r)) (nt_ReadAt r)
    (nt_CreatedAt r).

Definition inbox (userID : string) (unreadOnly : bool) (r : Notification) : bool :=
  String.eqb (nt_UserID r) userID && (negb unreadOnly || match nt_ReadAt r with None => true | Some _ => false end).

(** A negative LIMIT is an error. *)
Definition store_ListNotifications (userID : string) (unreadOnly : bool) (limit : Z) : nprog (list Notification) :=
  l <- exec_pool (fun _ d =>
         if limit <? 0 then Reject Driver else
         Done (firstn (Z.to_nat limit)
                (rev (order_by nt_CreatedAt (select_rows (inbox userID unreadOnly) (notifications d))))) d) ;;
  ret (map scanned l).

Definition read_at (t : Z) (r : Notification) : Notification :=
  mkNotification (nt_ID r) (nt_UserID r) (nt_Type r) (nt_Title r) (nt_Body r) (nt_Data r) (Some (to_timestamptz t))
    (nt_CreatedAt r).

(** id=$1 AND user_id=$2 AND read_at IS NULL *)
Definition unread_one (notificationID userID : string) (r : Notification) : bool :=
  String.eqb (nt_ID r) notificationID && inbox userID true r.

Definition store_MarkRead (notificationID userID : string) : nprog unit :=
  l <- exec (update_rows notifications_t (unread_one notificationID userID) (fun s => read_at (now s)) (fun _ => None)) ;;
  match l with [] => fail ErrNotFound | _ => ret tt end.

Definition store_MarkAllRead (userID : string) : nprog Z :=
  l <- exec (update_rows notifications_t (inbox userID true) (fun s => read_at (now s)) (fun _ => None)) ;;
  ret (Z.of_nat (length l)).

(** Values of an enum are ordered as they are declared. *)
Fixpoint enum_position (values : list string) (s : string) : Z :=
  match values with
  | [] => 0
  | v :: values' => if String.eqb v s then 0 else 1 + enum_position values' s
  end.

Definition preference_le `{Collation} (x y : PreferenceRow) : bool :=
  if String.eqb (pr_EventType x) (pr_EventType y)
  then enum_position notification_channel (pr_Channel x) <=? enum_position notification_channel (pr_Channel y)
  else text_le (pr_EventType x) (pr_EventType y).

Definition store_GetPreferences `{Collation} (userID : string) : nprog (list PreferenceRow) :=
  l <- exec_pool (select_all preferences_t (has_key pr_user_id userID)) ;;
  ret (ordered_by preference_le l).

Definition preference_pk (r : PreferenceRow) : string * string * string := (pr_user_id r, pr_EventType r, pr_Channel r).

Definition preference_check (d : notify_db) (r : PreferenceRow) : option dberr :=
  if enum notification_channel (pr_Channel r)
  then known_user (pr_user_id r) "notification_preferences_user_id_fkey" d else Some InvalidText.

Definition switched (enabled : bool) (r : PreferenceRow) : PreferenceRow :=
  mkPreferenceRow (pr_user_id r) (pr_EventType r) (pr_Channel r) enabled.

Definition UpsertPreference (userID eventType channel : string) (enabled : bool) : nprog unit :=
  exec (fun s d => upsert preferences_t preference_pk (preference_check d)
                     (mkPreferenceRow userID eventType channel enabled) (switched enabled) s d).

(** ** Service *)

Definition defaultChannel : string := "in_app".

(** What a Sender is given. *)
Record Delivered := mkDelivered {
  dl_ID : string;
  dl_UserID : string;
  dl_Type : string;
  dl_Title : string;
  dl_Body : option string;
  dl_Data : option (list (string * json))
}.

(** Sender: whether the call, which may go out to a provider, reports no error. *)
Definition Sender := nat -> string -> Delivered -> bool.

Definition stubSender : Sender := fun _ _ _ => true.

Section Service.
Context (sender : Sender).

Definition Send (channel : string) (n : Delivered) : nprog bool := fun _ w =>
  (Ok (sender (tick w) channel n), World (committed w) (txs w) (S (tick w))).

Definition deliver (n : Delivered) (ch : string) : nprog unit :=
  attemptID <- InsertDeliveryAttempt (dl_ID n) ch "queued" ;;
  sent <- Send ch n ;;
  if negb sent then ret tt else MarkDeliveryStatus attemptID "sent" None None.

(** No enabled channel means the default one. *)
Definition or_default (channels : list string) : list string :=
  match channels with [] => [defaultChannel] | _ => channels end.

Definition HandleEvent (userID eventType title : string) (body : option string) (data : option (list (string * json)))
  : nprog string :=
  in_tx (
    notifID <- InsertNotification userID eventType title body data ;;
    channels <- EnabledChannels userID eventType ;;
    for_each (or_default channels) (deliver (mkDelivered notifID userID eventType title body data)) ;;;
    commit ;;;
    ret notifID).

Definition list_limit (limit : Z) : Z := if (limit <=? 0) || (200 <? limit) then 50 else limit.

Definition ListNotifications (userID : string) (unreadOnly : bool) (limit : Z) : nprog (list Notification) :=
  store_ListNotifications userID unreadOnly (list_limit limit).

Definition MarkRead (notificationID userID : string) : nprog unit :=
  in_tx (store_MarkRead notificationID userID ;;; commit).

Definition MarkAllRead (userID : string) : nprog Z :=
  in_tx (n <- store_MarkAllRead userID ;; commit ;;; ret n).

Definition GetPreferences `{Collation} (userID : string) : nprog (list PreferenceRow) := store_GetPreferences userID.

Definition SetPreference (userID eventType channel : string) (enabled : bool) : nprog unit :=
  in_tx (UpsertPreference userID eventType channel enabled ;;; commit).

(** ** Events *)

Definition inferEventType (topic : string) (m : list (string * json)) : string :=
  if String.eqb topic "payment.events" then "payment.captured"
  else if String.eqb topic "proposal.events" then
    if has_member "bid_amount_cents" m then "proposal.submitted" else "proposal.submitted"
  else if String.eqb topic "contract.events" then
    if has_member "dispute_id" m then "contract.disputed"
    else if has_member "milestone_id" m then "milestone.approved"
    else "contract.activated"
  else if String.eqb topic "worksession.events" then
    if has_member "session_id" m then "worksession.closed"
    else if has_member "worksession_id" m then "worksession.closed" else "worksession.closed"
  else if String.eqb topic "review.events" then "review.published"
  else if String.eqb topic "user.events" then
    if has_member "kyc_status" m then "user.kyc_updated" else "profile.updated"
  else if String.eqb topic "fraud.events" then
    if has_member "resolution" m then "fraud.case_resolved" else "fraud.case_opened"
  else if String.eqb topic "project.events" then
    if has_member "closed_at" m then "project.closed" else "project.published"
  else if String.eqb topic "screenshot.ingested" then "screenshot.ingested"
  else topic.

(** The payload, as far as it could be decoded. *)
Definition ResolveEventType (topic : string) (payload : json) : string :=
  let m := match payload with JObj o => o | _ => [] end in
  let t := stringField m ["type"; "event_type"] in
  if negb (String.eqb t "") then t else inferEventType topic m.

Definition recipient (m : list (string * json)) : string :=
  stringField m ["user_id"; "recipient_id"; "freelancer_id"; "client_id"; "payer_id"; "subject_id"].

(** The hundredths of m * 2^e, halves to even. *)
Definition hundredths (m : positive) (e : Z) : Z :=
  if 0 <=? e then 100 * Z.pos m * 2 ^ e else
  let den := 2 ^ (- e) in
  let q := 100 * Z.pos m / den in
  let r := 2 * (100 * Z.pos m mod den) in
  if (den <? r) || ((den =? r) && Z.odd q) then q + 1 else q.

(** fmt.Sprintf("%.2f", x) of a finite x. *)
Definition fixed2 (x : spec_float) : string :=
  let '(s, h) := match x with S754_finite s m e => (s, hundredths m e) | S754_zero s => (s, 0) | _ => (false, 0) end in
  ((if s : bool then "-" else "") ++ pretty (h / 100) ++ "." ++ padded 2 (h mod 100))%string.

Definition centsField (m : list (string * json)) (key : string) : string :=
  match member key m with
  | Some (JInt z) => "$" ++ fixed2 (fdiv (float64 z) (float64 100))
  | Some (JFloat f) => "$" ++ fixed2 (fdiv f (float64 100))
  | _ => ""
  end%string.

Definition payment_body (m : list (string * json)) : string :=
  let amt := centsField m "amount_cents" in
  if negb (String.eqb amt "") then ("A payment of " ++ amt ++ " was captured for your contract.")%string
  else "A payment was captured for your contract.".

Definition notificationCopy (eventType : string) (m : list (string * json)) : string * option string :=
  if String.eqb eventType "proposal.submitted" then
    ("New proposal received", Some "A freelancer submitted a proposal on your project.")
  else if String.eqb eventType "proposal.shortlisted" then
    ("You were shortlisted", Some "Your proposal was shortlisted by the client.")
  else if String.eqb eventType "proposal.withdrawn" then
    ("Proposal withdrawn", Some "A proposal on your project was withdrawn.")
  else if String.eqb eventType "contract.activated" then
    ("Contract activated", Some "Your contract is now active. Work can begin.")
  else if String.eqb eventType "milestone.approved" then
    ("Milestone approved", Some "A milestone was approved and is ready for release.")
  else if String.eqb eventType "contract.disputed" then
    ("Contract disputed", Some "A dispute was raised on your contract.")
  else if String.eqb eventType "payment.captured" then ("Payment received", Some (payment_body m))
  else if String.eqb eventType "worksession.closed" then
    ("Work session logged", Some "A tracked work session was closed on your contract.")
  else if String.eqb eventType "activity.suspicious" then
    ("Suspicious activity detected", Some "Unusual activity was detected on a tracked work session.")
  else if String.eqb eventType "review.published" then ("New review", Some "You received a new review.")
  else if String.eqb eventType "profile.updated" then ("Profile updated", Some "Your profile was updated.")
  else if String.eqb eventType "user.kyc_updated" then
    ("Identity verification update", Some "Your identity verification status changed.")
  else if String.eqb eventType "fraud.case_opened" then
    ("Account under review", Some "A trust & safety review was opened on your account.")
  else if String.eqb eventType "fraud.case_resolved" then
    ("Account review resolved", Some "A trust & safety review on your account was resolved.")
  else (eventType, None).

(** json.Unmarshal of the value into a map. *)
Definition unmarshalled (payload : json) : option (option (list (string * json))) :=
  match payload with
  | JObj o => if numbers_fit payload then Some (Some o) else None
  | JNull => Some None
  | _ => None
  end.

Definition HandleRawEvent (eventType : string) (payload : json) : nprog unit :=
  match unmarshalled payload with
  | None => ret tt
  | Some m =>
      let o := default [] m in
      let userID := recipient o in
      if String.eqb userID "" then ret tt else
      let '(title, body) := notificationCopy eventType o in
      HandleEvent userID eventType title body m ;;;
      ret tt
  end.

(** ** The consumer *)

Definition consumerGroup : string := "notification-consumer".

Definition topics : list string :=
  ["contract.events"; "payment.events"; "escrow.events"; "proposal.events"; "worksession.events"; "review.events";
   "user.events"; "fraud.events"].

Definition notified_type (m : Delivery) : string :=
  if String.eqb (d_EventType m) "" then ResolveEventType (d_Topic m) (d_Value m) else d_EventType m.

Definition notify_delivery (m : Delivery) : nprog unit := HandleRawEvent (notified_type m) (d_Value m).

Definition notify_consumer : Consumer := WithDedupe (NewConsumer consumerGroup).
End Service.

Example cents_rounded : centsField [("amount_cents", JInt 123456)] "amount_cents" = "$1234.56".
Proof. vm_compute. reflexivity. Qed.

Example cents_large : centsField [("amount_cents", JInt 900719925474099305)] "amount_cents" = "$9007199254740994.00".
Proof. vm_compute. reflexivity. Qed.
