(* ===== verification/NotifyProofs.v ===== *)
(** * Properties of notifications *)
From stdpp Require Import relations.
From S2P Require Export NotifyStore.

(** ** What the operations do to the tables *)

(** The channels of the attempts: those enabled, or the default one. *)
Definition channels_of (userID eventType : string) (d : notify_db) : list string :=
  or_default (map pr_Channel (select_rows (enabled_for userID eventType) (preferences d))).

Definition post (n : Notification) (l : list DeliveryAttempt) (d : notify_db) : notify_db :=
  put attempts_t (attempts d ++ l) (put notifications_t (notifications d ++ [n]) d).

Section Delivery.
Context (sender : Sender).
Implicit Types (ev : env) (d : notify_db).

(** An attempt on a channel, sent when the Sender reports no error. *)
Definition attempted (x : Delivered) (ch : string) (a : DeliveryAttempt) : Prop :=
  enum notification_channel ch = true /\
  exists k t, a = mkAttempt (da_id a) (dl_ID x) ch (if sender k ch x then "sent" else "queued") None None t.

Definition fresh_attempts (l : list DeliveryAttempt) (old : list DeliveryAttempt) : Prop :=
  keyed da_id old -> keyed da_id (old ++ l).

Definition handled_event (userID ty title : string) (body : option string) (data : option (list (string * json)))
  (d : notify_db) (id : string) (d' : notify_db) : Prop :=
  exists t l, d' = post (mkNotification id userID ty title body (marshal data) None t) l d /\
    In userID (notify_users d) /\ ~ In id (map nt_ID (notifications d)) /\
    Forall2 (attempted (mkDelivered id userID ty title body data)) (channels_of userID ty d) l /\
    fresh_attempts l (attempts d).

Lemma same_id_None {R} name (id : R -> string) l r :
  unique_index name (same_id id) l r = None -> ~ In (id r) (map id l).
Proof.
  rewrite unique_index_None. intros U (x & E & Hx)%in_map_iff. specialize (U x Hx). unfold same_id in U.
  by rewrite E, String.eqb_refl in U.
Qed.

Lemma wp_deliver x ch ev d t v n (Q : res notify_err unit -> world notify_db -> Prop) :
  (forall e w, committed w = d -> Q (Err e) w) ->
  (forall a m, attempted x ch a -> ~ In (da_id a) (map da_id (attempts v)) ->
     Q (Ok tt) (World d (Live t (put attempts_t (attempts v ++ [a]) v)) m)) ->
  wp (deliver sender x ch) ev (World d (Live t v) n) Q.
Proof.
  intros Hf Hs. unfold deliver, InsertDeliveryAttempt. apply wp_bind, wp_bind.
  apply (wp_insert_in attempts_t); [by auto|by auto|]. intros C. cbn [rows attempts_t] in *.
  destruct (enum notification_channel ch) eqn:EC; [|done]. cbn [first_violation] in C.
  destruct (unique_index _ _ _ _) eqn:U; [done|]. apply same_id_None in U. cbn [da_id] in U.
  apply wp_ret, wp_bind. set (r := mkAttempt _ _ _ _ _ _ _) in *. unfold wp at 1, Send. cbn [fst snd tick committed txs].
  destruct (sender (S n) ch x) eqn:SE; cbn [negb].
  - apply wp_bind, (wp_update_free attempts_t); [by auto|]. apply wp_ret.
    cbn [rows put attempts_t attempts da_id]. rewrite (update_last da_id (da_id r)) by done.
    apply (Hs (with_outcome "sent" None None r)); [|done]. split; [done|]. exists (S n), (to_timestamptz (now (Stamp t (gen_uuid ev n)))).
    by rewrite SE.
  - apply wp_ret, (Hs r); [|done]. split; [done|]. exists (S n), (to_timestamptz (now (Stamp t (gen_uuid ev n)))). by rewrite SE.
Qed.

Lemma wp_deliveries x chs ev d t v n (Q : res notify_err unit -> world notify_db -> Prop) :
  (forall e w, committed w = d -> Q (Err e) w) ->
  (forall l m, Forall2 (attempted x) chs l -> fresh_attempts l (attempts v) ->
     Q (Ok tt) (World d (Live t (put attempts_t (attempts v ++ l) v)) m)) ->
  wp (for_each chs (deliver sender x)) ev (World d (Live t v) n) Q.
Proof.
  intros Hf. revert v n. induction chs as [|ch chs IH]; intros v n Hs; cbn [for_each].
  - apply wp_ret. replace v with (put attempts_t (attempts v ++ []) v) by (rewrite app_nil_r; by destruct v).
    apply Hs; [constructor|]. intros K. by rewrite app_nil_r.
  - apply wp_bind, wp_deliver; [done|]. intros a m Ha Hn. apply IH. intros l m' Hl Hk.
    cbn [attempts put attempts_t] in *. rewrite <- app_assoc. cbn [app].
    apply (Hs (a :: l)); [by constructor|]. intros K. specialize (Hk (keyed_snoc _ _ _ K Hn)). by rewrite <- app_assoc in Hk.
Qed.

Lemma HandleEvent_changes userID ty title body data ev d n :
  wp (HandleEvent sender userID ty title body data) ev (rest d n)
    (ended (changes d (handled_event userID ty title body data d))).
Proof.
  apply wp_in_changes. unfold InsertNotification. apply wp_bind, wp_bind.
  apply (wp_insert_in notifications_t); [by auto with tables|by auto with tables|]. intros C. cbn [rows notifications_t first_violation] in C.
  destruct (unique_index _ _ _ _) eqn:U; [done|]. apply same_id_None in U. cbn [nt_ID fresh] in U.
  destruct (known_user _ _ _) eqn:KU; [done|]. unfold known_user, references in KU.
  destruct (existsb _ _) eqn:X; [|done]. apply existsb_exists in X as (u & Hu & ->%String.eqb_eq).
  apply wp_ret, wp_bind. unfold EnabledChannels. apply wp_bind, wp_exec; [by auto with tables|].
  cbn [select_all rows preferences_t put notifications_t preferences]. apply wp_ret, wp_bind, wp_deliveries; [by auto with tables|].
  intros l m Hl Hk. apply wp_commit_answer. eexists _, l. by repeat split.
Qed.

Definition marked_read (mine : Notification -> bool) (d d' : notify_db) : Prop :=
  exists t, d' = put notifications_t (update_where mine (read_at t) (notifications d)) d.

Lemma MarkRead_changes id userID ev d n :
  wp (MarkRead id userID) ev (rest d n) (ended (changes d (fun _ d' =>
    marked_read (unread_one id userID) d d' /\ exists r, In r (notifications d) /\ unread_one id userID r = true))).
Proof.
  apply wp_in_changes. apply wp_bind, wp_bind, (wp_update_free notifications_t); [by auto with tables|]. cbn [rows notifications_t].
  destruct (select_rows _ _) as [|r l] eqn:SR; [by apply wp_throw, closing_same|]. cbn [map]. apply wp_ret, wp_commit_change.
  split; [by eexists|]. exists r.
  assert (In r (select_rows (unread_one id userID) (notifications d))) as []%List.filter_In by (rewrite SR; by left). done.
Qed.

Lemma MarkAllRead_changes userID ev d n :
  wp (MarkAllRead userID) ev (rest d n) (ended (changes d (fun k d' =>
    marked_read (inbox userID true) d d' /\ k = Z.of_nat (length (select_rows (inbox userID true) (notifications d)))))).
Proof.
  apply wp_in_changes. apply wp_bind, wp_bind, (wp_update_free notifications_t); [by auto with tables|]. cbn [rows notifications_t].
  apply wp_ret, wp_commit_answer. rewrite length_map. split; [by eexists|done].
Qed.

Definition preferred (userID ty ch : string) (enabled : bool) (d d' : notify_db) : Prop :=
  enum notification_channel ch = true /\ In userID (notify_users d) /\
  d' = put preferences_t (upserted preference_pk (mkPreferenceRow userID ty ch enabled) (switched enabled) (preferences d)) d.

Lemma upserted_select new f l : (forall r, preference_pk (f r) = preference_pk r) ->
  exists r, In r (select_rows (fun r => bool_decide (preference_pk r = preference_pk new)) (upserted preference_pk new f l)) /\
    preference_pk r = preference_pk new.
Proof.
  intros Hf. unfold upserted. destruct (existsb _ l) eqn:X.
  - apply existsb_exists in X as (r & Hr & Hk). exists (f r). rewrite bool_decide_eq_true in Hk. split; [|by rewrite Hf].
    apply List.filter_In. split; [|by rewrite bool_decide_eq_true, Hf]. apply in_map_iff. exists r.
    split; [|done]. by rewrite bool_decide_eq_true_2.
  - exists new. split; [|done]. apply List.filter_In. split; [apply in_app_iff; right; by left|]. by apply bool_decide_eq_true.
Qed.

Lemma SetPreference_changes userID ty ch enabled ev d n :
  wp (SetPreference userID ty ch enabled) ev (rest d n) (ended (changes d (fun _ => preferred userID ty ch enabled d))).
Proof.
  apply wp_in_changes. unfold UpsertPreference. apply wp_bind, wp_exec; [by auto with tables|]. unfold upsert. cbn [rows preferences_t].
  set (new := mkPreferenceRow userID ty ch enabled).
  destruct (first_violation _) as [e|] eqn:FV; [by auto with tables|].
  apply wp_commit_change. apply first_violation_None in FV.
  destruct (upserted_select new (switched enabled) (preferences d)) as (r & Hr & Hk); [done|].
  rewrite List.Forall_forall in FV. specialize (FV _ (in_map _ _ _ Hr)). unfold preference_check, known_user, references in FV.
  injection Hk as K1 K2 K3. rewrite K3, K1 in FV. destruct (enum _ ch) eqn:E; [|done].
  destruct (existsb _ _) eqn:X; [|done]. apply existsb_exists in X as (u & Hu & ->%String.eqb_eq). by split.
Qed.
End Delivery.

(** ** Calls and reachable tables *)

Section Reachable.
Context (sender : Sender).
Implicit Types (ev : env) (d : notify_db).

Inductive notify_op :=
| NoEvent (userID ty title : string) (body : option string) (data : option (list (string * json)))
| NoRead (id userID : string)
| NoReadAll (userID : string)
| NoPrefer (userID ty ch : string) (enabled : bool).

Definition notify_run (o : notify_op) : nprog unit :=
  match o with
  | NoEvent u ty title body data => HandleEvent sender u ty title body data ;;; ret tt
  | NoRead id u => MarkRead id u
  | NoReadAll u => MarkAllRead u ;;; ret tt
  | NoPrefer u ty ch enabled => SetPreference u ty ch enabled
  end.

Definition notify_after (o : notify_op) ev d (n : nat) : notify_db := committed (snd (notify_run o ev (rest d n))).

(** What an operation does when it does something. *)
Definition notify_change (o : notify_op) (d d' : notify_db) : Prop :=
  match o with
  | NoEvent u ty title body data => exists id, handled_event sender u ty title body data d id d'
  | NoRead id u => marked_read (unread_one id u) d d'
  | NoReadAll u => marked_read (inbox u true) d d'
  | NoPrefer u ty ch enabled => preferred u ty ch enabled d d'
  end.

Lemma notify_op_changes o ev d n : notify_after o ev d n = d \/ notify_change o d (notify_after o ev d n).
Proof.
  assert (forall A (p : nprog A) (P : A -> notify_db -> Prop), wp p ev (rest d n) (ended (changes d P)) ->
    committed (snd (p ev (rest d n))) = d \/ exists a, P a (committed (snd (p ev (rest d n))))) as Hc.
  { intros A p P [_ Hp]. by apply changed_cases in Hp. }
  assert (forall A (p : nprog A), committed (snd ((p ;;; ret tt) ev (rest d n))) = committed (snd (p ev (rest d n)))) as Hd.
  { intros A p. unfold bind. by destruct (p ev _) as [[]]. }
  unfold notify_after. destruct o as [u ty title body data|id u|u|u ty ch enabled]; cbn [notify_run notify_change]; rewrite ?Hd.
  - by apply Hc, HandleEvent_changes.
  - destruct (Hc _ _ _ (MarkRead_changes id u ev d n)) as [?|(_ & ? & _)]; auto.
  - destruct (Hc _ _ _ (MarkAllRead_changes u ev d n)) as [?|(k & ? & _)]; auto.
  - destruct (Hc _ _ _ (SetPreference_changes u ty ch enabled ev d n)) as [?|([] & ?)]; auto.
Qed.

(** Accounts come from the auth service; the consumer records what it handled. *)
Inductive notify_step : notify_db -> notify_db -> Prop :=
| ns_call o ev d n : notify_step d (notify_after o ev d n)
| ns_user u d : notify_step d (mkNotifyDb (notify_processed d) (notify_users d ++ [u]) (preferences d) (notifications d) (attempts d))
| ns_recorded l d : notify_step d (put processed l d).

Definition no_notifications : notify_db := mkNotifyDb [] [] [] [] [].

Definition notify_reachable (d : notify_db) : Prop := rtc notify_step no_notifications d.

(** ** The invariant *)

Definition attempts_of (id : string) (d : notify_db) : list DeliveryAttempt :=
  List.filter (has_key da_notification_id id) (attempts d).

(** Between one and four attempts, on different channels. *)
Record well_attempted (l : list DeliveryAttempt) : Prop := {
  wa_some : l <> [];
  wa_once : List.NoDup (map da_channel l);
  wa_each : Forall (fun a => enum notification_channel (da_channel a) = true /\ (da_status a = "sent" \/ da_status a = "queued")) l
}.

Record notify_inv (d : notify_db) : Prop := {
  ni_keys : keyed nt_ID (notifications d);
  ni_attempt_keys : keyed da_id (attempts d);
  ni_prefs : List.NoDup (map preference_pk (preferences d));
  ni_attempted : forall r, In r (notifications d) -> well_attempted (attempts_of (nt_ID r) d);
  ni_owned : forall a, In a (attempts d) -> In (da_notification_id a) (map nt_ID (notifications d));
  ni_users : forall r, In r (notifications d) -> In (nt_UserID r) (notify_users d)
}.

Lemma notify_inv_start : notify_inv no_notifications.
Proof. constructor; try done; constructor. Qed.

Lemma channels_NoDup u ty d : List.NoDup (map preference_pk (preferences d)) -> List.NoDup (channels_of u ty d).
Proof.
  intros K. unfold channels_of. set (l := select_rows _ _).
  assert (List.NoDup (map preference_pk l)) as Kl by (by apply NoDup_map_filter).
  assert (forall r, In r l -> preference_pk r = (u, ty, pr_Channel r)) as Hl.
  { intros r [_ Hr]%List.filter_In. unfold enabled_for in Hr. apply andb_true_iff in Hr as [[H1 H2]%andb_true_iff _].
    apply String.eqb_eq in H1, H2. unfold preference_pk. congruence. }
  assert (List.NoDup (map pr_Channel l)) as HN.
  { apply (List.NoDup_map_inv (fun ch => (u, ty, ch))). rewrite map_map. erewrite map_ext_in; [exact Kl|].
    intros r Hr. by rewrite Hl. }
  unfold or_default. destruct (map pr_Channel l); [repeat constructor; by intros []|done].
Qed.

Lemma attempted_channels x chs l : Forall2 (attempted sender x) chs l -> map da_channel l = chs.
Proof. induction 1 as [|ch a chs l (_ & k & t & E) _ IH]; [done|]. cbn. rewrite IH. by rewrite E. Qed.

Lemma attempted_of x chs l : Forall2 (attempted sender x) chs l ->
  Forall (fun a => da_notification_id a = dl_ID x /\ enum notification_channel (da_channel a) = true /\
                   (da_status a = "sent" \/ da_status a = "queued")) l.
Proof.
  induction 1 as [|ch a chs l (HE & k & t & E) _ IH]; constructor; [|done]. rewrite E. cbn. destruct (sender k ch x); auto.
Qed.

Lemma filter_none {A} (p : A -> bool) l : (forall x, In x l -> p x = false) -> List.filter p l = [].
Proof. intros Hp. by apply select_none. Qed.

Lemma notify_inv_event u ty title body data d id d' :
  handled_event sender u ty title body data d id d' -> notify_inv d -> notify_inv d'.
Proof.
  intros (t & l & -> & Hu & Hn & Hl & Hk) [K KA KP HA HO HU].
  pose proof (attempted_of _ _ _ Hl) as Hof. cbn [dl_ID] in Hof.
  assert (forall x, In x l -> da_notification_id x = id) as Hid.
  { intros x Hx. rewrite List.Forall_forall in Hof. apply (Hof x Hx). }
  constructor; cbn [post put attempts_t notifications_t notifications attempts preferences notify_users].
  - by apply keyed_snoc.
  - by apply Hk.
  - done.
  - intros r [Hr|[<-|[]]]%in_app_iff; unfold attempts_of; cbn [attempts post put attempts_t]; rewrite List.filter_app.
    + rewrite (filter_none _ l), app_nil_r; [by apply HA|]. intros x Hx. apply has_key_false. rewrite (Hid x Hx). intros ->.
      apply Hn. by apply in_map.
    + cbn [nt_ID]. rewrite (filter_none _ (attempts d)), (filter_all _ l).
      * cbn [app]. constructor.
        -- intros ->. pose proof (attempted_channels _ _ _ Hl) as E. revert E. cbn [map]. unfold channels_of, or_default. by destruct (map pr_Channel _).
        -- rewrite (attempted_channels _ _ _ Hl). by apply channels_NoDup.
        -- eapply List.Forall_impl; [|exact Hof]. intros a (_ & ? & ?). by split.
      * intros x Hx. apply has_key_true. by apply Hid.
      * intros x Hx. apply has_key_false. intros E. apply Hn. rewrite <- E. by apply HO.
  - intros a. rewrite map_app. cbn. intros [Ha|Ha]%in_app_iff; apply in_app_iff; [left; by apply HO|right; left]. symmetry. by apply Hid.
  - intros r [Hr|[<-|[]]]%in_app_iff; [by apply HU|done].
Qed.

Lemma read_at_id t r : nt_ID (read_at t r) = nt_ID r.
Proof. done. Qed.

Lemma notify_inv_marked mine d d' : marked_read mine d d' -> notify_inv d -> notify_inv d'.
Proof.
  intros (t & ->) [K KA KP HA HO HU].
  constructor; cbn [put notifications_t notifications attempts preferences notify_users]; try done.
  - by apply keyed_update.
  - intros r [[Hr _]|(r0 & Hr & _ & ->)]%In_update; [by apply HA|]. by apply (HA r0).
  - intros a Ha. rewrite map_key_update by done. by apply HO.
  - intros r [[Hr _]|(r0 & Hr & _ & ->)]%In_update; [by apply HU|]. by apply (HU r0).
Qed.

Lemma notify_inv_change o d d' : notify_change o d d' -> notify_inv d -> notify_inv d'.
Proof.
  destruct o; cbn [notify_change]; [intros (id & Hh); by eapply notify_inv_event|apply notify_inv_marked..|].
  intros (_ & _ & ->) [K KA KP HA HO HU]. constructor; try done. by apply upserted_NoDup.
Qed.

Lemma notify_inv_step d d' : notify_step d d' -> notify_inv d -> notify_inv d'.
Proof.
  destruct 1 as [o ev d n|u d|l d]; intros HI.
  - destruct (notify_op_changes o ev d n) as [->|Hc]; [done|]. by eapply notify_inv_change.
  - destruct HI as [K KA KP HA HO HU]. constructor; try done. intros r Hr. apply in_app_iff. left. by apply HU.
  - by destruct HI.
Qed.

Lemma notify_reachable_inv d : notify_reachable d -> notify_inv d.
Proof.
  intros R. unfold notify_reachable in R. remember no_notifications as d0. assert (notify_inv d0) as HI by (subst; apply notify_inv_start).
  clear Heqd0. induction R; eauto using notify_inv_step.
Qed.

(** C34: No notification goes without an attempt, and none twice down the same
    channel. In every reachable database each notification belongs to a known
    user and has its delivery attempts, at least one, each on another of the four
    channels and either sent or queued; and every attempt belongs to a
    notification. *)
Theorem attempts_cover_notifications d : notify_reachable d ->
  (forall r, In r (notifications d) -> In (nt_UserID r) (notify_users d) /\ well_attempted (attempts_of (nt_ID r) d)) /\
  (forall a, In a (attempts d) -> exists r, In r (notifications d) /\ nt_ID r = da_notification_id a).
Proof.
  intros [K KA KP HA HO HU]%notify_reachable_inv. split; [auto|]. intros a (r & E & Hr)%HO%in_map_iff. by exists r.
Qed.

(** An event fans out whole or not at all. HandleEvent, under any faults
    and whatever the Sender answers, either leaves the tables alone or adds one
    unread notification with the event's content and exactly one attempt for
    each channel the user has enabled for the type (for in_app when there is
    none), sent where the Sender reported no error and queued elsewhere; and when
    it answers an identifier, it is that of the notification. *)
Theorem event_fans_out u ty title body data ev d n :
  wp (HandleEvent sender u ty title body data) ev (rest d n)
    (ended (changes d (handled_event sender u ty title body data d))).
Proof. apply HandleEvent_changes. Qed.

(** ** Read marks *)

(** [r'] is [r], perhaps read meanwhile. *)
Definition same_but_read (r r' : Notification) : Prop :=
  r' = r \/ nt_ReadAt r = None /\ exists t, r' = read_at t r.

Lemma same_but_read_trans r1 r2 r3 : same_but_read r1 r2 -> same_but_read r2 r3 -> same_but_read r1 r3.
Proof. intros [->|(H1 & t & ->)] [->|(H2 & t2 & ->)]; [by left|right; eauto|right; eauto|done]. Qed.

Lemma marked_rows mine d d' r : (forall x, mine x = true -> nt_ReadAt x = None) ->
  marked_read mine d d' -> In r (notifications d) -> exists r', In r' (notifications d') /\ same_but_read r r' /\
    (mine r = false -> r' = r).
Proof.
  intros Hm (t & ->) Hr. cbn [put notifications_t notifications]. destruct (mine r) eqn:M.
  - exists (read_at t r). split; [apply in_map_iff; exists r; by rewrite M|]. split; [right|done]. split; [by apply Hm|]. by exists t.
  - exists r. split; [apply in_map_iff; exists r; by rewrite M|]. split; [by left|done].
Qed.

Lemma inbox_unread u r : inbox u true r = true -> nt_ReadAt r = None /\ nt_UserID r = u.
Proof. unfold inbox. intros [E%String.eqb_eq H2]%andb_true_iff. cbn in H2. by destruct (nt_ReadAt r). Qed.

(** The user whose notifications an operation may mark. *)
Definition marks_of (o : notify_op) : option string :=
  match o with NoRead _ u => Some u | NoReadAll u => Some u | _ => None end.

Lemma change_rows o d d' r : notify_change o d d' -> In r (notifications d) ->
  exists r', In r' (notifications d') /\ same_but_read r r' /\ (marks_of o <> Some (nt_UserID r) -> r' = r).
Proof.
  intros Hc Hr. destruct o as [u ty title body data|id u|u|u ty ch enabled]; cbn [notify_change marks_of] in *.
  - destruct Hc as (id & t & l & -> & _). exists r. split; [apply in_app_iff; by left|]. split; [by left|done].
  - destruct (marked_rows _ _ _ r (fun x Hx => proj1 (inbox_unread u x (proj2 (proj1 (andb_true_iff _ _) Hx)))) Hc Hr)
      as (r' & H1 & H2 & H3). exists r'. split; [done|]. split; [done|]. intros Hn. apply H3, not_true_iff_false.
    intros [_ [_ E]%inbox_unread]%andb_true_iff. congruence.
  - destruct (marked_rows _ _ _ r (fun x Hx => proj1 (inbox_unread u x Hx)) Hc Hr) as (r' & H1 & H2 & H3).
    exists r'. split; [done|]. split; [done|]. intros Hn. apply H3, not_true_iff_false. intros [_ E]%inbox_unread. congruence.
  - destruct Hc as (_ & _ & ->). exists r. split; [done|]. split; [by left|done].
Qed.

Lemma step_rows d d' r : notify_step d d' -> In r (notifications d) ->
  exists r', In r' (notifications d') /\ same_but_read r r'.
Proof.
  destruct 1 as [o ev d n|u d|l d]; intros Hr; [|exists r; split; [done|by left]..].
  destruct (notify_op_changes o ev d n) as [->|Hc]; [exists r; split; [done|by left]|].
  destruct (change_rows _ _ _ r Hc Hr) as (r' & ? & ? & _). by exists r'.
Qed.

(** Notifications stay, and read marks are final and the owner's. Whatever
    happens, a notification keeps its content, and its read mark once it has one;
    and a call changes it only by marking it for the user it belongs to. *)
Theorem read_marks_are_final_and_personal d r : In r (notifications d) ->
  (forall d', rtc notify_step d d' -> exists r', In r' (notifications d') /\ same_but_read r r') /\
  (forall o ev n, marks_of o <> Some (nt_UserID r) -> In r (notifications (notify_after o ev d n))).
Proof.
  intros Hr. split.
  - intros d' HS. revert r Hr. induction HS as [d|d1 d2 d3 S _ IH]; intros r Hr; [exists r; split; [done|by left]|].
    destruct (step_rows _ _ r S Hr) as (r2 & H2 & S2). destruct (IH r2 H2) as (r3 & H3 & S3). exists r3.
    split; [done|]. by eapply same_but_read_trans.
  - intros o ev n Ho. destruct (notify_op_changes o ev d n) as [->|Hc]; [done|].
    destruct (change_rows _ _ _ r Hc Hr) as (r' & H1 & _ & E). by rewrite <- (E Ho).
Qed.
End Reachable.

(** ** The consumer *)

#[export] Instance notify_processed_lawful : LawfulTable (processed (T := notify_db)).
Proof. by split; intros; destruct d. Qed.

(** Whom a message tells what: the user, the type and the stored data. *)
Definition addressed (m : Delivery) : option (string * string * json) :=
  match unmarshalled (d_Value m) with
  | None => None
  | Some data => let u := recipient (default [] data) in
                 if String.eqb u "" then None else Some (u, notified_type m, marshal data)
  end.

(** The user of the message has a notification of it, when it has one. *)
Definition told (m : Delivery) (d : notify_db) : Prop :=
  match addressed m with
  | None => True
  | Some (u, ty, data) => exists r, In r (notifications d) /\ nt_UserID r = u /\ nt_Type r = ty /\ nt_Data r = data /\
      nt_Title r = fst (notificationCopy ty (match d_Value m with JObj o => o | _ => [] end))
  end.

Section Consumer.
Context (sender : Sender).
Implicit Types (ev : env) (d : notify_db) (m : Delivery).

Definition delivery_change m (d d' : notify_db) : Prop :=
  exists u ty title body data id, handled_event sender u ty title body data d id d' /\ told m d'.

Lemma told_grows m d d' : (forall r, In r (notifications d) -> In r (notifications d')) -> told m d -> told m d'.
Proof.
  intros Hs. unfold told. destruct (addressed m) as [[[u ty] data]|]; [|done]. intros (r & Hr & Hx). exists r. split; [by apply Hs|done].
Qed.

Lemma handled_told u ty title body data d id d' : handled_event sender u ty title body data d id d' ->
  exists r, In r (notifications d') /\ nt_UserID r = u /\ nt_Type r = ty /\ nt_Data r = marshal data /\ nt_Title r = title.
Proof. intros (t & l & -> & _). eexists. split; [apply in_app_iff; right; by left|]. by repeat split. Qed.

Lemma notify_delivery_changes m ev d n :
  wp (notify_delivery sender m) ev (World d NoTx n) (fun r w =>
    (committed w = d \/ delivery_change m d (committed w)) /\ (r = Ok tt -> told m (committed w))).
Proof.
  unfold notify_delivery, HandleRawEvent, delivery_change, told, addressed.
  destruct (unmarshalled (d_Value m)) as [data|] eqn:U; [|apply wp_ret; auto]. cbv zeta.
  destruct (String.eqb _ ""); [apply wp_ret; auto|].
  assert (match d_Value m with JObj o => o | _ => [] end = default [] data) as ->.
  { unfold unmarshalled in U. destruct (d_Value m); try done; [by apply (inj Some) in U as <-|].
    destruct (numbers_fit _); [|done]. by apply (inj Some) in U as <-. }
  destruct (notificationCopy _ _) as [title body] eqn:C. cbn [fst].
  apply wp_bind. eapply wp_mono; [apply HandleEvent_changes|].
  intros [id|e] w [_ Hw]; cbn [changes] in Hw.
  - apply wp_ret. split; [right|intros _]; [|by eapply handled_told]. do 6 eexists. split; [exact Hw|]. by eapply handled_told.
  - split; [|done]. destruct Hw as [->|(id & Hw)]; [by left|right]. do 6 eexists. split; [exact Hw|]. by eapply handled_told.
Qed.

Lemma delivery_grows m d d' : d' = d \/ delivery_change m d d' ->
  (forall r, In r (notifications d) -> In r (notifications d')) /\ notify_processed d' = notify_processed d.
Proof.
  intros [->|(u & ty & title & body & data & id & (t & l & -> & _) & _)]; [done|]. split; [|done].
  intros r Hr. apply in_app_iff. by left.
Qed.

#[export] Instance notify_reliable : Reliable consumerGroup (notify_delivery sender) told.
Proof.
  split.
  - intros m ev d n. eapply wp_mono; [apply notify_delivery_changes|]. intros r w [_ Hw]. exact Hw.
  - intros m m' ev d n Hm. eapply wp_mono; [apply notify_delivery_changes|]. intros r w [Hw%delivery_grows _].
    by eapply told_grows; [apply Hw|].
  - intros m ev d n. eapply wp_mono; [apply notify_delivery_changes|]. intros r w [Hw%delivery_grows _] x Hx _. left.
    change (In x (notify_processed (committed w))) in Hx. by rewrite (proj2 Hw) in Hx.
  - intros m d s consumer id Hm. unfold record_processed. destruct (existsb _ _); [done|]. by eapply told_grows; [|exact Hm].
Qed.

(** An offset is committed only when the user has been told. Starting from
    a group that has recorded nothing, whatever fails in a session of the
    consumer: for each offset it commits there is a fetched message at that offset
    that was delivered, in this or another delivery of its event, and if that
    message names a user, he has a notification of its type with its data. *)
Theorem committed_events_are_told map_order (error_text : err notify_err -> string) ctx_done session ev d b n
  (Hnew : forall r, In r (notify_processed d) -> pe_consumer r <> consumerGroup) (Hb : parked b = []) :
  let s' := committed (snd (Run map_order error_text ctx_done notify_consumer (notify_delivery sender) session ev
              (World (d, b) NoTx n))) in
  exists l, commits (snd s') = commits b ++ l /\ forall o, In o l -> exists k m, In k session /\ km_Offset k = o /\
    (m = decode (km k) \/ d_EventID m = d_EventID (decode (km k)) /\ d_EventID m <> "") /\ told m (fst s').
Proof.
  apply (committed_are_handled map_order error_text ctx_done notify_consumer (notify_delivery sender) told session ev d b n);
    [apply _|apply notify_reliable|reflexivity|reflexivity|exact Hb|exact Hnew].
Qed.
End Consumer.

(** ** Demonstration *)

Definition with_user (u : string) (d : notify_db) : notify_db :=
  mkNotifyDb (notify_processed d) (notify_users d ++ [u]) (preferences d) (notifications d) (attempts d).

Definition run_notify (l : list (notify_op * nat)) (d : notify_db) : notify_db :=
  fold_left (fun d x => notify_after stubSender (fst x) quiet_env d (snd x)) l d.

Lemma run_notify_steps l d : rtc (notify_step stubSender) d (run_notify l d).
Proof.
  revert d. induction l as [|[o n] l IH]; intros d; [constructor|].
  eapply rtc_l; [exact (ns_call stubSender o quiet_env d n)|]. apply IH.
Qed.

Definition demo_inbox_ops : list (notify_op * nat) :=
  [(NoPrefer "ann" "contract.activated" "email" true, 0%nat); (NoPrefer "ann" "contract.activated" "sms" true, 10%nat);
   (NoEvent "ann" "contract.activated" "Contract activated" None (Some [("contract_id", JStr "c1")]), 20%nat);
   (NoEvent "bob" "review.published" "New review" None None, 40%nat)].

Definition demo_inbox : notify_db := run_notify demo_inbox_ops (with_user "bob" (with_user "ann" no_notifications)).

Lemma demo_inbox_reachable : notify_reachable stubSender demo_inbox.
Proof.
  unfold notify_reachable, demo_inbox. eapply rtc_l; [apply (ns_user stubSender "ann")|].
  eapply rtc_l; [apply (ns_user stubSender "bob")|]. apply run_notify_steps.
Qed.

Definition sent_down (d : notify_db) : list (string * list (string * string)) :=
  map (fun r => (nt_UserID r, map (fun a => (da_channel a, da_status a)) (attempts_of (nt_ID r) d))) (notifications d).

Lemma attempts_cover_notifications_witness :
  sent_down demo_inbox = [("ann", [("email", "sent"); ("sms", "sent")]); ("bob", [("in_app", "sent")])] /\
  (forall r, In r (notifications demo_inbox) ->
     In (nt_UserID r) (notify_users demo_inbox) /\ well_attempted (attempts_of (nt_ID r) demo_inbox)).
Proof. split; [vm_compute; reflexivity|]. apply (attempts_cover_notifications stubSender demo_inbox demo_inbox_reachable). Defined.

Definition demo_note (d : notify_db) : Notification := hd (mkNotification "" "" "" "" None JNull None 0) (notifications d).

Lemma read_marks_are_final_and_personal_witness :
  let d' := run_notify [(NoRead (nt_ID (demo_note demo_inbox)) "bob", 60%nat); (NoReadAll "ann", 70%nat)] demo_inbox in
  map (fun r => match nt_ReadAt r with Some _ => true | None => false end) (notifications d') = [true; false] /\
  exists r', In r' (notifications d') /\ same_but_read (demo_note demo_inbox) r'.
Proof.
  split; [vm_compute; reflexivity|].
  refine (proj1 (read_marks_are_final_and_personal stubSender demo_inbox (demo_note demo_inbox) _) _ (run_notify_steps _ _)).
  vm_compute. by left.
Defined.

(** A Sender that only reaches the inbox. *)
Definition inbox_only : Sender := fun _ ch _ => String.eqb ch "in_app".

Definition demo_event (offset : Z) (user : string) : Fetched :=
  mkFetched offset (mkMessage "user.events" user (JObj [("user_id", JStr user); ("kyc_status", JStr "verified")])
    [("event-id", "user:1")]).

Definition quiet_session (d : notify_db) (l : list Fetched) : notify_db * Broker :=
  committed (snd (Run (fun h => h) (fun _ => "") (fun _ => false) notify_consumer (notify_delivery inbox_only) l quiet_env
    (World (d, mkBroker [] []) NoTx 0))).

Lemma committed_events_are_told_witness :
  let d := with_user "ann" no_notifications in
  let s' := quiet_session d [demo_event 0 "ann"; demo_event 1 "ann"] in
  map nt_Title (notifications (fst s')) = ["Identity verification update"] /\
  exists l, commits (snd s') = [] ++ l /\ forall o, In o l -> exists k m, In k [demo_event 0 "ann"; demo_event 1 "ann"] /\
    km_Offset k = o /\ (m = decode (km k) \/ d_EventID m = d_EventID (decode (km k)) /\ d_EventID m <> "") /\ told m (fst s').
Proof.
  split; [vm_compute; reflexivity|].
  apply (committed_events_are_told inbox_only (fun h => h) (fun _ => "") (fun _ => false) [demo_event 0 "ann"; demo_event 1 "ann"]
    quiet_env (with_user "ann" no_notifications) (mkBroker [] []) 0); [intros r []|reflexivity].
Defined.

(** A user who has switched every channel off is still reached in the app. *)
Example silence_is_not_possible :
  let d := run_notify [(NoPrefer "ann" "review.published" "in_app" false, 0%nat);
                       (NoEvent "ann" "review.published" "New review" None None, 10%nat)] (with_user "ann" no_notifications) in
  sent_down d = [("ann", [("in_app", "sent")])].
Proof. vm_compute. reflexivity. Qed.

(** An event for someone without an account is retried, fails and is passed
    over: the next offset is committed. *)
Example unknown_user_passed_over :
  let '(d, b) := quiet_session (with_user "ann" no_notifications)
                   [mkFetched 0 (mkMessage "user.events" "bob" (JObj [("user_id", JStr "bob")]) [("event-id", "user:0")]);
                    demo_event 1 "ann"] in
  map nt_UserID (notifications d) = ["ann"] /\ commits b = [1].
Proof. vm_compute. auto. Qed.
