(* ===== verification/NotifyHttp.v ===== *)
(** * Notification REST transport (services/notification/internal/httpapi) *)
From S2P Require Export Gateway NotifyProofs.

(** ** Bodies *)

Record setPrefReq := mkSetPrefReq { sp_EventType : string; sp_Channel : string; sp_Enabled : bool }.

Definition decode_setPrefReq (o : list (string * json)) : option setPrefReq :=
  obind (str_field "event_type" o) (fun ty =>
  obind (str_field "channel" o) (fun ch =>
  obind (bool_field "enabled" o) (fun b => Some (mkSetPrefReq ty ch b)))).

Record dispatchReq := mkDispatchReq {
  dr_UserID : string;
  dr_EventType : string;
  dr_Title : string;
  dr_Body : option string;
  dr_Data : option (list (string * json))
}.

Definition decode_dispatchReq (o : list (string * json)) : option dispatchReq :=
  obind (str_field "user_id" o) (fun u =>
  obind (str_field "event_type" o) (fun ty =>
  obind (str_field "title" o) (fun title =>
  obind (field (into_opt as_string) None "body" o) (fun b =>
  obind (field into_map None "data" o) (fun data => Some (mkDispatchReq u ty title b data)))))).

Definition notificationDTO (n : Notification) : json :=
  JObj [("id", JStr (nt_ID n)); ("user_id", JStr (nt_UserID n)); ("type", JStr (nt_Type n)); ("title", JStr (nt_Title n));
        ("body", jopt JStr (nt_Body n)); ("data", nt_Data n); ("read_at", jopt JTime (nt_ReadAt n));
        ("created_at", JTime (nt_CreatedAt n))].

Definition mapError (e : err notify_err) : response :=
  match e with
  | Dom ErrNotFound => writeErr 404 "NOT_FOUND" "resource not found"
  | Db _ => writeErr 500 "INTERNAL" "internal error"
  end.

(** ** Handlers *)

Section Api.
Context `{Collation} (sender : Sender).

Definition list (r : request) : nprog response :=
  l <-? or_mapped mapError (ListNotifications (header r "X-User-Id") (String.eqb (query r "unread") "true")
          (atoi (query r "limit"))) ;;
  ret (writeJSON 200 (JObj [("notifications", JList (map notificationDTO l))])).

Definition status_ok : json := JObj [("status", JStr "ok")].

Definition markRead (r : request) : nprog response :=
  _ <-? or_mapped mapError (MarkRead (urlParam r "id") (header r "X-User-Id")) ;;
  ret (writeJSON 200 status_ok).

Definition markAllRead (r : request) : nprog response :=
  n <-? or_mapped mapError (MarkAllRead (header r "X-User-Id")) ;;
  ret (writeJSON 200 (JObj [("updated", JInt n)])).

Definition getPreferences (r : request) : nprog response :=
  prefs <-? or_mapped mapError (GetPreferences (header r "X-User-Id")) ;;
  ret (writeJSON 200 (JObj [("preferences", JList (map (fun p =>
    JObj [("event_type", JStr (pr_EventType p)); ("channel", JStr (pr_Channel p)); ("enabled", JBool (pr_Enabled p))]) prefs))])).

Definition setPreference (r : request) : nprog response :=
  req <-? Http.decode decode_setPrefReq r ;;
  _ <-? or_mapped mapError (SetPreference (header r "X-User-Id") (sp_EventType req) (sp_Channel req) (sp_Enabled req)) ;;
  ret (writeJSON 200 status_ok).

Definition dispatch (r : request) : nprog response :=
  req <-? Http.decode decode_dispatchReq r ;;
  if String.eqb (dr_UserID req) "" || String.eqb (dr_EventType req) ""
  then ret (writeErr 400 "INVALID_ARGUMENT" "user_id and event_type are required") else
  id <-? or_mapped mapError (HandleEvent sender (dr_UserID req) (dr_EventType req) (dr_Title req) (dr_Body req) (dr_Data req)) ;;
  ret (writeJSON 201 (JObj [("notification_id", JStr id)])).

Inductive notify_route := ListR | MarkReadR | MarkAllReadR | GetPreferencesR | SetPreferenceR | DispatchR | HealthR.

Definition serve (x : notify_route) (r : request) : nprog response :=
  match x with
  | ListR => list r
  | MarkReadR => markRead r
  | MarkAllReadR => markAllRead r
  | GetPreferencesR => getPreferences r
  | SetPreferenceR => setPreference r
  | DispatchR => dispatch r
  | HealthR => ret (Response 200 JNull)
  end.

Definition after_route (x : notify_route) (r : request) (ev : env) (d : notify_db) (n : nat) : notify_db :=
  committed (snd (serve x r ev (rest d n))).

(** ** What a request can do *)

(** What the user [u] may change: marks on his notifications and his preferences. *)
Definition personal (u : string) (d d' : notify_db) : Prop :=
  d' = d \/ (exists mine, marked_read mine d d' /\ forall r, mine r = true -> nt_UserID r = u) \/
  exists ty ch enabled, preferred u ty ch enabled d d'.

(** An inbox shows the caller's own notifications. *)
Definition own_notes (u : string) (d : notify_db) (j : json) : Prop :=
  exists l, j = JObj [("notifications", JList (map notificationDTO l))] /\ (length l <= 200)%nat /\
    forall n, In n l -> nt_UserID n = u /\ exists r, In r (notifications d) /\ n = scanned r.

Lemma list_limit_bounds k : 0 < list_limit k <= 200.
Proof. unfold list_limit. destruct (Z.leb_spec k 0); cbn; [lia|]. destruct (Z.ltb_spec 200 k); lia. Qed.

Lemma firstn_In {A} n (l : Datatypes.list A) x : In x (firstn n l) -> In x l.
Proof. intros Hx. rewrite <- (firstn_skipn n l). apply in_app_iff. by left. Qed.

Lemma wp_ListNotifications u unread k ev d n (Q : res notify_err (Datatypes.list Notification) -> world notify_db -> Prop) :
  (forall e m, Q (Err e) (World d NoTx m)) ->
  (forall l m, (length l <= 200)%nat ->
     (forall x, In x l -> nt_UserID x = u /\ exists r, In r (notifications d) /\ x = scanned r) -> Q (Ok l) (World d NoTx m)) ->
  wp (ListNotifications u unread k) ev (rest d n) Q.
Proof.
  intros Hf Hs. unfold ListNotifications, store_ListNotifications. pose proof (list_limit_bounds k) as HL.
  apply wp_bind, wp_exec_pool. destruct (Z.ltb_spec (list_limit k) 0); [lia|].
  split; [by intros|]. split; [by intros|]. apply wp_ret, Hs.
  - rewrite length_map. etrans; [apply firstn_le_length|]. lia.
  - intros x (r & <- & Hr%firstn_In)%in_map_iff. rewrite <- in_rev in Hr.
    apply (Permutation.Permutation_in _ (order_by_perm _ _)) in Hr. apply List.filter_In in Hr as [Hr Hi].
    unfold inbox in Hi. apply andb_true_iff in Hi as [Hi%String.eqb_eq _]. split; [done|]. by exists r.
Qed.

(** The inbox is private. Apart from dispatch, a request changes nothing
    but read marks on the caller's own notifications and the caller's own
    preferences, and a listing that is answered holds at most 200 notifications,
    all the caller's. *)
Theorem inbox_is_private x r ev d n :
  x <> DispatchR ->
  personal (header r "X-User-Id") d (after_route x r ev d n) /\
  (x = ListR -> forall resp, fst (serve x r ev (rest d n)) = Ok resp -> status resp = 200 ->
     own_notes (header r "X-User-Id") d (payload_of resp)).
Proof.
  intros Hx. set (u := header r "X-User-Id"). split.
  - unfold after_route. set (P := personal u d).
    assert (forall A (p : nprog A) (R : A -> notify_db -> Prop) k,
      wp p ev (rest d n) (ended (changes d R)) -> (forall a d', R a d' -> P d') ->
      (forall a w (S : res notify_err response -> world notify_db -> Prop), (forall y, S y w) -> wp (k a) ev w S) ->
      wp (bind_ok (or_mapped mapError p) k) ev (rest d n) (fun _ w => P (committed w))) as Hgo.
    { intros A p R k Hp HR Hk. apply wp_service; [|done]. eapply wp_mono; [exact Hp|]. intros a w [_ Hc%changed_cases].
      destruct Hc as [->|(b & Hb)]; [by left|by eapply HR]. }
    assert (wp (serve x r) ev (rest d n) (fun _ w => P (committed w))) as HW; [|exact HW].
    destruct x; cbn [serve]; try done.
    + unfold list. apply wp_service; [|intros; by apply wp_ret]. apply wp_ListNotifications; intros; by left.
    + unfold markRead. eapply Hgo; [apply MarkRead_changes| |intros; by apply wp_ret].
      intros a d' [Hm _]. right; left. eexists. split; [exact Hm|]. intros y [_ [_ E]%inbox_unread]%andb_true_iff. done.
    + unfold markAllRead. eapply Hgo; [apply MarkAllRead_changes| |intros; by apply wp_ret].
      intros a d' [Hm _]. right; left. eexists. split; [exact Hm|]. intros y [_ E]%inbox_unread. done.
    + unfold getPreferences. apply wp_service; [|intros; by apply wp_ret]. unfold GetPreferences, store_GetPreferences, rest.
      apply wp_listing; [intros _|]; by left.
    + unfold setPreference. apply wp_bind_ok, wp_decode; [by left|]. intros o req _ _.
      eapply Hgo; [apply SetPreference_changes| |intros; by apply wp_ret]. intros a d' Hp. right; right. do 3 eexists. exact Hp.
    + by left.
  - intros ->. cbn [serve]. unfold list.
    assert (wp (serve ListR r) ev (rest d n) (fun a _ => forall resp, a = Ok resp -> status resp = 200 ->
      own_notes u d (payload_of resp))) as HW; [|exact HW].
    cbn [serve]. unfold list. apply wp_bind_ok, wp_or_mapped, wp_ListNotifications.
    + intros e m resp [= <-]. by destruct e as [|[]].
    + intros l m HL Hl. apply wp_ret. intros resp [= <-] _. exists l. by repeat split; try apply Hl.
Qed.
End Api.

#[local] Instance bytewise : Collation := String.leb.

Definition inbox_request (uid : string) : request := demo_request_with uid "" (fun _ => "") None.

Lemma inbox_is_private_witness :
  (exists resp, fst (serve stubSender ListR (inbox_request "ann") quiet_env (rest demo_inbox 0)) = Ok resp /\ status resp = 200 /\
     own_notes "ann" demo_inbox (payload_of resp)) /\
  personal "ann" demo_inbox (after_route stubSender MarkAllReadR (inbox_request "ann") quiet_env demo_inbox 0).
Proof.
  split; [|exact (proj1 (inbox_is_private stubSender MarkAllReadR (inbox_request "ann") quiet_env demo_inbox 0 ltac:(discriminate)))].
  assert (exists resp, fst (serve stubSender ListR (inbox_request "ann") quiet_env (rest demo_inbox 0)) = Ok resp /\
    status resp = 200) as (resp & E & S) by (eexists; split; vm_compute; reflexivity).
  exists resp. split; [exact E|]. split; [exact S|].
  exact (proj2 (inbox_is_private stubSender ListR (inbox_request "ann") quiet_env demo_inbox 0 ltac:(discriminate)) eq_refl resp E S).
Defined.

(** Whoever can reach the service may notify anyone of anything. *)
Example dispatch_asks_nobody :
  let body := JObj [("user_id", JStr "bob"); ("event_type", JStr "payment.captured"); ("title", JStr "Payment received")] in
  let r := demo_request_with "" "" (fun _ => "") (Some body) in
  status (match fst (serve stubSender DispatchR r quiet_env (rest demo_inbox 0)) with Ok a => a | Err _ => Response 0 JNull end) = 201.
Proof. vm_compute. reflexivity. Qed.
