(* ===== verification/ReviewStore.v ===== *)
(** * Reviews (services/review: internal/store, internal/service)

    Reviews of finished contracts are blind until both parties have written
    one; publication recomputes the reputation of the reviewed and announces
    the review.  The tables are those of migration 000009. *)
From S2P Require Export Outbox ContractParties Gateway.

(** ** Row types *)

Record Review := mkReview {
  rv_ID : string;
  rv_ContractID : string;
  rv_ReviewerID : string;
  rv_RevieweeID : string;
  rv_Rating : Z;
  rv_Dimensions : json;
  rv_Comment : option string;
  rv_IsPublished : bool;
  rv_PublishedAt : option Z;
  rv_CreatedAt : Z
}.

Record ResponseRow := mkResponseRow {
  re_review_id : string;
  re_responder_id : string;
  re_response : string
}.

(** score is NUMERIC(6,2), here in hundredths. *)
Record ReputationRow := mkReputationRow {
  rp_user_id : string;
  rp_score : Z;
  rp_job_success_pct : option Z;
  rp_recompute_at : option Z;
  rp_updated_at : Z
}.

Record review_db := mkReviewDb {
  reviews : list Review;
  responses : list ResponseRow;
  reputations : list ReputationRow;
  review_outbox : list OutboxRow
}.

Definition reviews_t : table review_db Review :=
  Table reviews (fun l d => mkReviewDb l (responses d) (reputations d) (review_outbox d)).
Definition responses_t : table review_db ResponseRow :=
  Table responses (fun l d => mkReviewDb (reviews d) l (reputations d) (review_outbox d)).
Definition reputations_t : table review_db ReputationRow :=
  Table reputations (fun l d => mkReviewDb (reviews d) (responses d) l (review_outbox d)).
#[export] Instance review_HasOutbox : HasOutbox review_db :=
  Table review_outbox (fun l d => mkReviewDb (reviews d) (responses d) (reputations d) l).

#[export] Instance review_Deferred : Deferred review_db := fun _ _ => true.

(** The sentinels of the store and of the service. *)
Inductive review_err :=
| ErrNotFound
| ErrUniqueViolation
| ErrInvalidRating
| ErrAlreadyReviewed
| ErrForbidden
| ErrInvalidContract
| ErrContractNotComplete.

Abbreviation rprog := (prog review_db review_err).

(** ** Store *)

Definition review_check (l : list Review) (r : Review) : option dberr :=
  first_violation
    [ unique_index "reviews_pkey" (fun x y => String.eqb (rv_ID x) (rv_ID y)) l r;
      check_row "reviews_rating_check" (fun r => (1 <=? rv_Rating r) && (rv_Rating r <=? 5)) r;
      unique_index "reviews_contract_id_reviewer_id_key" (fun x y =>
        String.eqb (rv_ContractID x) (rv_ContractID y) && String.eqb (rv_ReviewerID x) (rv_ReviewerID y)) l r ].

Definition new_review (id contractID reviewerID revieweeID : string) (rating : Z)
  (dimensions : option (list (string * json))) (comment : option string) (t : Z) : Review :=
  mkReview id contractID reviewerID revieweeID rating (marshal dimensions) comment false None (to_timestamptz t).

Definition InsertReview (contractID reviewerID revieweeID : string) (rating : Z)
  (dimensions : option (list (string * json))) (comment : option string) : rprog string :=
  r <- attempt (exec (insert_row reviews_t review_check (fun s =>
         new_review (fresh s) contractID reviewerID revieweeID rating dimensions comment (now s)))) ;;
  match r with
  | Ok row => ret (rv_ID row)
  | Err e => if isUniqueViolation e then fail ErrUniqueViolation else throw e
  end.

Definition of_contract (contractID : string) (r : Review) : bool := String.eqb (rv_ContractID r) contractID.

Definition CountReviews (contractID : string) : rprog Z :=
  exec (fun _ d => Done (countZ (of_contract contractID) (reviews d)) d).

Definition unpublished_of (contractID : string) (r : Review) : bool :=
  of_contract contractID r && negb (rv_IsPublished r).

Definition publish (t : Z) (r : Review) : Review :=
  mkReview (rv_ID r) (rv_ContractID r) (rv_ReviewerID r) (rv_RevieweeID r) (rv_Rating r) (rv_Dimensions r) (rv_Comment r)
    true (Some (to_timestamptz t)) (rv_CreatedAt r).

Definition PublishUnpublished (contractID : string) : rprog (list Review) :=
  exec (update_rows reviews_t (unpublished_of contractID) (fun s => publish (now s)) (fun _ => None)).

(** num / den to the nearest integer, halves up; nothing is negative here. *)
Definition half_up (num den : Z) : Z := (2 * num + den) / (2 * den).

(** The published reviews of a user. *)
Definition shown (userID : string) (r : Review) : bool := String.eqb (rv_RevieweeID r) userID && rv_IsPublished r.

Record Aggregate := mkAggregate {
  ag_score : Z * Z;      (* avg(rating)*20, as a fraction *)
  ag_jobSuccess : Z;
  ag_total : Z
}.

(** (PostgreSQL divides to sixteen digits and more; that shows in two decimals
    only for more than 10^9 reviews.) *)
Definition aggregate (l : list Review) : Aggregate :=
  let total := Z.of_nat (length l) in
  if total =? 0 then mkAggregate (0, 1) 0 0
  else mkAggregate (20 * sumZ rv_Rating l, total) (half_up (100 * countZ (fun r => 4 <=? rv_Rating r) l) total) total.

Definition reputation_row (userID : string) (a : Aggregate) (t : Z) : ReputationRow :=
  mkReputationRow userID (half_up (100 * fst (ag_score a)) (snd (ag_score a)))
    (if 0 <? ag_total a then Some (ag_jobSuccess a) else None) (Some (to_timestamptz t)) (to_timestamptz t).

Definition rescored (new r : ReputationRow) : ReputationRow :=
  mkReputationRow (rp_user_id r) (rp_score new) (rp_job_success_pct new) (rp_recompute_at new) (rp_updated_at new).

Definition store_RecomputeReputation (userID : string) : rprog unit :=
  a <- exec (fun _ d => Done (aggregate (select_rows (shown userID) (reviews d))) d) ;;
  exec (fun s d => let new := reputation_row userID a (now s) in
                   upsert reputations_t rp_user_id (fun _ => None) new (rescored new) s d).

Definition GetRevieweeID (reviewID : string) : rprog string :=
  o <- exec (select_one reviews_t (has_key rv_ID reviewID)) ;;
  match o with None => fail ErrNotFound | Some r => ret (rv_RevieweeID r) end.

Definition answered (new r : ResponseRow) : ResponseRow :=
  mkResponseRow (re_review_id r) (re_responder_id new) (re_response new).

Definition UpsertResponse (reviewID responderID response : string) : rprog unit :=
  exec (fun s d =>
    match references "review_responses_review_id_fkey" (has_key rv_ID reviewID) (reviews d) with
    | Some e => Reject e
    | None => let new := mkResponseRow reviewID responderID response in
              upsert responses_t re_review_id (fun _ => None) new (answered new) s d
    end).

(** The dimensions read back into a map. *)
Definition scanned_review (r : Review) : Review :=
  mkReview (rv_ID r) (rv_ContractID r) (rv_ReviewerID r) (rv_RevieweeID r) (rv_Rating r) (through_any (rv_Dimensions r))
    (rv_Comment r) (rv_IsPublished r) (rv_PublishedAt r) (rv_CreatedAt r).

Definition GetReview (id : string) : rprog Review :=
  o <- exec_pool (select_one reviews_t (has_key rv_ID id)) ;;
  match o with None => fail ErrNotFound | Some r => ret (scanned_review r) end.

(** ORDER BY published_at DESC NULLS LAST, created_at DESC *)
Definition later_first (x y : Review) : bool :=
  match rv_PublishedAt x, rv_PublishedAt y with
  | Some a, Some b => (b <? a) || ((a =? b) && (rv_CreatedAt y <=? rv_CreatedAt x))
  | Some _, None => true
  | None, Some _ => false
  | None, None => rv_CreatedAt y <=? rv_CreatedAt x
  end.

Definition ListPublishedForUser (revieweeID : string) : rprog (list Review) :=
  l <- exec_pool (select_all reviews_t (shown revieweeID)) ;;
  ret (map scanned_review (ordered_by later_first l)).

Record Reputation := mkReputation {
  rep_UserID : string;
  rep_Score : spec_float;
  rep_JobSuccessPct : option Z;
  rep_RecomputeAt : option Z;
  rep_UpdatedAt : Z
}.

Definition reputation_of (r : ReputationRow) : Reputation :=
  mkReputation (rp_user_id r) (literal (rp_score r) 100) (rp_job_success_pct r) (rp_recompute_at r) (rp_updated_at r).

Definition GetReputation (userID : string) : rprog Reputation :=
  o <- exec_pool (select_one reputations_t (has_key rp_user_id userID)) ;;
  match o with None => fail ErrNotFound | Some r => ret (reputation_of r) end.

(** ** Service *)

(** The other party, or the empty string. *)
Definition Opposite (p : Parties) (userID : string) : string :=
  if String.eqb userID (ClientID p) then FreelancerID p
  else if String.eqb userID (FreelancerID p) then ClientID p else "".

Definition completedContractStatuses (status : string) : bool := String.eqb status "completed".

Definition published_review (r : Review) : Event :=
  mkEvent "review" (rv_ID r) "review.published" "review.events" (rv_ID r)
    (JObj [("review_id", JStr (rv_ID r)); ("contract_id", JStr (rv_ContractID r)); ("reviewer_id", JStr (rv_ReviewerID r));
           ("reviewee_id", JStr (rv_RevieweeID r)); ("rating", JInt (rv_Rating r))]) None.

Definition publishContractCount (contractID : string) : rprog Z :=
  published <- PublishUnpublished contractID ;;
  for_each published (fun r =>
    store_RecomputeReputation (rv_RevieweeID r) ;;;
    Enqueue (published_review r)) ;;;
  ret (Z.of_nat (length published)).

Section Service.
Context (net : transport) (baseURL : string).

Definition store_new (contractID reviewerID revieweeID : string) (rating : Z)
  (dimensions : option (list (string * json))) (comment : option string) : rprog string :=
  in_tx (
    r <- attempt (InsertReview contractID reviewerID revieweeID rating dimensions comment) ;;
    match r with
    | Err (Dom ErrUniqueViolation) => fail ErrAlreadyReviewed
    | Err e => throw e
    | Ok id =>
        count <- CountReviews contractID ;;
        (if 2 <=? count then publishContractCount contractID ;;; ret tt else ret tt) ;;;
        commit ;;;
        ret id
    end).

Definition CreateReview (contractID reviewerID revieweeID : string) (rating : Z)
  (dimensions : option (list (string * json))) (comment : option string) : rprog Review :=
  if (rating <? 1) || (5 <? rating) then fail ErrInvalidRating else
  if String.eqb contractID "" then fail ErrInvalidContract else
  o <- Get net baseURL contractID ;;
  match o with
  | inr _ => fail ErrForbidden
  | inl p =>
      if negb (IsParty p reviewerID) then fail ErrForbidden else
      if negb (String.eqb revieweeID (Opposite p reviewerID)) then fail ErrInvalidContract else
      if negb (completedContractStatuses (Status p)) then fail ErrContractNotComplete else
      id <- store_new contractID reviewerID revieweeID rating dimensions comment ;;
      GetReview id
  end.
End Service.

Definition PublishWindowClosed (contractID : string) : rprog Z :=
  in_tx (
    published <- publishContractCount contractID ;;
    commit ;;;
    ret published).

Definition RecomputeReputation (userID : string) : rprog unit :=
  in_tx (store_RecomputeReputation userID ;;; commit).

Definition AddResponse (reviewID responderID response : string) : rprog unit :=
  in_tx (
    revieweeID <- GetRevieweeID reviewID ;;
    if negb (String.eqb responderID revieweeID) then fail ErrForbidden else
    UpsertResponse reviewID responderID response ;;;
    commit).

Definition service_GetReview (id : string) : rprog Review := GetReview id.
Definition ListReviewsForUser (revieweeID : string) : rprog (list Review) := ListPublishedForUser revieweeID.
Definition service_GetReputation (userID : string) : rprog Reputation := GetReputation userID.

Example score_of_4_5_5 :
  let r rating := mkReview "" "" "" "u" rating JNull None true None 0 in
  rp_score (reputation_row "u" (aggregate [r 4; r 5; r 5]) 0) = 9333.
Proof. vm_compute. reflexivity. Qed.
