(* ===== verification/ReviewProofs.v ===== *)
(** * Properties of reviews, and their REST transport (services/review/internal/httpapi) *)
From stdpp Require Import relations.
From S2P Require Export ReviewStore.

(** ** What the operations do to the tables *)

Definition score_row (u : string) (t : Z) (l : list Review) : ReputationRow :=
  reputation_row u (aggregate (select_rows (shown u) l)) t.

Definition recomputed (u : string) (t : Z) (d : review_db) : review_db :=
  put reputations_t (upserted rp_user_id (score_row u t (reviews d)) (rescored (score_row u t (reviews d))) (reputations d)) d.

Definition announced (t : Z) (d : review_db) (r : Review) : review_db :=
  let d := recomputed (rv_RevieweeID r) t d in put review_HasOutbox (enqueued t (published_review r) (review_outbox d)) d.

(** The reviews of a contract that wait are published, their subjects' scores
    recomputed, and events announced. *)
Definition revealed (contractID : string) (t : Z) (d : review_db) : review_db :=
  fold_left (announced t) (map (publish t) (select_rows (unpublished_of contractID) (reviews d)))
    (put reviews_t (update_where (unpublished_of contractID) (publish t) (reviews d)) d).

Definition added (r : Review) (d : review_db) : review_db := put reviews_t (reviews d ++ [r]) d.

Definition both_sides (contractID : string) (l : list Review) : bool := 2 <=? countZ (of_contract contractID) l.

Section Outcomes.
Context (net : transport) (baseURL : string).
Implicit Types (ev : env) (d : review_db).

(** The contract service vouched for the parties of a finished contract. *)
Definition entitled_pair (contractID reviewerID revieweeID : string) : Prop :=
  exists p, vouched net baseURL contractID p /\ Status p = "completed" /\ IsParty p reviewerID = true /\
    revieweeID = Opposite p reviewerID.

Definition reviewed (r : Review) (t : Z) (d d' : review_db) : Prop :=
  entitled_pair (rv_ContractID r) (rv_ReviewerID r) (rv_RevieweeID r) /\ review_check (reviews d) r = None /\
  rv_IsPublished r = false /\
  d' = if both_sides (rv_ContractID r) (reviews d ++ [r]) then revealed (rv_ContractID r) t (added r d) else added r d.

Lemma wp_recompute u ev d t v n (Q : res review_err unit -> world review_db -> Prop) :
  (forall e w, committed w = d -> Q (Err e) w) ->
  (forall m, Q (Ok tt) (World d (Live t (recomputed u t v)) m)) ->
  wp (store_RecomputeReputation u) ev (World d (Live t v) n) Q.
Proof.
  intros Hf Hs. unfold store_RecomputeReputation. apply wp_bind, wp_exec; [by auto|].
  apply wp_exec; [by auto|]. unfold upsert. cbn [rows reputations_t now].
  assert (forall A (l : list A), first_violation (map (fun _ => None) l) = None) as ->
    by (intros A l; induction l; done).
  apply Hs.
Qed.

Lemma wp_announce l ev d t v n (Q : res review_err unit -> world review_db -> Prop) :
  (forall e w, committed w = d -> Q (Err e) w) ->
  (forall m, Q (Ok tt) (World d (Live t (fold_left (announced t) l v)) m)) ->
  wp (for_each l (fun r => store_RecomputeReputation (rv_RevieweeID r) ;;; Enqueue (published_review r))) ev
    (World d (Live t v) n) Q.
Proof.
  intros Hf. revert v n. induction l as [|r l IH]; intros v n Hs; cbn [for_each]; [by apply wp_ret|].
  apply wp_bind, wp_bind, wp_recompute; [done|]. intros m. apply wp_Enqueue; [by auto|]. by apply IH.
Qed.

Lemma wp_reveal contractID ev d t v n (Q : res review_err Z -> world review_db -> Prop) :
  (forall e w, committed w = d -> Q (Err e) w) ->
  (forall m, Q (Ok (Z.of_nat (length (select_rows (unpublished_of contractID) (reviews v)))))
     (World d (Live t (revealed contractID t v)) m)) ->
  wp (publishContractCount contractID) ev (World d (Live t v) n) Q.
Proof.
  intros Hf Hs. unfold publishContractCount, PublishUnpublished. apply wp_bind, (wp_update_free reviews_t); [by auto|].
  cbn [rows reviews_t now]. apply wp_bind, wp_announce; [done|]. intros m. apply wp_ret. rewrite length_map. apply Hs.
Qed.

Lemma store_new_changes contractID reviewerID revieweeID rating dims comment ev d n :
  entitled_pair contractID reviewerID revieweeID ->
  wp (store_new contractID reviewerID revieweeID rating dims comment) ev (rest d n) (ended (changes d (fun id d' =>
    exists r t, reviewed r t d d' /\ r = new_review id contractID reviewerID revieweeID rating dims comment t))).
Proof.
  intros HE. apply wp_in_changes. unfold InsertReview. apply wp_bind, wp_attempt, wp_bind, wp_attempt.
  apply (wp_insert reviews_t).
  1, 2: intros; cbn [isUniqueViolation]; repeat case_match; apply wp_throw; by apply closing_same.
  cbn [rows reviews_t]. set (r := new_review _ _ _ _ _ _ _ _). intros C.
  apply wp_ret. unfold CountReviews. apply wp_bind, wp_exec; [by auto with tables|]. cbn [put reviews_t reviews].
  change (2 <=? countZ (of_contract contractID) (reviews d ++ [r])) with (both_sides contractID (reviews d ++ [r])).
  apply wp_bind. destruct (both_sides _ _) eqn:B.
  - apply wp_bind, wp_reveal; [by auto with tables|]. intros m. apply wp_ret, wp_commit_answer.
    exists r, (clock ev n). split; [|done]. split; [done|]. split; [done|]. split; [done|].
    change (rv_ContractID r) with contractID. by rewrite B.
  - apply wp_ret, wp_commit_answer. exists r, (clock ev n). split; [|done]. split; [done|]. split; [done|]. split; [done|].
    change (rv_ContractID r) with contractID. by rewrite B.
Qed.

Lemma CreateReview_changes contractID reviewerID revieweeID rating dims comment ev d n :
  wp (CreateReview net baseURL contractID reviewerID revieweeID rating dims comment) ev (rest d n)
    (ended (changes d (fun _ d' => exists r t, reviewed r t d d' /\ rv_ContractID r = contractID /\
       rv_ReviewerID r = reviewerID /\ rv_RevieweeID r = revieweeID /\ rv_Rating r = rating))).
Proof.
  unfold CreateReview, rest. destruct (_ || _); [apply ended_same|]. destruct (String.eqb contractID ""); [apply ended_same|].
  apply wp_bind, wp_Get. destruct (read_parties _) as [p|] eqn:RP; [|apply ended_same].
  destruct (IsParty p reviewerID) eqn:IP; [|apply ended_same].
  destruct (String.eqb_spec revieweeID (Opposite p reviewerID)) as [->|]; [|apply ended_same].
  destruct (completedContractStatuses (Status p)) eqn:CS; [|apply ended_same]. cbn [negb].
  assert (entitled_pair contractID reviewerID (Opposite p reviewerID)) as HE.
  { exists p. split; [by exists n|]. apply String.eqb_eq in CS. by repeat split. }
  apply wp_bind. eapply wp_mono; [by apply store_new_changes|].
  intros [id|e] [c x m] [T O]; cbn [txs committed] in T, O; subst x; cbn [changes] in O.
  - destruct O as (r & t & HR & ->). unfold GetReview.
    apply wp_bind, (wp_pool_read _ (List.find (has_key rv_ID id) (reviews c))); [done|intros _|].
    + split; [done|]. right. exists (new_review id contractID reviewerID (Opposite p reviewerID) rating dims comment t). by eexists _, t.
    + destruct (List.find _ _); [apply wp_ret|apply wp_throw]; (split; [done|]); cbn [changes committed]; [by eexists _, t|].
      right. exists (new_review id contractID reviewerID (Opposite p reviewerID) rating dims comment t). by eexists _, t.
  - split; [done|]. destruct O as [->|(id & r & t & HR & ->)]; [by left|right].
    exists (new_review id contractID reviewerID (Opposite p reviewerID) rating dims comment t). by eexists _, t.
Qed.

Lemma PublishWindowClosed_changes contractID ev d n :
  wp (PublishWindowClosed contractID) ev (rest d n) (ended (changes d (fun k d' =>
    (exists t, d' = revealed contractID t d) /\ k = Z.of_nat (length (select_rows (unpublished_of contractID) (reviews d)))))).
Proof.
  apply wp_in_changes, wp_bind, wp_reveal; [by auto with tables|]. intros m. apply wp_commit_answer. split; [by eexists|done].
Qed.

Lemma RecomputeReputation_changes u ev d n :
  wp (RecomputeReputation u) ev (rest d n) (ended (changes d (fun _ d' => exists t, d' = recomputed u t d))).
Proof. apply wp_in_changes, wp_bind, wp_recompute; [by auto with tables|]. intros m. apply wp_commit_change. by eexists. Qed.

(** The reviewed user's answer, in place of any before. *)
Definition responded (reviewID responderID response : string) (d d' : review_db) : Prop :=
  let row := mkResponseRow reviewID responderID response in
  (exists r, List.find (has_key rv_ID reviewID) (reviews d) = Some r /\ rv_RevieweeID r = responderID) /\
  d' = put responses_t (upserted re_review_id row (answered row) (responses d)) d.

Lemma AddResponse_changes reviewID responderID response ev d n :
  wp (AddResponse reviewID responderID response) ev (rest d n)
    (ended (changes d (fun _ => responded reviewID responderID response d))).
Proof.
  apply wp_in_changes. unfold GetRevieweeID. apply wp_bind, wp_bind, wp_select_one; [by auto with tables|]. cbn [rows reviews_t].
  destruct (List.find _ _) as [r|] eqn:F; [|by apply wp_throw, closing_same]. apply wp_ret.
  destruct (String.eqb_spec responderID (rv_RevieweeID r)) as [->|]; [|by apply wp_throw, closing_same]. cbn [negb].
  unfold UpsertResponse. apply wp_bind, wp_exec; [by auto with tables|]. unfold references, upsert.
  destruct (existsb _ _); [|by auto with tables]. cbn [rows responses_t].
  assert (forall A (l : list A), first_violation (map (fun _ => None) l) = None) as ->
    by (intros A l; induction l; done).
  apply wp_commit_change. split; [by exists r|done].
Qed.
End Outcomes.

(** ** Scores *)

(** The row is the score of the published reviews of its user. *)
Definition scored_right (l : list Review) (row : ReputationRow) : Prop :=
  rp_score row = rp_score (score_row (rp_user_id row) 0 l) /\
  rp_job_success_pct row = rp_job_success_pct (score_row (rp_user_id row) 0 l).

Definition rated (u : string) (d : review_db) : Prop := In u (map rp_user_id (reputations d)).

Record scores_right (d : review_db) : Prop := {
  sr_keys : keyed rp_user_id (reputations d);
  sr_rows : Forall (scored_right (reviews d)) (reputations d);
  sr_rated : forall r, In r (reviews d) -> rv_IsPublished r = true -> rated (rv_RevieweeID r) d
}.

Lemma upserted_key {R K} `{EqDecision K} (pk : R -> K) new f l k :
  (forall r, pk (f r) = pk r) -> k = pk new \/ In k (map pk l) -> In k (map pk (upserted pk new f l)).
Proof.
  intros Hf Hk. unfold upserted. destruct (existsb _ l) eqn:X.
  - assert (map pk (update_where (fun r => bool_decide (pk r = pk new)) f l) = map pk l) as ->.
    { unfold update_where. rewrite map_map. apply map_ext. intros r. by destruct (bool_decide _); rewrite ?Hf. }
    destruct Hk as [->|Hk]; [|done]. apply existsb_exists in X as (r & Hr & K1). apply bool_decide_eq_true in K1.
    rewrite <- K1. by apply in_map.
  - rewrite map_app. apply in_app_iff. destruct Hk as [->|Hk]; [right; by left|by left].
Qed.

Lemma recomputed_rows u t d row : In row (reputations (recomputed u t d)) ->
  In row (reputations d) /\ rp_user_id row <> u \/ scored_right (reviews d) row /\ rp_user_id row = u.
Proof.
  intros [[H1 H2]|[(o & _ & E & ->)| ->]]%upserted_In; [by left|right..]; [|by split].
  cbn in E. unfold scored_right. cbn [rescored rp_user_id rp_score rp_job_success_pct]. by rewrite E.
Qed.

Lemma recomputed_rated u t d x : x = u \/ rated x d -> rated x (recomputed u t d).
Proof. intros Hx. apply (upserted_key rp_user_id); [done|exact Hx]. Qed.

(** Announcing the reviews of [l] puts the scores of their subjects right. *)
Lemma announced_scores t l d :
  keyed rp_user_id (reputations d) ->
  (forall row, In row (reputations d) -> In (rp_user_id row) (map rv_RevieweeID l) \/ scored_right (reviews d) row) ->
  let d' := fold_left (announced t) l d in
  reviews d' = reviews d /\ responses d' = responses d /\ keyed rp_user_id (reputations d') /\
  Forall (scored_right (reviews d)) (reputations d') /\
  (forall u, In u (map rv_RevieweeID l) \/ rated u d -> rated u d').
Proof.
  revert d. induction l as [|r l IH]; intros d K HR; cbn [fold_left].
  { repeat split; try done; [|by intros u [[]|]]. apply List.Forall_forall. intros row Hrow. by destruct (HR row Hrow). }
  specialize (IH (announced t d r)). change (reviews (announced t d r)) with (reviews d) in IH.
  destruct IH as (H1 & H2 & H3 & H4 & H5).
  - by apply upserted_NoDup.
  - intros row [[Hrow NE]|[HS _]]%recomputed_rows; [|by right]. destruct (HR row Hrow) as [[E|?]|?]; auto. by rewrite E in NE.
  - repeat split; try done. intros u [[<-|Hu]|Hu]; apply H5; [right|by left|right]; apply recomputed_rated; auto.
Qed.

Lemma revealed_reviews contractID t d :
  reviews (revealed contractID t d) = update_where (unpublished_of contractID) (publish t) (reviews d).
Proof.
  unfold revealed. set (d1 := put reviews_t _ d). change (update_where _ _ _) with (reviews d1). generalize d1, (map (publish t) (select_rows (unpublished_of contractID) (reviews d))).
  clear. intros d l. revert d. induction l as [|r l IH]; intros d; [done|]. cbn [fold_left]. by rewrite IH.
Qed.

Lemma shown_update contractID t u l : ~ In u (map rv_RevieweeID (select_rows (unpublished_of contractID) l)) ->
  select_rows (shown u) (update_where (unpublished_of contractID) (publish t) l) = select_rows (shown u) l.
Proof.
  intros Hu. induction l as [|r l IH]; [done|]. cbn [update_where map select_rows List.filter] in *.
  destruct (unpublished_of contractID r) eqn:U; cbn [map] in Hu.
  - assert (String.eqb (rv_RevieweeID r) u = false) as E by (apply String.eqb_neq; intros E; apply Hu; by left).
    assert (shown u r = false /\ shown u (publish t r) = false) as [-> ->] by (unfold shown; cbn [publish rv_RevieweeID]; by rewrite E).
    apply IH. intros Hin. apply Hu. by right.
  - destruct (shown u r); [f_equal|]; by apply IH.
Qed.

Lemma revealed_scores contractID t d : scores_right d -> scores_right (revealed contractID t d) /\ responses (revealed contractID t d) = responses d.
Proof.
  intros [K HR HP]. pose proof (revealed_reviews contractID t d) as ER. unfold revealed in *.
  set (l := map (publish t) (select_rows (unpublished_of contractID) (reviews d))) in *. set (d1 := put reviews_t _ d) in *.
  assert (map rv_RevieweeID l = map rv_RevieweeID (select_rows (unpublished_of contractID) (reviews d))) as EL
    by (unfold l; rewrite map_map; by apply map_ext).
  destruct (announced_scores t l d1 K) as (H1 & H2 & H3 & H4 & H5).
  - intros row Hrow. destruct (in_dec String.string_dec (rp_user_id row) (map rv_RevieweeID l)) as [Hin|Hn]; [by left|right].
    rewrite List.Forall_forall in HR. specialize (HR row Hrow). rewrite EL in Hn. unfold scored_right, score_row in *.
    unfold d1. cbn [put reviews_t reviews]. by rewrite shown_update.
  - rewrite H1 in ER. split; [|done]. constructor; [done|by rewrite H1|]. intros r Hr Pr. rewrite H1 in Hr. apply H5.
    apply In_update in Hr as [[Hr _]|(r0 & Hr & U & ->)]; [right; by apply HP|left].
    cbn [publish rv_RevieweeID]. rewrite EL. apply in_map. by apply List.filter_In.
Qed.

Lemma recomputed_scores u t d : scores_right d -> scores_right (recomputed u t d).
Proof.
  intros [K HR HP]. constructor.
  - by apply upserted_NoDup.
  - apply List.Forall_forall. rewrite List.Forall_forall in HR. intros row [[Hrow _]|[HS _]]%recomputed_rows; [by apply HR|done].
  - intros r Hr Pr. apply recomputed_rated. right. by apply HP.
Qed.

Lemma added_scores r d : rv_IsPublished r = false -> scores_right d -> scores_right (added r d).
Proof.
  intros Hr [K HR HP].
  assert (forall u, select_rows (shown u) (reviews d ++ [r]) = select_rows (shown u) (reviews d)) as ES.
  { intros u. unfold select_rows. rewrite List.filter_app. cbn. unfold shown at 2. rewrite Hr, andb_false_r. apply app_nil_r. }
  constructor; [done| |].
  - eapply List.Forall_impl; [|exact HR]. intros row. unfold scored_right, score_row. cbn [added put reviews_t reviews]. by rewrite ES.
  - intros x [Hx|[<-|[]]]%in_app_iff Px; [by apply HP|congruence].
Qed.

(** ** Calls and reachable tables *)

Section Reachable.
Context (net : transport) (baseURL : string).
Implicit Types (ev : env) (d : review_db).

Inductive review_op :=
| RvCreate (contractID reviewerID revieweeID : string) (rating : Z) (dims : option (list (string * json))) (comment : option string)
| RvClose (contractID : string)
| RvRecompute (userID : string)
| RvRespond (reviewID responderID response : string).

Definition review_run (o : review_op) : rprog unit :=
  match o with
  | RvCreate c a b rating dims comment => CreateReview net baseURL c a b rating dims comment ;;; ret tt
  | RvClose c => PublishWindowClosed c ;;; ret tt
  | RvRecompute u => RecomputeReputation u
  | RvRespond id u text => AddResponse id u text
  end.

Definition review_after (o : review_op) ev d (n : nat) : review_db := committed (snd (review_run o ev (rest d n))).

Definition review_change (o : review_op) (d d' : review_db) : Prop :=
  match o with
  | RvCreate c a b rating _ _ => exists r t, reviewed net baseURL r t d d' /\ rv_ContractID r = c /\ rv_ReviewerID r = a /\
      rv_RevieweeID r = b /\ rv_Rating r = rating
  | RvClose c => exists t, d' = revealed c t d
  | RvRecompute u => exists t, d' = recomputed u t d
  | RvRespond id u text => responded id u text d d'
  end.

Lemma review_op_changes o ev d n : review_after o ev d n = d \/ review_change o d (review_after o ev d n).
Proof.
  assert (forall A (p : rprog A) (P : A -> review_db -> Prop), wp p ev (rest d n) (ended (changes d P)) ->
    committed (snd (p ev (rest d n))) = d \/ exists a, P a (committed (snd (p ev (rest d n))))) as Hc.
  { intros A p P [_ Hp]. by apply changed_cases in Hp. }
  assert (forall A (p : rprog A), committed (snd ((p ;;; ret tt) ev (rest d n))) = committed (snd (p ev (rest d n)))) as Hd.
  { intros A p. unfold bind. by destruct (p ev _) as [[]]. }
  unfold review_after. destruct o as [c a b rating dims comment|c|u|id u text]; cbn [review_run review_change]; rewrite ?Hd.
  - destruct (Hc _ _ _ (CreateReview_changes net baseURL c a b rating dims comment ev d n)) as [?|(_ & ?)]; auto.
  - destruct (Hc _ _ _ (PublishWindowClosed_changes c ev d n)) as [?|(k & ? & _)]; auto.
  - destruct (Hc _ _ _ (RecomputeReputation_changes u ev d n)) as [?|([] & ?)]; auto.
  - destruct (Hc _ _ _ (AddResponse_changes id u text ev d n)) as [?|([] & ?)]; auto.
Qed.

(** Calls of which those that close a window do so for the contracts that
    [closes] allows. *)
Inductive review_step (closes : string -> Prop) (d : review_db) : review_db -> Prop :=
| rvs_call o ev n : (forall c, o = RvClose c -> closes c) -> review_step closes d (review_after o ev d n).

Definition no_reviews : review_db := mkReviewDb [] [] [] [].

Definition review_reachable (closes : string -> Prop) (d : review_db) : Prop := rtc (review_step closes) no_reviews d.

(** ** The invariant *)

(** Announced once when published, not at all before. *)
Definition times_announced (d : review_db) (id : string) : Z := countZ (has_key aggregate_id id) (review_outbox d).

Definition announced_right (d : review_db) (r : Review) : Prop :=
  times_announced d (rv_ID r) = if rv_IsPublished r then 1 else 0.

Definition review_pair (r : Review) : string * string := (rv_ContractID r, rv_ReviewerID r).

(** Blindness is said of the [covered] contracts. *)
Record review_inv_on (covered closes : string -> Prop) (d : review_db) : Prop := {
  vi_keys : keyed rv_ID (reviews d);
  vi_pairs : List.NoDup (map review_pair (reviews d));
  vi_rows : Forall (fun r => 1 <= rv_Rating r <= 5 /\
    entitled_pair net baseURL (rv_ContractID r) (rv_ReviewerID r) (rv_RevieweeID r)) (reviews d);
  vi_blind : forall r, In r (reviews d) -> covered (rv_ContractID r) ->
    if both_sides (rv_ContractID r) (reviews d) then rv_IsPublished r = true
    else rv_IsPublished r = true -> closes (rv_ContractID r);
  vi_scores : scores_right d;
  vi_announced : Forall (announced_right d) (reviews d);
  vi_events : forall e, In e (review_outbox d) -> In (aggregate_id e) (map rv_ID (reviews d))
}.

Definition review_inv : (string -> Prop) -> review_db -> Prop := review_inv_on (fun _ => True).

Lemma review_inv_start closes : review_inv closes no_reviews.
Proof. repeat constructor; try done; by intros ? []. Qed.

Lemma review_check_None l r : review_check l r = None ->
  ~ In (rv_ID r) (map rv_ID l) /\ 1 <= rv_Rating r <= 5 /\ ~ In (review_pair r) (map review_pair l).
Proof.
  unfold review_check. rewrite first_violation_None, !Forall_cons, !unique_index_None, check_row_None.
  intros (U1 & C & U2 & _). split; [|split; [lia|]].
  - intros (x & E & Hx)%in_map_iff. specialize (U1 x Hx). by rewrite E, String.eqb_refl in U1.
  - intros (x & E & Hx)%in_map_iff. specialize (U2 x Hx). injection E as E1 E2. by rewrite E1, E2, !String.eqb_refl in U2.
Qed.

Lemma count_update contractID t c l :
  countZ (of_contract c) (update_where (unpublished_of contractID) (publish t) l) = countZ (of_contract c) l.
Proof.
  unfold countZ, update_where. rewrite sumZ_map. apply sumZ_ext_in. intros r _. by destruct (unpublished_of _ r).
Qed.

Lemma both_sides_update contractID t c l :
  both_sides c (update_where (unpublished_of contractID) (publish t) l) = both_sides c l.
Proof. unfold both_sides. by rewrite count_update. Qed.

Lemma announced_events t l d id :
  countZ (has_key aggregate_id id) (review_outbox (fold_left (announced t) l d)) =
  countZ (has_key aggregate_id id) (review_outbox d) + countZ (has_key rv_ID id) l /\
  forall e, In e (review_outbox (fold_left (announced t) l d)) -> In e (review_outbox d) \/ In (aggregate_id e) (map rv_ID l).
Proof.
  revert d. induction l as [|r l IH]; intros d; cbn [fold_left].
  { unfold countZ at 3. cbn [sumZ]. split; [lia|]. auto. }
  destruct (IH (announced t d r)) as [E1 E2]. split.
  - rewrite E1. cbn [announced put review_HasOutbox review_outbox recomputed reputations_t]. unfold enqueued.
    rewrite countZ_snoc. unfold countZ at 4. cbn [sumZ]. fold (countZ (has_key rv_ID id) l).
    change (has_key aggregate_id id (mkOutbox _ _ (AggregateID (published_review r)) _ _ _ _ _ _ _)) with (has_key rv_ID id r). lia.
  - intros e [He|He]%E2; [|right; by right]. cbn in He. apply in_app_iff in He as [He|[<-|[]]]; [by left|right; by left].
Qed.

Lemma countZ_keyed l r : keyed rv_ID l -> In r l -> forall p, countZ (has_key rv_ID (rv_ID r)) (select_rows p l) = if p r then 1 else 0.
Proof.
  intros K Hr p. unfold countZ, select_rows. rewrite sumZ_filter.
  rewrite (sumZ_ext_in _ (fun x => if bool_decide (rv_ID x = rv_ID r) then (if p x then 1 else 0) else 0)).
  - by rewrite (sumZ_only rv_ID (fun x => if p x then 1 else 0)).
  - intros x _. unfold has_key. destruct (String.eqb_spec (rv_ID x) (rv_ID r)) as [E|NE];
      [rewrite bool_decide_eq_true_2 by done|rewrite bool_decide_eq_false_2 by done]; by destruct (p x).
Qed.

Lemma review_inv_revealed closes c t d : closes c \/ both_sides c (reviews d) = true ->
  review_inv_on (fun x => x <> c) closes d -> review_inv closes (revealed c t d).
Proof.
  intros Hc [K KP HR HB HS HA HE]. pose proof (revealed_reviews c t d) as ER.
  assert (map rv_ID (reviews (revealed c t d)) = map rv_ID (reviews d)) as EK by (rewrite ER; by apply map_key_update).
  assert (forall r, In r (reviews (revealed c t d)) -> exists r0, In r0 (reviews d) /\
    (unpublished_of c r0 = false /\ r = r0 \/ unpublished_of c r0 = true /\ r = publish t r0)) as Hin.
  { rewrite ER. intros r [[Hr U]|(r0 & Hr & U & ->)]%In_update; eauto. }
  constructor.
  - unfold keyed. by rewrite EK.
  - assert (map review_pair (reviews (revealed c t d)) = map review_pair (reviews d)) as ->; [|done].
    rewrite ER. unfold update_where. rewrite map_map. apply map_ext. intros r. by destruct (unpublished_of c r).
  - apply List.Forall_forall. rewrite List.Forall_forall in HR. intros r (r0 & Hr & [[_ ->]|[_ ->]])%Hin; by apply (HR r0).
  - intros r (r0 & Hr & Hcase)%Hin _. rewrite ER, both_sides_update.
    assert (rv_ContractID r = rv_ContractID r0) as E0 by by destruct Hcase as [[_ ->]|[_ ->]]. rewrite E0.
    destruct (String.eqb_spec (rv_ContractID r0) c) as [E|NE].
    + assert (rv_IsPublished r = true) as Pr.
      { destruct Hcase as [[U ->]|[_ ->]]; [|done]. unfold unpublished_of, of_contract in U. rewrite E, String.eqb_refl in U.
        by destruct (rv_IsPublished r0). }
      rewrite Pr, E. destruct (both_sides c _) eqn:B; [done|]. intros _. destruct Hc; [done|congruence].
    + assert (r = r0) as ->; [|by apply HB]. destruct Hcase as [[_ ->]|[U _]]; [done|].
      unfold unpublished_of, of_contract in U. by rewrite (proj2 (String.eqb_neq _ _) NE) in U.
  - by apply revealed_scores.
  - apply List.Forall_forall. rewrite List.Forall_forall in HA. intros r (r0 & Hr & Hcase)%Hin. unfold announced_right, times_announced.
    assert (rv_ID r = rv_ID r0) as -> by by destruct Hcase as [[_ ->]|[_ ->]].
    unfold revealed. destruct (announced_events t (map (publish t) (select_rows (unpublished_of c) (reviews d)))
      (put reviews_t (update_where (unpublished_of c) (publish t) (reviews d)) d) (rv_ID r0)) as [-> _].
    cbn [put reviews_t review_outbox]. specialize (HA r0 Hr). unfold announced_right, times_announced in HA. rewrite HA.
    assert (forall l, countZ (has_key rv_ID (rv_ID r0)) (map (publish t) l) = countZ (has_key rv_ID (rv_ID r0)) l) as ->
      by (intros l; unfold countZ; by rewrite sumZ_map).
    rewrite (countZ_keyed _ _ K Hr). destruct Hcase as [[-> ->]|[U ->]]; [lia|]. rewrite U.
    unfold unpublished_of in U. by destruct (rv_IsPublished r0); [rewrite andb_false_r in U|].
  - intros e He. rewrite EK. unfold revealed in He.
    destruct (announced_events t (map (publish t) (select_rows (unpublished_of c) (reviews d)))
      (put reviews_t (update_where (unpublished_of c) (publish t) (reviews d)) d) "") as [_ HE'].
    apply HE' in He as [He|He]; [by apply HE|]. rewrite map_map in He. apply in_map_iff in He as (x & <- & Hx).
    apply List.filter_In in Hx as [Hx _]. by apply (in_map rv_ID) in Hx.
Qed.

Lemma both_sides_other c r l : rv_ContractID r <> c -> both_sides c (l ++ [r]) = both_sides c l.
Proof.
  intros NE. unfold both_sides. rewrite countZ_snoc. unfold of_contract at 2. rewrite (proj2 (String.eqb_neq _ _)) by done.
  by rewrite Z.add_0_r.
Qed.

(** A new review, before its contract's are revealed. *)
Lemma review_inv_added closes r d : review_inv closes d -> review_check (reviews d) r = None -> rv_IsPublished r = false ->
  entitled_pair net baseURL (rv_ContractID r) (rv_ReviewerID r) (rv_RevieweeID r) ->
  review_inv_on (fun c => c <> rv_ContractID r \/ both_sides c (reviews d ++ [r]) = false) closes (added r d).
Proof.
  intros [K KP HR HB HS HA HE] (Hn & Hrate & Hp)%review_check_None Hpub Hent.
  constructor; cbn [added put reviews_t reviews review_outbox].
  - by apply keyed_snoc.
  - rewrite map_app. apply List.NoDup_app; [done|repeat constructor; by intros []|]. intros x Hx [<-|[]]. by apply Hp.
  - apply Forall_app. split; [done|]. by constructor.
  - intros x Hx Hc. destruct (String.eqb_spec (rv_ContractID r) (rv_ContractID x)) as [E|NE].
    + destruct Hc as [?|B]; [congruence|]. rewrite B. intros Px. apply in_app_iff in Hx as [Hx|[<-|[]]]; [|congruence].
      specialize (HB x Hx I). destruct (both_sides (rv_ContractID x) (reviews d)) eqn:B2; [|by apply HB].
      unfold both_sides in B, B2. rewrite countZ_snoc in B. destruct (of_contract _ r); lia.
    + apply in_app_iff in Hx as [Hx|[<-|[]]]; [|done]. rewrite both_sides_other by done. by apply HB.
  - by apply added_scores.
  - apply Forall_app. split; [done|]. constructor; [|constructor]. unfold announced_right, times_announced. cbn [added put reviews_t review_outbox].
    rewrite Hpub. apply sumZ_zero_in. intros e He%HE. destruct (has_key aggregate_id (rv_ID r) e) eqn:X; [|done].
    apply has_key_true in X. by rewrite X in He.
  - intros e He%HE. rewrite map_app. apply in_app_iff. by left.
Qed.

Lemma review_inv_covered (cov cov' : string -> Prop) closes d :
  (forall c, cov' c -> cov c) -> review_inv_on cov closes d -> review_inv_on cov' closes d.
Proof. intros Hc [K KP HR HB HS HA HE]. constructor; try done. intros r Hr Hx. apply HB; auto. Qed.

Lemma review_inv_change closes o d d' : (forall c, o = RvClose c -> closes c) ->
  review_change o d d' -> review_inv closes d -> review_inv closes d'.
Proof.
  intros Hcl. destruct o as [c a b rating dims comment|c|u|id u text]; cbn [review_change].
  - intros (r & t & (Hent & C & Hpub & ->) & _) HI. pose proof (review_inv_added _ _ _ HI C Hpub Hent) as HI2.
    destruct (both_sides _ _) eqn:B.
    + apply review_inv_revealed; [by right|]. eapply review_inv_covered; [|exact HI2]. intros c' Hc'. by left.
    + eapply review_inv_covered; [|exact HI2]. intros c' _. destruct (String.eqb_spec c' (rv_ContractID r)) as [->|]; auto.
  - intros (t & ->) HI. apply review_inv_revealed; [left; by apply Hcl|]. by eapply review_inv_covered; [|exact HI].
  - intros (t & ->) [K KP HR HB HS HA HE]. constructor; try done. by apply recomputed_scores.
  - intros (_ & ->) [K KP HR HB HS HA HE]. by destruct HS.
Qed.

Lemma review_reachable_inv closes d : review_reachable closes d -> review_inv closes d.
Proof.
  intros R. unfold review_reachable in R. remember no_reviews as d0 eqn:E. assert (review_inv closes d0) as HI by (subst; apply review_inv_start).
  clear E. induction R as [d|d1 d2 d3 S _ IH]; [done|]. apply IH. destruct S as [o ev n Ho].
  destruct (review_op_changes o ev d1 n) as [->|Hc]; [done|]. by eapply review_inv_change.
Qed.

(** C33: Reviews stay blind. In every reachable database, when two reviews of a
    contract exist both are published; before, a review is published only if
    somebody closed the window of its contract. *)
Theorem reviews_are_blind closes d r : review_reachable closes d -> In r (reviews d) ->
  if both_sides (rv_ContractID r) (reviews d) then rv_IsPublished r = true
  else rv_IsPublished r = true -> closes (rv_ContractID r).
Proof. intros HI%review_reachable_inv Hr. by apply (vi_blind _ _ _ HI). Qed.

(** The reputation is the average. In every reachable database a score is
    twenty times the average of the published ratings of its user, to the
    hundredth, and the success percentage the share of ratings from 4 up, to the
    percent; and whoever has a published review has a score. *)
Theorem reputation_is_the_average closes d : review_reachable closes d ->
  (forall row, In row (reputations d) ->
     let l := select_rows (shown (rp_user_id row)) (reviews d) in
     let total := Z.of_nat (length l) in
     (total = 0 -> rp_score row = 0 /\ rp_job_success_pct row = None) /\
     (0 < total -> rp_score row = half_up (2000 * sumZ rv_Rating l) total /\
        rp_job_success_pct row = Some (half_up (100 * countZ (fun r => 4 <=? rv_Rating r) l) total))) /\
  (forall r, In r (reviews d) -> rv_IsPublished r = true -> rated (rv_RevieweeID r) d).
Proof.
  intros HI%review_reachable_inv. destruct (vi_scores _ _ _ HI) as [_ HR HP]. split; [|exact HP].
  intros row Hrow l total. rewrite List.Forall_forall in HR. destruct (HR row Hrow) as [E1 E2]. rewrite E1, E2.
  unfold score_row, reputation_row, aggregate. fold l. fold total. cbn [rp_score rp_job_success_pct]. split.
  - intros ->. by split.
  - intros HT. rewrite (proj2 (Z.eqb_neq total 0)) by lia. cbn [ag_score ag_total ag_jobSuccess fst snd].
    rewrite (proj2 (Z.ltb_lt 0 total)) by done. split; [f_equal; lia|done].
Qed.

(** A review is announced exactly once, when it is published. *)
Theorem published_reviews_announced_once closes d r : review_reachable closes d -> In r (reviews d) ->
  times_announced d (rv_ID r) = if rv_IsPublished r then 1 else 0.
Proof.
  intros HI%review_reachable_inv Hr. pose proof (vi_announced _ _ _ HI) as HA. rewrite List.Forall_forall in HA. by apply HA.
Qed.

Lemma reviews_by_parties closes d : review_reachable closes d -> forall r, In r (reviews d) -> 1 <= rv_Rating r <= 5 /\
  entitled_pair net baseURL (rv_ContractID r) (rv_ReviewerID r) (rv_RevieweeID r).
Proof. intros HI%review_reachable_inv. pose proof (vi_rows _ _ _ HI) as HR. by rewrite List.Forall_forall in HR. Qed.

(** Reviews are by the parties, of each other, once. In every reachable
    database a review has a rating from 1 to 5, and the contract service vouched
    at some time that its contract was completed, that the reviewer is a party of
    it and the reviewed the other one; no party has two reviews of a contract. *)
Theorem reviews_are_by_the_parties closes d : review_reachable closes d ->
  (forall r, In r (reviews d) -> 1 <= rv_Rating r <= 5 /\
     exists p, vouched net baseURL (rv_ContractID r) p /\ Status p = "completed" /\ IsParty p (rv_ReviewerID r) = true /\
       rv_RevieweeID r = Opposite p (rv_ReviewerID r)) /\
  List.NoDup (map review_pair (reviews d)).
Proof.
  intros HR. split; [by apply (reviews_by_parties closes)|]. apply (vi_pairs _ _ _ (review_reachable_inv _ _ HR)).
Qed.
End Reachable.

(** ** REST transport *)

Record createReq := mkCreateReq {
  cq_ContractID : string;
  cq_RevieweeID : string;
  cq_Rating : Z;
  cq_Dimensions : option (list (string * json));
  cq_Comment : option string
}.

Definition decode_createReq (o : list (string * json)) : option createReq :=
  obind (str_field "contract_id" o) (fun c =>
  obind (str_field "reviewee_id" o) (fun b =>
  obind (int_field "rating" o) (fun rating =>
  obind (field into_map None "dimensions" o) (fun dims =>
  obind (field (into_opt as_string) None "comment" o) (fun comment => Some (mkCreateReq c b rating dims comment)))))).

Definition decode_responseReq : list (string * json) -> option string := str_field "response".

Definition reviewDTO (r : Review) : json :=
  JObj [("id", JStr (rv_ID r)); ("contract_id", JStr (rv_ContractID r)); ("reviewer_id", JStr (rv_ReviewerID r));
        ("reviewee_id", JStr (rv_RevieweeID r)); ("rating", JInt (rv_Rating r)); ("dimensions", rv_Dimensions r);
        ("comment", jopt JStr (rv_Comment r)); ("is_published", JBool (rv_IsPublished r));
        ("published_at", jopt JTime (rv_PublishedAt r)); ("created_at", JTime (rv_CreatedAt r))].

Definition mapError (e : err review_err) : response :=
  match e with
  | Dom ErrInvalidRating => writeErr 400 "INVALID_RATING" "review: rating must be between 1 and 5"
  | Dom ErrInvalidContract => writeErr 400 "INVALID_CONTRACT" "review: invalid contract or reviewee"
  | Dom ErrContractNotComplete => writeErr 400 "CONTRACT_NOT_COMPLETE" "review: contract is not in a completed state"
  | Dom ErrAlreadyReviewed => writeErr 409 "ALREADY_REVIEWED" "review: reviewer already reviewed this contract"
  | Dom ErrForbidden => writeErr 403 "FORBIDDEN" "not a party to this contract or not permitted"
  | Dom ErrNotFound => writeErr 404 "NOT_FOUND" "resource not found"
  | Dom ErrUniqueViolation | Db _ => writeErr 500 "INTERNAL" "internal error"
  end.

Section Api.
Context (net : transport) (baseURL : string).

Definition missing_identity : response := writeErr 401 "UNAUTHENTICATED" "missing X-User-Id".

Definition createReview (r : request) : rprog response :=
  req <-? Http.decode decode_createReq r ;;
  let reviewer := header r "X-User-Id" in
  if String.eqb reviewer "" then ret missing_identity else
  if String.eqb (cq_RevieweeID req) "" then ret (writeErr 400 "INVALID_ARGUMENT" "reviewee_id is required") else
  if String.eqb (cq_RevieweeID req) reviewer then ret (writeErr 400 "INVALID_ARGUMENT" "cannot review yourself") else
  rv <-? or_mapped mapError (CreateReview net baseURL (cq_ContractID req) reviewer (cq_RevieweeID req) (cq_Rating req)
           (cq_Dimensions req) (cq_Comment req)) ;;
  ret (writeJSON 201 (reviewDTO rv)).

Definition getReview (r : request) : rprog response :=
  rv <-? or_mapped mapError (service_GetReview (urlParam r "id")) ;;
  ret (writeJSON 200 (reviewDTO rv)).

Definition listForUser (r : request) : rprog response :=
  let revieweeID := query r "reviewee_id" in
  if String.eqb revieweeID "" then ret (writeErr 400 "INVALID_ARGUMENT" "reviewee_id is required") else
  l <-? or_mapped mapError (ListReviewsForUser revieweeID) ;;
  ret (writeJSON 200 (JObj [("reviews", JList (map reviewDTO l))])).

Definition addResponse (r : request) : rprog response :=
  text <-? Http.decode decode_responseReq r ;;
  let responder := header r "X-User-Id" in
  if String.eqb responder "" then ret missing_identity else
  _ <-? or_mapped mapError (AddResponse (urlParam r "id") responder text) ;;
  ret (writeJSON 200 (JObj [("status", JStr "ok")])).

Definition getReputation (r : request) : rprog response :=
  rep <-? or_mapped mapError (service_GetReputation (urlParam r "userID")) ;;
  ret (writeJSON 200 (JObj [("user_id", JStr (rep_UserID rep)); ("score", JFloat (rep_Score rep));
    ("job_success_pct", jopt JInt (rep_JobSuccessPct rep)); ("recompute_at", jopt JTime (rep_RecomputeAt rep));
    ("updated_at", JTime (rep_UpdatedAt rep))])).

Definition closeWindow (r : request) : rprog response :=
  n <-? or_mapped mapError (PublishWindowClosed (urlParam r "contractID")) ;;
  ret (writeJSON 200 (JObj [("published", JInt n)])).

Inductive review_route := CreateR | GetR | ListForUserR | ResponseR | ReputationR | CloseWindowR | HealthR.

Definition serve (x : review_route) (r : request) : rprog response :=
  match x with
  | CreateR => createReview r
  | GetR => getReview r
  | ListForUserR => listForUser r
  | ResponseR => addResponse r
  | ReputationR => getReputation r
  | CloseWindowR => closeWindow r
  | HealthR => ret (Response 200 JNull)
  end.

Definition after_route (x : review_route) (r : request) (ev : env) (d : review_db) (n : nat) : review_db :=
  committed (snd (serve x r ev (rest d n))).

(** What a request of the user [u] may do: add his review, answer a review of
    him, or publish what waits. *)
Definition own_voice (u : string) (d d' : review_db) : Prop :=
  d' = d \/ (exists r t, u <> "" /\ reviewed net baseURL r t d d' /\ rv_ReviewerID r = u /\ rv_RevieweeID r <> u) \/
  (exists id text, u <> "" /\ responded id u text d d') \/ exists c t, d' = revealed c t d.

(** Nobody speaks for another. Whatever a request asks, it changes nothing,
    or adds one review by the caller of somebody else, or records the caller's
    answer to a review of himself, or publishes the waiting reviews of a
    contract. *)
Theorem nobody_speaks_for_another x r ev d n : own_voice (header r "X-User-Id") d (after_route x r ev d n).
Proof.
  unfold after_route. set (P := own_voice (header r "X-User-Id") d).
  assert (forall A (p : rprog A) (R : A -> review_db -> Prop) k,
    wp p ev (rest d n) (ended (changes d R)) -> (forall a d', R a d' -> P d') ->
    (forall a w (S : res review_err response -> world review_db -> Prop), (forall y, S y w) -> wp (k a) ev w S) ->
    wp (bind_ok (or_mapped mapError p) k) ev (rest d n) (fun _ w => P (committed w))) as Hgo.
  { intros A p R k Hp HR Hk. apply wp_service; [|done]. eapply wp_mono; [exact Hp|]. intros a w [_ Hc%changed_cases].
    destruct Hc as [->|(b & Hb)]; [by left|by eapply HR]. }
  assert (wp (serve x r) ev (rest d n) (fun _ w => P (committed w))) as HW; [|exact HW].
  assert (P d) as H0 by by left.
  destruct x; cbn [serve].
  - unfold createReview. apply wp_bind_ok, wp_decode; [done|]. intros o req _ _. cbv zeta.
    destruct (String.eqb_spec (header r "X-User-Id") "") as [|NE]; [by apply wp_ret|].
    destruct (String.eqb _ ""); [by apply wp_ret|]. destruct (String.eqb_spec (cq_RevieweeID req) (header r "X-User-Id")); [by apply wp_ret|].
    eapply Hgo; [apply CreateReview_changes| |intros; by apply wp_ret].
    intros a d' (rv & t & HR & _ & E1 & E2 & _). right; left. exists rv, t. split; [done|]. split; [done|]. by rewrite E1, E2.
  - unfold getReview, service_GetReview, GetReview. apply wp_service; [|intros; by apply wp_ret].
    apply wp_bind, (wp_pool_read _ (List.find (has_key rv_ID (urlParam r "id")) (reviews d))); [done|by intros|].
    destruct (List.find _ _); [by apply wp_ret|by apply wp_throw].
  - unfold listForUser. cbv zeta. destruct (String.eqb _ ""); [by apply wp_ret|]. apply wp_service; [|intros; by apply wp_ret].
    apply wp_listing; by intros.
  - unfold addResponse. apply wp_bind_ok, wp_decode; [done|]. intros o text _ _. cbv zeta.
    destruct (String.eqb_spec (header r "X-User-Id") "") as [|NE]; [by apply wp_ret|].
    eapply Hgo; [apply AddResponse_changes| |intros; by apply wp_ret]. intros a d' HR. right; right; left. exists (urlParam r "id"), text. by split.
  - unfold getReputation, service_GetReputation, GetReputation. apply wp_service; [|intros; by apply wp_ret].
    apply wp_bind, (wp_pool_read _ (List.find (has_key rp_user_id (urlParam r "userID")) (reputations d))); [done|by intros|].
    destruct (List.find _ _); [by apply wp_ret|by apply wp_throw].
  - unfold closeWindow. eapply Hgo; [apply PublishWindowClosed_changes| |intros; by apply wp_ret].
    intros a d' [(t & ->) _]. right; right; right. by eexists _, _.
  - by apply wp_ret.
Qed.
End Api.

(** ** Demonstration *)

(** A contract service that vouches for one finished contract. *)
Definition demo_contracts : transport := fun _ _ =>
  Some (200, Some (JObj [("contract_id", JStr "c1"); ("client_id", JStr "ann"); ("freelancer_id", JStr "bob");
                         ("status", JStr "completed")])).

Definition run_reviews (l : list (review_op * nat)) (d : review_db) : review_db :=
  fold_left (fun d x => review_after demo_contracts "" (fst x) quiet_env d (snd x)) l d.

Lemma run_reviews_steps (closes : string -> Prop) l d : (forall x c, In x l -> fst x = RvClose c -> closes c) ->
  rtc (review_step demo_contracts "" closes) d (run_reviews l d).
Proof.
  revert d. induction l as [|[o n] l IH]; intros d Hc; [constructor|].
  eapply rtc_l; [apply (rvs_call demo_contracts "" closes d o quiet_env n); intros c; apply (Hc (o, n)); by left|].
  apply IH. intros x c Hx. apply Hc. by right.
Qed.

Definition ann_reviews : review_op := RvCreate "c1" "ann" "bob" 5 None (Some "great").
Definition bob_reviews : review_op := RvCreate "c1" "bob" "ann" 4 None None.

Definition one_side : review_db := run_reviews [(ann_reviews, 0%nat)] no_reviews.
Definition two_sides : review_db := run_reviews [(ann_reviews, 0%nat); (bob_reviews, 10%nat)] no_reviews.

Lemma one_side_reachable closes : review_reachable demo_contracts "" closes one_side.
Proof. apply (run_reviews_steps closes). by intros x c [<-|[]]. Qed.

Lemma two_sides_reachable closes : review_reachable demo_contracts "" closes two_sides.
Proof. apply (run_reviews_steps closes). by intros x c [<-|[<-|[]]]. Qed.

Definition first_review (d : review_db) : Review := hd (new_review "" "" "" "" 0 None None 0) (reviews d).

Lemma reviews_are_blind_witness :
  map rv_IsPublished (reviews two_sides) = [true; true] /\ rv_IsPublished (first_review one_side) = false /\
  (rv_IsPublished (first_review one_side) = true -> False).
Proof.
  split; [vm_compute; reflexivity|]. split; [vm_compute; reflexivity|].
  exact (reviews_are_blind demo_contracts "" (fun _ => False) one_side (first_review one_side) (one_side_reachable _)
    ltac:(vm_compute; by left)).
Defined.

Lemma reputation_is_the_average_witness :
  map (fun r => (rp_user_id r, rp_score r, rp_job_success_pct r)) (reputations two_sides) =
    [("bob", 10000, Some 100); ("ann", 8000, Some 100)] /\
  (forall r, In r (reviews two_sides) -> rv_IsPublished r = true -> rated (rv_RevieweeID r) two_sides).
Proof.
  split; [vm_compute; reflexivity|].
  exact (proj2 (reputation_is_the_average demo_contracts "" (fun _ => False) two_sides (two_sides_reachable _))).
Defined.

Lemma published_reviews_announced_once_witness :
  map aggregate_id (review_outbox two_sides) = map rv_ID (reviews two_sides) /\
  times_announced two_sides (rv_ID (first_review two_sides)) = 1.
Proof.
  split; [vm_compute; reflexivity|].
  exact (published_reviews_announced_once demo_contracts "" (fun _ => False) two_sides (first_review two_sides)
    (two_sides_reachable _) ltac:(vm_compute; by left)).
Defined.

Lemma reviews_are_by_the_parties_witness :
  map review_pair (reviews two_sides) = [("c1", "ann"); ("c1", "bob")] /\ List.NoDup (map review_pair (reviews two_sides)).
Proof.
  split; [vm_compute; reflexivity|].
  exact (proj2 (reviews_are_by_the_parties demo_contracts "" (fun _ => False) two_sides (two_sides_reachable _))).
Defined.

(** Anybody can close the window, and so read what the other side wrote before
    writing his own review. *)
Example anybody_closes_the_window :
  let r := Request (fun _ => "") (fun _ => "c1") (fun _ => "") 0 None None in
  map rv_IsPublished (reviews (after_route demo_contracts "" CloseWindowR r quiet_env one_side 10)) = [true].
Proof. vm_compute. reflexivity. Qed.

(** A waiting review is shown to whoever names it. *)
Example blind_review_readable :
  let r := Request (fun _ => "") (fun _ => rv_ID (first_review one_side)) (fun _ => "") 0 None None in
  match fst (serve demo_contracts "" GetR r quiet_env (rest one_side 10)) with
  | Ok a => status a = 200
  | Err _ => False
  end.
Proof. vm_compute. reflexivity. Qed.
