(* ===== verification/MessagingStore.v ===== *)
(** * Messaging (services/messaging: internal/store, internal/service)

    Conversations, their participants, messages and attachments (migration
    000009; messages are partitioned, with a default partition).  Identifiers
    of contracts, projects and users refer to other services' tables. *)
From S2P Require Export Outbox Gateway.

(** ** Row types *)

Record Conversation := mkConversation {
  cv_ID : string;
  cv_ContractID : option string;
  cv_ProjectID : option string;
  cv_Subject : option string;
  cv_LastMessageAt : option Z;
  cv_CreatedAt : Z
}.

Record Participant := mkParticipant {
  pt_conversation_id : string;
  pt_user_id : string;
  pt_role : string;
  pt_last_read_at : option Z
}.

Record ChatMessage := mkChatMessage {
  ms_ID : string;
  ms_ConversationID : string;
  ms_SenderID : string;
  ms_Body : option string;
  ms_Kind : string;
  ms_CreatedAt : Z;
  ms_EditedAt : option Z;
  ms_DeletedAt : option Z
}.

Record AttachmentRow := mkAttachmentRow {
  at_id : string;
  at_message_id : string;
  at_s3_key : string;
  at_filename : string;
  at_size_bytes : Z;
  at_content_type : string
}.

Record messaging_db := mkMessagingDb {
  conversations : list Conversation;
  participants : list Participant;
  chat_messages : list ChatMessage;
  attachments : list AttachmentRow;
  messaging_outbox : list OutboxRow
}.

Definition conversations_t : table messaging_db Conversation :=
  Table conversations (fun l d => mkMessagingDb l (participants d) (chat_messages d) (attachments d) (messaging_outbox d)).
Definition participants_t : table messaging_db Participant :=
  Table participants (fun l d => mkMessagingDb (conversations d) l (chat_messages d) (attachments d) (messaging_outbox d)).
Definition chat_messages_t : table messaging_db ChatMessage :=
  Table chat_messages (fun l d => mkMessagingDb (conversations d) (participants d) l (attachments d) (messaging_outbox d)).
Definition attachments_t : table messaging_db AttachmentRow :=
  Table attachments (fun l d => mkMessagingDb (conversations d) (participants d) (chat_messages d) l (messaging_outbox d)).
#[export] Instance messaging_HasOutbox : HasOutbox messaging_db :=
  Table messaging_outbox (fun l d => mkMessagingDb (conversations d) (participants d) (chat_messages d) (attachments d) l).

#[export] Instance messaging_Deferred : Deferred messaging_db := fun _ _ => true.

Inductive messaging_err := ErrNotFound | ErrNotParticipant.

Abbreviation mprog := (prog messaging_db messaging_err).

(** ** Store *)

Definition InsertConversation (contractID projectID subject : option string) : mprog Conversation :=
  exec (insert_row conversations_t
    (unique_index "conversations_pkey" (fun x y => String.eqb (cv_ID x) (cv_ID y)))
    (fun s => mkConversation (fresh s) contractID projectID subject None (to_timestamptz (now s)))).

Definition is_member (conversationID userID : string) (r : Participant) : bool :=
  String.eqb (pt_conversation_id r) conversationID && String.eqb (pt_user_id r) userID.

(** ON CONFLICT (conversation_id, user_id) DO NOTHING *)
Definition AddParticipant (conversationID userID role : string) : mprog unit :=
  exec (fun _ d =>
    if existsb (is_member conversationID userID) (participants d) then Done tt d else
    match references "conversation_participants_conversation_id_fkey" (has_key cv_ID conversationID) (conversations d) with
    | Some e => Reject e
    | None => Done tt (put participants_t (participants d ++ [mkParticipant conversationID userID role None]) d)
    end).

(** A querier is a transaction or the pool. *)
Definition querier := forall A, sql messaging_db A -> mprog A.

Definition IsParticipant (q : querier) (conversationID userID : string) : mprog bool :=
  q _ (fun _ d => Done (existsb (is_member conversationID userID) (participants d)) d).

Definition on_tx : querier := fun A f => exec f.
Definition PoolQuerier : querier := fun A f => exec_pool f.

Definition InsertMessage (conversationID senderID : string) (body : option string) (kind : string) : mprog ChatMessage :=
  exec (insert_row chat_messages_t
    (unique_index "messages_pkey" (fun x y => String.eqb (ms_ID x) (ms_ID y) && (ms_CreatedAt x =? ms_CreatedAt y)))
    (fun s => mkChatMessage (fresh s) conversationID senderID body kind (to_timestamptz (now s)) None None)).

Definition touched (t : Z) (c : Conversation) : Conversation :=
  mkConversation (cv_ID c) (cv_ContractID c) (cv_ProjectID c) (cv_Subject c) (Some (to_timestamptz t)) (cv_CreatedAt c).

Definition TouchConversation (conversationID : string) : mprog unit :=
  exec (update_rows conversations_t (has_key cv_ID conversationID) (fun s => touched (now s)) (fun _ => None)) ;;;
  ret tt.

(** conversation_id=$1 AND deleted_at IS NULL AND ($2 IS NULL OR created_at < $2) *)
Definition in_history (conversationID : string) (before : option Z) (m : ChatMessage) : bool :=
  String.eqb (ms_ConversationID m) conversationID && match ms_DeletedAt m with None => true | Some _ => false end &&
  match before with None => true | Some t => ms_CreatedAt m <? to_timestamptz t end.

Definition history_page (conversationID : string) (limit : Z) (before : option Z) (l : list ChatMessage) : list ChatMessage :=
  firstn (Z.to_nat limit) (rev (order_by ms_CreatedAt (select_rows (in_history conversationID before) l))).

(** A negative LIMIT is an error. *)
Definition store_ListMessages (conversationID : string) (limit : Z) (before : option Z) : mprog (list ChatMessage) :=
  exec_pool (fun _ d => if limit <? 0 then Reject Driver else Done (history_page conversationID limit before (chat_messages d)) d).

(** ORDER BY last_message_at DESC NULLS LAST, created_at DESC *)
Definition recent_first (x y : Conversation) : bool :=
  match cv_LastMessageAt x, cv_LastMessageAt y with
  | Some a, Some b => (b <? a) || ((a =? b) && (cv_CreatedAt y <=? cv_CreatedAt x))
  | Some _, None => true
  | None, Some _ => false
  | None, None => cv_CreatedAt y <=? cv_CreatedAt x
  end.

(** The join: a conversation for every row of the user among its participants. *)
Definition joined (userID : string) (d : messaging_db) : list Conversation :=
  flat_map (fun c => map (fun _ => c) (List.filter (is_member (cv_ID c) userID) (participants d))) (conversations d).

Definition store_ListConversations (userID : string) : mprog (list Conversation) :=
  exec_pool (fun _ d => Done (ordered_by recent_first (joined userID d)) d).

Definition read_to (t : Z) (r : Participant) : Participant :=
  mkParticipant (pt_conversation_id r) (pt_user_id r) (pt_role r) (Some (to_timestamptz t)).

Definition store_MarkRead (conversationID userID : string) : mprog unit :=
  l <- exec (update_rows participants_t (is_member conversationID userID) (fun s => read_to (now s)) (fun _ => None)) ;;
  match l with [] => fail ErrNotParticipant | _ => ret tt end.

Definition store_AddAttachment (messageID s3Key filename : string) (sizeBytes : Z) (contentType : string) : mprog string :=
  r <- exec (insert_row attachments_t
         (unique_index "message_attachments_pkey" (fun x y => String.eqb (at_id x) (at_id y)))
         (fun s => mkAttachmentRow (fresh s) messageID s3Key filename sizeBytes contentType)) ;;
  ret (at_id r).

(** ** Service *)

Definition CreateConversation (creatorUserID : string) (contractID projectID subject : option string)
  (participantUserIDs : list string) : mprog Conversation :=
  in_tx (
    conv <- InsertConversation contractID projectID subject ;;
    AddParticipant (cv_ID conv) creatorUserID "owner" ;;;
    for_each participantUserIDs (fun uid =>
      if String.eqb uid "" || String.eqb uid creatorUserID then ret tt else AddParticipant (cv_ID conv) uid "member") ;;;
    commit ;;;
    ret conv).

Definition sent_event (m : ChatMessage) : Event :=
  mkEvent "conversation" (ms_ConversationID m) "message.sent" "messaging.events" (ms_ConversationID m)
    (JObj [("message_id", JStr (ms_ID m)); ("conversation_id", JStr (ms_ConversationID m));
           ("sender_id", JStr (ms_SenderID m)); ("kind", JStr (ms_Kind m))]) None.

Definition PostMessage (conversationID senderID : string) (body : option string) (kind : string) : mprog ChatMessage :=
  let kind := if String.eqb kind "" then "text" else kind in
  in_tx (
    ok <- IsParticipant on_tx conversationID senderID ;;
    if negb ok then fail ErrNotParticipant else
    msg <- InsertMessage conversationID senderID body kind ;;
    TouchConversation conversationID ;;;
    Enqueue (sent_event msg) ;;;
    commit ;;;
    ret msg).

Definition page_limit (limit : Z) : Z := if (limit <=? 0) || (200 <? limit) then 50 else limit.

Definition ListMessages (conversationID requesterUserID : string) (limit : Z) (before : option Z) : mprog (list ChatMessage) :=
  ok <- IsParticipant PoolQuerier conversationID requesterUserID ;;
  if negb ok then fail ErrNotParticipant else store_ListMessages conversationID (page_limit limit) before.

Definition ListConversations (userID : string) : mprog (list Conversation) := store_ListConversations userID.

Definition service_IsParticipant (conversationID userID : string) : mprog bool :=
  IsParticipant PoolQuerier conversationID userID.

Definition MarkRead (conversationID userID : string) : mprog unit :=
  in_tx (store_MarkRead conversationID userID ;;; commit).

Definition AddAttachment (messageID s3Key filename : string) (sizeBytes : Z) (contentType : string) : mprog string :=
  in_tx (
    id <- store_AddAttachment messageID s3Key filename sizeBytes contentType ;;
    commit ;;;
    ret id).
