(* ===== verification/MessagingProofs.v ===== *)
(** * Properties of messaging, and its REST transport (services/messaging/internal/httpapi) *)
From stdpp Require Import relations.
From S2P Require Export MessagingStore.

(** ** What the operations do to the tables *)

Definition with_member (id uid role : string) (l : list Participant) : list Participant :=
  if existsb (is_member id uid) l then l else l ++ [mkParticipant id uid role None].

Definition with_others (id creator : string) (uids : list string) (l : list Participant) : list Participant :=
  fold_left (fun l uid => if String.eqb uid "" || String.eqb uid creator then l else with_member id uid "member" l) uids l.

Definition opened (c : Conversation) (creator : string) (uids : list string) (d : messaging_db) : messaging_db :=
  put participants_t (with_others (cv_ID c) creator uids (with_member (cv_ID c) creator "owner" (participants d)))
    (put conversations_t (conversations d ++ [c]) d).

Definition posted (m : ChatMessage) (t : Z) (d : messaging_db) : messaging_db :=
  put messaging_HasOutbox (enqueued t (sent_event m) (messaging_outbox d))
    (put conversations_t (update_where (has_key cv_ID (ms_ConversationID m)) (touched t) (conversations d))
       (put chat_messages_t (chat_messages d ++ [m]) d)).

Definition member_of (conversationID userID : string) (d : messaging_db) : Prop :=
  existsb (is_member conversationID userID) (participants d) = true.

Section Outcomes.
Implicit Types (ev : env) (d : messaging_db).

Definition created (creator : string) (contractID projectID subject : option string) (uids : list string) (d : messaging_db)
  (c : Conversation) (d' : messaging_db) : Prop :=
  exists id t, c = mkConversation id contractID projectID subject None (to_timestamptz t) /\
    ~ In id (map cv_ID (conversations d)) /\ d' = opened c creator uids d.

Lemma wp_AddParticipant id uid role ev d t v n (Q : res messaging_err unit -> world messaging_db -> Prop) :
  (forall e w, committed w = d -> Q (Err e) w) ->
  (forall m, Q (Ok tt) (World d (Live t (put participants_t (with_member id uid role (participants v)) v)) m)) ->
  wp (AddParticipant id uid role) ev (World d (Live t v) n) Q.
Proof.
  intros Hf Hs. unfold AddParticipant. apply wp_exec; [by auto|]. unfold with_member in Hs. destruct (existsb _ _).
  - specialize (Hs (S n)). by replace (put participants_t (participants v) v) with v in Hs by by destruct v.
  - destruct (references _ _ _); [by auto|]. apply Hs.
Qed.

Lemma wp_add_others id creator uids ev d t v n (Q : res messaging_err unit -> world messaging_db -> Prop) :
  (forall e w, committed w = d -> Q (Err e) w) ->
  (forall m, Q (Ok tt) (World d (Live t (put participants_t (with_others id creator uids (participants v)) v)) m)) ->
  wp (for_each uids (fun uid => if String.eqb uid "" || String.eqb uid creator then ret tt else AddParticipant id uid "member")) ev
    (World d (Live t v) n) Q.
Proof.
  intros Hf. revert v n. induction uids as [|uid uids IH]; intros v n Hs; cbn [for_each].
  - apply wp_ret. specialize (Hs n). cbn [with_others fold_left] in Hs.
    by replace (put participants_t (participants v) v) with v in Hs by by destruct v.
  - unfold with_others in Hs. cbn [fold_left] in Hs. destruct (_ || _); cbv iota in Hs |- *.
    + apply wp_bind, wp_ret. by apply IH.
    + apply wp_bind, wp_AddParticipant; [done|]. intros m. apply IH. exact Hs.
Qed.

Lemma CreateConversation_changes creator contractID projectID subject uids ev d n :
  wp (CreateConversation creator contractID projectID subject uids) ev (rest d n)
    (ended (changes d (created creator contractID projectID subject uids d))).
Proof.
  apply wp_in_changes. unfold InsertConversation. apply wp_bind.
  apply (wp_insert conversations_t); [by auto with tables|by auto with tables|].
  cbn [rows conversations_t]. set (c := mkConversation _ _ _ _ _ _). intros U%(pk_None _ cv_ID).
  apply wp_bind, wp_AddParticipant; [by auto with tables|]. intros m.
  apply wp_bind, wp_add_others; [by auto with tables|]. intros m2. apply wp_commit_answer.
  eexists _, _. split; [reflexivity|]. by split.
Qed.

Lemma PostMessage_changes conversationID senderID body kind ev d n :
  wp (PostMessage conversationID senderID body kind) ev (rest d n) (ended (changes d (fun m d' =>
    member_of conversationID senderID d /\ exists t, d' = posted m t d /\
    m = mkChatMessage (ms_ID m) conversationID senderID body (if String.eqb kind "" then "text" else kind) (to_timestamptz t) None None))).
Proof.
  unfold PostMessage. cbv zeta. apply wp_in_changes. unfold IsParticipant, on_tx. apply wp_bind, wp_exec; [by auto with tables|].
  destruct (existsb _ _) eqn:M; [|by apply wp_throw, closing_same]. cbn [negb]. unfold InsertMessage.
  apply wp_bind, (wp_insert chat_messages_t); [by auto with tables|by auto with tables|]. intros _. cbn [rows chat_messages_t].
  set (m := mkChatMessage _ _ _ _ _ _ _ _). unfold TouchConversation.
  apply wp_bind, wp_bind, (wp_update_free conversations_t); [by auto with tables|]. apply wp_ret.
  apply wp_bind, wp_Enqueue; [by auto with tables|]. apply wp_commit_answer.
  split; [exact M|]. eexists. by split.
Qed.

Definition receipt (conversationID userID : string) (d d' : messaging_db) : Prop :=
  member_of conversationID userID d /\
  exists t, d' = put participants_t (update_where (is_member conversationID userID) (read_to t) (participants d)) d.

Lemma MarkRead_receipt conversationID userID ev d n :
  wp (MarkRead conversationID userID) ev (rest d n) (ended (changes d (fun _ => receipt conversationID userID d))).
Proof.
  apply wp_in_changes. apply wp_bind, wp_bind, (wp_update_free participants_t); [by auto with tables|]. cbn [rows participants_t].
  destruct (select_rows _ _) as [|r l] eqn:SR; [by apply wp_throw, closing_same|]. cbn [map]. apply wp_ret, wp_commit_change.
  split; [|by eexists]. assert (In r (select_rows (is_member conversationID userID) (participants d))) as []%List.filter_In
    by (rewrite SR; by left). apply existsb_exists. by exists r.
Qed.

Definition attached (messageID : string) (d d' : messaging_db) : Prop :=
  exists r, at_message_id r = messageID /\ d' = put attachments_t (attachments d ++ [r]) d.

Lemma AddAttachment_changes messageID s3Key filename sizeBytes contentType ev d n :
  wp (AddAttachment messageID s3Key filename sizeBytes contentType) ev (rest d n)
    (ended (changes d (fun _ => attached messageID d))).
Proof.
  apply wp_in_changes. apply wp_bind, wp_bind, (wp_insert attachments_t); [by auto with tables|by auto with tables|]. intros _.
  apply wp_ret, wp_commit_answer. eexists. split; [|reflexivity]. done.
Qed.
End Outcomes.

(** ** Calls and reachable tables *)

Inductive messaging_op :=
| MsCreate (creator : string) (contractID projectID subject : option string) (uids : list string)
| MsPost (conversationID senderID : string) (body : option string) (kind : string)
| MsRead (conversationID userID : string)
| MsAttach (messageID s3Key filename : string) (sizeBytes : Z) (contentType : string).

Definition messaging_run (o : messaging_op) : mprog unit :=
  match o with
  | MsCreate u c p s uids => CreateConversation u c p s uids ;;; ret tt
  | MsPost c u body kind => PostMessage c u body kind ;;; ret tt
  | MsRead c u => MarkRead c u
  | MsAttach m k f z ty => AddAttachment m k f z ty ;;; ret tt
  end.

Definition messaging_after (o : messaging_op) (ev : env) (d : messaging_db) (n : nat) : messaging_db :=
  committed (snd (messaging_run o ev (rest d n))).

Definition messaging_change (o : messaging_op) (d d' : messaging_db) : Prop :=
  match o with
  | MsCreate u c p s uids => exists x, created u c p s uids d x d'
  | MsPost c u _ _ => exists m t, member_of c u d /\ d' = posted m t d /\ ms_ConversationID m = c /\ ms_SenderID m = u /\
      ms_CreatedAt m = to_timestamptz t /\ ms_DeletedAt m = None
  | MsRead c u => receipt c u d d'
  | MsAttach m _ _ _ _ => attached m d d'
  end.

Lemma messaging_op_changes o ev d n : messaging_after o ev d n = d \/ messaging_change o d (messaging_after o ev d n).
Proof.
  unfold messaging_after.
  destruct o as [u c p s uids|c u body kind|c u|m k f z ty]; cbn [messaging_run messaging_change]; rewrite ?dropped_answer.
  - by apply ended_changed, CreateConversation_changes.
  - destruct (ended_changed _ _ _ _ _ (PostMessage_changes c u body kind ev d n)) as [?|(m & HM & t & E & Em)]; [by left|right].
    exists m, t. split; [done|]. split; [done|]. rewrite Em. by repeat split.
  - destruct (ended_changed _ _ _ _ _ (MarkRead_receipt c u ev d n)) as [?|([] & ?)]; auto.
  - destruct (ended_changed _ _ _ _ _ (AddAttachment_changes m k f z ty ev d n)) as [?|(id & ?)]; auto.
Qed.

Inductive messaging_step (d : messaging_db) : messaging_db -> Prop :=
| mss_call o ev n : messaging_step d (messaging_after o ev d n).

Definition no_conversations : messaging_db := mkMessagingDb [] [] [] [] [].

Definition messaging_reachable (d : messaging_db) : Prop := rtc messaging_step no_conversations d.

(** ** The invariant *)

Definition announces (m : ChatMessage) (r : OutboxRow) : Prop :=
  event_type r = "message.sent" /\ partition_key r = ms_ConversationID m /\ payload r = Payload (sent_event m).

Definition in_conversation (id : string) (m : ChatMessage) : bool := String.eqb (ms_ConversationID m) id.

Definition last_instant (l : list ChatMessage) : option Z := fold_left (fun _ m => Some (ms_CreatedAt m)) l None.

Definition dated (l : list ChatMessage) (c : Conversation) : Prop :=
  cv_LastMessageAt c = last_instant (List.filter (in_conversation (cv_ID c)) l).

Definition pt_key (r : Participant) : string * string := (pt_conversation_id r, pt_user_id r).

Record messaging_inv (d : messaging_db) : Prop := {
  mi_keys : keyed cv_ID (conversations d);
  mi_members : List.NoDup (map pt_key (participants d));
  mi_owner : forall r, In r (participants d) -> In (pt_conversation_id r) (map cv_ID (conversations d));
  mi_senders : forall m, In m (chat_messages d) -> member_of (ms_ConversationID m) (ms_SenderID m) d;
  mi_events : Forall2 announces (chat_messages d) (messaging_outbox d);
  mi_dated : Forall (dated (chat_messages d)) (conversations d);
  mi_stamps : Forall (fun m => to_timestamptz (ms_CreatedAt m) = ms_CreatedAt m /\ ms_DeletedAt m = None) (chat_messages d)
}.

Lemma messaging_inv_start : messaging_inv no_conversations.
Proof. repeat constructor; try done; by intros ? []. Qed.

Lemma is_member_key c u r : is_member c u r = true <-> pt_key r = (c, u).
Proof. unfold is_member, pt_key. rewrite andb_true_iff, !String.eqb_eq. split; [by intros [-> ->]|by intros [= -> ->]]. Qed.

Lemma member_key c u l : existsb (is_member c u) l = true <-> In (c, u) (map pt_key l).
Proof.
  rewrite existsb_exists, in_map_iff. split; intros (r & H1 & H2); exists r; by rewrite is_member_key in *.
Qed.

(** Adding participants keeps the old ones and adds only of the conversation. *)
Record joins (id : string) (l l' : list Participant) : Prop := {
  jo_more : exists k, l' = l ++ k /\ Forall (fun r => pt_conversation_id r = id) k;
  jo_keys : List.NoDup (map pt_key l) -> List.NoDup (map pt_key l')
}.

Lemma joins_refl id l : joins id l l.
Proof. split; [exists []; by rewrite app_nil_r|done]. Qed.

Lemma joins_trans id l1 l2 l3 : joins id l1 l2 -> joins id l2 l3 -> joins id l1 l3.
Proof.
  intros [(k & -> & F1) K1] [(k' & -> & F2) K2]. split; [|auto]. exists (k ++ k'). split; [by rewrite app_assoc|].
  by apply Forall_app.
Qed.

Lemma with_member_joins id uid role l : joins id l (with_member id uid role l).
Proof.
  unfold with_member. destruct (existsb _ l) eqn:X; [apply joins_refl|]. split.
  - eexists. split; [done|]. by repeat constructor.
  - intros K. rewrite map_app. apply List.NoDup_app; [done|repeat constructor; by intros []|]. intros x Hx [<-|[]].
    apply member_key in Hx. cbn in Hx. by rewrite X in Hx.
Qed.

Lemma with_others_joins id creator uids l : joins id l (with_others id creator uids l).
Proof.
  revert l. induction uids as [|uid uids IH]; intros l; [apply joins_refl|]. unfold with_others. cbn [fold_left].
  destruct (_ || _); [apply IH|]. eapply joins_trans; [apply with_member_joins|apply IH].
Qed.

Lemma member_grows c u d d' k : participants d' = participants d ++ k -> member_of c u d -> member_of c u d'.
Proof. unfold member_of. intros -> Hm. by rewrite existsb_app, Hm. Qed.

Lemma dated_snoc m l c : dated l c -> ms_ConversationID m <> cv_ID c -> dated (l ++ [m]) c.
Proof.
  unfold dated, in_conversation. intros -> NE. rewrite List.filter_app. cbn. rewrite (proj2 (String.eqb_neq _ _) NE). by rewrite app_nil_r.
Qed.

Lemma messaging_inv_created u c p s uids x d d' : created u c p s uids d x d' -> messaging_inv d -> messaging_inv d'.
Proof.
  intros (id & t & -> & Hn & ->) [K KM HO HS HE HD HT]. set (x := mkConversation _ _ _ _ _ _).
  pose proof (joins_trans _ _ _ _ (with_member_joins id u "owner" (participants d)) (with_others_joins id u uids _)) as [(k & E & Fk) KN].
  constructor; cbn [opened put participants_t conversations_t conversations participants chat_messages messaging_outbox cv_ID x]; try done.
  - by apply keyed_snoc.
  - by apply KN.
  - intros r. rewrite E, map_app. intros [Hr|Hr]%in_app_iff; apply in_app_iff; [left; by apply HO|right; left].
    rewrite List.Forall_forall in Fk. symmetry. by apply Fk.
  - intros m Hm. unfold member_of. cbn [opened put participants_t conversations_t participants cv_ID x]. rewrite E, existsb_app.
    specialize (HS m Hm). unfold member_of in HS. by rewrite HS.
  - apply Forall_app. split; [done|]. constructor; [|constructor]. unfold dated. cbn [x cv_LastMessageAt cv_ID].
    assert (List.filter (in_conversation id) (chat_messages d) = []) as ->; [|done].
    apply (select_none (in_conversation id)). intros m Hm. apply String.eqb_neq. intros Em. apply Hn. rewrite <- Em.
    specialize (HS m Hm). apply existsb_exists in HS as (r & Hr & Kr%is_member_key). injection Kr as K1 _. rewrite <- K1. by apply HO.
Qed.

Lemma messaging_inv_posted m t d : member_of (ms_ConversationID m) (ms_SenderID m) d -> ms_CreatedAt m = to_timestamptz t ->
  ms_DeletedAt m = None -> messaging_inv d -> messaging_inv (posted m t d).
Proof.
  intros HM ET HDel [K KM HO HS HE HD HT].
  constructor; cbn [posted put messaging_HasOutbox conversations_t chat_messages_t conversations participants chat_messages messaging_outbox]; try done.
  - by apply keyed_update.
  - intros r Hr. rewrite map_key_update by done. by apply HO.
  - intros x [Hx|[<-|[]]]%in_app_iff; [by apply HS|done].
  - apply Forall2_app; [done|]. repeat constructor.
  - apply List.Forall_forall. rewrite List.Forall_forall in HD. intros c [[Hc Hk]|(c0 & Hc & Hk & ->)]%In_update.
    + apply has_key_false in Hk. apply dated_snoc; [by apply HD|congruence].
    + apply has_key_true in Hk. unfold dated, last_instant, in_conversation. cbn [touched cv_LastMessageAt cv_ID].
      rewrite List.filter_app, fold_left_app, Hk. cbn. rewrite String.eqb_refl. cbn. by rewrite ET.
  - apply Forall_app. split; [done|]. constructor; [|constructor]. split; [|done]. rewrite ET. unfold to_timestamptz.
    rewrite Z.div_mul by done. done.
Qed.

Lemma messaging_inv_change o d d' : messaging_change o d d' -> messaging_inv d -> messaging_inv d'.
Proof.
  destruct o as [u c p s uids|c u body kind|c u|m k f z ty]; cbn [messaging_change].
  - intros (x & Hc). by apply (messaging_inv_created _ _ _ _ _ _ _ _ Hc).
  - intros (m & t & HM & -> & <- & <- & E1 & E2). by apply messaging_inv_posted.
  - intros (_ & t & ->) [K KM HO HS HE HD HT].
    assert (map pt_key (update_where (is_member c u) (read_to t) (participants d)) = map pt_key (participants d)) as EK.
    { unfold update_where. rewrite map_map. apply map_ext. intros r. by destruct (is_member c u r). }
    constructor; cbn [put participants_t participants conversations chat_messages messaging_outbox]; try done.
    + by rewrite EK.
    + intros r [[Hr _]|(r0 & Hr & _ & ->)]%In_update; [by apply HO|by apply (HO r0)].
    + intros m Hm. specialize (HS m Hm). unfold member_of in *. cbn [put participants_t participants].
      rewrite member_key, EK. by rewrite <- member_key.
  - intros (r & _ & ->) HI. by destruct HI.
Qed.

(** Participants are never removed. *)
Lemma members_stay c0 u0 d d' : messaging_step d d' -> member_of c0 u0 d -> member_of c0 u0 d'.
Proof.
  intros [o ev n] M. destruct (messaging_op_changes o ev d n) as [->|C]; [done|]. revert C.
  generalize (messaging_after o ev d n). intros d1.
  destruct o as [u c p s uids|c u body kind|c u|m k f z ty]; cbn [messaging_change].
  - intros (x & id & t & -> & _ & ->).
    pose proof (joins_trans _ _ _ _ (with_member_joins id u "owner" (participants d)) (with_others_joins id u uids _)) as [(k & E & _) _].
    by apply (member_grows _ _ d _ k).
  - by intros (m & t & _ & -> & _).
  - intros (_ & t & ->). unfold member_of in *. cbn [put participants_t participants]. apply member_key. apply member_key in M.
    replace (map pt_key _) with (map pt_key (participants d)); [done|].
    unfold update_where. rewrite map_map. apply map_ext. intros r. by destruct (is_member c u r).
  - by intros (r & _ & ->).
Qed.

Lemma messaging_reachable_inv d : messaging_reachable d -> messaging_inv d.
Proof.
  intros R. unfold messaging_reachable in R. remember no_conversations as d0 eqn:E.
  assert (messaging_inv d0) as HI by (subst; apply messaging_inv_start). clear E.
  induction R as [d|d1 d2 d3 S _ IH]; [done|]. apply IH. destruct S as [o ev n].
  destruct (messaging_op_changes o ev d1 n) as [->|Hc]; [done|]. by eapply messaging_inv_change.
Qed.

(** Messages come from participants and are all announced, in order. In
    every reachable database the sender of a message participates in its
    conversation, which exists; the outbox holds exactly one message.sent event
    per message, in the order they were written; and a conversation carries the
    instant of its last message. *)
Theorem messages_are_from_participants d : messaging_reachable d ->
  (forall m, In m (chat_messages d) -> member_of (ms_ConversationID m) (ms_SenderID m) d /\
     exists c, In c (conversations d) /\ cv_ID c = ms_ConversationID m) /\
  Forall2 announces (chat_messages d) (messaging_outbox d) /\
  Forall (dated (chat_messages d)) (conversations d).
Proof.
  intros [K KM HO HS HE HD HT]%messaging_reachable_inv. split; [|by split]. intros m Hm. split; [by apply HS|].
  specialize (HS m Hm). apply existsb_exists in HS as (r & Hr & Kr%is_member_key). injection Kr as K1 _.
  destruct (proj1 (in_map_iff _ _ _) (HO r Hr)) as (c & E & Hc). exists c. by rewrite E.
Qed.

(** ** Reading the history page by page *)

Section Paging.
Context (conversationID : string) (limit : Z) (all : list ChatMessage).

(** What a client gets who asks for a page, then for the page before its last
    message, until a page is empty. *)
Fixpoint pages (fuel : nat) (before : option Z) : list ChatMessage :=
  match fuel with
  | O => []
  | S fuel' =>
      let p := history_page conversationID limit before all in
      match p with
      | [] => []
      | _ => p ++ pages fuel' (option_map ms_CreatedAt (last p))
      end
  end.

Definition whole_history : list ChatMessage := rev (order_by ms_CreatedAt (select_rows (in_history conversationID None) all)).

Lemma insert_by_filter {R} (key : R -> Z) p r l : StronglySorted (fun x y => key x <= key y) l ->
  List.filter p (insert_by key r l) = if p r then insert_by key r (List.filter p l) else List.filter p l.
Proof.
  intros HS. induction HS as [|x l HS IH HF]; cbn [insert_by List.filter]; [by destruct (p r)|].
  destruct (Z.leb_spec (key r) (key x)) as [L|L]; cbn [List.filter].
  - destruct (p r); [|done]. destruct (p x) eqn:PX; cbn [insert_by]; [by rewrite (proj2 (Z.leb_le _ _) L)|].
    clear IH. destruct (List.filter p l) as [|y k] eqn:E; [done|]. cbn [insert_by].
    assert (In y (List.filter p l)) as [Hy _]%List.filter_In by (rewrite E; by left).
    rewrite List.Forall_forall in HF. specialize (HF y Hy). rewrite (proj2 (Z.leb_le _ _)) by lia. done.
  - rewrite IH. destruct (p r), (p x); cbn [insert_by]; try done. by rewrite (proj2 (Z.leb_gt _ _) L).
Qed.

Lemma order_by_filter {R} (key : R -> Z) p l : List.filter p (order_by key l) = order_by key (List.filter p l).
Proof.
  induction l as [|r l IH]; [done|]. cbn [order_by List.filter].
  rewrite insert_by_filter by apply order_by_sorted. rewrite IH. by destruct (p r).
Qed.

Lemma in_history_before t m : in_history conversationID (Some t) m =
  in_history conversationID None m && (ms_CreatedAt m <? to_timestamptz t).
Proof. unfold in_history. destruct (String.eqb _ _), (ms_DeletedAt m); cbn; done. Qed.

Lemma history_page_before t :
  history_page conversationID limit (Some t) all =
  firstn (Z.to_nat limit) (List.filter (fun m => ms_CreatedAt m <? to_timestamptz t) whole_history).
Proof.
  unfold history_page, whole_history, select_rows. f_equal. rewrite List.filter_rev, order_by_filter. do 2 f_equal.
  induction all as [|m l IH]; [done|]. cbn [List.filter]. rewrite in_history_before.
  destruct (in_history conversationID None m); cbn [andb List.filter]; [|done]. by destruct (_ <? _); rewrite IH.
Qed.

Lemma filter_below_suffix (l k : list ChatMessage) x :
  StronglySorted (fun a b => ms_CreatedAt b < ms_CreatedAt a) (l ++ x :: k) ->
  List.filter (fun m => ms_CreatedAt m <? ms_CreatedAt x) (l ++ x :: k) = k.
Proof.
  induction l as [|y l IH]; cbn [app List.filter]; intros [HS HF]%StronglySorted_inv.
  - rewrite Z.ltb_irrefl. induction HF as [|z k Hz HF IHk]; [done|]. apply StronglySorted_inv in HS as [HS _]. cbn [List.filter].
    rewrite (proj2 (Z.ltb_lt _ _) Hz). by rewrite IHk.
  - rewrite List.Forall_forall in HF. specialize (HF x ltac:(apply in_app_iff; right; by left)).
    rewrite (proj2 (Z.ltb_ge _ _)) by lia. by apply IH.
Qed.

Lemma whole_history_sorted : List.NoDup (map ms_CreatedAt whole_history) ->
  StronglySorted (fun a b => ms_CreatedAt b < ms_CreatedAt a) whole_history.
Proof.
  unfold whole_history. pose proof (order_by_sorted ms_CreatedAt (select_rows (in_history conversationID None) all)) as HS.
  revert HS. generalize (order_by ms_CreatedAt (select_rows (in_history conversationID None) all)). intros l HS.
  induction HS as [|x l HS IH HF]; [constructor|]. cbn [rev]. rewrite map_app. intros HN.
  apply sorted_snoc; [apply IH; by apply List.NoDup_app_remove_r in HN|].
  intros y Hy. apply in_rev in Hy. rewrite List.Forall_forall in HF. specialize (HF y Hy).
  assert (ms_CreatedAt y <> ms_CreatedAt x); [|lia]. intros E.
  apply List.NoDup_remove_2 in HN. apply HN. rewrite app_nil_r, <- E. apply in_map. by apply -> in_rev.
Qed.

Lemma last_split (l : list ChatMessage) : l <> [] -> exists k x, l = k ++ [x] /\ last l = Some x.
Proof. intros Hl. destruct (exists_last Hl) as (k & x & ->). exists k, x. split; [done|]. by rewrite last_snoc. Qed.

Context (Hlimit : 0 < limit) (Hdistinct : List.NoDup (map ms_CreatedAt whole_history)).
Context (Hstamps : Forall (fun m => to_timestamptz (ms_CreatedAt m) = ms_CreatedAt m) all).

Lemma pages_suffix fuel before done_ todo : whole_history = done_ ++ todo ->
  history_page conversationID limit before all = firstn (Z.to_nat limit) todo -> (length todo < fuel)%nat ->
  pages fuel before = todo.
Proof.
  revert before done_ todo. induction fuel as [|fuel IH]; intros before done_ todo EW EP HL; [lia|].
  cbn [pages]. rewrite EP. destruct (Z.to_nat limit) as [|n] eqn:En; [lia|]. destruct todo as [|m todo]; [done|].
  set (p := firstn (S n) (m :: todo)). assert (p <> []) as Hp by done.
  destruct (last_split p Hp) as (k & x & Ep & EL). rewrite EL. cbn [option_map].
  assert (match p with [] => [] | _ => p ++ pages fuel (Some (ms_CreatedAt x)) end = p ++ pages fuel (Some (ms_CreatedAt x))) as -> by by destruct p.
  assert (m :: todo = p ++ skipn (S n) (m :: todo)) as Esplit by (symmetry; apply firstn_skipn).
  transitivity (p ++ skipn (S n) (m :: todo)); [|symmetry; exact Esplit]. f_equal.
  apply (IH _ (done_ ++ p)); [rewrite EW, <- app_assoc; f_equal; exact Esplit| |cbn; rewrite length_skipn; cbn in HL; lia].
  rewrite history_page_before, En. f_equal.
  assert (In x whole_history) as Hx.
  { rewrite EW, Esplit, Ep. apply in_app_iff. right. apply in_app_iff. left. apply in_app_iff. right. by left. }
  assert (to_timestamptz (ms_CreatedAt x) = ms_CreatedAt x) as ->.
  { rewrite List.Forall_forall in Hstamps. apply Hstamps. unfold whole_history in Hx. apply in_rev in Hx.
    apply (Permutation.Permutation_in _ (order_by_perm _ _)) in Hx. by apply List.filter_In in Hx as [? _]. }
  pose proof (whole_history_sorted Hdistinct) as HSort.
  assert (whole_history = (done_ ++ k) ++ x :: skipn (S n) (m :: todo)) as EA.
  { rewrite EW. transitivity (done_ ++ (p ++ skipn (S n) (m :: todo))); [by f_equal|]. by rewrite Ep, <- !app_assoc. }
  revert HSort. rewrite EA. apply filter_below_suffix.
Qed.
End Paging.

(** C35: Paging reads everything. In every reachable database in which no two
    messages of a conversation have the same instant, a client who asks for page
    after page, each before the last message of the previous one, reads the whole
    conversation, newest first, each message once. *)
Theorem paging_reads_everything conversationID limit d fuel :
  messaging_reachable d -> List.NoDup (map ms_CreatedAt (whole_history conversationID (chat_messages d))) -> 0 < limit ->
  (length (chat_messages d) < fuel)%nat ->
  pages conversationID limit (chat_messages d) fuel None = whole_history conversationID (chat_messages d) /\
  Permutation.Permutation (whole_history conversationID (chat_messages d))
    (List.filter (in_conversation conversationID) (chat_messages d)).
Proof.
  intros HR HN HL HF. pose proof (messaging_reachable_inv d HR) as HI. pose proof (mi_stamps d HI) as HT.
  assert (select_rows (in_history conversationID None) (chat_messages d) = List.filter (in_conversation conversationID) (chat_messages d)) as EH.
  { apply filter_ext_in. intros m Hm. rewrite List.Forall_forall in HT. destruct (HT m Hm) as [_ HD].
    unfold in_history, in_conversation. by rewrite HD, !andb_true_r. }
  assert (Permutation.Permutation (whole_history conversationID (chat_messages d))
    (List.filter (in_conversation conversationID) (chat_messages d))) as HP.
  { unfold whole_history. rewrite EH. etrans; [symmetry; apply Permutation.Permutation_rev|]. apply order_by_perm. }
  split; [|exact HP]. apply (pages_suffix conversationID limit (chat_messages d) HL HN) with (done_ := []); [|done|done|].
  - eapply List.Forall_impl; [|exact HT]. by intros m [? _].
  - rewrite (Permutation.Permutation_length HP). pose proof (List.filter_length_le (in_conversation conversationID) (chat_messages d)). lia.
Qed.

(** ** REST transport *)

Record createConvReq := mkCreateConvReq {
  cr_ContractID : option string;
  cr_ProjectID : option string;
  cr_Subject : option string;
  cr_Participants : option (list string)
}.

Definition decode_createConvReq (o : list (string * json)) : option createConvReq :=
  obind (field (into_opt as_string) None "contract_id" o) (fun c =>
  obind (field (into_opt as_string) None "project_id" o) (fun p =>
  obind (field (into_opt as_string) None "subject" o) (fun s =>
  obind (field (into_slice "" as_string) None "participants" o) (fun uids => Some (mkCreateConvReq c p s uids))))).

Definition decode_postMsgReq (o : list (string * json)) : option (option string * string) :=
  obind (field (into_opt as_string) None "body" o) (fun body =>
  obind (str_field "kind" o) (fun kind => Some (body, kind))).

Record attachmentReq := mkAttachmentReq {
  ar_S3Key : string;
  ar_Filename : string;
  ar_SizeBytes : Z;
  ar_ContentType : string
}.

Definition decode_attachmentReq (o : list (string * json)) : option attachmentReq :=
  obind (str_field "s3_key" o) (fun k =>
  obind (str_field "filename" o) (fun f =>
  obind (int_field "size_bytes" o) (fun z =>
  obind (str_field "content_type" o) (fun ty => Some (mkAttachmentReq k f z ty))))).

Definition conversationDTO (c : Conversation) : json :=
  JObj [("id", JStr (cv_ID c)); ("contract_id", jopt JStr (cv_ContractID c)); ("project_id", jopt JStr (cv_ProjectID c));
        ("subject", jopt JStr (cv_Subject c)); ("last_message_at", jopt JTime (cv_LastMessageAt c));
        ("created_at", JTime (cv_CreatedAt c))].

Definition messageDTO (m : ChatMessage) : json :=
  JObj [("id", JStr (ms_ID m)); ("conversation_id", JStr (ms_ConversationID m)); ("sender_id", JStr (ms_SenderID m));
        ("body", jopt JStr (ms_Body m)); ("kind", JStr (ms_Kind m)); ("created_at", JTime (ms_CreatedAt m));
        ("edited_at", jopt JTime (ms_EditedAt m))].

Definition mapError (e : err messaging_err) : response :=
  match e with
  | Dom ErrNotParticipant => writeErr 403 "NOT_PARTICIPANT" "user is not a participant in this conversation"
  | Dom ErrNotFound => writeErr 404 "NOT_FOUND" "resource not found"
  | Db _ => writeErr 500 "INTERNAL" "internal error"
  end.

Definition createConversation (r : request) : mprog response :=
  req <-? Http.decode decode_createConvReq r ;;
  conv <-? or_mapped mapError (CreateConversation (header r "X-User-Id") (cr_ContractID req) (cr_ProjectID req)
             (cr_Subject req) (default [] (cr_Participants req))) ;;
  ret (writeJSON 201 (conversationDTO conv)).

Definition listConversations (r : request) : mprog response :=
  l <-? or_mapped mapError (ListConversations (header r "X-User-Id")) ;;
  ret (writeJSON 200 (JObj [("conversations", JList (map conversationDTO l))])).

Definition conversationMembership (r : request) : mprog response :=
  let userID := header r "X-User-Id" in
  if String.eqb userID "" then ret (writeErr 400 "VALIDATION_FAILED" "X-User-Id required") else
  member <-? or_mapped mapError (service_IsParticipant (urlParam r "id") userID) ;;
  ret (writeJSON 200 (JObj [("member", JBool member)])).

(** A limit that is no number counts as 0, a date that does not parse is ignored. *)
Definition before_param (r : request) : option Z :=
  if String.eqb (query r "before") "" then None else parse_rfc3339 (query r "before").

Definition listMessages (r : request) : mprog response :=
  l <-? or_mapped mapError (ListMessages (urlParam r "id") (header r "X-User-Id") (atoi (query r "limit")) (before_param r)) ;;
  ret (writeJSON 200 (JObj [("messages", JList (map messageDTO l))])).

Definition postMessage (r : request) : mprog response :=
  req <-? Http.decode decode_postMsgReq r ;;
  msg <-? or_mapped mapError (PostMessage (urlParam r "id") (header r "X-User-Id") (fst req) (snd req)) ;;
  ret (writeJSON 201 (messageDTO msg)).

Definition markRead (r : request) : mprog response :=
  _ <-? or_mapped mapError (MarkRead (urlParam r "id") (header r "X-User-Id")) ;;
  ret (writeJSON 200 (JObj [("status", JStr "ok")])).

Definition addAttachment (r : request) : mprog response :=
  req <-? Http.decode decode_attachmentReq r ;;
  id <-? or_mapped mapError (AddAttachment (urlParam r "id") (ar_S3Key req) (ar_Filename req) (ar_SizeBytes req)
           (ar_ContentType req)) ;;
  ret (writeJSON 201 (JObj [("id", JStr id)])).

Inductive messaging_route :=
| CreateC | ListC | MembershipC | ListM | PostM | ReadM | AttachM | HealthC.

Definition serve (x : messaging_route) (r : request) : mprog response :=
  match x with
  | CreateC => createConversation r
  | ListC => listConversations r
  | MembershipC => conversationMembership r
  | ListM => listMessages r
  | PostM => postMessage r
  | ReadM => markRead r
  | AttachM => addAttachment r
  | HealthC => ret (Response 200 JNull)
  end.

(** The routes that name a conversation whose contents they show or change. *)
Definition for_members (x : messaging_route) : bool :=
  match x with ListM | PostM | ReadM => true | _ => false end.

(** The answer refuses, and nothing changed. *)
Definition refused (d : messaging_db) (a : res messaging_err response) (w : world messaging_db) : Prop :=
  committed w = d /\ exists resp, a = Ok resp /\ 400 <= status resp.

(** The answer lists conversations of the user only. *)
Definition lists_own (u : string) (d : messaging_db) (a : res messaging_err response) : Prop :=
  exists resp, a = Ok resp /\
    (400 <= status resp \/ exists l, resp = writeJSON 200 (JObj [("conversations", JList (map conversationDTO l))]) /\
       forall c, In c l -> In c (conversations d) /\ member_of (cv_ID c) u d).

Lemma mapError_refuses e : 400 <= status (mapError e).
Proof. destruct e as [e|[]]; cbn; lia. Qed.

Lemma wp_refusal {A} (p : mprog A) (k : A -> mprog response) (P : A -> messaging_db -> Prop) ev d n :
  wp p ev (rest d n) (ended (changes d P)) -> (forall a d', ~ P a d') ->
  wp (bind_ok (or_mapped mapError p) k) ev (rest d n) (refused d).
Proof.
  intros Hp HP. apply wp_bind_ok, wp_or_mapped. eapply wp_mono; [exact Hp|]. intros [a|e] w [_ Hc]; cbn in Hc; [by apply HP in Hc|].
  destruct Hc as [E|(a & Ha)]; [|by apply HP in Ha]. split; [done|]. eexists. split; [done|]. apply mapError_refuses.
Qed.

Lemma members_only x r ev d n : for_members x = true -> ~ member_of (urlParam r "id") (header r "X-User-Id") d ->
  wp (serve x r) ev (rest d n) (refused d).
Proof.
  intros FM NM. destruct x; try done; cbn [serve].
  - unfold listMessages, ListMessages, IsParticipant, PoolQuerier. apply wp_bind_ok, wp_or_mapped, wp_bind.
    apply (wp_pool_read _ (existsb (is_member (urlParam r "id") (header r "X-User-Id")) (participants d))); [done|intros _|].
    + split; [done|]. eexists. split; [done|]. apply mapError_refuses.
    + unfold member_of in NM. destruct (existsb _ _); [done|]. apply wp_throw. split; [done|]. eexists. split; [done|].
      apply mapError_refuses.
  - unfold postMessage. apply wp_bind_ok, wp_decode; [split; [done|]; eexists; split; [done|]; cbn; lia|]. intros o req _ _.
    eapply wp_refusal; [apply PostMessage_changes|]. by intros a d' [? _].
  - unfold markRead. eapply wp_refusal; [apply MarkRead_receipt|]. by intros a d' [? _].
Qed.

Lemma joined_members u d c : In c (joined u d) -> In c (conversations d) /\ member_of (cv_ID c) u d.
Proof.
  unfold joined. intros (c0 & Hc & Hr)%in_flat_map. apply in_map_iff in Hr as (r & -> & [Hr Hm]%List.filter_In).
  split; [done|]. apply existsb_exists. by exists r.
Qed.

Lemma lists_own_only r ev d n : wp (serve ListC r) ev (rest d n) (fun a _ => lists_own (header r "X-User-Id") d a).
Proof.
  cbn [serve]. unfold listConversations, ListConversations, store_ListConversations. apply wp_bind_ok, wp_or_mapped.
  apply (wp_pool_read _ (ordered_by recent_first (joined (header r "X-User-Id") d))); [done|intros _|apply wp_ret].
  - eexists. split; [done|]. left. apply mapError_refuses.
  - eexists. split; [done|]. right. eexists. split; [done|]. intros c Hc. apply joined_members.
    apply (Permutation.Permutation_in _ (ordered_by_perm _ _)) in Hc. exact Hc.
Qed.

(** Conversations are private. Reading, posting to and marking as read a
    conversation in which the caller does not participate is refused and changes
    nothing, and a listing of conversations shows only those the caller
    participates in. *)
Theorem conversations_are_private x r ev d n :
  (for_members x = true -> ~ member_of (urlParam r "id") (header r "X-User-Id") d ->
   let a := serve x r ev (rest d n) in refused d (fst a) (snd a)) /\
  lists_own (header r "X-User-Id") d (fst (serve ListC r ev (rest d n))).
Proof. split; [intros FM NM; by apply (members_only x r ev d n)|apply (lists_own_only r ev d n)]. Qed.

(** ** Demonstration *)

(** A quiet run whose clock moves a microsecond with every call. *)
Definition ticking_env : env :=
  Env (fun _ => false) (fun _ => false) (fun n => Z.of_nat n * 1000) (gen_uuid quiet_env) (fun _ => Some Z.of_nat).

Definition run_messaging (l : list (messaging_op * nat)) (d : messaging_db) : messaging_db :=
  fold_left (fun d x => messaging_after (fst x) ticking_env d (snd x)) l d.

Lemma run_messaging_steps l d : rtc messaging_step d (run_messaging l d).
Proof.
  revert d. induction l as [|[o n] l IH]; intros d; [constructor|].
  eapply rtc_l; [apply (mss_call d o ticking_env n)|apply IH].
Qed.

Definition opened_demo : messaging_db := run_messaging [(MsCreate "ann" None None (Some "logo") ["bob"; "ann"; "bob"], 0%nat)] no_conversations.

Definition demo_conversation : string := match conversations opened_demo with c :: _ => cv_ID c | [] => "" end.

Definition talked_demo : messaging_db :=
  run_messaging [(MsPost demo_conversation "ann" (Some "hi") "", 10%nat); (MsPost demo_conversation "bob" (Some "hello") "text", 20%nat);
                 (MsPost demo_conversation "eve" (Some "psst") "", 30%nat); (MsRead demo_conversation "ann", 40%nat);
                 (MsPost demo_conversation "ann" None "file", 50%nat)] opened_demo.

Lemma talked_reachable : messaging_reachable talked_demo.
Proof. unfold messaging_reachable, talked_demo, opened_demo. etrans; apply run_messaging_steps. Qed.

Lemma messages_are_from_participants_witness :
  map ms_SenderID (chat_messages talked_demo) = ["ann"; "bob"; "ann"] /\
  map (fun r => (pt_user_id r, pt_role r)) (participants talked_demo) = [("ann", "owner"); ("bob", "member")] /\
  Forall2 announces (chat_messages talked_demo) (messaging_outbox talked_demo).
Proof.
  split; [vm_compute; reflexivity|]. split; [vm_compute; reflexivity|].
  exact (proj1 (proj2 (messages_are_from_participants talked_demo talked_reachable))).
Defined.

Lemma paging_reads_everything_witness :
  map ms_Body (pages demo_conversation 2 (chat_messages talked_demo) 4 None) = [None; Some "hello"; Some "hi"] /\
  pages demo_conversation 2 (chat_messages talked_demo) 4 None = whole_history demo_conversation (chat_messages talked_demo).
Proof.
  split; [vm_compute; reflexivity|].
  exact (proj1 (paging_reads_everything demo_conversation 2 talked_demo 4 talked_reachable
    ltac:(apply NoDup_ListNoDup, (bool_decide_unpack _); vm_compute; exact I) ltac:(lia) ltac:(vm_compute; lia))).
Defined.

Definition by_user (u : string) : request := Request (fun _ => u) (fun _ => demo_conversation) (fun _ => "") 0 None None.

Lemma conversations_are_private_witness :
  match fst (serve ListM (by_user "bob") quiet_env (rest talked_demo 60)) with Ok a => status a = 200 | Err _ => False end /\
  (let a := serve ListM (by_user "eve") quiet_env (rest talked_demo 60) in refused talked_demo (fst a) (snd a)).
Proof.
  split; [vm_compute; reflexivity|].
  exact (proj1 (conversations_are_private ListM (by_user "eve") quiet_env talked_demo 60) eq_refl ltac:(vm_compute; discriminate)).
Defined.

(** When two messages have one instant, a page that ends between them hides the
    other from whoever asks for what is before it. *)
Example paging_skips_simultaneous :
  let m id t := mkChatMessage id "c" "ann" None "text" t None None in
  let l := [m "1" 1000; m "2" 2000; m "3" 2000] in
  map ms_ID (whole_history "c" l) = ["3"; "2"; "1"] /\ map ms_ID (pages "c" 1 l 4 None) = ["3"; "1"].
Proof. split; vm_compute; reflexivity. Qed.

(** Anybody attaches files to any message, in a conversation or not. *)
Example anybody_attaches :
  let r := Request (fun _ => "eve") (fun _ => "m1") (fun _ => "") 0
    (Some (JObj [("s3_key", JStr "k"); ("filename", JStr "f"); ("size_bytes", JInt 1); ("content_type", JStr "t")])) None in
  map at_message_id (attachments (committed (snd (serve AttachM r quiet_env (rest talked_demo 60))))) = ["m1"].
Proof. vm_compute. reflexivity. Qed.

(** A participant may post what only the platform should: a system message. *)
Example anybody_speaks_for_the_system :
  map ms_Kind (chat_messages (run_messaging [(MsPost demo_conversation "bob" (Some "Payment released") "system", 10%nat)] opened_demo))
  = ["system"].
Proof. vm_compute. reflexivity. Qed.
