(* ===== verification/FraudStore.v ===== *)
(** * Fraud (services/fraud: internal/store, internal/service)

    Signals, the weighted score of a subject and the cases it opens (migration
    000010).  NUMERIC(4,3) columns are thousandths; what pgx and PostgreSQL store
    of a float64 is a parameter, and reading one back gives the nearest float64. *)
From S2P Require Export Outbox Gateway.

(** ** NUMERIC(4,3) *)

(** The thousandths a NUMERIC(4,3) column keeps of a float64; None is out of
    range. *)
Class Numeric43 := numeric43 : spec_float -> option Z.

(** What PostgreSQL documents of it on the unit interval: it rounds into it. *)
Definition unit_rounds `{Numeric43} : Prop :=
  forall x, fle f0 x = true -> fle x (float64 1) = true -> exists z, numeric43 x = Some z /\ 0 <= z <= 1000.

(** Scanned into a float64. *)
Definition of_numeric (z : Z) : spec_float := literal z 1000.

(** ** Row types *)

Record FraudSignal := mkFraudSignal {
  fs_ID : Z;
  fs_SubjectTyp : string;
  fs_SubjectID : string;
  fs_Signal : string;
  fs_Weight : Z;
  fs_Details : json;
  fs_ObservedAt : Z
}.

Record RiskScore := mkRiskScore {
  ri_SubjectTyp : string;
  ri_SubjectID : string;
  ri_Score : Z;
  ri_Band : string;
  ri_Features : json;
  ri_ModelVersion : option string;
  ri_ComputedAt : Z
}.

Record Case := mkCase {
  ca_ID : string;
  ca_SubjectTyp : string;
  ca_SubjectID : string;
  ca_RiskScore : Z;
  ca_Status : string;
  ca_ReasonCodes : list string;
  ca_AssignedTo : option string;
  ca_Resolution : option string;
  ca_CreatedAt : Z;
  ca_UpdatedAt : Z;
  ca_ResolvedAt : option Z
}.

Record fraud_db := mkFraudDb {
  signals : list FraudSignal;
  risk_scores : list RiskScore;
  cases : list Case;
  fraud_outbox : list OutboxRow
}.

Definition signals_t : table fraud_db FraudSignal :=
  Table signals (fun l d => mkFraudDb l (risk_scores d) (cases d) (fraud_outbox d)).
Definition risk_scores_t : table fraud_db RiskScore :=
  Table risk_scores (fun l d => mkFraudDb (signals d) l (cases d) (fraud_outbox d)).
Definition cases_t : table fraud_db Case :=
  Table cases (fun l d => mkFraudDb (signals d) (risk_scores d) l (fraud_outbox d)).
#[export] Instance fraud_HasOutbox : HasOutbox fraud_db :=
  Table fraud_outbox (fun l d => mkFraudDb (signals d) (risk_scores d) (cases d) l).

#[export] Instance fraud_Deferred : Deferred fraud_db := fun _ _ => true.

Inductive fraud_err := ErrInvalidSubject | ErrInvalidResolution | ErrNotFound.

Abbreviation fprog := (prog fraud_db fraud_err).

(** ** Store *)

Section Store.
Context `{Numeric43}.

(** An INSERT or UPDATE with a NUMERIC(4,3) value. *)
Definition with_numeric {A} (x : spec_float) (k : Z -> sql fraud_db A) : sql fraud_db A :=
  match numeric43 x with Some z => k z | None => fun _ _ => Reject NumericOutOfRange end.

Definition details_json (details : option (list (string * json))) : json := marshal (Some (default [] details)).

Definition InsertSignal (subjectType subjectID signal : string) (weight : spec_float)
  (details : option (list (string * json))) : fprog Z :=
  r <- exec (with_numeric weight (fun w s d =>
         insert_row signals_t (fun _ _ => None)
           (fun s => mkFraudSignal (next_id fs_ID (signals d)) subjectType subjectID signal w (details_json details)
                       (to_timestamptz (now s))) s d)) ;;
  ret (fs_ID r).

Definition subject : Type := string * string.
Definition signal_subject (r : FraudSignal) : subject := (fs_SubjectTyp r, fs_SubjectID r).
Definition risk_subject (r : RiskScore) : subject := (ri_SubjectTyp r, ri_SubjectID r).
Definition case_subject (r : Case) : subject := (ca_SubjectTyp r, ca_SubjectID r).

Definition about {R} (key : R -> subject) (k : subject) (r : R) : bool := bool_decide (key r = k).

(** ORDER BY observed_at DESC, id DESC *)
Definition latest_first (x y : FraudSignal) : bool :=
  (fs_ObservedAt y <? fs_ObservedAt x) || ((fs_ObservedAt x =? fs_ObservedAt y) && (fs_ID y <=? fs_ID x)).

Definition recent (n : Z) (k : subject) (l : list FraudSignal) : list FraudSignal :=
  firstn (Z.to_nat n) (ordered_by latest_first (select_rows (about signal_subject k) l)).

Definition clamped (score : spec_float) : spec_float :=
  let score := if flt (float64 1) score then float64 1 else score in
  if flt score f0 then f0 else score.

(** The loop over the rows: the sum of the weights and the distinct signals. *)
Definition add_signal (a : spec_float * list string) (r : FraudSignal) : spec_float * list string :=
  (fadd (fst a) (of_numeric (fs_Weight r)),
   if existsb (String.eqb (fs_Signal r)) (snd a) then snd a else snd a ++ [fs_Signal r]).

Definition signal_sum (l : list FraudSignal) : spec_float * list string :=
  let a := fold_left add_signal l (f0, []) in (clamped (fst a), snd a).

Definition RecentSignalSum (k : subject) (n : Z) : fprog (spec_float * list string) :=
  exec (fun _ d => Done (signal_sum (recent n k (signals d))) d).

Definition rescored (new r : RiskScore) : RiskScore :=
  mkRiskScore (ri_SubjectTyp r) (ri_SubjectID r) (ri_Score new) (ri_Band new) (ri_Features new) (ri_ModelVersion new)
    (ri_ComputedAt new).

Definition UpsertRiskScore (k : subject) (score : spec_float) (band : string) (features : json) (modelVersion : string)
  : fprog unit :=
  exec (with_numeric score (fun z s d =>
    let new := mkRiskScore (fst k) (snd k) z band features (Some modelVersion) (to_timestamptz (now s)) in
    upsert risk_scores_t risk_subject (fun _ => None) new (rescored new) s d)).

Definition store_GetRiskScore (k : subject) : fprog RiskScore :=
  o <- exec_pool (select_one risk_scores_t (about risk_subject k)) ;;
  match o with None => fail ErrNotFound | Some r => ret r end.

Definition unresolved (status : string) : bool := String.eqb status "open" || String.eqb status "investigating".

Definition open_case (k : subject) (r : Case) : bool := about case_subject k r && unresolved (ca_Status r).

Definition HasOpenCase (k : subject) : fprog bool :=
  exec (fun _ d => Done (existsb (open_case k) (cases d)) d).

Definition InsertCase (k : subject) (riskScore : spec_float) (reasonCodes : list string) : fprog string :=
  r <- exec (with_numeric riskScore (fun z =>
         insert_row cases_t (unique_index "fraud_cases_pkey" (fun x y => String.eqb (ca_ID x) (ca_ID y)))
           (fun s => mkCase (fresh s) (fst k) (snd k) z "open" reasonCodes None None (to_timestamptz (now s))
                       (to_timestamptz (now s)) None))) ;;
  ret (ca_ID r).

Definition resolved (status resolution : string) (assignedTo : option string) (t : Z) (r : Case) : Case :=
  mkCase (ca_ID r) (ca_SubjectTyp r) (ca_SubjectID r) (ca_RiskScore r) status (ca_ReasonCodes r)
    (match assignedTo with Some a => Some a | None => ca_AssignedTo r end) (Some resolution) (ca_CreatedAt r)
    (to_timestamptz t) (Some (to_timestamptz t)).

Definition store_ResolveCase (caseID resolution status : string) (assignedTo : option string) : fprog Case :=
  l <- exec (update_rows cases_t (has_key ca_ID caseID) (fun s => resolved status resolution assignedTo (now s)) (fun _ => None)) ;;
  match l with [] => fail ErrNotFound | c :: _ => ret c end.

Definition store_GetCase (id : string) : fprog Case :=
  o <- exec_pool (select_one cases_t (has_key ca_ID id)) ;;
  match o with None => fail ErrNotFound | Some c => ret c end.

Definition positive_or_50 (limit : Z) : Z := if limit <=? 0 then 50 else limit.

Definition ListSignalsForSubject (k : subject) (limit : Z) : fprog (list FraudSignal) :=
  exec_pool (fun _ d => Done (recent (positive_or_50 limit) k (signals d)) d).

(** ORDER BY risk_score DESC, created_at DESC *)
Definition riskiest_first (x y : Case) : bool :=
  (ca_RiskScore y <? ca_RiskScore x) || ((ca_RiskScore x =? ca_RiskScore y) && (ca_CreatedAt y <=? ca_CreatedAt x)).

Definition store_ListOpenCases (limit : Z) : fprog (list Case) :=
  exec_pool (fun _ d => Done (firstn (Z.to_nat (positive_or_50 limit))
    (ordered_by riskiest_first (select_rows (fun r => unresolved (ca_Status r)) (cases d)))) d).

(** ** Service *)

Definition modelVersion : string := "weighted-sum-v1".
Definition recentSignalCount : Z := 20.
Definition caseThreshold : spec_float := Eval vm_compute in literal 85 100.
Definition low_end : spec_float := Eval vm_compute in literal 3 10.
Definition medium_end : spec_float := Eval vm_compute in literal 6 10.

Definition band (score : spec_float) : string :=
  if flt score low_end then "low" else
  if flt score medium_end then "medium" else
  if flt score caseThreshold then "high" else "critical".

Record IngestResult := mkIngestResult {
  ir_SignalID : Z;
  ir_Score : spec_float;
  ir_Band : string;
  ir_CaseID : option string;
  ir_CaseCodes : list string
}.

Definition opened_event (caseID : string) (k : subject) (riskScore : spec_float) (reasonCodes : list string) : Event :=
  mkEvent "fraud_case" caseID "fraud.case_opened" "fraud.events" (snd k)
    (JObj [("case_id", JStr caseID); ("subject_type", JStr (fst k)); ("subject_id", JStr (snd k));
           ("risk_score", JFloat riskScore); ("reason_codes", JList (map JStr reasonCodes))]) None.

Definition flagged_event (k : subject) (riskScore : spec_float) (reasonCodes : list string) : Event :=
  mkEvent "screenshot" (snd k) "screenshot.flagged" "screenshot.events" (snd k)
    (JObj [("screenshot_id", JStr (snd k)); ("risk_score", JFloat riskScore);
           ("reason_codes", JList (map JStr reasonCodes))]) None.

Definition openCaseTx (k : subject) (riskScore : spec_float) (reasonCodes : list string) : fprog string :=
  caseID <- InsertCase k riskScore reasonCodes ;;
  Enqueue (opened_event caseID k riskScore reasonCodes) ;;;
  (if String.eqb (fst k) "screenshot" then Enqueue (flagged_event k riskScore reasonCodes) else ret tt) ;;;
  ret caseID.

Definition features_json (codes : list string) : json :=
  JObj [("contributing_signals", JList (map JStr codes)); ("signal_count", JInt (Z.of_nat (length codes)))].

Definition IngestSignal (k : subject) (signal : string) (weight : spec_float) (details : option (list (string * json)))
  : fprog IngestResult :=
  if String.eqb (fst k) "" || String.eqb (snd k) "" then fail ErrInvalidSubject else
  in_tx (
    signalID <- InsertSignal (fst k) (snd k) signal weight details ;;
    sum <- RecentSignalSum k recentSignalCount ;;
    let score := fst sum in
    let codes := snd sum in
    UpsertRiskScore k score (band score) (features_json codes) modelVersion ;;;
    opened <- (if fle caseThreshold score then
                 isopen <- HasOpenCase k ;;
                 if isopen : bool then ret None else
                 caseID <- openCaseTx k score codes ;;
                 ret (Some caseID)
               else ret None) ;;
    commit ;;;
    ret (mkIngestResult signalID score (band score) opened
           (match opened with Some _ => codes | None => [] end))).

Definition OpenCase (k : subject) (riskScore : spec_float) (reasonCodes : list string) : fprog string :=
  if String.eqb (fst k) "" || String.eqb (snd k) "" then fail ErrInvalidSubject else
  in_tx (
    caseID <- openCaseTx k riskScore reasonCodes ;;
    commit ;;;
    ret caseID).

Definition resolved_event (c : Case) : Event :=
  mkEvent "fraud_case" (ca_ID c) "fraud.case_resolved" "fraud.events" (ca_SubjectID c)
    (JObj [("case_id", JStr (ca_ID c)); ("subject_type", JStr (ca_SubjectTyp c)); ("subject_id", JStr (ca_SubjectID c));
           ("status", JStr (ca_Status c)); ("resolution", jopt JStr (ca_Resolution c))]) None.

Definition ResolveCase (caseID resolution status : string) (assignedTo : option string) : fprog Case :=
  if negb (String.eqb status "confirmed") && negb (String.eqb status "dismissed") then fail ErrInvalidResolution else
  in_tx (
    c <- store_ResolveCase caseID resolution status assignedTo ;;
    Enqueue (resolved_event c) ;;;
    commit ;;;
    ret c).

Definition ListOpenCases (limit : Z) : fprog (list Case) := store_ListOpenCases limit.

Definition GetCase (id : string) : fprog (Case * list FraudSignal) :=
  c <- store_GetCase id ;;
  l <- ListSignalsForSubject (case_subject c) 50 ;;
  ret (c, l).

Definition GetRiskScore (k : subject) : fprog RiskScore := store_GetRiskScore k.
End Store.
