(* ===== verification/FraudProofs.v ===== *)
(** * Properties of fraud, and its REST transport (services/fraud/internal/httpapi) *)
From stdpp Require Import relations.
From S2P Require Export FraudStore.

(** ** Scores are numbers from 0 to 1 *)

Definition in_unit (x : spec_float) : bool := fle f0 x && fle x (float64 1).

Lemma fle_flip x y : x <> S754_nan -> y <> S754_nan -> flt y x = false -> fle x y = true.
Proof.
  intros Hx Hy. unfold flt, fle, SFltb, SFleb, SFcompare.
  destruct x as [[]|[]| |[] m e], y as [[]|[]| |[] m' e']; try done.
  - rewrite (Z.compare_antisym e e'). destruct (e ?= e'); cbn; try done. fold (Pos.compare m m') (Pos.compare m' m).
    rewrite (Pos.compare_antisym m m'). by destruct (m ?= m')%positive.
  - rewrite (Z.compare_antisym e e'). destruct (e ?= e'); cbn; try done. fold (Pos.compare m m') (Pos.compare m' m).
    rewrite (Pos.compare_antisym m m'). by destruct (m ?= m')%positive.
Qed.

Lemma upto_not_nan n x : upto n x -> x <> S754_nan.
Proof. by destruct x. Qed.

Lemma clamped_in_unit n x : upto n x -> in_unit (clamped x) = true.
Proof.
  intros Hx. unfold clamped. destruct (flt (float64 1) x) eqn:L1; [vm_compute; done|].
  assert (fle f0 x = true) as H0 by (destruct x as [[]| | |[] m e]; done).
  destruct (flt x f0) eqn:L0; [vm_compute; done|]. unfold in_unit. rewrite H0. cbn [andb].
  apply fle_flip; [by eapply upto_not_nan|done|done].
Qed.

Lemma of_numeric_upto z : 0 <= z <= 1000 -> upto 1 (of_numeric z).
Proof.
  intros Hz. unfold of_numeric, literal. apply (fdiv_upto 1000 1000); try lia.
  - apply (upto_weaken z); [lia|]. apply float64_upto. lia.
  - assert (float64 1000 = S754_finite false 8796093022208000 (-43)) as -> by reflexivity. cbn [atleast]. intros k H0 Hk.
    replace (Z.pos 8796093022208000) with (1000 * 2 ^ 43) by reflexivity. rewrite <- Z.mul_assoc, <- Z.pow_add_r by lia.
    apply Z.eq_le_incl. f_equal. f_equal. lia.
Qed.

Definition small (r : FraudSignal) : Prop := 0 <= fs_Weight r <= 1000.

Lemma sum_upto l : Forall small l -> forall a n, upto n (fst a) -> n + Z.of_nat (length l) < 2 ^ 53 ->
  upto (n + Z.of_nat (length l)) (fst (fold_left add_signal l a)).
Proof.
  induction 1 as [|r l Hr _ IH]; cbn [length fold_left]; intros a n Ha HL; [by rewrite Z.add_0_r|].
  replace (n + Z.of_nat (S (length l))) with (n + 1 + Z.of_nat (length l)) by lia.
  apply IH; [|lia]. cbn [add_signal fst]. apply fadd_upto; [done|by apply of_numeric_upto|lia].
Qed.

Lemma recent_In n k l r : In r (recent n k l) -> In r l /\ signal_subject r = k.
Proof.
  intros Hr%(List.In_nth_error). destruct Hr as [i Hi]. assert (In r (ordered_by latest_first (select_rows (about signal_subject k) l))) as HO.
  { apply List.nth_error_In in Hi. unfold recent in Hi. rewrite <- (firstn_skipn (Z.to_nat n)). apply in_app_iff. by left. }
  apply (Permutation.Permutation_in _ (ordered_by_perm _ _)) in HO. apply List.filter_In in HO as [? ?%bool_decide_eq_true]. done.
Qed.

(** The score of a subject. *)
Definition score_of (k : subject) (l : list FraudSignal) : spec_float * list string :=
  signal_sum (recent recentSignalCount k l).

Lemma score_in_unit k l : Forall small l -> in_unit (fst (score_of k l)) = true.
Proof.
  intros Hl. apply (clamped_in_unit (0 + Z.of_nat (length (recent recentSignalCount k l)))). apply sum_upto.
  - apply List.Forall_forall. intros r [Hr _]%recent_In. rewrite List.Forall_forall in Hl. by apply Hl.
  - cbn. lia.
  - assert (length (recent recentSignalCount k l) <= 20)%nat; [|lia].
    unfold recent. etrans; [apply firstn_le_length|]. done.
Qed.

(** A float that is at least one is not below a smaller one. *)
Lemma fle_not_below a e b e' x : (e' < e \/ e' = e /\ Pos.le b a) ->
  fle (S754_finite false a e) x = true -> flt x (S754_finite false b e') = false.
Proof.
  unfold fle, flt, SFleb, SFltb, SFcompare. destruct x as [[]|[]| |[] m f]; try done. intros Hab.
  destruct (Z.compare_spec e f) as [<-|L|L]; [| |done].
  - intros HC. assert (Pos.le a m) as Ham by (intros E; fold (Pos.compare a m) in HC; by rewrite E in HC).
    destruct Hab as [L|[-> Hba]]; [by rewrite (proj2 (Z.compare_gt_iff _ _)) by lia|]. rewrite Z.compare_refl. fold (Pos.compare m b).
    destruct (Pos.compare_spec m b); [done|lia|done].
  - intros _. by rewrite (proj2 (Z.compare_gt_iff f e')) by lia.
Qed.

Lemma above_threshold x : fle caseThreshold x = true -> band x = "critical".
Proof.
  intros HT. assert (forall b e, (e < -53 \/ e = -53 /\ Pos.le b 7656119366529843) -> flt x (S754_finite false b e) = false) as Hb
    by (intros b e Hbe; by eapply fle_not_below). unfold band, low_end, medium_end, caseThreshold. by rewrite !Hb by lia.
Qed.

Lemma critical_above x : x <> S754_nan -> band x = "critical" -> fle caseThreshold x = true.
Proof.
  unfold band. intros HN. destruct (flt x low_end), (flt x medium_end), (flt x caseThreshold) eqn:L; try done.
  intros _. by apply fle_flip.
Qed.

(** ** What the operations do to the tables *)

(** A case opened at an instant, its events announced. *)
Definition opens_case (id : string) (k : subject) (z : Z) (score : spec_float) (codes : list string) (t : Z) (d : fraud_db)
  : fraud_db :=
  let c := mkCase id (fst k) (snd k) z "open" codes None None (to_timestamptz t) (to_timestamptz t) None in
  let o := enqueued t (opened_event id k score codes) (fraud_outbox d) in
  put fraud_HasOutbox (if String.eqb (fst k) "screenshot" then enqueued t (flagged_event k score codes) o else o)
    (put cases_t (cases d ++ [c]) d).

Definition new_case (id : string) (k : subject) (d d' : fraud_db) : Prop :=
  ~ In id (map ca_ID (cases d)) /\ exists z score codes t, d' = opens_case id k z score codes t d.

(** A signal and the score recomputed with it. *)
Definition observed (sig : FraudSignal) (z t : Z) (d : fraud_db) : fraud_db :=
  let l := signals d ++ [sig] in
  let k := signal_subject sig in
  let sum := score_of k l in
  let new := mkRiskScore (fst k) (snd k) z (band (fst sum)) (features_json (snd sum)) (Some modelVersion) (to_timestamptz t) in
  put risk_scores_t (upserted risk_subject new (rescored new) (risk_scores d)) (put signals_t l d).

Section Outcomes.
Context `{Numeric43}.
Implicit Types (ev : env) (d : fraud_db).

Definition ingested (k : subject) (weight : spec_float) (r : IngestResult) (d d' : fraud_db) : Prop :=
  exists sig z t, numeric43 weight = Some (fs_Weight sig) /\ signal_subject sig = k /\
    let sum := score_of k (signals d ++ [sig]) in
    numeric43 (fst sum) = Some z /\ ir_Score r = fst sum /\ ir_Band r = band (fst sum) /\
    match ir_CaseID r with
    | None => (fle caseThreshold (fst sum) = true -> existsb (open_case k) (cases d) = true) /\ d' = observed sig z t d
    | Some id => fle caseThreshold (fst sum) = true /\ existsb (open_case k) (cases d) = false /\ new_case id k (observed sig z t d) d'
    end.

Lemma wp_numeric {A} x (f : Z -> sql fraud_db A) ev c t v n (Q : res fraud_err A -> world fraud_db -> Prop) :
  (forall e w, committed w = c -> Q (Err (Db e)) w) ->
  (forall z, numeric43 x = Some z -> wp (exec (f z)) ev (World c (Live t v) n) Q) ->
  wp (exec (with_numeric x f)) ev (World c (Live t v) n) Q.
Proof.
  intros Hf Hs. unfold with_numeric. destruct (numeric43 x) as [z|]; [by apply Hs|]. apply wp_exec; [intros _|]; by apply Hf.
Qed.

Lemma wp_openCaseTx k score codes ev d t v n (Q : res fraud_err string -> world fraud_db -> Prop) :
  (forall e w, committed w = d -> Q (Err e) w) ->
  (forall id d' m, new_case id k v d' -> Q (Ok id) (World d (Live t d') m)) ->
  wp (openCaseTx k score codes) ev (World d (Live t v) n) Q.
Proof.
  intros Hf Hs. unfold openCaseTx, InsertCase. apply wp_bind, wp_bind, wp_numeric; [by auto|]. intros z Hz.
  apply (wp_insert cases_t); [by auto|by auto|]. cbn [rows cases_t]. set (c := mkCase _ _ _ _ _ _ _ _ _ _ _). intros Hn%(pk_None _ ca_ID).
  apply wp_ret, wp_bind, wp_Enqueue; [by auto|]. apply wp_bind. destruct (String.eqb (fst k) "screenshot") eqn:SS.
  - apply wp_Enqueue; [by auto|]. apply wp_ret. apply Hs. split; [done|]. exists z, score, codes, t. unfold opens_case. by rewrite SS.
  - apply wp_ret, wp_ret. apply Hs. split; [done|]. exists z, score, codes, t. unfold opens_case. by rewrite SS.
Qed.

Lemma IngestSignal_changes k signal weight details ev d n :
  wp (IngestSignal k signal weight details) ev (rest d n)
    (ended (changes d (fun r d' => fst k <> "" /\ snd k <> "" /\ ingested k weight r d d'))).
Proof.
  unfold IngestSignal, rest. destruct (String.eqb_spec (fst k) "") as [|N1]; [apply ended_same|].
  destruct (String.eqb_spec (snd k) "") as [|N2]; [apply ended_same|]. cbn [orb]. apply wp_in_changes.
  unfold InsertSignal. apply wp_bind, wp_bind, wp_numeric; [by auto with tables|]. intros w Hw.
  apply (wp_insert_in signals_t (fun _ _ _ => None) (fun d s => mkFraudSignal (next_id fs_ID (signals d)) (fst k) (snd k) signal w
    (details_json details) (to_timestamptz (now s)))); [by auto with tables|by auto with tables|]. intros _.
  set (sig := mkFraudSignal _ _ _ _ _ _ _). cbn [rows signals_t]. apply wp_ret. unfold RecentSignalSum.
  apply wp_bind, wp_exec; [by auto with tables|]. cbn [put signals_t signals]. cbv zeta.
  change (signal_sum (recent recentSignalCount k (signals d ++ [sig]))) with (score_of k (signals d ++ [sig])).
  unfold UpsertRiskScore. apply wp_bind, wp_numeric; [by auto with tables|]. intros z Hz. cbv zeta.
  set (new := fun s => mkRiskScore (fst k) (snd k) z (band (fst (score_of k (signals d ++ [sig]))))
    (features_json (snd (score_of k (signals d ++ [sig])))) (Some modelVersion) (to_timestamptz (now s))).
  apply (wp_upsert_free risk_scores_t risk_subject new (fun s => rescored (new s))); [by auto with tables|].
  assert (signal_subject sig = k) as Hk by by destruct k.
  assert (forall m r', ir_CaseID r' = None -> ir_Score r' = fst (score_of k (signals d ++ [sig])) ->
    ir_Band r' = band (fst (score_of k (signals d ++ [sig]))) ->
    (fle caseThreshold (fst (score_of k (signals d ++ [sig]))) = true -> existsb (open_case k) (cases d) = true) ->
    wp (E := fraud_err) (commit ;;; ret r') ev (World d (Live (clock ev n) (observed sig z (clock ev n) d)) m)
      (closing (changes d (fun r d' => fst k <> "" /\ snd k <> "" /\ ingested k weight r d d')))) as Hplain.
  { intros m r' E1 E2 E3 Hc. apply wp_commit_answer. do 2 (split; [done|]). exists sig, z, (clock ev n). cbv zeta. by rewrite E1. }
  intros s. match goal with |- wp _ _ (World _ (Live _ ?v) _) _ =>
    assert (v = observed sig z (clock ev n) d) as -> by (unfold observed; cbv zeta; rewrite Hk; reflexivity) end.
  apply wp_bind. destruct (fle caseThreshold _) eqn:TH; [|by apply wp_ret, Hplain]. unfold HasOpenCase.
  apply wp_bind, wp_exec; [by auto with tables|]. change (cases (observed sig z (clock ev n) d)) with (cases d).
  destruct (existsb (open_case k) (cases d)) eqn:OC; [by apply wp_ret, Hplain|].
  apply wp_bind, wp_openCaseTx; [by auto with tables|]. intros id d' m Hnew. apply wp_ret, wp_commit_answer.
  do 2 (split; [done|]). exists sig, z, (clock ev n). cbv zeta. by cbn [ir_CaseID ir_Score ir_Band].
Qed.

Lemma OpenCase_changes k score codes ev d n :
  wp (OpenCase k score codes) ev (rest d n) (ended (changes d (fun id => new_case id k d))).
Proof.
  unfold OpenCase, rest. destruct (_ || _); [apply ended_same|]. apply wp_in_changes.
  apply wp_bind, wp_openCaseTx; [by auto with tables|]. intros id d' m Hn. by apply wp_commit_answer.
Qed.

Definition settled (id status : string) (c : Case) (d d' : fraud_db) : Prop :=
  unresolved status = false /\ exists resolution who t,
    select_rows (has_key ca_ID id) (update_where (has_key ca_ID id) (resolved status resolution who t) (cases d)) <> [] /\
    d' = put fraud_HasOutbox (enqueued t (resolved_event c) (fraud_outbox d))
           (put cases_t (update_where (has_key ca_ID id) (resolved status resolution who t) (cases d)) d).

Lemma ResolveCase_changes caseID resolution status who ev d n :
  wp (ResolveCase caseID resolution status who) ev (rest d n) (ended (changes d (fun c => settled caseID status c d))).
Proof.
  unfold ResolveCase, rest. destruct (negb _ && negb _) eqn:V; [apply ended_same|].
  assert (unresolved status = false) as HU.
  { unfold unresolved. destruct (String.eqb_spec status "open") as [->|]; [done|].
    destruct (String.eqb_spec status "investigating") as [->|]; done. }
  apply wp_in_changes. unfold store_ResolveCase. apply wp_bind, wp_bind, (wp_update_free cases_t); [by auto with tables|].
  cbn [rows cases_t]. destruct (select_rows _ _) as [|c l] eqn:SR; [by apply wp_throw, closing_same|].
  apply wp_ret, wp_bind, wp_Enqueue; [by auto with tables|]. apply wp_commit_answer. split; [done|].
  exists resolution, who, (clock ev n). split; [|done].
  assert (In c (select_rows (has_key ca_ID caseID) (cases d))) as [Hc Hk]%List.filter_In by (rewrite SR; by left).
  assert (In (resolved status resolution who (clock ev n) c)
    (select_rows (has_key ca_ID caseID) (update_where (has_key ca_ID caseID) (resolved status resolution who (clock ev n)) (cases d)))) as HIn.
  { apply List.filter_In. split; [|exact Hk]. apply in_map_iff. exists c. by rewrite Hk. }
  intros E. by rewrite E in HIn.
Qed.
End Outcomes.

(** ** Calls and reachable tables *)

Inductive fraud_op :=
| FrIngest (k : subject) (signal : string) (weight : spec_float) (details : option (list (string * json)))
| FrOpen (k : subject) (riskScore : spec_float) (reasonCodes : list string)
| FrResolve (caseID resolution status : string) (assignedTo : option string).

(** The cases of an outbox. *)
Definition opens (id : string) (r : OutboxRow) : bool :=
  String.eqb (event_type r) "fraud.case_opened" && String.eqb (aggregate_id r) id.

Definition flags (id : string) (r : OutboxRow) : bool :=
  String.eqb (event_type r) "screenshot.flagged" && String.eqb (aggregate_id r) id.

(** A row holds the score of its subject's signals. *)
Definition scores_row `{Numeric43} (l : list FraudSignal) (r : RiskScore) : Prop :=
  let s := score_of (risk_subject r) l in
  numeric43 (fst s) = Some (ri_Score r) /\ ri_Band r = band (fst s) /\ ri_Features r = features_json (snd s).

Section Reachable.
Context `{Numeric43} (Hunit : unit_rounds) (manual : subject -> Prop).

Definition fraud_run (o : fraud_op) : fprog unit :=
  match o with
  | FrIngest k s w details => IngestSignal k s w details ;;; ret tt
  | FrOpen k z codes => OpenCase k z codes ;;; ret tt
  | FrResolve id resolution status who => ResolveCase id resolution status who ;;; ret tt
  end.

Definition fraud_after (o : fraud_op) (ev : env) (d : fraud_db) (n : nat) : fraud_db :=
  committed (snd (fraud_run o ev (rest d n))).

(** Weights are from 0 to 1, as the route sees to; [manual] are the subjects
    whose cases are also opened by hand. *)
Definition admissible (o : fraud_op) : Prop :=
  match o with FrIngest _ _ w _ => in_unit w = true | FrOpen k _ _ => manual k | FrResolve _ _ _ _ => True end.

Definition fraud_change (o : fraud_op) (d d' : fraud_db) : Prop :=
  match o with
  | FrIngest k _ w _ => exists r, ingested k w r d d'
  | FrOpen k _ _ => exists id, new_case id k d d'
  | FrResolve id _ status _ => exists c, settled id status c d d'
  end.

Lemma fraud_op_changes o ev d n : fraud_after o ev d n = d \/ fraud_change o d (fraud_after o ev d n).
Proof.
  unfold fraud_after. destruct o as [k s w details|k z codes|id resolution status who]; cbn [fraud_run fraud_change]; rewrite dropped_answer.
  - destruct (ended_changed _ _ _ _ _ (IngestSignal_changes k s w details ev d n)) as [?|(r & _ & _ & Hr)]; eauto.
  - exact (ended_changed _ _ _ _ _ (OpenCase_changes k z codes ev d n)).
  - exact (ended_changed _ _ _ _ _ (ResolveCase_changes id resolution status who ev d n)).
Qed.

Inductive fraud_step (d : fraud_db) : fraud_db -> Prop :=
| fst_call o ev n : admissible o -> fraud_step d (fraud_after o ev d n).

Definition no_fraud : fraud_db := mkFraudDb [] [] [] [].

Definition fraud_reachable (d : fraud_db) : Prop := rtc fraud_step no_fraud d.

Record fraud_inv (d : fraud_db) : Prop := {
  fi_small : Forall small (signals d);
  fi_scores : Forall (scores_row (signals d)) (risk_scores d);
  fi_covered : forall s, In s (signals d) -> In (signal_subject s) (map risk_subject (risk_scores d));
  fi_keys : List.NoDup (map risk_subject (risk_scores d));
  fi_cases : keyed ca_ID (cases d);
  fi_open : forall k, ~ manual k -> countZ (open_case k) (cases d) <= 1;
  fi_opened : forall id, countZ (opens id) (fraud_outbox d) = countZ (has_key ca_ID id) (cases d);
  fi_flagged : forall id, countZ (flags id) (fraud_outbox d) = countZ (about case_subject ("screenshot", id)) (cases d)
}.

Lemma fraud_inv_start : fraud_inv no_fraud.
Proof. constructor; cbn; try constructor; try done; lia. Qed.

Lemma score_of_other k l sig : signal_subject sig <> k -> score_of k (l ++ [sig]) = score_of k l.
Proof.
  intros NE. unfold score_of, recent, select_rows. rewrite List.filter_app. cbn. unfold about at 2.
  rewrite bool_decide_eq_false_2 by done. by rewrite app_nil_r.
Qed.

Lemma fraud_inv_observed w sig z t d : in_unit w = true -> numeric43 w = Some (fs_Weight sig) ->
  numeric43 (fst (score_of (signal_subject sig) (signals d ++ [sig]))) = Some z -> fraud_inv d -> fraud_inv (observed sig z t d).
Proof.
  intros [W0 W1]%andb_true_iff Hw Hz [I1 I2 I3 I4 I5 I6 I7 I8].
  destruct (Hunit w W0 W1) as (zw & Ew & Hzw). rewrite Hw in Ew. injection Ew as Ew.
  unfold observed. cbv zeta. set (new := mkRiskScore _ _ _ _ _ _ _).
  assert (risk_subject new = signal_subject sig) as EK by done.
  assert (scores_row (signals d ++ [sig]) new) as Hnew by (unfold scores_row; cbv zeta; rewrite EK; by repeat split).
  constructor; cbn [put risk_scores_t signals_t signals risk_scores cases fraud_outbox]; try done.
  - apply Forall_app. split; [done|]. repeat constructor; lia.
  - apply List.Forall_forall. intros r [[Hr NE]|[(o & Ho & E & ->)| ->]]%upserted_In; [| |done].
    + rewrite List.Forall_forall in I2. specialize (I2 r Hr). unfold scores_row in *. rewrite score_of_other; [done|congruence].
    + assert (risk_subject (rescored new o) = risk_subject new) as ER by (rewrite <- E; by destruct o).
      unfold scores_row in *. by rewrite ER.
  - intros s Hs. apply upserted_keys; [by intros []|]. apply in_app_iff in Hs as [Hs|[<-|[]]]; [right; by apply I3|by left].
  - apply upserted_NoDup; [by intros []|done].
Qed.

Lemma countZ_opened id k score codes t p l :
  countZ p (enqueued t (opened_event id k score codes) l) =
  countZ p l + (if p (mkOutbox (next_id o_id l) "fraud_case" id "fraud.case_opened" "fraud.events" (snd k)
                       (Payload (opened_event id k score codes)) None t None) then 1 else 0).
Proof. apply countZ_snoc. Qed.

Lemma fraud_inv_new_case id k d d' : new_case id k d d' -> manual k \/ existsb (open_case k) (cases d) = false ->
  fraud_inv d -> fraud_inv d'.
Proof.
  intros (Hn & z & score & codes & t & ->) HM [I1 I2 I3 I4 I5 I6 I7 I8]. unfold opens_case. cbv zeta.
  set (c := mkCase _ _ _ _ _ _ _ _ _ _ _).
  assert (case_subject c = k) as Hk by by destruct k.
  constructor; cbn [put fraud_HasOutbox cases_t signals risk_scores cases fraud_outbox]; try done.
  - by apply keyed_snoc.
  - intros k' NM. rewrite countZ_snoc. specialize (I6 k' NM). unfold open_case at 2, about. rewrite Hk.
    destruct (bool_decide_reflect (k = k')) as [<-|]; cbn [andb]; [|lia].
    destruct HM as [?|HM%countZ_none]; [done|]. rewrite HM. by destruct (unresolved _).
  - intros id'. rewrite countZ_snoc, <- I7. unfold has_key, c. cbn [ca_ID].
    destruct (String.eqb (fst k) "screenshot"); [unfold enqueued at 1; rewrite countZ_snoc; cbn [opens event_type EventType flagged_event String.eqb Ascii.eqb Bool.eqb andb]|];
      rewrite countZ_opened; unfold opens; cbn [event_type aggregate_id]; rewrite String.eqb_refl; cbn [andb]; rewrite ?Z.add_0_r; done.
  - intros id'. rewrite countZ_snoc, <- I8. unfold about. rewrite Hk. destruct (String.eqb_spec (fst k) "screenshot") as [E|NE].
    + unfold enqueued at 1. rewrite countZ_snoc, countZ_opened. unfold flags. cbn [event_type aggregate_id EventType AggregateID flagged_event].
      rewrite String.eqb_refl. cbn [andb String.eqb Ascii.eqb Bool.eqb]. rewrite Z.add_0_r. f_equal. destruct k as [ty i]. cbn in E |- *. subst ty.
      destruct (String.eqb_spec i id') as [->|]; [by rewrite bool_decide_eq_true_2|]. rewrite bool_decide_eq_false_2; [done|congruence].
    + rewrite countZ_opened. unfold flags. cbn [event_type aggregate_id String.eqb Ascii.eqb Bool.eqb andb].
      rewrite bool_decide_eq_false_2; [done|]. intros ->. done.
Qed.

Lemma fraud_inv_settled id status c d d' : settled id status c d d' -> fraud_inv d -> fraud_inv d'.
Proof.
  intros (HU & resolution & who & t & _ & ->) [I1 I2 I3 I4 I5 I6 I7 I8].
  constructor; cbn [put fraud_HasOutbox cases_t signals risk_scores cases fraud_outbox]; try done.
  - by apply keyed_update.
  - intros k NM. specialize (I6 k NM). pose proof (countZ_update_le (open_case k) (has_key ca_ID id) (resolved status resolution who t) (cases d)) as HL.
    etrans; [apply HL|done]. intros r. unfold open_case, resolved. cbn [ca_Status]. rewrite HU. apply andb_false_r.
  - intros id'. unfold enqueued. rewrite countZ_snoc. cbn. rewrite I7, Z.add_0_r. symmetry. by apply countZ_update.
  - intros id'. unfold enqueued. rewrite countZ_snoc. cbn. rewrite I8, Z.add_0_r. symmetry. by apply countZ_update.
Qed.

Lemma fraud_reachable_inv d : fraud_reachable d -> fraud_inv d.
Proof.
  intros R. unfold fraud_reachable in R. remember no_fraud as d0 eqn:E.
  assert (fraud_inv d0) as HI by (subst; apply fraud_inv_start). clear E.
  induction R as [d|d1 d2 d3 S _ IH]; [done|]. apply IH. destruct S as [o ev n HA].
  destruct (fraud_op_changes o ev d1 n) as [->|Hc]; [done|].
  destruct o as [k s w details|k z codes|id resolution status who]; cbn [fraud_change admissible] in Hc, HA.
  - destruct Hc as (r & sig & z & t & Hw & <- & Hz & _ & _ & Hcase).
    pose proof (fraud_inv_observed w sig z t d1 HA Hw Hz HI) as HO. destruct (ir_CaseID r) as [id|].
    + destruct Hcase as (_ & HE & HN). apply (fraud_inv_new_case _ _ _ _ HN); [by right|done].
    + by destruct Hcase as [_ ->].
  - destruct Hc as (id & HN). apply (fraud_inv_new_case _ _ _ _ HN); [by left|done].
  - destruct Hc as (c & HS). by apply (fraud_inv_settled _ _ _ _ _ HS).
Qed.

(** C36: Risk scores are those of the signals. In every reachable database a
    subject with a signal has exactly one score; it is the sum of the weights of
    its latest twenty signals, clamped and as NUMERIC(4,3) keeps it, from 0 to 1,
    with the band of that sum and the signals that contributed. *)
Theorem risk_scores_are_recomputed d : fraud_reachable d ->
  (forall s, In s (signals d) -> exists r, In r (risk_scores d) /\ risk_subject r = signal_subject s) /\
  List.NoDup (map risk_subject (risk_scores d)) /\
  (forall r, In r (risk_scores d) -> scores_row (signals d) r /\ 0 <= ri_Score r <= 1000).
Proof.
  intros [I1 I2 I3 I4 _ _ _ _]%fraud_reachable_inv. split; [|split; [done|]].
  - intros s Hs. destruct (proj1 (in_map_iff _ _ _) (I3 s Hs)) as (r & E & Hr). by exists r.
  - intros r Hr. rewrite List.Forall_forall in I2. pose proof (I2 r Hr) as HS. split; [exact HS|]. destruct HS as (EZ & _ & _).
    pose proof (score_in_unit (risk_subject r) _ I1) as [U0 U1]%andb_true_iff.
    destruct (Hunit _ U0 U1) as (z & Ez & Hz). rewrite EZ in Ez. by injection Ez as ->.
Qed.

(** One open case per subject, announced once. In every reachable database
    a subject for which no case is opened by hand has at most one open case; every
    case has exactly one fraud.case_opened event, and a screenshot has as many
    screenshot.flagged events as cases. *)
Theorem one_open_case_per_subject d : fraud_reachable d ->
  (forall k, ~ manual k -> countZ (open_case k) (cases d) <= 1) /\
  (forall c, In c (cases d) -> countZ (opens (ca_ID c)) (fraud_outbox d) = 1) /\
  (forall id, countZ (flags id) (fraud_outbox d) = countZ (about case_subject ("screenshot", id)) (cases d)).
Proof.
  intros [_ _ _ _ I5 I6 I7 I8]%fraud_reachable_inv. split; [done|split; [|done]]. intros c Hc. rewrite I7.
  by apply countZ_key.
Qed.

(** A critical score has an open case. When a signal is accepted and the
    score of its subject is critical, the subject has an open case afterwards; a
    case is opened exactly when the score is critical and none was open. *)
Theorem critical_scores_have_a_case k s w details ev d n r : fraud_reachable d -> in_unit w = true ->
  let a := IngestSignal k s w details ev (rest d n) in
  fst a = Ok r ->
  (ir_Band r = "critical" -> existsb (open_case k) (cases (committed (snd a))) = true) /\
  (match ir_CaseID r with
   | Some id => ir_Band r = "critical" /\ existsb (open_case k) (cases d) = false
   | None => cases (committed (snd a)) = cases d /\ (ir_Band r = "critical" -> existsb (open_case k) (cases d) = true)
   end).
Proof.
  intros HR HW a Ha. pose proof (IngestSignal_changes k s w details ev d n) as [_ HC]. fold a in HC. rewrite Ha in HC.
  destruct HC as (_ & _ & sig & z & t & Hw & Hk & Hz & ES & EB & Hcase). rewrite EB.
  assert (Forall small (signals d ++ [sig])) as HS.
  { apply Forall_app. split; [apply (fi_small _ (fraud_reachable_inv d HR))|]. constructor; [|constructor].
    apply andb_true_iff in HW as [W0 W1]. destruct (Hunit w W0 W1) as (zw & Ew & Hzw). rewrite Hw in Ew. by injection Ew as <-. }
  pose proof (score_in_unit k _ HS) as [U0 U1]%andb_true_iff.
  assert (fst (score_of k (signals d ++ [sig])) <> S754_nan) as HN by (intros E; by rewrite E in U0).
  destruct (ir_CaseID r) as [id|].
  - destruct Hcase as (TH & HE & _ & z' & score & codes & t' & ->). split; [|split; [by apply above_threshold|done]].
    intros _. apply existsb_exists. eexists. split; [apply in_app_iff; right; by left|]. unfold open_case, about. cbn.
    rewrite andb_true_r. apply bool_decide_eq_true. by destruct k.
  - destruct Hcase as [HE ->]. split; [|split; [done|]]; intros HB%critical_above; auto.
Qed.
End Reachable.

(** ** REST transport *)

Record ingestReq := mkIngestReq {
  in_SubjectType : string;
  in_SubjectID : string;
  in_Signal : string;
  in_Weight : spec_float;
  in_Details : option (list (string * json))
}.

Definition decode_ingestReq (o : list (string * json)) : option ingestReq :=
  obind (str_field "subject_type" o) (fun ty =>
  obind (str_field "subject_id" o) (fun id =>
  obind (str_field "signal" o) (fun s =>
  obind (float_field "weight" o) (fun w =>
  obind (field into_map None "details" o) (fun details => Some (mkIngestReq ty id s w details)))))).

Record resolveReq := mkResolveReq {
  rr_Status : string;
  rr_Resolution : string;
  rr_AssignedTo : option string
}.

Definition decode_resolveReq (o : list (string * json)) : option resolveReq :=
  obind (str_field "status" o) (fun st =>
  obind (str_field "resolution" o) (fun resolution =>
  obind (field (into_opt as_string) None "assigned_to" o) (fun who => Some (mkResolveReq st resolution who)))).

Definition case_fields (c : Case) : list (string * json) :=
  [("id", JStr (ca_ID c)); ("subject_type", JStr (ca_SubjectTyp c)); ("subject_id", JStr (ca_SubjectID c));
   ("risk_score", JFloat (of_numeric (ca_RiskScore c))); ("status", JStr (ca_Status c));
   ("reason_codes", JList (map JStr (ca_ReasonCodes c))); ("assigned_to", jopt JStr (ca_AssignedTo c));
   ("resolution", jopt JStr (ca_Resolution c)); ("created_at", JTime (ca_CreatedAt c));
   ("updated_at", JTime (ca_UpdatedAt c)); ("resolved_at", jopt JTime (ca_ResolvedAt c))].

Definition caseDTO (c : Case) : json := JObj (case_fields c).

Definition signalDTO (s : FraudSignal) : json :=
  JObj [("id", JInt (fs_ID s)); ("subject_type", JStr (fs_SubjectTyp s)); ("subject_id", JStr (fs_SubjectID s));
        ("signal", JStr (fs_Signal s)); ("weight", JFloat (of_numeric (fs_Weight s)));
        ("details", through_any (fs_Details s)); ("observed_at", JTime (fs_ObservedAt s))].

Definition riskDTO (rs : RiskScore) : json :=
  JObj [("subject_type", JStr (ri_SubjectTyp rs)); ("subject_id", JStr (ri_SubjectID rs));
        ("score", JFloat (of_numeric (ri_Score rs))); ("band", JStr (ri_Band rs)); ("features", through_any (ri_Features rs));
        ("model_version", jopt JStr (ri_ModelVersion rs)); ("computed_at", JTime (ri_ComputedAt rs))].

Definition mapError (e : err fraud_err) : response :=
  match e with
  | Dom ErrInvalidSubject => writeErr 400 "INVALID_ARGUMENT" "fraud: subject_type and subject_id are required"
  | Dom ErrInvalidResolution => writeErr 400 "INVALID_ARGUMENT" "fraud: status must be 'confirmed' or 'dismissed'"
  | Dom ErrNotFound => writeErr 404 "NOT_FOUND" "resource not found"
  | Db _ => writeErr 500 "INTERNAL" "internal error"
  end.

Definition principal (r : request) : Principal :=
  mkPrincipal (header r "X-User-Id") (listed (header r "X-User-Roles")) (listed (header r "X-User-Permissions"))
    (header r "X-Account-Type").

Definition authorize (p : Principal) (perm : string) : step (D := fraud_db) (E := fraud_err) unit :=
  if String.eqb (UserID p) "" then reply_with (writeErr 401 "UNAUTHORIZED" "missing identity") else
  match Require_ p perm with
  | Some Forbidden => reply_with (writeErr 403 "FORBIDDEN" "not permitted")
  | None => go_on tt
  end.

Section Api.
Context `{Numeric43}.

Definition ingestSignal (r : request) : fprog response :=
  _ <-? authorize (principal r) "fraud.signal.ingest" ;;
  req <-? Http.decode decode_ingestReq r ;;
  if flt (in_Weight req) f0 || flt (float64 1) (in_Weight req)
  then ret (writeErr 400 "INVALID_ARGUMENT" "weight must be between 0 and 1") else
  a <-? or_mapped mapError (IngestSignal (in_SubjectType req, in_SubjectID req) (in_Signal req) (in_Weight req) (in_Details req)) ;;
  ret (writeJSON 201 (JObj ([("signal_id", JInt (ir_SignalID a)); ("score", JFloat (ir_Score a)); ("band", JStr (ir_Band a))] ++
    match ir_CaseID a with
    | Some id => [("case_id", JStr id); ("reason_codes", JList (map JStr (ir_CaseCodes a)))]
    | None => []
    end))).

(** The limit, when it is a positive int. *)
Definition limit_param (r : request) : Z :=
  match parse_int (query r "limit") with Some n => if 0 <? n then n else 50 | None => 50 end.

Definition listOpenCases (r : request) : fprog response :=
  _ <-? authorize (principal r) "fraud.case.read" ;;
  l <-? or_mapped mapError (ListOpenCases (limit_param r)) ;;
  ret (writeJSON 200 (JObj [("cases", JList (map caseDTO l))])).

Definition getCase (r : request) : fprog response :=
  _ <-? authorize (principal r) "fraud.case.read" ;;
  a <-? or_mapped mapError (GetCase (urlParam r "id")) ;;
  ret (writeJSON 200 (JObj (case_fields (fst a) ++ [("signals", JList (map signalDTO (snd a)))]))).

Definition resolveCase (r : request) : fprog response :=
  _ <-? authorize (principal r) "fraud.case.resolve" ;;
  req <-? Http.decode decode_resolveReq r ;;
  c <-? or_mapped mapError (ResolveCase (urlParam r "id") (rr_Resolution req) (rr_Status req) (rr_AssignedTo req)) ;;
  ret (writeJSON 200 (caseDTO c)).

Definition getRisk (r : request) : fprog response :=
  _ <-? authorize (principal r) "fraud.case.read" ;;
  if String.eqb (query r "subject_type") "" || String.eqb (query r "subject_id") ""
  then ret (writeErr 400 "INVALID_ARGUMENT" "subject_type and subject_id are required") else
  rs <-? or_mapped mapError (GetRiskScore (query r "subject_type", query r "subject_id")) ;;
  ret (writeJSON 200 (riskDTO rs)).

Inductive fraud_route := IngestR | CasesR | CaseR | ResolveR | RiskR | HealthR.

Definition serve (x : fraud_route) (r : request) : fprog response :=
  match x with
  | IngestR => ingestSignal r
  | CasesR => listOpenCases r
  | CaseR => getCase r
  | ResolveR => resolveCase r
  | RiskR => getRisk r
  | HealthR => ret (Response 200 JNull)
  end.

Definition after_route (x : fraud_route) (r : request) (ev : env) (d : fraud_db) (n : nat) : fraud_db :=
  committed (snd (serve x r ev (rest d n))).

Definition needed (x : fraud_route) : option string :=
  match x with
  | IngestR => Some "fraud.signal.ingest"
  | CasesR | CaseR | RiskR => Some "fraud.case.read"
  | ResolveR => Some "fraud.case.resolve"
  | HealthR => None
  end.

Definition permitted (x : fraud_route) (r : request) : Prop :=
  match needed x with
  | Some perm => header r "X-User-Id" <> "" /\ Can (principal r) perm = true
  | None => True
  end.

Lemma wp_gate perm r ev w (Q : res fraud_err (response + unit) -> world fraud_db -> Prop) :
  (~ (header r "X-User-Id" <> "" /\ Can (principal r) perm = true) ->
   forall resp, status resp = 401 \/ status resp = 403 -> Q (Ok (inl resp)) w) ->
  (header r "X-User-Id" <> "" /\ Can (principal r) perm = true -> Q (Ok (inr tt)) w) ->
  wp (authorize (principal r) perm) ev w Q.
Proof.
  intros H1 H2. unfold authorize, Require_. change (UserID (principal r)) with (header r "X-User-Id").
  destruct (String.eqb_spec (header r "X-User-Id") "") as [E|NE]; [apply wp_ret, H1; [by intros []|by left]|].
  destruct (Can (principal r) perm) eqn:C; apply wp_ret; [by apply H2|]. apply H1; [by intros []|by right].
Qed.

(** The answer that refuses. *)
Definition denied (d : fraud_db) (a : res fraud_err response) (w : world fraud_db) : Prop :=
  committed w = d /\ exists resp, a = Ok resp /\ (status resp = 401 \/ status resp = 403).

Lemma gated x r ev d n : ~ permitted x r -> wp (serve x r) ev (rest d n) (denied d).
Proof.
  unfold permitted. intros NP.
  assert (forall perm (k : unit -> fprog response), ~ (header r "X-User-Id" <> "" /\ Can (principal r) perm = true) ->
    wp (bind_ok (authorize (principal r) perm) k) ev (rest d n) (denied d)) as Hgate.
  { intros perm k HN. apply wp_bind_ok, wp_gate; [|done]. intros _ resp Hs. split; [done|]. by exists resp. }
  destruct x; cbn [needed serve] in *; try (by apply Hgate). done.
Qed.

Lemma decoded_weight o req : decode_ingestReq o = Some req -> in_Weight req <> S754_nan.
Proof.
  unfold decode_ingestReq. destruct (str_field "subject_type" o); [|done]. cbn [obind].
  destruct (str_field "subject_id" o); [|done]. cbn [obind]. destruct (str_field "signal" o); [|done]. cbn [obind].
  destruct (float_field "weight" o) as [w|] eqn:W; [|done]. cbn [obind]. destruct (field into_map None "details" o); [|done].
  cbn [obind]. intros [= <-]. apply float_field_finite in W. by destruct w.
Qed.

(** A request makes one admissible call, or none. *)
Definition calls (manual : subject -> Prop) (ev : env) (d : fraud_db) (n : nat) (d' : fraud_db) : Prop :=
  d' = d \/ exists o, admissible manual o /\ d' = fraud_after o ev d n.

Lemma fraud_route_calls manual x r ev d n : calls manual ev d n (after_route x r ev d n).
Proof.
  unfold after_route. set (P := calls manual ev d n).
  assert (P d) as H0 by by left.
  assert (forall perm (k : unit -> fprog response),
    wp (k tt) ev (rest d n) (fun _ w => P (committed w)) ->
    wp (bind_ok (authorize (principal r) perm) k) ev (rest d n) (fun _ w => P (committed w))) as Hgate.
  { intros perm k Hk. apply wp_bind_ok, wp_gate; [done|by intros _]. }
  assert (wp (serve x r) ev (rest d n) (fun _ w => P (committed w))) as HW; [|exact HW].
  destruct x; cbn [serve]; try apply Hgate.
  - apply wp_bind_ok, wp_decode; [done|]. intros o req _ Hreq%decoded_weight.
    destruct (flt (in_Weight req) f0) eqn:L0; [by apply wp_ret|]. destruct (flt (float64 1) (in_Weight req)) eqn:L1; [by apply wp_ret|].
    cbn [orb]. apply wp_service; [|intros; by apply wp_ret]. right.
    exists (FrIngest (in_SubjectType req, in_SubjectID req) (in_Signal req) (in_Weight req) (in_Details req)).
    split; [|symmetry; apply dropped_answer]. apply andb_true_iff. split; by apply fle_flip.
  - apply wp_service; [|intros; by apply wp_ret]. unfold ListOpenCases, store_ListOpenCases.
    apply wp_exec_pool. by repeat split.
  - apply wp_service; [|intros; by apply wp_ret]. unfold GetCase, store_GetCase.
    apply wp_bind, wp_bind, (wp_pool_read _ (List.find (has_key ca_ID (urlParam r "id")) (cases d))); [done|by intros|].
    destruct (List.find _ _); [|by apply wp_throw]. apply wp_ret, wp_bind. unfold ListSignalsForSubject.
    apply (wp_pool_read _ (recent (positive_or_50 50) (case_subject c) (signals d))); [done|by intros|]. by apply wp_ret.
  - apply wp_bind_ok, wp_decode; [done|]. intros o req _ _. apply wp_service; [|intros; by apply wp_ret]. right.
    exists (FrResolve (urlParam r "id") (rr_Resolution req) (rr_Status req) (rr_AssignedTo req)).
    split; [done|symmetry; apply dropped_answer].
  - destruct (_ || _); [by apply wp_ret|]. apply wp_service; [|intros; by apply wp_ret]. unfold GetRiskScore, store_GetRiskScore.
    apply wp_bind, (wp_pool_read _ (List.find (about risk_subject (query r "subject_type", query r "subject_id")) (risk_scores d))); [done|by intros|].
    destruct (List.find _ _); [by apply wp_ret|by apply wp_throw].
  - by apply wp_ret.
Qed.

(** The fraud routes are gated and keep the tables sound. A caller without
    the permission of a route gets 401 or 403 and changes nothing; and whatever a
    request asks, reachable tables stay reachable, without opening a case by
    hand. *)
Theorem fraud_routes_are_gated manual x r ev d n :
  (~ permitted x r -> let a := serve x r ev (rest d n) in denied d (fst a) (snd a)) /\
  (fraud_reachable manual d -> fraud_reachable manual (after_route x r ev d n)).
Proof.
  split; [intros NP; by apply (gated x r ev d n)|]. intros HR.
  destruct (fraud_route_calls manual x r ev d n) as [->|(o & HA & ->)]; [done|]. eapply rtc_r; [exact HR|by constructor].
Qed.
End Api.

(** ** Demonstration *)

(** Thousandths, halves away from zero. *)
Definition plain_numeric : Numeric43 := fun x =>
  match x with
  | S754_zero _ => Some 0
  | S754_finite s m e =>
      let a := if 0 <=? e then 1000 * Z.pos m * 2 ^ e else (2000 * Z.pos m + 2 ^ (- e)) / (2 * 2 ^ (- e)) in
      let z := if s then - a else a in
      if in_unit x then Some (Z.min 1000 a) else if Z.abs z <? 10000 then Some z else None
  | _ => None
  end.

Lemma plain_rounds : @unit_rounds plain_numeric.
Proof.
  intros x H0 H1. unfold numeric43, plain_numeric, in_unit. rewrite H0, H1. cbn [andb].
  destruct x as [s|s| |s m e]; [exists 0; split; [done|lia]|by destruct s|done|].
  eexists. split; [reflexivity|]. split; [|apply Z.le_min_l]. apply Z.min_glb; [done|]. destruct (Z.leb_spec 0 e).
  - apply Z.mul_nonneg_nonneg; [lia|]. apply Z.pow_nonneg. lia.
  - pose proof (pow2_pos (- e) ltac:(lia)). apply Z.div_pos; lia.
Qed.

#[local] Existing Instance plain_numeric.

Definition run_fraud (l : list (fraud_op * nat)) (d : fraud_db) : fraud_db :=
  fold_left (fun d x => fraud_after (fst x) quiet_env d (snd x)) l d.

Lemma run_fraud_steps manual l d : (forall x, In x l -> admissible manual (fst x)) -> rtc (fraud_step manual) d (run_fraud l d).
Proof.
  revert d. induction l as [|[o n] l IH]; intros d Hl; [constructor|].
  eapply rtc_l; [apply (fst_call manual d o quiet_env n (Hl (o, n) (or_introl eq_refl)))|]. apply IH. intros x Hx. apply Hl. by right.
Qed.

Definition shot : subject := ("screenshot", "s1").

Definition signal_op (name : string) (thousandths : Z) : fraud_op := FrIngest shot name (of_numeric thousandths) None.

Definition flagged_demo : fraud_db :=
  run_fraud [(signal_op "duplicate_screenshot" 500, 0%nat); (signal_op "vm_detected" 400, 10%nat);
             (signal_op "vm_detected" 900, 20%nat)] no_fraud.

Lemma flagged_reachable manual : fraud_reachable manual flagged_demo.
Proof. apply run_fraud_steps. intros x [<-|[<-|[<-|[]]]]; vm_compute; reflexivity. Qed.

Lemma risk_scores_are_recomputed_witness :
  map (fun r => (ri_Score r, ri_Band r)) (risk_scores flagged_demo) = [(1000, "critical")] /\
  (forall r, In r (risk_scores flagged_demo) -> scores_row (signals flagged_demo) r /\ 0 <= ri_Score r <= 1000).
Proof.
  split; [vm_compute; reflexivity|].
  exact (proj2 (proj2 (risk_scores_are_recomputed plain_rounds (fun _ => False) flagged_demo (flagged_reachable _)))).
Defined.

Lemma one_open_case_per_subject_witness :
  map event_type (fraud_outbox flagged_demo) = ["fraud.case_opened"; "screenshot.flagged"] /\
  map ca_RiskScore (cases flagged_demo) = [900] /\
  (forall c, In c (cases flagged_demo) -> countZ (opens (ca_ID c)) (fraud_outbox flagged_demo) = 1).
Proof.
  split; [vm_compute; reflexivity|]. split; [vm_compute; reflexivity|].
  exact (proj1 (proj2 (one_open_case_per_subject plain_rounds (fun _ => False) flagged_demo (flagged_reachable _)))).
Defined.

Definition alarm_result : IngestResult :=
  match fst (IngestSignal shot "vm_detected" (of_numeric 900) None quiet_env (rest no_fraud 0)) with
  | Ok r => r
  | Err _ => mkIngestResult 0 f0 "" None []
  end.

Lemma critical_scores_have_a_case_witness :
  ir_Band alarm_result = "critical" /\
  existsb (open_case shot)
    (cases (committed (snd (IngestSignal shot "vm_detected" (of_numeric 900) None quiet_env (rest no_fraud 0))))) = true.
Proof.
  assert (fst (IngestSignal shot "vm_detected" (of_numeric 900) None quiet_env (rest no_fraud 0)) = Ok alarm_result) as E
    by (vm_compute; reflexivity).
  assert (ir_Band alarm_result = "critical") as B by (vm_compute; reflexivity). split; [exact B|].
  assert (in_unit (of_numeric 900) = true) as U by (vm_compute; reflexivity).
  pose proof (critical_scores_have_a_case plain_rounds (fun _ => False) shot "vm_detected" (of_numeric 900) None quiet_env no_fraud 0
    alarm_result (rtc_refl _ _)) as C. specialize (C U E). destruct C as [C _]. exact (C B).
Defined.

Lemma fraud_routes_are_gated_witness :
  let r := Request (fun h => if String.eqb h "X-User-Id" then "eve" else "") (fun _ => "") (fun _ => "") 0 None None in
  denied flagged_demo (fst (serve CasesR r quiet_env (rest flagged_demo 30))) (snd (serve CasesR r quiet_env (rest flagged_demo 30))) /\
  fraud_reachable (fun _ => False) (after_route ResolveR r quiet_env flagged_demo 30).
Proof.
  cbv zeta. split.
  - refine (proj1 (fraud_routes_are_gated (fun _ => False) CasesR _ quiet_env flagged_demo 30) _). intros [_ C]. by vm_compute in C.
  - refine (proj2 (fraud_routes_are_gated (fun _ => False) ResolveR _ quiet_env flagged_demo 30) (flagged_reachable _)).
Defined.

(** Signals of 0.3, 0.35 and 0.2 add up to the threshold, but not in floating
    point: the stored score is 0.85, its band high, and no case is opened. *)
Example threshold_missed :
  let d := run_fraud [(signal_op "a" 200, 0%nat); (signal_op "b" 350, 2000%nat); (signal_op "c" 300, 4000%nat)] no_fraud in
  map (fun r => (ri_Score r, ri_Band r)) (risk_scores d) = [(850, "high")] /\ cases d = [].
Proof. split; vm_compute; reflexivity. Qed.

(** A resolved case can be resolved again, with the opposite outcome. *)
Example verdict_reversed :
  let id := match cases flagged_demo with c :: _ => ca_ID c | [] => "" end in
  map (fun c => (ca_Status c, ca_ResolvedAt c))
    (cases (run_fraud [(FrResolve id "checked" "confirmed" None, 2000%nat); (FrResolve id "never mind" "dismissed" None, 4000%nat)]
       flagged_demo)) = [("dismissed", Some 4000)].
Proof. vm_compute. reflexivity. Qed.

(** None of the permissions of the routes is among those that migration 000002
    seeds; the one meant for the reviewers of cases opens nothing. *)
Example fraud_review_opens_nothing :
  let r := Request (fun h => if String.eqb h "X-User-Id" then "ann" else if String.eqb h "X-User-Permissions" then "fraud:review" else "")
             (fun _ => "") (fun _ => "") 0 None None in
  Forall (fun x => match fst (serve x r quiet_env (rest flagged_demo 30)) with Ok a => status a = 403 | Err _ => False end)
    [IngestR; CasesR; CaseR; ResolveR; RiskR].
Proof. vm_compute. by repeat constructor. Qed.
