(* ===== verification/UserStore.v ===== *)
(** * Users (services/user: internal/store, internal/service)

    Profiles, skills, portfolio, tracker devices and the status of KYC
    (migration 000003, and the devices of 000002).  Users and skills are rows of
    other owners that the statements refer to.  Nullable text columns that the
    code always writes are texts here; the encrypted columns are not touched. *)
From S2P Require Export Outbox Gateway Rbac Base64.

(** ** Row types *)

Record FreelancerProfile := mkFreelancerProfile {
  fp_UserID : string;
  fp_Headline : string;
  fp_Bio : string;
  fp_HourlyRateCents : option Z;
  fp_Currency : string;
  fp_Experience : string;
  fp_AvailabilityHoursWeek : option Z;
  fp_Timezone : string;
  fp_Country : string;
  fp_KYCStatus : string;
  fp_RatingAvg : Z;              (* NUMERIC(3,2), in hundredths *)
  fp_RatingCount : Z;
  fp_TotalEarnedCents : Z;
  fp_JobsCompleted : Z;
  fp_ProfileCompleteness : Z;
  fp_IsSearchable : bool;
  fp_CreatedAt : Z;
  fp_UpdatedAt : Z
}.

Record ClientProfile := mkClientProfile {
  cp_UserID : string;
  cp_CompanyName : string;
  cp_Website : string;
  cp_Industry : string;
  cp_CompanySize : string;
  cp_Country : string;
  cp_PaymentVerified : bool;
  cp_TotalSpentCents : Z;
  cp_HiresCount : Z;
  cp_RatingAvg : Z;
  cp_RatingCount : Z;
  cp_CreatedAt : Z;
  cp_UpdatedAt : Z
}.

Record SkillRow := mkSkillRow { sk_id : string; sk_slug : string; sk_name : string; sk_category : string }.

Record SkillLevel := mkSkillLevel {
  sl_user_id : string;
  sl_skill_id : string;
  sl_level : string;
  sl_years : option Z            (* NUMERIC(4,1), in tenths *)
}.

Record PortfolioItem := mkPortfolioItem {
  po_ID : string;
  po_UserID : string;
  po_Title : string;
  po_Description : string;
  po_URL : string;
  po_ImageKeys : list string;
  po_Skills : list string;
  po_CreatedAt : Z;
  po_deleted_at : option Z
}.

Record Device := mkDevice {
  de_ID : string;
  de_UserID : string;
  de_Fingerprint : string;
  de_Kind : string;
  de_DisplayName : option string;
  de_AttestationPubkey : option (list Z);
  de_LastSeenAt : option Z;
  de_Trusted : bool;
  de_CreatedAt : Z
}.

Record KYCRecord := mkKYCRecord {
  ky_id : string;
  ky_user_id : string;
  ky_provider : string;
  ky_provider_ref : string;
  ky_status : string;
  ky_reviewed_at : option Z;
  ky_created_at : Z
}.

Record user_db := mkUserDb {
  user_ids : list string;
  skill_rows : list SkillRow;
  freelancers : list FreelancerProfile;
  clients : list ClientProfile;
  skill_levels : list SkillLevel;
  portfolio : list PortfolioItem;
  devices : list Device;
  kyc_records : list KYCRecord;
  user_outbox : list OutboxRow
}.

Definition freelancers_t : table user_db FreelancerProfile :=
  Table freelancers (fun l d => mkUserDb (user_ids d) (skill_rows d) l (clients d) (skill_levels d) (portfolio d) (devices d) (kyc_records d) (user_outbox d)).
Definition clients_t : table user_db ClientProfile :=
  Table clients (fun l d => mkUserDb (user_ids d) (skill_rows d) (freelancers d) l (skill_levels d) (portfolio d) (devices d) (kyc_records d) (user_outbox d)).
Definition skill_levels_t : table user_db SkillLevel :=
  Table skill_levels (fun l d => mkUserDb (user_ids d) (skill_rows d) (freelancers d) (clients d) l (portfolio d) (devices d) (kyc_records d) (user_outbox d)).
Definition portfolio_t : table user_db PortfolioItem :=
  Table portfolio (fun l d => mkUserDb (user_ids d) (skill_rows d) (freelancers d) (clients d) (skill_levels d) l (devices d) (kyc_records d) (user_outbox d)).
Definition devices_t : table user_db Device :=
  Table devices (fun l d => mkUserDb (user_ids d) (skill_rows d) (freelancers d) (clients d) (skill_levels d) (portfolio d) l (kyc_records d) (user_outbox d)).
Definition kyc_records_t : table user_db KYCRecord :=
  Table kyc_records (fun l d => mkUserDb (user_ids d) (skill_rows d) (freelancers d) (clients d) (skill_levels d) (portfolio d) (devices d) l (user_outbox d)).
#[export] Instance user_HasOutbox : HasOutbox user_db :=
  Table user_outbox (fun l d => mkUserDb (user_ids d) (skill_rows d) (freelancers d) (clients d) (skill_levels d) (portfolio d) (devices d) (kyc_records d) l).

#[export] Instance user_Deferred : Deferred user_db := fun _ _ => true.

Inductive user_err := store_ErrNotFound | ErrNotFound | ErrValidation | ErrKYCNotAllowed.

Abbreviation uprog := (prog user_db user_err).

Definition a_user (name userID : string) (d : user_db) : option dberr := references name (String.eqb userID) (user_ids d).
Definition a_freelancer (name userID : string) (d : user_db) : option dberr :=
  references name (has_key fp_UserID userID) (freelancers d).
Definition a_skill (skillID : string) (d : user_db) : option dberr :=
  references "freelancer_skills_skill_id_fkey" (has_key sk_id skillID) (skill_rows d).

(** ** Profiles *)

Record FreelancerProfileInput := mkFreelancerProfileInput {
  fi_UserID : string;
  fi_Headline : string;
  fi_Bio : string;
  fi_HourlyRateCents : option Z;
  fi_Currency : string;
  fi_Experience : string;
  fi_AvailabilityHoursWeek : option Z;
  fi_Timezone : string;
  fi_Country : string
}.

Definition new_freelancer (i : FreelancerProfileInput) (currency country : string) (completeness : Z) (searchable : bool) (t : Z)
  : FreelancerProfile :=
  mkFreelancerProfile (fi_UserID i) (fi_Headline i) (fi_Bio i) (fi_HourlyRateCents i) currency (fi_Experience i)
    (fi_AvailabilityHoursWeek i) (fi_Timezone i) country "not_started" 0 0 0 0 completeness searchable (to_timestamptz t)
    (to_timestamptz t).

(** DO UPDATE SET: the columns of the statement; KYC, reputation and the instant
    of creation stay. *)
Definition refreshed (new r : FreelancerProfile) : FreelancerProfile :=
  mkFreelancerProfile (fp_UserID r) (fp_Headline new) (fp_Bio new) (fp_HourlyRateCents new) (fp_Currency new)
    (fp_Experience new) (fp_AvailabilityHoursWeek new) (fp_Timezone new) (fp_Country new) (fp_KYCStatus r) (fp_RatingAvg r)
    (fp_RatingCount r) (fp_TotalEarnedCents r) (fp_JobsCompleted r) (fp_ProfileCompleteness new) (fp_IsSearchable new)
    (fp_CreatedAt r) (fp_UpdatedAt new).

(** The Go int of the INT column is tested before the statement is sent. *)
Definition store_UpsertFreelancerProfile (i : FreelancerProfileInput) (completeness : Z) (searchable : bool)
  : uprog FreelancerProfile :=
  if negb (in_int32 (default 0 (fi_AvailabilityHoursWeek i))) then throw (Db ScanError) else
  exec (fun s d =>
    match bpchar 3 (fi_Currency i), bpchar 2 (fi_Country i) with
    | Some currency, Some country =>
        match a_user "freelancer_profiles_user_id_fkey" (fi_UserID i) d with
        | Some e => Reject e
        | None => let new := new_freelancer i currency country completeness searchable (now s) in
                  upsert_returning freelancers_t fp_UserID new (refreshed new) s d
        end
    | _, _ => Reject InvalidText
    end).

Definition store_GetFreelancerProfile (userID : string) : uprog FreelancerProfile :=
  o <- exec_pool (select_one freelancers_t (has_key fp_UserID userID)) ;;
  match o with None => fail store_ErrNotFound | Some p => ret p end.

Definition KYCStatusOf (userID : string) : uprog string :=
  o <- exec (select_one freelancers_t (has_key fp_UserID userID)) ;;
  match o with None => fail store_ErrNotFound | Some p => ret (fp_KYCStatus p) end.

Record ClientProfileInput := mkClientProfileInput {
  ci_UserID : string;
  ci_CompanyName : string;
  ci_Website : string;
  ci_Industry : string;
  ci_CompanySize : string;
  ci_Country : string
}.

Definition new_client (i : ClientProfileInput) (country : string) (t : Z) : ClientProfile :=
  mkClientProfile (ci_UserID i) (ci_CompanyName i) (ci_Website i) (ci_Industry i) (ci_CompanySize i) country false 0 0 0 0
    (to_timestamptz t) (to_timestamptz t).

Definition refreshed_client (new r : ClientProfile) : ClientProfile :=
  mkClientProfile (cp_UserID r) (cp_CompanyName new) (cp_Website new) (cp_Industry new) (cp_CompanySize new) (cp_Country new)
    (cp_PaymentVerified r) (cp_TotalSpentCents r) (cp_HiresCount r) (cp_RatingAvg r) (cp_RatingCount r) (cp_CreatedAt r)
    (cp_UpdatedAt new).

Definition store_UpsertClientProfile (i : ClientProfileInput) : uprog ClientProfile :=
  exec (fun s d =>
    match bpchar 2 (ci_Country i) with
    | None => Reject InvalidText
    | Some country =>
        match a_user "client_profiles_user_id_fkey" (ci_UserID i) d with
        | Some e => Reject e
        | None => let new := new_client i country (now s) in upsert_returning clients_t cp_UserID new (refreshed_client new) s d
        end
    end).

Definition store_GetClientProfile (userID : string) : uprog ClientProfile :=
  o <- exec_pool (select_one clients_t (has_key cp_UserID userID)) ;;
  match o with None => fail store_ErrNotFound | Some p => ret p end.

(** ** Skills *)

(** The tenths a NUMERIC(4,1) column keeps of a float64. *)
Class Numeric41 := numeric41 : spec_float -> option Z.

Definition sl_pk (r : SkillLevel) : string * string := (sl_user_id r, sl_skill_id r).

Definition skill_refs (userID skillID : string) (d : user_db) : option dberr :=
  first_violation [a_freelancer "freelancer_skills_user_id_fkey" userID d; a_skill skillID d].

Definition releveled (new r : SkillLevel) : SkillLevel :=
  mkSkillLevel (sl_user_id r) (sl_skill_id r) (sl_level new) (sl_years new).

Definition store_AddFreelancerSkill `{Numeric41} (userID skillID level : string) (years : option spec_float) : uprog unit :=
  exec_pool (fun s d =>
    match (match years with None => Some None | Some y => option_map Some (numeric41 y) end), skill_refs userID skillID d with
    | None, _ => Reject NumericOutOfRange
    | _, Some e => Reject e
    | Some tenths, None => let new := mkSkillLevel userID skillID level tenths in
                           upsert skill_levels_t sl_pk (fun _ => None) new (releveled new) s d
    end).

(** ON CONFLICT (user_id, skill_id) DO NOTHING *)
Definition insert_skill (userID skillID level : string) : sql user_db unit := fun _ d =>
  if existsb (fun r => bool_decide (sl_pk r = (userID, skillID))) (skill_levels d) then Done tt d else
  match skill_refs userID skillID d with
  | Some e => Reject e
  | None => Done tt (put skill_levels_t (skill_levels d ++ [mkSkillLevel userID skillID level None]) d)
  end.

Definition store_SetFreelancerSkills (userID : string) (skillIDs : list string) (level : string) : uprog unit :=
  in_tx (
    exec (fun _ d => Done tt (put skill_levels_t (select_rows (fun r => negb (has_key sl_user_id userID r)) (skill_levels d)) d)) ;;;
    for_each skillIDs (fun sid => exec (insert_skill userID sid level)) ;;;
    commit).

Record FreelancerSkill := mkFreelancerSkill {
  ss_SkillID : string;
  ss_Slug : string;
  ss_Name : string;
  ss_Category : string;
  ss_Level : string;
  ss_Years : option Z
}.

(** The join, ordered by the name of the skill. *)
Definition skills_of `{Collation} (userID : string) (d : user_db) : list FreelancerSkill :=
  ordered_by (fun x y => text_le (ss_Name x) (ss_Name y))
    (flat_map (fun r => map (fun s => mkFreelancerSkill (sk_id s) (sk_slug s) (sk_name s) (sk_category s) (sl_level r) (sl_years r))
                          (select_rows (has_key sk_id (sl_skill_id r)) (skill_rows d)))
       (select_rows (has_key sl_user_id userID) (skill_levels d))).

Definition store_ListFreelancerSkills `{Collation} (userID : string) : uprog (list FreelancerSkill) :=
  exec_pool (fun _ d => Done (skills_of userID d) d).

(** ** Portfolio *)

(** A nil slice is NULL, which the columns refuse. *)
Definition store_AddPortfolioItem (userID title description url : string) (imageKeys skills : option (list string))
  : uprog PortfolioItem :=
  exec_pool (fun s d =>
    match imageKeys, skills with
    | None, _ => Reject (NotNullViolation "image_keys")
    | _, None => Reject (NotNullViolation "skills")
    | Some keys, Some ids =>
        insert_row portfolio_t (fun l r => first_violation
            [unique_index "portfolio_items_pkey" (fun x y => String.eqb (po_ID x) (po_ID y)) l r;
             a_freelancer "portfolio_items_user_id_fkey" userID d])
          (fun s => mkPortfolioItem (fresh s) userID title description url keys ids (to_timestamptz (now s)) None) s d
    end).

Definition shown_item (userID : string) (r : PortfolioItem) : bool :=
  has_key po_UserID userID r && match po_deleted_at r with None => true | Some _ => false end.

Definition store_ListPortfolioItems (userID : string) : uprog (list PortfolioItem) :=
  exec_pool (fun _ d => Done (ordered_by (fun x y => po_CreatedAt y <=? po_CreatedAt x) (select_rows (shown_item userID) (portfolio d))) d).

(** ** Devices *)

Definition de_pk (r : Device) : string * string := (de_UserID r, de_Fingerprint r).

(** ON CONFLICT (user_id, fingerprint): the identity, the trust and the instant
    of enrolment stay. *)
Definition reenrolled (new r : Device) : Device :=
  mkDevice (de_ID r) (de_UserID r) (de_Fingerprint r) (de_Kind new) (de_DisplayName new) (de_AttestationPubkey new)
    (de_LastSeenAt new) (de_Trusted r) (de_CreatedAt r).

Definition store_RegisterDevice (userID fingerprint kind displayName : string) (attestationPubkey : list Z) : uprog Device :=
  exec_pool (fun s d =>
    let new := mkDevice (fresh s) userID fingerprint kind (Some displayName) (Some attestationPubkey)
                 (Some (to_timestamptz (now s))) false (to_timestamptz (now s)) in
    match (if existsb (fun r => bool_decide (de_pk r = (userID, fingerprint))) (devices d) then None else
           first_violation [unique_index "devices_pkey" (fun x y => String.eqb (de_ID x) (de_ID y)) (devices d) new;
                            a_user "devices_user_id_fkey" userID d]) with
    | Some e => Reject e
    | None => upsert_returning devices_t de_pk new (reenrolled new) s d
    end).

Definition seen (r : Device) : Z := default (de_CreatedAt r) (de_LastSeenAt r).

Definition store_ListDevices (userID : string) : uprog (list Device) :=
  exec_pool (fun _ d => Done (ordered_by (fun x y => seen y <=? seen x) (select_rows (has_key de_UserID userID) (devices d))) d).

(** ** KYC *)

Definition checked (status : string) (t : Z) (r : FreelancerProfile) : FreelancerProfile :=
  mkFreelancerProfile (fp_UserID r) (fp_Headline r) (fp_Bio r) (fp_HourlyRateCents r) (fp_Currency r) (fp_Experience r)
    (fp_AvailabilityHoursWeek r) (fp_Timezone r) (fp_Country r) status (fp_RatingAvg r) (fp_RatingCount r)
    (fp_TotalEarnedCents r) (fp_JobsCompleted r) (fp_ProfileCompleteness r) (fp_IsSearchable r) (fp_CreatedAt r)
    (to_timestamptz t).

Definition reviewed (status : string) : bool := negb (String.eqb status "pending" || String.eqb status "not_started").

Definition store_SetKYCStatus (userID status provider providerRef : string) : uprog unit :=
  exec (update_rows freelancers_t (has_key fp_UserID userID) (fun s => checked status (now s)) (fun _ => None)) ;;;
  exec (fun s d => insert_row kyc_records_t
    (fun l r => first_violation [unique_index "kyc_records_pkey" (fun x y => String.eqb (ky_id x) (ky_id y)) l r;
                                 a_user "kyc_records_user_id_fkey" userID d])
    (fun s => mkKYCRecord (fresh s) userID provider providerRef status
                (if reviewed status then Some (to_timestamptz (now s)) else None) (to_timestamptz (now s))) s d) ;;;
  ret tt.

(** * Service *)

Definition validKYCStatuses : list string := ["not_started"; "pending"; "verified"; "rejected"].
Definition validExperience : list string := ["entry"; "intermediate"; "expert"].

Definition positive (o : option Z) : bool := match o with Some z => 0 <? z | None => false end.

(** How many of the core fields are filled. *)
Definition filled (i : FreelancerProfileInput) : Z :=
  sumZ (fun b : bool => if b then 1 else 0)
    [negb (String.eqb (fi_Headline i) ""); negb (String.eqb (fi_Bio i) ""); positive (fi_HourlyRateCents i);
     positive (fi_AvailabilityHoursWeek i); negb (String.eqb (fi_Timezone i) ""); negb (String.eqb (fi_Country i) "")].

Definition completenessFields : Z := 6.
Definition completeness_of (i : FreelancerProfileInput) : Z := filled i * 100 / completenessFields.

Definition or_default (v default : string) : string := if String.eqb v "" then default else v.

Definition with_defaults (i : FreelancerProfileInput) : FreelancerProfileInput :=
  mkFreelancerProfileInput (fi_UserID i) (fi_Headline i) (fi_Bio i) (fi_HourlyRateCents i) (or_default (fi_Currency i) "USD")
    (or_default (fi_Experience i) "intermediate") (fi_AvailabilityHoursWeek i) (fi_Timezone i) (fi_Country i).

Definition profile_event (userID : string) (completeness : Z) (searchable : bool) : Event :=
  mkEvent "freelancer_profile" userID "profile.updated" "user.events" userID
    (JObj [("user_id", JStr userID); ("completeness", JInt completeness); ("is_searchable", JBool searchable);
           ("kind", JStr "freelancer")]) None.

Definition UpsertFreelancerProfile (i : FreelancerProfileInput) : uprog FreelancerProfile :=
  if String.eqb (fi_UserID i) "" then fail ErrValidation else
  let i := with_defaults i in
  if negb (enum validExperience (fi_Experience i)) then fail ErrValidation else
  in_tx (
    r <- attempt (KYCStatusOf (fi_UserID i)) ;;
    kyc <- (match r with
            | Ok status => ret status
            | Err (Dom store_ErrNotFound) => ret ""
            | Err e => throw e
            end) ;;
    let searchable := (60 <=? completeness_of i) && String.eqb kyc "verified" in
    p <- store_UpsertFreelancerProfile i (completeness_of i) searchable ;;
    Enqueue (profile_event (fi_UserID i) (completeness_of i) searchable) ;;;
    commit ;;;
    ret p).

(** The store's not-found is the service's. *)
Definition not_found {A} (p : uprog A) : uprog A :=
  r <- attempt p ;;
  match r with
  | Ok a => ret a
  | Err (Dom store_ErrNotFound) => fail ErrNotFound
  | Err e => throw e
  end.

Definition GetFreelancerProfile (userID : string) : uprog FreelancerProfile := not_found (store_GetFreelancerProfile userID).

Definition client_event (userID : string) : Event :=
  mkEvent "client_profile" userID "profile.updated" "user.events" userID
    (JObj [("user_id", JStr userID); ("kind", JStr "client")]) None.

Definition UpsertClientProfile (i : ClientProfileInput) : uprog ClientProfile :=
  if String.eqb (ci_UserID i) "" then fail ErrValidation else
  in_tx (
    p <- store_UpsertClientProfile i ;;
    Enqueue (client_event (ci_UserID i)) ;;;
    commit ;;;
    ret p).

Definition GetClientProfile (userID : string) : uprog ClientProfile := not_found (store_GetClientProfile userID).

Definition AddFreelancerSkill `{Numeric41} (userID skillID level : string) (years : option spec_float) : uprog unit :=
  if String.eqb userID "" || String.eqb skillID "" then fail ErrValidation else
  let level := or_default level "intermediate" in
  if negb (enum validExperience level) then fail ErrValidation else
  store_AddFreelancerSkill userID skillID level years.

Definition SetFreelancerSkills (userID : string) (skillIDs : list string) (level : string) : uprog unit :=
  if String.eqb userID "" then fail ErrValidation else
  let level := or_default level "intermediate" in
  if negb (enum validExperience level) then fail ErrValidation else
  store_SetFreelancerSkills userID skillIDs level.

Definition ListFreelancerSkills `{Collation} (userID : string) : uprog (list FreelancerSkill) := store_ListFreelancerSkills userID.

Definition AddPortfolioItem (userID title description url : string) (imageKeys skills : option (list string)) : uprog PortfolioItem :=
  if String.eqb userID "" || String.eqb title "" then fail ErrValidation else
  store_AddPortfolioItem userID title description url imageKeys skills.

Definition ListPortfolioItems (userID : string) : uprog (list PortfolioItem) := store_ListPortfolioItems userID.

Definition deviceKindTracker : string := "desktop_tracker".
Definition ed25519PublicKeySize : nat := 32.

Definition RegisterDevice (userID fingerprint displayName : string) (attestationPubkey : list Z) : uprog Device :=
  if String.eqb userID "" || String.eqb fingerprint "" then fail ErrValidation else
  if negb (length attestationPubkey =? ed25519PublicKeySize)%nat then fail ErrValidation else
  store_RegisterDevice userID fingerprint deviceKindTracker (or_default displayName "Desktop Tracker") attestationPubkey.

Definition ListDevices (userID : string) : uprog (list Device) :=
  if String.eqb userID "" then fail ErrValidation else store_ListDevices userID.

Definition kyc_event (userID status provider : string) : Event :=
  mkEvent "kyc" userID "user.kyc_updated" "user.events" userID
    (JObj [("user_id", JStr userID); ("status", JStr status); ("provider", JStr provider)]) None.

Definition SetKYCStatus (userID status provider providerRef : string) : uprog unit :=
  if String.eqb userID "" then fail ErrValidation else
  if negb (enum validKYCStatuses status) then fail ErrKYCNotAllowed else
  let provider := or_default provider "sumsub" in
  in_tx (
    not_found (store_SetKYCStatus userID status provider providerRef) ;;;
    Enqueue (kyc_event userID status provider) ;;;
    commit).

Definition CheckPermission (p : Principal) (perm : string) : bool := Can p perm.
