(* ===== verification/UserProofs.v ===== *)
(** * Properties of users, and their REST transport (services/user/internal/httpapi)

    Profiles are searchable only after verification, skills are replaced as a
    whole, devices have keys of their size, and requests change the rows of
    their caller. *)
From stdpp Require Import relations.
From S2P Require Export UserStore.

(** ** What the operations do to the tables *)

Definition kyc_of (userID : string) (d : user_db) : string :=
  match List.find (has_key fp_UserID userID) (freelancers d) with Some p => fp_KYCStatus p | None => "" end.

Definition searchable (i : FreelancerProfileInput) (d : user_db) : bool :=
  (60 <=? completeness_of i) && String.eqb (kyc_of (fi_UserID i) d) "verified".

Definition new_profile (i : FreelancerProfileInput) (currency country : string) (t : Z) (d : user_db) : FreelancerProfile :=
  new_freelancer i currency country (completeness_of i) (searchable i d) t.

Definition profiled (i : FreelancerProfileInput) (p : FreelancerProfile) (d d' : user_db) : Prop :=
  exists currency country t, bpchar 3 (fi_Currency i) = Some currency /\ bpchar 2 (fi_Country i) = Some country /\
    In (fi_UserID i) (user_ids d) /\
    let new := new_profile i currency country t d in
    p = default new (option_map (refreshed new) (List.find (fun r => bool_decide (fp_UserID r = fi_UserID i)) (freelancers d))) /\
    d' = put user_HasOutbox (enqueued t (profile_event (fi_UserID i) (completeness_of i) (searchable i d)) (user_outbox d))
           (put freelancers_t (upserted fp_UserID new (refreshed new) (freelancers d)) d).

Definition client_profiled (i : ClientProfileInput) (p : ClientProfile) (d d' : user_db) : Prop :=
  exists country t, bpchar 2 (ci_Country i) = Some country /\
    let new := new_client i country t in
    p = default new (option_map (refreshed_client new) (List.find (fun r => bool_decide (cp_UserID r = ci_UserID i)) (clients d))) /\
    d' = put user_HasOutbox (enqueued t (client_event (ci_UserID i)) (user_outbox d))
           (put clients_t (upserted cp_UserID new (refreshed_client new) (clients d)) d).

(** The levels of a user after the ids are inserted in turn. *)
Definition with_level (userID level sid : string) (l : list SkillLevel) : list SkillLevel :=
  if existsb (fun r => bool_decide (sl_pk r = (userID, sid))) l then l else l ++ [mkSkillLevel userID sid level None].

Definition with_levels (userID level : string) (sids : list string) (l : list SkillLevel) : list SkillLevel :=
  fold_left (fun l sid => with_level userID level sid l) sids l.

Definition others_levels (userID : string) (l : list SkillLevel) : list SkillLevel :=
  select_rows (fun r => negb (has_key sl_user_id userID r)) l.

Definition referable (userID sid : string) (d : user_db) : Prop := skill_refs userID sid d = None.

Definition reskilled (userID : string) (sids : list string) (level : string) (d d' : user_db) : Prop :=
  d' = put skill_levels_t (with_levels userID level sids (others_levels userID (skill_levels d))) d /\
  Forall (fun sid => referable userID sid d) sids.

Definition skilled (userID sid level : string) (d d' : user_db) : Prop :=
  referable userID sid d /\ exists tenths,
    let new := mkSkillLevel userID sid level tenths in
    d' = put skill_levels_t (upserted sl_pk new (releveled new) (skill_levels d)) d.

Definition displayed (userID title : string) (it : PortfolioItem) (d d' : user_db) : Prop :=
  po_UserID it = userID /\ po_Title it = title /\ a_freelancer "portfolio_items_user_id_fkey" userID d = None /\
  d' = put portfolio_t (portfolio d ++ [it]) d.

Definition enrolled (userID fingerprint : string) (key : list Z) (dev : Device) (d d' : user_db) : Prop :=
  exists id name t,
    let new := mkDevice id userID fingerprint deviceKindTracker (Some name) (Some key) (Some (to_timestamptz t)) false (to_timestamptz t) in
    dev = default new (option_map (reenrolled new) (List.find (fun r => bool_decide (de_pk r = (userID, fingerprint))) (devices d))) /\
    d' = put devices_t (upserted de_pk new (reenrolled new) (devices d)) d.

Definition decided (userID status provider : string) (d d' : user_db) : Prop :=
  enum validKYCStatuses status = true /\ exists k t, ky_user_id k = userID /\ ky_status k = status /\ ky_provider k = provider /\
    d' = put user_HasOutbox (enqueued t (kyc_event userID status provider) (user_outbox d))
           (put kyc_records_t (kyc_records d ++ [k])
              (put freelancers_t (update_where (has_key fp_UserID userID) (checked status t) (freelancers d)) d)).

Section Outcomes.
Implicit Types (ev : env) (d : user_db).

Lemma has_key_bool_decide {R} (k : R -> string) id r : bool_decide (k r = id) = has_key k id r.
Proof. unfold has_key. destruct (String.eqb_spec (k r) id); [by rewrite bool_decide_eq_true_2|by rewrite bool_decide_eq_false_2]. Qed.

Lemma wp_kyc userID ev d t v n {A} (k : string -> uprog A) (Q : res user_err A -> world user_db -> Prop) :
  (forall e w, committed w = d -> Q (Err e) w) ->
  (forall m, wp (k (kyc_of userID v)) ev (World d (Live t v) m) Q) ->
  wp (r <- attempt (KYCStatusOf userID) ;;
      kyc <- (match r with Ok status => ret status | Err (Dom store_ErrNotFound) => ret "" | Err e => throw e end) ;; k kyc)
    ev (World d (Live t v) n) Q.
Proof.
  intros Hf Hs. apply wp_bind, wp_attempt. unfold KYCStatusOf. apply wp_bind, (wp_select_one freelancers_t).
  - intros _. by apply wp_bind, wp_throw, Hf.
  - unfold kyc_of in Hs. cbn [rows freelancers_t]. destruct (List.find _ _); [apply wp_ret, wp_bind, wp_ret|apply wp_throw, wp_bind, wp_ret]; apply Hs.
Qed.

Lemma UpsertFreelancerProfile_changes i ev d n :
  wp (UpsertFreelancerProfile i) ev (rest d n)
    (ended (changes d (fun p => profiled (with_defaults i) p d))).
Proof.
  unfold UpsertFreelancerProfile, rest. destruct (String.eqb _ ""); [apply ended_same|]. cbv zeta.
  destruct (enum _ _); [|apply ended_same]. cbn [negb]. set (j := with_defaults i). apply wp_in_changes, wp_kyc; [by auto with tables|].
  intros m. fold (searchable j d). unfold store_UpsertFreelancerProfile. apply wp_bind.
  destruct (in_int32 _); [|by apply wp_throw, closing_same]. cbn [negb]. apply wp_exec; [by auto with tables|].
  destruct (bpchar 3 (fi_Currency j)) as [currency|] eqn:C1; [|by apply closing_same].
  destruct (bpchar 2 (fi_Country j)) as [country|] eqn:C2; [|by apply closing_same].
  unfold a_user, references. destruct (existsb _ _) eqn:X; [|by apply closing_same]. cbv zeta. unfold upsert_returning.
  apply wp_bind, wp_Enqueue; [by auto with tables|]. apply wp_commit_answer.
  exists currency, country, (clock ev n). do 2 (split; [done|]). split; [|by split].
  apply existsb_exists in X as (u & Hu & E%String.eqb_eq). by rewrite E.
Qed.

Lemma UpsertClientProfile_changes i ev d n :
  wp (UpsertClientProfile i) ev (rest d n) (ended (changes d (fun p => client_profiled i p d))).
Proof.
  unfold UpsertClientProfile, rest. destruct (String.eqb _ ""); [apply ended_same|]. apply wp_in_changes.
  unfold store_UpsertClientProfile. apply wp_bind, wp_exec; [by auto with tables|].
  destruct (bpchar 2 (ci_Country i)) as [country|] eqn:C2; [|by apply closing_same].
  destruct (a_user _ _ _); [by apply closing_same|]. cbv zeta. unfold upsert_returning.
  apply wp_bind, wp_Enqueue; [by auto with tables|]. apply wp_commit_answer. exists country, (clock ev n). by repeat split.
Qed.

Lemma wp_insert_skills userID level sids ev d t v n (Q : res user_err unit -> world user_db -> Prop) :
  (forall e w, committed w = d -> Q (Err e) w) ->
  (forall m, Forall (fun sid => existsb (fun r => bool_decide (sl_pk r = (userID, sid))) (skill_levels v) = true \/ referable userID sid v) sids ->
     Q (Ok tt) (World d (Live t (put skill_levels_t (with_levels userID level sids (skill_levels v)) v)) m)) ->
  wp (for_each sids (fun sid => exec (insert_skill userID sid level))) ev (World d (Live t v) n) Q.
Proof.
  intros Hf. revert v n. induction sids as [|sid sids IH]; intros v n Hs; cbn [for_each].
  - apply wp_ret. specialize (Hs n (List.Forall_nil _)). by destruct v.
  - apply wp_bind, wp_exec; [by auto|]. unfold insert_skill. unfold with_levels in Hs. cbn [fold_left] in Hs. unfold with_level at 2 in Hs.
    destruct (existsb (fun r => bool_decide (sl_pk r = (userID, sid))) (skill_levels v)) eqn:X.
    + apply IH. intros m HF. apply Hs. constructor; [by left|done].
    + destruct (skill_refs userID sid v) eqn:R; [by apply Hf|]. apply IH. intros m HF. apply Hs.
      constructor; [by right|]. eapply List.Forall_impl; [|exact HF]. cbn [put skill_levels_t skill_levels]. intros s [Hx|Hx]; [|by right].
      rewrite existsb_app in Hx. apply orb_true_iff in Hx as [Hx|Hx]; [by left|]. cbn in Hx. rewrite orb_false_r in Hx.
      apply bool_decide_eq_true in Hx. injection Hx as ->. by right.
Qed.

Lemma SetFreelancerSkills_changes userID sids level ev d n :
  wp (SetFreelancerSkills userID sids level) ev (rest d n)
    (ended (changes d (fun _ d' => enum validExperience (or_default level "intermediate") = true /\
       reskilled userID sids (or_default level "intermediate") d d'))).
Proof.
  unfold SetFreelancerSkills, rest. destruct (String.eqb _ ""); [apply ended_same|]. cbv zeta.
  destruct (enum _ _); [|apply ended_same]. cbn [negb]. unfold store_SetFreelancerSkills. apply wp_in_changes.
  apply wp_bind, wp_exec; [by auto with tables|]. apply wp_bind, wp_insert_skills; [by auto with tables|]. intros m HF.
  apply wp_commit_change. split; [done|]. split; [done|]. eapply List.Forall_impl; [|exact HF].
  cbn [put skill_levels_t skill_levels]. intros sid [Hx|Hx]; [|done]. exfalso.
  apply existsb_exists in Hx as (r & [_ Hr]%List.filter_In & E%bool_decide_eq_true). injection E as E _.
  unfold has_key in Hr. by rewrite E, String.eqb_refl in Hr.
Qed.

Lemma AddFreelancerSkill_changes `{Numeric41} userID sid level years ev d n :
  wp (AddFreelancerSkill userID sid level years) ev (rest d n)
    (ended (changes d (fun _ d' => enum validExperience (or_default level "intermediate") = true /\
       skilled userID sid (or_default level "intermediate") d d'))).
Proof.
  unfold AddFreelancerSkill, rest. destruct (_ || _); [apply ended_same|]. cbv zeta.
  destruct (enum _ _) eqn:V; [|apply ended_same]. cbn [negb]. apply wp_pool_changes. intros u.
  assert (forall tenths, skill_refs userID sid d = None ->
    let new := mkSkillLevel userID sid (or_default level "intermediate") tenths in
    skilled userID sid (or_default level "intermediate") d (put skill_levels_t (upserted sl_pk new (releveled new) (skill_levels d)) d)) as Hk.
  { intros tenths HR new. split; [done|]. by exists tenths. }
  assert (forall l : list SkillLevel, first_violation (map (fun _ => None) l) = None) as EF by (intros l; induction l; done).
  destruct years as [y|]; [destruct (numeric41 y); [|done]|]; cbn [option_map];
    (destruct (skill_refs userID sid d) eqn:R; [done|]); cbv zeta; unfold upsert; rewrite EF; (split; [done|]); by apply Hk.
Qed.

Lemma AddPortfolioItem_changes userID title description url keys ids ev d n :
  wp (AddPortfolioItem userID title description url keys ids) ev (rest d n)
    (ended (changes d (fun it => displayed userID title it d))).
Proof.
  unfold AddPortfolioItem, rest. destruct (_ || _); [apply ended_same|]. apply wp_pool_changes. intros u.
  destruct keys as [keys|]; [|done]. destruct ids as [ids|]; [|done]. unfold insert_row. cbv zeta.
  destruct (first_violation _) eqn:F; [done|]. apply first_violation_None in F. apply Forall_cons_1 in F as [_ [F _]%Forall_cons_1].
  by repeat split.
Qed.

Lemma RegisterDevice_changes userID fingerprint name key ev d n :
  wp (RegisterDevice userID fingerprint name key) ev (rest d n)
    (ended (changes d (fun dev d' => userID <> "" /\ length key = 32%nat /\ enrolled userID fingerprint key dev d d'))).
Proof.
  unfold RegisterDevice, rest. destruct (String.eqb_spec userID "") as [|NE]; [apply ended_same|]. cbn [orb].
  destruct (String.eqb fingerprint ""); [apply ended_same|].
  destruct (Nat.eqb_spec (length key) ed25519PublicKeySize) as [EL|]; [|apply ended_same]. cbn [negb].
  apply wp_pool_changes. intros u. cbv zeta. destruct (if existsb _ _ then _ else _); [done|]. unfold upsert_returning.
  do 2 (split; [done|]). exists u, (or_default name "Desktop Tracker"), (clock ev n). by split.
Qed.

Lemma SetKYCStatus_changes userID status provider ref ev d n :
  wp (SetKYCStatus userID status provider ref) ev (rest d n)
    (ended (changes d (fun _ => decided userID status (or_default provider "sumsub") d))).
Proof.
  unfold SetKYCStatus, rest. destruct (String.eqb _ ""); [apply ended_same|]. destruct (enum _ _) eqn:V; [|apply ended_same]. cbn [negb].
  cbv zeta. apply wp_in_changes. apply wp_bind. unfold not_found, store_SetKYCStatus. apply wp_bind, wp_attempt.
  apply wp_bind, (wp_update_free freelancers_t); [intros; by apply wp_throw, closing_same|]. cbn [rows freelancers_t].
  apply wp_bind.
  apply (wp_insert_in kyc_records_t (fun d l r => first_violation [unique_index "kyc_records_pkey" (fun x y => String.eqb (ky_id x) (ky_id y)) l r;
                                 a_user "kyc_records_user_id_fkey" userID d])
    (fun _ s => mkKYCRecord (fresh s) userID (or_default provider "sumsub") ref status
                (if reviewed status then Some (to_timestamptz (now s)) else None) (to_timestamptz (now s)))); [intros; by apply wp_throw, closing_same|intros; by apply wp_throw, closing_same|].
  intros _. apply wp_ret, wp_ret, wp_bind, wp_Enqueue; [by auto with tables|]. apply wp_commit_change. split; [done|].
  exists (mkKYCRecord (gen_uuid ev (S (S n))) userID (or_default provider "sumsub") ref status
    (if reviewed status then Some (to_timestamptz (clock ev n)) else None) (to_timestamptz (clock ev n))), (clock ev n).
  by repeat split.
Qed.
End Outcomes.

(** ** Calls and reachable tables *)

Inductive user_op :=
| UsFreelancer (i : FreelancerProfileInput)
| UsClient (i : ClientProfileInput)
| UsAddSkill (userID skillID level : string) (years : option spec_float)
| UsSetSkills (userID : string) (skillIDs : list string) (level : string)
| UsPortfolio (userID title description url : string) (imageKeys skills : option (list string))
| UsDevice (userID fingerprint displayName : string) (attestationPubkey : list Z)
| UsKYC (userID status provider providerRef : string).

(** Whose call it is, or whom it decides about. *)
Definition subject_of (o : user_op) : string :=
  match o with
  | UsFreelancer i => fi_UserID i
  | UsClient i => ci_UserID i
  | UsAddSkill u _ _ _ | UsSetSkills u _ _ | UsPortfolio u _ _ _ _ _ | UsDevice u _ _ _ | UsKYC u _ _ _ => u
  end.

Section Reachable.
Context `{Numeric41}.

Definition user_run (o : user_op) : uprog unit :=
  match o with
  | UsFreelancer i => UpsertFreelancerProfile i ;;; ret tt
  | UsClient i => UpsertClientProfile i ;;; ret tt
  | UsAddSkill u sid level years => AddFreelancerSkill u sid level years
  | UsSetSkills u sids level => SetFreelancerSkills u sids level
  | UsPortfolio u title desc url keys ids => AddPortfolioItem u title desc url keys ids ;;; ret tt
  | UsDevice u fingerprint name key => RegisterDevice u fingerprint name key ;;; ret tt
  | UsKYC u status provider ref => SetKYCStatus u status provider ref
  end.

Definition user_after (o : user_op) (ev : env) (d : user_db) (n : nat) : user_db := committed (snd (user_run o ev (rest d n))).

Definition user_change (o : user_op) (d d' : user_db) : Prop :=
  match o with
  | UsFreelancer i => exists p, profiled (with_defaults i) p d d'
  | UsClient i => exists p, client_profiled i p d d'
  | UsAddSkill u sid level _ => enum validExperience (or_default level "intermediate") = true /\
      skilled u sid (or_default level "intermediate") d d'
  | UsSetSkills u sids level => enum validExperience (or_default level "intermediate") = true /\
      reskilled u sids (or_default level "intermediate") d d'
  | UsPortfolio u title _ _ _ _ => exists it, displayed u title it d d'
  | UsDevice u fingerprint _ key => exists dev, u <> "" /\ length key = 32%nat /\ enrolled u fingerprint key dev d d'
  | UsKYC u status provider _ => decided u status (or_default provider "sumsub") d d'
  end.

Lemma user_op_changes o ev d n : user_after o ev d n = d \/ user_change o d (user_after o ev d n).
Proof.
  unfold user_after.
  destruct o as [i|i|u sid level years|u sids level|u title desc url keys ids|u fp name key|u status provider ref];
    cbn [user_run user_change]; rewrite ?dropped_answer.
  - exact (ended_changed _ _ _ _ _ (UpsertFreelancerProfile_changes i ev d n)).
  - exact (ended_changed _ _ _ _ _ (UpsertClientProfile_changes i ev d n)).
  - destruct (ended_changed _ _ _ _ _ (AddFreelancerSkill_changes u sid level years ev d n)) as [?|([] & ?)]; auto.
  - destruct (ended_changed _ _ _ _ _ (SetFreelancerSkills_changes u sids level ev d n)) as [?|([] & ?)]; auto.
  - exact (ended_changed _ _ _ _ _ (AddPortfolioItem_changes u title desc url keys ids ev d n)).
  - exact (ended_changed _ _ _ _ _ (RegisterDevice_changes u fp name key ev d n)).
  - destruct (ended_changed _ _ _ _ _ (SetKYCStatus_changes u status provider ref ev d n)) as [?|([] & ?)]; auto.
Qed.

Inductive user_step (d : user_db) : user_db -> Prop :=
| uss_call o ev n : user_step d (user_after o ev d n).

(** Users and skills are there from the start. *)
Definition no_profiles (users : list string) (skills : list SkillRow) : user_db :=
  mkUserDb users skills [] [] [] [] [] [] [].

Definition user_reachable (users : list string) (skills : list SkillRow) (d : user_db) : Prop :=
  rtc user_step (no_profiles users skills) d.

(** ** The invariant *)

(** The KYC provider reported the status. *)
Definition reported (userID status : string) (l : list KYCRecord) : Prop :=
  exists k, In k l /\ ky_user_id k = userID /\ ky_status k = status.

Definition sound_profile (l : list KYCRecord) (p : FreelancerProfile) : Prop :=
  0 <= fp_ProfileCompleteness p <= 100 /\
  (fp_KYCStatus p = "not_started" \/ reported (fp_UserID p) (fp_KYCStatus p) l) /\
  (fp_IsSearchable p = true -> 60 <= fp_ProfileCompleteness p /\ reported (fp_UserID p) "verified" l).

Definition sound_device (r : Device) : Prop :=
  de_Kind r = deviceKindTracker /\ exists key, de_AttestationPubkey r = Some key /\ length key = 32%nat.

Definition sound_level (d : user_db) (r : SkillLevel) : Prop :=
  enum validExperience (sl_level r) = true /\ In (sl_user_id r) (map fp_UserID (freelancers d)) /\
  In (sl_skill_id r) (map sk_id (skill_rows d)).

Record user_inv (d : user_db) : Prop := {
  ui_freelancers : List.NoDup (map fp_UserID (freelancers d));
  ui_users : forall u, In u (map fp_UserID (freelancers d)) -> In u (user_ids d);
  ui_profiles : Forall (sound_profile (kyc_records d)) (freelancers d);
  ui_pairs : List.NoDup (map sl_pk (skill_levels d));
  ui_levels : Forall (sound_level d) (skill_levels d);
  ui_keys : List.NoDup (map de_pk (devices d));
  ui_devices : Forall sound_device (devices d)
}.

Lemma user_inv_start users skills : user_inv (no_profiles users skills).
Proof. constructor; cbn; try constructor; by intros ? []. Qed.

Lemma filled_bounds i : 0 <= filled i <= 6.
Proof. unfold filled. cbn [sumZ]. repeat case_match; lia. Qed.

Lemma completeness_bounds i : 0 <= completeness_of i <= 100.
Proof. pose proof (filled_bounds i). unfold completeness_of, completenessFields. Z.to_euclidean_division_equations. lia. Qed.

Lemma reported_more userID status l k : reported userID status l -> reported userID status (l ++ k).
Proof. intros (r & Hr & E). exists r. split; [|done]. apply in_app_iff. by left. Qed.

Lemma sound_more p l k : sound_profile l p -> sound_profile (l ++ k) p.
Proof.
  intros (H1 & H2 & H3). split; [done|]. split.
  - destruct H2 as [?|?]; [by left|right; by apply reported_more].
  - intros HS. destruct (H3 HS) as [? ?]. split; [done|by apply reported_more].
Qed.

Lemma kyc_verified u d : Forall (sound_profile (kyc_records d)) (freelancers d) -> kyc_of u d = "verified" ->
  reported u "verified" (kyc_records d).
Proof.
  intros HF HK. unfold kyc_of in HK. destruct (List.find _ _) as [p|] eqn:F; [|done].
  apply find_key_In in F as [Hp E]. rewrite List.Forall_forall in HF. destruct (HF p Hp) as (_ & HR & _).
  rewrite HK, E in HR. by destruct HR.
Qed.

Lemma referable_In u sid d : referable u sid d -> In u (map fp_UserID (freelancers d)) /\ In sid (map sk_id (skill_rows d)).
Proof.
  unfold referable, skill_refs. intros F%first_violation_None. apply Forall_cons_1 in F as [F1 [F2 _]%Forall_cons_1].
  unfold a_freelancer, a_skill, references in *.
  destruct (existsb (has_key fp_UserID u) (freelancers d)) eqn:X1; [|done]. destruct (existsb (has_key sk_id sid) (skill_rows d)) eqn:X2; [|done].
  apply existsb_exists in X1 as (r1 & H1 & <-%has_key_true). apply existsb_exists in X2 as (r2 & H2 & <-%has_key_true).
  split; by apply in_map.
Qed.

Lemma sound_level_same d d' r : map fp_UserID (freelancers d') = map fp_UserID (freelancers d) -> skill_rows d' = skill_rows d ->
  sound_level d r -> sound_level d' r.
Proof. unfold sound_level. by intros -> ->. Qed.

Lemma with_level_keys u level sid l : List.NoDup (map sl_pk l) -> List.NoDup (map sl_pk (with_level u level sid l)).
Proof.
  unfold with_level. destruct (existsb _ l) eqn:X; [done|]. intros HN. rewrite map_app. apply List.NoDup_app; [done|repeat constructor; by intros []|].
  intros x Hx [<-|[]]. apply in_map_iff in Hx as (r & E & Hr). apply not_true_iff_false in X. apply X, existsb_exists.
  exists r. split; [done|]. by apply bool_decide_eq_true.
Qed.

Lemma with_level_In u level sid l r : In r (with_level u level sid l) -> In r l \/ r = mkSkillLevel u sid level None.
Proof. unfold with_level. destruct (existsb _ l); [by left|]. intros [?|[<-|[]]]%in_app_iff; auto. Qed.

Lemma with_levels_inv (P : SkillLevel -> Prop) u level sids l : List.NoDup (map sl_pk l) -> Forall P l ->
  Forall (fun sid => P (mkSkillLevel u sid level None)) sids ->
  List.NoDup (map sl_pk (with_levels u level sids l)) /\ Forall P (with_levels u level sids l).
Proof.
  unfold with_levels. intros HN HP HS. revert l HN HP. induction HS as [|sid sids Hsid _ IH]; intros l HN HP; [done|]. cbn [fold_left].
  apply IH; [by apply with_level_keys|]. apply List.Forall_forall. rewrite List.Forall_forall in HP.
  intros r [Hr|Hr]%with_level_In; [by apply HP|by subst].
Qed.

Lemma NoDup_select {R K} (key : R -> K) p l : List.NoDup (map key l) -> List.NoDup (map key (select_rows p l)).
Proof.
  induction l as [|x l IH]; [done|]. cbn [map select_rows List.filter]. intros [Hn HN]%List.NoDup_cons_iff. destruct (p x); [|by apply IH].
  cbn [map]. constructor; [|by apply IH]. intros (y & E & [Hy _]%List.filter_In)%in_map_iff. apply Hn. rewrite <- E. by apply in_map.
Qed.

Lemma user_inv_profiled i p d d' : profiled i p d d' -> user_inv d -> user_inv d'.
Proof.
  intros (currency & country & t & _ & _ & HU & _ & ->) [I1 I2 I3 I4 I5 I6 I7]. set (new := new_profile i currency country t d).
  pose proof (completeness_bounds i) as HC.
  assert (forall o, In o (freelancers d) -> fp_UserID o = fi_UserID i -> fp_IsSearchable new = true ->
    60 <= completeness_of i /\ reported (fi_UserID i) "verified" (kyc_records d)) as HS0.
  { intros o _ _ HS. cbn in HS. unfold searchable in HS. apply andb_true_iff in HS as [HL HK%String.eqb_eq]. split; [by apply Z.leb_le|].
    exact (kyc_verified (fi_UserID i) d I3 HK). }
  assert (sound_profile (kyc_records d) new) as Hnew.
  { split; [exact HC|]. split; [by left|]. intros HS. cbn in HS. unfold searchable in HS. apply andb_true_iff in HS as [HL HK%String.eqb_eq].
    split; [by apply Z.leb_le|]. exact (kyc_verified (fi_UserID i) d I3 HK). }
  assert (forall u, In u (map fp_UserID (upserted fp_UserID new (refreshed new) (freelancers d))) <->
    u = fi_UserID i \/ In u (map fp_UserID (freelancers d))) as HK by (intros u; by apply (upserted_keys fp_UserID new (refreshed new) (freelancers d) u)).
  constructor; cbn [put user_HasOutbox freelancers_t freelancers user_ids kyc_records skill_levels devices skill_rows]; try done.
  - by apply upserted_NoDup.
  - intros u [->|Hu]%HK; [done|by apply I2].
  - apply List.Forall_forall. rewrite List.Forall_forall in I3. intros r [[Hr _]|[(o & Ho & E & ->)| ->]]%upserted_In; [by apply I3| |done].
    destruct (I3 o Ho) as (_ & HR & _). split; [exact HC|]. split; [exact HR|]. intros HS.
    cbn [refreshed fp_UserID fp_ProfileCompleteness fp_IsSearchable] in *. rewrite E. by apply (HS0 o).
  - eapply List.Forall_impl; [|exact I5]. intros r (V & Hu & Hs). split; [done|]. split; [|done]. apply HK. by right.
Qed.

Lemma user_inv_change o d d' : user_change o d d' -> user_inv d -> user_inv d'.
Proof.
  destruct o as [i|i|u sid level years|u sids level|u title desc url keys ids|u fp name key|u status provider ref]; cbn [user_change].
  - intros (p & Hp). by apply (user_inv_profiled _ _ _ _ Hp).
  - intros (p & country & t & _ & _ & ->) [I1 I2 I3 I4 I5 I6 I7]. by constructor.
  - intros (V & HR & tenths & ->) [I1 I2 I3 I4 I5 I6 I7]. apply referable_In in HR as [H1 H2]. constructor; try done.
    + by apply upserted_NoDup.
    + cbn [put skill_levels_t skill_levels]. set (new := mkSkillLevel _ _ _ _). apply List.Forall_forall. rewrite List.Forall_forall in I5.
      intros r [[Hr _]|[(o & Ho & E & ->)| ->]]%upserted_In; [by apply I5| |by split].
      injection E as E1 E2. split; [done|]. cbn. by rewrite E1, E2.
  - intros (V & -> & HR) [I1 I2 I3 I4 I5 I6 I7].
    destruct (with_levels_inv (sound_level d) u (or_default level "intermediate") sids (others_levels u (skill_levels d))) as [HN HS].
    + by apply NoDup_select.
    + apply List.Forall_forall. rewrite List.Forall_forall in I5. intros r [Hr _]%List.filter_In. by apply I5.
    + eapply List.Forall_impl; [|exact HR]. intros sid [H1 H2]%referable_In. by split.
    + by constructor.
  - intros (it & _ & _ & _ & ->) [I1 I2 I3 I4 I5 I6 I7]. by constructor.
  - intros (dev & _ & HL & id & nm & t & _ & ->) [I1 I2 I3 I4 I5 I6 I7]. constructor; try done.
    + by apply upserted_NoDup.
    + cbn [put devices_t devices]. apply upserted_Forall; [done|..]; [|intros r _]; (split; [done|]); by exists key.
  - intros (_ & k & t & Ek & Es & _ & ->) [I1 I2 I3 I4 I5 I6 I7].
    assert (map fp_UserID (update_where (has_key fp_UserID u) (checked status t) (freelancers d)) = map fp_UserID (freelancers d)) as EM
      by by apply map_key_update.
    constructor; cbn [put user_HasOutbox kyc_records_t freelancers_t freelancers user_ids kyc_records skill_levels devices]; rewrite ?EM; try done.
    + apply List.Forall_forall. rewrite List.Forall_forall in I3.
      intros r [[Hr _]|(o & Ho & HK%has_key_true & ->)]%In_update; [by apply sound_more, I3|].
      destruct (sound_more o _ [k] (I3 o Ho)) as (HC & _ & HS). split; [exact HC|]. split; [|exact HS].
      right. exists k. split; [apply in_app_iff; right; by left|]. cbn. by rewrite Ek, HK.
    + eapply List.Forall_impl; [|exact I5]. intros r. by apply sound_level_same.
Qed.

Lemma user_reachable_inv users skills d : user_reachable users skills d -> user_inv d.
Proof.
  intros R. unfold user_reachable in R. remember (no_profiles users skills) as d0 eqn:E.
  assert (user_inv d0) as HI by (subst; apply user_inv_start). clear E.
  induction R as [d|d1 d2 d3 S _ IH]; [done|]. apply IH. destruct S as [o ev n].
  destruct (user_op_changes o ev d1 n) as [->|Hc]; [done|]. by eapply user_inv_change.
Qed.

(** C25: Searchable profiles were verified. In every reachable database a user
    has at most one freelancer profile; its completeness is a percentage; a
    profile is searchable only if it is complete to 60 percent or more and KYC
    reported its user as verified; its KYC status is one that was reported, unless
    none was; and skills are those of profiles and of the catalogue. *)
Theorem searchable_profiles_were_verified users skills d : user_reachable users skills d ->
  List.NoDup (map fp_UserID (freelancers d)) /\ Forall (sound_profile (kyc_records d)) (freelancers d) /\
  List.NoDup (map sl_pk (skill_levels d)) /\ Forall (sound_level d) (skill_levels d).
Proof. intros [I1 I2 I3 I4 I5 I6 I7]%user_reachable_inv. by repeat split. Qed.

(** Tracker devices have a key of the right size. In every reachable
    database a device is a desktop tracker with an attestation key of 32 bytes,
    and a user has one per fingerprint. *)
Theorem tracker_keys_have_their_size users skills d : user_reachable users skills d ->
  Forall sound_device (devices d) /\ List.NoDup (map de_pk (devices d)).
Proof. intros [I1 I2 I3 I4 I5 I6 I7]%user_reachable_inv. by split. Qed.
End Reachable.

(** ** Replacing skills *)

(** The distinct ids, in the order they come. *)
Definition add_first (l : list string) (s : string) : list string := if existsb (String.eqb s) l then l else l ++ [s].
Definition firsts (sids : list string) : list string := fold_left add_first sids [].

Definition level_row (u level sid : string) : SkillLevel := mkSkillLevel u sid level None.

Lemma with_levels_others u level sids o l : (forall r, In r o -> sl_user_id r <> u) ->
  with_levels u level sids (o ++ map (level_row u level) l) = o ++ map (level_row u level) (fold_left add_first sids l).
Proof.
  intros Ho. revert l. induction sids as [|sid sids IH]; intros l; [done|]. unfold with_levels. cbn [fold_left].
  assert (with_level u level sid (o ++ map (level_row u level) l) = o ++ map (level_row u level) (add_first l sid)) as ->; [|apply IH].
  unfold with_level, add_first. rewrite existsb_app.
  assert (existsb (fun r => bool_decide (sl_pk r = (u, sid))) o = false) as ->.
  { apply not_true_iff_false. intros (r & Hr & E%bool_decide_eq_true)%existsb_exists. apply (Ho r Hr). by injection E. }
  assert (existsb (fun r => bool_decide (sl_pk r = (u, sid))) (map (level_row u level) l) = existsb (String.eqb sid) l) as ->.
  { induction l as [|x l IHl]; [done|]. cbn [map existsb]. rewrite IHl. f_equal. unfold sl_pk, level_row. cbn.
    destruct (String.eqb_spec sid x) as [->|NE]; [by rewrite bool_decide_eq_true_2|]. rewrite bool_decide_eq_false_2; [done|congruence]. }
  cbn [orb]. destruct (existsb _ l); [done|]. by rewrite map_app, app_assoc.
Qed.

Lemma select_level_rows u level l : select_rows (has_key sl_user_id u) (map (level_row u level) l) = map (level_row u level) l.
Proof.
  unfold select_rows. induction l as [|x l IH]; [done|]. cbn [map List.filter]. unfold has_key at 1. cbn. by rewrite String.eqb_refl, IH.
Qed.

(** What [SetFreelancerSkills] leaves. *)
Definition replaced (u : string) (sids : list string) (level : string) (d d' : user_db) : Prop :=
  select_rows (has_key sl_user_id u) (skill_levels d') = map (level_row u (or_default level "intermediate")) (firsts sids) /\
  others_levels u (skill_levels d') = others_levels u (skill_levels d) /\
  (freelancers d', clients d', portfolio d', devices d', kyc_records d') = (freelancers d, clients d, portfolio d, devices d, kyc_records d).

Lemma reskilled_replaced u sids level d d' : reskilled u sids (or_default level "intermediate") d d' -> replaced u sids level d d'.
Proof.
  intros [-> _]. unfold replaced. cbn [put skill_levels_t skill_levels freelancers clients portfolio devices kyc_records].
  assert (forall r, In r (others_levels u (skill_levels d)) -> sl_user_id r <> u) as Ho.
  { intros r [_ Hr]%List.filter_In. by apply negb_true_iff, has_key_false in Hr. }
  pose proof (with_levels_others u (or_default level "intermediate") sids (others_levels u (skill_levels d)) [] Ho) as E.
  cbn [map] in E. rewrite app_nil_r in E. rewrite E. fold (firsts sids).
  assert (select_rows (has_key sl_user_id u) (others_levels u (skill_levels d)) = []) as E1.
  { apply select_none. intros r Hr. apply has_key_false. by apply Ho. }
  assert (others_levels u (map (level_row u (or_default level "intermediate")) (firsts sids)) = []) as E2.
  { apply select_none. intros r (x & <- & _)%in_map_iff. unfold has_key. cbn. by rewrite String.eqb_refl. }
  assert (others_levels u (others_levels u (skill_levels d)) = others_levels u (skill_levels d)) as E3.
  { apply filter_all. intros r [_ Hr]%List.filter_In. done. }
  split; [|split; [|done]].
  - unfold select_rows in *. rewrite List.filter_app, E1. apply select_level_rows.
  - unfold others_levels, select_rows in *. by rewrite List.filter_app, E2, E3, app_nil_r.
Qed.

(** Setting skills replaces them. When it succeeds the user has exactly the
    skills of the request, each once, in its order and at the level, whatever he
    had before; other users keep theirs. When it fails nothing changed, unless the
    answer to the commit was lost. *)
Theorem skills_are_replaced u sids level ev d n :
  let a := SetFreelancerSkills u sids level ev (rest d n) in
  match fst a with
  | Ok _ => replaced u sids level d (committed (snd a))
  | Err _ => committed (snd a) = d \/ replaced u sids level d (committed (snd a))
  end.
Proof.
  intros a. pose proof (SetFreelancerSkills_changes u sids level ev d n) as [_ HC]. fold a in HC. destruct (fst a); cbn [changes] in HC.
  - destruct HC as [_ HC]. by apply reskilled_replaced.
  - destruct HC as [?|(? & _ & ?)]; [by left|right; by apply reskilled_replaced].
Qed.

(** ** REST transport *)

Definition opt_int := field (into_opt as_int64) None.

Definition decode_freelancerProfileReq (o : list (string * json)) : option (string -> FreelancerProfileInput) :=
  obind (str_field "headline" o) (fun headline =>
  obind (str_field "bio" o) (fun bio =>
  obind (opt_int "hourly_rate_cents" o) (fun rate =>
  obind (str_field "currency" o) (fun currency =>
  obind (str_field "experience" o) (fun experience =>
  obind (opt_int "availability_hours_per_week" o) (fun hours =>
  obind (str_field "timezone" o) (fun tz =>
  obind (str_field "country" o) (fun country =>
    Some (fun u => mkFreelancerProfileInput u headline bio rate currency experience hours tz country))))))))).

Definition decode_clientProfileReq (o : list (string * json)) : option (string -> ClientProfileInput) :=
  obind (str_field "company_name" o) (fun name =>
  obind (str_field "website" o) (fun website =>
  obind (str_field "industry" o) (fun industry =>
  obind (str_field "company_size" o) (fun size =>
  obind (str_field "country" o) (fun country => Some (fun u => mkClientProfileInput u name website industry size country)))))).

Definition decode_setSkillsReq (o : list (string * json)) : option (option (list string) * string) :=
  obind (field (into_slice "" as_string) None "skill_ids" o) (fun sids =>
  obind (str_field "level" o) (fun level => Some (sids, level))).

Record portfolioReq := mkPortfolioReq {
  pr_Title : string;
  pr_Description : string;
  pr_URL : string;
  pr_ImageKeys : option (list string);
  pr_Skills : option (list string)
}.

Definition decode_portfolioReq (o : list (string * json)) : option portfolioReq :=
  obind (str_field "title" o) (fun title =>
  obind (str_field "description" o) (fun desc =>
  obind (str_field "url" o) (fun url =>
  obind (field (into_slice "" as_string) None "image_keys" o) (fun keys =>
  obind (field (into_slice "" as_string) None "skills" o) (fun skills => Some (mkPortfolioReq title desc url keys skills)))))).

Record kycReq := mkKycReq { kr_Status : string; kr_Provider : string; kr_ProviderRef : string }.

Definition decode_kycReq (o : list (string * json)) : option kycReq :=
  obind (str_field "status" o) (fun st =>
  obind (str_field "provider" o) (fun provider =>
  obind (str_field "provider_ref" o) (fun ref => Some (mkKycReq st provider ref)))).

Record registerDeviceReq := mkRegisterDeviceReq { rd_Fingerprint : string; rd_DisplayName : string; rd_AttestationPubkey : string }.

Definition decode_registerDeviceReq (o : list (string * json)) : option registerDeviceReq :=
  obind (str_field "fingerprint" o) (fun fp =>
  obind (str_field "display_name" o) (fun name =>
  obind (str_field "attestation_pubkey" o) (fun key => Some (mkRegisterDeviceReq fp name key)))).

Definition jrfc (t : Z) : json := JStr (format_rfc3339 t).

Definition freelancerProfileJSON (p : FreelancerProfile) : json :=
  JObj [("user_id", JStr (fp_UserID p)); ("headline", JStr (fp_Headline p)); ("bio", JStr (fp_Bio p));
        ("hourly_rate_cents", jopt JInt (fp_HourlyRateCents p)); ("currency", JStr (fp_Currency p));
        ("experience", JStr (fp_Experience p)); ("availability_hours_per_week", jopt JInt (fp_AvailabilityHoursWeek p));
        ("timezone", JStr (fp_Timezone p)); ("country", JStr (fp_Country p)); ("kyc_status", JStr (fp_KYCStatus p));
        ("rating_avg", JFloat (literal (fp_RatingAvg p) 100)); ("rating_count", JInt (fp_RatingCount p));
        ("total_earned_cents", JInt (fp_TotalEarnedCents p)); ("jobs_completed", JInt (fp_JobsCompleted p));
        ("profile_completeness", JInt (fp_ProfileCompleteness p)); ("is_searchable", JBool (fp_IsSearchable p));
        ("created_at", jrfc (fp_CreatedAt p)); ("updated_at", jrfc (fp_UpdatedAt p))].

Definition clientProfileJSON (p : ClientProfile) : json :=
  JObj [("user_id", JStr (cp_UserID p)); ("company_name", JStr (cp_CompanyName p)); ("website", JStr (cp_Website p));
        ("industry", JStr (cp_Industry p)); ("company_size", JStr (cp_CompanySize p)); ("country", JStr (cp_Country p));
        ("payment_verified", JBool (cp_PaymentVerified p)); ("total_spent_cents", JInt (cp_TotalSpentCents p));
        ("hires_count", JInt (cp_HiresCount p)); ("rating_avg", JFloat (literal (cp_RatingAvg p) 100));
        ("rating_count", JInt (cp_RatingCount p)); ("created_at", jrfc (cp_CreatedAt p)); ("updated_at", jrfc (cp_UpdatedAt p))].

Definition skillJSON (s : FreelancerSkill) : json :=
  JObj [("skill_id", JStr (ss_SkillID s)); ("slug", JStr (ss_Slug s)); ("name", JStr (ss_Name s));
        ("category", JStr (ss_Category s)); ("level", JStr (ss_Level s)); ("years", jopt (fun y => JFloat (literal y 10)) (ss_Years s))].

Definition portfolioJSON (it : PortfolioItem) : json :=
  JObj [("id", JStr (po_ID it)); ("user_id", JStr (po_UserID it)); ("title", JStr (po_Title it));
        ("description", JStr (po_Description it)); ("url", JStr (po_URL it)); ("image_keys", JList (map JStr (po_ImageKeys it)));
        ("skills", JList (map JStr (po_Skills it))); ("created_at", jrfc (po_CreatedAt it))].

Definition device_fields (r : Device) : list (string * json) :=
  [("device_id", JStr (de_ID r)); ("fingerprint", JStr (de_Fingerprint r)); ("kind", JStr (de_Kind r));
   ("display_name", JStr (default "" (de_DisplayName r)));
   ("attestation_pubkey", JStr (encode_std (default [] (de_AttestationPubkey r)))); ("trusted", JBool (de_Trusted r));
   ("last_seen_at", jopt jrfc (de_LastSeenAt r)); ("created_at", jrfc (de_CreatedAt r))].

Definition deviceJSON (r : Device) : json := JObj (device_fields r).

Definition mapError (e : err user_err) : response :=
  match e with
  | Dom ErrNotFound => writeErr 404 "NOT_FOUND" "resource not found"
  | Dom ErrValidation => writeErr 400 "VALIDATION_FAILED" "request failed validation"
  | Dom ErrKYCNotAllowed => writeErr 400 "INVALID_KYC_STATUS" "unknown kyc status"
  | Dom store_ErrNotFound | Db _ => writeErr 500 "INTERNAL" "something went wrong"
  end.

(** The header with the permissions is not read. *)
Definition principal (r : request) : Principal :=
  mkPrincipal (header r "X-User-Id") (listed (header r "X-User-Roles")) [] (header r "X-Account-Type").

Definition missing_identity : response := writeErr 401 "UNAUTHORIZED" "missing identity".

Section Api.
Context `{Collation}.

Definition upsertFreelancerProfile (r : request) : uprog response :=
  let p := principal r in
  if String.eqb (UserID p) "" then ret missing_identity else
  req <-? Http.decode decode_freelancerProfileReq r ;;
  prof <-? or_mapped mapError (UpsertFreelancerProfile (req (UserID p))) ;;
  ret (writeJSON 200 (freelancerProfileJSON prof)).

Definition getFreelancerProfile (r : request) : uprog response :=
  prof <-? or_mapped mapError (GetFreelancerProfile (urlParam r "userID")) ;;
  ret (writeJSON 200 (freelancerProfileJSON prof)).

Definition upsertClientProfile (r : request) : uprog response :=
  let p := principal r in
  if String.eqb (UserID p) "" then ret missing_identity else
  req <-? Http.decode decode_clientProfileReq r ;;
  prof <-? or_mapped mapError (UpsertClientProfile (req (UserID p))) ;;
  ret (writeJSON 200 (clientProfileJSON prof)).

Definition getClientProfile (r : request) : uprog response :=
  prof <-? or_mapped mapError (GetClientProfile (urlParam r "userID")) ;;
  ret (writeJSON 200 (clientProfileJSON prof)).

Definition listSkills (r : request) : uprog response :=
  l <-? or_mapped mapError (ListFreelancerSkills (urlParam r "userID")) ;;
  ret (writeJSON 200 (JObj [("skills", JList (map skillJSON l))])).

Definition setSkills (r : request) : uprog response :=
  let p := principal r in
  let userID := urlParam r "userID" in
  if String.eqb (UserID p) "" || negb (String.eqb (UserID p) userID)
  then ret (writeErr 403 "FORBIDDEN" "can only edit your own skills") else
  req <-? Http.decode decode_setSkillsReq r ;;
  _ <-? or_mapped mapError (SetFreelancerSkills userID (default [] (fst req)) (snd req)) ;;
  ret (writeJSON 200 (JObj [("success", JBool true); ("count", JInt (Z.of_nat (length (default [] (fst req)))))])).

Definition addPortfolio (r : request) : uprog response :=
  let p := principal r in
  let userID := urlParam r "userID" in
  if String.eqb (UserID p) "" || negb (String.eqb (UserID p) userID)
  then ret (writeErr 403 "FORBIDDEN" "can only edit your own portfolio") else
  req <-? Http.decode decode_portfolioReq r ;;
  it <-? or_mapped mapError (AddPortfolioItem userID (pr_Title req) (pr_Description req) (pr_URL req) (pr_ImageKeys req) (pr_Skills req)) ;;
  ret (writeJSON 201 (portfolioJSON it)).

Definition listPortfolio (r : request) : uprog response :=
  l <-? or_mapped mapError (ListPortfolioItems (urlParam r "userID")) ;;
  ret (writeJSON 200 (JObj [("items", JList (map portfolioJSON l))])).

Definition setKYCStatus (r : request) : uprog response :=
  let p := principal r in
  if String.eqb (UserID p) "" then ret missing_identity else
  let internal := negb (String.eqb (header r "X-Internal-Service") "") in
  if negb internal && negb (Can p "user:kyc_update")
  then ret (writeErr 403 "FORBIDDEN" "not permitted to update KYC status") else
  let userID := urlParam r "userID" in
  if negb internal && String.eqb (UserID p) userID then ret (writeErr 403 "FORBIDDEN" "cannot verify your own KYC") else
  req <-? Http.decode decode_kycReq r ;;
  _ <-? or_mapped mapError (SetKYCStatus userID (kr_Status req) (kr_Provider req) (kr_ProviderRef req)) ;;
  ret (writeJSON 200 (JObj [("success", JBool true); ("status", JStr (kr_Status req))])).

Definition registerDevice (r : request) : uprog response :=
  let p := principal r in
  if String.eqb (UserID p) "" then ret missing_identity else
  req <-? Http.decode decode_registerDeviceReq r ;;
  if String.eqb (rd_Fingerprint req) "" || String.eqb (rd_AttestationPubkey req) ""
  then ret (writeErr 400 "VALIDATION_FAILED" "fingerprint and attestation_pubkey are required") else
  match DecodeString (rd_AttestationPubkey req) with
  | None => ret (writeErr 400 "VALIDATION_FAILED" "attestation_pubkey must be base64")
  | Some pubkey =>
      dev <-? or_mapped mapError (RegisterDevice (UserID p) (rd_Fingerprint req) (rd_DisplayName req) pubkey) ;;
      ret (writeJSON 200 (JObj [("device_id", JStr (de_ID dev))]))
  end.

Definition listDevices (r : request) : uprog response :=
  let p := principal r in
  if String.eqb (UserID p) "" then ret missing_identity else
  l <-? or_mapped mapError (ListDevices (UserID p)) ;;
  ret (writeJSON 200 (JObj [("devices", JList (map deviceJSON l))])).

Definition checkPermission (r : request) : uprog response :=
  let perm := query r "permission" in
  if String.eqb perm "" then ret (writeErr 400 "VALIDATION_FAILED" "permission query param required") else
  ret (writeJSON 200 (JObj [("allowed", JBool (CheckPermission (principal r) perm))])).

Inductive user_route :=
| PutFreelancerR | GetFreelancerR | PutClientR | GetClientR | SkillsR | SetSkillsR | AddPortfolioR | PortfolioR
| KycR | RegisterDeviceR | DevicesR | CheckR | HealthR.

Definition serve (x : user_route) (r : request) : uprog response :=
  match x with
  | PutFreelancerR => upsertFreelancerProfile r
  | GetFreelancerR => getFreelancerProfile r
  | PutClientR => upsertClientProfile r
  | GetClientR => getClientProfile r
  | SkillsR => listSkills r
  | SetSkillsR => setSkills r
  | AddPortfolioR => addPortfolio r
  | PortfolioR => listPortfolio r
  | KycR => setKYCStatus r
  | RegisterDeviceR => registerDevice r
  | DevicesR => listDevices r
  | CheckR => checkPermission r
  | HealthR => ret (Response 200 JNull)
  end.

Definition after_route (x : user_route) (r : request) (ev : env) (d : user_db) (n : nat) : user_db :=
  committed (snd (serve x r ev (rest d n))).

(** ** Whose rows change *)

Definition rows_of (v : string) (d : user_db) :=
  (select_rows (has_key fp_UserID v) (freelancers d), select_rows (has_key cp_UserID v) (clients d),
   select_rows (has_key sl_user_id v) (skill_levels d), select_rows (has_key po_UserID v) (portfolio d),
   select_rows (has_key de_UserID v) (devices d), select_rows (has_key ky_user_id v) (kyc_records d)).

Lemma has_key_other {R} (k : R -> string) v u r : v <> u -> k r = u -> has_key k v r = false.
Proof. intros NE <-. apply has_key_false. congruence. Qed.

Lemma select_snoc {R} (p : R -> bool) l x : p x = false -> select_rows p (l ++ [x]) = select_rows p l.
Proof. intros Hx. unfold select_rows. rewrite List.filter_app. cbn. by rewrite Hx, app_nil_r. Qed.

Lemma others_of v u l : v <> u -> select_rows (has_key sl_user_id v) (others_levels u l) = select_rows (has_key sl_user_id v) l.
Proof.
  intros NE. unfold others_levels, select_rows. induction l as [|x l IH]; [done|]. cbn [List.filter].
  destruct (has_key sl_user_id u x) eqn:U; cbn [negb].
  - apply has_key_true in U. by rewrite (has_key_other sl_user_id v u x NE U).
  - cbn [List.filter]. by rewrite IH.
Qed.

Context `{Numeric41}.

Lemma change_other o d d' v : user_change o d d' -> v <> subject_of o -> rows_of v d' = rows_of v d.
Proof.
  intros Hc NE. unfold rows_of.
  destruct o as [i|i|u sid level years|u sids level|u title desc url keys ids|u fp name key|u status provider ref];
    cbn [user_change subject_of] in *.
  - destruct Hc as (p & currency & country & t & _ & _ & _ & _ & ->). cbn [put user_HasOutbox freelancers_t freelancers].
    rewrite (upserted_spares fp_UserID); [done|by apply (has_key_other fp_UserID v (fi_UserID i))|].
    intros r E. split; by apply (has_key_other fp_UserID v (fi_UserID i)).
  - destruct Hc as (p & country & t & _ & _ & ->). cbn [put user_HasOutbox clients_t clients].
    rewrite (upserted_spares cp_UserID); [done|by apply (has_key_other cp_UserID v (ci_UserID i))|].
    intros r E. split; by apply (has_key_other cp_UserID v (ci_UserID i)).
  - destruct Hc as (_ & _ & tenths & ->). cbn [put skill_levels_t skill_levels].
    rewrite (upserted_spares sl_pk); [done|by apply (has_key_other sl_user_id v u)|].
    intros r E. injection E as E _. split; by apply (has_key_other sl_user_id v u).
  - destruct Hc as (_ & (HR & HO & HE)%reskilled_replaced). injection HE as -> -> -> -> ->.
    by rewrite <- (others_of v u (skill_levels d')), HO, (others_of v u) by done.
  - destruct Hc as (it & <- & _ & _ & ->). cbn [put portfolio_t portfolio]. rewrite select_snoc; [done|by apply (has_key_other po_UserID v (po_UserID it))].
  - destruct Hc as (dev & _ & _ & id & nm & t & _ & ->). cbn [put devices_t devices].
    rewrite (upserted_spares de_pk); [done|by apply (has_key_other de_UserID v u)|].
    intros r E. injection E as E _. split; by apply (has_key_other de_UserID v u).
  - destruct Hc as (_ & k & t & Ek & _ & _ & ->). cbn [put user_HasOutbox kyc_records_t freelancers_t freelancers kyc_records].
    rewrite select_snoc by by apply (has_key_other ky_user_id v u). rewrite select_update_other; [done|].
    intros r E%has_key_true. split; by apply (has_key_other fp_UserID v u).
Qed.

(** A request makes no call, or one of the caller about himself, or sets a KYC
    status under the header of an internal service. *)
Definition routed (x : user_route) (r : request) (ev : env) (d : user_db) (n : nat) (d' : user_db) : Prop :=
  d' = d \/ exists o, d' = user_after o ev d n /\
    match x with
    | KycR => header r "X-Internal-Service" <> "" /\ header r "X-User-Id" <> ""
    | _ => subject_of o = header r "X-User-Id"
    end.

Lemma user_route_call x r ev d n : routed x r ev d n (after_route x r ev d n).
Proof.
  unfold after_route. set (P := routed x r ev d n).
  assert (P d) as HP0 by by left.
  assert (wp (serve x r) ev (rest d n) (fun _ w => P (committed w))) as HW; [|exact HW].
  destruct x; cbn [serve].
  - unfold upsertFreelancerProfile. cbv zeta. destruct (String.eqb _ ""); [by apply wp_ret|].
    apply wp_bind_ok, wp_decode; [done|]. intros o req _ Hreq. apply wp_service; [|intros; by apply wp_ret]. right.
    exists (UsFreelancer (req (header r "X-User-Id"))). split; [symmetry; apply dropped_answer|].
    unfold decode_freelancerProfileReq, obind in Hreq. repeat case_match; try done. by injection Hreq as <-.
  - unfold getFreelancerProfile, GetFreelancerProfile, not_found, store_GetFreelancerProfile. apply wp_service; [|intros; by apply wp_ret].
    apply wp_bind, wp_attempt, wp_bind, (wp_pool_read _ (List.find (has_key fp_UserID (urlParam r "userID")) (freelancers d)));
      [done|intros _; by apply wp_throw|].
    destruct (List.find _ _); [by apply wp_ret, wp_ret|by apply wp_throw, wp_throw].
  - unfold upsertClientProfile. cbv zeta. destruct (String.eqb _ ""); [by apply wp_ret|].
    apply wp_bind_ok, wp_decode; [done|]. intros o req _ Hreq. apply wp_service; [|intros; by apply wp_ret]. right.
    exists (UsClient (req (header r "X-User-Id"))). split; [symmetry; apply dropped_answer|].
    unfold decode_clientProfileReq, obind in Hreq. repeat case_match; try done. by injection Hreq as <-.
  - unfold getClientProfile, GetClientProfile, not_found, store_GetClientProfile. apply wp_service; [|intros; by apply wp_ret].
    apply wp_bind, wp_attempt, wp_bind, (wp_pool_read _ (List.find (has_key cp_UserID (urlParam r "userID")) (clients d)));
      [done|intros _; by apply wp_throw|].
    destruct (List.find _ _); [by apply wp_ret, wp_ret|by apply wp_throw, wp_throw].
  - unfold listSkills. apply wp_service; [|intros; by apply wp_ret]. apply wp_exec_pool. by repeat split.
  - unfold setSkills. cbv zeta. change (UserID (principal r)) with (header r "X-User-Id").
    destruct (String.eqb (header r "X-User-Id") ""); [by apply wp_ret|]. cbn [orb].
    destruct (String.eqb_spec (header r "X-User-Id") (urlParam r "userID")) as [E|]; [|by apply wp_ret]. cbn [negb].
    apply wp_bind_ok, wp_decode; [done|]. intros o req _ _. apply wp_service; [|intros; by apply wp_ret]. right.
    by exists (UsSetSkills (urlParam r "userID") (default [] (fst req)) (snd req)).
  - unfold addPortfolio. cbv zeta. change (UserID (principal r)) with (header r "X-User-Id").
    destruct (String.eqb (header r "X-User-Id") ""); [by apply wp_ret|]. cbn [orb].
    destruct (String.eqb_spec (header r "X-User-Id") (urlParam r "userID")) as [E|]; [|by apply wp_ret]. cbn [negb].
    apply wp_bind_ok, wp_decode; [done|]. intros o req _ _. apply wp_service; [|intros; by apply wp_ret]. right.
    exists (UsPortfolio (urlParam r "userID") (pr_Title req) (pr_Description req) (pr_URL req) (pr_ImageKeys req) (pr_Skills req)).
    split; [symmetry; apply dropped_answer|done].
  - unfold listPortfolio. apply wp_service; [|intros; by apply wp_ret]. apply wp_exec_pool. by repeat split.
  - unfold setKYCStatus. cbv zeta. change (UserID (principal r)) with (header r "X-User-Id").
    destruct (String.eqb_spec (header r "X-User-Id") "") as [|NU]; [by apply wp_ret|].
    destruct (String.eqb_spec (header r "X-Internal-Service") "") as [|NI]; [by apply wp_ret|]. cbn [negb andb].
    apply wp_bind_ok, wp_decode; [done|]. intros o req _ _. apply wp_service; [|intros; by apply wp_ret]. right.
    by exists (UsKYC (urlParam r "userID") (kr_Status req) (kr_Provider req) (kr_ProviderRef req)).
  - unfold registerDevice. cbv zeta. destruct (String.eqb _ ""); [by apply wp_ret|].
    apply wp_bind_ok, wp_decode; [done|]. intros o req _ _. destruct (_ || _); [by apply wp_ret|].
    destruct (DecodeString _) as [key|]; [|by apply wp_ret]. apply wp_service; [|intros; by apply wp_ret]. right.
    exists (UsDevice (header r "X-User-Id") (rd_Fingerprint req) (rd_DisplayName req) key).
    split; [symmetry; apply dropped_answer|done].
  - unfold listDevices, ListDevices. cbv zeta. destruct (String.eqb _ ""); [by apply wp_ret|].
    apply wp_service; [|intros; by apply wp_ret]. apply wp_exec_pool. by repeat split.
  - unfold checkPermission. cbv zeta. by destruct (String.eqb _ ""); apply wp_ret.
  - by apply wp_ret.
Qed.

(** Users change only their own rows. Whatever a request asks, the rows of
    other users than the caller stay as they are, except that a KYC status is set
    under the header of an internal service; without that header the route for
    KYC changes nothing at all. *)
Theorem users_change_their_own_rows x r ev d n v :
  (x = KycR -> header r "X-Internal-Service" = "") -> v <> header r "X-User-Id" ->
  rows_of v (after_route x r ev d n) = rows_of v d /\ (x = KycR -> after_route x r ev d n = d).
Proof.
  intros HI NE. destruct (user_route_call x r ev d n) as [->|(o & -> & Ho)]; [done|].
  assert (x <> KycR) as NK by (intros ->; by apply (proj1 Ho), HI).
  assert (subject_of o = header r "X-User-Id") as Hs by (destruct x; done). split; [|done].
  destruct (user_op_changes o ev d n) as [->|Hc]; [done|]. apply (change_other o _ _ v Hc). congruence.
Qed.

(** An enrolled key is listed as it was sent. When a device is registered
    with the base64 of a key, it is enrolled with that key, and a listing of the
    user's devices shows the same base64 text. *)
Theorem enrolled_keys_are_listed r ev d n o req key resp r' ev' n' resp' :
  members (body r) = Some o -> decode_registerDeviceReq o = Some req -> Forall is_byte key ->
  rd_AttestationPubkey req = encode_std key ->
  fst (serve RegisterDeviceR r ev (rest d n)) = Ok resp -> status resp = 200 ->
  header r' "X-User-Id" = header r "X-User-Id" ->
  fst (serve DevicesR r' ev' (rest (after_route RegisterDeviceR r ev d n) n')) = Ok resp' -> status resp' = 200 ->
  exists dev l, payload_of resp' = JObj [("devices", JList (map deviceJSON l))] /\ In dev l /\
    de_pk dev = (header r "X-User-Id", rd_Fingerprint req) /\ de_AttestationPubkey dev = Some key /\
    In ("attestation_pubkey", JStr (rd_AttestationPubkey req)) (device_fields dev).
Proof.
  intros HB HD HK HE HA HS HU HA' HS'.
  assert (exists dev, In dev (devices (after_route RegisterDeviceR r ev d n)) /\
    de_pk dev = (header r "X-User-Id", rd_Fingerprint req) /\ de_AttestationPubkey dev = Some key) as (dev & HIn & Hpk & Hkey).
  { assert (wp (serve RegisterDeviceR r) ev (rest d n) (fun a w => a = Ok resp -> exists dev, In dev (devices (committed w)) /\
      de_pk dev = (header r "X-User-Id", rd_Fingerprint req) /\ de_AttestationPubkey dev = Some key)) as HW; [|by apply HW].
    cbn [serve]. unfold registerDevice. cbv zeta. change (UserID (principal r)) with (header r "X-User-Id").
    destruct (String.eqb _ ""); [apply wp_ret; by intros [= <-]|].
    apply wp_bind_ok. unfold Http.decode. rewrite HB, HD. apply wp_ret.
    destruct (_ || _); [apply wp_ret; by intros [= <-]|]. rewrite HE, (DecodeString_encode _ HK).
    apply wp_bind_ok, wp_or_mapped. eapply wp_mono; [apply RegisterDevice_changes|]. intros [dev|e] w [_ Hc]; cbn [changes] in Hc.
    - destruct Hc as (_ & _ & id & name & t & _ & Ew). apply wp_ret. intros _. rewrite Ew. set (new := mkDevice _ _ _ _ _ _ _ _ _).
      cbn [put devices_t devices].
      pose proof (upserted_find de_pk new (reenrolled new) (devices d) (header r "X-User-Id", rd_Fingerprint req) ltac:(done)) as HF.
      rewrite bool_decide_eq_true_2 in HF by done. eexists. split; [exact (proj1 (List.find_some _ _ HF))|].
      pose proof (proj2 (List.find_some _ _ HF)) as E%bool_decide_eq_true. split; [exact E|].
      by destruct (List.find _ (devices d)).
    - intros [= <-]. by destruct e as [?|[]]. }
  assert (wp (serve DevicesR r') ev' (rest (after_route RegisterDeviceR r ev d n) n') (fun a _ => a = Ok resp' ->
    exists l, payload_of resp' = JObj [("devices", JList (map deviceJSON l))] /\ In dev l)) as HW.
  { cbn [serve]. unfold listDevices, ListDevices. cbv zeta. change (UserID (principal r')) with (header r' "X-User-Id").
    destruct (String.eqb _ ""); [apply wp_ret; by intros [= <-]|]. apply wp_bind_ok, wp_or_mapped. unfold store_ListDevices.
    pose (l := ordered_by (fun x y : Device => seen y <=? seen x)
      (select_rows (has_key de_UserID (header r' "X-User-Id")) (devices (after_route RegisterDeviceR r ev d n)))).
    apply (wp_pool_read _ l); [done|intros _ [= <-]; done|]. apply wp_ret. intros [= <-]. exists l. split; [done|].
    apply (Permutation.Permutation_in _ (Permutation.Permutation_sym (ordered_by_perm _ _))). apply List.filter_In. split; [exact HIn|].
    apply has_key_true. rewrite HU. by injection Hpk. }
  destruct (HW HA') as (l & HP & Hl). exists dev, l. do 4 (split; [done|]). unfold device_fields. rewrite Hkey, HE. cbn. tauto.
Qed.
End Api.

(** ** Demonstration *)

#[local] Instance plain_collation : Collation := fun _ _ => true.
#[local] Instance plain_tenths : Numeric41 := fun _ => Some 0.

Definition run_users (l : list (user_op * nat)) (d : user_db) : user_db :=
  fold_left (fun d x => user_after (fst x) quiet_env d (snd x)) l d.

Lemma run_users_steps l d : rtc user_step d (run_users l d).
Proof.
  revert d. induction l as [|[o n] l IH]; intros d; [constructor|].
  eapply rtc_l; [apply (uss_call d o quiet_env n)|apply IH].
Qed.

Definition demo_users : list string := ["ann"; "bob"].
Definition demo_skills : list SkillRow := [mkSkillRow "go" "golang" "Go" "engineering"; mkSkillRow "rs" "rust" "Rust" "engineering"].

Definition full_profile (u : string) : user_op :=
  UsFreelancer (mkFreelancerProfileInput u "Engineer" "Ten years" (Some 5000) "" "" (Some 30) "UTC" "DE").

Definition demo_key : list Z := map Z.of_nat (seq 0 32).

Definition staffed_demo : user_db :=
  run_users [(full_profile "ann", 0%nat); (UsKYC "ann" "verified" "" "ref", 10%nat); (full_profile "ann", 20%nat);
             (UsSetSkills "ann" ["go"; "rs"; "go"] "expert", 30%nat); (UsDevice "ann" "f1" "" demo_key, 50%nat)]
    (no_profiles demo_users demo_skills).

Lemma staffed_demo_reachable : user_reachable demo_users demo_skills staffed_demo.
Proof. apply run_users_steps. Qed.

Lemma searchable_profiles_were_verified_witness :
  map (fun p => (fp_ProfileCompleteness p, fp_KYCStatus p, fp_IsSearchable p)) (freelancers staffed_demo) = [(100, "verified", true)] /\
  map sl_pk (skill_levels staffed_demo) = [("ann", "go"); ("ann", "rs")] /\
  Forall (sound_profile (kyc_records staffed_demo)) (freelancers staffed_demo).
Proof.
  split; [vm_compute; reflexivity|]. split; [vm_compute; reflexivity|].
  exact (proj1 (proj2 (searchable_profiles_were_verified demo_users demo_skills staffed_demo staffed_demo_reachable))).
Defined.

Lemma tracker_keys_have_their_size_witness :
  map de_pk (devices staffed_demo) = [("ann", "f1")] /\ Forall sound_device (devices staffed_demo).
Proof.
  split; [vm_compute; reflexivity|].
  exact (proj1 (tracker_keys_have_their_size demo_users demo_skills staffed_demo staffed_demo_reachable)).
Defined.

Definition by_caller (u : string) (internal : bool) (b : json) : request :=
  Request (fun h => if String.eqb h "X-User-Id" then u
                    else if String.eqb h "X-Internal-Service" && internal then "kyc" else "")
    (fun _ => "bob") (fun _ => "") 0 (Some b) None.

Definition verdict : json := JObj [("status", JStr "verified")].

Lemma users_change_their_own_rows_witness :
  rows_of "bob" (after_route KycR (by_caller "ann" false verdict) quiet_env staffed_demo 60) = rows_of "bob" staffed_demo /\
  (KycR = KycR -> after_route KycR (by_caller "ann" false verdict) quiet_env staffed_demo 60 = staffed_demo).
Proof.
  exact (users_change_their_own_rows KycR (by_caller "ann" false verdict) quiet_env staffed_demo 60 "bob" (fun _ => eq_refl)
    ltac:(discriminate)).
Defined.

Definition enrolment : list (string * json) :=
  [("fingerprint", JStr "f2"); ("attestation_pubkey", JStr (encode_std demo_key))].

Definition answer_to (x : user_route) (r : request) (d : user_db) (n : nat) : response :=
  match fst (serve x r quiet_env (rest d n)) with Ok a => a | Err _ => Response 0 JNull end.

Lemma enrolled_keys_are_listed_witness :
  let r := by_caller "ann" false (JObj enrolment) in
  exists dev l, payload_of (answer_to DevicesR r (after_route RegisterDeviceR r quiet_env staffed_demo 60) 70) =
      JObj [("devices", JList (map deviceJSON l))] /\ In dev l /\ de_AttestationPubkey dev = Some demo_key.
Proof.
  intros r.
  destruct (enrolled_keys_are_listed r quiet_env staffed_demo 60 enrolment (mkRegisterDeviceReq "f2" "" (encode_std demo_key)) demo_key
    (answer_to RegisterDeviceR r staffed_demo 60) r quiet_env 70
    (answer_to DevicesR r (after_route RegisterDeviceR r quiet_env staffed_demo 60) 70))
    as (dev & l & HP & Hl & _ & HK & _);
    [reflexivity|vm_compute; reflexivity|apply List.Forall_forall; intros z (k & <- & Hk)%in_map_iff; apply in_seq in Hk; unfold is_byte; lia
    |reflexivity|vm_compute; reflexivity|vm_compute; reflexivity|reflexivity|vm_compute; reflexivity|vm_compute; reflexivity|].
  exists dev, l. split; [exact HP|]. split; [exact Hl|exact HK].
Defined.

(** The header of an internal service is all it takes to be verified. *)
Example own_verdict :
  map fp_KYCStatus (freelancers (after_route KycR (by_caller "bob" true verdict) quiet_env
    (run_users [(full_profile "bob", 0%nat)] (no_profiles demo_users demo_skills)) 10)) = ["verified"].
Proof. vm_compute. reflexivity. Qed.

(** A rejected freelancer stays searchable, and a verified one is not until he
    saves his profile again. *)
Example verdict_without_effect :
  map (fun p => (fp_KYCStatus p, fp_IsSearchable p)) (freelancers (run_users [(UsKYC "ann" "rejected" "" "", 60%nat)] staffed_demo))
    = [("rejected", true)] /\
  map (fun p => (fp_KYCStatus p, fp_IsSearchable p))
    (freelancers (run_users [(full_profile "bob", 0%nat); (UsKYC "bob" "verified" "" "", 10%nat)] (no_profiles demo_users demo_skills)))
    = [("verified", false)].
Proof. split; vm_compute; reflexivity. Qed.

(** A verdict that comes before the profile is lost. *)
Example early_verdict_lost :
  let d := run_users [(UsKYC "bob" "verified" "" "", 0%nat); (full_profile "bob", 10%nat)] (no_profiles demo_users demo_skills) in
  map ky_status (kyc_records d) = ["verified"] /\ map fp_KYCStatus (freelancers d) = ["not_started"].
Proof. split; vm_compute; reflexivity. Qed.

(** A portfolio item without images or skills is refused by the database. *)
Example bare_portfolio_item :
  fst (AddPortfolioItem "ann" "Logo" "" "" None None quiet_env (rest staffed_demo 60)) = Err (Db (NotNullViolation "image_keys")).
Proof. vm_compute. reflexivity. Qed.

(** An empty country comes back as two blanks. *)
Example blank_country :
  map fp_Country (freelancers (run_users [(UsFreelancer (mkFreelancerProfileInput "bob" "" "" None "" "" None "" ""), 0%nat)]
    (no_profiles demo_users demo_skills))) = ["  "].
Proof. vm_compute. reflexivity. Qed.

(** Nobody has a permission here: the transport does not read the header. *)
Example permissions_unread :
  let r := Request (fun h => if String.eqb h "X-User-Permissions" then "user:kyc_update, *" else "ann") (fun _ => "bob")
             (fun _ => "user:kyc_update") 0 (Some verdict) None in
  answer_to CheckR r staffed_demo 60 = writeJSON 200 (JObj [("allowed", JBool false)]).
Proof. vm_compute. reflexivity. Qed.
