(* ===== verification/AdminStore.v ===== *)
(** * Administration (services/admin/internal/store and services/admin/internal/service)

    Moderation of users, resolution of disputes and the two records of what
    admins do: admin_actions and the append-only audit_logs (migrations 000010
    and 000014).  Of users, disputes and screenshots, tables of other services,
    only the columns read or written here are kept. *)
From S2P Require Export Outbox Rbac Strings Sha256.

(** ** Row types *)

Record AdminAction := mkAdminAction {
  aa_ID : string;
  aa_AdminID : string;
  aa_Action : string;
  aa_TargetType : string;
  aa_TargetID : string;
  aa_Reason : option string;
  aa_Metadata : option string;
  aa_CreatedAt : Z
}.

Record AuditLog := mkAuditLog {
  al_ID : Z;
  al_OccurredAt : Z;
  al_ActorID : option string;
  al_ActorType : string;
  al_Action : string;
  al_ResourceType : string;
  al_ResourceID : option string;
  al_IP : option string;
  al_UserAgent : option string;
  al_Context : option string
}.

(** prev_hash stays NULL. *)
Record AuditRow := mkAuditRow { ar_log : AuditLog; ar_row_hash : list Z }.

Record Screenshot := mkScreenshot {
  sc_ID : string;
  sc_WorkSessionID : string;
  sc_UserID : string;
  sc_Status : string;
  sc_CapturedAt : Z;
  sc_S3Key : string
}.

Record UserRow := mkUserRow { us_id : string; us_status : string }.

Record DisputeRow := mkDisputeRow {
  dp_id : string;
  dp_status : string;
  dp_resolution_note : option string;
  dp_assigned_admin : option string;
  dp_resolved_at : option Z
}.

Record admin_db := mkAdminDb {
  user_rows : list UserRow;
  dispute_rows : list DisputeRow;
  screenshot_rows : list Screenshot;
  admin_actions : list AdminAction;
  audit_logs : list AuditRow;
  admin_outbox : list OutboxRow
}.

Definition user_rows_t : table admin_db UserRow :=
  Table user_rows (fun l d => mkAdminDb l (dispute_rows d) (screenshot_rows d) (admin_actions d) (audit_logs d) (admin_outbox d)).
Definition dispute_rows_t : table admin_db DisputeRow :=
  Table dispute_rows (fun l d => mkAdminDb (user_rows d) l (screenshot_rows d) (admin_actions d) (audit_logs d) (admin_outbox d)).
Definition admin_actions_t : table admin_db AdminAction :=
  Table admin_actions (fun l d => mkAdminDb (user_rows d) (dispute_rows d) (screenshot_rows d) l (audit_logs d) (admin_outbox d)).
Definition audit_logs_t : table admin_db AuditRow :=
  Table audit_logs (fun l d => mkAdminDb (user_rows d) (dispute_rows d) (screenshot_rows d) (admin_actions d) l (admin_outbox d)).
#[export] Instance admin_HasOutbox : HasOutbox admin_db :=
  Table admin_outbox (fun l d => mkAdminDb (user_rows d) (dispute_rows d) (screenshot_rows d) (admin_actions d) (audit_logs d) l).

#[export] Instance admin_Deferred : Deferred admin_db := fun _ _ => true.

(** The sentinels of the store, the service and rbac. *)
Inductive admin_err := ErrNotFound | ErrInvalidResolution | ErrForbidden.

Abbreviation aprog := (prog admin_db admin_err).

(** ** Records of what admins do *)

Definition action_row (id : string) (t : Z) (a : AdminAction) : AdminAction :=
  mkAdminAction id (aa_AdminID a) (aa_Action a) (aa_TargetType a) (aa_TargetID a) (aa_Reason a)
    (Some (default "{}" (aa_Metadata a))) (to_timestamptz t).

Definition InsertAdminAction (a : AdminAction) : aprog string :=
  r <- exec (fun s d =>
    insert_row admin_actions_t (fun _ _ => references "admin_actions_admin_id_fkey" (has_key us_id (aa_AdminID a)) (user_rows d))
      (fun s => action_row (fresh s) (now s) a) s d) ;;
  ret (aa_ID r).

(** The fields that are hashed, in order, and the context. *)
Definition audit_fields (l : AuditLog) : list string :=
  [al_ActorType l; default "" (al_ActorID l); al_Action l; al_ResourceType l; default "" (al_ResourceID l);
   default "" (al_IP l); default "" (al_UserAgent l)].

(** What is written to the hash. *)
Definition audit_bytes (l : AuditLog) : list Z :=
  flat_map (fun f => 30 :: bytes_of f) (audit_fields l) ++ 30 :: bytes_of (default "" (al_Context l)).

Definition auditRowHash (l : AuditLog) : list Z := sha256 (audit_bytes l).

(** The defaults that InsertAuditLog fills in. *)
Definition completed (l : AuditLog) : AuditLog :=
  mkAuditLog (al_ID l) (al_OccurredAt l) (al_ActorID l) (if String.eqb (al_ActorType l) "" then "user" else al_ActorType l)
    (al_Action l) (al_ResourceType l) (al_ResourceID l) (al_IP l) (al_UserAgent l) (Some (default "{}" (al_Context l))).

Section Inet.
Context `{PgInet}.

(** The stored row: identity, instant and address are the server's. *)
Definition audit_row (id t : Z) (l : AuditLog) : AuditRow :=
  mkAuditRow (mkAuditLog id (to_timestamptz t) (al_ActorID l) (al_ActorType l) (al_Action l) (al_ResourceType l)
    (al_ResourceID l) (option_map inet_host (al_IP l)) (al_UserAgent l) (al_Context l)) (auditRowHash l).

Definition next_audit (d : admin_db) : Z := next_id (fun r => al_ID (ar_log r)) (audit_logs d).

(** $6::inet *)
Definition inet_problem (ip : option string) : option dberr :=
  match ip with Some text => if inet_ok text then None else Some InvalidText | None => None end.

Definition InsertAuditLog (l : AuditLog) : aprog unit :=
  let l := completed l in
  exec (fun s d => insert_row audit_logs_t (fun _ _ => inet_problem (al_IP l))
                     (fun s => audit_row (next_audit d) (now s) l) s d) ;;;
  ret tt.

(** ** Tables of other services *)

Definition user_status : list string := ["pending"; "active"; "suspended"; "banned"; "deleted"].
Definition dispute_status : list string :=
  ["open"; "in_review"; "resolved_client"; "resolved_freelancer"; "split"; "cancelled"].

Definition with_status (status : string) (u : UserRow) : UserRow := mkUserRow (us_id u) status.

Definition SetUserStatus (userID status : string) : aprog bool :=
  l <- exec (update_rows user_rows_t (has_key us_id userID) (fun _ => with_status status)
         (fun u => if enum user_status (us_status u) then None else Some InvalidText)) ;;
  ret (length l =? 1)%nat.

Definition resolved (resolution : string) (note : option string) (adminID : string) (t : Z) (r : DisputeRow) : DisputeRow :=
  mkDisputeRow (dp_id r) resolution note (Some adminID) (Some (to_timestamptz t)).

Definition store_ResolveDispute (disputeID resolution : string) (note : option string) (adminID : string) : aprog bool :=
  l <- exec (fun s d =>
    update_rows dispute_rows_t (has_key dp_id disputeID) (fun s => resolved resolution note adminID (now s))
      (fun r => if enum dispute_status (dp_status r)
                then references "disputes_assigned_admin_fkey" (has_key us_id adminID) (user_rows d)
                else Some InvalidText) s d) ;;
  ret (length l =? 1)%nat.

Definition UserExists (userID : string) : aprog bool :=
  o <- exec (select_one user_rows_t (has_key us_id userID)) ;;
  ret match o with Some _ => true | None => false end.

(** ** Reads *)

(** An absent filter passes everything. *)
Definition passes (filter : option string) (x : option string) : bool :=
  match filter with
  | None => true
  | Some f => match x with Some x => String.eqb x f | None => false end
  end.

Record ScreenshotFilter := mkScreenshotFilter { sf_UserID : option string; sf_Status : option string; sf_Limit : Z }.

(** A negative LIMIT is an error. *)
Definition limited {A} (limit : Z) (l : list A) (d : admin_db) : reply admin_db (list A) :=
  if limit <? 0 then Reject Driver else Done (firstn (Z.to_nat limit) l) d.

(** The parameter of the status is text, by its first use ($2::text IS NULL), and
    the column is an enum: PostgreSQL has no operator for [status = $2] and
    fails the statement before it reads a row. *)
Definition ListScreenshots (f : ScreenshotFilter) : aprog (list Screenshot) :=
  exec_pool (fun _ d =>
    if negb (eq_operator EnumType TextType) then Reject Driver else
    limited (sf_Limit f)
      (rev (order_by sc_CapturedAt (List.filter (fun s => passes (sf_UserID f) (Some (sc_UserID s)) &&
                                                          passes (sf_Status f) (Some (sc_Status s))) (screenshot_rows d)))) d).

Definition ListAdminActions (limit : Z) : aprog (list AdminAction) :=
  exec_pool (fun _ d => limited limit (rev (order_by aa_CreatedAt (admin_actions d))) d).

Record AuditLogFilter := mkAuditLogFilter { af_ActorID : option string; af_Action : option string; af_Limit : Z }.

Definition ListAuditLogs (f : AuditLogFilter) : aprog (list AuditLog) :=
  exec_pool (fun _ d => limited (af_Limit f)
    (rev (order_by al_OccurredAt (List.filter (fun l => passes (af_ActorID f) (al_ActorID l) &&
                                                        passes (af_Action f) (Some (al_Action l))) (map ar_log (audit_logs d))))) d).

(** ** The service *)

Record AuditCtx := mkAuditCtx { ac_IP : option string; ac_UserAgent : option string }.

Definition nilIfEmpty (s : string) : option string := if String.eqb s "" then None else Some s.

Definition validResolutions : list string := ["resolved_client"; "resolved_freelancer"; "split"].

(** The action row and the audit row of an operation on a target. *)
Definition action_on (adminID action targetType target : string) (reason : option string) : AdminAction :=
  mkAdminAction "" adminID action targetType target reason None 0.

Definition audit_of (adminID action resourceType : string) (target : option string) (ac : AuditCtx) : AuditLog :=
  mkAuditLog 0 0 (Some adminID) "user" action resourceType target (ac_IP ac) (ac_UserAgent ac) None.

Definition moderation_event (eventType adminID target reason : string) : Event :=
  mkEvent "user" target eventType "admin.events" target
    (JObj [("user_id", JStr target); ("admin_id", JStr adminID); ("reason", JStr reason)]) None.

Definition moderateUser (adminID targetUserID reason : string) (ac : AuditCtx) (newStatus action eventType : string)
  (emit : bool) : aprog unit :=
  in_tx (
    exists_ <- UserExists targetUserID ;;
    if negb exists_ then fail ErrNotFound else
    SetUserStatus targetUserID newStatus ;;;
    InsertAdminAction (action_on adminID action "user" targetUserID (nilIfEmpty reason)) ;;;
    InsertAuditLog (audit_of adminID action "user" (Some targetUserID) ac) ;;;
    (if emit then Enqueue (moderation_event eventType adminID targetUserID reason) else ret tt) ;;;
    commit).

Definition SuspendUser (adminID targetUserID reason : string) (ac : AuditCtx) : aprog unit :=
  moderateUser adminID targetUserID reason ac "suspended" "user.suspend" "user.suspended" true.

Definition ReinstateUser (adminID targetUserID reason : string) (ac : AuditCtx) : aprog unit :=
  moderateUser adminID targetUserID reason ac "active" "user.reinstate" "" false.

Definition resolved_event (disputeID resolution : string) : Event :=
  mkEvent "dispute" disputeID "dispute.resolved" "admin.events" disputeID
    (JObj [("dispute_id", JStr disputeID); ("resolution", JStr resolution)]) None.

Definition ResolveDispute (adminID disputeID resolution note : string) (ac : AuditCtx) : aprog unit :=
  if negb (enum validResolutions resolution) then fail ErrInvalidResolution else
  in_tx (
    ok <- store_ResolveDispute disputeID resolution (nilIfEmpty note) adminID ;;
    if negb ok then fail ErrNotFound else
    InsertAdminAction (action_on adminID "dispute.resolve" "dispute" disputeID (nilIfEmpty note)) ;;;
    InsertAuditLog (audit_of adminID "dispute.resolve" "dispute" (Some disputeID) ac) ;;;
    Enqueue (resolved_event disputeID resolution) ;;;
    commit).

Definition clampLimit (n : Z) : Z := if n <=? 0 then 50 else if 500 <? n then 500 else n.

Definition ListScreenshotsForAudit (adminID : string) (f : ScreenshotFilter) (ac : AuditCtx) : aprog (list Screenshot) :=
  out <- ListScreenshots (mkScreenshotFilter (sf_UserID f) (sf_Status f) (clampLimit (sf_Limit f))) ;;
  in_tx (
    InsertAuditLog (audit_of adminID "screenshot.audit_list" "screenshot" None ac) ;;;
    commit ;;;
    ret out).

Definition service_ListAdminActions (limit : Z) : aprog (list AdminAction) := ListAdminActions (clampLimit limit).

Definition service_ListAuditLogs (f : AuditLogFilter) : aprog (list AuditLog) :=
  ListAuditLogs (mkAuditLogFilter (af_ActorID f) (af_Action f) (clampLimit (af_Limit f))).
End Inet.
