(* ===== verification/AdminProofs.v ===== *)
(** * Properties of administration

    What each operation promises, as a function of the tables, and that it
    keeps the promise; what the two records of reachable tables tell. *)
From stdpp Require Import relations.
From S2P Require Export AdminStore.

Section Spec.
Context `{PgInet}.
Implicit Types (d : admin_db) (s : draw).

(** ** Specification *)

Definition find_user (id : string) (d : admin_db) : option UserRow := List.find (has_key us_id id) (user_rows d).
Definition find_dispute (id : string) (d : admin_db) : option DisputeRow := List.find (has_key dp_id id) (dispute_rows d).

(** Both rows of one operation, with the instant of its transaction. *)
Definition recorded (s : draw) (a : AdminAction) (l : AuditLog) (d : admin_db) : admin_db :=
  put audit_logs_t (audit_logs d ++ [audit_row (next_audit d) (began s) (completed l)])
    (put admin_actions_t (admin_actions d ++ [action_row (ids s 0%nat) (began s) a]) d).

Definition announced (s : draw) (e : Event) (d : admin_db) : admin_db :=
  put admin_HasOutbox (enqueued (began s) e (admin_outbox d)) d.

Definition moderated (adminID target reason : string) (ac : AuditCtx) (status action eventType : string) (emit : bool)
  (s : draw) (d : admin_db) : admin_db :=
  let d := recorded s (action_on adminID action "user" target (nilIfEmpty reason))
             (audit_of adminID action "user" (Some target) ac)
             (put user_rows_t (update_where (has_key us_id target) (with_status status) (user_rows d)) d) in
  if emit then announced s (moderation_event eventType adminID target reason) d else d.

Definition settled (adminID disputeID resolution note : string) (ac : AuditCtx) (s : draw) (d : admin_db) : admin_db :=
  announced s (resolved_event disputeID resolution)
    (recorded s (action_on adminID "dispute.resolve" "dispute" disputeID (nilIfEmpty note))
       (audit_of adminID "dispute.resolve" "dispute" (Some disputeID) ac)
       (put dispute_rows_t (update_where (has_key dp_id disputeID)
          (resolved resolution (nilIfEmpty note) adminID (began s)) (dispute_rows d)) d)).

Definition moderate_spec (adminID target reason : string) (ac : AuditCtx) (status action eventType : string) (emit : bool)
  (d : admin_db) (s : draw) : unit * admin_db + err admin_err :=
  match find_user target d with
  | None => inr (Dom ErrNotFound)
  | Some _ =>
      match references "admin_actions_admin_id_fkey" (has_key us_id adminID) (user_rows d) with
      | Some e => inr (Db e)
      | None => match inet_problem (ac_IP ac) with
                | Some e => inr (Db e)
                | None => inl (tt, moderated adminID target reason ac status action eventType emit s d)
                end
      end
  end.

Definition resolve_spec (adminID disputeID resolution note : string) (ac : AuditCtx) (d : admin_db) (s : draw)
  : unit * admin_db + err admin_err :=
  if negb (enum validResolutions resolution) then inr (Dom ErrInvalidResolution) else
  match find_dispute disputeID d with
  | None => inr (Dom ErrNotFound)
  | Some _ =>
      match references "disputes_assigned_admin_fkey" (has_key us_id adminID) (user_rows d) with
      | Some e => inr (Db e)
      | None => match inet_problem (ac_IP ac) with
                | Some e => inr (Db e)
                | None => inl (tt, settled adminID disputeID resolution note ac s d)
                end
      end
  end.

(** ** The operations meet it *)

Lemma references_update {R} name (key : R -> string) k p f l :
  (forall r, key (f r) = key r) -> references name (has_key key k) (update_where p f l) = references name (has_key key k) l.
Proof.
  intros Hf. unfold references. assert (existsb (has_key key k) (update_where p f l) = existsb (has_key key k) l) as ->; [|done].
  unfold update_where. induction l as [|x l IH]; [done|]. cbn [map existsb]. rewrite IH. f_equal. unfold has_key.
  destruct (p x); by rewrite ?Hf.
Qed.

Lemma references_same {R} n1 n2 (p : R -> bool) l : references n1 p l = None -> references n2 p l = None.
Proof. unfold references. by destruct (existsb p l). Qed.

Lemma clampLimit_bounds n : 1 <= clampLimit n <= 500.
Proof. unfold clampLimit. destruct (Z.leb_spec n 0), (Z.ltb_spec 500 n); lia. Qed.

Lemma put_user_rows_id d : put user_rows_t (user_rows d) d = d.
Proof. by destruct d. Qed.

Lemma clamped_pos {A} n (l : list A) d : limited (clampLimit n) l d = Done (firstn (Z.to_nat (clampLimit n)) l) d.
Proof. unfold limited. pose proof (clampLimit_bounds n). by destruct (Z.ltb_spec (clampLimit n) 0); [lia|]. Qed.

Section Meets.
Context (ev : env) (d : admin_db) (n : nat) (HU : keyed us_id (user_rows d)) (HD : keyed dp_id (dispute_rows d)).

(** Both inserts, on tables whose user ids are those of [d]. *)
Lemma wp_records a l (k : aprog unit) spec v t m :
  (forall adm, references "admin_actions_admin_id_fkey" (has_key us_id adm) (user_rows v) =
    references "admin_actions_admin_id_fkey" (has_key us_id adm) (user_rows d)) ->
  (forall s e, references "admin_actions_admin_id_fkey" (has_key us_id (aa_AdminID a)) (user_rows d) = Some e ->
     spec s = inr (Db e)) ->
  (forall s e, references "admin_actions_admin_id_fkey" (has_key us_id (aa_AdminID a)) (user_rows d) = None ->
     inet_problem (al_IP l) = Some e -> spec s = inr (Db e)) ->
  (forall u, u = gen_uuid ev m ->
     references "admin_actions_admin_id_fkey" (has_key us_id (aa_AdminID a)) (user_rows d) = None ->
     inet_problem (al_IP l) = None ->
     wp k ev (World d (Live t (recorded (Draw t (fun _ => u)) a l v)) (S (S m))) (closing_as ev d spec)) ->
  wp (InsertAdminAction a ;;; InsertAuditLog l ;;; k) ev (World d (Live t v) m) (closing_as ev d spec).
Proof.
  intros HR He Hi Hs. unfold InsertAdminAction, InsertAuditLog. cbn [al_IP completed].
  wp_step. wp_step. apply wp_exec; [by apply closing_failed|]. unfold insert_row at 1. rewrite HR.
  destruct (references _ _ _) as [e|] eqn:RF; [by apply closing_error; [|intros s; by apply He]|].
  wp_step. wp_step. wp_step. wp_step; [by apply closing_failed|].
  unfold insert_row. destruct (inet_problem _) as [e|] eqn:IP; [by apply closing_error; [|intros s; by apply Hi]|]. wp_step. by apply Hs.
Qed.

Lemma moderate_meets adminID target reason ac status action eventType emit :
  enum user_status status = true ->
  wp (moderateUser adminID target reason ac status action eventType emit) ev (rest d n)
    (ended (settles ev d (moderate_spec adminID target reason ac status action eventType emit d))).
Proof.
  intros HS. unfold moderateUser, rest, UserExists, SetUserStatus. apply wp_in_settles.
  wp_step. wp_step. apply wp_select_one; [by apply closing_failed|]. wp_step.
  change (rows user_rows_t d) with (user_rows d). fold (find_user target d).
  destruct (find_user target d) as [u|] eqn:F; cbn [negb].
  2: { wp_step. apply closing_error; [done|]. intros s. unfold moderate_spec. by rewrite F. }
  wp_step. wp_step. apply (wp_update_key user_rows_t us_id); [done|by apply closing_failed| | |].
  { intros F'. unfold find_user in F. change (rows user_rows_t d) with (user_rows d) in F'. congruence. }
  { intros r e _. cbn [us_status with_status]. by rewrite HS. }
  intros r _ _. wp_step. apply wp_records; cbn [aa_AdminID action_on al_IP audit_of].
  - intros adm. apply references_update. done.
  - intros s e RF. unfold moderate_spec. by rewrite F, RF.
  - intros s e RF IP. unfold moderate_spec. by rewrite F, RF, IP.
  - intros u0 -> RF IP. set (sd := Draw _ _).
    assert (drawn ev sd) as Hd by (apply drawn_at; by eexists).
    assert (moderate_spec adminID target reason ac status action eventType emit d sd =
      inl (tt, moderated adminID target reason ac status action eventType emit sd d)) as Hs
      by (unfold moderate_spec; by rewrite F, RF, IP).
    destruct emit.
    + apply wp_bind, wp_Enqueue; [by apply closing_failed|]. by apply (wp_commit_last _ _ _ _ sd).
    + wp_step. wp_step. by apply (wp_commit_last _ _ _ _ sd).
Qed.

Lemma resolve_meets adminID disputeID resolution note ac :
  wp (ResolveDispute adminID disputeID resolution note ac) ev (rest d n)
    (ended (settles ev d (resolve_spec adminID disputeID resolution note ac d))).
Proof.
  unfold ResolveDispute, rest, store_ResolveDispute.
  destruct (enum validResolutions resolution) eqn:V; cbn [negb].
  2: { wp_step. apply ended_error. intros s. unfold resolve_spec. by rewrite V. }
  assert (enum dispute_status resolution = true) as HS.
  { unfold enum, validResolutions, dispute_status in *. cbn in *. repeat rewrite orb_true_iff in *. tauto. }
  apply wp_in_settles. wp_step. wp_step.
  apply wp_exec; [by apply closing_failed|]. rewrite (update_rows_key dispute_rows_t dp_id) by done.
  change (rows dispute_rows_t d) with (dispute_rows d). fold (find_dispute disputeID d).
  destruct (find_dispute disputeID d) as [r|] eqn:F.
  2: { wp_step. cbn. wp_step. apply closing_error; [done|]. intros s. unfold resolve_spec. by rewrite V, F. }
  cbn [dp_status resolved]. rewrite HS. destruct (references "disputes_assigned_admin_fkey" _ _) as [e|] eqn:RF.
  { apply closing_error; [done|]. intros s. unfold resolve_spec. by rewrite V, F, RF. }
  wp_step. cbn [length Nat.eqb negb]. apply wp_records; cbn [aa_AdminID action_on al_IP audit_of]; [done|..].
  - intros s e RF'. by rewrite (references_same _ "admin_actions_admin_id_fkey" _ _ RF) in RF'.
  - intros s e _ IP. unfold resolve_spec. by rewrite V, F, RF, IP.
  - intros u -> _ IP. set (sd := Draw _ _).
    assert (drawn ev sd) as Hd by (apply drawn_at; by eexists).
    apply wp_bind, wp_Enqueue; [by apply closing_failed|]. apply (wp_commit_last _ _ _ _ sd); [done| |done].
    unfold resolve_spec. by rewrite V, F, RF, IP.
Qed.

(** The listing of screenshots fails before it records anything. *)
Lemma look_meets {A} (k : list Screenshot -> aprog A) adminID f ac :
  wp (bind (ListScreenshotsForAudit adminID f ac) k) ev (rest d n) (ended (settles ev d (fun _ => inr (Db Driver)))).
Proof.
  unfold ListScreenshotsForAudit, ListScreenshots, rest. apply wp_bind, wp_bind, wp_no_operator.
  by apply ended_error.
Qed.
End Meets.

(** ** Calls and reachable tables *)

Inductive admin_op :=
| AdSuspend (adminID target reason : string) (ac : AuditCtx)
| AdReinstate (adminID target reason : string) (ac : AuditCtx)
| AdResolve (adminID disputeID resolution note : string) (ac : AuditCtx)
| AdLook (adminID : string) (f : ScreenshotFilter) (ac : AuditCtx).

Definition admin_run (o : admin_op) : aprog unit :=
  match o with
  | AdSuspend a t r ac => SuspendUser a t r ac
  | AdReinstate a t r ac => ReinstateUser a t r ac
  | AdResolve a x v note ac => ResolveDispute a x v note ac
  | AdLook a f ac => ListScreenshotsForAudit a f ac ;;; ret tt
  end.

Definition admin_spec (o : admin_op) (d : admin_db) (s : draw) : unit * admin_db + err admin_err :=
  match o with
  | AdSuspend a t r ac => moderate_spec a t r ac "suspended" "user.suspend" "user.suspended" true d s
  | AdReinstate a t r ac => moderate_spec a t r ac "active" "user.reinstate" "" false d s
  | AdResolve a x v note ac => resolve_spec a x v note ac d s
  | AdLook _ _ _ => inr (Db Driver)
  end.

Definition admin_after (o : admin_op) (ev : env) (d : admin_db) (n : nat) : admin_db :=
  committed (snd (admin_run o ev (rest d n))).

Lemma admin_op_meets o ev d n : keyed us_id (user_rows d) -> keyed dp_id (dispute_rows d) ->
  wp (admin_run o) ev (rest d n) (ended (settles ev d (admin_spec o d))).
Proof.
  intros HU HD. destruct o as [a t r ac|a t r ac|a x v note ac|a f ac]; cbn [admin_run].
  - by apply moderate_meets.
  - by apply moderate_meets.
  - by apply resolve_meets.
  - apply look_meets.
Qed.

(** Users register, disputes are raised, screenshots come and go in the other
    services. *)
Definition arrived (us : list UserRow) (ds : list DisputeRow) (shots : list Screenshot) (d : admin_db) : admin_db :=
  mkAdminDb (user_rows d ++ us) (dispute_rows d ++ ds) shots (admin_actions d) (audit_logs d) (admin_outbox d).

Inductive admin_step (d : admin_db) : admin_db -> Prop :=
| ads_call o ev n : admin_step d (admin_after o ev d n)
| ads_arrived us ds shots : keyed us_id (user_rows d ++ us) -> keyed dp_id (dispute_rows d ++ ds) ->
    admin_step d (arrived us ds shots d).

Definition no_admin : admin_db := mkAdminDb [] [] [] [] [] [].

Definition admin_reachable (d : admin_db) : Prop := rtc admin_step no_admin d.

(** ** What the records tell *)

(** Who did what to whom, and when. *)
Definition action_key (a : AdminAction) : option string * string * string * option string * Z :=
  (Some (aa_AdminID a), aa_Action a, aa_TargetType a, Some (aa_TargetID a), aa_CreatedAt a).

Definition audit_key (l : AuditLog) : option string * string * string * option string * Z :=
  (al_ActorID l, al_Action l, al_ResourceType l, al_ResourceID l, al_OccurredAt l).

(** The audit rows of operations; the others record views. *)
Definition operations (l : list AuditRow) : list AuditLog :=
  List.filter (fun x => negb (String.eqb (al_Action x) "screenshot.audit_list")) (map ar_log l).

(** The status an action gives its target. *)
Definition decision (a : AdminAction) : option string :=
  if String.eqb (aa_Action a) "user.suspend" then Some "suspended"
  else if String.eqb (aa_Action a) "user.reinstate" then Some "active" else None.

Definition or_before (acc o : option string) : option string := match o with Some x => Some x | None => acc end.

(** The last decision on a user. *)
Definition decided (id : string) (l : list AdminAction) : option string :=
  fold_left (fun acc a => if has_key aa_TargetID id a then or_before acc (decision a) else acc) l None.

(** What a dispute.resolved event rules on a dispute. *)
Definition ruling (id : string) (r : OutboxRow) : option string :=
  match event_type r, payload r with
  | "dispute.resolved", JObj [(_, JStr x); (_, JStr v)] => if String.eqb x id then Some v else None
  | _, _ => None
  end.

(** The last ruling on a dispute. *)
Definition ruled (id : string) (l : list OutboxRow) : option string :=
  fold_left (fun acc r => or_before acc (ruling id r)) l None.

(** The events that an action announces. *)
Definition announcement (a : AdminAction) : list (string * string) :=
  if String.eqb (aa_Action a) "user.suspend" then [("user.suspended", aa_TargetID a)]
  else if String.eqb (aa_Action a) "dispute.resolve" then [("dispute.resolved", aa_TargetID a)] else [].

Definition event_key (r : OutboxRow) : string * string := (event_type r, aggregate_id r).

(** The hash of a row is that of its content, with the address as it was given. *)
Definition intact (r : AuditRow) : Prop :=
  exists ip, al_IP (ar_log r) = option_map inet_host ip /\
    let l := ar_log r in
    ar_row_hash r = auditRowHash (mkAuditLog (al_ID l) (al_OccurredAt l) (al_ActorID l) (al_ActorType l) (al_Action l)
      (al_ResourceType l) (al_ResourceID l) ip (al_UserAgent l) (al_Context l)).

Definition audit_id (r : AuditRow) : Z := al_ID (ar_log r).

(** ** The invariant *)

Record admin_inv (d : admin_db) : Prop := {
  ai_users : keyed us_id (user_rows d);
  ai_disputes : keyed dp_id (dispute_rows d);
  ai_trail : map action_key (admin_actions d) = map audit_key (operations (audit_logs d));
  ai_events : map event_key (admin_outbox d) = flat_map announcement (admin_actions d);
  ai_status : forall u st, In u (user_rows d) -> decided (us_id u) (admin_actions d) = Some st -> us_status u = st;
  ai_targets : forall id, ~ In id (map us_id (user_rows d)) -> decided id (admin_actions d) = None;
  ai_verdict : forall r st, In r (dispute_rows d) -> ruled (dp_id r) (admin_outbox d) = Some st -> dp_status r = st;
  ai_ruled : forall id, ~ In id (map dp_id (dispute_rows d)) -> ruled id (admin_outbox d) = None;
  ai_ids : StronglySorted Z.lt (map audit_id (audit_logs d));
  ai_intact : Forall intact (audit_logs d)
}.

Lemma admin_inv_start : admin_inv no_admin.
Proof. constructor; try done; constructor. Qed.

Lemma decided_snoc id l a :
  decided id (l ++ [a]) = if has_key aa_TargetID id a then or_before (decided id l) (decision a) else decided id l.
Proof. unfold decided. by rewrite fold_left_app. Qed.

Lemma ruled_snoc id l r : ruled id (l ++ [r]) = or_before (ruled id l) (ruling id r).
Proof. unfold ruled. by rewrite fold_left_app. Qed.

Lemma operations_snoc l r :
  operations (l ++ [r]) = operations l ++ (if String.eqb (al_Action (ar_log r)) "screenshot.audit_list" then [] else [ar_log r]).
Proof.
  unfold operations. rewrite map_app, List.filter_app. f_equal. cbn. by destruct (String.eqb _ _).
Qed.

Lemma audit_row_intact id t l : intact (audit_row id t l).
Proof. exists (al_IP l). by split. Qed.

Lemma audit_ids_snoc t l logs : StronglySorted Z.lt (map audit_id logs) ->
  StronglySorted Z.lt (map audit_id (logs ++ [audit_row (next_id (fun r => al_ID (ar_log r)) logs) t l])).
Proof.
  intros HS. rewrite map_app. apply sorted_snoc; [done|]. intros x (r & <- & Hr)%in_map_iff.
  by apply (next_id_above (fun r => al_ID (ar_log r))).
Qed.


(** *** Preservation

    The parts of the invariant, for the tables an operation leaves. *)
Lemma recorded_trail id k t a l acts logs :
  String.eqb (al_Action l) "screenshot.audit_list" = false ->
  Some (aa_AdminID a) = al_ActorID l -> aa_Action a = al_Action l -> aa_TargetType a = al_ResourceType l ->
  Some (aa_TargetID a) = al_ResourceID l ->
  map action_key acts = map audit_key (operations logs) ->
  map action_key (acts ++ [action_row id t a]) = map audit_key (operations (logs ++ [audit_row k t (completed l)])).
Proof.
  intros HL E1 E2 E3 E4 HT. rewrite operations_snoc. cbn [audit_row ar_log al_Action completed]. rewrite HL, !map_app, HT.
  f_equal. cbn. unfold action_key, audit_key. cbn. by rewrite E1, E2, E3, E4.
Qed.

Lemma status_decided target st us l a :
  (forall u x, In u us -> decided (us_id u) l = Some x -> us_status u = x) ->
  aa_TargetID a = target -> decision a = Some st ->
  forall u x, In u (update_where (has_key us_id target) (with_status st) us) ->
    decided (us_id u) (l ++ [a]) = Some x -> us_status u = x.
Proof.
  intros HS ET ED u x Hu. rewrite decided_snoc, ED. unfold has_key at 1. rewrite ET. cbn [or_before].
  apply In_update in Hu as [[Hu Hk]|(u0 & Hu & Hk & ->)].
  - apply has_key_false in Hk. rewrite (proj2 (String.eqb_neq target (us_id u))) by congruence. by apply HS.
  - apply has_key_true in Hk. cbn [with_status us_id us_status]. rewrite Hk, String.eqb_refl. congruence.
Qed.

Lemma targets_decided target l a us :
  (forall id, ~ In id us -> decided id l = None) -> aa_TargetID a = target -> In target us ->
  forall id, ~ In id us -> decided id (l ++ [a]) = None.
Proof.
  intros HT ET Hin id Hid. rewrite decided_snoc. unfold has_key. rewrite ET.
  destruct (String.eqb_spec target id) as [->|]; [done|by apply HT].
Qed.

Lemma undecided_snoc id l a : decision a = None -> decided id (l ++ [a]) = decided id l.
Proof. intros E. rewrite decided_snoc, E. by destruct (has_key _ _ _). Qed.

Lemma map_us_id target st us : map us_id (update_where (has_key us_id target) (with_status st) us) = map us_id us.
Proof. by apply map_key_update. Qed.

Lemma find_user_In id d u : find_user id d = Some u -> In id (map us_id (user_rows d)).
Proof. intros [Hu <-]%find_key_In. by apply in_map. Qed.

Lemma admin_inv_suspended a t r ac s d u :
  find_user t d = Some u -> admin_inv d ->
  admin_inv (moderated a t r ac "suspended" "user.suspend" "user.suspended" true s d).
Proof.
  intros F [H1 H2 H3 H4 H5 H6 H7 H8 H9 H10].
  constructor; cbn [moderated announced recorded put user_rows_t admin_actions_t audit_logs_t admin_HasOutbox
    user_rows dispute_rows admin_actions audit_logs admin_outbox]; try done.
  - by apply keyed_update.
  - by apply recorded_trail.
  - unfold enqueued. rewrite flat_map_app, map_app, H4. done.
  - by apply (status_decided t).
  - intros id. rewrite map_us_id. apply (targets_decided t); [exact H6|done|by eapply find_user_In].
  - intros x st Hx. unfold enqueued. rewrite ruled_snoc. by apply H7.
  - intros id Hid. unfold enqueued. rewrite ruled_snoc. by apply H8.
  - by apply (audit_ids_snoc _ _ (audit_logs d)).
  - apply Forall_app. split; [done|]. constructor; [apply audit_row_intact|constructor].
Qed.

Lemma admin_inv_reinstated a t r ac s d u :
  find_user t d = Some u -> admin_inv d -> admin_inv (moderated a t r ac "active" "user.reinstate" "" false s d).
Proof.
  intros F [H1 H2 H3 H4 H5 H6 H7 H8 H9 H10].
  constructor; cbn [moderated announced recorded put user_rows_t admin_actions_t audit_logs_t
    user_rows dispute_rows admin_actions audit_logs admin_outbox]; try done.
  - by apply keyed_update.
  - by apply recorded_trail.
  - rewrite flat_map_app, app_nil_r. done.
  - by apply (status_decided t).
  - intros id. rewrite map_us_id. apply (targets_decided t); [exact H6|done|by eapply find_user_In].
  - by apply (audit_ids_snoc _ _ (audit_logs d)).
  - apply Forall_app. split; [done|]. constructor; [apply audit_row_intact|constructor].
Qed.

Lemma admin_inv_settled a x v note ac s d r :
  find_dispute x d = Some r -> admin_inv d -> admin_inv (settled a x v note ac s d).
Proof.
  intros F [H1 H2 H3 H4 H5 H6 H7 H8 H9 H10].
  assert (forall id l, ruled id (l ++ [mkOutbox (next_id o_id l) "dispute" x "dispute.resolved" "admin.events" x
    (JObj [("dispute_id", JStr x); ("resolution", JStr v)]) None (began s) None]) = if String.eqb x id then Some v else ruled id l) as Hr.
  { intros id l. rewrite ruled_snoc. cbn. by destruct (String.eqb x id). }
  constructor; cbn [settled announced recorded put dispute_rows_t admin_actions_t audit_logs_t admin_HasOutbox
    user_rows dispute_rows admin_actions audit_logs admin_outbox]; try done.
  - by apply keyed_update.
  - by apply recorded_trail.
  - unfold enqueued. rewrite flat_map_app, map_app, H4. done.
  - intros u st Hu. rewrite undecided_snoc by done. by apply H5.
  - intros id Hid. rewrite undecided_snoc by done. by apply H6.
  - intros y st Hy. unfold enqueued. cbn [resolved_event AggregateType AggregateID EventType Topic PartitionKey Payload Headers].
    rewrite Hr. apply In_update in Hy as [[Hy Hk]|(y0 & Hy & Hk & ->)].
    + apply has_key_false in Hk. rewrite (proj2 (String.eqb_neq _ _)) by congruence. by apply H7.
    + apply has_key_true in Hk. cbn [resolved dp_id dp_status]. rewrite Hk, String.eqb_refl. congruence.
  - intros id Hid. rewrite map_key_update in Hid by done. unfold enqueued.
    cbn [resolved_event AggregateType AggregateID EventType Topic PartitionKey Payload Headers]. rewrite Hr.
    destruct (String.eqb_spec x id) as [->|]; [|by apply H8].
    apply find_key_In in F as [F E]. destruct Hid. rewrite <- E. by apply in_map.
  - by apply (audit_ids_snoc _ _ (audit_logs d)).
  - apply Forall_app. split; [done|]. constructor; [apply audit_row_intact|constructor].
Qed.

Lemma admin_inv_arrived us ds shots d :
  keyed us_id (user_rows d ++ us) -> keyed dp_id (dispute_rows d ++ ds) -> admin_inv d -> admin_inv (arrived us ds shots d).
Proof.
  intros K1 K2 [H1 H2 H3 H4 H5 H6 H7 H8 H9 H10].
  assert (forall A (k : A -> string) l l' x, keyed k (l ++ l') -> In x l' -> ~ In (k x) (map k l)) as Hnew.
  { intros A k l l' x HK Hx Hin. unfold keyed in HK. rewrite map_app in HK.
    apply List.NoDup_app_remove_l in HK as HK2. revert HK Hin. generalize (map k l). intros m HK Hin.
    assert (In (k x) (map k l')) as Hy by by apply in_map. clear -HK Hin Hy.
    induction m as [|y m IH]; [done|]. apply List.NoDup_cons_iff in HK as [Hn HK]. destruct Hin as [->|Hin]; [|auto].
    apply Hn, in_app_iff. by right. }
  constructor; cbn [arrived user_rows dispute_rows admin_actions audit_logs admin_outbox]; try done.
  - intros u st [Hu|Hu]%in_app_iff; [by apply H5|]. by rewrite H6 by by eapply Hnew.
  - intros id Hid. apply H6. intros Hin. apply Hid. rewrite map_app. apply in_app_iff. by left.
  - intros r st [Hr|Hr]%in_app_iff; [by apply H7|]. by rewrite H8 by by eapply Hnew.
  - intros id Hid. apply H8. intros Hin. apply Hid. rewrite map_app. apply in_app_iff. by left.
Qed.

Lemma admin_inv_spec o d s d' : admin_spec o d s = inl (tt, d') -> admin_inv d -> admin_inv d'.
Proof.
  destruct o as [a t r ac|a t r ac|a x v note ac|a f ac]; cbn [admin_spec].
  - unfold moderate_spec. destruct (find_user t d) as [u|] eqn:F; [|done]. destruct (references _ _ _); [done|].
    destruct (inet_problem _); [done|]. intros [= <-]. by eapply admin_inv_suspended.
  - unfold moderate_spec. destruct (find_user t d) as [u|] eqn:F; [|done]. destruct (references _ _ _); [done|].
    destruct (inet_problem _); [done|]. intros [= <-]. by eapply admin_inv_reinstated.
  - unfold resolve_spec. destruct (negb _); [done|]. destruct (find_dispute x d) as [r|] eqn:F; [|done].
    destruct (references _ _ _); [done|]. destruct (inet_problem _); [done|]. intros [= <-]. by eapply admin_inv_settled.
  - done.
Qed.

(** A call leaves the tables alone, or takes effect as its specification says. *)
Lemma admin_call_outcome o ev d n : admin_inv d ->
  admin_after o ev d n = d \/ exists s, admin_spec o d s = inl (tt, admin_after o ev d n).
Proof.
  intros HI. destruct (admin_op_meets o ev d n (ai_users d HI) (ai_disputes d HI)) as [_ S].
  apply settles_changed in S as [S|(s & [] & S)]; [by left|right; by exists s].
Qed.

Lemma admin_inv_step d d' : admin_inv d -> admin_step d d' -> admin_inv d'.
Proof.
  intros HI. destruct 1 as [o ev n|us ds shots K1 K2]; [|by apply admin_inv_arrived].
  destruct (admin_call_outcome o ev d n HI) as [->|(s & S)]; [done|]. by eapply admin_inv_spec.
Qed.

Lemma admin_inv_steps d d' : rtc admin_step d d' -> admin_inv d -> admin_inv d'.
Proof. induction 1; eauto using admin_inv_step. Qed.

Lemma admin_reachable_inv d : admin_reachable d -> admin_inv d.
Proof. intros R. apply (admin_inv_steps _ _ R), admin_inv_start. Qed.

(** Every operation of the admin service, under any faults, closes its
    transaction and ends as its specification says: suspending and reinstating
    answer not found for an unknown user, resolving refuses a value that is no
    resolution and answers not found for an unknown dispute, the listing of
    screenshots always fails, an admin without an account and an address that is
    none are database errors; otherwise the status, both records and the event
    are written together, or nothing is. *)
Theorem admin_ops_meet_spec d o ev n :
  admin_reachable d -> wp (admin_run o) ev (rest d n) (ended (settles ev d (admin_spec o d))).
Proof. intros HR. destruct (admin_reachable_inv d HR). by apply admin_op_meets. Qed.

(** C32: Admins act on the record. In every reachable database the action rows
    and the audit rows of operations tell the same story: the same admins, the
    same actions, on the same targets, at the same instants, in the same order;
    the outbox announces exactly the suspensions and resolutions, in that order;
    and the state is what the records say: a user has the status of the last
    decision on him, a dispute that of the last ruling on it. *)
Theorem admin_acts_are_recorded d :
  admin_reachable d ->
  map action_key (admin_actions d) = map audit_key (operations (audit_logs d)) /\
  map event_key (admin_outbox d) = flat_map announcement (admin_actions d) /\
  (forall u st, In u (user_rows d) -> decided (us_id u) (admin_actions d) = Some st -> us_status u = st) /\
  (forall r st, In r (dispute_rows d) -> ruled (dp_id r) (admin_outbox d) = Some st -> dp_status r = st).
Proof. intros HR. by destruct (admin_reachable_inv d HR). Qed.

Lemma spec_appends o d s d' : admin_spec o d s = inl (tt, d') ->
  (exists l, admin_actions d' = admin_actions d ++ l) /\ exists r, audit_logs d' = audit_logs d ++ [r].
Proof.
  destruct o as [a t r ac|a t r ac|a x v note ac|a f ac]; cbn [admin_spec];
    unfold moderate_spec, resolve_spec; intros E; try done; repeat (case_match; try done); injection E as <-;
    (split; [eexists|by eexists]); try reflexivity; symmetry; apply app_nil_r.
Qed.

Lemma step_appends d d' : admin_inv d -> admin_step d d' ->
  (exists l, admin_actions d' = admin_actions d ++ l) /\ exists l, audit_logs d' = audit_logs d ++ l.
Proof.
  intros HI. assert (forall A (l : list A), exists l', l = l ++ l') as Hnil by (intros A l; exists []; by rewrite app_nil_r).
  destruct 1 as [o ev n|us ds shots _ _]; [|by split; apply Hnil].
  destruct (admin_call_outcome o ev d n HI) as [->|(s & S)]; [by split; apply Hnil|].
  destruct (spec_appends _ _ _ _ S) as [H1 (r & H2)]. split; [done|by exists [r]].
Qed.

(** The audit trail only grows. Whatever happens after a reachable state,
    its action rows and audit rows stay as they were, at the front; the
    identifiers of all rows increase; and every row carries the hash of its
    content. *)
Theorem audit_trail_only_grows d d' :
  admin_reachable d -> rtc admin_step d d' ->
  (exists l, admin_actions d' = admin_actions d ++ l) /\
  (exists l, audit_logs d' = audit_logs d ++ l) /\
  StronglySorted Z.lt (map audit_id (audit_logs d')) /\ Forall intact (audit_logs d').
Proof.
  intros HR HS. pose proof (admin_reachable_inv d HR) as HI. pose proof (admin_inv_steps _ _ HS HI) as HI'.
  assert ((exists l, admin_actions d' = admin_actions d ++ l) /\ (exists l, audit_logs d' = audit_logs d ++ l)) as [H1 H2].
  { clear HI' HR. induction HS as [d|d1 d2 d3 S _ IH]; [split; exists []; by rewrite app_nil_r|].
    destruct (IH (admin_inv_step _ _ HI S)) as [(l1 & ->) (l2 & ->)].
    destruct (step_appends _ _ HI S) as [(k1 & ->) (k2 & ->)]. rewrite <- !app_assoc. split; by eexists. }
  destruct HI'. auto.
Qed.
End Spec.

(** ** The hash tells the fields apart *)

(** The bytes up to the next separator. *)
Fixpoint until_sep (b : list Z) : list Z * list Z :=
  match b with
  | [] => ([], [])
  | x :: b' => if x =? 30 then ([], b) else let '(f, r) := until_sep b' in (x :: f, r)
  end.

(** [n] framed fields and the framed rest. *)
Fixpoint unframe (n : nat) (b : list Z) : option (list (list Z) * list Z) :=
  match b with
  | [] => None
  | x :: b' =>
      if negb (x =? 30) then None else
      match n with
      | O => Some ([], b')
      | S n' => let '(f, r) := until_sep b' in
                match unframe n' r with Some (fs, c) => Some (f :: fs, c) | None => None end
      end
  end.

Lemma until_sep_app f r : ~ In 30 f -> until_sep (f ++ 30 :: r) = (f, 30 :: r).
Proof.
  induction f as [|x f IH]; [done|]. intros Hn. cbn [app until_sep].
  destruct (Z.eqb_spec x 30) as [->|]; [destruct Hn; by left|]. rewrite IH; [done|]. intros Hf. apply Hn. by right.
Qed.

Lemma unframe_frame fs c : Forall (fun f => ~ In 30 (bytes_of f)) fs ->
  unframe (length fs) (flat_map (fun f => 30 :: bytes_of f) fs ++ 30 :: c) = Some (map bytes_of fs, c).
Proof.
  induction 1 as [|f fs Hf _ IH]; [done|]. cbn [flat_map length app unframe negb Z.eqb Pos.eqb].
  rewrite <- app_assoc. assert (exists r, flat_map (fun f => 30 :: bytes_of f) fs ++ 30 :: c = 30 :: r) as (r & E).
  { destruct fs; by eexists. }
  rewrite E in *. rewrite until_sep_app by done. by rewrite IH.
Qed.

(** What is hashed of an audit row determines it. Unless a field contains
    the separator byte, the seven fields and the context are read back from the
    bytes that auditRowHash hashes; so rows that differ in a field have different
    pre-images. *)
Theorem audit_bytes_roundtrip l :
  (forall f, In f (audit_fields l) -> ~ In 30 (bytes_of f)) ->
  unframe 7 (audit_bytes l) = Some (map bytes_of (audit_fields l), bytes_of (default "" (al_Context l))).
Proof. intros Hf. apply (unframe_frame (audit_fields l)). by apply List.Forall_forall. Qed.

Definition demo_log : AuditLog :=
  mkAuditLog 0 0 (Some "root") "user" "user.suspend" "user" (Some "bob") (Some "10.0.0.1") (Some "curl") None.

Lemma audit_bytes_roundtrip_witness :
  unframe 7 (audit_bytes demo_log) = Some (map bytes_of ["user"; "root"; "user.suspend"; "user"; "bob"; "10.0.0.1"; "curl"], []).
Proof.
  apply (audit_bytes_roundtrip demo_log). intros f Hf. cbn in Hf.
  repeat (destruct Hf as [<-|Hf]; [cbn; intros Hi; repeat (destruct Hi as [Hi|Hi]; [discriminate|]); destruct Hi|]). destruct Hf.
Defined.

(** A field that contains the separator passes for two. *)
Example separator_in_a_field :
  let sep := String "030" "" in
  let x := mkAuditLog 0 0 None "a" ("b" ++ sep ++ "c") "d" (Some "") None None None in
  let y := mkAuditLog 0 0 None "a" "b" ("c" ++ sep ++ "d") None None None None in
  x <> y /\ auditRowHash x = auditRowHash y.
Proof. split; [discriminate|]. vm_compute. reflexivity. Qed.

(** ** Demonstration *)

(** Addresses are their own host parts. *)
#[local] Instance plain_inet : PgInet := { inet_ok ip := negb (String.eqb ip ""); inet_host ip := ip }.

Definition demo_ctx : AuditCtx := mkAuditCtx (Some "10.0.0.1") (Some "curl").

Definition demo_people : list UserRow := [mkUserRow "root" "active"; mkUserRow "bob" "active"].
Definition demo_disputes : list DisputeRow := [mkDisputeRow "d1" "open" None None None].

Definition demo_ops : list (admin_op * nat) :=
  [(AdSuspend "root" "bob" "spam" demo_ctx, 0%nat); (AdResolve "root" "d1" "split" "" demo_ctx, 10%nat);
   (AdReinstate "root" "bob" "" demo_ctx, 20%nat); (AdLook "root" (mkScreenshotFilter None None 0) demo_ctx, 30%nat)].

Definition run_ops (l : list (admin_op * nat)) (d : admin_db) : admin_db :=
  fold_left (fun d x => admin_after (fst x) quiet_env d (snd x)) l d.

Lemma run_ops_steps l d : rtc admin_step d (run_ops l d).
Proof.
  revert d. induction l as [|[o n] l IH]; intros d; [constructor|].
  eapply rtc_l; [exact (ads_call d o quiet_env n)|]. apply IH.
Qed.

Definition staffed : admin_db := arrived demo_people demo_disputes [] no_admin.

Lemma staffed_reachable : admin_reachable staffed.
Proof.
  apply rtc_once, ads_arrived; repeat constructor; cbn; intuition discriminate.
Qed.

(** The rows without their hashes. *)
Definition story (d : admin_db) : list (string * string) * list string * list (option string) :=
  (map (fun u => (us_id u, us_status u)) (user_rows d), map dp_status (dispute_rows d),
   map (fun r => al_ResourceID (ar_log r)) (audit_logs d)).

Lemma admin_ops_meet_spec_witness :
  story (admin_after (AdSuspend "root" "bob" "spam" demo_ctx) quiet_env staffed 0) =
    ([("root", "active"); ("bob", "suspended")], ["open"], [Some "bob"]) /\
  wp (admin_run (AdSuspend "root" "bob" "spam" demo_ctx)) quiet_env (rest staffed 0)
    (ended (settles quiet_env staffed (admin_spec (AdSuspend "root" "bob" "spam" demo_ctx) staffed))).
Proof. split; [vm_compute; reflexivity|]. apply admin_ops_meet_spec, staffed_reachable. Defined.

Lemma worked_admin_reachable l : admin_reachable (run_ops l staffed).
Proof. unfold admin_reachable; etrans; [exact staffed_reachable|]. apply run_ops_steps. Qed.

Lemma admin_acts_are_recorded_witness :
  story (run_ops demo_ops staffed) =
    ([("root", "active"); ("bob", "active")], ["split"], [Some "bob"; Some "d1"; Some "bob"]) /\
  map event_key (admin_outbox (run_ops demo_ops staffed)) = flat_map announcement (admin_actions (run_ops demo_ops staffed)).
Proof.
  split; [vm_compute; reflexivity|]. apply (admin_acts_are_recorded (run_ops demo_ops staffed)), worked_admin_reachable.
Defined.

Lemma audit_trail_only_grows_witness :
  length (audit_logs (run_ops (firstn 2 demo_ops) staffed)) = 2%nat /\
  Forall intact (audit_logs (run_ops (skipn 2 demo_ops) (run_ops (firstn 2 demo_ops) staffed))).
Proof.
  split; [vm_compute; reflexivity|].
  apply (audit_trail_only_grows (run_ops (firstn 2 demo_ops) staffed)); [apply worked_admin_reachable|apply run_ops_steps].
Defined.

(** A dispute that was resolved can be resolved again, another way. *)
Example resolved_again :
  map dp_status (dispute_rows (run_ops [(AdResolve "root" "d1" "split" "" demo_ctx, 0%nat);
    (AdResolve "root" "d1" "resolved_client" "" demo_ctx, 10%nat)] staffed)) = ["resolved_client"].
Proof. vm_compute. reflexivity. Qed.

(** No admin ever sees the screenshots: the listing fails for every filter. *)
Example screenshot_audit_never_lists f ac :
  fst (ListScreenshotsForAudit "root" f ac quiet_env (rest staffed 0)) = Err (Db Driver).
Proof. reflexivity. Qed.

(** Whoever forwards no address, as the first hop says, stops the operation. *)
Example unreadable_address_blocks :
  fst (admin_run (AdSuspend "root" "bob" "spam" (mkAuditCtx (Some "") None)) quiet_env (rest staffed 0)) = Err (Db InvalidText).
Proof. vm_compute. reflexivity. Qed.
