(* ===== verification/AdminHttp.v ===== *)
(** * Admin REST transport (services/admin/internal/httpapi)

    Every route asks for a permission before it calls the service. *)
From S2P Require Export Http Strings Gateway AdminProofs.

(** ** Requests *)

Record resolveReq := mkResolveReq { rq_Resolution : string; rq_Note : string }.

Definition decode_reasonReq (o : list (string * json)) : option string := str_field "reason" o.

Definition decode_resolveReq (o : list (string * json)) : option resolveReq :=
  obind (str_field "resolution" o) (fun v => obind (str_field "note" o) (fun note => Some (mkResolveReq v note))).

Definition principal (r : request) : Principal :=
  mkPrincipal (header r "X-User-Id") (listed (header r "X-User-Roles")) (listed (header r "X-User-Permissions"))
    (header r "X-Account-Type").

(** The first hop of X-Forwarded-For. *)
Definition clientIP (r : request) : option string :=
  let xff := header r "X-Forwarded-For" in
  if String.eqb xff "" then None else nilIfEmpty (trim_space (hd "" (Strings.split "," xff))).

Definition auditMeta (r : request) : AuditCtx := mkAuditCtx (clientIP r) (nilIfEmpty (header r "User-Agent")).

Definition queryPtr (r : request) (key : string) : option string := nilIfEmpty (query r key).

Definition queryInt (r : request) (key : string) (def : Z) : Z :=
  let v := query r key in if String.eqb v "" then def else default def (parse_int v).

(** ** Answers *)

(** jsonb passes through as it is. *)
Class Jsonb := jsonb_text : string -> json.

Definition rawJSON `{Jsonb} (b : option string) : json :=
  match b with None => JObj [] | Some s => if String.eqb s "" then JObj [] else jsonb_text s end.

Definition adminActionJSON `{Jsonb} (a : AdminAction) : json :=
  JObj [("id", JStr (aa_ID a)); ("admin_id", JStr (aa_AdminID a)); ("action", JStr (aa_Action a));
        ("target_type", JStr (aa_TargetType a)); ("target_id", JStr (aa_TargetID a)); ("reason", jopt JStr (aa_Reason a));
        ("metadata", rawJSON (aa_Metadata a)); ("created_at", JStr (format_rfc3339 (aa_CreatedAt a)))].

Definition auditLogJSON `{Jsonb} (l : AuditLog) : json :=
  JObj [("id", JInt (al_ID l)); ("occurred_at", JStr (format_rfc3339 (al_OccurredAt l)));
        ("actor_id", jopt JStr (al_ActorID l)); ("actor_type", JStr (al_ActorType l)); ("action", JStr (al_Action l));
        ("resource_type", JStr (al_ResourceType l)); ("resource_id", jopt JStr (al_ResourceID l));
        ("ip", jopt JStr (al_IP l)); ("user_agent", jopt JStr (al_UserAgent l)); ("context", rawJSON (al_Context l))].

Definition screenshotJSON (s : Screenshot) : json :=
  JObj [("id", JStr (sc_ID s)); ("work_session_id", JStr (sc_WorkSessionID s)); ("user_id", JStr (sc_UserID s));
        ("status", JStr (sc_Status s)); ("captured_at", JStr (format_rfc3339 (sc_CapturedAt s))); ("s3_key", JStr (sc_S3Key s))].

Definition mapError (e : err admin_err) : response :=
  match e with
  | Dom ErrInvalidResolution =>
      writeErr 400 "INVALID_RESOLUTION" "resolution must be resolved_client, resolved_freelancer or split"
  | Dom ErrNotFound => writeErr 404 "NOT_FOUND" "resource not found"
  | Dom ErrForbidden => writeErr 403 "FORBIDDEN" "not permitted"
  | Db _ => writeErr 500 "INTERNAL" "something went wrong"
  end.

(** ** Handlers *)

Section Api.
Context `{PgInet} `{Jsonb}.

Definition authorize (p : Principal) (perm : string) : step (D := admin_db) (E := admin_err) unit :=
  if String.eqb (UserID p) "" then reply_with (writeErr 401 "UNAUTHORIZED" "missing identity") else
  match Require_ p perm with
  | Some Forbidden => reply_with (mapError (Dom ErrForbidden))
  | None => go_on tt
  end.

(** The body of a moderation may be missing. *)
Definition decode_reason (r : request) : step (D := admin_db) (E := admin_err) string :=
  if contentLength r =? 0 then go_on "" else Http.decode decode_reasonReq r.

Definition moderation (op : string -> string -> string -> AuditCtx -> aprog unit) (r : request) : aprog response :=
  let p := principal r in
  _ <-? authorize p "admin.user.suspend" ;;
  reason <-? decode_reason r ;;
  _ <-? or_mapped mapError (op (UserID p) (urlParam r "id") reason (auditMeta r)) ;;
  ret (writeJSON 200 success).

Definition suspendUser (r : request) : aprog response := moderation SuspendUser r.
Definition reinstateUser (r : request) : aprog response := moderation ReinstateUser r.

Definition resolveDispute (r : request) : aprog response :=
  let p := principal r in
  _ <-? authorize p "admin.dispute.resolve" ;;
  req <-? Http.decode decode_resolveReq r ;;
  if String.eqb (rq_Resolution req) "" then ret (writeErr 400 "VALIDATION_FAILED" "resolution is required") else
  _ <-? or_mapped mapError (ResolveDispute (UserID p) (urlParam r "id") (rq_Resolution req) (rq_Note req) (auditMeta r)) ;;
  ret (writeJSON 200 success).

Definition listScreenshots (r : request) : aprog response :=
  let p := principal r in
  _ <-? authorize p "admin.screenshot.audit" ;;
  out <-? or_mapped mapError (ListScreenshotsForAudit (UserID p)
            (mkScreenshotFilter (queryPtr r "user_id") (queryPtr r "status") (queryInt r "limit" 50)) (auditMeta r)) ;;
  ret (writeJSON 200 (JObj [("screenshots", JList (map screenshotJSON out))])).

Definition listActions (r : request) : aprog response :=
  _ <-? authorize (principal r) "admin.audit.read" ;;
  out <-? or_mapped mapError (service_ListAdminActions (queryInt r "limit" 50)) ;;
  ret (writeJSON 200 (JObj [("actions", JList (map adminActionJSON out))])).

Definition listAuditLogs (r : request) : aprog response :=
  _ <-? authorize (principal r) "admin.audit.read" ;;
  out <-? or_mapped mapError (service_ListAuditLogs
            (mkAuditLogFilter (queryPtr r "actor_id") (queryPtr r "action") (queryInt r "limit" 50))) ;;
  ret (writeJSON 200 (JObj [("audit_logs", JList (map auditLogJSON out))])).

Inductive admin_route := SuspendR | ReinstateR | ResolveR | ScreenshotsR | ActionsR | AuditLogsR | HealthR.

Definition serve (x : admin_route) (r : request) : aprog response :=
  match x with
  | SuspendR => suspendUser r
  | ReinstateR => reinstateUser r
  | ResolveR => resolveDispute r
  | ScreenshotsR => listScreenshots r
  | ActionsR => listActions r
  | AuditLogsR => listAuditLogs r
  | HealthR => ret (Response 200 JNull)
  end.

Definition after_route (x : admin_route) (r : request) (ev : env) (d : admin_db) (n : nat) : admin_db :=
  committed (snd (serve x r ev (rest d n))).

(** ** Which call a request makes *)

Definition needed (x : admin_route) : option string :=
  match x with
  | SuspendR | ReinstateR => Some "admin.user.suspend"
  | ResolveR => Some "admin.dispute.resolve"
  | ScreenshotsR => Some "admin.screenshot.audit"
  | ActionsR | AuditLogsR => Some "admin.audit.read"
  | HealthR => None
  end.

Definition reason_of (r : request) : option string :=
  if contentLength r =? 0 then Some "" else obind (members (body r)) decode_reasonReq.

(** The writing call of a permitted request. *)
Definition op_of (x : admin_route) (r : request) : option admin_op :=
  let uid := header r "X-User-Id" in
  let id := urlParam r "id" in
  match x with
  | SuspendR => option_map (fun reason => AdSuspend uid id reason (auditMeta r)) (reason_of r)
  | ReinstateR => option_map (fun reason => AdReinstate uid id reason (auditMeta r)) (reason_of r)
  | ResolveR => obind (obind (members (body r)) decode_resolveReq) (fun q =>
      if String.eqb (rq_Resolution q) "" then None
      else Some (AdResolve uid id (rq_Resolution q) (rq_Note q) (auditMeta r)))
  | ScreenshotsR => Some (AdLook uid (mkScreenshotFilter (queryPtr r "user_id") (queryPtr r "status") (queryInt r "limit" 50))
      (auditMeta r))
  | _ => None
  end.

Definition permitted (x : admin_route) (r : request) : bool :=
  match needed x with
  | Some perm => negb (String.eqb (header r "X-User-Id") "") && Can (principal r) perm
  | None => true
  end.

Definition after_op (o : option admin_op) (ev : env) (d : admin_db) (n : nat) : admin_db :=
  match o with Some o => admin_after o ev d n | None => d end.

Lemma wp_authorize perm r ev w (Q : res admin_err (response + unit) -> world admin_db -> Prop) :
  (negb (String.eqb (header r "X-User-Id") "") && Can (principal r) perm = false -> forall resp, Q (Ok (inl resp)) w) ->
  (negb (String.eqb (header r "X-User-Id") "") && Can (principal r) perm = true -> Q (Ok (inr tt)) w) ->
  wp (authorize (principal r) perm) ev w Q.
Proof.
  intros H1 H2. unfold authorize, Require_. change (UserID (principal r)) with (header r "X-User-Id").
  destruct (String.eqb (header r "X-User-Id") ""); [by apply wp_ret, H1|].
  destruct (Can (principal r) perm); apply wp_ret; auto.
Qed.

(** The end of a route that makes the call [o]. *)
Lemma wp_calling {A} o (m : aprog A) (k : A -> aprog response) ev d n :
  (forall P : admin_db -> Prop, P (admin_after o ev d n) -> wp m ev (rest d n) (fun _ w => P (committed w))) ->
  (forall a w (P : res admin_err response -> world admin_db -> Prop), (forall x, P x w) -> wp (k a) ev w P) ->
  wp (bind_ok (or_mapped mapError m) k) ev (rest d n) (fun _ w => committed w = after_op (Some o) ev d n).
Proof. intros Hm Hk. apply (wp_service (fun d' => d' = admin_after o ev d n)); [by apply (Hm (fun d' => d' = admin_after o ev d n))|exact Hk]. Qed.

Lemma wp_op (m : aprog unit) o ev d n (P : admin_db -> Prop) :
  admin_run o = m -> P (admin_after o ev d n) -> wp m ev (rest d n) (fun _ w => P (committed w)).
Proof. intros <- HP. exact HP. Qed.

Lemma wp_look a f ac ev d n (P : admin_db -> Prop) :
  P (admin_after (AdLook a f ac) ev d n) -> wp (ListScreenshotsForAudit a f ac) ev (rest d n) (fun _ w => P (committed w)).
Proof. intros HP. by apply wp_drop_answer. Qed.

Lemma wp_read {A} (f : sql admin_db A) (g : A -> response) ev d n :
  (forall s, exists a, f s d = Done a d) ->
  wp (bind_ok (or_mapped mapError (exec_pool f)) (fun a => ret (g a))) ev (rest d n) (fun _ w => committed w = d).
Proof.
  intros Hf. apply (wp_service (fun d' => d' = d)); [|intros; by apply wp_ret]. apply wp_exec_pool.
  destruct (Hf (Stamp (clock ev n) (gen_uuid ev n))) as (a & ->). by repeat split.
Qed.

Lemma wp_moderation op o r ev d n :
  (forall reason, admin_run (o reason) = op (header r "X-User-Id") (urlParam r "id") reason (auditMeta r)) ->
  wp (moderation op r) ev (rest d n) (fun _ w => committed w =
    after_op (if negb (String.eqb (header r "X-User-Id") "") && Can (principal r) "admin.user.suspend"
              then option_map o (reason_of r) else None) ev d n).
Proof.
  intros Ho. unfold moderation. cbv zeta. apply wp_bind_ok, wp_authorize; intros ->; [done|].
  unfold decode_reason, reason_of. destruct (contentLength r =? 0).
  - apply wp_bind_ok, wp_go_on. apply (wp_calling (o "")); [|intros; by apply wp_ret].
    intros P. by apply wp_op.
  - apply wp_bind_ok. unfold Http.decode. destruct (members (body r)) as [m|]; [|by apply wp_ret]. cbn [obind].
    destruct (decode_reasonReq m) as [reason|]; [|by apply wp_ret]. apply wp_ret. cbn [option_map].
    apply (wp_calling (o reason)); [|intros; by apply wp_ret]. intros P. by apply wp_op.
Qed.

Lemma admin_route_call x r ev d n : after_route x r ev d n = after_op (if permitted x r then op_of x r else None) ev d n.
Proof.
  unfold after_route. set (d' := after_op _ _ _ _).
  assert (wp (serve x r) ev (rest d n) (fun _ w => committed w = d')) as Hs; [|exact Hs]. subst d'.
  destruct x; cbn [serve op_of]; unfold permitted; cbn [needed].
  - by apply (wp_moderation _ (fun reason => AdSuspend (header r "X-User-Id") (urlParam r "id") reason (auditMeta r))).
  - by apply (wp_moderation _ (fun reason => AdReinstate (header r "X-User-Id") (urlParam r "id") reason (auditMeta r))).
  - unfold resolveDispute. cbv zeta. apply wp_bind_ok, wp_authorize; intros ->; [done|]. apply wp_bind_ok. unfold Http.decode.
    destruct (members (body r)) as [m|]; [|by apply wp_ret]. cbn [obind].
    destruct (decode_resolveReq m) as [q|]; [|by apply wp_ret]. apply wp_ret. cbn [obind].
    destruct (String.eqb (rq_Resolution q) ""); [by apply wp_ret|].
    apply wp_calling; [|intros; by apply wp_ret]. intros P. by apply wp_op.
  - unfold listScreenshots. cbv zeta. apply wp_bind_ok, wp_authorize; intros ->; [done|].
    apply wp_calling; [|intros; by apply wp_ret]. intros P. apply wp_look.
  - unfold listActions. apply wp_bind_ok, wp_authorize; intros ->; [done|]. apply wp_read.
    intros s. eexists. apply clamped_pos.
  - unfold listAuditLogs. apply wp_bind_ok, wp_authorize; intros ->; [done|]. apply wp_read.
    intros s. eexists. apply clamped_pos.
  - done.
Qed.

(** What a request records of itself. *)
Definition action_of (x : admin_route) : string :=
  match x with
  | SuspendR => "user.suspend"
  | ReinstateR => "user.reinstate"
  | ResolveR => "dispute.resolve"
  | ScreenshotsR => "screenshot.audit_list"
  | _ => ""
  end.

Definition records (x : admin_route) (r : request) (l : AuditLog) : Prop :=
  al_ActorID l = Some (header r "X-User-Id") /\ al_Action l = action_of x /\
  al_ResourceID l = (match x with ScreenshotsR => None | _ => Some (urlParam r "id") end) /\
  al_IP l = option_map inet_host (clientIP r).

(** The users and disputes that are not the request's target stay. *)
Definition others_stay (x : admin_route) (r : request) (d d' : admin_db) : Prop :=
  (forall u, In u (user_rows d) -> us_id u <> urlParam r "id" -> In u (user_rows d')) /\
  (forall y, In y (dispute_rows d) -> dp_id y <> urlParam r "id" -> In y (dispute_rows d')) /\
  (x = ScreenshotsR -> user_rows d' = user_rows d /\ dispute_rows d' = dispute_rows d).

Lemma untouched {R} (key : R -> string) k f l x : In x l -> key x <> k -> In x (update_where (has_key key k) f l).
Proof.
  intros Hx Hk. apply in_map_iff. exists x. split; [|done]. by rewrite (proj2 (has_key_false key k x)).
Qed.

Lemma op_records x r o d s d' : op_of x r = Some o -> admin_spec o d s = inl (tt, d') ->
  (exists row, audit_logs d' = audit_logs d ++ [row] /\ records x r (ar_log row)) /\ others_stay x r d d'.
Proof.
  intros EO ES. unfold others_stay. destruct x; cbn [op_of] in EO; try done.
  - destruct (reason_of r); [|done]. injection EO as <-. cbn [admin_spec] in ES. unfold moderate_spec in ES.
    repeat (case_match; try done). injection ES as <-. split; [eexists; by repeat split|].
    split; [intros; by apply untouched|done].
  - destruct (reason_of r); [|done]. injection EO as <-. cbn [admin_spec] in ES. unfold moderate_spec in ES.
    repeat (case_match; try done). injection ES as <-. split; [eexists; by repeat split|].
    split; [intros; by apply untouched|done].
  - destruct (obind _ decode_resolveReq) as [q|]; [|done]. cbn [obind] in EO. destruct (String.eqb _ _); [done|].
    injection EO as <-. cbn [admin_spec] in ES. unfold resolve_spec in ES.
    repeat (case_match; try done). injection ES as <-. split; [eexists; by repeat split|].
    split; [done|]. split; [intros; by apply untouched|done].
  - by injection EO as <-.
Qed.

(** The admin routes change the tables only for callers with the permission,
    and never unseen. If serving a request changed anything, the route needs a
    permission, the request carried a user id and that permission (or "*"), and
    exactly one audit row was added: of that user, this action, this target and
    the caller's address. Users and disputes other than the target stay as they
    were; the listing of screenshots, which fails, changes nothing. *)
Theorem admin_changes_need_permission x r ev d n :
  admin_reachable d -> after_route x r ev d n <> d ->
  exists perm, needed x = Some perm /\ header r "X-User-Id" <> "" /\
    (In perm (listed (header r "X-User-Permissions")) \/ In "*" (listed (header r "X-User-Permissions"))) /\
    (exists row, audit_logs (after_route x r ev d n) = audit_logs d ++ [row] /\ records x r (ar_log row)) /\
    others_stay x r d (after_route x r ev d n).
Proof.
  intros HR. rewrite admin_route_call. destruct (permitted x r) eqn:P; [|done].
  destruct (op_of x r) as [o|] eqn:O; [|done]. cbn [after_op]. intros HC.
  destruct (admin_call_outcome o ev d n (admin_reachable_inv d HR)) as [S|(s & S)]; [done|].
  destruct (op_records x r o d s _ O S) as [H1 H2].
  unfold permitted in P. destruct (needed x) as [perm|] eqn:N; [|by destruct x]. exists perm.
  apply andb_true_iff in P as [U C]. apply negb_true_iff, String.eqb_neq in U.
  unfold Can in C. cbn [principal Permissions] in C. apply existsb_exists in C as (y & Hy & E). apply orb_true_iff in E.
  split; [done|]. split; [done|]. split; [destruct E as [->%String.eqb_eq| ->%String.eqb_eq]; auto|]. by split.
Qed.

(** ** The permissions of the migration *)

(** The codes that migration 000002 seeds. *)
Definition seeded_permissions : list string :=
  ["project:create"; "proposal:submit"; "contract:manage"; "screenshot:read"; "screenshot:audit"; "payment:refund";
   "payment:review"; "user:suspend"; "fraud:review"; "audit:read"].

(** None of the codes that the routes ask for is among them: a caller who holds
    only seeded permissions, even all of them, passes no admin route. *)
Lemma seeded_permissions_open_nothing x r ev d n :
  incl (listed (header r "X-User-Permissions")) seeded_permissions -> needed x <> None ->
  permitted x r = false /\ after_route x r ev d n = d.
Proof.
  intros HI HN. assert (permitted x r = false) as P; [|by rewrite admin_route_call, P].
  unfold permitted. destruct (needed x) as [perm|] eqn:N; [|done]. apply andb_false_iff. right.
  unfold Can. cbn [principal Permissions]. apply not_true_iff_false. intros (y & Hy & E)%existsb_exists.
  apply HI in Hy. assert (In perm ["admin.user.suspend"; "admin.dispute.resolve"; "admin.screenshot.audit"; "admin.audit.read"]) as Hp
    by (destruct x; try done; apply (inj Some) in N as <-; cbn; tauto).
  clear -Hy E Hp. cbn in Hy, Hp.
  repeat destruct Hp as [<-|Hp]; try done; repeat destruct Hy as [<-|Hy]; done.
Qed.
End Api.

(** ** Demonstration *)

#[local] Existing Instance plain_inet.
#[local] Instance plain_jsonb : Jsonb := JStr.

Definition demo_admin_request : request :=
  Request (fun h => if String.eqb h "X-User-Id" then "root" else if String.eqb h "X-User-Permissions" then "admin.user.suspend, x"
                    else if String.eqb h "X-Forwarded-For" then "10.0.0.1, 10.0.0.2" else "")
    (fun _ => "bob") (fun _ => "") 20 (Some (JObj [("reason", JStr "spam")])) None.

Lemma admin_changes_need_permission_witness :
  let d' := after_route SuspendR demo_admin_request quiet_env staffed 0 in
  map us_status (user_rows d') = ["active"; "suspended"] /\
  exists perm, needed SuspendR = Some perm /\ header demo_admin_request "X-User-Id" <> "" /\
    (In perm (listed (header demo_admin_request "X-User-Permissions")) \/
     In "*" (listed (header demo_admin_request "X-User-Permissions"))) /\
    (exists row, audit_logs d' = audit_logs staffed ++ [row] /\ records SuspendR demo_admin_request (ar_log row)) /\
    others_stay SuspendR demo_admin_request staffed d'.
Proof.
  assert (map us_status (user_rows (after_route SuspendR demo_admin_request quiet_env staffed 0)) = ["active"; "suspended"]) as HS
    by (vm_compute; reflexivity).
  split; [exact HS|]. apply admin_changes_need_permission; [apply staffed_reachable|].
  intros E. rewrite E in HS. discriminate HS.
Defined.
