(* ===== verification/Envelope.v ===== *)
(** * Envelope encryption (services/pkg/crypto/envelope.go)

    Payloads are encrypted under a data key of their own (DEK), which a key
    provider wraps.  AES-GCM is a parameter with the law that decryption undoes
    encryption; the provider is an interface, and the local provider implements
    it. *)
From S2P Require Export Sha256.

(** ** AES-GCM (crypto/aes, crypto/cipher) *)

(** Keys of 16, 24 or 32 bytes, nonces of 12. [open] recovers what [seal] made
    under the same key, nonce and additional data. *)
Class Aead := {
  seal : list Z -> list Z -> list Z -> list Z -> list Z;            (* key nonce plaintext aad *)
  open : list Z -> list Z -> list Z -> list Z -> option (list Z);   (* key nonce ciphertext aad *)
  open_seal key nonce pt aad : open key nonce (seal key nonce pt aad) aad = Some pt
}.

Definition NonceSize : nat := 12.

Definition key_ok (key : list Z) : bool :=
  let n := length key in ((n =? 16) || (n =? 24) || (n =? 32))%nat.

(** The errors, and the panic of gcm.Open on a nonce of another length. *)
Inductive crypto_err :=
| ErrMasterSize
| ErrDEKSize
| ErrKeySize
| ErrRandomness
| ErrWrappedTooShort
| ErrAuthentication
| ErrDecryption
| ErrGenerate (e : crypto_err)
| ErrUnwrap (e : crypto_err)
| PanicNonce.

Section Crypto.
Context {D : Type}.

Abbreviation cprog := (prog D crypto_err).

Definition newGCM (key : list Z) : cprog unit := if key_ok key then ret tt else fail ErrKeySize.

(** rand.Read into a fresh buffer. *)
Definition fresh_bytes (n : nat) : cprog (list Z) :=
  o <- read_random n ;;
  match o with Some b => ret b | None => fail ErrRandomness end.

(** ** Key providers *)

Record KeyProvider := mkKeyProvider {
  GenerateDEK : cprog (list Z * list Z * string);
  WrapDEK : list Z -> cprog (list Z * string);
  UnwrapDEK : list Z -> cprog (list Z)
}.

(** What a provider promises: data keys of 32 bytes, and from its wrapped form
    each is recovered, at any later time. *)
Record lawful (kp : KeyProvider) : Prop := {
  generated_unwraps ev w dek wrapped id w' :
    GenerateDEK kp ev w = (Ok (dek, wrapped, id), w') ->
    length dek = 32%nat /\ forall ev2 w2, fst (UnwrapDEK kp wrapped ev2 w2) = Ok dek;
  wrapped_unwraps ev w dek wrapped id w' :
    WrapDEK kp dek ev w = (Ok (wrapped, id), w') ->
    length dek = 32%nat /\ forall ev2 w2, fst (UnwrapDEK kp wrapped ev2 w2) = Ok dek
}.

(** ** Envelopes *)

Record Envelope := mkEnvelope {
  env_WrappedDEK : list Z;
  env_Nonce : list Z;
  env_Ciphertext : list Z;
  env_KeyID : string
}.

(** A program that leaves the tables and the transaction alone. *)
Definition outside {A} (m : cprog A) : Prop :=
  forall ev w, committed (snd (m ev w)) = committed w /\ txs (snd (m ev w)) = txs w.

(** The provider works on no table of the service. *)
Record detached (kp : KeyProvider) : Prop := {
  generate_outside : outside (GenerateDEK kp);
  wrap_outside dek : outside (WrapDEK kp dek)
}.

Lemma outside_bind {A B} (m : cprog A) (k : A -> cprog B) : outside m -> (forall a, outside (k a)) -> outside (bind m k).
Proof.
  intros Hm Hk ev w. unfold bind. destruct (Hm ev w) as [H1 H2]. destruct (m ev w) as [[a|e] w1]; cbn in *; [|done].
  destruct (Hk a ev w1). by rewrite <- H1, <- H2.
Qed.

Context `{Aead}.

(** fmt.Errorf with %w. *)
Definition wrapping {A} (f : crypto_err -> crypto_err) (m : cprog A) : cprog A :=
  r <- attempt m ;;
  match r with
  | Ok a => ret a
  | Err (Dom e) => fail (f e)
  | Err (Db e) => throw (Db e)
  end.

Definition EncryptEnvelope (kp : KeyProvider) (plaintext aad : list Z) : cprog Envelope :=
  g <- wrapping ErrGenerate (GenerateDEK kp) ;;
  let '(dek, wrapped, keyID) := g in
  newGCM dek ;;;
  nonce <- fresh_bytes NonceSize ;;
  ret (mkEnvelope wrapped nonce (seal dek nonce plaintext aad) keyID).

(** gcm.Open *)
Definition gcm_open (key nonce ct aad : list Z) (e : crypto_err) : cprog (list Z) :=
  if negb (length nonce =? NonceSize)%nat then fail PanicNonce else
  match open key nonce ct aad with Some pt => ret pt | None => fail e end.

Definition DecryptEnvelope (kp : KeyProvider) (env : Envelope) (aad : list Z) : cprog (list Z) :=
  dek <- wrapping ErrUnwrap (UnwrapDEK kp (env_WrappedDEK env)) ;;
  newGCM dek ;;;
  gcm_open dek (env_Nonce env) (env_Ciphertext env) aad ErrDecryption.

(** ** The local provider *)

Definition local_keyID (master : list Z) : string := ("local:" ++ hex_encode (take 4 (sha256 master)))%string.

Section Local.
Context (master : list Z) (keyID : string).

Definition wrap (dek : list Z) : cprog (list Z) :=
  newGCM master ;;;
  nonce <- fresh_bytes NonceSize ;;
  ret (nonce ++ seal master nonce dek (bytes_of keyID)).

Definition local_GenerateDEK : cprog (list Z * list Z * string) :=
  dek <- fresh_bytes 32 ;;
  wrapped <- wrap dek ;;
  ret (dek, wrapped, keyID).

Definition local_WrapDEK (plaintext : list Z) : cprog (list Z * string) :=
  if negb (length plaintext =? 32)%nat then fail ErrDEKSize else
  wrapped <- wrap plaintext ;;
  ret (wrapped, keyID).

Definition local_UnwrapDEK (wrapped : list Z) : cprog (list Z) :=
  newGCM master ;;;
  if (length wrapped <? NonceSize)%nat then fail ErrWrappedTooShort else
  gcm_open master (take NonceSize wrapped) (drop NonceSize wrapped) (bytes_of keyID) ErrAuthentication.

Definition local_provider : KeyProvider := mkKeyProvider local_GenerateDEK local_WrapDEK local_UnwrapDEK.
End Local.

Definition NewLocalKeyProvider (master : list Z) : KeyProvider + crypto_err :=
  if negb (length master =? 32)%nat then inr ErrMasterSize else inl (local_provider master (local_keyID master)).

(** ** Runs *)

Lemma bind_Ok {E A B} (m : prog D E A) (k : A -> prog D E B) ev w b w' :
  bind m k ev w = (Ok b, w') -> exists a w1, m ev w = (Ok a, w1) /\ k a ev w1 = (Ok b, w').
Proof. unfold bind. destruct (m ev w) as [[a|e] w1]; [eauto|done]. Qed.

Lemma newGCM_Ok key ev w u w' : newGCM key ev w = (Ok u, w') -> key_ok key = true /\ w' = w.
Proof. unfold newGCM. destruct (key_ok key); [|done]. by intros [= _ <-]. Qed.

Lemma fresh_bytes_Ok n ev w b w' : fresh_bytes n ev w = (Ok b, w') -> length b = n.
Proof.
  unfold fresh_bytes, bind, read_random. destruct (rand_read ev (tick w)); cbn; [|done].
  intros [= <- _]. by rewrite length_map, length_seq.
Qed.

Lemma fresh_bytes_runs n ev w : rand_read ev (tick w) <> None ->
  exists b, fresh_bytes n ev w = (Ok b, World (committed w) (txs w) (S (tick w))).
Proof. unfold fresh_bytes, bind, read_random. destruct (rand_read ev (tick w)); [|done]. intros _. by eexists. Qed.

Lemma key_32 key : length key = 32%nat -> key_ok key = true.
Proof. unfold key_ok. by intros ->. Qed.

Lemma wrapping_Ok {A} f (m : cprog A) ev w a w' : wrapping f m ev w = (Ok a, w') -> m ev w = (Ok a, w').
Proof.
  unfold wrapping, bind, attempt. destruct (m ev w) as [[x|[e|e]] w1]; cbn; [|done..]. by intros [= -> ->].
Qed.

Lemma wrapping_run {A} f (m : cprog A) ev w a : fst (m ev w) = Ok a -> exists w', wrapping f m ev w = (Ok a, w').
Proof. unfold wrapping, bind, attempt. destruct (m ev w) as [r w1]. cbn. intros ->. by exists w1. Qed.

(** Decryption under a provider that unwraps the key. *)
Lemma DecryptEnvelope_runs kp e dek aad ev w :
  length dek = 32%nat -> length (env_Nonce e) = NonceSize ->
  (forall ev2 w2, fst (UnwrapDEK kp (env_WrappedDEK e) ev2 w2) = Ok dek) ->
  fst (DecryptEnvelope kp e aad ev w) =
  match open dek (env_Nonce e) (env_Ciphertext e) aad with Some pt => Ok pt | None => Err (Dom ErrDecryption) end.
Proof.
  intros HL HN HU. destruct (wrapping_run ErrUnwrap _ ev w dek (HU ev w)) as (w' & E).
  unfold DecryptEnvelope, bind. rewrite E. unfold newGCM. rewrite key_32 by done. unfold ret at 1, gcm_open.
  rewrite HN. cbn [negb Nat.eqb NonceSize]. by destruct (open _ _ _ _).
Qed.

Lemma EncryptEnvelope_makes kp pt aad ev w e w' : lawful kp ->
  EncryptEnvelope kp pt aad ev w = (Ok e, w') ->
  exists dek, length dek = 32%nat /\ length (env_Nonce e) = NonceSize /\ env_Ciphertext e = seal dek (env_Nonce e) pt aad /\
    forall ev2 w2, fst (UnwrapDEK kp (env_WrappedDEK e) ev2 w2) = Ok dek.
Proof.
  intros HL HE. apply bind_Ok in HE as ([[dek wrapped] id] & w1 & HG & HE). apply wrapping_Ok in HG.
  destruct (generated_unwraps kp HL _ _ _ _ _ _ HG) as [Hlen HU].
  apply bind_Ok in HE as (u & w2 & HK & HE). apply bind_Ok in HE as (nonce & w3 & HN & HE).
  injection HE as <- _. exists dek. cbn. repeat split; [done| |done]. by eapply fresh_bytes_Ok.
Qed.

(** A key made on the device: the server wraps it later, and what the device
    encrypted with it decrypts. *)
Lemma offline_capture_decrypts kp dek nonce pt aad ev w wrapped id w' :
  lawful kp -> WrapDEK kp dek ev w = (Ok (wrapped, id), w') -> length nonce = NonceSize ->
  forall ev2 w2, fst (DecryptEnvelope kp (mkEnvelope wrapped nonce (seal dek nonce pt aad) id) aad ev2 w2) = Ok pt.
Proof.
  intros HL HW HN ev2 w2. destruct (wrapped_unwraps kp HL _ _ _ _ _ _ HW) as [H1 H2].
  rewrite (DecryptEnvelope_runs _ _ dek) by done. cbn [env_Nonce env_Ciphertext]. by rewrite open_seal.
Qed.

(** C27: What is encrypted is read back. Under any provider that keeps its
    promise, an envelope that EncryptEnvelope returned decrypts to the plaintext
    at any later time with the same context; and so does the envelope of a device
    that encrypted under a key of its own, which the server wrapped afterwards.
    EncryptEnvelope does return one whenever the provider generates a key and the
    source of randomness answers. *)
Theorem envelope_roundtrip kp pt aad ev w :
  lawful kp ->
  (forall e w', EncryptEnvelope kp pt aad ev w = (Ok e, w') ->
     forall ev2 w2, fst (DecryptEnvelope kp e aad ev2 w2) = Ok pt) /\
  (forall dek nonce wrapped id w', WrapDEK kp dek ev w = (Ok (wrapped, id), w') -> length nonce = NonceSize ->
     forall ev2 w2, fst (DecryptEnvelope kp (mkEnvelope wrapped nonce (seal dek nonce pt aad) id) aad ev2 w2) = Ok pt) /\
  (forall g w', GenerateDEK kp ev w = (Ok g, w') -> (forall n, rand_read ev n <> None) ->
     exists e w'', EncryptEnvelope kp pt aad ev w = (Ok e, w'')).
Proof.
  intros HL. split; [|split].
  - intros e w' HE ev2 w2. destruct (EncryptEnvelope_makes _ _ _ _ _ _ _ HL HE) as (dek & H1 & H2 & H3 & H4).
    rewrite (DecryptEnvelope_runs _ _ dek) by done. by rewrite H3, open_seal.
  - intros dek nonce wrapped id w' HW HN. by eapply offline_capture_decrypts.
  - intros [[dek wrapped] id] w' HG HR. destruct (generated_unwraps kp HL _ _ _ _ _ _ HG) as [Hlen _].
    destruct (fresh_bytes_runs NonceSize ev w' (HR _)) as (nonce & E). do 2 eexists.
    unfold EncryptEnvelope, wrapping, attempt, newGCM, bind. rewrite HG. cbv beta iota delta [ret].
    rewrite key_32 by done. cbv beta iota delta [ret]. rewrite E. reflexivity.
Qed.

(** ** The local provider keeps the promise *)

Lemma wrap_unwraps master id dek ev w wrapped w' :
  wrap master id dek ev w = (Ok wrapped, w') ->
  forall ev2 w2, fst (local_UnwrapDEK master id wrapped ev2 w2) = Ok dek.
Proof.
  intros HW. apply bind_Ok in HW as (u & w1 & HK & HW). apply bind_Ok in HW as (nonce & w2 & HN & HW).
  apply newGCM_Ok in HK as [HK _]. apply fresh_bytes_Ok in HN. injection HW as <- _. intros ev2 w3.
  unfold local_UnwrapDEK, bind, newGCM. rewrite HK. unfold ret at 1. rewrite length_app, HN.
  destruct (Nat.ltb_spec (NonceSize + length (seal master nonce dek (bytes_of id))) NonceSize); [lia|].
  unfold gcm_open. rewrite (take_app_length' _ _ _ (eq_sym HN)), (drop_app_length' _ _ _ (eq_sym HN)), HN.
  cbn [negb Nat.eqb NonceSize]. by rewrite open_seal.
Qed.

Lemma local_lawful master id : lawful (local_provider master id).
Proof.
  constructor; cbn [local_provider GenerateDEK WrapDEK UnwrapDEK].
  - intros ev w dek wrapped k w' HG. apply bind_Ok in HG as (d & w1 & HD & HG). apply bind_Ok in HG as (x & w2 & HW & HG).
    injection HG as -> -> _ _. split; [by eapply fresh_bytes_Ok|]. by eapply wrap_unwraps.
  - intros ev w dek wrapped k w' HG. unfold local_WrapDEK in HG. destruct (Nat.eqb_spec (length dek) 32); [|done]. cbn [negb] in HG.
    apply bind_Ok in HG as (x & w2 & HW & HG). injection HG as -> _ _. split; [done|]. by eapply wrap_unwraps.
Qed.

Lemma newGCM_outside key : outside (newGCM key).
Proof. intros ev w. unfold newGCM. by destruct (key_ok key). Qed.

Lemma fresh_bytes_outside n : outside (fresh_bytes n).
Proof. apply outside_bind; [done|]. intros [b|]; done. Qed.

Lemma wrap_local_outside master id dek : outside (wrap master id dek).
Proof.
  apply outside_bind; [apply newGCM_outside|]. intros _. apply outside_bind; [apply fresh_bytes_outside|done].
Qed.

Lemma local_detached master id : detached (local_provider master id).
Proof.
  constructor; cbn [local_provider GenerateDEK WrapDEK].
  - apply outside_bind; [apply fresh_bytes_outside|]. intros dek. apply outside_bind; [apply wrap_local_outside|done].
  - intros dek. unfold local_WrapDEK. destruct (negb _); [done|]. apply outside_bind; [apply wrap_local_outside|done].
Qed.

(** The local provider keeps the promise of a key provider: what it
    generates or wraps is 32 bytes long and unwraps to itself; and it generates
    a key whenever the source of randomness answers. *)
Theorem local_provider_lawful master kp :
  NewLocalKeyProvider master = inl kp ->
  lawful kp /\
  forall ev w, (forall n, rand_read ev n <> None) -> exists dek wrapped w', GenerateDEK kp ev w = (Ok (dek, wrapped, local_keyID master), w').
Proof.
  unfold NewLocalKeyProvider. destruct (Nat.eqb_spec (length master) 32) as [HM|]; [|done]. cbn [negb]. intros [= <-].
  split; [apply local_lawful|]. intros ev w HR. cbn [local_provider GenerateDEK].
  destruct (fresh_bytes_runs 32 ev w) as (dek & E1); [done|]. set (w1 := World _ _ _) in E1.
  destruct (fresh_bytes_runs NonceSize ev w1) as (nonce & E2); [done|]. do 3 eexists.
  unfold local_GenerateDEK, wrap, newGCM, bind. rewrite E1, key_32 by done. cbv beta iota delta [ret]. rewrite E2. reflexivity.
Qed.

End Crypto.

(** ** A concrete cipher, for the witnesses *)

Definition toy_tag (key nonce pt aad : list Z) : list Z :=
  flat_map (fun l => Z.of_nat (length l) :: l) [key; nonce; aad] ++ [sum64 pt].

Definition toy_open (key nonce ct aad : list Z) : option (list Z) :=
  let tag := toy_tag key nonce [] aad in
  let n := length tag in
  let pt := skipn n ct in
  if bool_decide (firstn n ct = toy_tag key nonce pt aad) then Some pt else None.

#[local] Program Instance toy_aead : Aead := {
  seal key nonce pt aad := toy_tag key nonce pt aad ++ pt;
  open := toy_open
}.
Next Obligation.
  intros. unfold toy_open.
  assert (length (toy_tag key nonce [] aad) = length (toy_tag key nonce pt aad)) as -> by (unfold toy_tag; by rewrite !length_app).
  rewrite List.skipn_app, List.skipn_all, Nat.sub_diag, List.firstn_app, List.firstn_all, Nat.sub_diag, app_nil_r. cbn [app skipn].
  by rewrite bool_decide_eq_true_2.
Qed.
Definition demo_master : list Z := repeat 66 32.
Definition demo_world : world unit := rest tt 0.

(** The provider of the demonstration, and its envelope for a screenshot. *)
Definition demo_provider : KeyProvider (D := unit) := local_provider demo_master (local_keyID demo_master).

Definition demo_envelope : Envelope := Eval vm_compute in
  match fst (EncryptEnvelope demo_provider (bytes_of "shot") (bytes_of "c1") quiet_env demo_world) with
  | Ok e => e
  | Err _ => mkEnvelope [] [] [] ""
  end.

Lemma demo_encrypts : exists w', EncryptEnvelope demo_provider (bytes_of "shot") (bytes_of "c1") quiet_env demo_world = (Ok demo_envelope, w').
Proof. eexists. vm_compute. reflexivity. Qed.

Lemma local_provider_lawful_witness : lawful demo_provider.
Proof. exact (proj1 (local_provider_lawful (D := unit) demo_master demo_provider eq_refl)). Defined.

Lemma envelope_roundtrip_witness :
  (forall ev w, fst (DecryptEnvelope demo_provider demo_envelope (bytes_of "c1") ev w) = Ok (bytes_of "shot")) /\
  exists e w', EncryptEnvelope demo_provider (bytes_of "shot") (bytes_of "c1") quiet_env demo_world = (Ok e, w').
Proof.
  destruct demo_encrypts as (w' & E).
  destruct (envelope_roundtrip demo_provider (bytes_of "shot") (bytes_of "c1") quiet_env demo_world (local_lawful _ _)) as (H1 & _ & H3).
  split; [exact (H1 _ _ E)|].
  assert (exists g w1, GenerateDEK demo_provider quiet_env demo_world = (Ok g, w1)) as (g & w1 & G)
    by (do 2 eexists; vm_compute; reflexivity).
  apply (H3 g w1 G). intros n. discriminate.
Defined.

(** The cipher of the demonstration refuses another context. *)
Example other_context_refused :
  fst (DecryptEnvelope demo_provider demo_envelope (bytes_of "c2") quiet_env demo_world) = Err (Dom ErrDecryption).
Proof. vm_compute. reflexivity. Qed.

(** A nonce of another length panics, where the comment promises an error. *)
Example short_nonce_panics :
  fst (DecryptEnvelope demo_provider (mkEnvelope (env_WrappedDEK demo_envelope) [] [] "") [] quiet_env demo_world) =
  Err (Dom PanicNonce).
Proof. vm_compute. reflexivity. Qed.
