(* ===== verification/ScreenshotStore.v ===== *)
(** * Screenshots (services/screenshot: internal/store, internal/storage and internal/service)

    Upload slots with their data keys, confirmed by the device's signature, and
    views for the parties of the contract.  Of contracts and devices, tables of
    other services, only the columns read here are kept; instants are UTC. *)
From S2P Require Export Outbox Strings Gateway Base64 Envelope.

(** ** Row types *)

Record ShotRow := mkShot {
  sh_id : string;
  sh_contract_id : string;
  sh_session_id : string;
  sh_slice_id : option string;
  sh_freelancer_id : string;
  sh_captured_at : Z;
  sh_s3_bucket : string;
  sh_s3_key : string;
  sh_status : string
}.

(** screenshot_metadata. *)
Record MetaRow := mkMeta {
  me_screenshot_id : string;
  me_sha256_cipher : list Z;
  me_wrapped_dek : list Z;
  me_gcm_nonce : list Z;
  me_kms_key_id : string;
  me_width : option Z;
  me_height : option Z;
  me_format : string;
  me_size_bytes : option Z;
  me_phash : option (list Z);
  me_device_signature : option (list Z);
  me_device_id : option string;
  me_is_duplicate : bool;
  me_is_tampered : bool;
  me_view_count : Z
}.

Record PartiesRow := mkPartiesRow { pr_id : string; pr_client_id : string; pr_freelancer_id : string }.

Record DeviceRow := mkDeviceRow { dv_id : string; dv_attestation_pubkey : option (list Z) }.

Record shot_db := mkShotDb {
  shots : list ShotRow;
  shot_metas : list MetaRow;
  party_rows : list PartiesRow;
  device_rows : list DeviceRow;
  shot_outbox : list OutboxRow
}.

Definition shots_t : table shot_db ShotRow :=
  Table shots (fun l d => mkShotDb l (shot_metas d) (party_rows d) (device_rows d) (shot_outbox d)).
Definition shot_metas_t : table shot_db MetaRow :=
  Table shot_metas (fun l d => mkShotDb (shots d) l (party_rows d) (device_rows d) (shot_outbox d)).
#[export] Instance shot_HasOutbox : HasOutbox shot_db :=
  Table shot_outbox (fun l d => mkShotDb (shots d) (shot_metas d) (party_rows d) (device_rows d) l).

#[export] Instance shot_Deferred : Deferred shot_db := fun _ _ => true.

(** The sentinels, and the messages of the service. *)
Inductive shot_err :=
| ErrNotFound
| ErrForbidden
| ErrClientDEK
| ErrDek (e : crypto_err)
| ErrKeyRandom
| ErrNoDeviceKey
| ErrNoSignature
| ErrBadSignature
| ErrPresign (msg : string).

Abbreviation sprog := (prog shot_db shot_err).

(** ** Slots *)

Record NewSlot := mkNewSlot {
  ns_ContractID : string;
  ns_SessionID : string;
  ns_SliceID : string;
  ns_FreelancerID : string;
  ns_DeviceID : string;
  ns_CapturedAt : Z;
  ns_Bucket : string;
  ns_Key : string;
  ns_WrappedDEK : list Z;
  ns_KMSKeyID : string
}.

Definition null_if_empty (s : string) : option string := if String.eqb s "" then None else Some s.

(** The empty text is no UUID. *)
Definition not_uuid (s : string) : option dberr := if String.eqb s "" then Some InvalidText else None.

Definition shot_of (id : string) (n : NewSlot) : ShotRow :=
  mkShot id (ns_ContractID n) (ns_SessionID n) (null_if_empty (ns_SliceID n)) (ns_FreelancerID n)
    (to_timestamptz (ns_CapturedAt n)) (ns_Bucket n) (ns_Key n) "pending_upload".

Definition meta_of (id : string) (n : NewSlot) : MetaRow :=
  mkMeta id [] (ns_WrappedDEK n) [] (ns_KMSKeyID n) None None "webp" None None None (null_if_empty (ns_DeviceID n))
    false false 0.

(** The primary key and uq_screenshots_slice, both with the partition key. *)
Definition shot_check (l : list ShotRow) (r : ShotRow) : option dberr := first_violation
  [ not_uuid (sh_contract_id r); not_uuid (sh_session_id r); not_uuid (sh_freelancer_id r);
    unique_index "screenshots_pkey"
      (fun x r => String.eqb (sh_id x) (sh_id r) && (sh_captured_at x =? sh_captured_at r)) l r;
    unique_index "uq_screenshots_slice"
      (fun x r => match sh_slice_id x, sh_slice_id r with
                  | Some a, Some b => String.eqb a b && (sh_captured_at x =? sh_captured_at r)
                  | _, _ => false
                  end) l r ].

Definition has_slice (slice : string) (r : ShotRow) : bool :=
  match sh_slice_id r with Some s => String.eqb s slice | None => false end.

Definition insert_slot (n : NewSlot) : sprog (string * string) :=
  r <- exec (insert_row shots_t shot_check (fun s => shot_of (fresh s) n)) ;;
  exec (insert_row shot_metas_t
    (unique_index "screenshot_metadata_pkey" (fun x r => String.eqb (me_screenshot_id x) (me_screenshot_id r)))
    (fun _ => meta_of (sh_id r) n)) ;;;
  commit ;;;
  ret (sh_id r, ns_Key n).

Definition CreateSlot (n : NewSlot) : sprog (string * string) :=
  in_tx (
    if String.eqb (ns_SliceID n) "" then insert_slot n else
    o <- exec (select_one shots_t (has_slice (ns_SliceID n))) ;;
    match o with
    | Some r => ret (sh_id r, sh_s3_key r)
    | None => insert_slot n
    end).

(** ** Confirmation *)

Record Confirm := mkConfirm {
  cf_ScreenshotID : string;
  cf_SHA256Cipher : list Z;
  cf_GCMNonce : list Z;
  cf_DeviceSignature : list Z;
  cf_Width : Z;
  cf_Height : Z;
  cf_SizeBytes : Z;
  cf_Format : string;
  cf_PHash : list Z;
  cf_ActivityPct : Z
}.

Definition stored_shot (r : ShotRow) : ShotRow :=
  mkShot (sh_id r) (sh_contract_id r) (sh_session_id r) (sh_slice_id r) (sh_freelancer_id r) (sh_captured_at r)
    (sh_s3_bucket r) (sh_s3_key r) "stored".

Definition confirmed_meta (c : Confirm) (m : MetaRow) : MetaRow :=
  mkMeta (me_screenshot_id m) (cf_SHA256Cipher c) (me_wrapped_dek m) (cf_GCMNonce c) (me_kms_key_id m) (Some (cf_Width c))
    (Some (cf_Height c)) (cf_Format c) (Some (cf_SizeBytes c)) (Some (cf_PHash c)) (Some (cf_DeviceSignature c))
    (me_device_id m) (me_is_duplicate m) (me_is_tampered m) (me_view_count m).

Definition pending (id : string) (r : ShotRow) : bool := has_key sh_id id r && has_key sh_status "pending_upload" r.

(** The contract, the session and the slice of the row. *)
Definition store_ConfirmUpload (c : Confirm) : sprog (string * string * string) :=
  l <- exec (update_rows shots_t (pending (cf_ScreenshotID c)) (fun _ => stored_shot) (fun _ => None)) ;;
  match l with
  | [] => fail ErrNotFound
  | r :: _ =>
      if negb (in_int32 (cf_Width c) && in_int32 (cf_Height c)) then throw (Db ScanError) else
      exec (update_rows shot_metas_t (has_key me_screenshot_id (cf_ScreenshotID c)) (fun _ => confirmed_meta c) (fun _ => None)) ;;;
      ret (sh_contract_id r, sh_session_id r, default "" (sh_slice_id r))
  end.

(** screenshots sc JOIN screenshot_metadata m ON m.screenshot_id = sc.id *)
Definition shot_join (d : shot_db) : list (ShotRow * MetaRow) :=
  flat_map (fun s => map (pair s) (List.filter (has_key me_screenshot_id (sh_id s)) (shot_metas d))) (shots d).

Definition find_shot (id : string) (d : shot_db) : option (ShotRow * MetaRow) :=
  List.find (fun x => has_key sh_id id (fst x)) (shot_join d).

Definition ConfirmContext (screenshotID : string) : sprog (string * Z * string) :=
  o <- exec_pool (fun _ d => Done (find_shot screenshotID d) d) ;;
  match o with
  | None => fail ErrNotFound
  | Some (s, m) => ret (sh_contract_id s, sh_captured_at s, default "" (me_device_id m))
  end.

(** A key that is NULL reads as no bytes. *)
Definition device_key (id : string) (d : shot_db) : option (list Z) :=
  option_map (fun r => default [] (dv_attestation_pubkey r)) (List.find (has_key dv_id id) (device_rows d)).

Definition DeviceAttestationKey (deviceID : string) : sprog (list Z) :=
  if String.eqb deviceID "" then fail ErrNotFound else
  o <- exec_pool (fun _ d => Done (device_key deviceID d) d) ;;
  match o with None => fail ErrNotFound | Some k => ret k end.

(** ** Views *)

Record ViewMaterial := mkViewMaterial {
  vm_Bucket : string;
  vm_Key : string;
  vm_WrappedDEK : list Z;
  vm_GCMNonce : list Z;
  vm_CapturedAt : Z;
  vm_Status : string;
  vm_Flagged : bool;
  vm_ContractID : string
}.

Definition view_material (x : ShotRow * MetaRow) : ViewMaterial :=
  let '(s, m) := x in
  mkViewMaterial (sh_s3_bucket s) (sh_s3_key s) (me_wrapped_dek m) (me_gcm_nonce m) (sh_captured_at s) (sh_status s)
    (me_is_duplicate m || me_is_tampered m) (sh_contract_id s).

Definition GetForView (screenshotID : string) : sprog ViewMaterial :=
  o <- exec_pool (fun _ d => Done (find_shot screenshotID d) d) ;;
  match o with None => fail ErrNotFound | Some x => ret (view_material x) end.

Definition is_party (contractID userID : string) (d : shot_db) : bool :=
  existsb (fun c => has_key pr_id contractID c && (has_key pr_client_id userID c || has_key pr_freelancer_id userID c))
    (party_rows d).

Definition IsContractParty (contractID userID : string) : sprog bool :=
  exec_pool (fun _ d => Done (is_party contractID userID d) d).

Definition viewed (m : MetaRow) : MetaRow :=
  mkMeta (me_screenshot_id m) (me_sha256_cipher m) (me_wrapped_dek m) (me_gcm_nonce m) (me_kms_key_id m) (me_width m)
    (me_height m) (me_format m) (me_size_bytes m) (me_phash m) (me_device_signature m) (me_device_id m)
    (me_is_duplicate m) (me_is_tampered m) (me_view_count m + 1).

Definition RecordView (screenshotID : string) : sprog (list MetaRow) :=
  exec_pool (update_rows shot_metas_t (has_key me_screenshot_id screenshotID) (fun _ => viewed)
    (fun m => if in_int32 (me_view_count m) then None else Some NumericOutOfRange)).

Record Summary := mkSummary { sm_ID : string; sm_CapturedAt : Z; sm_Status : string; sm_Flagged : bool }.

Definition summary (x : ShotRow * MetaRow) : Summary :=
  let '(s, m) := x in mkSummary (sh_id s) (sh_captured_at s) (sh_status s) (me_is_duplicate m || me_is_tampered m).

Definition summaries (contractID : string) (limit : nat) (d : shot_db) : list Summary :=
  firstn limit (map summary (rev (order_by (fun x => sh_captured_at (fst x))
    (List.filter (fun x => has_key sh_contract_id contractID (fst x) && has_key sh_status "stored" (fst x)) (shot_join d))))).

Definition store_ListByContract (contractID : string) (limit : nat) : sprog (list Summary) :=
  exec_pool (fun _ d => Done (summaries contractID limit d) d).

(** ** Object storage (internal/storage) *)

(** The addresses, with the headers an upload must send, or an error; times to
    live are in seconds. *)
Record Presigner := mkPresigner {
  PresignPut : string -> string -> Z -> (string * list (string * string)) + string;
  PresignGet : string -> string -> Z -> string + string
}.

(** The digits of a positive number. *)
Fixpoint itoa_loop (fuel : nat) (n : Z) (acc : string) : string :=
  match fuel with
  | O => acc
  | S f => if 0 <? n then itoa_loop f (n / 10) (String (ascii_of_nat (Z.to_nat (48 + n mod 10))) acc) else acc
  end.

(** Twelve digits fit in the buffer. *)
Definition itoa (n : Z) : string := if n =? 0 then "0" else itoa_loop 12 n "".

Definition StubPresigner (endpoint : string) : Presigner :=
  let url bucket key ttl := (endpoint ++ "/" ++ bucket ++ "/" ++ key ++ "?X-Amz-Expires=" ++ itoa ttl)%string in
  mkPresigner
    (fun bucket key ttl => inl (url bucket key ttl,
       [("x-amz-server-side-encryption", "aws:kms");
        ("x-amz-server-side-encryption-aws-kms-key-id", "alias/aizorix-screenshots");
        ("content-type", "application/octet-stream")]))
    (fun bucket key ttl => inl (url bucket key ttl)).

(** ** The service *)

(** ed25519.Verify *)
Class Ed25519 := ed25519_Verify : list Z -> list Z -> list Z -> bool.

Record UploadSlot := mkUploadSlot {
  us_ScreenshotID : string;
  us_UploadURL : string;
  us_Bucket : string;
  us_Key : string;
  us_WrappedDEK : list Z;
  us_PlaintextDEK : option (list Z);
  us_KMSKeyID : string;
  us_Headers : list (string * string)
}.

(** The error of another package in one's own. *)
Definition with_err {A E} (f : E -> shot_err) (m : prog shot_db E A) : sprog A := fun ev w =>
  match m ev w with
  | (Ok a, w') => (Ok a, w')
  | (Err (Dom e), w') => (Err (Dom (f e)), w')
  | (Err (Db e), w') => (Err (Db e), w')
  end.

Definition randomKeySuffix : sprog string :=
  o <- read_random 16 ;;
  match o with Some b => ret (hex_encode b) | None => fail ErrKeyRandom end.

(** capturedAt.Format("2006/01/02") *)
Definition day_path (t : Z) : string :=
  let '(y, m, d) := civil_from_days (t / 86400000000000) in
  (padded 4 y ++ "/" ++ padded 2 m ++ "/" ++ padded 2 d)%string.

Definition object_key (contractID : string) (capturedAt : Z) (suffix : string) : string :=
  ("contracts/" ++ contractID ++ "/" ++ day_path capturedAt ++ "/" ++ suffix ++ ".webp.enc")%string.

(** sha256_cipher || gcm_nonce || captured_at || contract_id *)
Definition confirmSignedMessage (sha256Cipher gcmNonce : list Z) (capturedAt : Z) (contractID : string) : list Z :=
  sha256Cipher ++ gcmNonce ++ bytes_of (format_rfc3339 capturedAt) ++ bytes_of contractID.

Definition ingested_event (screenshotID contractID sessionID sliceID : string) (capturedAt : Z) (c : Confirm) : Event :=
  mkEvent "screenshot" screenshotID "screenshot.ingested" "screenshot.ingested" contractID
    (JObj [("screenshot_id", JStr screenshotID); ("contract_id", JStr contractID); ("session_id", JStr sessionID);
           ("slice_id", JStr sliceID); ("activity_pct", JInt (cf_ActivityPct c)); ("phash", JStr (encode_std (cf_PHash c)));
           ("captured_at", JTime capturedAt)]) None.

Record View := mkView {
  vw_ScreenshotID : string;
  vw_DownloadURL : string;
  vw_WrappedDEK : list Z;
  vw_GCMNonce : list Z;
  vw_CapturedAt : Z;
  vw_Status : string;
  vw_Flagged : bool
}.

Section Service.
Context `{Ed25519} (keys : KeyProvider (D := shot_db)) (presigner : Presigner) (bucket : string).

Definition RequestUploadSlot (contractID sessionID sliceID freelancerID deviceID : string) (capturedAt : Z)
  (clientDEK : list Z) : sprog UploadSlot :=
  if negb (length clientDEK =? 0)%nat && negb (length clientDEK =? 32)%nat then fail ErrClientDEK else
  k <- (if (length clientDEK =? 32)%nat
        then x <- with_err ErrDek (WrapDEK keys clientDEK) ;; let '(wrapped, keyID) := x in ret (None, wrapped, keyID)
        else x <- with_err ErrDek (GenerateDEK keys) ;; let '(dek, wrapped, keyID) := x in ret (Some dek, wrapped, keyID)) ;;
  let '(dek, wrapped, keyID) := k in
  suffix <- randomKeySuffix ;;
  slot <- CreateSlot (mkNewSlot contractID sessionID sliceID freelancerID deviceID capturedAt bucket
            (object_key contractID capturedAt suffix) wrapped keyID) ;;
  let '(ssID, key) := slot in
  match PresignPut presigner bucket key 300 with
  | inr msg => fail (ErrPresign msg)
  | inl (url, headers) => ret (mkUploadSlot ssID url bucket key wrapped dek keyID headers)
  end.

Definition ConfirmUpload (c : Confirm) : sprog unit :=
  x <- ConfirmContext (cf_ScreenshotID c) ;;
  let '(contractID, capturedAt, deviceID) := x in
  k <- attempt (DeviceAttestationKey deviceID) ;;
  match k with
  | Err _ => fail ErrNoDeviceKey
  | Ok pubkey =>
      if negb (length pubkey =? 32)%nat then fail ErrNoDeviceKey else
      if (length (cf_DeviceSignature c) =? 0)%nat then fail ErrNoSignature else
      if negb (ed25519_Verify pubkey (confirmSignedMessage (cf_SHA256Cipher c) (cf_GCMNonce c) capturedAt contractID)
                 (cf_DeviceSignature c)) then fail ErrBadSignature else
      in_tx (
        y <- store_ConfirmUpload c ;;
        let '(_, sessionID, sliceID) := y in
        Enqueue (ingested_event (cf_ScreenshotID c) contractID sessionID sliceID capturedAt c) ;;;
        commit)
  end.

(** The viewer is an auditor or a party of the contract. *)
Definition may_view (contractID viewerID : string) (isAdmin : bool) : sprog unit :=
  if isAdmin then ret tt else
  party <- IsContractParty contractID viewerID ;;
  if negb party then fail ErrForbidden else ret tt.

Definition ListByContract (contractID viewerID : string) (isAdmin : bool) : sprog (list Summary) :=
  may_view contractID viewerID isAdmin ;;;
  store_ListByContract contractID 200.

Definition GetScreenshot (screenshotID viewerID : string) (isAdmin : bool) : sprog View :=
  v <- GetForView screenshotID ;;
  may_view (vm_ContractID v) viewerID isAdmin ;;;
  match PresignGet presigner (vm_Bucket v) (vm_Key v) 120 with
  | inr msg => fail (ErrPresign msg)
  | inl url =>
      attempt (RecordView screenshotID) ;;;
      ret (mkView screenshotID url (vm_WrappedDEK v) (vm_GCMNonce v) (vm_CapturedAt v) (vm_Status v) (vm_Flagged v))
  end.
End Service.

(** ** Start-up (cmd/server) *)

Definition dev_master : list Z := bytes_of "dev-only-32-byte-master-key-1234".

(** buildKeyProvider, from the environment's name and KMS_LOCAL_MASTER_KEY;
    [None] is its error. *)
Definition buildKeyProvider `{Aead} (env keyText : string) : option (KeyProvider (D := shot_db) + crypto_err) :=
  match DecodeString keyText with
  | Some master =>
      if (length master =? 32)%nat then Some (NewLocalKeyProvider master)
      else if String.eqb env "production" then None else Some (NewLocalKeyProvider dev_master)
  | None => if String.eqb env "production" then None else Some (NewLocalKeyProvider dev_master)
  end.

(** Start-up never fails on the length of a key, and production runs only under
    a configured one. *)
Lemma buildKeyProvider_provides `{Aead} env keyText o :
  buildKeyProvider env keyText = Some o ->
  exists master, length master = 32%nat /\ o = inl (local_provider master (local_keyID master)) /\
    (env = "production" -> DecodeString keyText = Some master).
Proof.
  unfold buildKeyProvider. assert (forall m, length m = 32%nat -> NewLocalKeyProvider m = inl (local_provider (D := shot_db) m (local_keyID m))) as HN.
  { intros m L. unfold NewLocalKeyProvider. by rewrite L. }
  assert (length dev_master = 32%nat) as HD by reflexivity.
  destruct (DecodeString keyText) as [m|]; [destruct (Nat.eqb_spec (length m) 32) as [L|]|];
    [intros [= <-]; exists m; rewrite HN by done; done|..];
    (destruct (String.eqb_spec env "production"); [done|]; intros [= <-]; exists dev_master; rewrite HN by done; done).
Qed.

Example itoa_ttl : itoa 300 = "300".
Proof. reflexivity. Qed.

Example object_key_day : object_key "c1" 1782000000000000000 "ab" = "contracts/c1/2026/06/21/ab.webp.enc".
Proof. vm_compute. reflexivity. Qed.
