(* ===== verification/ScreenshotProofs.v ===== *)
(** * Properties of screenshots *)
From stdpp Require Import relations.
From S2P Require Export ScreenshotStore.

(** ** What the operations do to the tables *)

Definition slotted (id : string) (n : NewSlot) (d : shot_db) : shot_db :=
  put shot_metas_t (shot_metas d ++ [meta_of id n]) (put shots_t (shots d ++ [shot_of id n]) d).

(** A new row, admitted by the constraints. *)
Definition new_slot (id : string) (n : NewSlot) (d : shot_db) : Prop :=
  shot_check (shots d) (shot_of id n) = None /\ ~ In id (map me_screenshot_id (shot_metas d)).

(** The slot the call answered, when it answered. *)
Definition slot_outcome (n : NewSlot) (d : shot_db) (r : res shot_err (string * string)) (d' : shot_db) : Prop :=
  match r with
  | Ok (id, key) =>
      (exists s, In s (shots d) /\ has_slice (ns_SliceID n) s = true /\ id = sh_id s /\ key = sh_s3_key s /\ d' = d) \/
      (new_slot id n d /\ key = ns_Key n /\ d' = slotted id n d)
  | Err _ => d' = d \/ exists id, new_slot id n d /\ d' = slotted id n d
  end.

(** [s] is the row whose context was read first, [r] the row that the update
    returned. *)
Definition confirmed (t : Z) (c : Confirm) (s r : ShotRow) (d : shot_db) : shot_db :=
  put shot_HasOutbox (enqueued t (ingested_event (cf_ScreenshotID c) (sh_contract_id s) (sh_session_id r)
      (default "" (sh_slice_id r)) (sh_captured_at s) c) (shot_outbox d))
    (put shot_metas_t (update_where (has_key me_screenshot_id (cf_ScreenshotID c)) (confirmed_meta c) (shot_metas d))
       (put shots_t (update_where (pending (cf_ScreenshotID c)) stored_shot (shots d)) d)).

Section Outcomes.
Context `{Ed25519} (keys : KeyProvider (D := shot_db)) (presigner : Presigner) (bucket : string).
Context (Hkeys : detached keys).
Implicit Types (ev : env) (d : shot_db).

(** The signature of [c] verifies under the key of the device that asked for the
    slot of [s]. *)
Definition signed_by_device (c : Confirm) (s : ShotRow) (m : MetaRow) (d : shot_db) : Prop :=
  exists dev pub, me_device_id m = Some dev /\ device_key dev d = Some pub /\ length pub = 32%nat /\
    ed25519_Verify pub (confirmSignedMessage (cf_SHA256Cipher c) (cf_GCMNonce c) (sh_captured_at s) (sh_contract_id s))
      (cf_DeviceSignature c) = true.

Definition confirm_outcome (c : Confirm) (d d' : shot_db) : Prop :=
  d' = d \/ exists s m r t, find_shot (cf_ScreenshotID c) d = Some (s, m) /\ signed_by_device c s m d /\
    In r (shots d) /\ pending (cf_ScreenshotID c) r = true /\ d' = confirmed t c s r d.

Definition view_outcome (id : string) (d d' : shot_db) : Prop :=
  d' = d \/ d' = put shot_metas_t (update_where (has_key me_screenshot_id id) viewed (shot_metas d)) d.

Lemma wp_with_err {A} (f : crypto_err -> shot_err) (m : prog shot_db crypto_err A) ev d n
  (Q : res shot_err A -> world shot_db -> Prop) :
  outside m -> (forall e k, Q (Err e) (World d NoTx k)) ->
  (forall a k, fst (m ev (World d NoTx n)) = Ok a -> Q (Ok a) (World d NoTx k)) ->
  wp (with_err f m) ev (World d NoTx n) Q.
Proof.
  intros Ho Hf Hs. unfold wp, with_err. destruct (Ho ev (World d NoTx n)) as [H1 H2].
  destruct (m ev (World d NoTx n)) as [[a|[e|e]] [c' x k]]; cbn in *; subst; auto.
Qed.

Lemma wp_insert_slot n ev d t k :
  wp (insert_slot n) ev (World d (Live t d) k)
    (fun r w => ended (slot_outcome n d) r (World (committed w) NoTx (tick w))).
Proof.
  assert (forall e w, committed w = d -> ended (slot_outcome n d) (Err e) (World (committed w) NoTx (tick w))) as Herr
    by (intros e w ->; split; [done|by left]).
  unfold insert_slot. apply wp_bind, wp_exec; [by auto|]. unfold insert_row at 1. cbn [rows shots_t fresh].
  set (id := gen_uuid ev k). destruct (shot_check (shots d) (shot_of id n)) as [e|] eqn:C; [by apply Herr|].
  apply wp_bind, wp_exec; [by auto|]. unfold insert_row. cbn [rows shot_metas_t put shots_t shot_metas sh_id shot_of].
  destruct (unique_index _ _ _ _) as [e|] eqn:U; [by apply Herr|].
  assert (new_slot id n d) as Hnew.
  { split; [done|]. rewrite unique_index_None in U. intros (m & E & Hm)%in_map_iff. specialize (U m Hm). cbn in U.
    by rewrite E, String.eqb_refl in U. }
  apply wp_bind, wp_commit; intros; try apply wp_ret; split; try done; cbn; eauto.
Qed.

Lemma CreateSlot_outcome n ev d k : wp (CreateSlot n) ev (World d NoTx k) (ended (slot_outcome n d)).
Proof.
  unfold CreateSlot. apply wp_in_tx; [intros _; split; [done|by left]|].
  destruct (String.eqb (ns_SliceID n) ""); [apply wp_insert_slot|].
  apply wp_bind, wp_select_one; [intros _; split; [done|by left]|]. cbn [rows shots_t].
  destruct (List.find _ _) as [s|] eqn:F; [|apply wp_insert_slot]. apply wp_ret. split; [done|]. left.
  apply List.find_some in F as [F1 F2]. by exists s.
Qed.

(** Answers of RequestUploadSlot, with the key that is to encrypt. *)
Definition slot_key (clientDEK : list Z) (u : UploadSlot) : option (list Z) :=
  if (length clientDEK =? 32)%nat then Some clientDEK else us_PlaintextDEK u.

Definition request_of (contractID sessionID sliceID freelancerID deviceID : string) (cap : Z) (suffix : string)
  (wrapped : list Z) (keyID : string) : NewSlot :=
  mkNewSlot contractID sessionID sliceID freelancerID deviceID cap bucket (object_key contractID cap suffix) wrapped keyID.

(** The wrapped key comes from the provider, of the key that is to encrypt. *)
Definition wraps (wrapped : list Z) (key : list Z) : Prop :=
  lawful keys -> length key = 32%nat /\ forall ev2 w2, fst (UnwrapDEK keys wrapped ev2 w2) = Ok key.

Definition request_outcome (contractID sessionID sliceID freelancerID deviceID : string) (cap : Z) (clientDEK : list Z)
  (d : shot_db) (r : res shot_err UploadSlot) (d' : shot_db) : Prop :=
  match r with
  | Ok u => exists suffix wrapped keyID key,
      slot_key clientDEK u = Some key /\ wraps wrapped key /\
      slot_outcome (request_of contractID sessionID sliceID freelancerID deviceID cap suffix wrapped keyID) d
        (Ok (us_ScreenshotID u, us_Key u)) d'
  | Err _ => d' = d \/ exists id suffix wrapped keyID,
      new_slot id (request_of contractID sessionID sliceID freelancerID deviceID cap suffix wrapped keyID) d /\
      d' = slotted id (request_of contractID sessionID sliceID freelancerID deviceID cap suffix wrapped keyID) d
  end.

Lemma fst_snd {A B} (p : A * B) a : fst p = a -> p = (a, snd p).
Proof. intros <-. by destruct p. Qed.

Lemma RequestUploadSlot_outcome contractID sessionID sliceID freelancerID deviceID cap clientDEK ev d n :
  wp (RequestUploadSlot keys presigner bucket contractID sessionID sliceID freelancerID deviceID cap clientDEK) ev (rest d n)
    (ended (request_outcome contractID sessionID sliceID freelancerID deviceID cap clientDEK d)).
Proof.
  set (Q := ended _). assert (forall e k, Q (Err e) (World d NoTx k)) as Herr by (intros; split; [done|by left]).
  unfold RequestUploadSlot, rest. destruct (_ && _); [by apply wp_throw|].
  assert (forall dek wrapped keyID k, (forall u, us_PlaintextDEK u = dek -> exists key, slot_key clientDEK u = Some key /\ wraps wrapped key) ->
    wp (suffix <- randomKeySuffix ;;
        slot <- CreateSlot (request_of contractID sessionID sliceID freelancerID deviceID cap suffix wrapped keyID) ;;
        let '(ssID, key) := slot in
        match PresignPut presigner bucket key 300 with
        | inr msg => fail (ErrPresign msg)
        | inl (url, headers) => ret (mkUploadSlot ssID url bucket key wrapped dek keyID headers)
        end) ev (World d NoTx k) Q) as Hrest.
  { intros dek wrapped keyID k Hkey. apply wp_bind, wp_bind, wp_read_random. intros o. destruct o; [|by apply wp_throw].
    apply wp_ret, wp_bind. set (suffix := hex_encode l). eapply wp_mono; [apply CreateSlot_outcome|].
    intros r [c x m] [T O]. cbn in T, O. subst x. destruct r as [[ssID key]|e].
    - destruct (PresignPut presigner bucket key 300) as [[url headers]|msg].
      + apply wp_ret. split; [done|]. destruct (Hkey (mkUploadSlot ssID url bucket key wrapped dek keyID headers) eq_refl)
          as (dk & H1 & H2). by exists suffix, wrapped, keyID, dk.
      + apply wp_throw. split; [done|]. destruct O as [(s & _ & _ & _ & _ & ->)|(H1 & _ & ->)]; [by left|right].
        by exists ssID, suffix, wrapped, keyID.
    - split; [done|]. destruct O as [->|(id & H1 & ->)]; [by left|right]. by exists id, suffix, wrapped, keyID. }
  apply wp_bind. destruct (Nat.eqb_spec (length clientDEK) 32) as [L|L].
  - apply wp_bind, wp_with_err; [apply (wrap_outside _ Hkeys)|done|]. intros [wrapped keyID] k E. apply wp_ret, Hrest.
    intros u _. exists clientDEK. unfold slot_key. rewrite L. split; [done|]. intros HL.
    apply fst_snd in E. by apply (wrapped_unwraps keys HL _ _ _ _ _ _ E).
  - apply wp_bind, wp_with_err; [apply (generate_outside _ Hkeys)|done|]. intros [[dek wrapped] keyID] k E. apply wp_ret, Hrest.
    intros u Hu. exists dek. unfold slot_key. rewrite (proj2 (Nat.eqb_neq _ _) L). split; [done|]. intros HL.
    apply fst_snd in E. by apply (generated_unwraps keys HL _ _ _ _ _ _ E).
Qed.

Lemma ConfirmUpload_outcome c ev d n :
  wp (ConfirmUpload c) ev (rest d n) (ended (fun _ d' => confirm_outcome c d d')).
Proof.
  set (Q := ended _). assert (forall e k, Q (Err e) (World d NoTx k)) as Herr by (intros; split; [done|by left]).
  unfold ConfirmUpload, ConfirmContext, DeviceAttestationKey, rest. apply wp_bind, wp_bind.
  apply (wp_pool_read _ (find_shot (cf_ScreenshotID c) d)); [done|by intros|].
  destruct (find_shot _ d) as [[s m]|] eqn:F; [|by apply wp_throw]. apply wp_ret, wp_bind, wp_attempt.
  destruct (String.eqb_spec (default "" (me_device_id m)) "") as [|ND]; [by apply wp_throw, wp_throw|].
  assert (me_device_id m = Some (default "" (me_device_id m))) as DV by by destruct (me_device_id m).
  set (dev := default "" (me_device_id m)) in *.
  apply wp_bind, (wp_pool_read _ (device_key dev d)); [done|intros; by apply wp_throw|].
  destruct (device_key dev d) as [pub|] eqn:K; [|by apply wp_throw, wp_throw]. apply wp_ret.
  destruct (Nat.eqb_spec (length pub) 32) as [L|]; [|by apply wp_throw]. cbn [negb].
  destruct (_ =? 0)%nat; [by apply wp_throw|]. destruct (ed25519_Verify _ _ _) eqn:V; [|by apply wp_throw]. cbn [negb].
  assert (signed_by_device c s m d) as HS by by exists dev, pub.
  assert (forall e w, committed w = d -> Q (Err e) (World (committed w) NoTx (tick w))) as Hin by (intros e w ->; apply Herr).
  apply wp_in_tx; [by intros|]. unfold store_ConfirmUpload.
  apply wp_bind, wp_bind, (wp_update_free shots_t); [intros _; by apply Hin|]. cbn [rows shots_t].
  destruct (select_rows (pending (cf_ScreenshotID c)) (shots d)) as [|r rs] eqn:SR; [by apply wp_throw, Hin|]. cbn [map].
  assert (In r (select_rows (pending (cf_ScreenshotID c)) (shots d))) as [Hr Pr]%List.filter_In by (rewrite SR; by left).
  destruct (negb _); [by apply wp_throw, Hin|].
  apply wp_bind, (wp_update_free shot_metas_t); [intros _; by apply Hin|]. apply wp_ret.
  apply wp_bind, wp_Enqueue; [intros _; by apply Hin|]. set (d' := put outbox _ _).
  assert (confirm_outcome c d d') as Hok 
    by (right; exists s, m, r; eexists; split; [exact F|]; repeat split; [exact HS|exact Hr|exact Pr]).
  apply wp_commit; intros; split; try done; by left.
Qed.

Lemma wp_may_view contractID viewer isAdmin ev d n (Q : res shot_err unit -> world shot_db -> Prop) :
  (forall e k, Q (Err e) (World d NoTx k)) ->
  (forall k, isAdmin = true \/ is_party contractID viewer d = true -> Q (Ok tt) (World d NoTx k)) ->
  wp (may_view contractID viewer isAdmin) ev (World d NoTx n) Q.
Proof.
  intros Hf Hs. unfold may_view, IsContractParty. destruct isAdmin; [apply wp_ret; auto|].
  apply wp_bind, (wp_pool_read _ (is_party contractID viewer d)); [done|by intros|].
  destruct (is_party _ _ d); [apply wp_ret; auto|by apply wp_throw].
Qed.

(** What a view may answer: the material of the row, to an auditor or a party. *)
Definition may_answer (viewer : string) (isAdmin : bool) (id : string) (d : shot_db) (v : View) : Prop :=
  exists x, find_shot id d = Some x /\
    vw_WrappedDEK v = me_wrapped_dek (snd x) /\ vw_GCMNonce v = me_gcm_nonce (snd x) /\
    (isAdmin = true \/ is_party (sh_contract_id (fst x)) viewer d = true).

Lemma GetScreenshot_outcome id viewer isAdmin ev d n :
  wp (GetScreenshot presigner id viewer isAdmin) ev (rest d n)
    (ended (fun r d' => view_outcome id d d' /\ match r with Ok v => may_answer viewer isAdmin id d v | Err _ => True end)).
Proof.
  set (Q := ended _). assert (forall e k, Q (Err e) (World d NoTx k)) as Herr by (intros; split; [done|split; [by left|done]]).
  unfold GetScreenshot, GetForView, rest. apply wp_bind, wp_bind.
  apply (wp_pool_read _ (find_shot id d)); [done|by intros|].
  destruct (find_shot id d) as [[s m]|] eqn:F; [|by apply wp_throw]. apply wp_ret.
  apply wp_bind, wp_may_view; [done|]. intros k HV. destruct (PresignGet _ _ _ _); [|by apply wp_throw].
  apply wp_bind, wp_attempt, wp_exec_pool. unfold update_rows.
  assert (forall d' j, view_outcome id d d' ->
    wp (ret (mkView id s0 (vm_WrappedDEK (view_material (s, m))) (vm_GCMNonce (view_material (s, m)))
      (vm_CapturedAt (view_material (s, m))) (vm_Status (view_material (s, m))) (vm_Flagged (view_material (s, m))))) ev
      (World d' NoTx j) Q) as Hret.
  { intros d' j HO. apply wp_ret. split; [done|]. split; [done|]. exists (s, m). by repeat split. }
  destruct (List.find _ _) as [r|]; (split; [intros _; apply Hret; by left|]); [apply Hret; by left|].
  split; [intros _|]; apply Hret; by right.
Qed.

Lemma ListByContract_outcome contractID viewer isAdmin ev d n :
  wp (ListByContract contractID viewer isAdmin) ev (rest d n)
    (ended (fun r d' => d' = d /\ match r with
                                  | Ok l => l = summaries contractID 200 d /\ (isAdmin = true \/ is_party contractID viewer d = true)
                                  | Err _ => True
                                  end)).
Proof.
  unfold ListByContract, rest. apply wp_bind, wp_may_view; [by intros|]. intros k HV.
  apply (wp_pool_read _ (summaries contractID 200 d)); [done|by intros|]. by split.
Qed.
End Outcomes.

(** ** Calls and reachable tables *)

Section Reachable.
Context `{Ed25519} (keys : KeyProvider (D := shot_db)) (presigner : Presigner) (bucket : string).
Context (Hkeys : detached keys).
Implicit Types (ev : env) (d : shot_db).

Inductive shot_op :=
| ShSlot (contractID sessionID sliceID freelancerID deviceID : string) (cap : Z) (clientDEK : list Z)
| ShConfirm (c : Confirm)
| ShView (id viewer : string) (isAdmin : bool).

Definition shot_run (o : shot_op) : sprog unit :=
  match o with
  | ShSlot c s sl f dev cap dek => RequestUploadSlot keys presigner bucket c s sl f dev cap dek ;;; ret tt
  | ShConfirm c => ConfirmUpload c
  | ShView id viewer isAdmin => GetScreenshot presigner id viewer isAdmin ;;; ret tt
  end.

Definition shot_after (o : shot_op) ev d (n : nat) : shot_db := committed (snd (shot_run o ev (rest d n))).

Inductive shot_change (d : shot_db) : shot_db -> Prop :=
| sc_none : shot_change d d
| sc_slot id n : new_slot id n d -> shot_change d (slotted id n d)
| sc_confirm c s m r t : find_shot (cf_ScreenshotID c) d = Some (s, m) -> signed_by_device c s m d ->
    In r (shots d) -> pending (cf_ScreenshotID c) r = true -> shot_change d (confirmed t c s r d)
| sc_view id : shot_change d (put shot_metas_t (update_where (has_key me_screenshot_id id) viewed (shot_metas d)) d).

Lemma shot_call_change o ev d n : shot_change d (shot_after o ev d n).
Proof.
  assert (forall A (m : sprog A) (O : res shot_err A -> shot_db -> Prop), wp m ev (rest d n) (ended O) ->
    (forall r d', O r d' -> shot_change d d') -> shot_change d (committed (snd ((m ;;; ret tt) ev (rest d n))))) as Hdrop.
  { intros A m O HW HO. unfold wp, bind in *. destruct (m ev (rest d n)) as [[a|e] w]; cbn in *; eapply HO, HW. }
  unfold shot_after. destruct o as [c s sl f dev cap dek|c|id viewer isAdmin]; cbn [shot_run].
  - eapply Hdrop; [by apply RequestUploadSlot_outcome|]. intros [u|e] d'; cbn.
    + intros (suffix & w & k & key & _ & _ & [(x & _ & _ & _ & _ & ->)|(H1 & _ & ->)]); by constructor.
    + intros [->|(id & suffix & w & k & H1 & ->)]; by constructor.
  - pose proof (ConfirmUpload_outcome c ev d n) as [_ O].
    destruct O as [->|(s & m & r & t & F & S & R & P & ->)]; by econstructor.
  - eapply Hdrop; [by apply GetScreenshot_outcome|]. intros r d' [[->| ->] _]; constructor.
Qed.

(** Contracts and devices are the business of other services. *)
Inductive shot_step (d : shot_db) : shot_db -> Prop :=
| shs_call o ev n : shot_step d (shot_after o ev d n)
| shs_others parties devices : shot_step d (mkShotDb (shots d) (shot_metas d) parties devices (shot_outbox d)).

Definition no_shots : shot_db := mkShotDb [] [] [] [] [].

Definition shot_reachable (d : shot_db) : Prop := rtc shot_step no_shots d.

(** ** The invariant *)

Definition ingestions (id : string) (l : list OutboxRow) : list OutboxRow := List.filter (has_key aggregate_id id) l.

Definition ingested_once (d : shot_db) (s : ShotRow) : Prop :=
  (sh_status s = "pending_upload" /\ ingestions (sh_id s) (shot_outbox d) = []) \/
  (sh_status s = "stored" /\ exists r, ingestions (sh_id s) (shot_outbox d) = [r] /\ event_type r = "screenshot.ingested").

Record shots_inv (d : shot_db) : Prop := {
  si_pairs : map me_screenshot_id (shot_metas d) = map sh_id (shots d);
  si_keyed : keyed sh_id (shots d);
  si_once : forall s, In s (shots d) -> ingested_once d s;
  si_known : forall r, In r (shot_outbox d) -> In (aggregate_id r) (map sh_id (shots d))
}.

Lemma shots_inv_start : shots_inv no_shots.
Proof. constructor; try done. constructor. Qed.

Lemma ingestions_none id l : (forall r, In r l -> aggregate_id r <> id) -> ingestions id l = [].
Proof.
  intros Hn. unfold ingestions. apply select_none. intros r Hr. by apply has_key_false, Hn.
Qed.

Lemma shots_inv_slot id n d : new_slot id n d -> shots_inv d -> shots_inv (slotted id n d).
Proof.
  intros [_ Hn] [H1 H2 H3 H4]. rewrite H1 in Hn.
  constructor; cbn [slotted put shot_metas_t shots_t shot_metas shots shot_outbox].
  - by rewrite !map_app, H1.
  - by apply keyed_snoc.
  - intros s [Hs|[<-|[]]]%in_app_iff; [by apply H3|]. left. split; [done|]. apply ingestions_none.
    intros r Hr E. apply Hn. change (sh_id (shot_of id n)) with id in E. rewrite <- E. by apply H4.
  - intros r Hr. rewrite map_app. apply in_app_iff. left. by apply H4.
Qed.

Lemma map_shot_id id l : map sh_id (update_where (pending id) stored_shot l) = map sh_id l.
Proof. by apply map_key_update. Qed.

Lemma shots_inv_confirm c s m r t d :
  find_shot (cf_ScreenshotID c) d = Some (s, m) -> In r (shots d) -> pending (cf_ScreenshotID c) r = true ->
  shots_inv d -> shots_inv (confirmed t c s r d).
Proof.
  intros F Hr [Er%has_key_true Sr%has_key_true]%andb_true_iff [H1 H2 H3 H4].
  assert (forall id l, ingestions id (enqueued t (ingested_event (cf_ScreenshotID c) (sh_contract_id s) (sh_session_id r)
    (default "" (sh_slice_id r)) (sh_captured_at s) c) l) =
    ingestions id l ++ (if String.eqb (cf_ScreenshotID c) id then
      [mkOutbox (next_id o_id l) "screenshot" (cf_ScreenshotID c) "screenshot.ingested" "screenshot.ingested"
        (sh_contract_id s) (Payload (ingested_event (cf_ScreenshotID c) (sh_contract_id s) (sh_session_id r)
          (default "" (sh_slice_id r)) (sh_captured_at s) c)) None t None] else [])) as Hi.
  { intros id l. unfold ingestions, enqueued. rewrite List.filter_app. f_equal. }
  constructor; cbn [confirmed put shot_HasOutbox shot_metas_t shots_t shot_metas shots shot_outbox].
  - rewrite map_key_update by done. by rewrite H1, map_shot_id.
  - unfold keyed. by rewrite map_shot_id.
  - intros x Hx. unfold ingested_once. cbn [shot_outbox put shot_HasOutbox]. rewrite Hi.
    apply In_update in Hx as [[Hx Px]|(x0 & Hx & Px & ->)].
    + destruct (String.eqb_spec (cf_ScreenshotID c) (sh_id x)) as [E|]; [|rewrite app_nil_r; by apply H3].
      assert (x = r) as -> by (eapply (keyed_inj sh_id); eauto; congruence).
      unfold pending in Px. rewrite (proj2 (has_key_true _ _ _) Er), (proj2 (has_key_true _ _ _) Sr) in Px. done.
    + apply andb_true_iff in Px as [Ex%has_key_true Sx%has_key_true]. right. split; [done|].
      cbn [stored_shot sh_id]. rewrite Ex, String.eqb_refl.
      destruct (H3 x0 Hx) as [[_ E0]|[Sx' _]]; [|congruence]. rewrite Ex in E0. rewrite E0. by eexists.
  - intros x [Hx|[<-|[]]]%in_app_iff; rewrite map_shot_id; [by apply H4|]. cbn. rewrite <- Er. by apply in_map.
Qed.

Lemma shots_inv_change d d' : shot_change d d' -> shots_inv d -> shots_inv d'.
Proof.
  destruct 1 as [|id n N|c s m r t F S R P|id]; intros HI; [done|by apply shots_inv_slot|by eapply shots_inv_confirm|].
  destruct HI as [H1 H2 H3 H4]. constructor; try done. cbn [put shot_metas_t shot_metas shots]. by rewrite map_key_update.
Qed.

Lemma shots_inv_step d d' : shots_inv d -> shot_step d d' -> shots_inv d'.
Proof.
  intros HI. destruct 1 as [o ev n|parties devices]; [by eapply shots_inv_change, HI; apply shot_call_change|].
  destruct HI. by constructor.
Qed.

Lemma shots_inv_steps d d' : rtc shot_step d d' -> shots_inv d -> shots_inv d'.
Proof. induction 1; eauto using shots_inv_step. Qed.

Lemma shot_reachable_inv d : shot_reachable d -> shots_inv d.
Proof. intros R. apply (shots_inv_steps _ _ R), shots_inv_start. Qed.

(** A screenshot counts once. In every reachable database screenshots and
    metadata go together one to one, and each screenshot either waits for its
    upload and was not announced, or is stored and was announced exactly once. *)
Theorem screenshot_ingested_once d s :
  shot_reachable d -> In s (shots d) ->
  (exists! m, In m (shot_metas d) /\ me_screenshot_id m = sh_id s) /\ ingested_once d s.
Proof.
  intros HR Hs. destruct (shot_reachable_inv d HR) as [H1 H2 H3 _]. split; [|by apply H3].
  assert (In (sh_id s) (map me_screenshot_id (shot_metas d))) as (m & E & Hm)%in_map_iff by (rewrite H1; by apply in_map).
  exists m. split; [done|]. intros m' [Hm' E']. apply (NoDup_map_inj me_screenshot_id (shot_metas d)); [|done|done|congruence].
  rewrite H1. exact H2.
Qed.

(** ** Evidence *)

(** The signature that the row carries verifies, under the key enrolled in [d]
    for the row's device, over the row's own hash, nonce, instant and contract. *)
Definition vouched_evidence (s : ShotRow) (m : MetaRow) (d : shot_db) : Prop :=
  exists dev pub sg, me_device_id m = Some dev /\ device_key dev d = Some pub /\ length pub = 32%nat /\
    me_device_signature m = Some sg /\
    ed25519_Verify pub (confirmSignedMessage (me_sha256_cipher m) (me_gcm_nonce m) (sh_captured_at s) (sh_contract_id s)) sg = true.

Lemma find_shot_In id d s m : find_shot id d = Some (s, m) ->
  In s (shots d) /\ In m (shot_metas d) /\ sh_id s = id /\ me_screenshot_id m = id.
Proof.
  intros [Hx Hk%has_key_true]%List.find_some. cbn in Hk. unfold shot_join in Hx.
  apply in_flat_map in Hx as (s' & Hs & (m' & [= -> ->] & [Hm Em%has_key_true]%List.filter_In)%in_map_iff).
  repeat split; congruence.
Qed.

(** C26: Evidence is signed. A screenshot that a call turns into a stored one had
    its upload pending, and the metadata then carry a signature that verifies,
    under the key enrolled for the device that asked for the slot, over the hash
    and nonce now stored, the instant of the slot and its contract; nothing that
    the confirmation says of contract, instant or key is believed. *)
Theorem evidence_is_signed o ev d n s :
  shot_reachable d -> In s (shots (shot_after o ev d n)) -> sh_status s = "stored" ->
  In s (shots d) \/
  (exists s0, In s0 (shots d) /\ sh_status s0 = "pending_upload" /\ s = stored_shot s0) /\
  exists m, In m (shot_metas (shot_after o ev d n)) /\ me_screenshot_id m = sh_id s /\ vouched_evidence s m d.
Proof.
  intros HR Hs St. destruct (shot_reachable_inv d HR) as [H1 H2 _ _].
  destruct (shot_call_change o ev d n) as [|id sl N|c s0 m r t F S R P|id]; [by left| | |by left].
  - apply in_app_iff in Hs as [Hs|[<-|[]]]; [by left|done].
  - apply In_update in Hs as [[Hs _]|(x & Hx & Px & ->)]; [by left|right].
    unfold pending in Px, P. apply andb_true_iff in Px as [Ex%has_key_true Sx%has_key_true].
    apply andb_true_iff in P as [Er%has_key_true _]. split; [by exists x|].
    apply find_shot_In in F as (F1 & F2 & F3 & F4).
    assert (x = s0) as -> by (eapply (keyed_inj sh_id); eauto; congruence).
    destruct S as (dev & pub & S1 & S2 & S3 & S4). exists (confirmed_meta c m). split.
    { cbn [confirmed put shot_HasOutbox shot_metas_t shot_metas]. apply in_map_iff. exists m. split; [|done].
      by rewrite (proj2 (has_key_true _ _ _) F4). }
    split; [cbn; congruence|]. by exists dev, pub, (cf_DeviceSignature c).
Qed.

(** The same evidence, whatever the view counter says. *)
Definition same_evidence (m m' : MetaRow) : Prop :=
  me_screenshot_id m' = me_screenshot_id m /\ me_wrapped_dek m' = me_wrapped_dek m /\ me_device_id m' = me_device_id m /\
  me_kms_key_id m' = me_kms_key_id m.

Definition same_upload (m m' : MetaRow) : Prop :=
  me_sha256_cipher m' = me_sha256_cipher m /\ me_gcm_nonce m' = me_gcm_nonce m /\
  me_device_signature m' = me_device_signature m /\ me_phash m' = me_phash m.

(** The metadata of a screenshot go on; those of a stored one keep its upload. *)
Definition keeps (d d' : shot_db) : Prop :=
  (forall m, In m (shot_metas d) -> exists m', In m' (shot_metas d') /\ same_evidence m m' /\
     ((exists s, In s (shots d) /\ sh_id s = me_screenshot_id m /\ sh_status s = "stored") -> same_upload m m')) /\
  (forall s, In s (shots d) -> sh_status s = "stored" -> In s (shots d')).

Lemma keeps_change d d' : shot_change d d' -> shots_inv d -> keeps d d'.
Proof.
  intros [|id sl N|c s0 m r t F S R P|id] [H1 H2 _ _].
  - split; [|done]. intros m Hm. by exists m.
  - split; [|intros s Hs _; apply in_app_iff; by left]. intros m Hm. exists m. split; [apply in_app_iff; by left|done].
  - unfold pending in P. apply andb_true_iff in P as [Er%has_key_true Sr%has_key_true]. split.
    + intros x Hx. destruct (has_key me_screenshot_id (cf_ScreenshotID c) x) eqn:K.
      * exists (confirmed_meta c x). split; [apply in_map_iff; exists x; by rewrite K|]. split; [done|].
        intros (s & Hs & Es & Ss). apply has_key_true in K.
        assert (s = r) as -> by (eapply (keyed_inj sh_id); eauto; congruence). congruence.
      * exists x. split; [apply in_map_iff; exists x; by rewrite K|done].
    + intros s Hs Ss. apply in_map_iff. exists s. split; [|done]. unfold pending.
      assert (has_key sh_status "pending_upload" s = false) as ->; [apply has_key_false; congruence|].
      by rewrite andb_false_r.
  - split; [|done]. intros x Hx. destruct (has_key me_screenshot_id id x) eqn:K; [exists (viewed x)|exists x];
      (split; [apply in_map_iff; exists x; by rewrite K|done]).
Qed.

Lemma keeps_steps d d' : rtc shot_step d d' -> shots_inv d -> keeps d d'.
Proof.
  induction 1 as [d|d1 d2 d3 S _ IH]; intros HI.
  { split; [|done]. intros m Hm. by exists m. }
  assert (keeps d1 d2) as [K1 K2].
  { destruct S as [o ev n|parties devices]; [by apply keeps_change; [apply shot_call_change|]|].
    split; [|done]. intros m Hm. by exists m. }
  destruct (IH (shots_inv_step _ _ HI S)) as [K3 K4]. split; [|auto]. intros m Hm.
  destruct (K1 m Hm) as (m2 & Hm2 & (A1 & A2 & A3 & A4) & B).
  destruct (K3 m2 Hm2) as (m3 & Hm3 & (C1 & C2 & C3 & C4) & E).
  exists m3. split; [done|]. split; [by repeat split; congruence|]. intros (s & Hs & Es & Ss).
  destruct B as (B1 & B2 & B3 & B4); [by exists s|]. destruct E as (E1 & E2 & E3 & E4); [exists s; split; [auto|split; congruence]|].
  repeat split; congruence.
Qed.

(** Evidence is final. From a reachable state on, a stored screenshot stays
    stored, and its metadata keep the wrapped key, hash, nonce, signature and
    perceptual hash of its one confirmation, whatever is called. *)
Theorem evidence_is_final d d' s m :
  shot_reachable d -> rtc shot_step d d' ->
  In s (shots d) -> sh_status s = "stored" -> In m (shot_metas d) -> me_screenshot_id m = sh_id s ->
  In s (shots d') /\ exists m', In m' (shot_metas d') /\ same_evidence m m' /\ same_upload m m'.
Proof.
  intros HR HS Hs St Hm Em. destruct (keeps_steps d d' HS (shot_reachable_inv d HR)) as [K1 K2].
  split; [by apply K2|]. destruct (K1 m Hm) as (m' & H1 & H2 & H3). exists m'. split; [done|]. split; [done|].
  apply H3. by exists s.
Qed.

(** ** From the device to the viewer *)

(** What a device captured can be viewed. If a request for an upload slot
    answers with a new screenshot, then whoever is later shown that screenshot,
    at whatever time and after whatever calls, is handed a wrapped key that the
    key provider unwraps to the key of the slot: the one the device had chosen
    offline, or else the one the answer gave it. What was encrypted under that
    key and the confirmed nonce therefore decrypts. *)
Theorem captured_is_viewable `{Aead} contractID sessionID sliceID freelancerID deviceID cap clientDEK ev d n u w d2 viewer isAdmin ev2 k v w2 :
  lawful keys -> shot_reachable d ->
  RequestUploadSlot keys presigner bucket contractID sessionID sliceID freelancerID deviceID cap clientDEK ev (rest d n) = (Ok u, w) ->
  ~ In (us_ScreenshotID u) (map sh_id (shots d)) ->
  rtc shot_step (committed w) d2 ->
  GetScreenshot presigner (us_ScreenshotID u) viewer isAdmin ev2 (rest d2 k) = (Ok v, w2) ->
  exists key, slot_key clientDEK u = Some key /\
    (forall ev3 w3, fst (UnwrapDEK keys (vw_WrappedDEK v) ev3 w3) = Ok key) /\
    (length (vw_GCMNonce v) = NonceSize -> forall pt aad ev3 w3,
       fst (DecryptEnvelope keys (mkEnvelope (vw_WrappedDEK v) (vw_GCMNonce v) (seal key (vw_GCMNonce v) pt aad) "") aad ev3 w3) = Ok pt).
Proof.
  intros HL HR HRun Hnew HS HV.
  pose proof (RequestUploadSlot_outcome keys presigner bucket Hkeys contractID sessionID sliceID freelancerID deviceID cap clientDEK ev d n) as HO.
  apply (wp_run _ _ _ _ _ _ HRun) in HO as [_ (suffix & wrapped & keyID & key & Hk & Hw & O)].
  destruct O as [(s & Hs & _ & E & _)|(N & _ & Ew)]; [destruct Hnew; rewrite E; by apply in_map|].
  pose proof (GetScreenshot_outcome presigner (us_ScreenshotID u) viewer isAdmin ev2 d2 k) as HG.
  apply (wp_run _ _ _ _ _ _ HV) in HG as (_ & _ & ([s m] & F & E1 & E2 & _)).
  apply find_shot_In in F as (F1 & F2 & F3 & F4). cbn [snd] in E1, E2.
  assert (shots_inv (committed w)) as HI by (rewrite Ew; by apply shots_inv_slot, shot_reachable_inv).
  pose proof (shots_inv_steps _ _ HS HI) as HI2.
  set (m0 := meta_of (us_ScreenshotID u) (request_of bucket contractID sessionID sliceID freelancerID deviceID cap suffix wrapped keyID)) in *.
  assert (In m0 (shot_metas (committed w))) as Hm0 by (rewrite Ew; apply in_app_iff; right; by left).
  destruct (proj1 (keeps_steps _ _ HS HI) m0 Hm0) as (m1 & Hm1 & (A1 & A2 & _ & _) & _).
  assert (m1 = m) as ->.
  { apply (NoDup_map_inj me_screenshot_id (shot_metas d2)); [|done..|].
    - rewrite (si_pairs _ HI2). apply (si_keyed _ HI2).
    - rewrite A1, F4. done. }
  assert (vw_WrappedDEK v = wrapped) as EW by (rewrite E1, A2; done).
  exists key. rewrite EW. split; [done|]. split; [by apply Hw|]. intros L pt aad ev3 w3.
  rewrite (DecryptEnvelope_runs keys _ key); [|by apply Hw|done|by apply Hw]. cbn [env_Nonce env_Ciphertext]. by rewrite open_seal.
Qed.
End Reachable.

(** ** Demonstration *)

#[local] Existing Instance toy_aead.

(** A signature is the message under the key. *)
#[local] Instance toy_ed25519 : Ed25519 := fun pub msg sg => bool_decide (sg = pub ++ msg).

Definition demo_keys : KeyProvider (D := shot_db) := local_provider (repeat 66 32) "local:demo".
Definition demo_device_key : list Z := repeat 7 32.
Definition demo_dek : list Z := repeat 9 32.
Definition demo_stub : Presigner := StubPresigner "http://s3".

Definition demo_enrolled : shot_db :=
  mkShotDb [] [] [mkPartiesRow "c1" "ann" "bob"] [mkDeviceRow "dev1" (Some demo_device_key)] [].

Definition demo_nonce : list Z := repeat 1 12.

Definition demo_confirm (id : string) : Confirm :=
  mkConfirm id [4; 5] demo_nonce (demo_device_key ++ confirmSignedMessage [4; 5] demo_nonce 0 "c1") 10 10 100 "webp" [] 80.

Definition demo_request (dek : list Z) : sprog UploadSlot :=
  RequestUploadSlot demo_keys demo_stub "shots" "c1" "s1" "sl1" "bob" "dev1" 0 dek.

Definition demo_slot : UploadSlot := Eval vm_compute in
  match fst (demo_request demo_dek quiet_env (rest demo_enrolled 0)) with
  | Ok u => u
  | Err _ => mkUploadSlot "" "" "" "" [] None "" []
  end.

Definition waiting : shot_db := Eval vm_compute in committed (snd (demo_request demo_dek quiet_env (rest demo_enrolled 0))).

Definition captured : shot_db := Eval vm_compute in
  shot_after demo_keys demo_stub "shots" (ShConfirm (demo_confirm (us_ScreenshotID demo_slot))) quiet_env waiting 20.

Lemma demo_requested : exists w, demo_request demo_dek quiet_env (rest demo_enrolled 0) = (Ok demo_slot, w) /\ committed w = waiting.
Proof. eexists. split; vm_compute; reflexivity. Qed.

Lemma captured_eq :
  shot_after demo_keys demo_stub "shots" (ShConfirm (demo_confirm (us_ScreenshotID demo_slot))) quiet_env waiting 20 = captured.
Proof. vm_compute. reflexivity. Qed.

Lemma demo_enrolled_reachable : shot_reachable demo_keys demo_stub "shots" demo_enrolled.
Proof. apply rtc_once. exact (shs_others demo_keys demo_stub "shots" no_shots _ _). Qed.

Lemma waiting_reachable : shot_reachable demo_keys demo_stub "shots" waiting.
Proof.
  unfold shot_reachable. etrans; [exact demo_enrolled_reachable|]. apply rtc_once.
  assert (shot_after demo_keys demo_stub "shots" (ShSlot "c1" "s1" "sl1" "bob" "dev1" 0 demo_dek) quiet_env demo_enrolled 0 = waiting) as <-
    by (vm_compute; reflexivity).
  apply shs_call.
Qed.

Lemma waiting_captured : rtc (shot_step demo_keys demo_stub "shots") waiting captured.
Proof. rewrite <- captured_eq. apply rtc_once, shs_call. Qed.

Lemma evidence_reachable : shot_reachable demo_keys demo_stub "shots" captured.
Proof. unfold shot_reachable. etrans; [exact waiting_reachable|exact waiting_captured]. Qed.

Definition captured_shot : ShotRow := Eval vm_compute in
  match shots captured with s :: _ => s | [] => mkShot "" "" "" None "" 0 "" "" "" end.

Definition captured_meta : MetaRow := Eval vm_compute in
  match shot_metas captured with m :: _ => m | [] => meta_of "" (mkNewSlot "" "" "" "" "" 0 "" "" [] "") end.

Lemma demo_detached : detached demo_keys.
Proof. apply local_detached. Qed.

Lemma screenshot_ingested_once_witness :
  sh_status captured_shot = "stored" /\
  (exists! m, In m (shot_metas captured) /\ me_screenshot_id m = sh_id captured_shot) /\ ingested_once captured captured_shot.
Proof.
  split; [reflexivity|]. apply (screenshot_ingested_once demo_keys demo_stub "shots" demo_detached captured).
  - exact evidence_reachable.
  - by left.
Defined.

Lemma evidence_is_signed_witness :
  In captured_shot (shots waiting) \/
  (exists s0, In s0 (shots waiting) /\ sh_status s0 = "pending_upload" /\ captured_shot = stored_shot s0) /\
  exists m, In m (shot_metas captured) /\ me_screenshot_id m = sh_id captured_shot /\ vouched_evidence captured_shot m waiting.
Proof.
  pose proof (evidence_is_signed demo_keys demo_stub "shots" demo_detached
    (ShConfirm (demo_confirm (us_ScreenshotID demo_slot))) quiet_env waiting 20 captured_shot waiting_reachable) as T.
  rewrite captured_eq in T. apply T; [by left|reflexivity].
Defined.

Lemma evidence_is_final_witness :
  In captured_shot (shots captured) /\
  exists m', In m' (shot_metas captured) /\ same_evidence captured_meta m' /\ same_upload captured_meta m'.
Proof.
  apply (evidence_is_final demo_keys demo_stub "shots" demo_detached captured captured);
    [exact evidence_reachable|constructor|by left|reflexivity|by left|reflexivity].
Defined.

Definition demo_view : View := Eval vm_compute in
  match fst (GetScreenshot demo_stub (us_ScreenshotID demo_slot) "ann" false quiet_env (rest captured 40)) with
  | Ok v => v
  | Err _ => mkView "" "" [] [] 0 "" false
  end.

Lemma demo_viewed : exists w,
  GetScreenshot demo_stub (us_ScreenshotID demo_slot) "ann" false quiet_env (rest captured 40) = (Ok demo_view, w).
Proof. eexists. vm_compute. reflexivity. Qed.

Lemma captured_is_viewable_witness :
  exists key, slot_key demo_dek demo_slot = Some key /\
    (forall ev3 w3, fst (UnwrapDEK demo_keys (vw_WrappedDEK demo_view) ev3 w3) = Ok key) /\
    (length (vw_GCMNonce demo_view) = NonceSize -> forall pt aad ev3 w3,
       fst (DecryptEnvelope demo_keys (mkEnvelope (vw_WrappedDEK demo_view) (vw_GCMNonce demo_view)
              (seal key (vw_GCMNonce demo_view) pt aad) "") aad ev3 w3) = Ok pt).
Proof.
  destruct demo_requested as (w & E & C). destruct demo_viewed as (w2 & V).
  assert (rtc (shot_step demo_keys demo_stub "shots") (committed w) captured) as HS by (rewrite C; exact waiting_captured).
  exact (captured_is_viewable demo_keys demo_stub "shots" demo_detached "c1" "s1" "sl1" "bob" "dev1" 0 demo_dek quiet_env
    demo_enrolled 0 demo_slot w captured "ann" false quiet_env 40 demo_view w2 (local_lawful _ _) demo_enrolled_reachable E
    (fun F => F) HS V).
Defined.

(** Asking again for the same slice, online: the answer holds a fresh key, but
    the row keeps the wrapped form of the first, so what the device encrypts with
    the key it was given does not decrypt with the one on record. *)
Definition first_online : shot_db := Eval vm_compute in committed (snd (demo_request [] quiet_env (rest demo_enrolled 0))).

Example retried_slot_key_is_lost :
  let r1 := fst (demo_request [] quiet_env (rest demo_enrolled 0)) in
  let late := Env (fun _ => false) (fun _ => false) Z.of_nat (gen_uuid quiet_env) (fun n => Some (fun i => Z.of_nat (n + i))) in
  let r2 := fst (demo_request [] late (rest first_online 50)) in
  match r1, r2 with
  | Ok u1, Ok u2 => us_ScreenshotID u1 = us_ScreenshotID u2 /\ us_Key u1 = us_Key u2 /\
      us_PlaintextDEK u1 <> us_PlaintextDEK u2 /\ map me_wrapped_dek (shot_metas first_online) = [us_WrappedDEK u1] /\
      us_WrappedDEK u1 <> us_WrappedDEK u2
  | _, _ => False
  end.
Proof. vm_compute. repeat split; discriminate. Qed.

(** Anybody who names the slice of another is given an address to overwrite the
    object of a screenshot, even one that is stored. *)
Example stranger_overwrites_evidence :
  match fst (RequestUploadSlot demo_keys demo_stub "shots" "c9" "s9" "sl1" "mallory" "" 0 demo_dek quiet_env (rest captured 60)) with
  | Ok u => us_Key u = sh_s3_key captured_shot /\ sh_status captured_shot = "stored"
  | Err _ => False
  end.
Proof. vm_compute. by split. Qed.

(** The hash and the nonce are signed without a boundary: a byte moved from one
    to the other is not noticed. *)
Example boundary_is_not_signed :
  confirmSignedMessage [4; 5] (repeat 1 12) 0 "c1" = confirmSignedMessage [4; 5; 1] (repeat 1 11) 0 "c1".
Proof. reflexivity. Qed.
