(* ===== verification/ScreenshotHttp.v ===== *)
(** * Screenshot REST transport (services/screenshot/internal/httpapi)

    Binary fields are base64 text; errors are answered with their texts. *)
From S2P Require Export Gateway ScreenshotProofs.

(** ** Bodies *)

Record slotReq := mkSlotReq {
  sq_ContractID : string;
  sq_SessionID : string;
  sq_SliceID : string;
  sq_DeviceID : string;
  sq_CapturedAt : Z;
  sq_ClientDEK : string
}.

Definition decode_slotReq (o : list (string * json)) : option slotReq :=
  obind (str_field "contract_id" o) (fun contract =>
  obind (str_field "session_id" o) (fun session =>
  obind (str_field "slice_id" o) (fun slice =>
  obind (str_field "device_id" o) (fun device =>
  obind (time_field "captured_at" o) (fun cap =>
  obind (str_field "client_dek" o) (fun dek => Some (mkSlotReq contract session slice device cap dek))))))).

(** base64 decoding that drops the error: the bytes before it. *)
Definition db64 (s : string) : list Z := fst (decode_std [] s).
Definition b64 (b : list Z) : string := encode_std b.

(** What is used of a confirmation; contract_id, device_pubkey and captured_at
    are decoded and not looked at. *)
Definition decode_confirmReq (o : list (string * json)) : option Confirm :=
  obind (str_field "screenshot_id" o) (fun id =>
  obind (str_field "contract_id" o) (fun _ =>
  obind (str_field "sha256_cipher" o) (fun sha =>
  obind (str_field "gcm_nonce" o) (fun nonce =>
  obind (str_field "device_signature" o) (fun sg =>
  obind (str_field "device_pubkey" o) (fun _ =>
  obind (time_field "captured_at" o) (fun _ =>
  obind (int_field "width" o) (fun width =>
  obind (int_field "height" o) (fun height =>
  obind (int_field "size_bytes" o) (fun size =>
  obind (str_field "format" o) (fun fmt =>
  obind (str_field "phash" o) (fun phash =>
  obind (int_field "activity_pct" o) (fun pct =>
  Some (mkConfirm id (db64 sha) (db64 nonce) (db64 sg) width height size fmt (db64 phash) pct)))))))))))))).

(** The permission is one of the comma-separated entries, as it stands. *)
Definition hasPerm (csv want : string) : bool := existsb (String.eqb want) (Strings.split "," csv).

(** The texts of the errors of other packages. *)
Class CryptoErrorText := {
  crypto_text : crypto_err -> string;
  rand_text : string
}.

(** ** Handlers *)

Section Api.
Context `{PgErrorText} `{CryptoErrorText} `{Ed25519} (keys : KeyProvider (D := shot_db)) (presigner : Presigner) (bucket : string).

Definition err_text (e : err shot_err) : string :=
  match e with
  | Db x => error_text x
  | Dom ErrNotFound => "store: not found"
  | Dom ErrForbidden => "forbidden: not a party to this contract"
  | Dom ErrClientDEK => "client_dek must be exactly 32 bytes when provided"
  | Dom (ErrDek x) => "dek: " ++ crypto_text x
  | Dom ErrKeyRandom => "key: " ++ rand_text
  | Dom ErrNoDeviceKey => "no enrolled device key for this screenshot; cannot verify integrity"
  | Dom ErrNoSignature => "missing device signature"
  | Dom ErrBadSignature => "device signature verification failed"
  | Dom (ErrPresign msg) => msg
  end.

Definition internal (e : err shot_err) : response := writeErr 500 "INTERNAL" (err_text e).

(** A present client_dek is strict base64 of 32 bytes. *)
Definition client_dek (text : string) : option (list Z) :=
  if String.eqb text "" then Some [] else
  match DecodeString text with
  | Some k => if (length k =? 32)%nat then Some k else None
  | None => None
  end.

Definition slotJSON (u : UploadSlot) : json :=
  JObj [("screenshot_id", JStr (us_ScreenshotID u)); ("upload_url", JStr (us_UploadURL u));
        ("s3_bucket", JStr (us_Bucket u)); ("s3_key", JStr (us_Key u)); ("wrapped_dek", JStr (b64 (us_WrappedDEK u)));
        ("plaintext_dek", JStr (b64 (default [] (us_PlaintextDEK u)))); ("kms_key_id", JStr (us_KMSKeyID u));
        ("required_headers", JObj (map (fun h => (fst h, JStr (snd h))) (us_Headers u)))].

Definition requestSlot (r : request) : sprog response :=
  req <-? Http.decode decode_slotReq r ;;
  let freelancer := header r "X-User-Id" in
  match client_dek (sq_ClientDEK req) with
  | None => ret (writeErr 400 "VALIDATION_FAILED" "client_dek must be base64 of exactly 32 bytes")
  | Some clientDEK =>
      slot <-? or_mapped internal (RequestUploadSlot keys presigner bucket (sq_ContractID req) (sq_SessionID req)
                 (sq_SliceID req) freelancer (sq_DeviceID req) (sq_CapturedAt req) clientDEK) ;;
      ret (writeJSON 200 (slotJSON slot))
  end.

Definition confirm_error (e : err shot_err) : response :=
  match e with
  | Dom ErrNotFound => writeErr 404 "NOT_FOUND" "upload slot not found or already confirmed"
  | _ => writeErr 400 "CONFIRM_FAILED" (err_text e)
  end.

Definition confirm (r : request) : sprog response :=
  c <-? Http.decode decode_confirmReq r ;;
  _ <-? or_mapped confirm_error (ConfirmUpload c) ;;
  ret (writeJSON 200 (JObj [("accepted", JBool true)])).

Definition list_error (e : err shot_err) : response :=
  match e with
  | Dom ErrForbidden => writeErr 403 "FORBIDDEN" "not authorized to view this contract's screenshots"
  | _ => internal e
  end.

Definition summaryJSON (s : Summary) : json :=
  JObj [("screenshot_id", JStr (sm_ID s)); ("captured_at", JTime (sm_CapturedAt s)); ("status", JStr (sm_Status s));
        ("flagged", JBool (sm_Flagged s))].

Definition is_auditor (r : request) : bool := hasPerm (header r "X-Permissions") "screenshot:audit".

Definition list (r : request) : sprog response :=
  let contractID := query r "contract_id" in
  if String.eqb contractID "" then ret (writeErr 400 "VALIDATION_FAILED" "contract_id is required") else
  items <-? or_mapped list_error (ListByContract contractID (header r "X-User-Id") (is_auditor r)) ;;
  ret (writeJSON 200 (JObj [("items", JList (map summaryJSON items))])).

Definition get_error (e : err shot_err) : response :=
  match e with
  | Dom ErrForbidden => writeErr 403 "FORBIDDEN" "not authorized to view this screenshot"
  | Dom ErrNotFound => writeErr 404 "NOT_FOUND" "screenshot not found"
  | _ => internal e
  end.

Definition viewJSON (v : View) : json :=
  JObj [("screenshot_id", JStr (vw_ScreenshotID v)); ("download_url", JStr (vw_DownloadURL v));
        ("wrapped_dek", JStr (b64 (vw_WrappedDEK v))); ("gcm_nonce", JStr (b64 (vw_GCMNonce v)));
        ("captured_at", JTime (vw_CapturedAt v)); ("status", JStr (vw_Status v)); ("flagged", JBool (vw_Flagged v))].

Definition get (r : request) : sprog response :=
  v <-? or_mapped get_error (GetScreenshot presigner (urlParam r "id") (header r "X-User-Id") (is_auditor r)) ;;
  ret (writeJSON 200 (viewJSON v)).

Inductive shot_route := ListR | SlotR | ConfirmR | GetR | HealthR.

Definition serve (x : shot_route) (r : request) : sprog response :=
  match x with
  | ListR => list r
  | SlotR => requestSlot r
  | ConfirmR => confirm r
  | GetR => get r
  | HealthR => ret (Response 200 JNull)
  end.

(** ** Who sees what *)

Definition entitled (r : request) (contractID : string) (d : shot_db) : Prop :=
  In "screenshot:audit" (Strings.split "," (header r "X-Permissions")) \/
  is_party contractID (header r "X-User-Id") d = true.

Lemma auditor_entitled r contractID d :
  is_auditor r = true \/ is_party contractID (header r "X-User-Id") d = true -> entitled r contractID d.
Proof.
  intros [E|E]; [left|by right]. apply existsb_exists in E as (y & Hy & E). by apply String.eqb_eq in E as ->.
Qed.

(** Screenshots are for the parties. The two reading routes answer 200 only
    to an auditor or to a party of the contract: the listing of a contract to a
    party of that contract, and the material of one screenshot (address, wrapped
    key and nonce) to a party of the contract on its own row. *)
Theorem screenshots_are_for_parties x r ev d n resp w :
  serve x r ev (rest d n) = (Ok resp, w) -> status resp = 200 ->
  match x with
  | ListR => entitled r (query r "contract_id") d /\
             payload_of resp = JObj [("items", JList (map summaryJSON (summaries (query r "contract_id") 200 d)))]
  | GetR => exists s m, find_shot (urlParam r "id") d = Some (s, m) /\ entitled r (sh_contract_id s) d
  | _ => True
  end.
Proof.
  intros HRun. enough (wp (serve x r) ev (rest d n) (fun a _ => match a with
    | Ok resp => status resp = 200 -> match x with
        | ListR => entitled r (query r "contract_id") d /\
                   payload_of resp = JObj [("items", JList (map summaryJSON (summaries (query r "contract_id") 200 d)))]
        | GetR => exists s m, find_shot (urlParam r "id") d = Some (s, m) /\ entitled r (sh_contract_id s) d
        | _ => True
        end
    | Err _ => True
    end)) as HW by exact (wp_run _ _ _ _ _ _ HRun HW).
  assert (forall e, status (list_error e) <> 200 /\ status (get_error e) <> 200) as Herr.
  { intros e. split; destruct e as [|[]]; done. }
  destruct x; cbn [serve]; try (unfold wp; by destruct (fst _)).
  - unfold list. cbv zeta. destruct (String.eqb _ ""); [by apply wp_ret|]. apply wp_bind_ok, wp_or_mapped.
    eapply wp_mono; [apply ListByContract_outcome|]. intros [l|e] w' [_ [_ O]].
    + destruct O as [-> O]. apply wp_ret. intros _. split; [by apply auditor_entitled|done].
    + intros E. by destruct (proj1 (Herr e)).
  - unfold get. apply wp_bind_ok, wp_or_mapped. eapply wp_mono; [apply GetScreenshot_outcome|].
    intros [v|e] w' [_ [_ O]].
    + destruct O as ([s m] & F & _ & _ & O). apply wp_ret. intros _. exists s, m. split; [done|]. by apply auditor_entitled.
    + intros E. by destruct (proj2 (Herr e)).
Qed.
End Api.

(** ** Demonstration *)

#[local] Existing Instance toy_ed25519.

#[local] Existing Instance plain_error_text.
#[local] Instance plain_crypto_text : CryptoErrorText := { crypto_text _ := "crypto"; rand_text := "rand" }.

Definition view_request (uid : string) : request :=
  demo_request_with uid (us_ScreenshotID demo_slot) (fun _ => "") None.

Lemma screenshots_are_for_parties_witness :
  (exists resp w, serve demo_keys demo_stub "shots" GetR (view_request "ann") quiet_env (rest captured 0) = (Ok resp, w) /\
     status resp = 200) /\
  exists s m, find_shot (us_ScreenshotID demo_slot) captured = Some (s, m) /\ entitled (view_request "ann") (sh_contract_id s) captured.
Proof.
  assert (exists resp w, serve demo_keys demo_stub "shots" GetR (view_request "ann") quiet_env (rest captured 0) = (Ok resp, w) /\
     status resp = 200) as X by (do 2 eexists; split; vm_compute; reflexivity).
  split; [exact X|]. destruct X as (resp & w & E & S).
  exact (screenshots_are_for_parties demo_keys demo_stub "shots" GetR (view_request "ann") quiet_env captured 0 resp w E S).
Defined.

(** An outsider is refused. *)
Example outsider_refused :
  exists resp w, serve demo_keys demo_stub "shots" GetR (view_request "eve") quiet_env (rest captured 0) = (Ok resp, w) /\
    status resp = 403.
Proof. do 2 eexists. split; vm_compute; reflexivity. Qed.
