(* ===== verification/Search.v ===== *)
(** * Search (services/search)

    The text search over published projects in PostgreSQL, the OpenSearch engine,
    the service and its routes, and the consumer that keeps the index.  The text
    matching and ranking of PostgreSQL and the relevance of OpenSearch are
    parameters; so is whatever the cluster declines. *)
From stdpp Require Import gmap strings.
From S2P Require Export Kafka ProjectStore.
#[local] Open Scope Z_scope.

(** * Data layer (services/search/internal/store) *)

(** ** Queries and results *)

(** The values that filters and SQL arguments carry as [any]. *)
Inductive any :=
| AString (s : string)
| AInt64 (z : Z)
| AFloat64 (f : spec_float)
| AStrings (l : list string).

Abbreviation filters := (gmap string any).

Record Query := mkQuery {
  q_Text : string;
  q_Filters : filters;
  q_Limit : Z;
  q_Offset : Z
}.

(** The source is an object. *)
Record Hit := mkHit {
  h_ID : string;
  h_Score : spec_float;
  h_Source : json
}.

Record Result := mkResult { Hits : list Hit; Total : Z }.

(** ErrNotFound is declared and never returned. *)
Inductive search_err :=
| ErrNotFound
| ErrOpenSearch.

(** An index maps ids to documents. *)
Abbreviation index := (gmap string json).

(** The tables the service reads, the indices of the cluster, what the process
    remembers of them, and the events the consumer recorded. *)
Record search_db := mkSearchDb {
  sd_projects : list Project;
  sd_indices : gmap string index;
  ensured : gset string;
  search_processed : list ProcessedEvent
}.

#[export] Instance search_HasProcessed : HasProcessed search_db :=
  Table search_processed (fun l d => mkSearchDb (sd_projects d) (sd_indices d) (ensured d) l).
#[export] Instance search_processed_lawful : LawfulTable (processed (T := search_db)).
Proof. by split; intros []. Qed.
#[export] Instance search_Deferred : Deferred search_db := fun _ _ => true.

Definition documents (i : string) (d : search_db) : index := default ∅ (sd_indices d !! i).

Abbreviation sprog := (prog search_db search_err).

(** SearchEngine *)
Record SearchEngine := mkEngine {
  es_Search : string -> Query -> sprog Result;
  es_Index : string -> string -> option (list (string * json)) -> sprog unit;
  es_Delete : string -> string -> sprog unit
}.

(** The defaults of both engines. *)
Definition limit_of (limit : Z) : Z := if limit <=? 0 then 20 else limit.
Definition offset_of (offset : Z) : Z := if offset <? 0 then 0 else offset.

(** ** PostgreSQL full-text search *)

(** The digits are written from the end of a buffer of 20 bytes. *)
Fixpoint itoa_digits (fuel : nat) (n : Z) (acc : string) : string :=
  match fuel with
  | O => acc
  | S fuel => if 0 <? n then itoa_digits fuel (n / 10) (String (ascii_of_nat (48 + Z.to_nat (n mod 10))) acc) else acc
  end.

Definition itoa (n : Z) : string := if n =? 0 then "0" else itoa_digits 20 n "".

(** A condition that the stub adds to its statement: AND column op $n. *)
Record clause := mkClause { cl_column : string; cl_op : string; cl_placeholder : string }.

Definition placeholder (args : list any) : string := "$" ++ itoa (Z.of_nat (length args)).

(** args = append(args, v); where += " AND " + column + op + placeholder *)
Definition add_clause (column op : string) (v : any) (s : list any * list clause) : list any * list clause :=
  let args := fst s ++ [v] in (args, snd s ++ [mkClause column op (placeholder args)]).

Definition filter_string (f : filters) (k : string) : string :=
  match f !! k with Some (AString s) => s | _ => "" end.

Definition filter_int64 (f : filters) (k : string) : Z :=
  match f !! k with Some (AInt64 z) => z | _ => 0 end.

(** The statement of searchProjects: its arguments, its conditions, and the
    placeholders of LIMIT and OFFSET. *)
Record statement := mkStatement {
  st_args : list any;
  st_where : list clause;
  st_limit : string;
  st_offset : string
}.

Definition build_statement (q : Query) : statement :=
  let s := ([AString (q_Text q)], []) in
  let bt := filter_string (q_Filters q) "budget_type" in
  let s := if String.eqb bt "" then s else add_clause "budget_type" "=" (AString bt) s in
  let mn := filter_int64 (q_Filters q) "min_budget" in
  let s := if 0 <? mn then add_clause "budget_min_cents" ">=" (AInt64 mn) s else s in
  let mx := filter_int64 (q_Filters q) "max_budget" in
  let s := if 0 <? mx then add_clause "budget_max_cents" "<=" (AInt64 mx) s else s in
  let args := fst s ++ [AInt64 (limit_of (q_Limit q))] in
  let lim := placeholder args in
  let args := args ++ [AInt64 (offset_of (q_Offset q))] in
  mkStatement args (snd s) lim (placeholder args).

(** What PostgreSQL makes of a placeholder: the argument of that number. *)
Definition bound (args : list any) (ph : string) : option any :=
  match ph with
  | String "$" n => obind (parse_int n) (fun k => if 0 <? k then nth_error args (Z.to_nat (k - 1)) else None)
  | _ => None
  end.

Definition at_least (lo : Z) (o : option Z) : bool := match o with Some z => lo <=? z | None => false end.
Definition at_most (hi : Z) (o : option Z) : bool := match o with Some z => z <=? hi | None => false end.

(** A condition on a row; an argument that does not fit the column's type is an
    error, as is an unknown column or operator. *)
Definition clause_holds (args : list any) (c : clause) (p : Project) : option bool :=
  match bound args (cl_placeholder c) with
  | Some (AString s) =>
      if String.eqb (cl_column c) "budget_type" && String.eqb (cl_op c) "="
      then if enum budget_types s then Some (String.eqb (pj_BudgetType p) s) else None
      else None
  | Some (AInt64 z) =>
      if String.eqb (cl_column c) "budget_min_cents" && String.eqb (cl_op c) ">=" then Some (at_least z (pj_BudgetMinCents p))
      else if String.eqb (cl_column c) "budget_max_cents" && String.eqb (cl_op c) "<=" then Some (at_most z (pj_BudgetMaxCents p))
      else None
  | _ => None
  end.

Fixpoint where_holds (args : list any) (l : list clause) (p : Project) : option bool :=
  match l with
  | [] => Some true
  | c :: l' => obind (clause_holds args c p) (fun b => option_map (andb b) (where_holds args l' p))
  end.

(** The clauses are typed before any row is looked at. *)
Definition well_typed (args : list any) (c : clause) : bool :=
  match bound args (cl_placeholder c) with Some (AString s) => enum budget_types s | Some (AInt64 _) => true | _ => false end.

(** ts_rank(search_tsv, plainto_tsquery('english', query)), and what pgx makes of
    a TIMESTAMPTZ that is scanned into a string. *)
Class TextRank := { ts_rank : string -> string -> string -> spec_float; timestamptz_text : Z -> option string }.

Section Stub.
Context `{TextSearch} `{TextRank}.

Definition rank_of (q : string) (p : Project) : spec_float := ts_rank (pj_Title p) (pj_Description p) q.

(** ORDER BY rank DESC *)
Definition by_rank (q : string) (l : list Project) : list Project :=
  ordered_by (fun a b => fle (rank_of q b) (rank_of q a)) l.

(** status = 'published' AND deleted_at IS NULL *)
Definition public (p : Project) : bool := String.eqb (pj_Status p) "published" && live p.

Definition found_by (q : string) (p : Project) : bool := public p && matches (pj_Title p) (pj_Description p) q.

Definition scan_published (t : option Z) : option (option string) :=
  match t with None => Some None | Some t => option_map Some (timestamptz_text t) end.

Definition hit_of (q : string) (p : Project) : option Hit :=
  option_map (fun at_ => mkHit (pj_ID p) (rank_of q p)
    (JObj [("id", JStr (pj_ID p)); ("client_id", JStr (pj_ClientID p)); ("title", JStr (pj_Title p));
           ("description", JStr (pj_Description p)); ("budget_type", JStr (pj_BudgetType p));
           ("budget_min_cents", jopt JInt (pj_BudgetMinCents p)); ("budget_max_cents", jopt JInt (pj_BudgetMaxCents p));
           ("status", JStr (pj_Status p)); ("published_at", jopt JStr at_)])) (scan_published (pj_PublishedAt p)).

(** The rows of a page are scanned; each carries count( * ) OVER(), so that an
    empty page has no total. *)
Definition scan_page (q : string) (limit offset : Z) (l : list Project) : option (list Hit * Z) :=
  let rows := page limit offset (by_rank q l) in
  option_map (fun hits => (hits, match rows with [] => 0 | _ => Z.of_nat (length l) end)) (mapM (hit_of q) rows).

Definition scanned (o : option (list Hit * Z)) (d : search_db) : reply search_db (list Hit * Z) :=
  match o with Some a => Done a d | None => Reject ScanError end.

Definition store_SearchProjects (q : string) (limit offset : Z) : sprog (list Hit * Z) :=
  exec_pool (fun _ d => scanned (scan_page q (limit_of limit) (offset_of offset) (select_rows (found_by q) (sd_projects d))) d).

(** title ILIKE pattern, PostgreSQL's. *)
Context (ilike : string -> string -> bool).

Definition SuggestProjectTitles (prefix : string) : sprog (list string) :=
  exec_pool (fun _ d =>
    Done (map pj_Title (take 10 (newest_first
            (select_rows (fun p => public p && ilike (pj_Title p) (prefix ++ "%")) (sd_projects d))))) d).

Definition searchProjects (q : Query) : sprog (list Hit * Z) :=
  let st := build_statement q in
  exec_pool (fun _ d =>
    match bound (st_args st) "$1", bound (st_args st) (st_limit st), bound (st_args st) (st_offset st) with
    | Some (AString text), Some (AInt64 limit), Some (AInt64 offset) =>
        if negb (forallb (well_typed (st_args st)) (st_where st)) then Reject InvalidText else
        scanned (scan_page text limit offset (select_rows (fun p =>
          found_by text p && default false (where_holds (st_args st) (st_where st) p)) (sd_projects d))) d
    | _, _, _ => Reject InvalidText
    end).

(** NewOpenSearchStub: Index and Delete only log. *)
Definition OpenSearchStub : SearchEngine :=
  mkEngine
    (fun index q =>
       if String.eqb index "projects" then r <- searchProjects q ;; ret (mkResult (fst r) (snd r))
       else ret (mkResult [] 0))
    (fun index id doc => ret tt)
    (fun index id => ret tt).
End Stub.

(** ** OpenSearch (opensearch.go) *)

Inductive os_request :=
| IndicesExists (i : string)
| IndicesCreate (i : string) (body : option json)
| IndexDocument (i id : string) (doc : json)
| DeleteDocument (i id : string)
| SearchIndex (i : string) (body : json).

Record os_answer := mkAnswer { os_status : Z; os_body : option json }.

Definition IsError (a : os_answer) : bool := 299 <? os_status a.

(** The cluster: the requests it declines at a time, with their status, and the
    body with which it answers a search of an index. *)
Class Cluster := {
  declines : Z -> os_request -> option Z;
  relevant : Z -> index -> json -> option json
}.

(** A declined request has an error status; 404 tells that the document or the
    index is not there. *)
Class LawfulCluster `{Cluster} : Prop := {
  declined_is_error t r c : declines t r = Some c -> 299 < c;
  delete_not_declined_404 t i id : declines t (DeleteDocument i id) <> Some 404
}.

Definition with_indices (ix : gmap string index) (d : search_db) : search_db :=
  mkSearchDb (sd_projects d) ix (ensured d) (search_processed d).

Section OpenSearch.
Context `{Cluster}.

(** What the documented requests do; a write to an index that is not there
    creates it. *)
Definition carried_out (t : Z) (r : os_request) (ix : gmap string index) : os_answer * gmap string index :=
  match r with
  | IndicesExists i => (mkAnswer (match ix !! i with Some _ => 200 | None => 404 end) None, ix)
  | IndicesCreate i _ =>
      match ix !! i with
      | Some _ => (mkAnswer 400 None, ix)
      | None => (mkAnswer 200 None, <[i := ∅]> ix)
      end
  | IndexDocument i id doc => (mkAnswer 201 None, <[i := <[id := doc]> (default ∅ (ix !! i))]> ix)
  | DeleteDocument i id =>
      match ix !! i with
      | Some docs => match docs !! id with
                     | Some _ => (mkAnswer 200 None, <[i := delete id docs]> ix)
                     | None => (mkAnswer 404 None, ix)
                     end
      | None => (mkAnswer 404 None, ix)
      end
  | SearchIndex i body =>
      match ix !! i with
      | Some docs => (mkAnswer 200 (relevant t docs body), ix)
      | None => (mkAnswer 404 None, ix)
      end
  end.

(** A request of the client: a failing one may have taken effect. *)
Definition client_do (r : os_request) : sprog os_answer := exec_pool (fun s d =>
  match declines (now s) r with
  | Some c => Done (mkAnswer c None) d
  | None => let '(a, ix) := carried_out (now s) r (sd_indices d) in Done a (with_indices ix d)
  end).

(** The memory of the process. *)
Definition is_ensured (i : string) : sprog bool := fun _ w => (Ok (bool_decide (i ∈ ensured (committed w))), w).

Definition markEnsured (i : string) : sprog unit := fun _ w =>
  let d := committed w in
  (Ok tt, World (mkSearchDb (sd_projects d) (sd_indices d) ({[i]} ∪ ensured d) (search_processed d)) (txs w) (tick w)).

Definition field_types (l : list (string * string)) : json :=
  JObj [("mappings", JObj [("properties", JObj (map (fun kv => (fst kv, JObj [("type", JStr (snd kv))])) l))])].

Definition indexMappings (i : string) : option json :=
  if String.eqb i "projects" then Some (field_types
    [("title", "text"); ("description", "text"); ("skills", "keyword"); ("budget_type", "keyword");
     ("budget_min_cents", "long"); ("budget_max_cents", "long"); ("status", "keyword"); ("client_id", "keyword");
     ("published_at", "date")])
  else if String.eqb i "freelancers" then Some (field_types
    [("headline", "text"); ("bio", "text"); ("skills", "keyword"); ("rate", "long"); ("rate_cents", "long");
     ("user_id", "keyword")])
  else None.

Definition searchFields (i : string) : list string :=
  if String.eqb i "projects" then ["title^3"; "description"; "skills"]
  else if String.eqb i "freelancers" then ["headline^3"; "bio"; "skills"]
  else [].

Definition ensureIndex (i : string) : sprog unit :=
  known <- is_ensured i ;;
  if known : bool then ret tt else
  e <- client_do (IndicesExists i) ;;
  if os_status e =? 200 then markEnsured i else
  c <- client_do (IndicesCreate i (indexMappings i)) ;;
  if IsError c && negb (os_status c =? 400) then fail ErrOpenSearch else markEnsured i.

Definition Index (i id : string) (doc : option (list (string * json))) : sprog unit :=
  if String.eqb i "" || String.eqb id "" then ret tt else
  ensureIndex i ;;;
  a <- client_do (IndexDocument i id (marshal doc)) ;;
  if IsError a then fail ErrOpenSearch else ret tt.

Definition Delete (i id : string) : sprog unit :=
  if String.eqb i "" || String.eqb id "" then ret tt else
  a <- client_do (DeleteDocument i id) ;;
  if IsError a && negb (os_status a =? 404) then fail ErrOpenSearch else ret tt.

Definition toInt64 (v : option any) : option Z :=
  match v with
  | Some (AInt64 n) => Some n
  | Some (AFloat64 f) => Some (int_of_float f)
  | _ => None
  end.

Definition positive_bound (f : filters) (k : string) : option Z :=
  match toInt64 (f !! k) with Some n => if 0 <? n then Some n else None | None => None end.

Definition buildFilters (f : filters) : list json :=
  (match f !! "budget_type" with
   | Some (AString bt) => if String.eqb bt "" then [] else [JObj [("term", JObj [("budget_type", JStr bt)])]]
   | _ => []
   end) ++
  (match positive_bound f "min_budget" with
   | Some mn => [JObj [("range", JObj [("budget_min_cents", JObj [("gte", JInt mn)])])]]
   | None => []
   end) ++
  (match positive_bound f "max_budget" with
   | Some mx => [JObj [("range", JObj [("budget_max_cents", JObj [("lte", JInt mx)])])]]
   | None => []
   end) ++
  (match f !! "skills" with
   | Some (AStrings (_ :: _ as l)) => [JObj [("terms", JObj [("skills", JList (map JStr l))])]]
   | _ => []
   end).

Definition buildQuery (i : string) (q : Query) (limit offset : Z) : json :=
  let must :=
    if String.eqb (q_Text q) "" then JObj [("match_all", JObj [])]
    else JObj [("multi_match", JObj
           [("query", JStr (q_Text q));
            ("fields", JList (map JStr (match searchFields i with [] => ["*"] | l => l end)));
            ("type", JStr "best_fields")])] in
  JObj [("from", JInt offset); ("size", JInt limit);
        ("query", JObj [("bool", JObj [("must", JList [must]); ("filter", JList (buildFilters (q_Filters q)))])])].

(** osSearchResponse: its parts are decoded into structs. *)
Definition os_hit (o : list (string * json)) : option Hit :=
  obind (str_field "_id" o) (fun id =>
  obind (float_field "_score" o) (fun score =>
  option_map (fun src => mkHit id score (marshal (Some (default [] src)))) (field into_map None "_source" o))).

(** A struct inside a struct: null leaves it. (A member that is repeated is
    decoded anew.) *)
Definition struct_field {A} (zero : A) (f : list (string * json) -> option A) (tag : string) (o : list (string * json))
  : option A :=
  field (fun old j => match j with JNull => Some old | JObj m => f m | _ => None end) zero tag o.

Definition parseSearchResponse (body : option json) : option Result :=
  match body with
  | Some (JObj o) =>
      struct_field (mkResult [] 0) (fun h =>
        obind (struct_field 0 (int_field "value") "total" h) (fun total =>
        option_map (fun hits => mkResult hits total) (structs_field (mkHit "" f0 (JObj [])) os_hit "hits" h))) "hits" o
  | Some JNull => Some (mkResult [] 0)
  | _ => None
  end.

Definition Search (i : string) (q : Query) : sprog Result :=
  let limit := limit_of (q_Limit q) in
  let offset := offset_of (q_Offset q) in
  a <- client_do (SearchIndex i (buildQuery i q limit offset)) ;;
  if IsError a then (if os_status a =? 404 then ret (mkResult [] 0) else fail ErrOpenSearch) else
  match parseSearchResponse (os_body a) with
  | Some r => ret r
  | None => fail ErrOpenSearch
  end.

Definition OpenSearch : SearchEngine := mkEngine Search Index Delete.
End OpenSearch.

(** NewClient of the OpenSearch library refuses some configurations. *)
Definition NewSearchEngine `{TextSearch} `{TextRank} `{Cluster} (NewClient : string -> string -> string -> bool)
    (esURL username password : string) : SearchEngine :=
  if String.eqb esURL "" then OpenSearchStub
  else if negb (NewClient esURL username password) then OpenSearchStub
  else OpenSearch.

(** * Queries (services/search/internal/service) *)

Record ProjectFilters := mkProjectFilters { pf_BudgetType : string; pf_MinBudget : Z; pf_MaxBudget : Z }.

Definition put_if (b : bool) (k : string) (v : any) (f : filters) : filters := if b then <[k := v]> f else f.

Definition project_filters (f : ProjectFilters) : filters :=
  put_if (0 <? pf_MaxBudget f) "max_budget" (AInt64 (pf_MaxBudget f))
    (put_if (0 <? pf_MinBudget f) "min_budget" (AInt64 (pf_MinBudget f))
      (put_if (negb (String.eqb (pf_BudgetType f) "")) "budget_type" (AString (pf_BudgetType f)) ∅)).

Definition indexForKind (kind : string) : string :=
  if existsb (String.eqb kind) ["project"; "projects"] then "projects"
  else if existsb (String.eqb kind) ["freelancer"; "freelancers"; "profile"; "user"] then "freelancers"
  else "".

Section Service.
Context (es : SearchEngine).

Definition SearchProjects (q : string) (f : ProjectFilters) (limit offset : Z) : sprog Result :=
  es_Search es "projects" (mkQuery q (project_filters f) limit offset).

Definition SearchFreelancers (q : string) (skills : list string) (limit offset : Z) : sprog Result :=
  es_Search es "freelancers"
    (mkQuery q (put_if (match skills with [] => false | _ => true end) "skills" (AStrings skills) ∅) limit offset).

Definition IndexProject (projectID : string) (doc : option (list (string * json))) : sprog unit :=
  es_Index es "projects" projectID doc.

Definition service_Index (kind id : string) (doc : option (list (string * json))) : sprog unit :=
  let index := indexForKind kind in
  if String.eqb index "" || String.eqb id "" then ret tt else es_Index es index id doc.

Definition service_Delete (kind id : string) : sprog unit :=
  let index := indexForKind kind in
  if String.eqb index "" || String.eqb id "" then ret tt else es_Delete es index id.

Definition Suggest (ilike : string -> string -> bool) (prefix : string) : sprog (list string) :=
  if String.eqb prefix "" then ret [] else SuggestProjectTitles ilike prefix.
End Service.

(** * Routes (services/search/internal/httpapi) *)

Definition atoiDefault (s : string) (def : Z) : Z :=
  if String.eqb s "" then def else default def (parse_int s).

(** limit and offset. *)
Definition pageParams (r : request) : Z * Z :=
  let limit := atoiDefault (query r "limit") 20 in
  let limit := if (limit <=? 0) || (100 <? limit) then 20 else limit in
  let offset := atoiDefault (query r "offset") 0 in
  (limit, if offset <? 0 then 0 else offset).

Definition parseCents (s : string) : Z :=
  if String.eqb s "" then 0 else
  match parse_int s with
  | Some n => if n <? 0 then 0 else n
  | None => 0
  end.

Definition mapError (e : err search_err) : response :=
  match e with
  | Dom ErrNotFound => writeErr 404 "NOT_FOUND" "resource not found"
  | _ => writeErr 500 "INTERNAL" "internal error"
  end.

Definition hitJSON (h : Hit) : json :=
  JObj [("id", JStr (h_ID h)); ("score", JFloat (h_Score h)); ("source", h_Source h)].

Definition writeResult (r : Result) : response :=
  writeJSON 200 (JObj [("hits", JList (map hitJSON (Hits r))); ("total", JInt (Total r))]).

Section Api.
Context `{TextSearch} `{TextRank} (ilike : string -> string -> bool) (es : SearchEngine).

Definition http_searchProjects (r : request) : sprog response :=
  let '(limit, offset) := pageParams r in
  res <-? or_mapped mapError (SearchProjects es (query r "q")
            (mkProjectFilters (query r "budget_type") (parseCents (query r "min")) (parseCents (query r "max")))
            limit offset) ;;
  ret (writeResult res).

Definition http_searchFreelancers (r : request) : sprog response :=
  let '(limit, offset) := pageParams r in
  let skills := if String.eqb (query r "skills") "" then [] else listed (query r "skills") in
  res <-? or_mapped mapError (SearchFreelancers es (query r "q") skills limit offset) ;;
  ret (writeResult res).

Definition http_suggest (r : request) : sprog response :=
  l <-? or_mapped mapError (Suggest ilike (query r "q")) ;;
  ret (writeJSON 200 (JObj [("suggestions", JList (map JStr l))])).

Inductive search_route := ProjectsR | FreelancersR | SuggestR | HealthR.

Definition serve (x : search_route) (r : request) : sprog response :=
  match x with
  | ProjectsR => http_searchProjects r
  | FreelancersR => http_searchFreelancers r
  | SuggestR => http_suggest r
  | HealthR => ret (Response 200 JNull)
  end.
End Api.

(** * The index consumer (services/search/cmd/consumer) *)

Definition consumerGroup : string := "search-index-consumer".

Definition topics : list string := ["project.events"; "user.events"].

(** json.Unmarshal of the value into a map. *)
Definition unmarshal (m : Delivery) : option (option (list (string * json))) := into_map None (d_Value m).

Inductive op := opIgnore | opIndex | opDelete.

Record indexAction := mkAction { ia_op : op; ia_docType : string; ia_id : string }.

Definition ignored : indexAction := mkAction opIgnore "" "".

Definition boolField (o : list (string * json)) (key : string) : bool :=
  match member key o with
  | Some (JBool v) => v
  | Some (JStr v) => String.eqb v "true" || String.eqb v "1"
  | Some (JInt z) => negb (float_of_int z =? 0)
  | Some (JFloat f) => negb (feq f f0)
  | _ => false
  end.

(** strings.EqualFold with a text that no other letter than the ASCII ones folds
    to. *)
Definition EqualFold (s t : string) : bool := String.eqb (lower s) (lower t).

Definition route (eventType : string) (payload : list (string * json)) : indexAction :=
  if String.eqb eventType "project.published" then mkAction opIndex "project" (stringField payload ["project_id"; "id"])
  else if String.eqb eventType "project.closed" then mkAction opDelete "project" (stringField payload ["project_id"; "id"])
  else if String.eqb eventType "profile.updated" then
    if negb (EqualFold (stringField payload ["kind"]) "freelancer") then ignored else
    let userID := stringField payload ["user_id"; "id"] in
    if boolField payload "is_searchable" then mkAction opIndex "freelancer" userID
    else mkAction opDelete "freelancer" userID
  else ignored.

Definition resolveEventType (topic : string) (m : list (string * json)) : string :=
  let t := stringField m ["type"; "event_type"] in
  if negb (String.eqb t "") then t else
  if String.eqb topic "project.events" then
    if has_member "closed_at" m then "project.closed" else "project.published"
  else if String.eqb topic "user.events" then
    if has_member "kyc_status" m then "user.kyc_updated" else "profile.updated"
  else topic.

Definition event_type (m : Delivery) (payload : list (string * json)) : string :=
  if String.eqb (d_EventType m) "" then resolveEventType (d_Topic m) payload else d_EventType m.

(** The handler main passes to the consumer. *)
Definition indexEvent (es : SearchEngine) (m : Delivery) : sprog unit :=
  match unmarshal m with
  | None => ret tt
  | Some payload =>
      let a := route (event_type m (default [] payload)) (default [] payload) in
      match ia_op a with
      | opIndex => service_Index es (ia_docType a) (ia_id a) payload
      | opDelete => service_Delete es (ia_docType a) (ia_id a)
      | opIgnore => ret tt
      end
  end.

Definition search_consumer : Consumer := WithDedupe (NewConsumer consumerGroup).

(** The cases of main_test.go. *)
Example routed :
  map (fun x => route (fst x) (snd x))
    [("project.published", [("project_id", JStr "p1")]); ("project.closed", [("id", JStr "p2")]);
     ("profile.updated", [("kind", JStr "freelancer"); ("user_id", JStr "u1"); ("is_searchable", JBool true)]);
     ("profile.updated", [("kind", JStr "freelancer"); ("user_id", JStr "u1"); ("is_searchable", JBool false)]);
     ("profile.updated", [("kind", JStr "client"); ("user_id", JStr "u2"); ("is_searchable", JBool true)]);
     ("profile.updated", [("kind", JStr "Freelancer"); ("user_id", JStr "u3"); ("is_searchable", JBool true)]);
     ("user.registered", [("id", JStr "u4")])]
  = [mkAction opIndex "project" "p1"; mkAction opDelete "project" "p2"; mkAction opIndex "freelancer" "u1";
     mkAction opDelete "freelancer" "u1"; ignored; mkAction opIndex "freelancer" "u3"; ignored].
Proof. reflexivity. Qed.

Example resolved_types :
  map (fun x => resolveEventType (fst x) (snd x))
    [("project.events", []); ("project.events", [("closed_at", JStr "2026-01-01")]); ("user.events", []);
     ("user.events", [("kyc_status", JStr "verified")]); ("user.events", [("type", JStr "session.created")]);
     ("other.topic", [])]
  = ["project.published"; "project.closed"; "profile.updated"; "user.kyc_updated"; "session.created"; "other.topic"].
Proof. reflexivity. Qed.

(** * Properties of the searches *)

(** The digits of a number read back as the number. *)
Lemma digits_itoa fuel n acc :
  0 <= n < 10 ^ Z.of_nat fuel -> exists k, 0 <= k /\ n < 10 ^ k /\
    forall a, digits a (itoa_digits fuel n acc) = digits (a * 10 ^ k + n) acc.
Proof.
  revert n acc. induction fuel as [|fuel IH]; intros n acc Hn.
  - exists 0. split; [lia|]. split; [lia|]. intros a. cbn [itoa_digits]. f_equal. cbn in Hn. lia.
  - cbn [itoa_digits]. destruct (Z.ltb_spec 0 n) as [P|P].
    + rewrite Nat2Z.inj_succ, Z.pow_succ_r in Hn by lia.
      destruct (IH (n / 10) (String (ascii_of_nat (48 + Z.to_nat (n mod 10))) acc)) as (k & Hk & Hl & Hd).
      { split; [apply Z.div_pos; lia|]. apply Z.div_lt_upper_bound; lia. }
      exists (k + 1). split; [lia|]. rewrite Z.pow_add_r by lia. change (10 ^ 1) with 10.
      pose proof (Z.div_mod n 10 ltac:(lia)). pose proof (Z.mod_pos_bound n 10 ltac:(lia)). split; [lia|].
      intros a. rewrite Hd. cbn [digits]. unfold digit. rewrite nat_ascii_embedding by lia.
      replace (Z.of_nat (48 + Z.to_nat (n mod 10))) with (48 + n mod 10) by lia.
      destruct (Z.leb_spec 48 (48 + n mod 10)), (Z.leb_spec (48 + n mod 10) 57); try lia. cbn [andb]. f_equal. lia.
    + exists 0. split; [lia|]. split; [lia|]. intros a. f_equal. lia.
Qed.

Lemma itoa_reads_back n : 0 <= n <= int64_max -> digits 0 (itoa n) = Some n.
Proof.
  intros Hn. unfold itoa. destruct (Z.eqb_spec n 0) as [->|N]; [reflexivity|].
  destruct (digits_itoa 20 n "") as (k & _ & _ & Hd); [unfold int64_max in Hn; lia|]. by rewrite Hd.
Qed.

Section SearchFacts.
Context `{TextSearch} `{TextRank}.
Implicit Types (ev : env) (d : search_db) (f : filters).

(** What the filters ask of a project. *)
Definition meets f (p : Project) : bool :=
  let bt := filter_string f "budget_type" in
  let mn := filter_int64 f "min_budget" in
  let mx := filter_int64 f "max_budget" in
  (String.eqb bt "" || String.eqb (pj_BudgetType p) bt) &&
  ((mn <=? 0) || at_least mn (pj_BudgetMinCents p)) &&
  ((mx <=? 0) || at_most mx (pj_BudgetMaxCents p)).

Definition known_type f : bool :=
  let bt := filter_string f "budget_type" in String.eqb bt "" || enum budget_types bt.

Lemma where_none args p : where_holds args [] p = Some true.
Proof. done. Qed.

Lemma where_type args ph l p s b : bound args ph = Some (AString s) -> enum budget_types s = true ->
  where_holds args l p = Some b ->
  where_holds args (mkClause "budget_type" "=" ph :: l) p = Some (String.eqb (pj_BudgetType p) s && b).
Proof. intros B E L. cbn [where_holds]. unfold clause_holds. cbn [cl_placeholder cl_column cl_op]. by rewrite B, E, L. Qed.

Lemma where_min args ph l p z b : bound args ph = Some (AInt64 z) -> where_holds args l p = Some b ->
  where_holds args (mkClause "budget_min_cents" ">=" ph :: l) p = Some (at_least z (pj_BudgetMinCents p) && b).
Proof. intros B L. cbn [where_holds]. unfold clause_holds. cbn [cl_placeholder cl_column cl_op]. by rewrite B, L. Qed.

Lemma where_max args ph l p z b : bound args ph = Some (AInt64 z) -> where_holds args l p = Some b ->
  where_holds args (mkClause "budget_max_cents" "<=" ph :: l) p = Some (at_most z (pj_BudgetMaxCents p) && b).
Proof. intros B L. cbn [where_holds]. unfold clause_holds. cbn [cl_placeholder cl_column cl_op]. by rewrite B, L. Qed.

Ltac read_where :=
  repeat first [eapply where_type; [reflexivity|assumption|] | eapply where_min; [reflexivity|] | eapply where_max; [reflexivity|]];
  apply where_none.

Lemma statement_bound q :
  let st := build_statement q in
  bound (st_args st) "$1" = Some (AString (q_Text q)) /\
  bound (st_args st) (st_limit st) = Some (AInt64 (limit_of (q_Limit q))) /\
  bound (st_args st) (st_offset st) = Some (AInt64 (offset_of (q_Offset q))) /\
  forallb (well_typed (st_args st)) (st_where st) = known_type (q_Filters q) /\
  forall p, known_type (q_Filters q) = true -> where_holds (st_args st) (st_where st) p = Some (meets (q_Filters q) p).
Proof.
  unfold build_statement, known_type, meets. cbv zeta.
  set (lim := limit_of _). set (off := offset_of _). set (bt := filter_string _ _).
  set (mn := filter_int64 _ "min_budget"). set (mx := filter_int64 _ "max_budget").
  clearbody lim off bt mn mx. rewrite !(Z.leb_antisym 0).
  destruct (String.eqb bt ""), (0 <? mn), (0 <? mx); cbv [negb orb].
  all: do 3 (split; [reflexivity|]).
  all: split; [first [reflexivity|apply andb_true_r|symmetry; apply andb_true_r]|].
  all: intros p K; cbn [st_where st_args add_clause fst snd app]; etransitivity; [read_where|].
  all: f_equal; by rewrite ?andb_true_r, ?andb_true_l, ?andb_assoc.
Qed.
(** The projects that a query means: no filter is lost or mixed up with
    another. *)
Definition meant (q : Query) (p : Project) : bool := found_by (q_Text q) p && meets (q_Filters q) p.

Definition intended_search (q : Query) : sprog (list Hit * Z) := exec_pool (fun _ d =>
  if negb (known_type (q_Filters q)) then Reject InvalidText else
  scanned (scan_page (q_Text q) (limit_of (q_Limit q)) (offset_of (q_Offset q))
             (select_rows (meant q) (sd_projects d))) d).

Lemma exec_pool_ext {D E A} (f g : sql D A) ev (w : world D) :
  (forall s (d : D), f s d = g s d) -> exec_pool (E := E) f ev w = exec_pool g ev w.
Proof. intros X. unfold exec_pool. by rewrite X. Qed.

Lemma searchProjects_meant q ev w : searchProjects q ev w = intended_search q ev w.
Proof.
  apply exec_pool_ext. intros s d. destruct (statement_bound q) as (B1 & B2 & B3 & BT & BW).
  rewrite B1, B2, B3, BT. destruct (known_type (q_Filters q)) eqn:K; cbn [negb]; [|done].
  do 2 f_equal. apply List.filter_ext. intros p. unfold meant. by rewrite (BW p).
Qed.

(** The statement that searchProjects builds, with its conditions added or
    left out, numbers its placeholders so that every condition, the limit and
    the offset get their own argument: executing it is searching for the
    projects that the query means. *)
Theorem stub_searches_as_meant q ev w : searchProjects q ev w = intended_search q ev w.
Proof. apply searchProjects_meant. Qed.

Lemma mapM_some {A B} (g : A -> option B) l l' : mapM g l = Some l' -> Forall2 (fun a b => g a = Some b) l l'.
Proof. apply mapM_Some. Qed.

Lemma scan_page_hits q limit offset l hits total :
  scan_page q limit offset l = Some (hits, total) ->
  Z.of_nat (length hits) <= Z.max 0 limit /\
  (hits <> [] -> total = Z.of_nat (length l)) /\
  forall h, In h hits -> exists p, In p l /\ hit_of q p = Some h.
Proof.
  unfold scan_page. destruct (mapM _ _) as [hs|] eqn:M; [|done]. cbn [option_map]. intros [= <- <-].
  apply mapM_some in M. pose proof (Forall2_length _ _ _ M) as L. split; [|split].
  - rewrite <- L. unfold page. rewrite length_take. lia.
  - intros N. destruct (page limit offset (by_rank q l)); [by inversion M; subst|done].
  - intros h Hh. apply list_elem_of_In, list_elem_of_lookup in Hh as (i & Hi).
    destruct (Forall2_lookup_r _ _ _ _ _ M Hi) as (p & Hp & Hq). exists p. split; [|done].
    apply (Permutation_in p (ordered_by_perm (fun a b => fle (rank_of q b) (rank_of q a)) l)). apply list_elem_of_In. unfold page in Hp.
    rewrite lookup_take_Some, lookup_drop in Hp. apply list_elem_of_lookup. by eexists; apply Hp.
Qed.

Lemma pageParams_bounds r : let '(limit, offset) := pageParams r in 1 <= limit <= 100 /\ 0 <= offset <= int64_max.
Proof.
  unfold pageParams. set (l := atoiDefault _ 20). cbv zeta. split.
  - destruct (Z.leb_spec l 0), (Z.ltb_spec 100 l); cbn [orb]; lia.
  - assert (0 <= int64_max) by (unfold int64_max; lia).
    unfold atoiDefault. destruct (String.eqb (query r "offset") ""); [cbn; lia|].
    destruct (parse_int (query r "offset")) as [z|] eqn:P; [|cbn; lia]. apply parse_int_range in P. cbn [from_option id].
    destruct (Z.ltb_spec z 0); lia.
Qed.

(** What a project search may show for a request. *)
Definition shown (r : request) (d : search_db) (h : Hit) : Prop :=
  exists p, In p (sd_projects d) /\ h_ID h = pj_ID p /\ hit_of (query r "q") p = Some h /\
    pj_Status p = "published" /\ pj_deleted_at p = None /\
    matches (pj_Title p) (pj_Description p) (query r "q") = true /\
    (query r "budget_type" <> "" -> pj_BudgetType p = query r "budget_type") /\
    (0 < parseCents (query r "min") -> exists lo, pj_BudgetMinCents p = Some lo /\ parseCents (query r "min") <= lo) /\
    (0 < parseCents (query r "max") -> exists hi, pj_BudgetMaxCents p = Some hi /\ hi <= parseCents (query r "max")).

Lemma project_filters_read pf :
  filter_string (project_filters pf) "budget_type" = pf_BudgetType pf /\
  (0 < pf_MinBudget pf -> filter_int64 (project_filters pf) "min_budget" = pf_MinBudget pf) /\
  (0 < pf_MaxBudget pf -> filter_int64 (project_filters pf) "max_budget" = pf_MaxBudget pf).
Proof.
  unfold project_filters, put_if, filter_string, filter_int64.
  destruct (0 <? pf_MaxBudget pf) eqn:A, (0 <? pf_MinBudget pf) eqn:B, (String.eqb_spec (pf_BudgetType pf) "") as [->|N]; cbn [negb].
  all: repeat split; intros; try lia; simplify_map_eq; done.
Qed.

Lemma meant_shown r limit offset d p h
    (q := mkQuery (query r "q") (project_filters (mkProjectFilters (query r "budget_type") (parseCents (query r "min"))
            (parseCents (query r "max")))) limit offset) :
  In p (select_rows (meant q) (sd_projects d)) -> hit_of (query r "q") p = Some h -> shown r d h.
Proof.
  intros [Hp M]%filter_In Hh. exists p. unfold meant, found_by, public, meets in M. subst q. cbn [q_Text q_Filters] in M.
  pose proof (project_filters_read (mkProjectFilters (query r "budget_type") (parseCents (query r "min"))
    (parseCents (query r "max")))) as (F1 & F2 & F3). cbn [pf_BudgetType pf_MinBudget pf_MaxBudget] in F1, F2, F3.
  apply andb_true_iff in M as [[[S L]%andb_true_iff T]%andb_true_iff [[B Mn]%andb_true_iff Mx]%andb_true_iff].
  rewrite F1 in B. split; [done|]. split.
  { unfold hit_of in Hh. destruct (scan_published _); [|done]. by injection Hh as <-. }
  split; [done|]. split; [by apply String.eqb_eq|]. split; [unfold live in L; by destruct (pj_deleted_at p)|]. split; [done|].
  split; [|split].
  - intros N. apply orb_true_iff in B as [E%String.eqb_eq|E%String.eqb_eq]; [by destruct N|done].
  - intros N. rewrite F2 in Mn by done. apply orb_true_iff in Mn as [?|E]; [lia|].
    destruct (pj_BudgetMinCents p) as [lo|]; [|done]. exists lo. cbn in E. split; [done|lia].
  - intros N. rewrite F3 in Mx by done. apply orb_true_iff in Mx as [?|E]; [lia|].
    destruct (pj_BudgetMaxCents p) as [hi|]; [|done]. exists hi. cbn in E. split; [done|lia].
Qed.

Lemma searchProjects_hits q ev d n :
  wp (searchProjects q) ev (World d NoTx n) (fun r w => committed w = d /\ forall hits total, r = Ok (hits, total) ->
    Z.of_nat (length hits) <= Z.max 0 (limit_of (q_Limit q)) /\
    forall h, In h hits -> exists p, In p (select_rows (meant q) (sd_projects d)) /\ hit_of (q_Text q) p = Some h).
Proof.
  assert (forall Q, wp (intended_search q) ev (World d NoTx n) Q -> wp (searchProjects q) ev (World d NoTx n) Q) as X.
  { intros Q. unfold wp. by rewrite searchProjects_meant. }
  apply X, wp_exec_pool.
  destruct (negb _); [by repeat split|]. unfold scanned.
  destruct (scan_page _ _ _ _) as [[hits total]|] eqn:P; [|by repeat split].
  apply scan_page_hits in P as (L & _ & P). do 2 (split; [by repeat split|]). split; [done|].
  intros hits' total' [= <- <-]. by split.
Qed.

(** Whatever the request and whatever fails: when GET /v1/search/projects
    answers 200 from PostgreSQL, it lists at most 100 hits, each of them a stored
    project that is published, not deleted, matches the text and lies within
    every filter of the request. *)
Theorem found_projects_are_published ilike r ev d n resp
    (Hok : fst (serve ilike OpenSearchStub ProjectsR r ev (World d NoTx n)) = Ok resp) (H200 : status resp = 200) :
  exists hits total, resp = writeResult (mkResult hits total) /\ (length hits <= 100)%nat /\
    forall h, In h hits -> shown r d h.
Proof.
  pose proof (pageParams_bounds r) as PB.
  assert (wp (http_searchProjects OpenSearchStub r) ev (World d NoTx n) (fun x _ => forall resp, x = Ok resp -> status resp = 200 ->
    exists hits total, resp = writeResult (mkResult hits total) /\ (length hits <= 100)%nat /\ forall h, In h hits -> shown r d h)) as W.
  { unfold http_searchProjects. destruct (pageParams r) as [limit offset]. destruct PB as [PL PO].
    apply wp_bind_ok, wp_or_mapped, wp_bind. eapply wp_mono; [apply searchProjects_hits|].
    intros [[hits total]|e] w [_ Hw].
    - apply wp_ret, wp_ret. intros ? [= <-] _. destruct (Hw hits total eq_refl) as [L S]. exists hits, total. split; [done|].
      cbn [q_Limit q_Text] in L, S. split; [unfold limit_of in L; destruct (limit <=? 0) eqn:?; lia|].
      intros h (p & Hp & Hh)%S. by eapply meant_shown.
    - intros ? [= <-]. by destruct e as [|[]]. }
  exact (W resp Hok H200).
Qed.
End SearchFacts.

(** * Properties of the index *)

(** ** What an engine promises *)

Definition edited (i : string) (f : index -> index) (d : search_db) (r : res search_err unit) (w : world search_db) : Prop :=
  let d' := committed w in
  search_processed d' = search_processed d /\ sd_projects d' = sd_projects d /\
  (forall j, j <> i -> documents j d' = documents j d) /\
  (documents i d' = documents i d \/ documents i d' = f (documents i d)) /\
  (r = Ok tt -> documents i d' = f (documents i d)).

(** Index upserts and Delete removes one document; when they report success they
    have, when they fail they have or have changed nothing. *)
Class LawfulEngine (es : SearchEngine) : Prop := {
  engine_index i id doc ev d n : i <> "" -> id <> "" ->
    wp (es_Index es i id doc) ev (World d NoTx n) (edited i (<[id := marshal doc]>) d);
  engine_delete i id ev d n : i <> "" -> id <> "" ->
    wp (es_Delete es i id) ev (World d NoTx n) (edited i (delete id) d)
}.

Section OpenSearchFacts.
Context `{LawfulCluster}.
Implicit Types (ev : env) (d : search_db).

(** The documents, and what else the requests leave alone. *)
Definition untouched (d d' : search_db) : Prop :=
  search_processed d' = search_processed d /\ sd_projects d' = sd_projects d /\ forall j, documents j d' = documents j d.

Lemma untouched_edited i f d d' e n : untouched d d' -> edited i f d (Err e) (World d' NoTx n).
Proof. intros (P & J & D). split; [done|]. split; [done|]. split; [by intros|]. split; [left; apply D|done]. Qed.

Lemma edited_after i f d d' r w : untouched d d' -> edited i f d' r w -> edited i f d r w.
Proof.
  intros (P & J & D) (P' & J' & N & O & K). split; [by rewrite P'|]. split; [by rewrite J'|].
  rewrite !D in *. split; [|done]. intros j Hj. by rewrite N, D.
Qed.

Lemma client_do_keeps r ev d x n :
  (forall t ix, forall j, default ∅ (snd (carried_out t r ix) !! j) = default ∅ (ix !! j) :> index) ->
  wp (client_do r) ev (World d x n) (fun _ w => untouched d (committed w) /\ txs w = x).
Proof.
  intros K. apply wp_exec_pool. destruct (declines _ _); [by repeat split|].
  pose proof (K (now (Stamp (clock ev n) (gen_uuid ev n))) (sd_indices d)) as K'.
  destruct (carried_out _ _ _) as [a ix]. by repeat split.
Qed.

Lemma ensureIndex_keeps i ev d n :
  wp (ensureIndex i) ev (World d NoTx n) (fun _ w => untouched d (committed w) /\ txs w = NoTx).
Proof.
  unfold ensureIndex. apply wp_bind. unfold is_ensured, wp at 1. cbn [fst snd committed].
  destruct (bool_decide _); [by apply wp_ret|]. apply wp_bind.
  eapply wp_mono; [apply client_do_keeps; by intros|]. intros [e|e] [d1 x1 n1] [U Hx]; cbn [txs committed] in *; subst x1; [|done].
  destruct (os_status e =? 200); [exact (conj U eq_refl)|]. apply wp_bind.
  eapply wp_mono; [apply client_do_keeps|].
  - intros t ix j. cbn [carried_out]. destruct (ix !! i) as [docs|] eqn:E; [done|]. cbn [snd].
    destruct (decide (j = i)) as [->|N]; [by rewrite lookup_insert_eq, E|by rewrite lookup_insert_ne].
  - intros [c|c] [d2 x2 n2] [(P & J & D) Hx]; cbn [txs committed] in *; subst x2;
      (assert (untouched d d2) as U2 by (destruct U as (P1 & J1 & D1); split; [congruence|split; [congruence|]]; intros j; by rewrite D)).
    + destruct (_ && _); [by apply wp_throw|exact (conj U2 eq_refl)].
    + done.
Qed.

Lemma client_do_edits r i f ev d n :
  (forall t ix a ix', carried_out t r ix = (a, ix') ->
     (forall j, j <> i -> default ∅ (ix' !! j) = default ∅ (ix !! j) :> index) /\
     default ∅ (ix' !! i) = f (default ∅ (ix !! i)) :> index) ->
  wp (client_do r) ev (World d NoTx n) (fun x w => let d' := committed w in
     search_processed d' = search_processed d /\ sd_projects d' = sd_projects d /\
     (forall j, j <> i -> documents j d' = documents j d) /\
     (documents i d' = documents i d \/ documents i d' = f (documents i d)) /\
     forall a, x = Ok a -> (exists t, declines t r = Some (os_status a)) \/ documents i d' = f (documents i d)).
Proof.
  intros K. apply wp_exec_pool. destruct (declines _ _) as [c|] eqn:Dc.
  - split; [repeat split; by auto|]. split; [repeat split; by auto|]. split; [done|]. split; [done|]. split; [done|]. split; [by left|].
    intros a [= <-]. left. by eexists.
  - destruct (carried_out _ _ _) as [a ix] eqn:C. apply K in C as [C1 C2].
    split; [repeat split; by auto|]. split; (split; [done|]; split; [done|]; split; [exact C1|]; split; [by right|]).
    + done.
    + intros a' [= <-]. by right.
Qed.

#[export] Instance OpenSearch_lawful : LawfulEngine OpenSearch.
Proof.
  split; intros i id; [intros doc|]; intros ev d n Hi Hid; cbn [es_Index es_Delete OpenSearch].
  - unfold Index. apply String.eqb_neq in Hi as ->. apply String.eqb_neq in Hid as ->. cbn [orb].
    apply wp_bind. eapply wp_mono; [apply ensureIndex_keeps|]. intros r [d1 x1 n1] [U Hx]. cbn [txs committed] in *. subst x1.
    destruct r as [[]|e]; [|by apply untouched_edited]. apply wp_bind.
    eapply wp_mono; [apply (client_do_edits _ i (<[id := marshal doc]>))|].
    { intros t ix a ix' [= <- <-]. split; [intros j Hj; by rewrite lookup_insert_ne|by rewrite lookup_insert_eq]. }
    intros [a|e] w (P & J & N & O & A).
    + destruct (IsError a) eqn:Er; [apply wp_throw|apply wp_ret]; apply (edited_after _ _ _ d1); try done.
      split; [done|]. split; [done|]. split; [done|]. split; [done|]. intros _. destruct (A a eq_refl) as [[t Dc]|]; [|done].
      apply declined_is_error in Dc. unfold IsError in Er. lia.
    + apply (edited_after _ _ _ d1); done.
  - unfold Delete. apply String.eqb_neq in Hi as ->. apply String.eqb_neq in Hid as ->. cbn [orb].
    apply wp_bind. eapply wp_mono; [apply (client_do_edits _ i (delete id))|].
    { intros t ix a ix'. cbn [carried_out]. destruct (ix !! i) as [docs|] eqn:E; [destruct (docs !! id) eqn:E2|]; intros [= <- <-].
      - split; [intros k Hk; by rewrite lookup_insert_ne|by rewrite lookup_insert_eq].
      - split; [done|]. rewrite ?E. cbn. by rewrite delete_id.
      - split; [done|]. rewrite ?E. cbn. by rewrite delete_empty. }
    intros [a|e] w (P & J & N & O & A); [|done]. 
    destruct (IsError a && _) eqn:Er; [by apply wp_throw|apply wp_ret].
    split; [done|]. split; [done|]. split; [done|]. split; [done|]. intros _. destruct (A a eq_refl) as [[t Dc]|]; [|done].
    pose proof (declined_is_error _ _ _ Dc) as E9. unfold IsError in Er.
    destruct (Z.eqb_spec (os_status a) 404) as [E4|]; [|lia]. rewrite E4 in Dc. by apply delete_not_declined_404 in Dc.
Qed.
End OpenSearchFacts.

(** ** What an event does to the indices *)

(** The document an event edits, and how. *)
Definition edit_of (m : Delivery) : option (string * (index -> index)) :=
  obind (unmarshal m) (fun payload =>
    let a := route (event_type m (default [] payload)) (default [] payload) in
    let i := indexForKind (ia_docType a) in
    if String.eqb i "" || String.eqb (ia_id a) "" then None else
    match ia_op a with
    | opIndex => Some (i, <[ia_id a := marshal payload]>)
    | opDelete => Some (i, delete (ia_id a))
    | opIgnore => None
    end).

Definition apply_event (m : Delivery) (docs : string -> index) (j : string) : index :=
  match edit_of m with
  | Some (i, f) => if decide (j = i) then f (docs j) else docs j
  | None => docs j
  end.

(** The indices that mirror a list of events. *)
Definition mirror (l : list Delivery) (docs : string -> index) : string -> index :=
  fold_left (fun docs m => apply_event m docs) l docs.

Definition docs_of (d : search_db) : string -> index := fun j => documents j d.

Definition applied (m : Delivery) (d d' : search_db) : Prop := forall j, documents j d' = apply_event m (docs_of d) j.

Definition indexed (m : Delivery) (d : search_db) (r : res search_err unit) (w : world search_db) : Prop :=
  let d' := committed w in
  search_processed d' = search_processed d /\
  ((forall j, documents j d' = documents j d) \/ applied m d d') /\
  (r = Ok tt -> applied m d d').

Lemma apply_event_ext m docs docs' : (forall j, docs j = docs' j) -> forall j, apply_event m docs j = apply_event m docs' j.
Proof. intros E j. unfold apply_event. destruct (edit_of m) as [[i f]|]; by rewrite E. Qed.

Lemma mirror_ext l docs docs' : (forall j, docs j = docs' j) -> forall j, mirror l docs j = mirror l docs' j.
Proof. revert docs docs'. induction l as [|m l IH]; intros docs docs' E; [done|]. cbn. apply IH. by apply apply_event_ext. Qed.

(** Editing again changes nothing. *)
Lemma apply_event_twice m docs j : apply_event m (apply_event m docs) j = apply_event m docs j.
Proof.
  unfold apply_event. destruct (edit_of m) as [[i f]|] eqn:E; [|done]. destruct (decide (j = i)); [|done].
  revert E. unfold edit_of, obind. destruct (unmarshal m); [|done]. cbv zeta. destruct (_ || _); [done|].
  destruct (ia_op _); intros [= <- <-]; [by apply insert_insert_eq|by apply delete_delete_eq].
Qed.

Section Consumer.
Context (es : SearchEngine) `{!LawfulEngine es}.
Implicit Types (ev : env) (d : search_db).

Lemma edited_indexed m i f d r w : edit_of m = Some (i, f) -> edited i f d r w -> indexed m d r w.
Proof.
  intros E (P & J & N & O & K).
  assert (documents i (committed w) = f (documents i d) -> applied m d (committed w)) as A.
  { intros F j. unfold apply_event. rewrite E. destruct (decide (j = i)) as [->|Hj]; [done|by apply N]. }
  split; [done|]. split; [|auto]. destruct O as [O|O]; [left|by right; apply A].
  intros j. destruct (decide (j = i)) as [->|Hj]; [done|by apply N].
Qed.

Lemma ignored_indexed m d n : edit_of m = None -> indexed m d (Ok tt) (World d NoTx n).
Proof. intros E. split; [done|]. assert (applied m d d) as A by (intros j; unfold apply_event; by rewrite E). split; auto. Qed.

Lemma indexEvent_indexed m ev d n : wp (indexEvent es m) ev (World d NoTx n) (indexed m d).
Proof.
  unfold indexEvent. destruct (unmarshal m) as [payload|] eqn:U; [|apply wp_ret, ignored_indexed; unfold edit_of; by rewrite U].
  cbv zeta. set (a := route _ _).
  assert (edit_of m = let i := indexForKind (ia_docType a) in
    if String.eqb i "" || String.eqb (ia_id a) "" then None else
    match ia_op a with opIndex => Some (i, <[ia_id a := marshal payload]>) | opDelete => Some (i, delete (ia_id a)) | opIgnore => None end) as E
    by (unfold edit_of; by rewrite U).
  cbv zeta in E. unfold service_Index, service_Delete.
  destruct (String.eqb_spec (indexForKind (ia_docType a)) "") as [|Hi], (String.eqb_spec (ia_id a) "") as [|Hid]; cbn [orb] in E |- *.
  all: destruct (ia_op a); try (by apply wp_ret, ignored_indexed).
  - eapply wp_mono; [by apply engine_index|]. intros r w. by apply edited_indexed.
  - eapply wp_mono; [by apply engine_delete|]. intros r w. by apply edited_indexed.
Qed.

Context (map_order : list (string * string) -> list (string * string)).
Context (error_text : err search_err -> string) (ctx_done : nat -> bool).

Definition search_session (l : list Fetched) : prog (search_db * Broker) search_err unit :=
  Run map_order error_text ctx_done search_consumer (indexEvent es) l.

(** Where a document of the freelancers index comes from. *)
Definition from_profile (l : list Fetched) (id : string) (doc : json) : Prop :=
  exists k payload, In k l /\ unmarshal (Kafka.decode (km k)) = Some payload /\ doc = marshal payload /\
    event_type (Kafka.decode (km k)) (default [] payload) = "profile.updated" /\
    EqualFold (stringField (default [] payload) ["kind"]) "freelancer" = true /\
    boolField (default [] payload) "is_searchable" = true /\
    id = stringField (default [] payload) ["user_id"; "id"].

Lemma freelancers_edit l k docs id doc : In k l ->
  apply_event (Kafka.decode (km k)) docs "freelancers" !! id = Some doc ->
  docs "freelancers" !! id = Some doc \/ from_profile l id doc.
Proof.
  intros Hk. unfold apply_event. destruct (edit_of (Kafka.decode (km k))) as [[i f]|] eqn:E; [|by left].
  destruct (decide ("freelancers" = i)) as [<-|]; [|by left]. revert E. unfold edit_of, obind.
  destruct (unmarshal (Kafka.decode (km k))) as [payload|] eqn:U; [|done]. cbv zeta.
  destruct (route _ _) as [o ty i] eqn:R. cbn [ia_docType ia_id ia_op]. destruct (_ || _); [done|].
  destruct o; [done|..]; intros [= Ei <-].
  - destruct (decide (i = id)) as [->|N]; [|rewrite lookup_insert_ne by done; by left]. rewrite lookup_insert_eq.
    intros [= <-]. right. exists k, payload. do 3 (split; [done|]). revert R. unfold route.
    destruct (String.eqb_spec (event_type (Kafka.decode (km k)) (default [] payload)) "project.published"); [by intros [= <- <-]|].
    destruct (String.eqb_spec (event_type (Kafka.decode (km k)) (default [] payload)) "project.closed"); [done|].
    destruct (String.eqb_spec (event_type (Kafka.decode (km k)) (default [] payload)) "profile.updated"); [|done].
    destruct (EqualFold _ _); [|done]. cbn [negb]. destruct (boolField _ _); [|done]. by intros [= <- <-].
  - destruct (decide (i = id)) as [->|N]; [by rewrite lookup_delete_eq|]. rewrite lookup_delete_ne by done. by left.
Qed.

(** C24: Whatever fails in a session of the consumer: a document that is in the
    freelancers index afterwards was there before, or is the payload of a
    fetched message of type profile.updated, of kind freelancer and marked
    searchable, under the user it names.  No client profile, registration or
    session ever gets in. *)
Theorem only_searchable_freelancers_indexed l ev d b n id doc
    (Hin : documents "freelancers" (fst (committed (snd (search_session l ev (World (d, b) NoTx n))))) !! id = Some doc) :
  documents "freelancers" d !! id = Some doc \/ from_profile l id doc.
Proof.
  set (I := fun d' => forall id doc, documents "freelancers" d' !! id = Some doc ->
              documents "freelancers" d !! id = Some doc \/ from_profile l id doc).
  enough (wp (search_session l) ev (World (d, b) NoTx n) (fun _ w => I (fst (committed w)))) as W by exact (W id doc Hin).
  unfold search_session.
  apply (Run_stays map_order error_text ctx_done search_consumer (indexEvent es) I (fun _ _ => True)
           (fun m => exists k, In k l /\ m = Kafka.decode (km k))); [| |done|done| |].
  - intros m ev' d' n' (k & Hk & ->) HI. eapply wp_mono; [apply indexEvent_indexed|].
    intros r w (_ & O & _). split; [|done]. intros id' doc' Hd. destruct O as [O|O]; rewrite O in Hd; [by apply HI|].
    destruct (freelancers_edit l k _ _ _ Hk Hd) as [Hd'|]; [by apply HI|by right].
  - intros m d' s _ HI _. unfold record_processed. destruct (existsb _ _); exact HI.
  - apply Forall_forall. intros k Hk%list_elem_of_In. by exists k.
  - by intros id' doc' Hd; left.
Qed.
(** *** Sessions *)

Definition resting {A} (d : search_db) (b : Broker) (P : A -> search_db -> Prop) (r : res search_err A)
  (w : world (search_db * Broker)) : Prop :=
  txs w = NoTx /\ snd (committed w) = b /\ exists a, r = Ok a /\ P a (fst (committed w)).

Lemma applied_again m d d1 d2 : applied m d d1 ->
  ((forall j, documents j d2 = documents j d1) \/ applied m d1 d2) -> applied m d d2.
Proof.
  intros A [O|O] j; [by rewrite O|]. rewrite O.
  transitivity (apply_event m (apply_event m (docs_of d)) j); [by apply apply_event_ext|apply apply_event_twice].
Qed.

Lemma same_then m d d1 d2 : (forall j, documents j d1 = documents j d) -> applied m d1 d2 -> applied m d d2.
Proof. intros E A j. rewrite A. by apply apply_event_ext. Qed.

Definition tried_to (m : Delivery) (d : search_db) (o : tried search_err) (d' : search_db) : Prop :=
  search_processed d' = search_processed d /\ ((forall j, documents j d' = documents j d) \/ applied m d d') /\
  (o = Handled -> applied m d d').

Lemma try_handler_tries k m ev d b n :
  wp (try_handler ctx_done (indexEvent es) (S k) m) ev (World (d, b) NoTx n) (resting d b (tried_to m d)).
Proof.
  assert (forall k d1 n1, tried_to m d Cancelled d1 ->
    wp (try_handler ctx_done (indexEvent es) (S k) m) ev (World (d1, b) NoTx n1) (resting d b (tried_to m d))) as X.
  { clear k n. induction k as [|k IH]; intros d1 n1 (P1 & O1 & _).
    all: cbn [try_handler]; apply wp_bind, wp_attempt, wp_on_tables; eapply wp_mono; [apply indexEvent_indexed|].
    all: intros r [d2 x2 n2] (P2 & O2 & K2); cbn [committed] in *.
    all: assert (tried_to m d Cancelled d2) as T by
      (split; [congruence|]; split; [|done]; destruct O1 as [O1|O1];
         [destruct O2 as [O2|O2]; [left; intros j; by rewrite O2|right; by eapply same_then]|right; by eapply applied_again]).
    all: destruct r as [[]|e].
    1,3: apply wp_ret; split; [done|]; split; [done|]; exists Handled; split; [done|]; destruct T as (T1 & T2 & _);
      split; [done|]; split; [done|]; intros _; specialize (K2 eq_refl); destruct O1 as [O1|O1];
      [by eapply same_then|eapply applied_again; [exact O1|by right]].
    - apply wp_ret. split; [done|]. split; [done|]. exists (Failed e). split; [done|]. destruct T as (? & ? & _). by split.
    - apply wp_bind. unfold select_done, wp at 1. cbn [fst snd committed tick].
      destruct (ctx_done _); [|by apply IH]. apply wp_ret. split; [done|]. split; [done|]. by exists Cancelled. }
  apply X. split; [done|]. split; [by left|done].
Qed.

(** Nothing is recorded for the event of the message. *)
Definition unrecorded (m : Delivery) (d : search_db) : Prop :=
  forall r, In r (search_processed d) -> pe_consumer r = consumerGroup -> pe_event_id r <> d_EventID m.

Definition records_of (m : Delivery) (d d' : search_db) : Prop :=
  forall r, In r (search_processed d') -> In r (search_processed d) \/ pe_event_id r = d_EventID m.

Lemma process_mirrors m ev d b n : unrecorded m d ->
  wp (process map_order error_text ctx_done search_consumer (indexEvent es) m) ev (World (d, b) NoTx n)
    (resting d b (fun ok d' => records_of m d d' /\ (ok = true -> applied m d d'))).
Proof.
  intros Hu. unfold process. apply wp_bind.
  assert (forall k, wp (o <- try_handler ctx_done (indexEvent es) (Z.to_nat (maxRetries search_consumer)) m ;;
    match o with
    | Cancelled => ret false
    | Handled => mark search_consumer m
    | Failed e => if negb (dlq search_consumer) then ret false else
        p <- attempt (toDLQ map_order error_text search_consumer m e) ;;
        match p with Err _ => ret false | Ok _ => mark search_consumer m end
    end) ev (World (d, b) NoTx k) (resting d b (fun ok d' => records_of m d d' /\ (ok = true -> applied m d d')))) as Hgo.
  { intros k. apply wp_bind. change (Z.to_nat (maxRetries search_consumer)) with 3%nat.
    eapply wp_mono; [apply try_handler_tries|].
    intros r [[d1 b1] x k1] (Htx & Hb & o & -> & P & O & K). cbn [txs committed fst snd] in *. subst x b1.
    assert (records_of m d d1) as R by (intros r Hr; left; by rewrite <- P).
    destruct o as [| |e]; [|apply wp_ret; split; [done|split; [done|by exists false]]..].
    unfold mark. apply wp_bind. destruct (deduplicated _ m).
    2:{ apply wp_ret, wp_ret. split; [done|]. split; [done|]. exists true. auto. }
    apply wp_bind, wp_attempt, wp_on_tables. unfold MarkProcessed. apply wp_bind, wp_exec_pool.
    unfold record_processed.
    specialize (K eq_refl).
    destruct (existsb _ _); repeat split; intros; try done; exists true; (split; [done|]); (split; [|done]); intros r Hr;
      try (by apply R); (apply in_app_iff in Hr as [Hr|[<-|[]]]; [by apply R|by right]). }
  destruct (deduplicated _ m) eqn:Dd; [|by apply wp_ret].
  apply wp_bind, wp_attempt, wp_on_tables. unfold AlreadyProcessed.
  eapply wp_pool_read; [done|intros _; by apply wp_ret|]. cbn beta. apply wp_ret.
  destruct (existsb _ _) eqn:X; [|apply Hgo]. apply existsb_exists in X as (r & Hr & [Hc He]%andb_true_iff).
  apply String.eqb_eq in Hc, He. by destruct (Hu r Hr Hc).
Qed.

Definition ids_of (l : list Fetched) : list string := map (fun k => d_EventID (Kafka.decode (km k))) l.

Lemma session_mirrors l ev d b n :
  List.NoDup (ids_of l) -> (forall k, In k l -> unrecorded (Kafka.decode (km k)) d) ->
  wp (search_session l) ev (World (d, b) NoTx n) (fun _ w => exists c,
    commits (snd (committed w)) = commits b ++ c /\ (length c <= length l)%nat /\
    (length c = length l -> forall j,
       documents j (fst (committed w)) = mirror (map (fun k => Kafka.decode (km k)) l) (docs_of d) j)).
Proof.
  revert d b n. induction l as [|k l IH]; intros d b n Hd Hu; cbn [search_session Run].
  { apply wp_ret. exists []. by rewrite app_nil_r. }
  apply List.NoDup_cons_iff in Hd as [Hk Hd]. unfold search_session. cbn [Run]. apply wp_bind.
  eapply wp_mono; [apply process_mirrors, Hu; by left|].
  intros r [[d1 b1] x n1] (Htx & Hb & ok & -> & R & A). cbn [txs committed fst snd] in *. subst x b1.
  assert (forall k', In k' l -> unrecorded (Kafka.decode (km k')) d1) as Hu1.
  { intros k' Hk' r Hr Hc E. destruct (R r Hr) as [Hr'|E']; [by apply (Hu k' (or_intror Hk') r)|].
    apply Hk, in_map_iff. exists k'. by rewrite <- E, <- E'. }
  destruct ok.
  - apply wp_bind, wp_on_broker; [intros e; exists []; split; [by rewrite app_nil_r|split; [cbn; lia|done]]|].
    intros [[]|e].
    + eapply wp_mono; [by apply IH|]. intros r w (c & Hc & L & M). exists (km_Offset k :: c). cbn [commits] in Hc.
      split; [by rewrite Hc, <- app_assoc|]. split; [cbn; lia|]. intros [= E] j. rewrite (M E). cbn [map mirror fold_left].
      apply mirror_ext. exact (A eq_refl).
    + exists [km_Offset k]. split; [done|]. split; [cbn; lia|]. intros [= E]. destruct l; [|done]. exact (A eq_refl).
  - eapply wp_mono; [by apply IH|]. intros r w (c & Hc & L & M). exists c. split; [done|]. split; [cbn; lia|].
    intros E. cbn [length] in E. lia.
Qed.

(** C20: However often the handler fails and is retried: when a session over
    events that were not recorded before commits the offset of each of them, the
    documents of every index are those the events leave, taken in order. *)
Theorem index_mirrors_the_events l ev d b n
    (Hids : List.NoDup (ids_of l)) (Hnew : forall k, In k l -> unrecorded (Kafka.decode (km k)) d)
    (Hall : commits (snd (committed (snd (search_session l ev (World (d, b) NoTx n))))) = commits b ++ map km_Offset l) :
  forall j, documents j (fst (committed (snd (search_session l ev (World (d, b) NoTx n))))) =
            mirror (map (fun k => Kafka.decode (km k)) l) (docs_of d) j.
Proof.
  destruct (session_mirrors l ev d b n Hids Hnew) as (c & Hc & _ & M). apply M.
  rewrite Hall in Hc. apply app_inv_head in Hc as <-. by rewrite length_map.
Qed.
End Consumer.

(** ** Demonstration *)

Definition at_once : Cluster := {| declines := fun _ _ => None; relevant := fun _ _ _ => None |}.
#[local] Existing Instance at_once.
#[local] Instance at_once_lawful : LawfulCluster.
Proof. by split. Qed.

Definition bus_event (offset : Z) (id ty topic key : string) (o : list (string * json)) : Fetched :=
  mkFetched offset (mkMessage topic key (JObj o) [("event-id", id); ("event-type", ty)]).

Definition profile_message (offset : Z) (id kind u : string) (searchable : bool) : Fetched :=
  bus_event offset id "profile.updated" "user.events" u
    [("user_id", JStr u); ("kind", JStr kind); ("is_searchable", JBool searchable)].

Definition project_message (offset : Z) (id ty p : string) : Fetched :=
  bus_event offset id ty "project.events" p [("project_id", JStr p)].

Definition no_index : search_db := mkSearchDb [] ∅ ∅ [].

Definition run_session (l : list Fetched) (ev : env) : search_db * Broker :=
  committed (snd (search_session OpenSearch (fun h => h) (fun _ => "") (fun _ => false) l ev
                    (World (no_index, mkBroker [] []) NoTx 0))).

Definition demo_events : list Fetched :=
  [profile_message 0 "e0" "client" "ann" true; profile_message 1 "e1" "freelancer" "bob" true;
   profile_message 2 "e2" "Freelancer" "eve" true; profile_message 3 "e3" "freelancer" "eve" false;
   project_message 4 "e4" "project.published" "p1"; project_message 5 "e5" "project.published" "p2";
   project_message 6 "e6" "project.closed" "p1"].

Definition indexed_ids (i : string) (d : search_db) : list string := map fst (map_to_list (documents i d)).

Lemma only_searchable_freelancers_indexed_witness :
  let d := fst (run_session demo_events quiet_env) in
  indexed_ids "freelancers" d = ["bob"] /\
  exists doc, documents "freelancers" d !! "bob" = Some doc /\ from_profile demo_events "bob" doc.
Proof.
  cbv zeta. split; [vm_compute; reflexivity|].
  set (doc := JObj [("user_id", JStr "bob"); ("kind", JStr "freelancer"); ("is_searchable", JBool true)]).
  assert (documents "freelancers" (fst (run_session demo_events quiet_env)) !! "bob" = Some doc) as E by (vm_compute; reflexivity).
  exists doc. split; [exact E|].
  destruct (only_searchable_freelancers_indexed OpenSearch (fun h => h) (fun _ => "") (fun _ => false)
              demo_events quiet_env no_index (mkBroker [] []) 0 "bob" doc E) as [H|H]; [|exact H].
  vm_compute in H. discriminate H.
Defined.

(** The cluster cannot be reached for a while: the first attempts at the third
    event fail. *)
Definition flaky_env : env :=
  Env (fun n => (n =? 14)%nat || (n =? 16)%nat) (fun _ => true) (clock quiet_env) (gen_uuid quiet_env) (rand_read quiet_env).

Lemma index_mirrors_the_events_witness :
  commits (snd (run_session demo_events flaky_env)) = map km_Offset demo_events /\
  forall j, documents j (fst (run_session demo_events flaky_env)) =
            mirror (map (fun k => Kafka.decode (km k)) demo_events) (fun _ => ∅) j.
Proof.
  assert (commits (snd (run_session demo_events flaky_env)) = map km_Offset demo_events) as E by (vm_compute; reflexivity).
  split; [exact E|]. intros j.
  refine (index_mirrors_the_events OpenSearch (fun h => h) (fun _ => "") (fun _ => false)
            demo_events flaky_env no_index (mkBroker [] []) 0 _ _ E j).
  - vm_compute. repeat constructor; cbn; intuition discriminate.
  - intros k _ r [].
Defined.

(** The cluster is down while a project is closed.  The comment in main says the
    event is redelivered; the next event's commit passes it, and the closed
    project stays in the index. *)
Definition down_env : env :=
  Env (fun n => (6 <=? n)%nat && (n <=? 11)%nat) (fun _ => false) (clock quiet_env) (gen_uuid quiet_env) (rand_read quiet_env).

Example closed_project_stays_indexed :
  let l := [project_message 0 "e0" "project.published" "p1"; project_message 1 "e1" "project.closed" "p1";
            project_message 2 "e2" "project.published" "p2"] in
  let '(d, b) := run_session l down_env in
  indexed_ids "projects" d = ["p1"; "p2"] /\ commits b = [0; 2].
Proof. vm_compute. auto. Qed.

#[local] Instance word_search : TextSearch := fun title description q => contains title q || contains description q.
#[local] Instance flat_rank : TextRank := {| ts_rank := fun _ _ _ => f0; timestamptz_text := fun t => Some (format_rfc3339 t) |}.

Definition demo_listing (id title status : string) (lo : Z) : Project :=
  mkProject id "ann" None title "" "fixed" (Some lo) None "USD" None None None status "public" 0 0 (Some 0) None 0 0 None.

Definition demo_projects : search_db :=
  mkSearchDb [demo_listing "p1" "a web shop" "published" 50000; demo_listing "p2" "a web page" "draft" 90000;
              demo_listing "p3" "web scraping" "published" 90000; demo_listing "p4" "a logo" "published" 90000] ∅ ∅ [].

Definition ask (l : list (string * string)) : request :=
  Request (fun _ => "") (fun _ => "") (fun k => default "" (get_header k l)) 0 None None.

Definition demo_ilike (s pattern : string) : bool := contains s pattern.

Definition answered (r : request) : response :=
  match fst (serve demo_ilike OpenSearchStub ProjectsR r quiet_env (World demo_projects NoTx 0)) with
  | Ok resp => resp
  | Err _ => Response 0 JNull
  end.

(** The ids of the hits, and the total. *)
Definition listed_hits (r : response) : list json * json :=
  match payload_of r with
  | JObj [(_, JList hits); (_, total)] => (map (fun h => match h with JObj ((_, id) :: _) => id | _ => JNull end) hits, total)
  | _ => ([], JNull)
  end.

Definition demo_ask : request := ask [("q", "web"); ("min", "60000"); ("limit", "5000")].

Lemma found_projects_are_published_witness :
  listed_hits (answered demo_ask) = ([JStr "p3"], JInt 1) /\
  exists hits total, answered demo_ask = writeResult (mkResult hits total) /\ (length hits <= 100)%nat /\
    forall h, In h hits -> shown demo_ask demo_projects h.
Proof.
  split; [vm_compute; reflexivity|].
  apply (found_projects_are_published demo_ilike demo_ask quiet_env demo_projects 0 (answered demo_ask));
    vm_compute; reflexivity.
Defined.

(** A page past the last hit reports that there are none. *)
Example past_the_end :
  listed_hits (answered (ask [("q", "web"); ("offset", "2")])) = ([], JInt 0) /\
  listed_hits (answered (ask [("q", "web"); ("offset", "1")])) = ([JStr "p3"], JInt 2).
Proof. vm_compute. auto. Qed.

(** A budget type that is none is an internal error. *)
Example unknown_budget_type : status (answered (ask [("q", "web"); ("budget_type", "daily")])) = 500.
Proof. vm_compute. reflexivity. Qed.

(** The document of a published project has none of the fields that the filters
    and two of the three text fields of the query look at. *)
Example published_document_is_bare id client p :
  id <> "" ->
  exists o, Payload (published_event id client p) = JObj o /\
    route "project.published" o = mkAction opIndex "project" id /\
    Forall (fun k => member k o = None)
      ["description"; "skills"; "budget_min_cents"; "budget_max_cents"; "status"; "published_at"].
Proof.
  intros N. eexists. split; [reflexivity|]. split; [|repeat constructor].
  unfold route. cbn. by apply String.eqb_neq in N as ->.
Qed.
