(* ===== verification/WsHub.v ===== *)
(** * WebSocket gateway: the hub (services/wsgateway/internal/hub)

    The replicas of the gateway and the Redis they share, as a transition
    system.  A goroutine is what it has still to do, a list of atomic actions:
    the sections of the hub that hold its mutex, the selects of trySend and
    closeOnce, the calls to the messaging service and to Redis.  [next] gives
    the effect of one action of one goroutine; every interleaving is a list of
    labels. *)
From stdpp Require Import gmap sets.
From S2P Require Export Gateway.
#[local] Open Scope Z_scope.

(** ** Frames (protocol.go) *)

Definition TypeJoin := "join".
Definition TypeLeave := "leave".
Definition TypeSend := "send".
Definition TypeTyping := "typing".
Definition TypeRead := "read".
Definition TypeMessage := "message.sent".
Definition TypePresence := "presence".
Definition TypeError := "error".
Definition TypeAck := "ack".

Record Inbound := mkInbound {
  i_Type : string;
  i_ConversationID : string;
  i_Body : string;
  i_Ref : string
}.

Record Outbound := mkOutbound {
  o_Type : string;
  o_ConversationID : string;
  o_MessageID : string;
  o_SenderID : string;
  o_Body : string;
  o_UserID : string;
  o_Online : bool;
  o_Code : string;
  o_Message : string;
  o_Ref : string;
  o_TS : Z
}.

(** The members of a value that omitempty leaves out when it is zero. *)
Definition some_text (tag s : string) : list (string * json) :=
  if String.eqb s "" then [] else [(tag, JStr s)].
Definition some_flag (tag : string) (b : bool) : list (string * json) := if b then [(tag, JBool b)] else [].
Definition some_number (tag : string) (z : Z) : list (string * json) := if z =? 0 then [] else [(tag, JInt z)].

(** Outbound.encode *)
Definition encode (o : Outbound) : json :=
  JObj (("type", JStr (o_Type o)) ::
    some_text "conversation_id" (o_ConversationID o) ++ some_text "message_id" (o_MessageID o) ++
    some_text "sender_id" (o_SenderID o) ++ some_text "body" (o_Body o) ++ some_text "user_id" (o_UserID o) ++
    some_flag "online" (o_Online o) ++ some_text "code" (o_Code o) ++ some_text "message" (o_Message o) ++
    some_text "ref" (o_Ref o) ++ some_number "ts" (o_TS o)).

(** json.Unmarshal into an Outbound. *)
Definition decode_Outbound (j : json) : option Outbound :=
  o ← members (Some j) ;
  ty ← str_field "type" o ; cv ← str_field "conversation_id" o ; mi ← str_field "message_id" o ;
  se ← str_field "sender_id" o ; bo ← str_field "body" o ; us ← str_field "user_id" o ;
  on ← bool_field "online" o ; co ← str_field "code" o ; me ← str_field "message" o ;
  re ← str_field "ref" o ; ts ← int_field "ts" o ;
  Some (mkOutbound ty cv mi se bo us on co me re ts).

(** json.Unmarshal into an Inbound; [None] when the bytes do not parse. *)
Definition decode_Inbound (data : option json) : option Inbound :=
  j ← data ; o ← members (Some j) ;
  ty ← str_field "type" o ; cv ← str_field "conversation_id" o ; bo ← str_field "body" o ;
  re ← str_field "ref" o ; Some (mkInbound ty cv bo re).

Definition errorFrame (code msg : string) : json :=
  encode (mkOutbound TypeError "" "" "" "" "" false code msg "" 0).
Definition ackFrame (conv ref : string) : json :=
  encode (mkOutbound TypeAck conv "" "" "" "" false "" "" ref 0).

(** ** The messaging service as the hub sees it (persist.go)

    An answer is the status and the JSON of the body, [None] when the call
    failed. *)
Definition membership_url (base conv : string) : string :=
  (base ++ "/v1/messaging/conversations/" ++ conv ++ "/membership")%string.
Definition messages_url (base conv : string) : string :=
  (base ++ "/v1/messaging/conversations/" ++ conv ++ "/messages")%string.

Definition success_body (answer : option (Z * option json)) : option (list (string * json)) :=
  match answer with
  | Some (status, b) => if (status <? 200) || (300 <=? status) then None else members b
  | None => None
  end.

Definition CheckMembership (answer : option (Z * option json)) : option bool :=
  o ← success_body answer ; bool_field "member" o.

(** The request that PostMessage sends, and what it makes of the answer. *)
Definition persistReq (text : string) : json := JObj [("body", JStr text); ("kind", JStr "text")].
Definition PostMessage (answer : option (Z * option json)) : option string :=
  o ← success_body answer ; str_field "id" o.

(** ** State *)

(** The atomic actions.  Connections and replicas are numbered. *)
Inductive act :=
| TrySend (c : nat) (b : json)                          (* the select of trySend *)
| CloseOnce (c : nat)                                   (* the select of closeOnce *)
| Close (c : nat)                                       (* close(c.closed) *)
| Heartbeat (c : nat)
| GoWrite (c : nat)                                     (* go c.writePump(ctx) *)
| JoinCheck (c : nat) (conv : string)                   (* the first locked section of join *)
| Authorize (c : nat) (conv : string)                   (* the membership call *)
| JoinCommit (c : nat) (conv : string)                  (* the second locked section *)
| Leave (c : nat) (conv : string)
| Persist (c : nat) (i : Inbound) (ts : Z)              (* the call of handleSend *)
| Broadcast (r : nat) (conv : string) (frame : Outbound)
| Gather (r : nat) (conv : string) (frame : Outbound) (raw : json)
                                                        (* the locked section of deliverLocal *)
| Unregister (c : nat)
| ClearPresence (c : nat)
| Return (c : nat).                                     (* the request handler returns *)

Inductive phase := Pumping | Ending | Gone | Panicked.
#[export] Instance phase_eq_dec : EqDecision phase.
Proof. solve_decision. Defined.

Record Conn := mkConn {
  c_replica : nat;
  c_userID : string;
  c_send : list json;              (* the buffered channel *)
  c_joined : gset string;
  c_closed : bool;                 (* the channel closed is closed *)
  c_todo : list act;               (* what the read pump has still to do *)
  c_phase : phase;                 (* of the goroutine that runs it *)
  c_writing : bool;                (* the write pump runs *)
  c_wire : list json               (* what it has written, in order *)
}.

Record convState := mkConvState {
  subscribers : gset nat;
  sub : option nat                 (* the Redis subscription; none without Redis *)
}.

Record Hub := mkHub {
  conns : gset nat;
  convs : gmap string convState;
  userConns : gmap string Z
}.

(** A Redis subscription with the goroutine that reads it. *)
Record Subscription := mkSubscription {
  s_replica : nat;
  s_conv : string;
  s_parent : nat;                  (* the connection whose context its own derives from *)
  s_open : bool;                   (* neither cancelled nor closed *)
  s_queue : list json;             (* payloads that arrived *)
  s_todo : list act;
  s_reading : bool                 (* readConversation has not returned *)
}.

Record fabric := mkFabric {
  f_conns : gmap nat Conn;
  f_hubs : gmap nat Hub;
  f_subs : gmap nat Subscription;
  f_presence : gmap string (option Z);   (* the keys in Redis with their expiry *)
  f_now : Z;
  f_vouched : gset (string * string);    (* the members messaging has confirmed *)
  f_down : gset nat;                     (* replicas that are shutting down *)
  f_crashed : gset nat
}.

Definition New : Hub := mkHub ∅ ∅ ∅.
Definition hub_of (f : fabric) (r : nat) : Hub := default New (f_hubs f !! r).
Definition start : fabric := mkFabric ∅ ∅ ∅ ∅ 0 ∅ ∅ ∅.

Record hub_config := mkHubConfig {
  SendBuffer : nat;
  PresenceTTL : Z;                 (* nanoseconds *)
  redis_enabled : bool             (* Bus.Enabled *)
}.

(** Assignments. *)
Definition with_send x k := mkConn (c_replica k) (c_userID k) x (c_joined k) (c_closed k) (c_todo k) (c_phase k) (c_writing k) (c_wire k).
Definition with_joined x k := mkConn (c_replica k) (c_userID k) (c_send k) x (c_closed k) (c_todo k) (c_phase k) (c_writing k) (c_wire k).
Definition with_closed k := mkConn (c_replica k) (c_userID k) (c_send k) (c_joined k) true (c_todo k) (c_phase k) (c_writing k) (c_wire k).
Definition with_todo x k := mkConn (c_replica k) (c_userID k) (c_send k) (c_joined k) (c_closed k) x (c_phase k) (c_writing k) (c_wire k).
Definition with_phase x k := mkConn (c_replica k) (c_userID k) (c_send k) (c_joined k) (c_closed k) (c_todo k) x (c_writing k) (c_wire k).
Definition with_writing x k := mkConn (c_replica k) (c_userID k) (c_send k) (c_joined k) (c_closed k) (c_todo k) (c_phase k) x (c_wire k).
Definition with_wire x y k := mkConn (c_replica k) (c_userID k) x (c_joined k) (c_closed k) (c_todo k) (c_phase k) (c_writing k) y.

Definition with_open x s := mkSubscription (s_replica s) (s_conv s) (s_parent s) x (s_queue s) (s_todo s) (s_reading s).
Definition with_queue x s := mkSubscription (s_replica s) (s_conv s) (s_parent s) (s_open s) x (s_todo s) (s_reading s).
Definition with_work x s := mkSubscription (s_replica s) (s_conv s) (s_parent s) (s_open s) (s_queue s) x (s_reading s).
Definition with_reading x s := mkSubscription (s_replica s) (s_conv s) (s_parent s) (s_open s) (s_queue s) (s_todo s) x.

Definition set_conns x f := mkFabric x (f_hubs f) (f_subs f) (f_presence f) (f_now f) (f_vouched f) (f_down f) (f_crashed f).
Definition set_hubs x f := mkFabric (f_conns f) x (f_subs f) (f_presence f) (f_now f) (f_vouched f) (f_down f) (f_crashed f).
Definition set_subs x f := mkFabric (f_conns f) (f_hubs f) x (f_presence f) (f_now f) (f_vouched f) (f_down f) (f_crashed f).
Definition set_presence x f := mkFabric (f_conns f) (f_hubs f) (f_subs f) x (f_now f) (f_vouched f) (f_down f) (f_crashed f).
Definition set_now x f := mkFabric (f_conns f) (f_hubs f) (f_subs f) (f_presence f) x (f_vouched f) (f_down f) (f_crashed f).
Definition set_vouched x f := mkFabric (f_conns f) (f_hubs f) (f_subs f) (f_presence f) (f_now f) x (f_down f) (f_crashed f).
Definition set_down x f := mkFabric (f_conns f) (f_hubs f) (f_subs f) (f_presence f) (f_now f) (f_vouched f) x (f_crashed f).
Definition set_crashed x f := mkFabric (f_conns f) (f_hubs f) (f_subs f) (f_presence f) (f_now f) (f_vouched f) (f_down f) x.

Definition on_conn (c : nat) (g : Conn -> Conn) (f : fabric) : fabric := set_conns (alter g c (f_conns f)) f.
Definition on_sub (s : nat) (g : Subscription -> Subscription) (f : fabric) : fabric := set_subs (alter g s (f_subs f)) f.
Definition on_hub (r : nat) (g : Hub -> Hub) (f : fabric) : fabric := set_hubs (<[r := g (hub_of f r)]> (f_hubs f)) f.

(** ** The locked sections (hub.go) *)

Definition register (c : nat) (u : string) (h : Hub) : Hub :=
  mkHub ({[c]} ∪ conns h) (convs h) (<[u := default 0 (userConns h !! u) + 1]> (userConns h)).

(** cs.cancel() and cs.sub.Close() *)
Definition close_sub (s : option nat) (f : fabric) : fabric :=
  match s with Some s => on_sub s (with_open false) f | None => f end.

Definition leaveLocked (c : nat) (conv : string) (f : fabric) : fabric :=
  match f_conns f !! c with
  | None => f
  | Some k =>
      match convs (hub_of f (c_replica k)) !! conv with
      | None => f
      | Some cs =>
          let left := subscribers cs ∖ {[c]} in
          let f := on_conn c (with_joined (c_joined k ∖ {[conv]})) f in
          let put m := on_hub (c_replica k) (fun h => mkHub (conns h) (m (convs h)) (userConns h)) in
          if decide (left = ∅) then put (delete conv) (close_sub (sub cs) f)
          else put (insert conv (mkConvState left (sub cs))) f
      end
  end.

(** The user's count with one connection less, and whether it was the last. *)
Definition dropped (u : string) (m : gmap string Z) : gmap string Z * bool :=
  let n := default 0 (m !! u) - 1 in
  if n <=? 0 then (delete u m, true) else (<[u := n]> m, false).

Definition unregister (c : nat) (f : fabric) : fabric * bool :=
  match f_conns f !! c with
  | None => (f, false)
  | Some k =>
      let f := on_hub (c_replica k) (fun h => mkHub (conns h ∖ {[c]}) (convs h) (userConns h)) f in
      let f := foldr (leaveLocked c) f (elements (c_joined k)) in
      let h := hub_of f (c_replica k) in
      let '(m, last) := dropped (c_userID k) (userConns h) in
      (on_hub (c_replica k) (fun h => mkHub (conns h) (convs h) m) f, last)
  end.

(** Bus.Subscribe: a confirmed subscription and its reader. *)
Definition Subscribe (r : nat) (c : nat) (conv : string) (f : fabric) : nat * fabric :=
  let s := base.fresh (dom (f_subs f)) in
  (s, set_subs (<[s := mkSubscription r conv c true [] [] true]> (f_subs f)) f).

(** What join answers when it fails. *)
Definition join_unverified := errorFrame "FORBIDDEN" "could not verify conversation membership".
Definition join_stranger := errorFrame "FORBIDDEN" "not a participant in this conversation".
Definition join_unsubscribed := errorFrame "SUBSCRIBE_FAILED" "could not subscribe to conversation".

(** The second locked section of join; [ok] when Redis confirms. *)
Definition join_commit (cfg : hub_config) (ok : bool) (c : nat) (conv : string) (f : fabric) : fabric * list act :=
  match f_conns f !! c with
  | None => (f, [])
  | Some k =>
      if bool_decide (conv ∈ c_joined k) then (f, []) else
      let enter cs f :=
        (on_conn c (with_joined ({[conv]} ∪ c_joined k))
          (on_hub (c_replica k) (fun h => mkHub (conns h)
             (<[conv := mkConvState ({[c]} ∪ subscribers cs) (sub cs)]> (convs h)) (userConns h)) f),
         [TrySend c (ackFrame conv "join")]) in
      match convs (hub_of f (c_replica k)) !! conv with
      | Some cs => enter cs f
      | None =>
          if redis_enabled cfg then
            if ok then let '(s, f) := Subscribe (c_replica k) c conv f in enter (mkConvState ∅ (Some s)) f
            else (f, [TrySend c join_unsubscribed])
          else enter (mkConvState ∅ None) f
      end
  end.

(** The connections that deliverLocal writes to: a sender does not get its own
    typing and read frames. *)
Definition echoes (frame : Outbound) (k : Conn) : bool :=
  negb (String.eqb (o_SenderID frame) "") && String.eqb (o_SenderID frame) (c_userID k) &&
  (String.eqb (o_Type frame) TypeTyping || String.eqb (o_Type frame) TypeRead).

Definition targets (f : fabric) (frame : Outbound) (cs : convState) : list nat :=
  List.filter (fun c => match f_conns f !! c with Some k => negb (echoes frame k) | None => false end)
    (elements (subscribers cs)).

(** ** Actions *)

(** What the world answers to an action. *)
Record answer := mkAnswer {
  a_http : option (Z * option json);     (* of the messaging service *)
  a_ok : bool;                           (* Redis did not fail *)
  a_drop : bool;                         (* select takes the closed channel when both are ready *)
  a_order : list nat -> list nat         (* the order of a range over a map *)
}.

Definition trySend (cfg : hub_config) (drop : bool) (c : nat) (b : json) (f : fabric) : fabric * list act :=
  match f_conns f !! c with
  | None => (f, [])
  | Some k =>
      if (length (c_send k) <? SendBuffer cfg)%nat && negb (c_closed k && drop)
      then (on_conn c (with_send (c_send k ++ [b])) f, [])
      else if c_closed k then (f, []) else (f, [CloseOnce c])
  end.

(** Bus.Heartbeat and Bus.ClearPresence *)
Definition presenceKey (u : string) : string := ("presence:" ++ u)%string.
Definition beat (cfg : hub_config) (u : string) (f : fabric) : fabric :=
  let expiry := if PresenceTTL cfg =? 0 then None else Some (f_now f + PresenceTTL cfg) in
  set_presence (<[presenceKey u := expiry]> (f_presence f)) f.
Definition clear (u : string) (f : fabric) : fabric :=
  set_presence (delete (presenceKey u) (f_presence f)) f.

(** Bus.Publish: every open subscription of the channel gets the payload. *)
Definition publish (conv : string) (b : json) (f : fabric) : fabric :=
  set_subs ((fun s => if s_open s && String.eqb (s_conv s) conv then with_queue (s_queue s ++ [b]) s else s) <$> f_subs f) f.

(** What handleSend fans out. *)
Definition sent_frame (u : string) (i : Inbound) (id : string) (ts : Z) : Outbound :=
  mkOutbound TypeMessage (i_ConversationID i) id u (i_Body i) "" false "" "" (i_Ref i) ts.
Definition ephemeral_frame (typ u : string) (i : Inbound) (ts : Z) : Outbound :=
  mkOutbound typ (i_ConversationID i) "" u "" "" false "" "" "" ts.

Definition heartbeat (cfg : hub_config) (ok : bool) (u : string) (f : fabric) : fabric :=
  if redis_enabled cfg && ok then beat cfg u f else f.
Definition clearPresence (cfg : hub_config) (ok : bool) (u : string) (f : fabric) : fabric :=
  if redis_enabled cfg && ok then clear u f else f.

(** The select of closeOnce. *)
Definition closeOnce (c : nat) (k : Conn) : list act := if c_closed k then [] else [Close c].

(** The fast path of join. *)
Definition unless_joined (c : nat) (conv : string) (k : Conn) : list act :=
  if bool_decide (conv ∈ c_joined k) then [] else [Authorize c conv].

(** The membership call of join. *)
Definition authorize (http : option (Z * option json)) (c : nat) (conv : string) (k : Conn) (f : fabric) : fabric * list act :=
  match CheckMembership http with
  | None => (f, [TrySend c join_unverified])
  | Some false => (f, [TrySend c join_stranger])
  | Some true => (set_vouched ({[(conv, c_userID k)]} ∪ f_vouched f) f, [JoinCommit c conv])
  end.

(** handleSend after the persister's answer: an error only costs the id. *)
Definition fan_out (http : option (Z * option json)) (c : nat) (i : Inbound) (ts : Z) (k : Conn) : list act :=
  [Broadcast (c_replica k) (i_ConversationID i) (sent_frame (c_userID k) i (default "" (PostMessage http)) ts)].

(** To Redis, or to the local connections without it. *)
Definition broadcast (cfg : hub_config) (ok : bool) (r : nat) (conv : string) (frame : Outbound) (f : fabric) : fabric * list act :=
  if redis_enabled cfg then (if ok then publish conv (encode frame) f else f, [])
  else (f, [Gather r conv frame (encode frame)]).

Definition deliverLocal (order : list nat -> list nat) (r : nat) (conv : string) (frame : Outbound) (raw : json) (f : fabric) : list act :=
  match convs (hub_of f r) !! conv with
  | None => []
  | Some cs => map (fun c => TrySend c raw) (order (targets f frame cs))
  end.

(** An action and what its goroutine does next; [None] when it panics. *)
Definition exec (cfg : hub_config) (x : answer) (a : act) (f : fabric) : option (fabric * list act) :=
  let whose c (g : Conn -> fabric * list act) :=
    Some match f_conns f !! c with Some k => g k | None => (f, []) end in
  match a with
  | TrySend c b => Some (trySend cfg (a_drop x) c b f)
  | CloseOnce c => whose c (fun k => (f, closeOnce c k))
  | Close c =>
      match f_conns f !! c with
      | Some k => if c_closed k then None else Some (on_conn c with_closed f, [])
      | None => Some (f, [])
      end
  | Heartbeat c => whose c (fun k => (heartbeat cfg (a_ok x) (c_userID k) f, []))
  | GoWrite c => Some (on_conn c (with_writing true) f, [])
  | JoinCheck c conv => whose c (fun k => (f, unless_joined c conv k))
  | Authorize c conv => whose c (fun k => authorize (a_http x) c conv k f)
  | JoinCommit c conv => Some (join_commit cfg (a_ok x) c conv f)
  | Leave c conv => Some (leaveLocked c conv f, [])
  | Persist c i ts => whose c (fun k => (f, fan_out (a_http x) c i ts k))
  | Broadcast r conv frame => Some (broadcast cfg (a_ok x) r conv frame f)
  | Gather r conv frame raw => Some (f, deliverLocal (a_order x) r conv frame raw f)
  | Unregister c => let '(f, last) := unregister c f in Some (f, if last then [ClearPresence c] else [])
  | ClearPresence c => whose c (fun k => (clearPresence cfg (a_ok x) (c_userID k) f, []))
  | Return c => Some (on_conn c (with_phase Gone) f, [])
  end.

(** Conn.dispatch, with the first lines of the handlers. *)
Definition bad_frame (c : nat) (msg : string) : list act := [TrySend c (errorFrame "BAD_FRAME" msg)].

Definition handleSend (c : nat) (i : Inbound) (ts : Z) : list act :=
  if String.eqb (i_ConversationID i) "" || String.eqb (i_Body i) ""
  then bad_frame c "send requires conversation_id and body" else [Persist c i ts].

Definition handleEphemeral (k : Conn) (c : nat) (i : Inbound) (typ : string) (ts : Z) : list act :=
  if String.eqb (i_ConversationID i) "" then bad_frame c (typ ++ " requires conversation_id")
  else [Broadcast (c_replica k) (i_ConversationID i) (ephemeral_frame typ (c_userID k) i ts)].

Definition join (c : nat) (conv : string) : list act :=
  if String.eqb conv "" then bad_frame c "join requires conversation_id" else [JoinCheck c conv].

Definition dispatch (k : Conn) (c : nat) (i : Inbound) (ts : Z) : list act :=
  let ty := i_Type i in
  if String.eqb ty TypeJoin then join c (i_ConversationID i)
  else if String.eqb ty TypeLeave then [Leave c (i_ConversationID i)]
  else if String.eqb ty TypeSend then handleSend c i ts
  else if String.eqb ty TypeTyping then handleEphemeral k c i TypeTyping ts
  else if String.eqb ty TypeRead then handleEphemeral k c i TypeRead ts
  else [TrySend c (errorFrame "UNKNOWN_TYPE" ("unknown frame type: " ++ ty))].

(** One turn of the loop of readPump. *)
Definition read_frame (k : Conn) (c : nat) (data : option json) (ts : Z) : list act :=
  match decode_Inbound data with
  | None => bad_frame c "could not parse frame"
  | Some i => dispatch k c i ts
  end.

(** ** Steps *)

Inductive label :=
| Connect (r : nat) (u : string)                 (* newConn, and h.register of run *)
| Receive (c : nat) (data : option json) (ts : Z)  (* ReadMessage returns a frame at UnixMilli [ts] *)
| Pong (c : nat)
| Hangup (c : nat)                               (* ReadMessage fails *)
| Pump (c : nat) (x : answer)                    (* an action of the connection's goroutine *)
| Write (c : nat)                                (* the write pump sends a frame *)
| StopWriting (c : nat)                          (* the write pump returns *)
| Arrive (s : nat)                               (* the reader takes a payload *)
| Lose (s : nat)                                 (* Redis delivers at most once *)
| StopReading (s : nat)
| Fan (s : nat) (x : answer)                     (* an action of the reader *)
| Elapse (dt : Z)
| Shutdown (r : nat).

(** The request context of a connection is done when its handler has returned,
    or its replica shuts down. *)
Definition ctx_done (f : fabric) (c : nat) : bool :=
  match f_conns f !! c with
  | Some k => bool_decide (c_phase k = Gone) || bool_decide (c_phase k = Panicked) ||
              bool_decide (c_replica k ∈ f_down f)
  | None => true
  end.

(** The read pump is in ReadMessage. *)
Definition reading (k : Conn) : bool := bool_decide (c_phase k = Pumping) && (length (c_todo k) =? 0)%nat.

Definition alive (f : fabric) (r : nat) : bool := negb (bool_decide (r ∈ f_crashed f)).

(** An action of the goroutine of [c]: net/http recovers its panic. *)
Definition pump (cfg : hub_config) (c : nat) (x : answer) (k : Conn) (f : fabric) : option fabric :=
  match c_todo k with
  | [] => None
  | a :: rest =>
      Some match exec cfg x a f with
           | Some (f, more) => on_conn c (with_todo (more ++ rest)) f
           | None => on_conn c (fun k => with_phase Panicked (with_todo [] k)) f
           end
  end.

(** An action of a reader: its panic ends the process. *)
Definition fan (cfg : hub_config) (s : nat) (x : answer) (z : Subscription) (f : fabric) : option fabric :=
  match s_todo z with
  | [] => None
  | a :: rest =>
      Some match exec cfg x a f with
           | Some (f, more) => on_sub s (with_work (more ++ rest)) f
           | None => set_crashed ({[s_replica z]} ∪ f_crashed f) f
           end
  end.

(** readConversation with a payload in hand. *)
Definition read_payload (z : Subscription) (b : json) : list act :=
  match decode_Outbound b with
  | None => []
  | Some frame => [Gather (s_replica z) (s_conv z) frame b]
  end.

(** The case of a queued frame in writePump. *)
Definition write_frame (c : nat) (f : fabric) (k : Conn) : option fabric :=
  match c_send k with
  | b :: q => if c_writing k then Some (on_conn c (with_wire q (c_wire k ++ [b])) f) else None
  | [] => None
  end.

(** What run does once readPump has returned. *)
Definition ending (c : nat) (k : Conn) : Conn := with_phase Ending (with_todo [CloseOnce c; Unregister c; Return c] k).

(** The cases of readConversation: a payload, and a context that is done or a
    channel that was closed. *)
Definition take_payload (s : nat) (f : fabric) (z : Subscription) : option fabric :=
  match s_todo z, s_queue z with
  | [], b :: q => Some (on_sub s (fun z => with_work (read_payload z b) (with_queue q z)) f)
  | _, _ => None
  end.
Definition lose_payload (s : nat) (f : fabric) (z : Subscription) : option fabric :=
  match s_queue z with _ :: q => Some (on_sub s (with_queue q) f) | [] => None end.
Definition stop_reading (s : nat) (f : fabric) (z : Subscription) : option fabric :=
  if (length (s_todo z) =? 0)%nat && (negb (s_open z) || ctx_done f (s_parent z))
  then Some (on_sub s (with_reading false) f) else None.

Definition on_live_conn (c : nat) (f : fabric) (g : Conn -> option fabric) : option fabric :=
  match f_conns f !! c with
  | Some k => if alive f (c_replica k) then g k else None
  | None => None
  end.
Definition on_live_sub (s : nat) (f : fabric) (g : Subscription -> option fabric) : option fabric :=
  match f_subs f !! s with
  | Some z => if alive f (s_replica z) && s_reading z then g z else None
  | None => None
  end.

(** newConn, and run before the pumps start. *)
Definition newConn (r : nat) (u : string) (c : nat) : Conn :=
  mkConn r u [] ∅ false [Heartbeat c; GoWrite c] Pumping false [].
Definition connect (r : nat) (u : string) (f : fabric) : fabric :=
  let c := base.fresh (dom (f_conns f)) in
  on_hub r (register c u) (set_conns (<[c := newConn r u c]> (f_conns f)) f).

Definition next (cfg : hub_config) (l : label) (f : fabric) : option fabric :=
  match l with
  | Connect r u => if alive f r then Some (connect r u f) else None
  | Receive c data ts =>
      on_live_conn c f (fun k => if reading k && in_int64 ts then Some (on_conn c (with_todo (read_frame k c data ts)) f) else None)
  | Pong c => on_live_conn c f (fun k => if reading k then Some (on_conn c (with_todo [Heartbeat c]) f) else None)
  | Hangup c => on_live_conn c f (fun k => if reading k then Some (on_conn c (ending c) f) else None)
  | Pump c x => on_live_conn c f (fun k => pump cfg c x k f)
  | Write c => on_live_conn c f (write_frame c f)
  | StopWriting c => on_live_conn c f (fun k => if c_writing k then Some (on_conn c (with_writing false) f) else None)
  | Arrive s => on_live_sub s f (take_payload s f)
  | Lose s => match f_subs f !! s with Some z => lose_payload s f z | None => None end
  | StopReading s => on_live_sub s f (stop_reading s f)
  | Fan s x => on_live_sub s f (fun z => fan cfg s x z f)
  | Elapse dt => if 0 <=? dt then Some (set_now (f_now f + dt) f) else None
  | Shutdown r => Some (set_down ({[r]} ∪ f_down f) f)
  end.

(** A range over a map visits every key once, in any order. *)
Definition possible (l : label) : Prop :=
  match l with
  | Pump _ x | Fan _ x => forall l, a_order x l ≡ₚ l
  | _ => True
  end.

Definition hub_step (cfg : hub_config) (f f' : fabric) : Prop :=
  exists l, possible l /\ next cfg l f = Some f'.
Definition hub_reachable (cfg : hub_config) : fabric -> Prop := rtc (hub_step cfg) start.

Fixpoint runs (cfg : hub_config) (ls : list label) (f : fabric) : option fabric :=
  match ls with [] => Some f | l :: ls => f ← next cfg l f; runs cfg ls f end.

(** Bus.Online, for keys that have not expired; [ok] when Redis answers. *)
Definition present (f : fabric) (u : string) : bool :=
  match f_presence f !! presenceKey u with
  | Some (Some e) => f_now f <? e
  | Some None => true
  | None => false
  end.
Definition Online (cfg : hub_config) (ok : bool) (ids : list string) (f : fabric) : option (gmap string bool) :=
  if redis_enabled cfg then
    if ok then Some (foldl (fun m u => <[u := present f u]> m) ∅ ids) else None
  else Some (foldl (fun m u => <[u := false]> m) ∅ ids).
