(* ===== verification/WsInv.v ===== *)
(** * WebSocket gateway: invariants

    Frames survive the wire; the membership maps of every replica agree with
    what its connections have joined ([hub_inv]); goroutines act for their own
    connection ([discipline]); and what is queued anywhere is for members
    ([private]).  Every step of the transition system keeps all of it. *)
From stdpp Require Import gmap sets relations.
From S2P Require Export WsHub.
#[local] Open Scope Z_scope.
#[local] Set Warnings "-clear-no-such-hyp".

(** Opening the action of a step. *)
Ltac exec_goal := cbn [exec]; unfold closeOnce, unless_joined, authorize, fan_out, broadcast, deliverLocal, heartbeat, clearPresence.
Tactic Notation "exec_in" hyp(E) :=
  cbn [exec] in E; unfold closeOnce, unless_joined, authorize, fan_out, broadcast, deliverLocal, heartbeat, clearPresence in E.

Tactic Notation "next_in" hyp(E) :=
  cbn [next] in E; unfold connect, ending, write_frame, take_payload, lose_payload, stop_reading in E.

(** ** Frames survive the wire *)

#[local] Definition blank (s : string) : bool := String.eqb s "".

Lemma values_some_text tag tag' s :
  values_of tag (some_text tag' s) =
  if blank s then [] else if String.eqb (lower tag') (lower tag) then [JStr s] else [].
Proof. unfold some_text, values_of, blank. destruct (String.eqb s ""); [done|]. cbn. by destruct (String.eqb _ _). Qed.

Lemma values_some_flag tag tag' b :
  values_of tag (some_flag tag' b) = if b then if String.eqb (lower tag') (lower tag) then [JBool b] else [] else [].
Proof. unfold some_flag, values_of. destruct b; [|done]. cbn. by destruct (String.eqb _ _). Qed.

Lemma values_some_number tag tag' z :
  values_of tag (some_number tag' z) =
  if z =? 0 then [] else if String.eqb (lower tag') (lower tag) then [JInt z] else [].
Proof. unfold some_number, values_of. destruct (z =? 0); [done|]. cbn. by destruct (String.eqb _ _). Qed.

Lemma values_one tag tag' j :
  values_of tag [(tag', j)] = if String.eqb (lower tag') (lower tag) then [j] else [].
Proof. unfold values_of. cbn. by destruct (String.eqb _ _). Qed.

Lemma values_app tag a b : values_of tag (a ++ b) = values_of tag a ++ values_of tag b.
Proof. unfold values_of. by rewrite List.filter_app, List.map_app. Qed.

Lemma text_read s : into_all into_string "" (if blank s then [] else [JStr s]) = Some s.
Proof. unfold blank. by destruct (String.eqb_spec s "") as [->|]. Qed.

Lemma flag_read (b : bool) : into_all into_bool false (if b then [JBool b] else []) = Some b.
Proof. by destruct b. Qed.

Lemma number_read z : in_int64 z = true -> into_all into_int64 0 (if z =? 0 then [] else [JInt z]) = Some z.
Proof. destruct (Z.eqb_spec z 0) as [->|]; [done|]. intros E. cbn. by rewrite E. Qed.

Lemma if_none {A} (b : bool) : (if b then [] else []) = [] :> list A.
Proof. by destruct b. Qed.

Lemma decode_encode o : in_int64 (o_TS o) = true -> decode_Outbound (encode o) = Some o.
Proof.
  intros R. destruct o as [ty cv mi se bo us on co me re ts]. cbn [o_TS] in R.
  unfold decode_Outbound, encode, members. cbn [mbind option_bind o_Type o_ConversationID o_MessageID o_SenderID
    o_Body o_UserID o_Online o_Code o_Message o_Ref o_TS].
  change (("type", JStr ty) :: ?l) with ([("type", JStr ty)] ++ l).
  unfold str_field, int_field, bool_field, field.
  rewrite !values_app, !values_one, !values_some_text, !values_some_flag, !values_some_number.
  repeat match goal with |- context [String.eqb (lower ?a) (lower ?b)] =>
    let v := eval vm_compute in (String.eqb (lower a) (lower b)) in
    change (String.eqb (lower a) (lower b)) with v end.
  cbv iota. rewrite !if_none, ?app_nil_r. cbn [app into_all into_string].
  repeat (rewrite text_read; cbn [mbind option_bind]).
  rewrite flag_read. cbn [mbind option_bind]. by rewrite number_read.
Qed.

(** ** The shape of a state

    What the membership maps depend on: of a connection its replica, its user
    and what it has joined; of a subscription its replica, its channel and
    whether it is open. *)

Definition shape_of (k : Conn) : nat * string * gset string := (c_replica k, c_userID k, c_joined k).
Definition sub_shape (z : Subscription) : nat * string * bool := (s_replica z, s_conv z, s_open z).
Definition user_of (f : fabric) (c : nat) : option string := c_userID <$> f_conns f !! c.

Record same_shape (f f' : fabric) : Prop := {
  same_hubs : f_hubs f' = f_hubs f;
  same_conns : shape_of <$> f_conns f' = shape_of <$> f_conns f;
  same_subs : sub_shape <$> f_subs f' = sub_shape <$> f_subs f
}.

(** How many connections of a user a replica has. *)
Definition connections (f : fabric) (r : nat) (u : string) : nat :=
  size (filter (fun c => user_of f c = Some u) (conns (hub_of f r))).

(** The subscribers of a conversation on a replica. *)
Definition members_of (o : option convState) : gset nat := match o with Some cs => subscribers cs | None => ∅ end.
Definition members (f : fabric) (r : nat) (conv : string) : gset nat := members_of (convs (hub_of f r) !! conv).

Record hub_inv (cfg : hub_config) (f : fabric) : Prop := {
  inv_conns : forall r c, c ∈ conns (hub_of f r) -> exists k, f_conns f !! c = Some k /\ c_replica k = r;
  inv_joined : forall c k conv, f_conns f !! c = Some k ->
    conv ∈ c_joined k <-> c ∈ members f (c_replica k) conv;
  inv_known : forall r conv c, c ∈ members f r conv -> c ∈ conns (hub_of f r);
  inv_nonempty : forall r conv cs, convs (hub_of f r) !! conv = Some cs -> subscribers cs <> ∅;
  inv_sub : forall r conv cs, convs (hub_of f r) !! conv = Some cs ->
    match sub cs with
    | Some s => redis_enabled cfg = true /\ sub_shape <$> f_subs f !! s = Some (r, conv, true)
    | None => redis_enabled cfg = false
    end;
  inv_open : forall s r conv, sub_shape <$> f_subs f !! s = Some (r, conv, true) ->
    exists cs, convs (hub_of f r) !! conv = Some cs /\ sub cs = Some s;
  inv_counts : forall r u, userConns (hub_of f r) !! u =
    if (connections f r u =? 0)%nat then None else Some (Z.of_nat (connections f r u))
}.

Lemma hub_of_on_hub f r g r' : hub_of (on_hub r g f) r' = if decide (r = r') then g (hub_of f r) else hub_of f r'.
Proof.
  unfold hub_of at 1, on_hub, set_hubs. cbn [f_hubs]. case_decide as E; [subst|].
  - by rewrite lookup_insert_eq.
  - by rewrite lookup_insert_ne.
Qed.

Lemma same_shape_refl f : same_shape f f.
Proof. done. Qed.
Lemma same_shape_trans f g h : same_shape f g -> same_shape g h -> same_shape f h.
Proof. intros [A B C] [D E F]. split; congruence. Qed.

Lemma shape_conn f f' c : same_shape f f' -> shape_of <$> f_conns f' !! c = shape_of <$> f_conns f !! c.
Proof. intros S. by rewrite <- !lookup_fmap, (same_conns _ _ S). Qed.
Lemma shape_sub f f' s : same_shape f f' -> sub_shape <$> f_subs f' !! s = sub_shape <$> f_subs f !! s.
Proof. intros S. by rewrite <- !lookup_fmap, (same_subs _ _ S). Qed.
Lemma shape_hub f f' r : same_shape f f' -> hub_of f' r = hub_of f r.
Proof. intros S. unfold hub_of. by rewrite (same_hubs _ _ S). Qed.
Lemma shape_user f f' c : same_shape f f' -> user_of f' c = user_of f c.
Proof.
  intros S. pose proof (shape_conn _ _ c S) as E. unfold user_of.
  destruct (f_conns f' !! c), (f_conns f !! c); unfold shape_of in E; cbn in *; congruence.
Qed.
Lemma shape_back f f' c k' : same_shape f f' -> f_conns f' !! c = Some k' ->
  exists k, f_conns f !! c = Some k /\ c_replica k = c_replica k' /\ c_userID k = c_userID k' /\ c_joined k = c_joined k'.
Proof.
  intros S E. pose proof (shape_conn _ _ c S) as F. rewrite E in F.
  destruct (f_conns f !! c) as [k|]; [|done]. injection F as -> -> ->. by exists k.
Qed.

Lemma connections_ext f f' r r' u :
  conns (hub_of f' r') = conns (hub_of f r) ->
  (forall c, c ∈ conns (hub_of f r) -> user_of f' c = user_of f c) -> connections f' r' u = connections f r u.
Proof. intros E U. unfold connections. rewrite E. f_equal. apply set_eq. intros c. rewrite !elem_of_filter.
  split; intros [A B]; (split; [|done]); [by rewrite <- U|by rewrite U].
Qed.

Lemma hub_inv_shape cfg f f' : same_shape f f' -> hub_inv cfg f -> hub_inv cfg f'.
Proof.
  intros S I.
  assert (forall r, hub_of f' r = hub_of f r) as HH by (intros r; by apply shape_hub).
  split.
  - intros r c. rewrite HH. intros (k & Ek & Er)%(inv_conns _ _ I).
    pose proof (shape_conn _ _ c S) as F. rewrite Ek in F. destruct (f_conns f' !! c) as [k'|] eqn:Ek'; [|done].
    injection F as F _ _. exists k'. by rewrite F.
  - intros c k' conv Ek'. unfold members. rewrite HH.
    destruct (shape_back _ _ _ _ S Ek') as (k & Ek & <- & _ & <-). by apply (inv_joined _ _ I).
  - intros r conv c. unfold members. rewrite !HH. apply (inv_known _ _ I).
  - intros r conv cs. rewrite HH. apply (inv_nonempty _ _ I).
  - intros r conv cs. rewrite HH. intros E%(inv_sub _ _ I). destruct (sub cs) as [s|]; [|done]. by rewrite (shape_sub _ _ s S).
  - intros s r conv. rewrite (shape_sub _ _ s S), HH. apply (inv_open _ _ I).
  - intros r u. rewrite HH, (inv_counts _ _ I). rewrite (connections_ext f f' r r u); [done|by rewrite HH|].
    intros c _. by apply shape_user.
Qed.

(** ** Joining and leaving

    Both put a new state at one conversation of one replica, and add the
    conversation to what a connection has joined or take it away. *)

Section Put.
Context (cfg : hub_config) (f f' : fabric) (c : nat) (k : Conn) (conv : string) (new : option convState).
Let r := c_replica k.
Let old := convs (hub_of f r) !! conv.

Record put : Prop := {
  put_conn : f_conns f !! c = Some k;
  put_hubs : forall r', hub_of f' r' =
    if decide (r = r') then mkHub (conns (hub_of f r)) (partial_alter (fun _ => new) conv (convs (hub_of f r)))
                              (userConns (hub_of f r))
    else hub_of f r';
  put_conns : f_conns f' =
    alter (with_joined (if decide (c ∈ members_of new) then {[conv]} ∪ c_joined k else c_joined k ∖ {[conv]})) c (f_conns f);
  put_others : forall c', c' <> c -> c' ∈ members_of new <-> c' ∈ members_of old;
  put_known : c ∈ members_of new -> c ∈ conns (hub_of f r);
  put_nonempty : forall cs, new = Some cs -> subscribers cs <> ∅;
  put_sub : forall cs, new = Some cs ->
    match sub cs with
    | Some s => redis_enabled cfg = true /\ sub_shape <$> f_subs f' !! s = Some (r, conv, true)
    | None => redis_enabled cfg = false
    end;
  put_other_subs : forall s r' conv', (r', conv') <> (r, conv) ->
    sub_shape <$> f_subs f' !! s = Some (r', conv', true) <-> sub_shape <$> f_subs f !! s = Some (r', conv', true);
  put_open : forall s, sub_shape <$> f_subs f' !! s = Some (r, conv, true) ->
    exists cs, new = Some cs /\ sub cs = Some s
}.

Lemma put_lookup r' conv' : put -> convs (hub_of f' r') !! conv' =
  if decide ((r', conv') = (r, conv)) then new else convs (hub_of f r') !! conv'.
Proof.
  intros P. rewrite (put_hubs P). destruct (decide (r = r')) as [<-|Hr]; cbn [convs].
  - destruct (decide (conv' = conv)) as [->|Hc].
    + by rewrite lookup_partial_alter_eq, decide_True.
    + rewrite lookup_partial_alter_ne by done. rewrite decide_False; [done|]. by intros [= ->].
  - rewrite decide_False; [done|]. by intros [= ->].
Qed.

Lemma put_old_conns r' : put -> conns (hub_of f' r') = conns (hub_of f r').
Proof. intros P. rewrite (put_hubs P). by destruct (decide (r = r')) as [<-|]. Qed.

Lemma put_user c' : put -> user_of f' c' = user_of f c'.
Proof.
  intros P. unfold user_of. rewrite (put_conns P). destruct (decide (c' = c)) as [->|N].
  - rewrite lookup_alter_eq. by destruct (f_conns f !! c).
  - by rewrite lookup_alter_ne.
Qed.

Lemma hub_inv_put : put -> hub_inv cfg f -> hub_inv cfg f'.
Proof.
  intros P I. split.
  - intros r' c'. rewrite (put_old_conns _ P). intros (k' & Ek & Er)%(inv_conns _ _ I). rewrite (put_conns P).
    destruct (decide (c' = c)) as [->|N].
    + rewrite lookup_alter_eq, Ek. by eexists.
    + rewrite lookup_alter_ne by done. by exists k'.
  - intros c' k' conv'. rewrite (put_conns P). unfold members. rewrite (put_lookup _ _ P).
    destruct (decide (c' = c)) as [->|N].
    + rewrite lookup_alter_eq, (put_conn P). intros [= <-]. cbn [c_joined c_replica with_joined].
      pose proof (inv_joined _ _ I c k conv' (put_conn P)) as J. fold r in J |- *.
      destruct (decide (conv' = conv)) as [->|Hc].
      * destruct (decide ((r, conv) = (r, conv))) as [_|[]]; [|done]. case_decide; set_solver.
      * destruct (decide ((r, conv') = (r, conv))) as [[= ->]|_]; [done|]. rewrite <- J. case_decide; set_solver.
    + rewrite lookup_alter_ne by done. intros Ek. rewrite (inv_joined _ _ I c' k' conv' Ek).
      case_decide as E; [|done]. injection E as -> ->. symmetry. by apply (put_others P).
  - intros r' conv' c'. unfold members. rewrite (put_lookup _ _ P), (put_old_conns _ P).
    case_decide as E; [|apply (inv_known _ _ I)]. injection E as -> ->.
    destruct (decide (c' = c)) as [->|N]; [apply (put_known P)|].
    intros M%(put_others P); [|done]. by apply (inv_known _ _ I r conv).
  - intros r' conv' cs. rewrite (put_lookup _ _ P). case_decide; [apply (put_nonempty P)|apply (inv_nonempty _ _ I)].
  - intros r' conv' cs. rewrite (put_lookup _ _ P). case_decide as E.
    + injection E as -> ->. apply (put_sub P).
    + intros O%(inv_sub _ _ I). destruct (sub cs); [|done]. destruct O as [O1 O2]. split; [done|].
      by apply (put_other_subs P).
  - intros s r' conv' Es. rewrite (put_lookup _ _ P). case_decide as E.
    + injection E as -> ->. by apply (put_open P).
    + by apply (inv_open _ _ I), (put_other_subs P).
  - intros r' u. rewrite (put_hubs P).
    transitivity (userConns (hub_of f r') !! u); [by destruct (decide (r = r')) as [<-|]|].
    rewrite (inv_counts _ _ I), (connections_ext f f' r' r' u); [done|by apply put_old_conns|].
    intros; by apply put_user.
Qed.
End Put.

Lemma close_sub_conns s f : f_conns (close_sub s f) = f_conns f.
Proof. by destruct s. Qed.
Lemma close_sub_hub s f r : hub_of (close_sub s f) r = hub_of f r.
Proof. by destruct s. Qed.

(** Closing the subscription of a conversation closes no other. *)
Lemma close_sub_open cfg f r conv cs s r' conv' :
  hub_inv cfg f -> convs (hub_of f r) !! conv = Some cs ->
  sub_shape <$> f_subs (close_sub (sub cs) f) !! s = Some (r', conv', true) <->
  sub_shape <$> f_subs f !! s = Some (r', conv', true) /\ (r', conv') <> (r, conv).
Proof.
  intros I E. pose proof (inv_sub _ _ I r conv cs E) as O.
  assert (sub_shape <$> f_subs f !! s = Some (r', conv', true) -> (r', conv') = (r, conv) -> sub cs = Some s) as U.
  { intros Es [= -> ->]. destruct (inv_open _ _ I s r conv Es) as (cs' & E' & <-). congruence. }
  destruct (sub cs) as [s0|] eqn:Ecs; cbn [close_sub].
  - destruct O as [_ O]. unfold on_sub, set_subs; cbn [f_subs].
    destruct (decide (s = s0)) as [->|N].
    + rewrite lookup_alter_eq. destruct (f_subs f !! s0) as [z|]; [|naive_solver].
      cbn in O |- *. unfold sub_shape in *. cbn in *. split; [done|]. intros [[= <- <- _] D]. naive_solver.
    + rewrite lookup_alter_ne by done. split; [|naive_solver]. intros Es. split; [done|]. intros D. specialize (U Es D). congruence.
  - split; [|naive_solver]. intros Es. split; [done|]. intros D. by specialize (U Es D).
Qed.

Lemma leaveLocked_inv cfg c conv f : hub_inv cfg f -> hub_inv cfg (leaveLocked c conv f).
Proof.
  intros I. unfold leaveLocked. destruct (f_conns f !! c) as [k|] eqn:Ek; [|done].
  destruct (convs (hub_of f (c_replica k)) !! conv) as [cs|] eqn:E; [|done].
  set (g := on_conn c _ f).
  assert (same_subs_hubs : f_subs g = f_subs f /\ forall r, hub_of g r = hub_of f r) by done.
  destruct same_subs_hubs as [Gs Gh].
  case_decide as L.
  - apply (hub_inv_put _ f _ c k conv None); [|done]. split; try done.
    + intros r'. rewrite hub_of_on_hub, close_sub_hub, Gh. case_decide; by rewrite ?close_sub_hub.
    + cbn [members_of]. rewrite decide_False by set_solver. cbn [on_hub set_hubs f_conns]. by rewrite close_sub_conns.
    + intros c' N. rewrite E. cbn. set_solver.
    + intros s r' conv' D. cbn [on_hub set_hubs f_subs].
      assert (f_subs (close_sub (sub cs) g) = f_subs (close_sub (sub cs) f)) as -> by (by destruct (sub cs)).
      rewrite (close_sub_open _ _ _ _ _ _ _ _ I E). naive_solver.
    + intros s. cbn [on_hub set_hubs f_subs].
      assert (f_subs (close_sub (sub cs) g) = f_subs (close_sub (sub cs) f)) as -> by (by destruct (sub cs)).
      rewrite (close_sub_open _ _ _ _ _ _ _ _ I E). naive_solver.
  - apply (hub_inv_put _ f _ c k conv (Some (mkConvState (subscribers cs ∖ {[c]}) (sub cs)))); [|done]. split; try done.
    + intros r'. rewrite hub_of_on_hub, Gh. done.
    + cbn [members_of subscribers]. rewrite decide_False by set_solver. done.
    + intros c' N. rewrite E. cbn. set_solver.
    + cbn. set_solver.
    + by intros cs' [= <-].
    + intros cs' [= <-]. exact (inv_sub _ _ I _ _ _ E).
    + intros s Es. destruct (inv_open _ _ I s _ _ Es) as (cs' & E' & Es'). rewrite E in E'. injection E' as <-.
      by eexists.
Qed.

Lemma join_commit_inv cfg ok c conv f :
  (forall k, f_conns f !! c = Some k -> c ∈ conns (hub_of f (c_replica k))) ->
  hub_inv cfg f -> hub_inv cfg (fst (join_commit cfg ok c conv f)).
Proof.
  intros R I. unfold join_commit. destruct (f_conns f !! c) as [k|] eqn:Ek; [|done]. specialize (R k eq_refl).
  destruct (bool_decide (conv ∈ c_joined k)); [done|].
  destruct (convs (hub_of f (c_replica k)) !! conv) as [cs|] eqn:E.
  { apply (hub_inv_put _ f _ c k conv (Some (mkConvState ({[c]} ∪ subscribers cs) (sub cs)))); [|done]. split; try done.
    - intros r'. exact (hub_of_on_hub f _ _ r').
    - cbn [members_of subscribers]. rewrite decide_True by set_solver. done.
    - intros c' N. rewrite E. cbn. set_solver.
    - intros cs' [= <-]. cbn. set_solver.
    - intros cs' [= <-]. exact (inv_sub _ _ I _ _ _ E).
    - intros s Es. destruct (inv_open _ _ I s _ _ Es) as (cs' & E' & Es'). rewrite E in E'. injection E' as <-. by eexists. }
  assert (forall s, sub_shape <$> f_subs f !! s <> Some (c_replica k, conv, true)) as Closed.
  { intros s Es. destruct (inv_open _ _ I s _ _ Es) as (cs' & E' & _). congruence. }
  destruct (redis_enabled cfg) eqn:Eb; [destruct ok; [|done]|].
  - cbn [Subscribe fst]. set (s := base.fresh _).
    assert (f_subs f !! s = None) as New by (apply not_elem_of_dom, is_fresh).
    apply (hub_inv_put _ f _ c k conv (Some (mkConvState ({[c]} ∪ ∅) (Some s)))); [|done]. split; try done.
    + intros r'. exact (hub_of_on_hub f _ _ r').
    + cbn [members_of subscribers]. rewrite decide_True by set_solver. done.
    + intros c' N. rewrite E. cbn. set_solver.
    + intros cs' [= <-]. cbn. set_solver.
    + intros cs' [= <-]. cbn. by rewrite lookup_insert_eq.
    + intros s' r' conv' D. cbn. destruct (decide (s' = s)) as [->|N]; [|by rewrite lookup_insert_ne].
      rewrite lookup_insert_eq, New. cbn. split; [|done]. intros [= <- <-]. done.
    + intros s' Es. cbn in Es. destruct (decide (s' = s)) as [->|N]; [by eexists|].
      rewrite lookup_insert_ne in Es by done. by apply Closed in Es.
  - apply (hub_inv_put _ f _ c k conv (Some (mkConvState ({[c]} ∪ ∅) None))); [|done]. split; try done.
    + intros r'. exact (hub_of_on_hub f _ _ r').
    + cbn [members_of subscribers]. rewrite decide_True by set_solver. done.
    + intros c' N. rewrite E. cbn. set_solver.
    + intros cs' [= <-]. cbn. set_solver.
    + by intros cs' [= <-].
    + intros s Es. by apply Closed in Es.
Qed.

(** ** Registering and unregistering *)

Lemma hub_ghost cfg f c : hub_inv cfg f -> f_conns f !! c = None -> forall r, c ∉ conns (hub_of f r).
Proof. intros I E r (k & Ek & _)%(inv_conns _ _ I). congruence. Qed.

Definition registered (r c : nat) (u : string) (k : Conn) (f : fabric) : fabric :=
  on_hub r (register c u) (set_conns (<[c := k]> (f_conns f)) f).

Lemma size_filter_add (P : nat -> Prop) `{forall x, Decision (P x)} (c : nat) (X : gset nat) :
  c ∉ X -> size (filter P ({[c]} ∪ X)) = ((if decide (P c) then 1 else 0) + size (filter P X))%nat.
Proof.
  intros N. case_decide as D.
  - assert (filter P ({[c]} ∪ X) = {[c]} ∪ filter P X) as ->.
    { apply set_eq. intros x. rewrite elem_of_union, !elem_of_filter, elem_of_union, elem_of_singleton. naive_solver. }
    rewrite size_union by (apply elem_of_disjoint; intros x ->%elem_of_singleton [_ ?]%elem_of_filter; done).
    by rewrite size_singleton.
  - cbn [Nat.add]. f_equal. apply set_eq. intros x. rewrite !elem_of_filter, elem_of_union, elem_of_singleton. naive_solver.
Qed.

Lemma registered_counts cfg f r c u k r' u' :
  hub_inv cfg f -> f_conns f !! c = None -> c_userID k = u ->
  connections (registered r c u k f) r' u' =
  ((if decide (r = r' /\ u = u') then 1 else 0) + connections f r' u')%nat.
Proof.
  intros I New Eu. pose proof (hub_ghost _ _ _ I New r') as Hc. unfold registered.
  assert (forall c', c' ∈ conns (hub_of f r') ->
    user_of (on_hub r (register c u) (set_conns (<[c := k]> (f_conns f)) f)) c' = user_of f c') as U.
  { intros c' Hin. unfold user_of. cbn [on_hub set_hubs set_conns f_conns]. rewrite lookup_insert_ne; [done|]. by intros ->. }
  destruct (decide (r = r')) as [<-|N].
  - unfold connections. rewrite hub_of_on_hub, decide_True by done. cbn [register conns].
    change (hub_of (set_conns _ f) r) with (hub_of f r).
    rewrite size_filter_add by done. f_equal.
    + unfold user_of. cbn [on_hub set_hubs set_conns f_conns]. rewrite lookup_insert_eq. cbn. rewrite Eu.
      destruct (decide (u = u')) as [<-|Nu]; [by rewrite !decide_True|rewrite !decide_False; naive_solver].
    + f_equal. apply set_eq. intros c'. rewrite !elem_of_filter. split; intros [A B]; (split; [|done]);
        [by rewrite <- U|by rewrite U].
  - rewrite decide_False by naive_solver. apply connections_ext; [|done].
    by rewrite hub_of_on_hub, decide_False.
Qed.

Lemma register_inv cfg f r c u k :
  f_conns f !! c = None -> c_replica k = r -> c_userID k = u -> c_joined k = ∅ ->
  hub_inv cfg f -> hub_inv cfg (registered r c u k f).
Proof.
  intros New Er Eu Ej I. pose proof (hub_ghost _ _ _ I New) as Ghost.
  assert (forall r', convs (hub_of (registered r c u k f) r') = convs (hub_of f r')) as CV.
  { intros r'. unfold registered. rewrite hub_of_on_hub. by destruct (decide (r = r')) as [<-|]. }
  assert (forall r' c', c' ∈ conns (hub_of (registered r c u k f) r') <-> (r' = r /\ c' = c) \/ c' ∈ conns (hub_of f r')) as CN.
  { intros r' c'. unfold registered. rewrite hub_of_on_hub. destruct (decide (r = r')) as [<-|]; cbn [register conns].
    - change (hub_of (set_conns _ f) r) with (hub_of f r). set_solver.
    - change (hub_of (set_conns _ f) r') with (hub_of f r'). naive_solver. }
  split.
  - intros r' c' [[-> ->]|Hin]%CN; cbn.
    + rewrite lookup_insert_eq. by exists k.
    + rewrite lookup_insert_ne; [by apply (inv_conns _ _ I)|]. intros <-. by apply (Ghost r').
  - intros c' k' conv. cbn. unfold members. rewrite CV. destruct (decide (c' = c)) as [->|N].
    + rewrite lookup_insert_eq. intros [= <-]. rewrite Ej. split; [set_solver|].
      intros Hin. by apply (inv_known _ _ I), Ghost in Hin.
    + rewrite lookup_insert_ne by done. apply (inv_joined _ _ I).
  - intros r' conv c'. unfold members. rewrite CV, CN. intros Hin%(inv_known _ _ I). by right.
  - intros r' conv cs. rewrite CV. apply (inv_nonempty _ _ I).
  - intros r' conv cs. rewrite CV. apply (inv_sub _ _ I).
  - intros s r' conv. rewrite CV. apply (inv_open _ _ I).
  - intros r' u'. rewrite (registered_counts cfg) by done. unfold registered. rewrite hub_of_on_hub.
    change (hub_of (set_conns _ f) ?x) with (hub_of f x).
    destruct (decide (r = r')) as [<-|N]; [|rewrite decide_False by naive_solver; apply (inv_counts _ _ I)].
    cbn [register userConns]. rewrite (inv_counts _ _ I). destruct (decide (u = u')) as [<-|Nu].
    + rewrite lookup_insert_eq, decide_True by done. f_equal. cbn [Nat.eqb Nat.add].
      destruct (Nat.eqb_spec (connections f r u) 0) as [->|]; cbn; lia.
    + rewrite lookup_insert_ne by done. rewrite decide_False by naive_solver. apply (inv_counts _ _ I).
Qed.

(** Dropping a connection that has left every conversation. *)
Definition discharged (c : nat) (r : nat) (u : string) (f : fabric) : fabric :=
  on_hub r (fun h => mkHub (conns h ∖ {[c]}) (convs h) (fst (dropped u (userConns h)))) f.

Lemma discharged_counts f c r u r' u' :
  c ∈ conns (hub_of f r) -> user_of f c = Some u ->
  connections (discharged c r u f) r' u' =
  (connections f r' u' - (if decide (r = r' /\ u = u') then 1 else 0))%nat.
Proof.
  intros Hc Uc. unfold discharged. destruct (decide (r = r')) as [<-|N].
  - unfold connections. rewrite hub_of_on_hub, decide_True by done. cbn [conns].
    change (user_of (on_hub _ _ f)) with (user_of f).
    assert (filter (fun c => user_of f c = Some u') (conns (hub_of f r) ∖ {[c]}) =
            filter (fun c => user_of f c = Some u') (conns (hub_of f r)) ∖
            (if decide (u = u') then {[c]} else ∅)) as ->.
    { apply set_eq. intros c'. rewrite elem_of_difference, !elem_of_filter, elem_of_difference.
      destruct (decide (u = u')) as [<-|Nu]; [set_solver|].
      split; [set_solver|]. intros [[A B] _]. split; [done|]. split; [done|]. intros ->%elem_of_singleton. congruence. }
    destruct (decide (u = u')) as [<-|Nu].
    + rewrite decide_True by done. rewrite size_difference; [by rewrite size_singleton|].
      intros c' ->%elem_of_singleton. by apply elem_of_filter.
    + rewrite decide_False by naive_solver. rewrite (difference_empty_L (C := gset nat)). lia.
  - rewrite decide_False by naive_solver. rewrite Nat.sub_0_r. apply connections_ext; [|done].
    by rewrite hub_of_on_hub, decide_False.
Qed.

Lemma connections_pos f r c u : c ∈ conns (hub_of f r) -> user_of f c = Some u -> (0 < connections f r u)%nat.
Proof.
  intros Hc Uc. unfold connections. destruct (size _) eqn:E; [|lia].
  apply size_empty_inv in E. exfalso. apply (not_elem_of_empty (C := gset nat) c). rewrite <- (leibniz_equiv _ _ E).
  by apply elem_of_filter.
Qed.

Lemma discharged_inv cfg f c k :
  f_conns f !! c = Some k -> c_joined k = ∅ -> c ∈ conns (hub_of f (c_replica k)) ->
  hub_inv cfg f -> hub_inv cfg (discharged c (c_replica k) (c_userID k) f).
Proof.
  intros Ek Ej Hc I. set (r := c_replica k) in *. set (u := c_userID k).
  assert (user_of f c = Some u) as Uc by (unfold user_of; by rewrite Ek). clearbody u.
  assert (forall r', convs (hub_of (discharged c r u f) r') = convs (hub_of f r')) as CV.
  { intros r'. unfold discharged. rewrite hub_of_on_hub. by destruct (decide (r = r')) as [<-|]. }
  assert (forall r', conns (hub_of (discharged c r u f) r') = if decide (r = r') then conns (hub_of f r') ∖ {[c]} else conns (hub_of f r')) as CN.
  { intros r'. unfold discharged. rewrite hub_of_on_hub. by destruct (decide (r = r')) as [<-|]. }
  split.
  - intros r' c'. rewrite CN. intros Hin. apply (inv_conns _ _ I). destruct (decide (r = r')); set_solver.
  - intros c' k' conv. unfold members. rewrite CV. apply (inv_joined _ _ I).
  - intros r' conv c'. unfold members. rewrite CV, CN. intros M. pose proof (inv_known _ _ I _ _ _ M) as Hin.
    destruct (decide (r = r')) as [<-|]; [|done]. apply elem_of_difference. split; [done|].
    intros ->%elem_of_singleton. apply (inv_joined _ _ I c k conv Ek) in M. rewrite Ej in M. set_solver.
  - intros r' conv cs. rewrite CV. apply (inv_nonempty _ _ I).
  - intros r' conv cs. rewrite CV. apply (inv_sub _ _ I).
  - intros s r' conv. rewrite CV. apply (inv_open _ _ I).
  - intros r' u'. rewrite discharged_counts by done. unfold discharged. rewrite hub_of_on_hub.
    destruct (decide (r = r')) as [<-|N];
      [|rewrite decide_False by naive_solver; rewrite Nat.sub_0_r; apply (inv_counts _ _ I)].
    cbn [userConns]. pose proof (connections_pos _ _ _ _ Hc Uc) as Pos.
    unfold dropped. rewrite (inv_counts _ _ I). destruct (Nat.eqb_spec (connections f r u) 0) as [|_]; [lia|].
    cbn. destruct (decide (u = u')) as [<-|Nu].
    + rewrite decide_True by done. destruct (Z.leb_spec (Z.of_nat (connections f r u) - 1) 0); cbn [fst].
      * rewrite lookup_delete_eq. destruct (Nat.eqb_spec (connections f r u - 1) 0); [done|lia].
      * rewrite lookup_insert_eq. destruct (Nat.eqb_spec (connections f r u - 1) 0); [lia|]. f_equal. lia.
    + rewrite decide_False by naive_solver. rewrite Nat.sub_0_r.
      destruct (_ <=? 0); cbn [fst]; [rewrite lookup_delete_ne by done|rewrite lookup_insert_ne by done]; apply (inv_counts _ _ I).
Qed.

(** ** Unregistering leaves every conversation *)

Lemma on_hub_twice r g h f : on_hub r g (on_hub r h f) = on_hub r (fun x => g (h x)) f.
Proof.
  unfold on_hub, set_hubs. cbn. f_equal. rewrite insert_insert_eq. f_equal. f_equal.
  unfold hub_of. cbn. by rewrite lookup_insert_eq.
Qed.

Lemma on_hub_swap r r' g h f :
  (r = r' -> forall x, g (h x) = h (g x)) -> on_hub r g (on_hub r' h f) = on_hub r' h (on_hub r g f).
Proof.
  intros C. destruct (decide (r = r')) as [<-|N].
  - rewrite !on_hub_twice. unfold on_hub. f_equal. f_equal. by apply C.
  - unfold on_hub, set_hubs. cbn. f_equal. unfold hub_of. cbn.
    rewrite !lookup_insert_ne by done. by apply insert_insert_ne.
Qed.

Definition absent (r c : nat) (f : fabric) : fabric :=
  on_hub r (fun h => mkHub (conns h ∖ {[c]}) (convs h) (userConns h)) f.

Lemma absent_convs r c f r' : convs (hub_of (absent r c f) r') = convs (hub_of f r').
Proof. unfold absent. rewrite hub_of_on_hub. by destruct (decide (r = r')) as [<-|]. Qed.

Lemma leave_absent r c c' conv f : leaveLocked c' conv (absent r c f) = absent r c (leaveLocked c' conv f).
Proof.
  unfold leaveLocked. change (f_conns (absent r c f)) with (f_conns f).
  destruct (f_conns f !! c') as [k|]; [|done]. rewrite absent_convs.
  destruct (convs (hub_of f (c_replica k)) !! conv) as [cs|]; [|done].
  case_decide; unfold absent; [|by rewrite (on_hub_swap r) by done].
  rewrite (on_hub_swap r) by done. by destruct (sub cs).
Qed.

Lemma leaves_absent r c c' l f : foldr (leaveLocked c') (absent r c f) l = absent r c (foldr (leaveLocked c') f l).
Proof. induction l as [|v l IH]; [done|]. cbn. by rewrite IH, leave_absent. Qed.

Lemma leave_conns cfg c conv f k :
  hub_inv cfg f -> f_conns f !! c = Some k ->
  f_conns (leaveLocked c conv f) = <[c := with_joined (c_joined k ∖ {[conv]}) k]> (f_conns f).
Proof.
  intros I Ek. unfold leaveLocked. rewrite Ek.
  assert (forall g, alter g c (f_conns f) = <[c := g k]> (f_conns f)) as A.
  { intros g. apply map_eq. intros c'. destruct (decide (c' = c)) as [->|N].
    - by rewrite lookup_alter_eq, Ek, lookup_insert_eq.
    - by rewrite lookup_alter_ne, lookup_insert_ne. }
  destruct (convs (hub_of f (c_replica k)) !! conv) as [cs|] eqn:E.
  - case_decide; cbn [on_hub set_hubs f_conns]; rewrite ?close_sub_conns; cbn [on_conn set_conns f_conns]; apply A.
  - assert (conv ∉ c_joined k) as J.
    { rewrite (inv_joined _ _ I c k conv Ek). unfold members. rewrite E. apply not_elem_of_empty. }
    symmetry. apply insert_id. rewrite Ek. f_equal. destruct k. unfold with_joined. cbn. f_equal. set_solver.
Qed.

Lemma leave_hub_conns c conv f r : conns (hub_of (leaveLocked c conv f) r) = conns (hub_of f r).
Proof.
  unfold leaveLocked. destruct (f_conns f !! c) as [k|]; [|done].
  destruct (convs (hub_of f (c_replica k)) !! conv) as [cs|]; [|done].
  case_decide; rewrite hub_of_on_hub, ?close_sub_hub;
    change (hub_of (on_conn ?c ?g f) ?x) with (hub_of f x); by destruct (decide (c_replica k = r)) as [<-|].
Qed.

Lemma leaves_inv cfg c l f : hub_inv cfg f -> hub_inv cfg (foldr (leaveLocked c) f l).
Proof. intros I. induction l; [done|]. by apply leaveLocked_inv. Qed.

Lemma leaves_hub_conns c l f r : conns (hub_of (foldr (leaveLocked c) f l) r) = conns (hub_of f r).
Proof. induction l as [|v l IH]; [done|]. cbn. by rewrite leave_hub_conns. Qed.

Lemma leaves_conns cfg c l f k :
  hub_inv cfg f -> f_conns f !! c = Some k ->
  f_conns (foldr (leaveLocked c) f l) = <[c := with_joined (c_joined k ∖ list_to_set l) k]> (f_conns f).
Proof.
  intros I Ek. induction l as [|v l IH]; cbn [foldr list_to_set].
  - symmetry. apply insert_id. rewrite Ek. f_equal. destruct k. unfold with_joined. cbn. f_equal. set_solver.
  - erewrite (leave_conns cfg); [|by apply leaves_inv|rewrite IH; by rewrite lookup_insert_eq].
    rewrite IH, insert_insert_eq. f_equal. unfold with_joined. cbn. f_equal. set_solver.
Qed.

(** What unregister leaves behind, and its answer. *)
Lemma unregister_effect cfg c f k :
  hub_inv cfg f -> f_conns f !! c = Some k ->
  let g := foldr (leaveLocked c) f (elements (c_joined k)) in
  unregister c f = (discharged c (c_replica k) (c_userID k) g,
                    snd (dropped (c_userID k) (userConns (hub_of g (c_replica k))))) /\
  f_conns g = <[c := with_joined ∅ k]> (f_conns f) /\ hub_inv cfg g.
Proof.
  intros I Ek. cbv zeta. split; [|split].
  - unfold unregister. rewrite Ek. fold (absent (c_replica k) c f). rewrite leaves_absent.
    set (g := foldr _ f _). unfold absent. rewrite hub_of_on_hub, decide_True by done. cbn [userConns].
    unfold discharged. destruct (dropped _ _) as [m last] eqn:D. cbn [snd]. f_equal.
    rewrite on_hub_twice. cbn. unfold on_hub. f_equal. f_equal. by rewrite D.
  - rewrite (leaves_conns cfg c _ f k) by done. f_equal. f_equal. set_solver.
  - by apply leaves_inv.
Qed.

(** The answer: no other connection of the user is left on the replica. *)
Lemma dropped_last cfg f c k :
  hub_inv cfg f -> f_conns f !! c = Some k -> c ∈ conns (hub_of f (c_replica k)) ->
  snd (dropped (c_userID k) (userConns (hub_of f (c_replica k)))) =
  (connections f (c_replica k) (c_userID k) =? 1)%nat.
Proof.
  intros I Ek Hc. assert (0 < connections f (c_replica k) (c_userID k))%nat as Pos.
  { eapply connections_pos; [done|]. unfold user_of. by rewrite Ek. }
  unfold dropped. rewrite (inv_counts _ _ I). destruct (Nat.eqb_spec (connections f (c_replica k) (c_userID k)) 0); [lia|].
  cbn. destruct (Z.leb_spec (Z.of_nat (connections f (c_replica k) (c_userID k)) - 1) 0); cbn [snd];
    symmetry; [apply Nat.eqb_eq|apply Nat.eqb_neq]; lia.
Qed.

(** ** What the goroutines may do

    The goroutine of a connection acts for its own connection, unregisters it
    once and last; a reader only delivers. *)

Definition ordinary (c : nat) (a : act) : Prop :=
  match a with
  | TrySend _ _ | CloseOnce _ | Close _ | Broadcast _ _ _ | Gather _ _ _ _ => True
  | Heartbeat c' | GoWrite c' | JoinCheck c' _ | Authorize c' _ | JoinCommit c' _ | Leave c' _ | Persist c' _ _ => c' = c
  | Unregister _ | ClearPresence _ | Return _ => False
  end.

Definition delivery (a : act) : Prop :=
  match a with TrySend _ _ | CloseOnce _ | Close _ | Gather _ _ _ _ => True | _ => False end.

Definition pump_ok (reg : Prop) (c : nat) (k : Conn) : Prop :=
  match c_phase k with
  | Pumping => reg /\ Forall (ordinary c) (c_todo k)
  | Ending =>
      (reg /\ exists pre, c_todo k = pre ++ [Unregister c; Return c] /\ Forall delivery pre) \/
      (~ reg /\ (c_todo k = [ClearPresence c; Return c] \/ c_todo k = [Return c]))
  | Gone => ~ reg /\ c_todo k = []
  | Panicked => c_todo k = []
  end.

Definition enrolled (f : fabric) (c : nat) (k : Conn) : Prop := c ∈ conns (hub_of f (c_replica k)).

Record discipline (f : fabric) : Prop := {
  disc_pumps : forall c k, f_conns f !! c = Some k -> pump_ok (enrolled f c k) c k;
  disc_readers : forall s z, f_subs f !! s = Some z -> Forall delivery (s_todo z)
}.

Definition pump_key (k : Conn) := (c_replica k, c_userID k, c_todo k, c_phase k).

(** A change that no pump notices. *)
Record quiet (f f' : fabric) : Prop := {
  quiet_conns : pump_key <$> f_conns f' = pump_key <$> f_conns f;
  quiet_hubs : forall r, conns (hub_of f' r) = conns (hub_of f r);
  quiet_subs : forall s z', f_subs f' !! s = Some z' ->
    s_todo z' = [] \/ exists z, f_subs f !! s = Some z /\ s_todo z = s_todo z'
}.

Lemma quiet_refl f : quiet f f.
Proof. split; [done|done|]. intros s z E. right. by exists z. Qed.

Lemma fmap_alter_same {B} (p : Conn -> B) g c (m : gmap nat Conn) :
  (forall k, p (g k) = p k) -> p <$> alter g c m = p <$> m.
Proof.
  intros E. apply map_eq. intros c'. rewrite !lookup_fmap. destruct (decide (c' = c)) as [->|N].
  - rewrite lookup_alter_eq. destruct (m !! c); cbn; [by rewrite E|done].
  - by rewrite lookup_alter_ne.
Qed.

Lemma quiet_on_conn c g f : (forall k, pump_key (g k) = pump_key k) -> quiet f (on_conn c g f).
Proof. intros E. split; [by apply fmap_alter_same|done|]. intros s z Ez. right. by exists z. Qed.

Lemma shape_on_conn c g f : (forall k, shape_of (g k) = shape_of k) -> same_shape f (on_conn c g f).
Proof. intros E. split; [done|by apply fmap_alter_same|done]. Qed.

Lemma shape_on_sub s g f : (forall z, sub_shape (g z) = sub_shape z) -> same_shape f (on_sub s g f).
Proof.
  intros E. split; [done|done|]. apply map_eq. intros s'. rewrite !lookup_fmap. cbn. destruct (decide (s' = s)) as [->|N].
  - rewrite lookup_alter_eq. destruct (f_subs f !! s); cbn; [by rewrite E|done].
  - by rewrite lookup_alter_ne.
Qed.

Lemma quiet_back f f' c k' : quiet f f' -> f_conns f' !! c = Some k' ->
  exists k, f_conns f !! c = Some k /\ pump_key k = pump_key k'.
Proof.
  intros S E. assert (pump_key <$> f_conns f' !! c = pump_key <$> f_conns f !! c) as F.
  { by rewrite <- !lookup_fmap, (quiet_conns _ _ S). }
  rewrite E in F. destruct (f_conns f !! c) as [k|]; [|done]. exists k. split; [done|]. change (Some (pump_key k') = Some (pump_key k)) in F. congruence.
Qed.

Lemma pump_ok_key reg reg' c k k' :
  (reg <-> reg') -> pump_key k = pump_key k' -> pump_ok reg c k -> pump_ok reg' c k'.
Proof.
  intros R [= Er Eu Et Ep]. unfold pump_ok. rewrite Ep, Et. destruct (c_phase k'); naive_solver.
Qed.

Lemma quiet_discipline f f' : quiet f f' -> discipline f -> discipline f'.
Proof.
  intros S D. split.
  - intros c k' Ek'. destruct (quiet_back _ _ _ _ S Ek') as (k & Ek & Key).
    eapply pump_ok_key; [|done|by apply (disc_pumps _ D)].
    unfold enrolled. rewrite (quiet_hubs _ _ S). by injection Key as ->.
  - intros s z' Ez'. destruct (quiet_subs _ _ S s z' Ez') as [->|(z & Ez & <-)]; [constructor|]. by apply (disc_readers _ D s).
Qed.

Lemma publish_shape conv b f : same_shape f (publish conv b f).
Proof.
  split; [done|done|]. cbn. rewrite <- map_fmap_compose. apply map_fmap_ext. intros s z _. cbn.
  by destruct (s_open z && String.eqb (s_conv z) conv).
Qed.

Lemma publish_quiet conv b f : quiet f (publish conv b f).
Proof.
  split; [done|done|]. intros s z'. cbn. rewrite lookup_fmap. destruct (f_subs f !! s) as [z|]; [|done].
  intros [= <-]. right. exists z. split; [done|]. by destruct (s_open z && String.eqb (s_conv z) conv).
Qed.

Lemma quiet_leave cfg c conv f : hub_inv cfg f -> quiet f (leaveLocked c conv f).
Proof.
  intros I. split.
  - destruct (f_conns f !! c) as [k|] eqn:Ek; [|unfold leaveLocked; by rewrite Ek].
    rewrite (leave_conns cfg _ _ _ k) by done. rewrite fmap_insert. apply insert_id. by rewrite lookup_fmap, Ek.
  - intros r. apply leave_hub_conns.
  - intros s z'. unfold leaveLocked. destruct (f_conns f !! c) as [k|]; [|by right; exists z'].
    destruct (convs _ !! conv) as [cs|]; [|by right; exists z'].
    case_decide; [|by right; exists z']. cbn. destruct (sub cs) as [s0|]; cbn; [|by right; exists z'].
    destruct (decide (s = s0)) as [->|N]; [rewrite lookup_alter_eq|rewrite lookup_alter_ne by done; by right; exists z'].
    destruct (f_subs f !! s0) as [z|]; [|done]. intros [= <-]. right. by exists z.
Qed.

Lemma quiet_join cfg ok c conv f : quiet f (fst (join_commit cfg ok c conv f)).
Proof.
  unfold join_commit. destruct (f_conns f !! c) as [k|] eqn:Ek; [|apply quiet_refl].
  destruct (bool_decide _); [apply quiet_refl|].
  assert (forall g, conns (g (hub_of f (c_replica k))) = conns (hub_of f (c_replica k)) ->
    forall r, conns (hub_of (on_hub (c_replica k) g f) r) = conns (hub_of f r)) as HC.
  { intros g Eg r. rewrite hub_of_on_hub. by destruct (decide (c_replica k = r)) as [<-|]. }
  destruct (convs _ !! conv) as [cs|].
  { split; [by apply fmap_alter_same|by apply HC|]. intros s z E. right. by exists z. }
  destruct (redis_enabled cfg); [destruct ok; [|apply quiet_refl]|].
  - split; [by apply fmap_alter_same|by apply HC|]. cbn. intros s z'. set (s0 := base.fresh _).
    destruct (decide (s = s0)) as [->|N]; [rewrite lookup_insert_eq; intros [= <-]; by left|].
    rewrite lookup_insert_ne by done. right. by exists z'.
  - split; [by apply fmap_alter_same|by apply HC|]. intros s z E. right. by exists z.
Qed.

Lemma shaped_quiet cfg f f' : hub_inv cfg f -> same_shape f f' -> quiet f f' -> hub_inv cfg f' /\ quiet f f'.
Proof. intros I S Q. split; [by eapply hub_inv_shape|done]. Qed.

Lemma unchanged_quiet cfg f : hub_inv cfg f -> hub_inv cfg f /\ quiet f f.
Proof. intros I. by split; [|apply quiet_refl]. Qed.

Lemma same_maps_quiet cfg f f' :
  hub_inv cfg f -> f_conns f' = f_conns f -> f_hubs f' = f_hubs f -> f_subs f' = f_subs f ->
  hub_inv cfg f' /\ quiet f f'.
Proof.
  intros I Ec Eh Es. apply shaped_quiet; [done|split; congruence|]. split; [congruence| |].
  - intros r. unfold hub_of. by rewrite Eh.
  - intros s z. rewrite Es. right. by exists z.
Qed.

Lemma exec_sound cfg x a f f' more :
  exec cfg x a f = Some (f', more) -> hub_inv cfg f ->
  (forall c, a <> Unregister c) -> (forall c, a <> Return c) ->
  (forall c conv k, a = JoinCommit c conv -> f_conns f !! c = Some k -> enrolled f c k) ->
  hub_inv cfg f' /\ quiet f f'.
Proof.
  intros E I NU NR J. pose proof (unchanged_quiet cfg f I) as Same.
  destruct a as [c b|c|c|c|c|c conv|c conv|c conv|c conv|c i ts|r conv fr|r conv fr raw|c|c|c]; exec_in E;
    try (destruct (f_conns f !! c) as [k|] eqn:Ek).
  all: try (injection E as <- <-; done).
  - injection E as E. unfold trySend in E. rewrite Ek in E.
    destruct (_ && negb _); [|destruct (c_closed k); injection E as <- <-; done].
    injection E as <- <-. by apply shaped_quiet; [|apply shape_on_conn|apply quiet_on_conn].
  - injection E as E. unfold trySend in E. rewrite Ek in E. by injection E as <- <-.
  - destruct (c_closed k); [done|]. injection E as <- <-. by apply shaped_quiet; [|apply shape_on_conn|apply quiet_on_conn].
  - injection E as <- <-. destruct (redis_enabled cfg && a_ok x); [|done]. by apply same_maps_quiet.
  - injection E as <- <-. by apply shaped_quiet; [|apply shape_on_conn|apply quiet_on_conn].
  - injection E as <- <-. by apply shaped_quiet; [|apply shape_on_conn|apply quiet_on_conn].
  - injection E as E. destruct (CheckMembership (a_http x)) as [[]|]; injection E as <- <-; try done.
    by apply same_maps_quiet.
  - injection E as E. replace f' with (fst (join_commit cfg (a_ok x) c conv f)) by by rewrite E.
    split; [|apply quiet_join]. apply join_commit_inv; [|done]. intros k' E'. by eapply J.
  - injection E as E. replace f' with (fst (join_commit cfg (a_ok x) c conv f)) by by rewrite E.
    split; [|apply quiet_join]. apply join_commit_inv; [|done]. intros k' E'. by eapply J.
  - injection E as <- <-. split; [by apply leaveLocked_inv|by eapply quiet_leave].
  - injection E as <- <-. split; [by apply leaveLocked_inv|by eapply quiet_leave].
  - destruct (redis_enabled cfg); injection E as <- <-; [|done]. destruct (a_ok x); [|done].
    apply shaped_quiet; [done|apply publish_shape|apply publish_quiet].
  - by destruct (NU c).
  - by destruct (NU c).
  - injection E as <- <-. destruct (redis_enabled cfg && a_ok x); [|done]. by apply same_maps_quiet.
  - by destruct (NR c).
  - by destruct (NR c).
Qed.

Lemma trySend_more cfg d c b f : Forall delivery (snd (trySend cfg d c b f)).
Proof.
  unfold trySend. destruct (f_conns f !! c) as [k|]; [|done]. destruct (_ && negb _); [done|].
  destruct (c_closed k); by repeat constructor.
Qed.

Lemma delivery_ordinary c l : Forall delivery l -> Forall (ordinary c) l.
Proof. intros F. eapply Forall_impl; [done|]. by intros []. Qed.

Lemma exec_delivery cfg x a f f' more :
  exec cfg x a f = Some (f', more) -> delivery a -> Forall delivery more.
Proof.
  intros E D. destruct a; try done; exec_in E.
  - injection E as E. pose proof (trySend_more cfg (a_drop x) c b f) as T. by rewrite E in T.
  - destruct (f_conns f !! c) as [k|]; [|by injection E as _ <-]. injection E as _ <-. destruct (c_closed k); by repeat constructor.
  - destruct (f_conns f !! c) as [k|]; [destruct (c_closed k)|]; try done; by injection E as _ <-.
  - injection E as _ <-. destruct (convs _ !! conv); [|done]. apply Forall_forall. intros b (c0 & -> & _)%list_elem_of_fmap. done.
Qed.

Lemma exec_ordinary cfg x a c f f' more :
  exec cfg x a f = Some (f', more) -> ordinary c a -> Forall (ordinary c) more.
Proof.
  intros E O. destruct a as [c' b|c'|c'|c'|c'|c' conv|c' conv|c' conv|c' conv|c' i ts|r conv fr|r conv fr raw|c'|c'|c'];
    cbn [ordinary] in O; try done; try (by apply delivery_ordinary; eapply exec_delivery); exec_in E; subst.
  all: try (destruct (f_conns f !! c) as [k|] eqn:Ek; [|by injection E as _ <-]).
  - by injection E as _ <-.
  - by injection E as _ <-.
  - injection E as _ <-. destruct (bool_decide _); by repeat constructor.
  - destruct (CheckMembership _) as [[]|]; injection E as _ <-; by repeat constructor.
  - injection E as E. unfold join_commit in E. destruct (f_conns f !! c) as [k|]; [|by injection E as _ <-]. destruct (bool_decide _); [by injection E as _ <-|].
    destruct (convs _ !! conv); [injection E as _ <-; by repeat constructor|].
    destruct (redis_enabled cfg); [destruct (a_ok x)|]; injection E as _ <-; by repeat constructor.
  - by injection E as _ <-.
  - injection E as _ <-. by repeat constructor.
  - destruct (redis_enabled cfg); injection E as _ <-; by repeat constructor.
Qed.

(** ** The invariant *)

Record sound (cfg : hub_config) (f : fabric) : Prop := { sound_hubs : hub_inv cfg f; sound_pumps : discipline f }.

Lemma quiet_trans f g h : quiet f g -> quiet g h -> quiet f h.
Proof.
  intros [A B C] [D E F]. split; [congruence|intros r; by rewrite E|].
  intros s z Ez. destruct (F s z Ez) as [->|(z' & Ez' & <-)]; [by left|]. by apply C.
Qed.

Lemma quiet_leaves cfg c l f : hub_inv cfg f -> quiet f (foldr (leaveLocked c) f l).
Proof.
  intros I. induction l as [|v l IH]; [apply quiet_refl|]. cbn. eapply quiet_trans; [done|].
  eapply quiet_leave. by apply leaves_inv.
Qed.

Lemma discipline_conn f c g k :
  f_conns f !! c = Some k -> c_replica (g k) = c_replica k -> pump_ok (enrolled f c k) c (g k) ->
  discipline f -> discipline (on_conn c g f).
Proof.
  intros Ek Er P D. split; [|apply (disc_readers _ D)]. intros c' k'. cbn. destruct (decide (c' = c)) as [->|N].
  - rewrite lookup_alter_eq, Ek. intros [= <-]. unfold enrolled. rewrite Er. done.
  - rewrite lookup_alter_ne by done. apply (disc_pumps _ D).
Qed.

Lemma sound_conn cfg f c g k :
  f_conns f !! c = Some k -> (forall k, shape_of (g k) = shape_of k) -> pump_ok (enrolled f c k) c (g k) ->
  sound cfg f -> sound cfg (on_conn c g f).
Proof.
  intros Ek S P [I D]. split; [eapply hub_inv_shape; [by apply shape_on_conn|done]|].
  eapply discipline_conn; [done| |done|done]. specialize (S k). by injection S.
Qed.

(** After an action that the pumps do not notice, its goroutine goes on. *)
Lemma sound_continue cfg f g c k l :
  f_conns f !! c = Some k -> sound cfg f -> hub_inv cfg g /\ quiet f g ->
  pump_ok (enrolled f c k) c (with_todo l k) -> sound cfg (on_conn c (with_todo l) g).
Proof.
  intros Ek [I D] [I' Q] P.
  assert (exists k', f_conns g !! c = Some k' /\ pump_key k' = pump_key k) as (k' & Ek' & Key).
  { assert (pump_key <$> f_conns g !! c = pump_key <$> f_conns f !! c) as F by (by rewrite <- !lookup_fmap, (quiet_conns _ _ Q)).
    rewrite Ek in F. destruct (f_conns g !! c) as [k'|]; [|done]. exists k'. split; [done|].
    change (Some (pump_key k') = Some (pump_key k)) in F. congruence. }
  eapply sound_conn; [done|done| |split; [done|by eapply quiet_discipline]].
  injection Key as Er Eu Et Ep.
  eapply pump_ok_key; [| |exact P]; [unfold enrolled; by rewrite Er, (quiet_hubs _ _ Q)|].
  unfold pump_key. cbn. congruence.
Qed.

Lemma sound_unregister cfg f c k :
  f_conns f !! c = Some k -> enrolled f c k -> c_phase k = Ending -> c_todo k = [Unregister c; Return c] ->
  sound cfg f ->
  let '(g, last) := unregister c f in
  sound cfg (on_conn c (with_todo ((if last then [ClearPresence c] else []) ++ [Return c])) g).
Proof.
  intros Ek En Ep Et [I D]. destruct (unregister_effect _ _ _ _ I Ek) as (-> & Eg & Ig).
  set (g := foldr _ _ _) in *. set (last := snd _). clearbody last.
  assert (quiet f g) as Q by by eapply quiet_leaves.
  assert (f_conns g !! c = Some (with_joined ∅ k)) as Ek' by by rewrite Eg, lookup_insert_eq.
  assert (hub_inv cfg (discharged c (c_replica k) (c_userID k) g)) as I'.
  { apply (discharged_inv cfg g c (with_joined ∅ k)); try done. cbn. by rewrite (quiet_hubs _ _ Q). }
  assert (forall r, conns (hub_of (discharged c (c_replica k) (c_userID k) g) r) =
    if decide (c_replica k = r) then conns (hub_of f r) ∖ {[c]} else conns (hub_of f r)) as CN.
  { intros r. unfold discharged. rewrite hub_of_on_hub. rewrite <- (quiet_hubs _ _ Q). by destruct (decide (_ = r)) as [<-|]. }
  split; [eapply hub_inv_shape; [by apply shape_on_conn|done]|]. split; [|apply (disc_readers _ (quiet_discipline _ _ Q D))].
  intros c' k'. cbn. destruct (decide (c' = c)) as [->|N].
  - rewrite lookup_alter_eq, Ek'. intros [= <-]. unfold pump_ok, enrolled. cbn [with_todo with_joined c_phase c_replica c_todo].
    rewrite Ep. right. split; [|by destruct last; [left|right]].
    change (hub_of (on_conn ?c ?h ?x) ?r) with (hub_of x r). rewrite CN, decide_True by done. set_solver.
  - rewrite lookup_alter_ne, Eg, lookup_insert_ne by done. intros Ek2.
    eapply pump_ok_key; [|done|by apply (disc_pumps _ D)]. unfold enrolled.
    change (hub_of (on_conn ?c ?h ?x) ?r) with (hub_of x r). rewrite CN. destruct (decide _) as [<-|]; set_solver.
Qed.

Lemma sound_pump cfg f c k x f' :
  f_conns f !! c = Some k -> sound cfg f -> pump cfg c x k f = Some f' -> sound cfg f'.
Proof.
  intros Ek S E. unfold pump in E. destruct (c_todo k) as [|a rest] eqn:Et; [done|]. injection E as <-.
  pose proof (disc_pumps _ (sound_pumps _ _ S) c k Ek) as P. pose proof (sound_hubs _ _ S) as I.
  destruct (exec cfg x a f) as [[g more]|] eqn:Ex; [|eapply sound_conn; done].
  unfold pump_ok in P. rewrite Et in P. destruct (c_phase k) eqn:Ep.
  - destruct P as [R F]. apply Forall_cons in F. destruct F as [Fa Fr]. eapply sound_continue; [done|done| |].
    + apply (exec_sound _ _ _ _ _ _ Ex I); [by intros c' ->|by intros c' ->|].
      intros c' conv k' -> Ek'. cbn in Fa. subst c'. rewrite Ek in Ek'. by injection Ek' as <-.
    + unfold pump_ok. cbn. rewrite Ep. split; [done|]. apply Forall_app. split; [by eapply exec_ordinary|done].
  - destruct P as [[R (pre & Epre & Fpre)]|[NR [[= -> ->]|[= -> ->]]]].
    + destruct pre as [|a' pre]; injection Epre as -> ->.
      * exec_in Ex. pose proof (sound_unregister _ _ _ _ Ek R Ep Et S) as U.
        destruct (unregister c f) as [g' last]. injection Ex as <- <-. exact U.
      * apply Forall_cons in Fpre. destruct Fpre as [Fa Fr]. eapply sound_continue; [done|done| |].
        -- apply (exec_sound _ _ _ _ _ _ Ex I); [by intros c' ->|by intros c' ->|by intros c' conv k' ->].
        -- unfold pump_ok. cbn. rewrite Ep. left. split; [done|]. exists (more ++ pre). split; [by rewrite app_assoc|].
           apply Forall_app. split; [by eapply exec_delivery|done].
    + exec_in Ex. rewrite Ek in Ex. injection Ex as <- <-. eapply sound_continue; [done|done| |].
      * destruct (redis_enabled cfg && a_ok x); [by apply same_maps_quiet|by apply unchanged_quiet].
      * unfold pump_ok. cbn. rewrite Ep. right. split; [done|]. by right.
    + exec_in Ex. injection Ex as <- <-.
      assert (on_conn c (with_todo ([] ++ [])) (on_conn c (with_phase Gone) f) =
              on_conn c (fun k => with_todo [] (with_phase Gone k)) f) as ->.
      { unfold on_conn, set_conns. cbn. by rewrite alter_alter_eq. }
      eapply sound_conn; [done|done|by split|done].
  - by destruct P.
  - done.
Qed.

Lemma discipline_sub f s g :
  (forall z, f_subs f !! s = Some z -> Forall delivery (s_todo (g z))) -> discipline f -> discipline (on_sub s g f).
Proof.
  intros P D. split; [apply (disc_pumps _ D)|]. intros s' z'. cbn. destruct (decide (s' = s)) as [->|N].
  - rewrite lookup_alter_eq. destruct (f_subs f !! s) as [z|] eqn:E; [|done]. intros [= <-]. by apply P.
  - rewrite lookup_alter_ne by done. apply (disc_readers _ D).
Qed.

Lemma sound_sub cfg f s g :
  (forall z, sub_shape (g z) = sub_shape z) ->
  (forall z, f_subs f !! s = Some z -> Forall delivery (s_todo (g z))) -> sound cfg f -> sound cfg (on_sub s g f).
Proof.
  intros S P [I D]. split; [eapply hub_inv_shape; [by apply shape_on_sub|done]|by apply discipline_sub].
Qed.

Lemma sound_fan cfg f s z x f' :
  f_subs f !! s = Some z -> sound cfg f -> fan cfg s x z f = Some f' -> sound cfg f'.
Proof.
  intros Ez S E. unfold fan in E. destruct (s_todo z) as [|a rest] eqn:Et; [done|]. injection E as <-.
  pose proof (disc_readers _ (sound_pumps _ _ S) s z Ez) as P. rewrite Et in P. apply Forall_cons in P. destruct P as [Pa Pr].
  destruct (exec cfg x a f) as [[g more]|] eqn:Ex.
  - destruct S as [I D]. assert (hub_inv cfg g /\ quiet f g) as [I' Q].
    { apply (exec_sound _ _ _ _ _ _ Ex I); [by intros c' ->|by intros c' ->|by intros c' conv k' ->]. }
    apply sound_sub; [done| |split; [done|by eapply quiet_discipline]].
    intros z' _. cbn. apply Forall_app. split; [by eapply exec_delivery|done].
  - destruct S as [I D]. destruct (same_maps_quiet cfg f (set_crashed ({[s_replica z]} ∪ f_crashed f) f)) as [I' Q]; try done.
    split; [done|by eapply quiet_discipline].
Qed.

Lemma read_frame_ordinary k c data ts : Forall (ordinary c) (read_frame k c data ts).
Proof.
  unfold read_frame, dispatch, handleSend, handleEphemeral, join, bad_frame.
  repeat (case_match; try (by repeat constructor)).
Qed.

Lemma reading_pumping f c k : discipline f -> f_conns f !! c = Some k -> reading k = true ->
  c_phase k = Pumping /\ c_todo k = [] /\ enrolled f c k.
Proof.
  intros D Ek [Ep Et]%andb_true_iff. apply bool_decide_eq_true_1 in Ep. apply Nat.eqb_eq, length_zero_iff_nil in Et.
  pose proof (disc_pumps _ D c k Ek) as P. unfold pump_ok in P. rewrite Ep in P. by destruct P.
Qed.

Lemma on_live_conn_inv c f g f' :
  on_live_conn c f g = Some f' -> exists k, f_conns f !! c = Some k /\ g k = Some f' /\ alive f (c_replica k) = true.
Proof.
  unfold on_live_conn. destruct (f_conns f !! c) as [k|]; [|done]. destruct (alive f (c_replica k)) eqn:A; [|done].
  intros E. by exists k.
Qed.

Lemma on_live_sub_inv s f g f' :
  on_live_sub s f g = Some f' -> exists z, f_subs f !! s = Some z /\ g z = Some f' /\ s_reading z = true.
Proof.
  unfold on_live_sub. destruct (f_subs f !! s) as [z|]; [|done]. destruct (alive f (s_replica z) && s_reading z) eqn:A; [|done].
  intros E. apply andb_true_iff in A. exists z. naive_solver.
Qed.

(** A connection in ReadMessage that gets something to do. *)
Lemma sound_reading cfg f c k g :
  f_conns f !! c = Some k -> reading k = true -> (forall k, shape_of (g k) = shape_of k) ->
  (enrolled f c k -> c_phase k = Pumping -> pump_ok (enrolled f c k) c (g k)) ->
  sound cfg f -> sound cfg (on_conn c g f).
Proof.
  intros Ek R S P I. destruct (reading_pumping _ _ _ (sound_pumps _ _ I) Ek R) as (Ep & _ & En).
  eapply sound_conn; [done|done|by apply P|done].
Qed.

Lemma sound_connect cfg f r u :
  sound cfg f -> sound cfg (registered r (base.fresh (dom (f_conns f))) u
    (mkConn r u [] ∅ false [Heartbeat (base.fresh (dom (f_conns f))); GoWrite (base.fresh (dom (f_conns f)))] Pumping false []) f).
Proof.
  intros [I D]. set (c := base.fresh _). assert (f_conns f !! c = None) as New by (apply not_elem_of_dom, is_fresh).
  clearbody c. split; [by apply register_inv|]. split; [|apply (disc_readers _ D)].
  intros c' k'. cbn. destruct (decide (c' = c)) as [->|N].
  - rewrite lookup_insert_eq. intros [= <-]. split; [|by repeat constructor].
    unfold enrolled, registered. cbn [c_replica]. rewrite hub_of_on_hub, decide_True by done. cbn. set_solver.
  - rewrite lookup_insert_ne by done. intros Ek'. eapply pump_ok_key; [|done|by apply (disc_pumps _ D)].
    unfold enrolled, registered. rewrite hub_of_on_hub. change (hub_of (set_conns _ f) ?x) with (hub_of f x).
    destruct (decide (r = c_replica k')) as [<-|]; [|done]. cbn [register conns]. set_solver.
Qed.

Lemma next_sound cfg l f f' : next cfg l f = Some f' -> sound cfg f -> sound cfg f'.
Proof.
  intros E S. destruct l as [r u|c data ts|c|c|c x|c|c|s|s|s|s x|dt|r]; next_in E.
  - destruct (alive f r); [|done]. injection E as <-. by apply sound_connect.
  - apply on_live_conn_inv in E. destruct E as (k & Ek & E & _).
    destruct (reading k) eqn:R; [|done]. destruct (in_int64 ts); [|done]. injection E as <-.
    eapply sound_reading; [done|done|done| |done]. intros En Ep. unfold pump_ok. cbn. rewrite Ep.
    split; [done|apply read_frame_ordinary].
  - apply on_live_conn_inv in E. destruct E as (k & Ek & E & _).
    destruct (reading k) eqn:R; [|done]. injection E as <-.
    eapply sound_reading; [done|done|done| |done]. intros En Ep. unfold pump_ok. cbn. rewrite Ep. by repeat constructor.
  - apply on_live_conn_inv in E. destruct E as (k & Ek & E & _).
    destruct (reading k) eqn:R; [|done]. injection E as <-.
    eapply sound_reading; [done|done|done| |done]. intros En Ep. left. split; [done|].
    exists [CloseOnce c]. by repeat constructor.
  - apply on_live_conn_inv in E. destruct E as (k & Ek & E & _). by eapply sound_pump.
  - apply on_live_conn_inv in E. destruct E as (k & Ek & E & _).
    destruct (c_send k); [done|]. destruct (c_writing k); [|done]. injection E as <-.
    eapply sound_conn; [done|done|apply (disc_pumps _ (sound_pumps _ _ S) c k Ek)|done].
  - apply on_live_conn_inv in E. destruct E as (k & Ek & E & _).
    destruct (c_writing k); [|done]. injection E as <-.
    eapply sound_conn; [done|done|apply (disc_pumps _ (sound_pumps _ _ S) c k Ek)|done].
  - apply on_live_sub_inv in E. destruct E as (z & Ez & E & _).
    destruct (s_todo z); [|done]. destruct (s_queue z) as [|b q]; [done|]. injection E as <-.
    apply sound_sub; [done| |done]. intros z' _. cbn. unfold read_payload. destruct (decode_Outbound b); by repeat constructor.
  - destruct (f_subs f !! s) as [z|] eqn:Ez; [|done]. destruct (s_queue z); [done|]. injection E as <-.
    apply sound_sub; [done| |done]. intros z' Ez'. exact (disc_readers _ (sound_pumps _ _ S) s z' Ez').
  - apply on_live_sub_inv in E. destruct E as (z & Ez & E & _). destruct (_ && _); [|done]. injection E as <-.
    apply sound_sub; [done| |done]. intros z' Ez'. exact (disc_readers _ (sound_pumps _ _ S) s z' Ez').
  - apply on_live_sub_inv in E. destruct E as (z & Ez & E & _). by eapply sound_fan.
  - destruct (0 <=? dt); [|done]. injection E as <-. destruct S as [I D].
    destruct (same_maps_quiet cfg f (set_now (f_now f + dt) f)) as [I' Q]; try done. split; [done|by eapply quiet_discipline].
  - injection E as <-. destruct S as [I D].
    destruct (same_maps_quiet cfg f (set_down ({[r]} ∪ f_down f) f)) as [I' Q]; try done. split; [done|by eapply quiet_discipline].
Qed.

Lemma start_sound cfg : sound cfg start.
Proof. split; [split|split]; done. Qed.

Lemma hub_reachable_sound cfg f : hub_reachable cfg f -> sound cfg f.
Proof.
  refine (rtc_ind_r (sound cfg) start (start_sound cfg) _ f). intros g h _ [l [_ E]]. by eapply next_sound.
Qed.

(** ** Privacy *)

(** The conversation of a chat frame. *)
Definition chat_type (ty : string) : bool :=
  String.eqb ty TypeMessage || String.eqb ty TypeTyping || String.eqb ty TypeRead.
Definition chat_of (b : json) : option string :=
  match decode_Outbound b with
  | Some fr => if chat_type (o_Type fr) then Some (o_ConversationID fr) else None
  | None => None
  end.

Lemma chat_of_encode o v : in_int64 (o_TS o) = true -> chat_of (encode o) = Some v -> v = o_ConversationID o.
Proof. intros R. unfold chat_of. rewrite decode_encode by done. destruct (chat_type _); [by intros [= <-]|done]. Qed.

Lemma chat_of_error code msg : chat_of (errorFrame code msg) = None.
Proof. unfold chat_of, errorFrame. by rewrite decode_encode. Qed.
Lemma chat_of_ack conv ref : chat_of (ackFrame conv ref) = None.
Proof. unfold chat_of, ackFrame. by rewrite decode_encode. Qed.

(** Messaging has confirmed the user of the connection as a member. *)
Definition vouched (f : fabric) (c : nat) (conv : string) : Prop :=
  exists u, user_of f c = Some u /\ (conv, u) ∈ f_vouched f.
Definition may_see (f : fabric) (c : nat) (b : json) : Prop := forall conv, chat_of b = Some conv -> vouched f c conv.

Definition act_private (f : fabric) (a : act) : Prop :=
  match a with
  | TrySend c b => may_see f c b
  | JoinCommit c conv => vouched f c conv
  | Gather _ conv _ raw => forall v, chat_of raw = Some v -> v = conv
  | Broadcast _ conv fr => o_ConversationID fr = conv /\ in_int64 (o_TS fr) = true
  | Persist _ _ ts => in_int64 ts = true
  | _ => True
  end.

Record conn_private (f : fabric) (c : nat) (k : Conn) : Prop := {
  pc_joined : forall conv, conv ∈ c_joined k -> vouched f c conv;
  pc_acts : Forall (act_private f) (c_todo k);
  pc_seen : forall b, b ∈ c_send k ++ c_wire k -> may_see f c b
}.
Record sub_private (f : fabric) (z : Subscription) : Prop := {
  ps_acts : Forall (act_private f) (s_todo z);
  ps_queue : forall b v, b ∈ s_queue z -> chat_of b = Some v -> v = s_conv z
}.
Record private (f : fabric) : Prop := {
  private_conns : forall c k, f_conns f !! c = Some k -> conn_private f c k;
  private_subs : forall s z, f_subs f !! s = Some z -> sub_private f z
}.

(** Users stay who they are, and memberships confirmed once stay confirmed. *)
Definition grows (f f' : fabric) : Prop := forall c conv, vouched f c conv -> vouched f' c conv.

Lemma may_see_grows f f' c b : grows f f' -> may_see f c b -> may_see f' c b.
Proof. intros G M conv E. by apply G, M. Qed.
Lemma act_private_grows f f' a : grows f f' -> act_private f a -> act_private f' a.
Proof. intros G. destruct a; cbn; try done; [by apply may_see_grows|apply G]. Qed.
Lemma acts_private_grows f f' l : grows f f' -> Forall (act_private f) l -> Forall (act_private f') l.
Proof. intros G F. eapply Forall_impl; [done|]. intros a. by apply act_private_grows. Qed.
Lemma conn_private_grows f f' c k : grows f f' -> conn_private f c k -> conn_private f' c k.
Proof.
  intros G [A B C]. split; [intros conv Hc; by apply G, A|by eapply acts_private_grows|].
  intros b Hb. eapply may_see_grows; [done|by apply C].
Qed.
Lemma sub_private_grows f f' z : grows f f' -> sub_private f z -> sub_private f' z.
Proof. intros G [A B]. split; [by eapply acts_private_grows|done]. Qed.

Lemma grows_refl f : grows f f.
Proof. by intros c conv. Qed.

Lemma grows_same f f' :
  (forall c, user_of f' c = user_of f c) -> f_vouched f ⊆ f_vouched f' -> grows f f'.
Proof. intros U V c conv (u & Eu & Hin). exists u. rewrite U. split; [done|by apply V]. Qed.

Lemma user_on_conn c g f c' : (forall k, c_userID (g k) = c_userID k) -> user_of (on_conn c g f) c' = user_of f c'.
Proof.
  intros E. unfold user_of. cbn. destruct (decide (c' = c)) as [->|N]; [|by rewrite lookup_alter_ne].
  rewrite lookup_alter_eq. destruct (f_conns f !! c); cbn; [by rewrite E|done].
Qed.

Lemma grows_conn c g f : (forall k, c_userID (g k) = c_userID k) -> grows f (on_conn c g f).
Proof. intros E. apply grows_same; [|done]. intros c'. by apply user_on_conn. Qed.

Lemma private_conn c g f :
  (forall k, c_userID (g k) = c_userID k) ->
  (forall k, f_conns f !! c = Some k -> conn_private f c k -> conn_private f c (g k)) ->
  private f -> private (on_conn c g f) /\ grows f (on_conn c g f).
Proof.
  intros U P [A B]. pose proof (grows_conn c g f U) as G. split; [|done]. split.
  - intros c' k'. cbn. intros E. eapply conn_private_grows; [exact G|]. revert E.
    destruct (decide (c' = c)) as [->|N]; [|rewrite lookup_alter_ne by done; apply A].
    rewrite lookup_alter_eq. destruct (f_conns f !! c) as [k|] eqn:Ek; [|done]. intros [= <-]. by apply P; [|apply A].
  - intros s z E. eapply sub_private_grows; [exact G|]. by eapply B.
Qed.

(** Changes that leave connections alone. *)
Lemma private_aside f f' :
  f_conns f' = f_conns f -> f_vouched f ⊆ f_vouched f' ->
  (forall s z', f_subs f' !! s = Some z' -> sub_private f z') -> private f -> private f' /\ grows f f'.
Proof.
  intros Ec V S [A B]. assert (grows f f') as G.
  { apply grows_same; [|done]. intros c. unfold user_of. by rewrite Ec. }
  split; [|done]. split.
  - intros c k. rewrite Ec. intros E. eapply conn_private_grows; [done|by apply A].
  - intros s z E. eapply sub_private_grows; [done|by eapply S].
Qed.

Lemma private_trans f g h : private g /\ grows f g -> (private g -> private h /\ grows g h) -> private h /\ grows f h.
Proof. intros [P G] K. destruct (K P) as [P' G']. split; [done|]. intros c conv V. by apply G', G. Qed.

Lemma private_open f s x f' : f' = on_sub s (with_open x) f -> private f -> private f' /\ grows f f'.
Proof.
  intros -> P. apply private_aside; [done|done| |done]. intros s' z'. cbn. destruct (decide (s' = s)) as [->|N].
  - rewrite lookup_alter_eq. destruct (f_subs f !! s) as [z|] eqn:E; [|done]. intros [= <-].
    destruct (private_subs _ P s z E) as [A B]. by split.
  - rewrite lookup_alter_ne by done. apply (private_subs _ P).
Qed.

Lemma private_hub f r g : private f -> private (on_hub r g f) /\ grows f (on_hub r g f).
Proof. intros P. apply private_aside; [done|done| |done]. apply (private_subs _ P). Qed.

Lemma private_close f s : private f -> private (close_sub s f) /\ grows f (close_sub s f).
Proof. intros P. destruct s as [s|]; cbn; [by eapply private_open|]. split; [done|apply grows_refl]. Qed.

Lemma private_leave c conv f : private f -> private (leaveLocked c conv f) /\ grows f (leaveLocked c conv f).
Proof.
  intros P. unfold leaveLocked. destruct (f_conns f !! c) as [k|] eqn:Ek; [|by split; [|apply grows_refl]].
  destruct (convs _ !! conv) as [cs|]; [|by split; [|apply grows_refl]].
  assert (private (on_conn c (with_joined (c_joined k ∖ {[conv]})) f) /\
          grows f (on_conn c (with_joined (c_joined k ∖ {[conv]})) f)) as Q.
  { apply private_conn; [done| |done]. intros k'. rewrite Ek. intros [= <-] [A B C]. split; [|done|done].
    intros v Hv. apply A. set_solver. }
  case_decide; (eapply private_trans; [exact Q|]); [|apply private_hub].
  intros P'. eapply private_trans; [by apply private_close|apply private_hub].
Qed.

Lemma private_leaves c l f : private f -> private (foldr (leaveLocked c) f l) /\ grows f (foldr (leaveLocked c) f l).
Proof.
  intros P. induction l as [|v l IH]; [by split; [|apply grows_refl]|]. cbn. eapply private_trans; [exact IH|apply private_leave].
Qed.

Lemma private_enter c k conv h f :
  f_conns f !! c = Some k -> vouched f c conv -> private f ->
  let f' := on_conn c (with_joined ({[conv]} ∪ c_joined k)) (on_hub (c_replica k) h f) in private f' /\ grows f f'.
Proof.
  intros Ek V P. eapply private_trans; [by apply private_hub|]. intros P'. apply private_conn; [done| |done].
  intros k' Ek'. cbn in Ek'. rewrite Ek in Ek'. injection Ek' as <-. intros [A B C]. split; [|done|done].
  intros v [->%elem_of_singleton|Hv]%elem_of_union; [exact V|by apply A].
Qed.

Lemma private_join cfg ok c conv f :
  vouched f c conv -> private f ->
  private (fst (join_commit cfg ok c conv f)) /\ grows f (fst (join_commit cfg ok c conv f)).
Proof.
  intros V P. assert (private f /\ grows f f) as Same by by split; [|apply grows_refl].
  unfold join_commit. destruct (f_conns f !! c) as [k|] eqn:Ek; [|done].
  destruct (bool_decide _); [done|]. destruct (convs _ !! conv); [by apply private_enter|].
  destruct (redis_enabled cfg); [destruct ok; [|done]|by apply private_enter].
  cbn [Subscribe fst]. set (s := base.fresh _). eapply private_trans.
  - apply (private_aside f (set_subs (<[s := mkSubscription (c_replica k) conv c true [] [] true]> (f_subs f)) f)); try done.
    intros s' z'. cbn. destruct (decide (s' = s)) as [->|N]; [|rewrite lookup_insert_ne by done; apply (private_subs _ P)].
    rewrite lookup_insert_eq. intros [= <-]. by split; [constructor|]; intros b v; rewrite elem_of_nil.
  - intros P'. by apply private_enter.
Qed.

Lemma private_publish conv fr f :
  o_ConversationID fr = conv -> in_int64 (o_TS fr) = true -> private f ->
  private (publish conv (encode fr) f) /\ grows f (publish conv (encode fr) f).
Proof.
  intros Ec R P. apply private_aside; [done|done| |done]. intros s z'. cbn. rewrite lookup_fmap.
  destruct (f_subs f !! s) as [z|] eqn:E; [|done]. intros [= <-]. destruct (private_subs _ P s z E) as [A B].
  destruct (s_open z && String.eqb (s_conv z) conv) eqn:O; [|done]. split; [done|].
  intros b v [Hb| ->%list_elem_of_singleton]%elem_of_app; cbn; [by apply B|].
  intros Ev%chat_of_encode; [|done]. apply andb_true_iff in O. destruct O as [_ O%String.eqb_eq]. congruence.
Qed.

Lemma private_trySend cfg d c b f :
  may_see f c b -> private f ->
  private (fst (trySend cfg d c b f)) /\ grows f (fst (trySend cfg d c b f)).
Proof.
  intros M P. assert (private f /\ grows f f) as Same by by split; [|apply grows_refl].
  unfold trySend. destruct (f_conns f !! c) as [k|] eqn:Ek; [|done].
  destruct (_ && negb _); [|by destruct (c_closed k)]. cbn [fst]. apply private_conn; [done| |done].
  intros k'. rewrite Ek. intros [= <-] [A B C]. split; [done|done|]. cbn. intros b'.
  rewrite <- app_assoc. intros [Hb|[->%list_elem_of_singleton|Hb]%elem_of_app]%elem_of_app;
    [apply C, elem_of_app; by left|done|apply C, elem_of_app; by right].
Qed.

(** The subscribers of a conversation may see its frames. *)
Lemma members_vouched cfg f r conv c : hub_inv cfg f -> private f -> c ∈ members f r conv -> vouched f c conv.
Proof.
  intros I P M. destruct (inv_conns _ _ I r c) as (k & Ek & Er); [by eapply inv_known|].
  apply (pc_joined _ _ _ (private_conns _ P c k Ek)). rewrite (inv_joined _ _ I c k conv Ek). by rewrite Er.
Qed.

Lemma targets_members f r conv cs fr c :
  convs (hub_of f r) !! conv = Some cs -> c ∈ targets f fr cs -> c ∈ members f r conv.
Proof.
  intros E [Hc _]%list_elem_of_In%filter_In. apply list_elem_of_In, elem_of_elements in Hc. unfold members. by rewrite E.
Qed.

Lemma exec_private cfg x a f f' more :
  exec cfg x a f = Some (f', more) -> (forall l, a_order x l ≡ₚ l) -> act_private f a -> sound cfg f -> private f ->
  (private f' /\ grows f f') /\ Forall (act_private f') more.
Proof.
  intros E O A S P. assert (private f /\ grows f f) as Same by by split; [|apply grows_refl].
  assert (forall c msg code, act_private f (TrySend c (errorFrame code msg))) as Error.
  { intros c msg code. cbn. intros v. by rewrite chat_of_error. }
  destruct a as [c b|c|c|c|c|c conv|c conv|c conv|c conv|c i ts|r conv fr|r conv fr raw|c|c|c]; exec_in E.
  - injection E as E. pose proof (private_trySend cfg (a_drop x) c b f A P) as Q. unfold trySend in *.
    destruct (f_conns f !! c) as [k|]; [destruct (_ && negb _); [|destruct (c_closed k)]|]; injection E as <- <-;
      (split; [exact Q|by repeat constructor]).
  - destruct (f_conns f !! c) as [k|]; injection E as <- <-; (split; [done|]); [destruct (c_closed k)|]; by repeat constructor.
  - destruct (f_conns f !! c) as [k|]; [destruct (c_closed k); [done|]|]; injection E as <- <-; (split; [|done]); [|done].
    apply private_conn; [done| |done]. intros k' _ [B C D]. by split.
  - destruct (f_conns f !! c) as [k|]; injection E as <- <-; (split; [|done]); [|done].
    destruct (redis_enabled cfg && a_ok x); [|done]. apply private_aside; [done|done|apply (private_subs _ P)|done].
  - injection E as <- <-. split; [|done]. apply private_conn; [done| |done]. intros k' _ [B C D]. by split.
  - destruct (f_conns f !! c) as [k|]; injection E as <- <-; (split; [done|]); [destruct (bool_decide _)|]; by repeat constructor.
  - destruct (f_conns f !! c) as [k|] eqn:Ek; [|by injection E as <- <-].
    destruct (CheckMembership (a_http x)) as [[]|]; injection E as <- <-; [|by split; [|by repeat constructor]..].
    split; [apply private_aside; [done|cbn; set_solver|apply (private_subs _ P)|done]|].
    repeat constructor. exists (c_userID k). split; [unfold user_of; cbn; by rewrite Ek|cbn; set_solver].
  - injection E as E. pose proof (private_join cfg (a_ok x) c conv f A P) as Q. rewrite E in Q. split; [exact Q|].
    unfold join_commit in E. destruct (f_conns f !! c) as [k|]; [|by injection E as _ <-].
    assert (forall g, act_private g (TrySend c (ackFrame conv "join"))) as Ack.
    { intros g v. by rewrite chat_of_ack. }
    destruct (bool_decide _); [by injection E as _ <-|]. destruct (convs _ !! conv); [injection E as _ <-; by repeat constructor|].
    destruct (redis_enabled cfg); [destruct (a_ok x)|]; injection E as <- <-; by repeat constructor.
  - injection E as <- <-. split; [by apply private_leave|done].
  - destruct (f_conns f !! c) as [k|]; injection E as <- <-; (split; [done|]); by repeat constructor.
  - destruct A as [A1 A2]. destruct (redis_enabled cfg); injection E as <- <-.
    + split; [|done]. destruct (a_ok x); [by apply private_publish|done].
    + split; [done|]. repeat constructor. intros v Ev. rewrite <- A1. by apply chat_of_encode.
  - injection E as <- <-. split; [done|]. destruct (convs (hub_of f r) !! conv) as [cs|] eqn:Ecs; [|done].
    apply Forall_forall. intros a (c & -> & Hc)%list_elem_of_fmap. rewrite O in Hc. cbn. intros v Ev.
    rewrite (A v Ev). apply (members_vouched cfg f r); [apply S|done|]. by eapply targets_members.
  - destruct (f_conns f !! c) as [k|] eqn:Ek.
    + destruct (unregister_effect _ _ _ _ (sound_hubs _ _ S) Ek) as (U & _ & _). rewrite U in E. injection E as <- <-.
      split; [|by case_match; repeat constructor]. eapply private_trans; [by apply private_leaves|apply private_hub].
    + unfold unregister in E. rewrite Ek in E. by injection E as <- <-.
  - destruct (f_conns f !! c) as [k|]; injection E as <- <-; (split; [|done]); [|done].
    destruct (redis_enabled cfg && a_ok x); [|done]. apply private_aside; [done|done|apply (private_subs _ P)|done].
  - injection E as <- <-. split; [|done]. apply private_conn; [done| |done]. intros k' _ [B C D]. by split.
Qed.

Lemma private_todo c l f :
  Forall (act_private f) l -> private f -> private (on_conn c (with_todo l) f) /\ grows f (on_conn c (with_todo l) f).
Proof. intros F P. apply private_conn; [done| |done]. intros k _ [A B C]. by split. Qed.

Lemma private_sub s g f :
  (forall z, f_subs f !! s = Some z -> sub_private f z -> sub_private f (g z)) -> private f ->
  private (on_sub s g f) /\ grows f (on_sub s g f).
Proof.
  intros G P. apply private_aside; [done|done| |done]. intros s' z'. cbn. destruct (decide (s' = s)) as [->|N].
  - rewrite lookup_alter_eq. destruct (f_subs f !! s) as [z|] eqn:E; [|done]. intros [= <-].
    apply G; [done|by apply (private_subs _ P s)].
  - rewrite lookup_alter_ne by done. apply (private_subs _ P).
Qed.

Lemma read_frame_private f k c data ts : in_int64 ts = true -> Forall (act_private f) (read_frame k c data ts).
Proof.
  intros R. assert (forall c msg code, act_private f (TrySend c (errorFrame code msg))) as Error.
  { intros c' msg code v. by rewrite chat_of_error. }
  unfold read_frame, dispatch, handleSend, handleEphemeral, join, bad_frame.
  repeat (case_match; try (by repeat constructor)).
Qed.

Lemma private_pump cfg c x k f f' :
  (forall l, a_order x l ≡ₚ l) -> f_conns f !! c = Some k -> pump cfg c x k f = Some f' -> sound cfg f -> private f -> private f'.
Proof.
  intros O Ek E S P. unfold pump in E. destruct (c_todo k) as [|a rest] eqn:Et; [done|]. injection E as <-.
  pose proof (pc_acts _ _ _ (private_conns _ P c k Ek)) as A. rewrite Et in A. apply Forall_cons in A. destruct A as [Aa Ar].
  destruct (exec cfg x a f) as [[g more]|] eqn:Ex.
  - destruct (exec_private _ _ _ _ _ _ Ex O Aa S P) as [[P' G] M].
    apply private_todo; [|done]. apply Forall_app. split; [done|by eapply acts_private_grows].
  - apply private_conn; [done| |done]. intros k' _ [B C D]. by split.
Qed.

Lemma private_fan cfg s x z f f' :
  (forall l, a_order x l ≡ₚ l) -> f_subs f !! s = Some z -> fan cfg s x z f = Some f' -> sound cfg f -> private f -> private f'.
Proof.
  intros O Ez E S P. unfold fan in E. destruct (s_todo z) as [|a rest] eqn:Et; [done|]. injection E as <-.
  pose proof (ps_acts _ _ (private_subs _ P s z Ez)) as A. rewrite Et in A. apply Forall_cons in A. destruct A as [Aa Ar].
  destruct (exec cfg x a f) as [[g more]|] eqn:Ex.
  - destruct (exec_private _ _ _ _ _ _ Ex O Aa S P) as [[P' G] M].
    apply private_sub; [|done]. intros z' _ [B C]. split; [|done]. apply Forall_app. split; [done|by eapply acts_private_grows].
  - eapply proj1, (private_aside f); [done|done|apply (private_subs _ P)|done].
Qed.

Lemma next_private cfg l f f' : possible l -> next cfg l f = Some f' -> sound cfg f -> private f -> private f'.
Proof.
  intros O E S P. destruct l as [r u|c data ts|c|c|c x|c|c|s|s|s|s x|dt|r]; next_in E.
  - destruct (alive f r); [|done]. injection E as <-. set (c := base.fresh _).
    assert (f_conns f !! c = None) as New by (apply not_elem_of_dom, is_fresh). clearbody c.
    apply private_hub. set (k := newConn r u c).
    assert (grows f (set_conns (<[c := k]> (f_conns f)) f)) as G.
    { intros c' conv (u' & Eu & Hin). exists u'. split; [|done]. unfold user_of in *. cbn.
      destruct (decide (c' = c)) as [->|N]; [by rewrite New in Eu|by rewrite lookup_insert_ne]. }
    split.
    + intros c' k'. cbn. destruct (decide (c' = c)) as [->|N].
      * rewrite lookup_insert_eq. intros [= <-]. split; [|by repeat constructor|].
        -- intros conv Hc. by apply not_elem_of_empty in Hc.
        -- intros b Hb. by apply elem_of_nil in Hb.
      * rewrite lookup_insert_ne by done. intros E. by eapply conn_private_grows, (private_conns _ P).
    + intros s z E. by eapply sub_private_grows, (private_subs _ P).
  - apply on_live_conn_inv in E. destruct E as (k & Ek & E & _).
    destruct (reading k); [|done]. destruct (in_int64 ts) eqn:R; [|done]. injection E as <-.
    apply private_todo; [by apply read_frame_private|done].
  - apply on_live_conn_inv in E. destruct E as (k & Ek & E & _). destruct (reading k); [|done]. injection E as <-.
    by apply private_todo; [repeat constructor|].
  - apply on_live_conn_inv in E. destruct E as (k & Ek & E & _). destruct (reading k); [|done]. injection E as <-.
    apply private_conn; [done| |done]. intros k' _ [A B C]. split; [done|by repeat constructor|done].
  - apply on_live_conn_inv in E. destruct E as (k & Ek & E & _). by eapply private_pump.
  - apply on_live_conn_inv in E. destruct E as (k & Ek & E & _).
    destruct (c_send k) as [|b q] eqn:Eq; [done|]. destruct (c_writing k); [|done]. injection E as <-.
    apply private_conn; [done| |done]. intros k'. rewrite Ek. intros [= <-] [A B C]. split; [done|done|].
    intros b'. cbn. rewrite Eq in C. cbn in C. intros Hb. apply C. set_solver.
  - apply on_live_conn_inv in E. destruct E as (k & Ek & E & _). destruct (c_writing k); [|done]. injection E as <-.
    apply private_conn; [done| |done]. intros k' _ [A B C]. by split.
  - apply on_live_sub_inv in E. destruct E as (z & Ez & E & _).
    destruct (s_todo z); [|done]. destruct (s_queue z) as [|b q] eqn:Eq; [done|]. injection E as <-.
    apply private_sub; [|done]. intros z'. rewrite Ez. intros [= <-] [A B]. rewrite Eq in B. split.
    + cbn. unfold read_payload. destruct (decode_Outbound b); [|done]. repeat constructor. cbn. intros v. apply B. set_solver.
    + cbn. intros b' v Hb. apply B. set_solver.
  - destruct (f_subs f !! s) as [z|] eqn:Ez; [|done]. destruct (s_queue z) as [|b q] eqn:Eq; [done|]. injection E as <-.
    apply private_sub; [|done]. intros z'. rewrite Ez. intros [= <-] [A B]. split; [done|]. rewrite Eq in B.
    cbn. intros b' v Hb. apply B. set_solver.
  - apply on_live_sub_inv in E. destruct E as (z & Ez & E & _). destruct (_ && _); [|done]. injection E as <-.
    apply private_sub; [|done]. intros z' _ [A B]. by split.
  - apply on_live_sub_inv in E. destruct E as (z & Ez & E & _). by eapply private_fan.
  - destruct (0 <=? dt); [|done]. injection E as <-. eapply proj1, (private_aside f); [done|done|apply (private_subs _ P)|done].
  - injection E as <-. eapply proj1, (private_aside f); [done|done|apply (private_subs _ P)|done].
Qed.

Lemma hub_reachable_private cfg f : hub_reachable cfg f -> sound cfg f /\ private f.
Proof.
  refine (rtc_ind_r (fun f => sound cfg f /\ private f) start _ _ f).
  - split; [apply start_sound|]. by split.
  - intros g h _ [l [O E]] [S P]. split; [by eapply next_sound|by eapply next_private].
Qed.
