(* ===== verification/WsProofs.v ===== *)
(** * Properties of the WebSocket gateway

    Chat frames reach members only, whatever the interleaving; the membership
    maps and presence counts are right; send buffers stay bounded; what a reader
    takes from Redis goes to every subscriber that is not closed; and a
    conversation whose reader has stopped stays silent. *)
From stdpp Require Import gmap sets relations.
From S2P Require Export WsInv.
#[local] Open Scope Z_scope.
#[local] Set Warnings "-clear-no-such-hyp".

(** ** Chat frames reach members only *)

(** The messaging service tells the truth: what it confirms in this step holds. *)
Definition truthful (truth : string -> string -> Prop) (f : fabric) (l : label) : Prop :=
  match l with
  | Pump c x =>
      forall k conv rest, f_conns f !! c = Some k -> c_todo k = Authorize c conv :: rest ->
        CheckMembership (a_http x) = Some true -> truth conv (c_userID k)
  | _ => True
  end.

Definition truthful_step (truth : string -> string -> Prop) (cfg : hub_config) (f f' : fabric) : Prop :=
  exists l, possible l /\ truthful truth f l /\ next cfg l f = Some f'.

(** What an action adds to the confirmed members. *)
Lemma trySend_vouched cfg d c b f : f_vouched (fst (trySend cfg d c b f)) = f_vouched f.
Proof. unfold trySend. destruct (f_conns f !! c) as [k|]; [|done]. destruct (_ && _); [done|]. by destruct (c_closed k). Qed.

Lemma close_vouched s f : f_vouched (close_sub s f) = f_vouched f.
Proof. by destruct s. Qed.

Lemma leave_vouched c conv f : f_vouched (leaveLocked c conv f) = f_vouched f.
Proof.
  unfold leaveLocked. destruct (f_conns f !! c); [|done]. destruct (convs _ !! conv); [|done].
  case_decide; [|done]. cbn. by rewrite close_vouched.
Qed.

Lemma leaves_vouched c l f : f_vouched (foldr (leaveLocked c) f l) = f_vouched f.
Proof. induction l as [|v l IH]; [done|]. cbn. by rewrite leave_vouched. Qed.

Lemma join_vouched cfg ok c conv f : f_vouched (fst (join_commit cfg ok c conv f)) = f_vouched f.
Proof.
  unfold join_commit. destruct (f_conns f !! c); [|done]. destruct (bool_decide _); [done|].
  destruct (convs _ !! conv); [done|]. destruct (redis_enabled cfg); [|done]. by destruct ok.
Qed.

Lemma exec_vouched cfg x a f f' more : exec cfg x a f = Some (f', more) ->
  f_vouched f' = f_vouched f \/
  exists c conv k, a = Authorize c conv /\ f_conns f !! c = Some k /\ CheckMembership (a_http x) = Some true /\
    f_vouched f' = {[(conv, c_userID k)]} ∪ f_vouched f.
Proof.
  intros E. destruct a as [c b|c|c|c|c|c conv|c conv|c conv|c conv|c i ts|r conv fr|r conv fr raw|c|c|c]; exec_in E.
  - injection E as E. left. pose proof (trySend_vouched cfg (a_drop x) c b f) as T. by rewrite E in T.
  - destruct (f_conns f !! c); injection E as <- _; by left.
  - destruct (f_conns f !! c) as [k|]; [destruct (c_closed k)|]; try done; injection E as <- _; by left.
  - destruct (f_conns f !! c); injection E as <- _; [|by left]. destruct (redis_enabled cfg && a_ok x); by left.
  - injection E as <- _. by left.
  - destruct (f_conns f !! c); injection E as <- _; by left.
  - destruct (f_conns f !! c) as [k|] eqn:Ek; [|injection E as <- _; by left].
    destruct (CheckMembership (a_http x)) as [[]|]; injection E as <- _; [|by left..]. right. by exists c, conv, k.
  - injection E as E. left. pose proof (join_vouched cfg (a_ok x) c conv f) as T. by rewrite E in T.
  - injection E as <- _. left. apply leave_vouched.
  - destruct (f_conns f !! c); injection E as <- _; by left.
  - destruct (redis_enabled cfg); injection E as <- _; [|by left]. destruct (a_ok x); by left.
  - injection E as <- _. by left.
  - unfold unregister in E. destruct (f_conns f !! c) as [k|]; [|injection E as <- _; by left].
    destruct (dropped _ _). injection E as <- _. left. cbn. by rewrite leaves_vouched.
  - destruct (f_conns f !! c); injection E as <- _; [|by left]. destruct (redis_enabled cfg && a_ok x); by left.
  - injection E as <- _. by left.
Qed.

Definition all_true (truth : string -> string -> Prop) (f : fabric) : Prop :=
  forall conv u, (conv, u) ∈ f_vouched f -> truth conv u.

Lemma next_all_true truth cfg l f f' :
  truthful truth f l -> next cfg l f = Some f' -> sound cfg f -> all_true truth f -> all_true truth f'.
Proof.
  intros T E S A. destruct l as [r u|c data ts|c|c|c x|c|c|s|s|s|s x|dt|r]; next_in E.
  5: { apply on_live_conn_inv in E. destruct E as (k & Ek & E & _). unfold pump in E.
    destruct (c_todo k) as [|a rest] eqn:Et; [done|]. injection E as <-.
    destruct (exec cfg x a f) as [[g more]|] eqn:Ex; [|exact A]. unfold all_true. cbn.
    destruct (exec_vouched _ _ _ _ _ _ Ex) as [->|(c' & conv & k' & -> & Ek' & Ec & ->)]; [exact A|].
    intros conv' u [[= -> ->]%elem_of_singleton|Hin]%elem_of_union; [|by apply A].
    assert (c' = c) as ->.
    { pose proof (disc_pumps _ (sound_pumps _ _ S) c k Ek) as P. unfold pump_ok in P. rewrite Et in P.
      destruct (c_phase k); [|destruct P as [[_ (pre & Epre & Fpre)]|[_ [?|?]]]; try done|by destruct P|done].
      - destruct P as [_ P]. apply Forall_cons in P. by destruct P.
      - destruct pre as [|b pre]; [done|]. injection Epre as <- _. apply Forall_cons in Fpre. by destruct Fpre. }
    rewrite Ek in Ek'. injection Ek' as <-. by apply (T k conv rest). }
  10: { apply on_live_sub_inv in E. destruct E as (z & Ez & E & _). unfold fan in E.
    destruct (s_todo z) as [|a rest] eqn:Et; [done|]. injection E as <-.
    destruct (exec cfg x a f) as [[g more]|] eqn:Ex; [|exact A].
    destruct (exec_vouched _ _ _ _ _ _ Ex) as [Ev|(c' & conv & k' & -> & _)]; [unfold all_true; cbn; by rewrite Ev|].
    pose proof (disc_readers _ (sound_pumps _ _ S) s z Ez) as P. rewrite Et in P. apply Forall_cons in P. by destruct P. }
  all: try (apply on_live_conn_inv in E; destruct E as (k & Ek & E & _)).
  all: try (apply on_live_sub_inv in E; destruct E as (z & Ez & E & _)).
  all: repeat (case_match; try done).
  all: by injection E as <-.
Qed.

(** Whatever the interleaving of clients, replicas, Redis and shutdowns, a
    chat frame that waits in the buffer of a connection or went out on its
    socket belongs to a conversation the user is a member of, as the messaging
    service had confirmed. *)
Theorem chat_frames_reach_members_only truth cfg f c k b conv :
  rtc (truthful_step truth cfg) start f ->
  f_conns f !! c = Some k -> b ∈ c_send k ++ c_wire k -> chat_of b = Some conv ->
  truth conv (c_userID k).
Proof.
  intros R Ek Hb Hc.
  assert (sound cfg f /\ private f /\ all_true truth f) as (_ & P & A).
  { revert R. clear. refine (rtc_ind_r (fun f => sound cfg f /\ private f /\ all_true truth f) start _ _ f).
    - split; [apply start_sound|]. split; [by split|]. by intros conv u Hin%not_elem_of_empty.
    - intros g h _ (l & O & T & E) (S & P & A).
      split; [by eapply next_sound|]. split; [by eapply next_private|by eapply next_all_true]. }
  destruct (pc_seen _ _ _ (private_conns _ P c k Ek) b Hb conv Hc) as (u & Eu & Hin).
  unfold user_of in Eu. rewrite Ek in Eu. injection Eu as ->. by apply A.
Qed.

(** ** The membership maps *)

(** C22: In every reachable state, a connection has joined a conversation exactly
    when its replica lists it among the subscribers; while a replica has
    subscribers of a conversation it holds exactly one open Redis subscription
    for it, and none otherwise; and it counts the live connections of a user,
    with no entry for a user that has none. *)
Theorem membership_maps_agree cfg f r conv u :
  hub_reachable cfg f ->
  (forall c k, f_conns f !! c = Some k -> c_replica k = r -> conv ∈ c_joined k <-> c ∈ members f r conv) /\
  (redis_enabled cfg = true ->
   members f r conv <> ∅ <-> exists! s, sub_shape <$> f_subs f !! s = Some (r, conv, true)) /\
  userConns (hub_of f r) !! u = (if (connections f r u =? 0)%nat then None else Some (Z.of_nat (connections f r u))).
Proof.
  intros R%hub_reachable_sound. destruct R as [I _]. split; [|split; [|apply (inv_counts _ _ I)]].
  - intros c k Ek <-. by apply (inv_joined _ _ I).
  - intros Er. unfold members. split.
    + destruct (convs (hub_of f r) !! conv) as [cs|] eqn:E; [intros _|done].
      pose proof (inv_sub _ _ I _ _ _ E) as O. destruct (sub cs) as [s|] eqn:Es; [|congruence].
      exists s. split; [by destruct O|]. intros s' Es'. destruct (inv_open _ _ I _ _ _ Es') as (cs' & E' & E2). congruence.
    + intros (s & Es & _). destruct (inv_open _ _ I _ _ _ Es) as (cs & E & _). rewrite E. by apply (inv_nonempty _ _ I r conv).
Qed.

(** When a connection unregisters, the gateway goes on to clear the presence
    of its user exactly when the replica has no other live connection of the
    user; afterwards the connection is subscribed to nothing. *)
Theorem presence_outlives_other_connections cfg f c k x f' :
  hub_reachable cfg f -> f_conns f !! c = Some k -> c_todo k = [Unregister c; Return c] ->
  next cfg (Pump c x) f = Some f' ->
  (exists k', f_conns f' !! c = Some k' /\ c_joined k' = ∅ /\
     c_todo k' = if (connections f (c_replica k) (c_userID k) =? 1)%nat then [ClearPresence c; Return c] else [Return c]) /\
  (forall conv, c ∉ members f' (c_replica k) conv).
Proof.
  intros R%hub_reachable_sound Ek Et E. pose proof R as [I D].
  assert (hub_inv cfg f') as I' by apply (next_sound _ _ _ _ E R).
  assert (enrolled f c k) as En.
  { pose proof (disc_pumps _ D c k Ek) as P. unfold pump_ok in P. rewrite Et in P.
    destruct (c_phase k); [|destruct P as [[? _]|[_ [?|?]]]; done|by destruct P|done].
    destruct P as [_ P]. apply Forall_cons in P. by destruct P. }
  next_in E. apply on_live_conn_inv in E. destruct E as (k' & Ek' & E & _). rewrite Ek in Ek'. injection Ek' as <-.
  unfold pump in E. rewrite Et in E. exec_in E.
  destruct (unregister_effect _ _ _ _ I Ek) as (U & Eg & Ig). set (g := foldr _ _ _) in *.
  assert (snd (dropped (c_userID k) (userConns (hub_of g (c_replica k)))) =
          (connections f (c_replica k) (c_userID k) =? 1)%nat) as L.
  { assert (quiet f g) as Q by by eapply quiet_leaves.
    assert (f_conns g !! c = Some (with_joined ∅ k)) as Ec by by rewrite Eg, lookup_insert_eq.
    pose proof (dropped_last cfg g c _ Ig Ec) as L. cbn [with_joined c_userID c_replica] in L. rewrite L.
    - f_equal. apply connections_ext; [apply (quiet_hubs _ _ Q)|]. intros c' _. unfold user_of. rewrite Eg.
      destruct (decide (c' = c)) as [->|N]; [by rewrite lookup_insert_eq, Ek|by rewrite lookup_insert_ne].
    - by rewrite (quiet_hubs _ _ Q). }
  rewrite U in E. injection E as <-. rewrite L in *.
  assert (exists k', f_conns (on_conn c (with_todo ((if (connections f (c_replica k) (c_userID k) =? 1)%nat
      then [ClearPresence c] else []) ++ [Return c])) (discharged c (c_replica k) (c_userID k) g)) !! c = Some k' /\
      c_joined k' = ∅ /\ c_replica k' = c_replica k /\
      c_todo k' = if (connections f (c_replica k) (c_userID k) =? 1)%nat then [ClearPresence c; Return c] else [Return c])
    as (k' & Ek' & Ej & Er & Et').
  { eexists. split; [cbn; rewrite lookup_alter_eq, Eg, lookup_insert_eq; done|]. split; [done|]. split; [done|]. by case_match. }
  split; [by exists k'|].
  intros conv Hc. pose proof (inv_joined _ _ I' c k' conv Ek') as J. rewrite Er in J. apply J in Hc. rewrite Ej in Hc.
  by apply not_elem_of_empty in Hc.
Qed.

(** ** Buffers *)

(** A step of anyone leaves the other connections' buffers within the bound. *)
Definition bounded (cfg : hub_config) (f : fabric) : Prop :=
  forall c k, f_conns f !! c = Some k -> (length (c_send k) <= SendBuffer cfg)%nat.

Lemma bounded_conn cfg c g f :
  (forall k, f_conns f !! c = Some k -> (length (c_send k) <= SendBuffer cfg)%nat -> (length (c_send (g k)) <= SendBuffer cfg)%nat) ->
  bounded cfg f -> bounded cfg (on_conn c g f).
Proof.
  intros G B c' k'. cbn. destruct (decide (c' = c)) as [->|N]; [|rewrite lookup_alter_ne by done; apply B].
  rewrite lookup_alter_eq. destruct (f_conns f !! c) as [k|] eqn:E; [|done]. intros [= <-]. by apply G; [|eapply B].
Qed.

Lemma bounded_leave cfg c conv f : bounded cfg f -> bounded cfg (leaveLocked c conv f).
Proof.
  intros B. unfold leaveLocked. destruct (f_conns f !! c) as [k|]; [|done]. destruct (convs _ !! conv) as [cs|]; [|done].
  assert (bounded cfg (on_conn c (with_joined (c_joined k ∖ {[conv]})) f)) as B' by by apply bounded_conn.
  case_decide; [|exact B']. intros c' k'. cbn. rewrite close_sub_conns. apply B'.
Qed.

Lemma bounded_leaves cfg c l f : bounded cfg f -> bounded cfg (foldr (leaveLocked c) f l).
Proof. intros B. induction l; [done|]. by apply bounded_leave. Qed.

Lemma bounded_trySend cfg d c b f : bounded cfg f -> bounded cfg (fst (trySend cfg d c b f)).
Proof.
  intros B. unfold trySend. destruct (f_conns f !! c) as [k|] eqn:E; [|done].
  destruct (Nat.ltb_spec (length (c_send k)) (SendBuffer cfg)) as [L|]; [|by destruct (c_closed k)].
  destruct (negb _); [|by destruct (c_closed k)]. apply bounded_conn; [|done].
  intros k' _ _. cbn. rewrite length_app. cbn. lia.
Qed.

Lemma bounded_exec cfg x a f f' more : exec cfg x a f = Some (f', more) -> bounded cfg f -> bounded cfg f'.
Proof.
  intros E B. destruct a as [c b|c|c|c|c|c conv|c conv|c conv|c conv|c i ts|r conv fr|r conv fr raw|c|c|c]; exec_in E.
  - injection E as E. pose proof (bounded_trySend cfg (a_drop x) c b f B) as T. by rewrite E in T.
  - destruct (f_conns f !! c); by injection E as <- _.
  - destruct (f_conns f !! c) as [k|]; [destruct (c_closed k)|]; try done; injection E as <- _; [by apply bounded_conn|done].
  - destruct (f_conns f !! c); injection E as <- _; [|done]. by destruct (redis_enabled cfg && a_ok x).
  - injection E as <- _. by apply bounded_conn.
  - destruct (f_conns f !! c); by injection E as <- _.
  - destruct (f_conns f !! c) as [k|]; [|by injection E as <- _].
    by destruct (CheckMembership (a_http x)) as [[]|]; injection E as <- _.
  - injection E as E. replace f' with (fst (join_commit cfg (a_ok x) c conv f)) by by rewrite E. unfold join_commit.
    destruct (f_conns f !! c); [|done]. destruct (bool_decide _); [done|]. destruct (convs _ !! conv); [by apply bounded_conn|].
    destruct (redis_enabled cfg); [destruct (a_ok x); [|done]|]; by apply bounded_conn.
  - injection E as <- _. by apply bounded_leave.
  - destruct (f_conns f !! c); by injection E as <- _.
  - destruct (redis_enabled cfg); injection E as <- _; [|done]. by destruct (a_ok x).
  - by injection E as <- _.
  - unfold unregister in E. destruct (f_conns f !! c) as [k|]; [|by injection E as <- _].
    destruct (dropped _ _). injection E as <- _. 
    match goal with |- bounded _ (on_hub _ _ ?g) => change (bounded cfg g) end. by apply bounded_leaves.
  - destruct (f_conns f !! c); injection E as <- _; [|done]. by destruct (redis_enabled cfg && a_ok x).
  - injection E as <- _. by apply bounded_conn.
Qed.

(** No send buffer ever holds more frames than WS_SEND_BUFFER. *)
Theorem send_buffers_bounded cfg f c k :
  hub_reachable cfg f -> f_conns f !! c = Some k -> (length (c_send k) <= SendBuffer cfg)%nat.
Proof.
  intros R. revert c k. change (bounded cfg f). revert R. refine (rtc_ind_r (bounded cfg) start _ _ f); [done|].
  intros g h _ [l [_ E]] B. destruct l as [r u|c data ts|c|c|c x|c|c|s|s|s|s x|dt|r]; next_in E.
  5: { apply on_live_conn_inv in E. destruct E as (k & Ek & E & _). unfold pump in E.
    destruct (c_todo k) as [|a rest]; [done|]. injection E as <-.
    destruct (exec cfg x a g) as [[g' more]|] eqn:Ex; apply bounded_conn; try done. by eapply bounded_exec. }
  10: { apply on_live_sub_inv in E. destruct E as (z & Ez & E & _). unfold fan in E.
    destruct (s_todo z) as [|a rest]; [done|]. injection E as <-.
    destruct (exec cfg x a g) as [[g' more]|] eqn:Ex; [|done]. exact (bounded_exec _ _ _ _ _ _ Ex B). }
  all: try (apply on_live_conn_inv in E; destruct E as (k & Ek & E & _)).
  all: try (apply on_live_sub_inv in E; destruct E as (z & Ez & E & _)).
  all: repeat (case_match; try done); injection E as <-; try done; try by apply bounded_conn.
  - intros c k. cbn. destruct (decide (c = base.fresh (dom (f_conns g)))) as [->|N].
    + rewrite lookup_insert_eq. intros [= <-]. cbn. lia.
    + rewrite lookup_insert_ne by done. apply B.
  - apply bounded_conn; [|done]. intros k'. rewrite Ek. intros [= <-].
    match goal with Q : c_send _ = _ |- _ => rewrite Q end. cbn. lia.
Qed.

(** ** Delivery *)

Definition calm_answer : answer := mkAnswer None true false (fun l => l).

(** What a connection was given stays in its buffer or on its socket, and once
    it is closed it stays so. *)
Definition outlet_grows (k k' : Conn) : Prop :=
  (forall b, b ∈ c_send k ++ c_wire k -> b ∈ c_send k' ++ c_wire k') /\ (c_closed k = true -> c_closed k' = true).

(** A change beside the reader [s]: its work is untouched. *)
Record beside (s : nat) (f f' : fabric) : Prop := {
  beside_conns : forall c k, f_conns f !! c = Some k -> exists k', f_conns f' !! c = Some k' /\ outlet_grows k k';
  beside_work : forall z, f_subs f !! s = Some z -> exists z', f_subs f' !! s = Some z' /\
    s_replica z' = s_replica z /\ s_todo z' = s_todo z /\ s_reading z' = s_reading z
}.

Lemma outlet_refl k : outlet_grows k k.
Proof. by split. Qed.

Lemma beside_trans s f g h : beside s f g -> beside s g h -> beside s f h.
Proof.
  intros [A B] [C D]. split.
  - intros c k Ek. destruct (A c k Ek) as (k1 & E1 & O1 & Q1). destruct (C c k1 E1) as (k2 & E2 & O2 & Q2).
    exists k2. split; [done|]. split; auto.
  - intros z Ez. destruct (B z Ez) as (z1 & E1 & ? & ? & ?). destruct (D z1 E1) as (z2 & E2 & ? & ? & ?).
    exists z2. split; [done|]. repeat split; congruence.
Qed.

Lemma beside_maps s f f' : f_conns f' = f_conns f -> f_subs f' = f_subs f -> beside s f f'.
Proof.
  intros C S. split; [intros c k E; rewrite C|intros z E; rewrite S]; eexists; (split; [done|]); [apply outlet_refl|done].
Qed.

Lemma beside_on_conn s c g f : (forall k, outlet_grows k (g k)) -> beside s f (on_conn c g f).
Proof.
  intros G. split; [|intros z E; by exists z]. intros c' k E. cbn. destruct (decide (c' = c)) as [->|N].
  - rewrite lookup_alter_eq, E. eexists. split; [done|apply G].
  - rewrite lookup_alter_ne by done. exists k. split; [done|apply outlet_refl].
Qed.

Lemma beside_on_sub s s' g f :
  (s' = s -> forall z, s_replica (g z) = s_replica z /\ s_todo (g z) = s_todo z /\ s_reading (g z) = s_reading z) ->
  beside s f (on_sub s' g f).
Proof.
  intros G. split; [intros c k E; exists k; split; [done|apply outlet_refl]|]. intros z E. cbn.
  destruct (decide (s = s')) as [->|N]; [|rewrite lookup_alter_ne by done; by exists z].
  rewrite lookup_alter_eq, E. eexists. split; [done|by apply G].
Qed.

Lemma beside_on_hub s r h f g : beside s f g -> beside s f (on_hub r h g).
Proof. intros B. eapply beside_trans; [exact B|by apply beside_maps]. Qed.

Lemma beside_leave s c conv f : beside s f (leaveLocked c conv f).
Proof.
  unfold leaveLocked. destruct (f_conns f !! c) as [k|]; [|by apply beside_maps].
  destruct (convs _ !! conv) as [cs|]; [|by apply beside_maps].
  assert (beside s f (on_conn c (with_joined (c_joined k ∖ {[conv]})) f)) as B by by apply beside_on_conn.
  case_decide; apply beside_on_hub; [|exact B]. eapply beside_trans; [exact B|].
  destruct (sub cs) as [s'|]; [|by apply beside_maps].
  exact (beside_on_sub s s' (with_open false) _ (fun _ z => conj eq_refl (conj eq_refl eq_refl))).
Qed.

Lemma beside_leaves s c l f : beside s f (foldr (leaveLocked c) f l).
Proof. induction l as [|v l IH]; [by apply beside_maps|]. cbn. eapply beside_trans; [done|apply beside_leave]. Qed.

Lemma beside_join s cfg ok c conv f : beside s f (fst (join_commit cfg ok c conv f)).
Proof.
  unfold join_commit. destruct (f_conns f !! c) as [k|]; [|by apply beside_maps].
  destruct (bool_decide _); [by apply beside_maps|].
  assert (forall x r h g, beside s f g -> beside s f (on_conn c (with_joined x) (on_hub r h g))) as Enter.
  { intros x r h g B. eapply beside_trans; [by apply beside_on_hub|by apply beside_on_conn]. }
  pose proof (beside_maps s f f eq_refl eq_refl) as Refl.
  destruct (convs _ !! conv) as [cs|]; [by apply Enter|].
  destruct (redis_enabled cfg); [destruct ok; [|done]|by apply Enter].
  cbn [Subscribe fst]. set (s0 := base.fresh _). set (z0 := mkSubscription _ _ _ _ _ _ _).
  apply Enter.
  split; [intros c' k' E; exists k'; split; [done|apply outlet_refl]|]. intros z Ez. exists z. split; [|done].
  cbn. rewrite lookup_insert_ne; [done|]. intros <-.
  assert (f_subs f !! s0 = None) by (apply not_elem_of_dom, is_fresh). congruence.
Qed.

Lemma beside_publish s conv b f : beside s f (publish conv b f).
Proof.
  split; [intros c k E; exists k; split; [done|apply outlet_refl]|]. intros z Ez. cbn. rewrite lookup_fmap, Ez.
  eexists. split; [done|]. by destruct (s_open z && _).
Qed.

Lemma exec_beside s cfg x a f f' more : exec cfg x a f = Some (f', more) -> beside s f f'.
Proof.
  intros E. assert (forall g, f_conns g = f_conns f -> f_subs g = f_subs f -> beside s f g) as Same by by intros; apply beside_maps.
  destruct a as [c b|c|c|c|c|c conv|c conv|c conv|c conv|c i ts|r conv fr|r conv fr raw|c|c|c]; exec_in E.
  - injection E as E. unfold trySend in E. destruct (f_conns f !! c) as [k|] eqn:Ek; [|injection E as <- _; by apply Same].
    destruct (_ && _); [|destruct (c_closed k)]; injection E as <- _; [|by apply Same..].
    split; [|intros z Ez; by exists z]. intros c' k' Ek'. cbn. destruct (decide (c' = c)) as [->|N].
    2: { rewrite lookup_alter_ne by done. exists k'. split; [done|apply outlet_refl]. }
    rewrite Ek in Ek'. injection Ek' as <-. rewrite lookup_alter_eq, Ek. eexists. split; [done|]. split; [|done]. cbn. set_solver.
  - destruct (f_conns f !! c); injection E as <- _; by apply Same.
  - destruct (f_conns f !! c) as [k|]; [destruct (c_closed k)|]; try done; injection E as <- _; [|by apply Same].
    by apply beside_on_conn.
  - destruct (f_conns f !! c); injection E as <- _; [|by apply Same]. destruct (redis_enabled cfg && a_ok x); by apply Same.
  - injection E as <- _. by apply beside_on_conn.
  - destruct (f_conns f !! c); injection E as <- _; by apply Same.
  - destruct (f_conns f !! c) as [k|]; [destruct (CheckMembership (a_http x)) as [[]|]|]; injection E as <- _; by apply Same.
  - injection E as E. pose proof (beside_join s cfg (a_ok x) c conv f) as K. by rewrite E in K.
  - injection E as <- _. apply beside_leave.
  - destruct (f_conns f !! c); injection E as <- _; by apply Same.
  - destruct (redis_enabled cfg); [destruct (a_ok x)|]; injection E as <- _; [|by apply Same..]. apply beside_publish.
  - injection E as <- _. by apply Same.
  - unfold unregister in E. destruct (f_conns f !! c) as [k|]; [|injection E as <- _; by apply Same].
    destruct (dropped _ _) as [m last]. injection E as <- _.
    apply beside_on_hub. eapply beside_trans; [|apply beside_leaves]. by apply beside_maps.
  - destruct (f_conns f !! c); injection E as <- _; [|by apply Same]. destruct (redis_enabled cfg && a_ok x); by apply Same.
  - injection E as <- _. by apply beside_on_conn.
Qed.

(** The steps of the reader itself. *)
Definition of_reader (s : nat) (l : label) : Prop :=
  match l with Arrive s' | StopReading s' | Fan s' _ => s' = s | _ => False end.

#[export] Instance of_reader_dec s l : Decision (of_reader s l).
Proof. destruct l; cbn; apply _. Defined.

Lemma next_beside s cfg l f f' : next cfg l f = Some f' -> ~ of_reader s l -> beside s f f'.
Proof.
  intros E N. destruct l as [r u|c data ts|c|c|c x|c|c|s'|s'|s'|s' x|dt|r]; cbn [of_reader] in N; next_in E.
  all: try (apply on_live_conn_inv in E; destruct E as (k & Ek & E & _)).
  all: try (apply on_live_sub_inv in E; destruct E as (z & Ez & E & _)).
  - destruct (alive f r); [|done]. injection E as <-. split; [|intros z Ez; by exists z]. intros c k Ek. exists k. split; [|apply outlet_refl].
    cbn. rewrite lookup_insert_ne; [done|]. intros <-.
    assert (f_conns f !! base.fresh (dom (f_conns f)) = None) by (apply not_elem_of_dom, is_fresh). congruence.
  - destruct (_ && _); [|done]. injection E as <-. by apply beside_on_conn.
  - destruct (reading k); [|done]. injection E as <-. by apply beside_on_conn.
  - destruct (reading k); [|done]. injection E as <-. by apply beside_on_conn.
  - unfold pump in E. destruct (c_todo k) as [|a rest]; [done|]. injection E as <-.
    destruct (exec cfg x a f) as [[g more]|] eqn:Ex; [|by apply beside_on_conn].
    eapply beside_trans; [by eapply exec_beside|by apply beside_on_conn].
  - destruct (c_send k) as [|b q] eqn:Es; [done|]. destruct (c_writing k); [|done]. injection E as <-.
    split; [|intros z Ez; by exists z]. intros c' k' Ek'. cbn. destruct (decide (c' = c)) as [->|N'].
    2: { rewrite lookup_alter_ne by done. exists k'. split; [done|apply outlet_refl]. }
    rewrite lookup_alter_eq, Ek'. eexists. split; [done|]. split; [|done]. rewrite Ek in Ek'. injection Ek' as <-.
    rewrite Es. cbn. set_solver.
  - destruct (c_writing k); [|done]. injection E as <-. by apply beside_on_conn.
  - destruct (s_todo z); [|done]. destruct (s_queue z) as [|b q]; [done|]. injection E as <-. by apply beside_on_sub.
  - destruct (f_subs f !! s') as [z|]; [|done]. destruct (s_queue z); [done|]. injection E as <-. by apply beside_on_sub.
  - destruct (_ && _); [|done]. injection E as <-. by apply beside_on_sub.
  - unfold fan in E. destruct (s_todo z) as [|a rest]; [done|]. injection E as <-.
    destruct (exec cfg x a f) as [[g more]|] eqn:Ex; [|by apply beside_maps].
    eapply beside_trans; [by eapply exec_beside|by apply beside_on_sub].
  - destruct (0 <=? dt); [|done]. injection E as <-. by apply beside_maps.
  - injection E as <-. by apply beside_maps.
Qed.

Lemma runs_app cfg l1 l2 f g : runs cfg l1 f = Some g -> runs cfg (l1 ++ l2) f = runs cfg l2 g.
Proof.
  revert f. induction l1 as [|l l1 IH]; intros f; cbn; [by intros [= ->]|].
  destruct (next cfg l f); [apply IH|done].
Qed.

(** The reader still has to see to [c] for the frame [b]: to try its buffer, or to
    close it because that was full. *)
Definition in_hand (b : json) (c : nat) (todo : list act) : Prop :=
  TrySend c b ∈ todo \/ CloseOnce c ∈ todo \/ Close c ∈ todo.

(** The frame was put into the buffer of [c] or went on to its socket; or [c] is
    closed, because it went away or because its buffer was full. *)
Definition reached (b : json) (c : nat) (f : fabric) : Prop :=
  exists k, f_conns f !! c = Some k /\ (b ∈ c_send k ++ c_wire k \/ c_closed k = true).

(** The reader [s] sees to everyone in [T]. *)
Record serves (s : nat) (b : json) (T : list nat) (f : fabric) : Prop := {
  serves_reader : exists z, f_subs f !! s = Some z /\ (s_todo z <> [] -> s_reading z = true) /\
    forall c, c ∈ T -> in_hand b c (s_todo z) \/ reached b c f;
  serves_conns : forall c, c ∈ T -> exists k, f_conns f !! c = Some k
}.

Lemma reached_beside s b c f f' : beside s f f' -> reached b c f -> reached b c f'.
Proof.
  intros B (k & Ek & H). destruct (beside_conns _ _ _ B c k Ek) as (k' & Ek' & O1 & O2). exists k'. split; [done|].
  destruct H; auto.
Qed.

Lemma serves_beside s b T f f' : beside s f f' -> serves s b T f -> serves s b T f'.
Proof.
  intros B [(z & Ez & Hr & Ht) C]. destruct (beside_work _ _ _ B z Ez) as (z' & Ez' & _ & Et & Er). split.
  - exists z'. split; [done|]. split; [by rewrite Et, Er|]. intros c Hc. rewrite Et.
    destruct (Ht c Hc); [by left|right; by eapply reached_beside].
  - intros c Hc. destruct (C c Hc) as (k & Ek). destruct (beside_conns _ _ _ B c k Ek) as (k' & Ek' & _). by exists k'.
Qed.

Lemma idle_in_hand b c : ~ in_hand b c [].
Proof. by intros [H|[H|H]]; apply not_elem_of_nil in H. Qed.

(** What one action of a reader does for those it still has to see to. *)
Lemma exec_in_hand cfg x a f g more b c rest k :
  exec cfg x a f = Some (g, more) -> f_conns f !! c = Some k -> in_hand b c (a :: rest) ->
  in_hand b c (more ++ rest) \/ reached b c g.
Proof.
  intros E Ek H.
  assert (in_hand b c rest \/ a = TrySend c b \/ a = CloseOnce c \/ a = Close c) as [Hr|Ha].
  { unfold in_hand in *. rewrite !elem_of_cons in H. naive_solver. }
  { left. unfold in_hand in *. rewrite !elem_of_app. naive_solver. }
  destruct Ha as [->|[->| ->]]; exec_in E; rewrite ?Ek in E.
  - injection E as E. unfold trySend in E. rewrite Ek in E. destruct (_ && _) eqn:Room.
    + injection E as <- <-. right. eexists. split; [cbn; by rewrite lookup_alter_eq, Ek|]. left. cbn. set_solver.
    + destruct (c_closed k) eqn:Ec; injection E as <- <-; [right; exists k; auto|]. left. right; left. left.
  - injection E as <- <-. destruct (c_closed k) eqn:Ec; [right; exists k; auto|]. left. right; right. left.
  - destruct (c_closed k); [done|]. injection E as <- <-. right. eexists. split; [cbn; by rewrite lookup_alter_eq, Ek|]. by right.
Qed.

Lemma serves_fan cfg s b T x f f' z :
  f_subs f !! s = Some z -> s_reading z = true -> fan cfg s x z f = Some f' -> serves s b T f -> serves s b T f'.
Proof.
  intros Ez Er E S. pose proof S as [(z' & Ez' & _ & Ht) C]. rewrite Ez in Ez'. injection Ez' as <-.
  unfold fan in E. destruct (s_todo z) as [|a rest] eqn:Et; [done|]. injection E as <-.
  destruct (exec cfg x a f) as [[g more]|] eqn:Ex; [|apply (serves_beside s b T f); [by apply beside_maps|exact S]].
  pose proof (exec_beside s _ _ _ _ _ _ Ex) as B. destruct (beside_work _ _ _ B z Ez) as (z1 & E1 & _ & _ & R1). split.
  - exists (with_work (more ++ rest) z1). split; [cbn; by rewrite lookup_alter_eq, E1|]. split; [intros _; cbn; congruence|].
    intros c Hc. cbn. destruct (Ht c Hc) as [H|H]; [|right; by apply (reached_beside _ _ _ _ _ B)].
    destruct (C c Hc) as (k & Ek). exact (exec_in_hand cfg x a f g more b c rest k Ex Ek H).
  - intros c Hc. destruct (C c Hc) as (k & Ek). destruct (beside_conns _ _ _ B c k Ek) as (k' & Ek' & _). by exists k'.
Qed.

(** The reader between two payloads. *)
Lemma serves_idle s b T f z g :
  f_subs f !! s = Some z -> s_todo z = [] -> (s_todo (g z) <> [] -> s_reading (g z) = true) ->
  serves s b T f -> serves s b T (on_sub s g f).
Proof.
  intros Ez Et G [(z' & Ez' & _ & Ht) C]. rewrite Ez in Ez'. injection Ez' as <-. split; [|exact C].
  exists (g z). split; [cbn; by rewrite lookup_alter_eq, Ez|]. split; [exact G|]. intros c Hc.
  destruct (Ht c Hc) as [H|H]; [rewrite Et in H; by destruct (idle_in_hand b c)|by right].
Qed.

Lemma serves_next cfg l s b T f f' : next cfg l f = Some f' -> serves s b T f -> serves s b T f'.
Proof.
  intros E S. destruct (decide (of_reader s l)) as [O|N].
  2: by eapply serves_beside; [eapply next_beside|].
  destruct l as [| | | | | | |s'|s'|s'|s' x| |]; cbn in O; try done; subst s'; next_in E;
    apply on_live_sub_inv in E; destruct E as (z & Ez & E & Er).
  - destruct (s_todo z) eqn:Et; [|done]. destruct (s_queue z) as [|b' q]; [done|]. injection E as <-.
    by apply (serves_idle s b T f z).
  - destruct (s_todo z) eqn:Et; [|done]. destruct (_ && _); [|done]. injection E as <-.
    apply (serves_idle s b T f z); [done|done| |done]. by cbn; rewrite Et.
  - by eapply serves_fan.
Qed.

(** ** The reader by itself *)

(** What a reader has ahead: payloads to look up the subscribers of, and for each
    connection at most three actions. *)
Definition gathers (l : list act) : nat := length (List.filter (fun a => match a with Gather _ _ _ _ => true | _ => false end) l).
Definition actions (l : list act) : nat :=
  sum_list_with (fun a => match a with TrySend _ _ => 3%nat | CloseOnce _ => 2%nat | _ => 1%nat end) l.

Lemma exec_shrinks cfg x a f g more rest :
  delivery a -> exec cfg x a f = Some (g, more) ->
  f_crashed g = f_crashed f /\
  ((gathers (more ++ rest) < gathers (a :: rest))%nat \/
   (gathers (more ++ rest) = gathers (a :: rest) /\ (actions (more ++ rest) < actions (a :: rest))%nat)).
Proof.
  intros D E. destruct a; try done; exec_in E.
  - injection E as E. unfold trySend in E. destruct (f_conns f !! c) as [k|]; [|injection E as <- <-; cbn; auto with lia].
    destruct (_ && _); [|destruct (c_closed k)]; injection E as <- <-; cbn; (split; [done|right; split; [done|lia]]).
  - destruct (f_conns f !! c) as [k|]; [destruct (c_closed k)|]; injection E as <- <-; cbn; (split; [done|right; split; [done|lia]]).
  - destruct (f_conns f !! c) as [k|]; [destruct (c_closed k); [done|]|]; injection E as <- <-; cbn; (split; [done|right; split; [done|lia]]).
  - injection E as <- <-. split; [done|left].
    assert (forall l, gathers (map (fun c => TrySend c raw) l ++ rest) = gathers rest) as G by by induction l.
    destruct (convs _ !! conv); [rewrite G|]; cbn; unfold gathers; cbn; lia.
Qed.

Lemma reader_finishes cfg s f z (ys : nat -> answer) :
  f_subs f !! s = Some z -> s_reading z = true -> alive f (s_replica z) = true -> Forall delivery (s_todo z) ->
  exists n h z', runs cfg (map (fun i => Fan s (ys i)) (seq 0 n)) f = Some h /\
    f_subs h !! s = Some z' /\ (s_todo z' = [] \/ alive h (s_replica z') = false).
Proof.
  remember (gathers (s_todo z)) as G eqn:HG. revert f z ys HG. induction (lt_wf G) as [G _ IHG]. intros f z.
  remember (actions (s_todo z)) as n eqn:Hn. revert f z Hn. induction (lt_wf n) as [n _ IHn].
  intros f z Hn ys HG Ez Er A D. destruct (s_todo z) as [|a rest] eqn:Et; [by exists 0%nat, f, z; auto|].
  apply Forall_cons in D as [Da Dr].
  assert (next cfg (Fan s (ys 0%nat)) f = fan cfg s (ys 0%nat) z f) as En by (cbn [next]; unfold on_live_sub; by rewrite Ez, A, Er).
  unfold fan in En. rewrite Et in En. destruct (exec cfg (ys 0%nat) a f) as [[g more]|] eqn:Ex.
  2: { exists 1%nat. eexists _, z. cbn [seq map runs]. rewrite En. split; [done|]. split; [exact Ez|]. right.
       unfold alive. cbn. rewrite bool_decide_eq_true_2; [done|]. set_solver. }
  destruct (exec_shrinks cfg (ys 0%nat) a f g more rest Da Ex) as [Hc Hs].
  destruct (beside_work _ _ _ (exec_beside s _ _ _ _ _ _ Ex) z Ez) as (z1 & E1 & R1 & _ & Q1).
  set (z2 := with_work (more ++ rest) z1). set (h := on_sub s (with_work (more ++ rest)) g) in *.
  assert (f_subs h !! s = Some z2) as Ez2 by (cbn; by rewrite lookup_alter_eq, E1).
  assert (alive h (s_replica z2) = true) as A2 by (unfold alive in *; cbn; by rewrite Hc, R1).
  assert (Forall delivery (s_todo z2)) as D2 by (apply Forall_app; split; [by eapply exec_delivery|done]).
  assert (exists m h' z', runs cfg (map (fun i => Fan s (ys (S i))) (seq 0 m)) h = Some h' /\
    f_subs h' !! s = Some z' /\ (s_todo z' = [] \/ alive h' (s_replica z') = false)) as (m & h' & z' & R & Hz).
  { destruct Hs as [L|[Eg L]]; subst.
    - eapply (IHG _ L h z2 (fun i => ys (S i))); try done. cbn. congruence.
    - eapply (IHn _ L h z2 eq_refl (fun i => ys (S i))); try done. cbn. congruence. }
  exists (S m), h', z'. split; [|done]. cbn [seq map runs]. rewrite En. cbn [mbind option_bind].
  by rewrite <- seq_shift, List.map_map.
Qed.

(** What the reader took from its queue waits for it. *)
Lemma payload_waits cfg s f0 z0 fr q f1 f :
  f_subs f0 !! s = Some z0 -> s_queue z0 = encode fr :: q -> in_int64 (o_TS fr) = true ->
  next cfg (Arrive s) f0 = Some f1 ->
  rtc (fun a b => exists l, possible l /\ ~ of_reader s l /\ next cfg l a = Some b) f1 f ->
  exists z, f_subs f !! s = Some z /\ s_reading z = true /\
    s_todo z = [Gather (s_replica z0) (s_conv z0) fr (encode fr)].
Proof.
  intros Ez0 Eq Ets E1. next_in E1. apply on_live_sub_inv in E1. destruct E1 as (z' & Ez' & E1 & Er).
  rewrite Ez0 in Ez'. injection Ez' as <-. destruct (s_todo z0); [|done]. rewrite Eq in E1. injection E1 as <-.
  refine (rtc_ind_r (fun f => exists z, f_subs f !! s = Some z /\ s_reading z = true /\ s_todo z = _) _ _ _ f).
  - eexists. split; [cbn; by rewrite lookup_alter_eq, Ez0|]. split; [done|]. cbn. unfold read_payload. by rewrite decode_encode.
  - intros a b _ (l & _ & N & E) (z' & Ez' & Er' & Et).
    destruct (beside_work _ _ _ (next_beside s _ _ _ _ E N) z' Ez') as (z2 & ? & _ & ? & ?).
    exists z2. split; [done|]. split; congruence.
Qed.

(** Looking up the subscribers, the reader undertakes to see to each. *)
Lemma lookup_serves cfg s x f g z r conv fr :
  f_subs f !! s = Some z -> s_todo z = [Gather r conv fr (encode fr)] -> s_reading z = true ->
  possible (Fan s x) -> next cfg (Fan s x) f = Some g ->
  serves s (encode fr) (default [] (targets f fr <$> convs (hub_of f r) !! conv)) g.
Proof.
  intros Ez Et Er P E. next_in E. apply on_live_sub_inv in E. destruct E as (z' & Ez' & E & _).
  rewrite Ez in Ez'. injection Ez' as <-. unfold fan in E. rewrite Et in E. exec_in E. injection E as <-. split.
  - eexists. split; [cbn; by rewrite lookup_alter_eq, Ez|]. split; [done|]. intros c Hc. left. left. cbn.
    destruct (convs _ !! conv) as [cs|]; [|by apply not_elem_of_nil in Hc]. rewrite app_nil_r.
    apply list_elem_of_fmap. exists c. split; [done|]. by rewrite (P _).
  - intros c Hc. destruct (convs _ !! conv) as [cs|]; [|by apply not_elem_of_nil in Hc].
    apply list_elem_of_In, filter_In in Hc as [_ Hc]. cbn. destruct (f_conns f !! c) as [k|]; [by exists k|done].
Qed.

Lemma other_steps cfg s f g :
  rtc (fun a b => exists l, possible l /\ ~ of_reader s l /\ next cfg l a = Some b) f g -> rtc (hub_step cfg) f g.
Proof. induction 1 as [|a b c (l & Pl & _ & E) _ IH]; [constructor|]. eapply rtc_l; [by exists l|exact IH]. Qed.

(** C23: A payload reaches every subscriber, whatever else happens meanwhile and
    however the selects of trySend fall out.  After the reader of a conversation
    took a payload from its queue ([f1]), its first own action, in some later
    state [f], looks up the subscribers.  In every state [h] after that in which
    the reader is done with it, each connection that was a subscriber in [f], the
    sender of the typing or read mark excepted, has the frame in its buffer or on
    its socket, or is closed - for a frame is dropped only for a closed
    connection, and an open one whose buffer is full is closed.  And the reader
    gets done: from any such state its own actions alone, however they are
    answered, end its work, unless closing a connection twice crashes the
    replica. *)
Theorem payload_reaches_every_subscriber cfg f0 s z0 fr q f1 f x g h z :
  hub_reachable cfg f0 -> f_subs f0 !! s = Some z0 -> s_queue z0 = encode fr :: q -> in_int64 (o_TS fr) = true ->
  next cfg (Arrive s) f0 = Some f1 ->
  rtc (fun a b => exists l, possible l /\ ~ of_reader s l /\ next cfg l a = Some b) f1 f ->
  possible (Fan s x) -> next cfg (Fan s x) f = Some g ->
  rtc (hub_step cfg) g h -> f_subs h !! s = Some z ->
  (s_todo z = [] -> forall c k, c ∈ members f (s_replica z0) (s_conv z0) -> f_conns f !! c = Some k -> echoes fr k = false ->
     reached (encode fr) c h) /\
  (alive h (s_replica z) = true -> forall ys : nat -> answer, exists n h' z',
     runs cfg (map (fun i => Fan s (ys i)) (seq 0 n)) h = Some h' /\ f_subs h' !! s = Some z' /\
     (s_todo z' = [] \/ alive h' (s_replica z') = false)).
Proof.
  intros R0 Ez0 Eq Ets E1 R1 P E2 R2 Ez.
  destruct (payload_waits cfg s f0 z0 fr q f1 f Ez0 Eq Ets E1 R1) as (zf & Ezf & Erf & Etf).
  assert (hub_reachable cfg h) as [_ D]%hub_reachable_sound.
  { unfold hub_reachable in *. etransitivity; [exact R0|]. eapply rtc_l; [by exists (Arrive s)|].
    transitivity f; [by eapply other_steps|]. eapply rtc_l; [by exists (Fan s x)|exact R2]. }
  pose proof (lookup_serves cfg s x f g zf _ _ fr Ezf Etf Erf P E2) as Sg. set (T := default _ _) in Sg.
  assert (serves s (encode fr) T h) as [(z' & Ez' & Er & Ht) _].
  { revert R2. refine (rtc_ind_r (serves s (encode fr) T) g Sg _ h). intros a b _ [l [_ E]]. by eapply serves_next. }
  rewrite Ez in Ez'. injection Ez' as <-. split.
  - intros Et c k Hc Ek Ee. destruct (Ht c) as [H|H]; [|rewrite Et in H; by destruct (idle_in_hand (encode fr) c)|exact H].
    unfold T, members in *. destruct (convs _ !! s_conv z0) as [cs|]; [|by apply not_elem_of_empty in Hc].
    apply list_elem_of_In, filter_In. split; [by apply list_elem_of_In, elem_of_elements|]. by rewrite Ek, Ee.
  - intros A ys. destruct (s_todo z) eqn:Et; [exists 0%nat, h, z; auto|].
    apply reader_finishes with (z := z); [done|by apply Er|done|exact (disc_readers _ D s z Ez)].
Qed.

(** ** A conversation whose reader has stopped *)

(** The readers that have stopped stay stopped, and a conversation keeps its
    subscription until its last subscriber leaves. *)
Record keeps (s : nat) (f f' : fabric) : Prop := {
  keeps_reader : forall z, f_subs f !! s = Some z -> exists z', f_subs f' !! s = Some z' /\ (s_reading z = false -> s_reading z' = false);
  keeps_sub : forall r conv cs, convs (hub_of f r) !! conv = Some cs ->
    convs (hub_of f' r) !! conv = None \/ exists cs', convs (hub_of f' r) !! conv = Some cs' /\ sub cs' = sub cs
}.

Lemma keeps_maps s f f' : f_hubs f' = f_hubs f -> f_subs f' = f_subs f -> keeps s f f'.
Proof.
  intros H S. split.
  - intros z. rewrite S. intros E. by exists z.
  - intros r conv cs. unfold hub_of. rewrite H. intros E. right. by exists cs.
Qed.

Lemma keeps_on_sub s s' g f : (forall z, s_reading z = false -> s_reading (g z) = false) -> keeps s f (on_sub s' g f).
Proof.
  intros G. split.
  - intros z E. cbn. destruct (decide (s = s')) as [->|N]; [|rewrite lookup_alter_ne by done; by exists z].
    rewrite lookup_alter_eq, E. exists (g z). split; [done|apply G].
  - intros r conv cs E. right. by exists cs.
Qed.

Lemma keeps_hubs s f f' f'' : f_hubs f' = f_hubs f -> keeps s f' f'' -> (forall z, f_subs f !! s = Some z ->
  exists z', f_subs f' !! s = Some z' /\ (s_reading z = false -> s_reading z' = false)) -> keeps s f f''.
Proof.
  intros H [A B] S. split.
  - intros z E. destruct (S z E) as (z1 & E1 & H1). destruct (A z1 E1) as (z2 & E2 & H2). exists z2. naive_solver.
  - intros r conv cs. unfold hub_of. rewrite <- H. apply B.
Qed.

Lemma keeps_leave s c conv f : keeps s f (leaveLocked c conv f).
Proof.
  unfold leaveLocked. destruct (f_conns f !! c) as [k|]; [|by apply keeps_maps].
  destruct (convs (hub_of f (c_replica k)) !! conv) as [cs|] eqn:E; [|by apply keeps_maps].
  set (g := on_conn _ _ f). assert (forall x, hub_of g x = hub_of f x) as HG by done. case_decide as L; split.
  - intros z Ez. destruct (sub cs) as [s'|]; [|by exists z].
    apply (keeps_reader _ _ _ (keeps_on_sub s s' (with_open false) g (fun z e => e)) z Ez).
  - intros r conv' cs'. rewrite hub_of_on_hub, !close_sub_hub, !HG.
    destruct (decide (c_replica k = r)) as [<-|]; [|by right; exists cs']. cbn [convs].
    destruct (decide (conv = conv')) as [<-|N]; [left; by rewrite lookup_delete_eq|].
    rewrite lookup_delete_ne by done. right. by exists cs'.
  - intros z Ez. by exists z.
  - intros r conv' cs'. rewrite hub_of_on_hub, !HG.
    destruct (decide (c_replica k = r)) as [<-|]; [|by right; exists cs']. cbn [convs]. intros E'.
    destruct (decide (conv = conv')) as [<-|N]; [|rewrite lookup_insert_ne by done; right; by exists cs'].
    right. rewrite lookup_insert_eq. rewrite E in E'. injection E' as <-. by eexists.
Qed.

Lemma leave_none c conv f r conv' :
  convs (hub_of f r) !! conv' = None -> convs (hub_of (leaveLocked c conv f) r) !! conv' = None.
Proof.
  intros E. unfold leaveLocked. destruct (f_conns f !! c) as [k|]; [|done].
  destruct (convs (hub_of f (c_replica k)) !! conv) as [cs|] eqn:E'; [|done].
  case_decide; rewrite hub_of_on_hub, ?close_sub_hub; change (hub_of (on_conn ?c ?g f) ?x) with (hub_of f x);
    (destruct (decide (c_replica k = r)) as [<-|]; [|done]); cbn [convs].
  - rewrite lookup_delete_None. by right.
  - rewrite lookup_insert_ne; [done|]. intros ->. congruence.
Qed.

Lemma keeps_leaves s c l f : keeps s f (foldr (leaveLocked c) f l).
Proof.
  induction l as [|v l IH]; [by apply keeps_maps|]. cbn. pose proof (keeps_leave s c v (foldr (leaveLocked c) f l)) as K. split.
  - intros z E. destruct (keeps_reader _ _ _ IH z E) as (z1 & E1 & H1).
    destruct (keeps_reader _ _ _ K z1 E1) as (z2 & E2 & H2). exists z2. naive_solver.
  - intros r conv cs E. destruct (keeps_sub _ _ _ IH r conv cs E) as [N|(cs1 & E1 & H1)]; [left; by apply leave_none|].
    destruct (keeps_sub _ _ _ K r conv cs1 E1) as [N|(cs2 & E2 & H2)]; [by left|]. right. exists cs2. split; [done|congruence].
Qed.

Lemma keeps_enter s f g r h :
  f_hubs g = f_hubs f -> (forall z, f_subs f !! s = Some z -> f_subs g !! s = Some z) ->
  (forall conv' cs, convs (hub_of f r) !! conv' = Some cs -> exists cs', convs (h (hub_of f r)) !! conv' = Some cs' /\ sub cs' = sub cs) ->
  keeps s f (on_hub r h g).
Proof.
  intros H S C. assert (forall x, hub_of g x = hub_of f x) as HH by (intros x; unfold hub_of; by rewrite H).
  split; [intros z E; exists z; split; [by apply S|done]|]. intros r' conv' cs. rewrite hub_of_on_hub, !HH.
  destruct (decide (r = r')) as [<-|]; [intros E; right; by apply C|right; by exists cs].
Qed.

Lemma keeps_conn s f c h g : keeps s f g -> keeps s f (on_conn c h g).
Proof. intros [A B]. by split. Qed.

Lemma keeps_join s cfg ok c conv f : keeps s f (fst (join_commit cfg ok c conv f)).
Proof.
  unfold join_commit. destruct (f_conns f !! c) as [k|]; [|by apply keeps_maps].
  destruct (bool_decide _); [by apply keeps_maps|].
  assert (forall cs, (forall o, convs (hub_of f (c_replica k)) !! conv = Some o -> sub cs = sub o) ->
    forall conv' cs', convs (hub_of f (c_replica k)) !! conv' = Some cs' ->
    exists cs2, <[conv := mkConvState ({[c]} ∪ subscribers cs) (sub cs)]> (convs (hub_of f (c_replica k))) !! conv' = Some cs2 /\ sub cs2 = sub cs') as C.
  { intros cs O conv' cs' E'. destruct (decide (conv = conv')) as [<-|N].
    - rewrite lookup_insert_eq. eexists. split; [done|]. by apply O.
    - rewrite lookup_insert_ne by done. by exists cs'. }
  destruct (convs (hub_of f (c_replica k)) !! conv) as [cs|] eqn:E.
  { apply keeps_conn, (keeps_enter s f f); [done|done|]. apply C. by intros o [= <-]. }
  destruct (redis_enabled cfg); [destruct ok; [|by apply keeps_maps]|].
  - cbn [Subscribe fst]. set (s0 := base.fresh _).
    apply keeps_conn, (keeps_enter s f (set_subs (<[s0 := mkSubscription (c_replica k) conv c true [] [] true]> (f_subs f)) f)); [done| |].
    + intros z Ez. cbn. rewrite lookup_insert_ne; [done|]. intros <-.
      assert (f_subs f !! s0 = None) by (apply not_elem_of_dom, is_fresh). congruence.
    + by apply (C (mkConvState ∅ (Some s0))).
  - apply keeps_conn, (keeps_enter s f f); [done|done|]. by apply (C (mkConvState ∅ None)).
Qed.

Lemma keeps_exec s cfg x a f f' more : exec cfg x a f = Some (f', more) -> keeps s f f'.
Proof.
  intros E. destruct a as [c b|c|c|c|c|c conv|c conv|c conv|c conv|c i ts|r conv fr|r conv fr raw|c|c|c]; exec_in E.
  - injection E as E. unfold trySend in E. destruct (f_conns f !! c) as [k|]; [|injection E as <- _; by apply keeps_maps].
    destruct (_ && _); [|destruct (c_closed k)]; injection E as <- _; by apply keeps_maps.
  - destruct (f_conns f !! c); injection E as <- _; by apply keeps_maps.
  - destruct (f_conns f !! c) as [k|]; [destruct (c_closed k)|]; try done; injection E as <- _; by apply keeps_maps.
  - destruct (f_conns f !! c); injection E as <- _; [|by apply keeps_maps]. destruct (redis_enabled cfg && a_ok x); by apply keeps_maps.
  - injection E as <- _. by apply keeps_maps.
  - destruct (f_conns f !! c); injection E as <- _; by apply keeps_maps.
  - destruct (f_conns f !! c) as [k|]; [destruct (CheckMembership (a_http x)) as [[]|]|]; injection E as <- _; by apply keeps_maps.
  - injection E as E. pose proof (keeps_join s cfg (a_ok x) c conv f) as K. by rewrite E in K.
  - injection E as <- _. apply keeps_leave.
  - destruct (f_conns f !! c); injection E as <- _; by apply keeps_maps.
  - destruct (redis_enabled cfg); [destruct (a_ok x)|]; injection E as <- _; [|by apply keeps_maps..]. split.
    + intros z Ez. cbn. rewrite lookup_fmap, Ez. eexists. split; [done|]. by destruct (s_open z && _).
    + intros r' conv' cs Ec. right. by exists cs.
  - injection E as <- _. by apply keeps_maps.
  - unfold unregister in E. destruct (f_conns f !! c) as [k|]; [|injection E as <- _; by apply keeps_maps].
    fold (absent (c_replica k) c f) in E. rewrite leaves_absent in E. destruct (dropped _ _) as [m last]. injection E as <- _.
    unfold absent. rewrite on_hub_twice. pose proof (keeps_leaves s c (elements (c_joined k)) f) as [K1 K2]. split; [exact K1|].
    intros r conv cs Ec. rewrite hub_of_on_hub. specialize (K2 r conv cs Ec). by destruct (decide (c_replica k = r)) as [<-|].
  - destruct (f_conns f !! c); injection E as <- _; [|by apply keeps_maps]. destruct (redis_enabled cfg && a_ok x); by apply keeps_maps.
  - injection E as <- _. by apply keeps_maps.
Qed.

Lemma next_keeps s cfg l f f' : next cfg l f = Some f' -> keeps s f f'.
Proof.
  intros E. destruct l as [r u|c data ts|c|c|c x|c|c|s'|s'|s'|s' x|dt|r]; next_in E.
  - destruct (alive f r); [|done]. injection E as <-.
    eapply (keeps_enter s f (set_conns _ f)); [done|done|]. intros conv' cs E. by exists cs.
  - apply on_live_conn_inv in E. destruct E as (k & Ek & E & _). destruct (_ && _); [|done]. injection E as <-. by apply keeps_maps.
  - apply on_live_conn_inv in E. destruct E as (k & Ek & E & _). destruct (reading k); [|done]. injection E as <-. by apply keeps_maps.
  - apply on_live_conn_inv in E. destruct E as (k & Ek & E & _). destruct (reading k); [|done]. injection E as <-. by apply keeps_maps.
  - apply on_live_conn_inv in E. destruct E as (k & Ek & E & _). unfold pump in E. destruct (c_todo k) as [|a rest]; [done|].
    injection E as <-. destruct (exec cfg x a f) as [[g more]|] eqn:Ex; [|by apply keeps_maps]. exact (keeps_conn _ _ _ _ _ (keeps_exec s _ _ _ _ _ _ Ex)).
  - apply on_live_conn_inv in E. destruct E as (k & Ek & E & _). destruct (c_send k); [done|]. destruct (c_writing k); [|done].
    injection E as <-. by apply keeps_maps.
  - apply on_live_conn_inv in E. destruct E as (k & Ek & E & _). destruct (c_writing k); [|done]. injection E as <-. by apply keeps_maps.
  - apply on_live_sub_inv in E. destruct E as (z & Ez & E & _). destruct (s_todo z); [|done]. destruct (s_queue z) as [|b q]; [done|].
    injection E as <-. by apply keeps_on_sub.
  - destruct (f_subs f !! s') as [z|]; [|done]. destruct (s_queue z); [done|]. injection E as <-. by apply keeps_on_sub.
  - apply on_live_sub_inv in E. destruct E as (z & Ez & E & _). destruct (_ && _); [|done]. injection E as <-. by apply keeps_on_sub.
  - apply on_live_sub_inv in E. destruct E as (z & Ez & E & _). unfold fan in E. destruct (s_todo z) as [|a rest]; [done|].
    injection E as <-. destruct (exec cfg x a f) as [[g more]|] eqn:Ex; [|by apply keeps_maps].
    pose proof (keeps_exec s _ _ _ _ _ _ Ex) as [K1 K2]. split; [|exact K2]. intros z' Ez'.
    destruct (K1 z' Ez') as (z1 & E1 & H1).
    destruct (keeps_reader _ _ _ (keeps_on_sub s s' (with_work (more ++ rest)) g (fun z e => e)) z1 E1) as (z2 & E2 & H2).
    exists z2. naive_solver.
  - destruct (0 <=? dt); [|done]. injection E as <-. by apply keeps_maps.
  - injection E as <-. by apply keeps_maps.
Qed.

(** The reader of the conversation has returned. *)
Definition silent (r : nat) (conv : string) (s : nat) (f : fabric) : Prop :=
  (exists z, f_subs f !! s = Some z /\ s_reading z = false) /\
  exists cs, convs (hub_of f r) !! conv = Some cs /\ sub cs = Some s.

(** Once the reader of a conversation has returned, no payload of it is taken
    from Redis again on the replica for as long as somebody stays subscribed:
    nobody starts another reader, and new subscribers join the silence. *)
Theorem silent_conversation_stays_silent cfg r conv s f f' :
  silent r conv s f ->
  rtc (fun g g' => hub_step cfg g g' /\ members g' r conv <> ∅) f f' ->
  silent r conv s f' /\ next cfg (Arrive s) f' = None /\ forall x, next cfg (Fan s x) f' = None.
Proof.
  intros S R. assert (silent r conv s f') as S'.
  { revert S. induction R as [g|g g1 g2 [[l [_ E]] M] R IH]; [done|]. intros [(z & Ez & Er) (cs & Ec & Es)]. apply IH.
    destruct (next_keeps s cfg l g g1 E) as [K1 K2]. destruct (K1 z Ez) as (z1 & Ez1 & Er1).
    split; [exists z1; split; [done|by apply Er1]|]. destruct (K2 r conv cs Ec) as [N|(cs' & Ec' & Es')].
    - unfold members in M. by rewrite N in M.
    - exists cs'. split; [done|congruence]. }
  split; [done|]. destruct S' as [(z & Ez & Er) _]. cbn [next]. unfold on_live_sub, take_payload. rewrite Ez, Er.
  by rewrite andb_false_r.
Qed.

(** ** Scenarios *)

Definition demo_hub : hub_config := mkHubConfig 2 90000000000 true.
Definition member_answer (m : bool) : answer := mkAnswer (Some (200, Some (JObj [("member", JBool m)]))) true false (fun l => l).
Definition stored_answer : answer := mkAnswer (Some (201, Some (JObj [("id", JStr "m1")]))) true false (fun l => l).
Definition refused_answer : answer := mkAnswer (Some (403, Some (JObj []))) true false (fun l => l).

Definition in_frame (ty conv text : string) : option json :=
  Some (JObj [("type", JStr ty); ("conversation_id", JStr conv); ("body", JStr text)]).

(** A user connects to a replica; joins; sends; hangs up. *)
Definition boots (r : nat) (u : string) (c : nat) : list label := [Connect r u; Pump c calm_answer; Pump c calm_answer].
Definition joins (c : nat) (conv : string) : list label :=
  [Receive c (in_frame "join" conv "") 1; Pump c calm_answer; Pump c (member_answer true); Pump c calm_answer; Pump c calm_answer; Write c].
Definition sends (c : nat) (conv text : string) (x : answer) : list label :=
  [Receive c (in_frame "send" conv text) 7; Pump c x; Pump c calm_answer].
Definition hangs_up (c : nat) (last : bool) : list label :=
  Hangup c :: replicate (if last then 5 else 4) (Pump c calm_answer).

Definition two_in_c1 : list label := boots 0 "ann" 0 ++ boots 0 "bob" 1 ++ joins 0 "c1" ++ joins 1 "c1".

Definition after (ls : list label) : fabric := default start (runs demo_hub ls start).

(** Every answer of a list of labels keeps the order it is given. *)
Fixpoint runs_truthfully (truth : string -> string -> bool) (ls : list label) (f : fabric) : bool :=
  match ls with
  | [] => true
  | l :: ls =>
      match l with
      | Pump c x =>
          match f_conns f !! c with
          | Some k =>
              match c_todo k, CheckMembership (a_http x) with
              | Authorize _ conv :: _, Some true => truth conv (c_userID k)
              | _, _ => true
              end
          | None => true
          end
      | _ => true
      end &&
      match next demo_hub l f with Some f => runs_truthfully truth ls f | None => false end
  end.

Lemma runs_truthfully_steps truth ls f :
  Forall possible ls -> runs_truthfully truth ls f = true ->
  rtc (truthful_step (fun conv u => truth conv u = true) demo_hub) f (default f (runs demo_hub ls f)).
Proof.
  intros P. revert f. induction P as [|l ls Pl P IH]; intros f; cbn [runs_truthfully runs]; [constructor|].
  intros [T E]%andb_true_iff. destruct (next demo_hub l f) as [g|] eqn:En; [|done]. cbn [mbind option_bind].
  eapply rtc_l; [exists l; split; [done|split; [|done]]|].
  - destruct l as [| | | |c x| | | | | | | |]; try done. intros k conv rest Ek Et Ec. by rewrite Ek, Et, Ec in T.
  - specialize (IH g E). destruct (runs demo_hub ls g) eqn:R; [exact IH|].
    clear - E R. exfalso. revert g E R. induction ls as [|l' ls IH']; intros g E R; cbn in *; [done|].
    apply andb_true_iff in E. destruct E as [_ E]. destruct (next demo_hub l' g); [by eapply IH'|done].
Qed.

Lemma runs_steps ls f g : Forall possible ls -> runs demo_hub ls f = Some g -> rtc (hub_step demo_hub) f g.
Proof.
  intros P. revert f. induction P as [|l ls Pl P IH]; intros f; cbn [runs]; [by intros [= ->]; constructor|].
  destruct (next demo_hub l f) as [h|] eqn:E; [|done]. intros R. eapply rtc_l; [by exists l|by apply IH].
Qed.

Definition possibleb (l : label) : Prop := match l with Pump _ x | Fan _ x => a_order x = fun l => l | _ => True end.
Lemma all_possible ls : Forall possibleb ls -> Forall possible ls.
Proof. intros F. eapply Forall_impl; [done|]. intros []; cbn; try done; by intros ->. Qed.

Definition said : list label :=
  two_in_c1 ++ sends 1 "c1" "hi" stored_answer ++ [Arrive 0] ++ replicate 3 (Fan 0 calm_answer) ++ [Write 0].

Definition hi_frame : json := encode (mkOutbound "message.sent" "c1" "m1" "bob" "hi" "" false "" "" "" 7).

Lemma said_possible : Forall possible said.
Proof. apply all_possible. by repeat constructor. Qed.

Definition in_c1 (conv u : string) : bool := String.eqb conv "c1" && (String.eqb u "ann" || String.eqb u "bob").

Lemma chat_frames_reach_members_only_witness :
  exists k, f_conns (after said) !! 0%nat = Some k /\ c_wire k = [ackFrame "c1" "join"; hi_frame] /\
    in_c1 "c1" (c_userID k) = true.
Proof.
  assert (exists k, f_conns (after said) !! 0%nat = Some k /\ c_send k = [] /\ c_wire k = [ackFrame "c1" "join"; hi_frame])
    as (k & Ek & Es & Ew) by (eexists; split; [vm_compute; reflexivity|split; vm_compute; reflexivity]).
  exists k. split; [done|]. split; [done|].
  apply (chat_frames_reach_members_only (fun conv u => in_c1 conv u = true) demo_hub (after said) 0 k hi_frame "c1").
  - refine (runs_truthfully_steps in_c1 said start said_possible _). vm_compute. reflexivity.
  - exact Ek.
  - rewrite Es, Ew. right. left.
  - reflexivity.
Defined.

Lemma after_reachable ls : Forall possible ls -> hub_reachable demo_hub (after ls).
Proof.
  intros P. unfold after. destruct (runs demo_hub ls start) as [f|] eqn:E; [by eapply runs_steps|constructor].
Qed.

Lemma two_possible : Forall possible two_in_c1.
Proof. apply all_possible. by repeat constructor. Qed.

Lemma membership_maps_agree_witness :
  members (after two_in_c1) 0 "c1" = {[0%nat; 1%nat]} /\
  exists! s, sub_shape <$> f_subs (after two_in_c1) !! s = Some (0%nat, "c1", true).
Proof.
  assert (members (after two_in_c1) 0 "c1" = {[0%nat; 1%nat]}) as M by (vm_compute; reflexivity).
  split; [exact M|].
  destruct (membership_maps_agree demo_hub (after two_in_c1) 0 "c1" "ann" (after_reachable _ two_possible)) as (_ & U & _).
  apply U; [reflexivity|]. rewrite M. vm_compute. discriminate.
Defined.

(** Ann hangs up, and unregistering is next. *)
Definition ann_leaving : list label := two_in_c1 ++ [Hangup 0; Pump 0 calm_answer; Pump 0 calm_answer].

Lemma ann_leaving_possible : Forall possible ann_leaving.
Proof. apply all_possible. by repeat constructor. Qed.

Lemma presence_outlives_other_connections_witness :
  exists k f', f_conns (after ann_leaving) !! 0%nat = Some k /\ c_todo k = [Unregister 0; Return 0] /\
    next demo_hub (Pump 0 calm_answer) (after ann_leaving) = Some f' /\
    exists k', f_conns f' !! 0%nat = Some k' /\ c_joined k' = ∅ /\ c_todo k' = [ClearPresence 0; Return 0].
Proof.
  assert (exists k, f_conns (after ann_leaving) !! 0%nat = Some k /\ c_todo k = [Unregister 0; Return 0] /\
    connections (after ann_leaving) (c_replica k) (c_userID k) = 1%nat) as (k & Ek & Et & N).
  { eexists. split; [vm_compute; reflexivity|]. split; vm_compute; reflexivity. }
  assert (exists f', next demo_hub (Pump 0 calm_answer) (after ann_leaving) = Some f') as (f' & E).
  { eexists. vm_compute. reflexivity. }
  exists k, f'. split; [exact Ek|]. split; [exact Et|]. split; [exact E|].
  destruct (presence_outlives_other_connections demo_hub (after ann_leaving) 0 k calm_answer f'
    (after_reachable _ ann_leaving_possible) Ek Et E) as [(k' & Ek' & Ej & Et') _].
  exists k'. split; [exact Ek'|]. split; [exact Ej|]. rewrite Et', N. reflexivity.
Defined.

Lemma send_buffers_bounded_witness :
  exists k, f_conns (after two_in_c1) !! 1%nat = Some k /\ (length (c_send k) <= 2)%nat.
Proof.
  assert (exists k, f_conns (after two_in_c1) !! 1%nat = Some k) as (k & Ek) by (eexists; vm_compute; reflexivity).
  exists k. split; [exact Ek|].
  exact (send_buffers_bounded demo_hub (after two_in_c1) 1 k (after_reachable _ two_possible) Ek).
Defined.

Definition hi_queued : list label := two_in_c1 ++ sends 1 "c1" "hi" stored_answer.
Lemma hi_queued_possible : Forall possible hi_queued.
Proof. apply all_possible. by repeat constructor. Qed.

(** A range in the other order, and a select that prefers the closed channel. *)
Definition gruff_answer : answer := mkAnswer None false true (@rev nat).

(** Bob's pong comes in between, and Ann's write pump is at work. *)
Definition taken : fabric := default start (next demo_hub (Arrive 0) (after hi_queued)).
Definition paused : fabric := default start (next demo_hub (Pong 1) taken).
Definition looked_up : fabric := default start (next demo_hub (Fan 0 gruff_answer) paused).
Definition last_labels : list label := [Fan 0 gruff_answer; Pump 1 calm_answer; Fan 0 calm_answer; Write 0].
Definition handed_on : fabric := default start (runs demo_hub last_labels looked_up).

Lemma one_step l f : match next demo_hub l f with Some _ => true | None => false end = true ->
  next demo_hub l f = Some (default start (next demo_hub l f)).
Proof. by destruct (next demo_hub l f). Qed.

Lemma payload_reaches_every_subscriber_witness :
  next demo_hub (Fan 0 gruff_answer) paused = Some looked_up /\
  runs demo_hub last_labels looked_up = Some handed_on /\ reached hi_frame 0 handed_on.
Proof.
  assert (next demo_hub (Arrive 0) (after hi_queued) = Some taken) as E1 by (apply one_step; vm_compute; reflexivity).
  assert (next demo_hub (Pong 1) taken = Some paused) as E2 by (apply one_step; vm_compute; reflexivity).
  assert (next demo_hub (Fan 0 gruff_answer) paused = Some looked_up) as E3 by (apply one_step; vm_compute; reflexivity).
  assert (runs demo_hub last_labels looked_up = Some handed_on) as E4.
  { unfold handed_on. destruct (runs demo_hub last_labels looked_up) eqn:E; [reflexivity|]. exfalso.
    apply (f_equal (fun o => match o with Some _ => true | None => false end)) in E. vm_compute in E. discriminate E. }
  split; [exact E3|]. split; [exact E4|].
  assert (exists z0, f_subs (after hi_queued) !! 0%nat = Some z0 /\ s_queue z0 = [hi_frame] /\ s_replica z0 = 0%nat /\
    s_conv z0 = "c1") as (z0 & Ez0 & Eq & Ep & Ec) by (eexists; split; [vm_compute; reflexivity|]; repeat split).
  assert (exists z, f_subs handed_on !! 0%nat = Some z /\ s_todo z = []) as (z & Ez & Et)
    by (eexists; split; [vm_compute; reflexivity|]; reflexivity).
  assert (exists k, f_conns paused !! 0%nat = Some k /\ c_userID k = "ann") as (k & Ek & Eu)
    by (eexists; split; [vm_compute; reflexivity|]; reflexivity).
  destruct (payload_reaches_every_subscriber demo_hub (after hi_queued) 0 z0
    (mkOutbound "message.sent" "c1" "m1" "bob" "hi" "" false "" "" "" 7) [] taken paused gruff_answer looked_up handed_on z) as [Hr _].
  - exact (after_reachable _ hi_queued_possible).
  - exact Ez0.
  - exact Eq.
  - reflexivity.
  - exact E1.
  - apply rtc_once. exists (Pong 1). split; [exact I|]. split; [intros []|exact E2].
  - intros l. apply Permutation_sym, Permutation_rev.
  - exact E3.
  - refine (runs_steps _ _ _ _ E4). repeat constructor; intros l; first [apply Permutation_refl|apply Permutation_sym, Permutation_rev].
  - exact Ez.
  - apply (Hr Et 0%nat k).
    + rewrite Ep, Ec. replace (members paused 0 "c1") with ({[0%nat; 1%nat]} : gset nat) by (vm_compute; reflexivity).
      apply elem_of_union. left. by apply elem_of_singleton.
    + exact Ek.
    + unfold echoes. rewrite Eu. reflexivity.
Defined.

(** Ann, who joined first, hangs up while Bob stays: her request context ends,
    and with it the reader of the conversation. *)
Definition ann_gone : list label := two_in_c1 ++ hangs_up 0 true ++ [StopReading 0].

Lemma silent_conversation_stays_silent_witness :
  members (after ann_gone) 0 "c1" = {[1%nat]} /\
  exists f', runs demo_hub (sends 1 "c1" "hi" stored_answer) (after ann_gone) = Some f' /\
    next demo_hub (Arrive 0) f' = None.
Proof.
  assert (members (after ann_gone) 0 "c1" = {[1%nat]}) as M by (vm_compute; reflexivity).
  split; [exact M|].
  assert (exists g h f', runs demo_hub [Receive 1 (in_frame "send" "c1" "hi") 7] (after ann_gone) = Some g /\
    runs demo_hub [Pump 1 stored_answer] g = Some h /\ runs demo_hub [Pump 1 calm_answer] h = Some f' /\
    members g 0 "c1" <> ∅ /\ members h 0 "c1" <> ∅ /\ members f' 0 "c1" <> ∅) as (g & h & f' & Rg & Rh & Rf & Mg & Mh & Mf).
  { eexists _, _, _. split; [vm_compute; reflexivity|]. split; [vm_compute; reflexivity|]. split; [vm_compute; reflexivity|].
    split; [vm_compute; discriminate|]. split; vm_compute; discriminate. }
  exists f'. split.
  { change (sends 1 "c1" "hi" stored_answer) with ([Receive 1 (in_frame "send" "c1" "hi") 7] ++ [Pump 1 stored_answer] ++ [Pump 1 calm_answer]).
    rewrite (runs_app _ _ _ _ _ Rg), (runs_app _ _ _ _ _ Rh). exact Rf. }
  apply (silent_conversation_stays_silent demo_hub 0 "c1" 0 (after ann_gone) f').
  - split; [eexists; split; vm_compute; reflexivity|eexists; split; vm_compute; reflexivity].
  - assert (forall l a b, possible l -> runs demo_hub [l] a = Some b -> hub_step demo_hub a b) as One.
    { intros l a b P R. exists l. split; [exact P|]. cbn [runs] in R. destruct (next demo_hub l a); [exact R|discriminate]. }
    eapply rtc_l; [split; [exact (One (Receive 1 (in_frame "send" "c1" "hi") 7) _ _ I Rg)|exact Mg]|].
    eapply rtc_l; [split; [exact (One (Pump 1 stored_answer) _ _ (fun l => Permutation_refl l) Rh)|exact Mh]|].
    eapply rtc_l; [split; [exact (One (Pump 1 calm_answer) _ _ (fun l => Permutation_refl l) Rf)|exact Mf]|constructor].
Defined.

(** ** What the interleavings and the missing checks allow *)

(** Bob's message goes to Redis and stays there, although Bob is subscribed. *)
Example first_joiner_silences_the_rest :
  let f := after (ann_gone ++ sends 1 "c1" "hi" stored_answer) in
  members f 0 "c1" = {[1%nat]} /\ (s_queue <$> f_subs f !! 0%nat) = Some [hi_frame] /\ next demo_hub (Arrive 0) f = None.
Proof. vm_compute. done. Qed.

(** Mallory joins nothing, messaging refuses her message with 403, and the
    members get it all the same. *)
Definition mallory : list label :=
  two_in_c1 ++ boots 0 "mallory" 2 ++ sends 2 "c1" "spam" refused_answer ++ [Arrive 0] ++ replicate 3 (Fan 0 calm_answer) ++ [Write 0].

Example refused_message_is_fanned_out :
  (c_joined <$> f_conns (after mallory) !! 2%nat) = Some ∅ /\
  (fun k => last (c_wire k)) <$> f_conns (after mallory) !! 0%nat =
    Some (Some (encode (mkOutbound "message.sent" "c1" "" "mallory" "spam" "" false "" "" "" 7))).
Proof. vm_compute. done. Qed.

(** Bob's buffer is full.  The reader finds it so while his read pump ends: both
    see the channel open, both close it, and the replica crashes. *)
Definition doubly_closed : list label :=
  two_in_c1 ++ concat (replicate 3 (sends 1 "c1" "hi" stored_answer)) ++
  (Arrive 0 :: replicate 3 (Fan 0 calm_answer)) ++ (Arrive 0 :: replicate 3 (Fan 0 calm_answer)) ++
  [Arrive 0; Fan 0 calm_answer; Fan 0 calm_answer; Fan 0 calm_answer] ++
  [Hangup 1; Pump 1 calm_answer; Pump 1 calm_answer; Fan 0 calm_answer].

Example slow_reader_crashes_the_replica : f_crashed (after doubly_closed) = {[0%nat]}.
Proof. vm_compute. done. Qed.

(** Ann is connected to two replicas; closing one connection takes her offline
    until the other's next pong. *)
Definition ann_twice : list label := boots 0 "ann" 0 ++ boots 1 "ann" 1.

Example other_replica_clears_presence :
  present (after ann_twice) "ann" = true /\ present (after (ann_twice ++ hangs_up 0 true)) "ann" = false /\
  conns (hub_of (after (ann_twice ++ hangs_up 0 true)) 1) = {[1%nat]}.
Proof. vm_compute. done. Qed.
