(* ===== verification/WsHttp.v ===== *)
(** * WebSocket gateway: identity and HTTP (services/wsgateway/internal/auth, httpapi, config)

    The verifier with its refreshed keys, the upgrade of a request to a
    connection of the hub, the presence query and the configuration. *)
From stdpp Require Import gmap.
From S2P Require Export WsHub.
From S2P Require Import Token RateLimit.
From S2P Require AuthService AuthProofs AuthSpec.
#[local] Open Scope Z_scope.

(** ** Lists in the configuration *)

Definition blank : Ascii.ascii := " ".

Fixpoint trim_blanks_left (s : string) : string :=
  match s with String c s' => if Ascii.eqb c blank then trim_blanks_left s' else s | EmptyString => "" end.

(** The loop that shortens the text while its last byte is a blank. *)
Fixpoint trim_blanks_right (s : string) : string :=
  match s with
  | EmptyString => ""
  | String c s' =>
      match trim_blanks_right s' with
      | EmptyString => if Ascii.eqb c blank then "" else String c ""
      | t => String c t
      end
  end.

Definition trim_blanks (s : string) : string := trim_blanks_right (trim_blanks_left s).

Definition comma_at (s : string) (i : nat) : bool :=
  match String.get i s with Some c => Ascii.eqb c "," | None => false end.

(** The loop of config.splitNonEmpty over the positions [i] to the end. *)
Fixpoint split_scan (s : string) (n i first : nat) (out : list string) : list string :=
  match n with
  | O => out
  | S n =>
      if (i =? String.length s)%nat || comma_at s i then
        let part := trim_blanks (String.substring first (i - first) s) in
        split_scan s n (S i) (S i) (if String.eqb part "" then out else out ++ [part])
      else split_scan s n (S i) first out
  end.

Definition config_splitNonEmpty (s : string) : list string :=
  if String.eqb s "" then [] else split_scan s (S (String.length s)) 0 0 [].

(** ** pkg/config: settings from the environment *)

Section Settings.
Context (getenv : string -> option string) (parse_duration : string -> option Z).

Definition Get (key def : string) : string :=
  match getenv key with Some v => if String.eqb v "" then def else v | None => def end.

(** A setting that does not parse counts as absent. *)
Definition GetInt (key : string) (def : Z) : Z :=
  match getenv key with
  | Some v => if String.eqb v "" then def else default def (parse_int v)
  | None => def
  end.

Definition GetDuration (key : string) (def : Z) : Z :=
  match getenv key with
  | Some v => if String.eqb v "" then def else default def (parse_duration v)
  | None => def
  end.

(** MustGet; [None] when it panics. *)
Definition MustGet (key : string) : option string :=
  match getenv key with Some v => if String.eqb v "" then None else Some v | None => None end.

Record Base := mkBase {
  Environment : string;
  LogLevel : string;
  HTTPPort : Z;
  GRPCPort : Z;
  DatabaseURL : string;
  RedisAddr : string;
  KafkaBrokers : string;
  OTELEndpoint : string
}.

Definition LoadBase : Base :=
  mkBase (Get "ENVIRONMENT" "local") (Get "LOG_LEVEL" "info") (GetInt "HTTP_PORT" 8080) (GetInt "GRPC_PORT" 9090)
    (Get "DATABASE_URL" "") (Get "REDIS_ADDR" "localhost:6379") (Get "KAFKA_BROKERS" "localhost:19092")
    (Get "OTEL_EXPORTER_OTLP_ENDPOINT" "").

(** Config of the gateway: what the hub, the verifier and the endpoints read. *)
Record ws_config := mkWsConfig {
  ws_base : Base;
  ws_jwks_url : string;
  ws_jwks_refresh : Z;
  ws_issuer : string;
  ws_audience : string;
  ws_redis : string;
  MessagingURL : string;
  ws_buffer : Z;
  ws_presence_ttl : Z;
  AllowedOrigins : list string
}.

Definition Load : ws_config :=
  let base := LoadBase in
  mkWsConfig base
    (Get "GATEWAY_JWKS_URL" "http://auth:8080/.well-known/jwks.json")
    (GetDuration "GATEWAY_JWKS_REFRESH" 900000000000)
    (Get "JWT_ISSUER" "https://auth.aizorix.com") (Get "JWT_AUDIENCE" "aizorix")
    (Get "REDIS_ADDR" (RedisAddr base)) (Get "MESSAGING_URL" "http://messaging:8080")
    (GetInt "WS_SEND_BUFFER" 64) (GetDuration "WS_PRESENCE_TTL" 90000000000)
    (config_splitNonEmpty (Get "WS_ALLOWED_ORIGINS" "")).
End Settings.

(** The hub that main builds; a negative buffer makes [make] panic. *)
Definition ws_hub (cfg : ws_config) : hub_config :=
  mkHubConfig (Z.to_nat (ws_buffer cfg)) (ws_presence_ttl cfg) (negb (String.eqb (ws_redis cfg) "")).

(** ** The verifier *)

Section Verifier.
Context `{Jwt}.

(** refresh: the answer of the JWKS endpoint, its status and parsed body. A
    failure keeps the keys; the answer says whether it succeeded. *)
Definition refresh (cfg : ws_config) (answer : option (Z * option json)) (v : VerifierConfig) : VerifierConfig * bool :=
  match answer with
  | Some (200, Some doc) =>
      match ParseJWKS doc with
      | Some ks => (mkVerifier ks (ws_issuer cfg) (ws_audience cfg), true)
      | None => (v, false)
      end
  | _ => (v, false)
  end.

(** NewVerifier: the first fetch must succeed. *)
Definition NewVerifier (cfg : ws_config) (answer : option (Z * option json)) : option VerifierConfig :=
  match refresh cfg answer (mkVerifier [] (ws_issuer cfg) (ws_audience cfg)) with
  | (v, true) => Some v
  | (_, false) => None
  end.

(** Run: a refresh per tick. *)
Definition Run (cfg : ws_config) (answers : list (option (Z * option json))) (v : VerifierConfig) : VerifierConfig :=
  fold_left (fun v a => fst (refresh cfg a v)) answers v.

(** ** The endpoints *)

Record ws_request := mkWsRequest {
  ws_Authorization : string;
  ws_Origin : string;
  ws_query : string -> string;
  ws_handshake : bool          (* what else the upgrader asks of the handshake *)
}.

Definition bearerToken (r : ws_request) : string :=
  let h := ws_Authorization r in
  if String.prefix "Bearer " h then trim_space (drop_bytes 7 h) else ws_query r "token".

Definition authenticate (v : VerifierConfig) (now : Z) (r : ws_request) : option string :=
  let raw := bearerToken r in
  if String.eqb raw "" then None else option_map cl_UserID (Verify v now raw).

Definition checkOrigin (cfg : ws_config) (r : ws_request) : bool :=
  existsb (fun allowed => String.eqb allowed "*" || String.eqb (ws_Origin r) allowed) (AllowedOrigins cfg).

Inductive ws_reply :=
| Unauthorized
| UpgradeFailed
| Serving (u : string).     (* h.Serve for the user *)

Definition serveWS (cfg : ws_config) (v : VerifierConfig) (now : Z) (r : ws_request) : ws_reply :=
  match authenticate v now r with
  | None => Unauthorized
  | Some u => if checkOrigin cfg r && ws_handshake r then Serving u else UpgradeFailed
  end.

(** A request that arrives at replica [r]. *)
Definition upgrade (cfg : ws_config) (v : VerifierConfig) (now : Z) (r : nat) (q : ws_request) (f : fabric) : option fabric :=
  match serveWS cfg v now q with
  | Serving u => next (ws_hub cfg) (Connect r u) f
  | _ => None
  end.

Definition splitNonEmpty (s : string) : list string :=
  if String.eqb s "" then [] else List.filter (fun t => negb (String.eqb t "")) (map trim_space (Strings.split "," s)).

(** The members of the answer, with the keys in order. *)
Definition presence_json (m : gmap string bool) : json :=
  JObj [("presence", JObj (map (fun kv => (fst kv, JBool (snd kv))) (map_to_list m)))].

Definition presence (cfg : ws_config) (v : VerifierConfig) (now : Z) (redis_ok : bool) (q : ws_request) (f : fabric) : response :=
  match authenticate v now q with
  | None => writeErr 401 "UNAUTHORIZED" "invalid or missing token"
  | Some _ =>
      match splitNonEmpty (ws_query q "user_ids") with
      | [] => writeErr 400 "VALIDATION_FAILED" "user_ids query param required"
      | ids =>
          match Online (ws_hub cfg) redis_ok ids f with
          | None => writeErr 500 "INTERNAL" "presence lookup failed"
          | Some m => writeJSON 200 (presence_json m)
          end
      end
  end.

(** * Properties *)

(** Every connection the hub gets comes from an upgrade whose token was
    signed with a key of the current set and has not expired, stands for the user
    the token names, and carries an allowed origin; an empty allow-list lets
    nobody in. *)
Theorem sockets_are_authenticated cfg v now r q f f' :
  upgrade cfg v now r q f = Some f' ->
  exists raw c kid key, bearerToken q = raw /\ key_of kid (keys v) = Some key /\ Signed key kid raw c /\
    seconds now < ExpiresAt c /\ next (ws_hub cfg) (Connect r (cl_UserID c)) f = Some f' /\
    exists allowed, In allowed (AllowedOrigins cfg) /\ (allowed = "*" \/ allowed = ws_Origin q).
Proof.
  unfold upgrade, serveWS, authenticate. destruct (String.eqb (bearerToken q) ""); [done|].
  destruct (Verify v now (bearerToken q)) as [c|] eqn:E; [|done]. cbn [option_map].
  destruct (checkOrigin cfg q) eqn:O; [|done]. destruct (ws_handshake q); [|done]. cbn [andb]. intros N.
  destruct (Verify_signed v now _ c E) as (kid & key & K & S & X).
  exists (bearerToken q), c, kid, key. do 5 (split; [done|]).
  unfold checkOrigin in O. apply existsb_exists in O. destruct O as (a & Ha & Ho). exists a. split; [done|].
  apply orb_true_iff in Ho. destruct Ho as [Ho%String.eqb_eq|Ho%String.eqb_eq]; [by left|by right].
Qed.

(** The running verifier holds the keys of the last JWKS document that was
    fetched and parsed; failures in between, of any kind, change nothing. *)
Theorem verifier_keeps_last_good_keys cfg answers v :
  Run cfg answers v =
  match last (omap (fun a => match a with Some (200, Some doc) => ParseJWKS doc | _ => None end) answers) with
  | Some ks => mkVerifier ks (ws_issuer cfg) (ws_audience cfg)
  | None => v
  end.
Proof.
  unfold Run. induction answers as [|a answers IH] using rev_ind; [done|].
  rewrite fold_left_app, IH, omap_app, last_app. cbn [fold_left].
  set (good := fun a : option (Z * option json) => match a with Some (200, Some doc) => ParseJWKS doc | _ => None end).
  set (w := match last (omap good answers) with Some ks => _ | None => v end).
  assert (forall x, fst (refresh cfg a x) = match good a with Some ks => mkVerifier ks (ws_issuer cfg) (ws_audience cfg) | None => x end) as R.
  { intros x. unfold refresh, good. repeat (case_match; try done). }
  rewrite R. cbn [omap list_omap]. by destruct (good a).
Qed.
End Verifier.

(** ** The scanner of the configuration *)

Fixpoint without (c : Ascii.ascii) (s : string) : bool :=
  match s with EmptyString => true | String a s' => negb (Ascii.eqb a c) && without c s' end.

Lemma without_snoc c s a : without c (s ++ String a "") = without c s && negb (Ascii.eqb a c).
Proof.
  induction s as [|b s IH]; [exact (andb_true_r (negb (Ascii.eqb a c)))|]. change (without c (String b s ++ String a "")) with (negb (Ascii.eqb b c) && without c (s ++ String a "")).
  rewrite IH. cbn. by rewrite andb_assoc.
Qed.

Lemma split_without c cur rest : without c cur = true ->
  Strings.split c (cur ++ rest) = match Strings.split c rest with x :: l => (cur ++ x)%string :: l | [] => [cur] end.
Proof.
  induction cur as [|a cur IH]; [intros _; cbn; by destruct (Strings.split c rest) eqn:E; [destruct rest; cbn in E; repeat case_match|]|].
  cbn [without]. intros [A W]%andb_true_iff. change (Strings.split c (String a cur ++ rest)) with (Strings.split c (String a (cur ++ rest))).
  cbn [Strings.split]. apply negb_true_iff in A. rewrite A, (IH W). by destruct (Strings.split c rest).
Qed.

Lemma get_at a c b : String.get (String.length a) (a ++ String c b) = Some c.
Proof. induction a as [|x a IH]; [done|exact IH]. Qed.

Definition texts (l : list string) : list string :=
  List.filter (fun t => negb (String.eqb t "")) (map trim_blanks l).

Lemma texts_cons t l : texts (t :: l) = texts [t] ++ texts l.
Proof. unfold texts. cbn. by destruct (negb _). Qed.

Lemma kept_part t out :
  (if String.eqb (trim_blanks t) "" then out else out ++ [trim_blanks t]) = out ++ texts [t].
Proof. unfold texts. cbn. destruct (String.eqb _ _); cbn; [by rewrite app_nil_r|done]. Qed.

Lemma split_nonempty c s : Strings.split c s <> [].
Proof. destruct s; cbn; repeat case_match; done. Qed.

Lemma split_scan_spec rest pre cur out : without "," cur = true ->
  split_scan (pre ++ cur ++ rest) (S (String.length rest)) (String.length pre + String.length cur) (String.length pre) out =
  out ++ texts (Strings.split "," (cur ++ rest)).
Proof.
  revert pre cur out. induction rest as [|a rest IH]; intros pre cur out W.
  - cbn [String.length split_scan]. rewrite !string_length_app. cbn [String.length].
    replace (String.length pre + String.length cur =? String.length pre + (String.length cur + 0))%nat with true
      by (symmetry; apply Nat.eqb_eq; lia).
    cbn [orb]. rewrite (Nat.add_comm (String.length pre)), Nat.add_sub, substring_app, kept_part, string_app_nil_r.
    rewrite <- (string_app_nil_r cur) at 2. rewrite split_without by done. cbn [Strings.split]. by rewrite string_app_nil_r.
  - assert (comma_at (pre ++ cur ++ String a rest) (String.length pre + String.length cur) = Ascii.eqb a ",") as C.
    { unfold comma_at. rewrite string_app_assoc, <- string_length_app, get_at. done. }
    cbn [String.length]. remember (S (String.length rest)) as n eqn:En. cbn [split_scan]. rewrite C.
    replace (String.length pre + String.length cur =? String.length (pre ++ cur ++ String a rest))%nat with false
      by (symmetry; apply Nat.eqb_neq; rewrite !string_length_app; cbn [String.length]; lia).
    cbn [orb]. rewrite split_without by done. destruct (Ascii.eqb a ",") eqn:A.
    + rewrite (Nat.add_comm (String.length pre)), Nat.add_sub, substring_app, kept_part. apply Ascii.eqb_eq in A. subst a.
      replace (pre ++ cur ++ String "," rest)%string with ((pre ++ cur ++ ",") ++ "" ++ rest)%string
        by (rewrite <- !string_app_assoc; done).
      assert (S (String.length cur + String.length pre) = String.length (pre ++ cur ++ ","))%nat as E.
      { rewrite !string_length_app. cbn [String.length]. lia. }
      rewrite E. pose proof (IH (pre ++ cur ++ ",")%string "" (out ++ texts [cur]) eq_refl) as R.
      
      cbn [String.length] in R. rewrite Nat.add_0_r in R. rewrite R. cbn [Strings.split]. rewrite Ascii.eqb_refl.
      change ("" ++ rest)%string with rest. pose proof (split_nonempty "," rest) as N.
      destruct (Strings.split "," rest) as [|x l]; [done|].
      rewrite string_app_nil_r, (texts_cons cur (x :: l)).
      by rewrite app_assoc.
    + replace (pre ++ cur ++ String a rest)%string with (pre ++ (cur ++ String a "") ++ rest)%string
        by (rewrite <- !string_app_assoc; done).
      replace (S (String.length pre + String.length cur)) with (String.length pre + String.length (cur ++ String a ""))%nat
        by (rewrite string_length_app; cbn [String.length]; lia).
      rewrite IH by (rewrite without_snoc, W, A; done). rewrite split_without by (rewrite without_snoc, W, A; done).
      cbn [Strings.split]. rewrite A. pose proof (split_nonempty "," rest) as N. destruct (Strings.split "," rest); [done|].
      by rewrite <- string_app_assoc.
Qed.

(** The scanner of the allow-list computes the entries between the commas,
    trimmed of blanks, the empty ones left out. *)
Theorem allowed_origins_split s :
  config_splitNonEmpty s = List.filter (fun t => negb (String.eqb t "")) (map trim_blanks (Strings.split "," s)).
Proof.
  unfold config_splitNonEmpty. destruct (String.eqb_spec s "") as [->|]; [done|].
  exact (split_scan_spec s "" "" [] eq_refl).
Qed.

(** ** Demonstration *)

#[local] Existing Instance AuthSpec.toy_jwt.

Definition demo_getenv (key : string) : option string :=
  if String.eqb key "WS_ALLOWED_ORIGINS" then Some "https://app.aizorix.com, http://localhost:3000 ,," else None.
Definition demo_ws : ws_config := Load demo_getenv (fun _ => None).

Example demo_origins : AllowedOrigins demo_ws = ["https://app.aizorix.com"; "http://localhost:3000"].
Proof. vm_compute. reflexivity. Qed.

Definition demo_upgrade : ws_request :=
  mkWsRequest ("Bearer " ++ AuthService.AccessToken AuthProofs.second_tokens) "http://localhost:3000" (fun _ => "") true.

Lemma sockets_are_authenticated_witness :
  exists f' raw c kid key, upgrade demo_ws AuthProofs.demo_verifier 6000 0 demo_upgrade start = Some f' /\
    bearerToken demo_upgrade = raw /\ key_of kid (keys AuthProofs.demo_verifier) = Some key /\ Signed key kid raw c.
Proof.
  destruct (upgrade demo_ws AuthProofs.demo_verifier 6000 0 demo_upgrade start) as [f'|] eqn:E.
  - destruct (sockets_are_authenticated _ _ _ _ _ _ _ E) as (raw & c & kid & key & B & K & S & _).
    exists f', raw, c, kid, key. split; [reflexivity|]. split; [exact B|]. split; [exact K|exact S].
  - exfalso. apply (f_equal (fun o => match o with Some _ => true | None => false end)) in E. vm_compute in E. discriminate E.
Defined.

(** Without an allow-list nobody connects, whatever the token. *)
Example default_deny : forall v now r f q, upgrade (Load (fun _ => None) (fun _ => None)) v now r q f = None.
Proof. intros. unfold upgrade, serveWS. by destruct (authenticate v now q). Qed.

(** A bearer header with nothing in it hides the token of the query. *)
Example blank_bearer_hides_query :
  bearerToken (mkWsRequest "Bearer  " "" (fun _ => "tok") true) = "" /\
  bearerToken (mkWsRequest "bearer abc" "" (fun _ => "tok") true) = "tok".
Proof. vm_compute. done. Qed.
