(* ===== verification/Platform.v ===== *)
(** * Across the platform

    A request through auth, gateway and project service: the identity that auth
    signs and the gateway injects is what the project service decides by; what
    the gateway lets through to the user and messaging services.  The events of
    the services at the notification and search services: whom each tells what,
    and what is indexed.  And live chat: the WebSocket gateway with the
    messaging service as its authority. *)
From stdpp Require Import gmap relations.
From S2P Require Import Edge.
From S2P Require Search WsProofs MessagingProofs UserProofs ProjectProofs Marketplace ReviewProofs NotifyStore ProposalService ContractService PaymentService EscrowRules TrackingStore.

(** What an upstream's handlers see of a forwarded request. *)
Definition upstream_request (hs : Edge.headers) (id : string) (q : string -> string) (b : option json) : request :=
  Request (fun h => get h hs) (fun _ => id) q (match b with None => 0 | Some _ => 100 end) b None.

Section Platform.
Context `{Jwt} `{Argon2} `{PgErrorText} `{PgInet} `{ProjectStore.TextSearch} (cfg : Config).
Context (router : list upstreamProxy) (limiter : Limiter) (e : edge_env).

(** A client whose tokens come from a refresh cannot post a project: the token
    carries no account type, so the gateway injects an empty one, and the
    project service refuses whatever the body says. *)
Lemma refreshed_client_cannot_post raw ip ua toks ev d n w v r u s b pev pd pn :
  auth_reachable cfg d -> Refresh cfg raw ip ua ev (rest d n) = (Ok toks, w) -> trusts cfg v ->
  AccessToken toks <> "" -> trim_space (AccessToken toks) = AccessToken toks -> tk_UserID toks <> "" ->
  in_headers r "Authorization" = ["Bearer " ++ AccessToken toks]%string -> in_headers r "Connection" = [] ->
  isPublic r = false -> disabled limiter = true -> match_ router (in_path r) = Some u ->
  exists t, forall now, seconds t <= seconds now < seconds (t + accessTTL (cf_issuer cfg)) ->
  exists hs, proxyPipeline router limiter e (Verify v now) r s = (Forward u hs, s) /\
    fst (ProjectProofs.serve ProjectProofs.CreateR (upstream_request hs "" (fun _ => "") b) pev (rest pd pn)) =
    Ok (writeErr 403 "FORBIDDEN" "only client accounts may post projects").
Proof.
  intros Hd%auth_reachable_inv HR Hv Hne Htrim Hu Hauth Hconn Hpub Hlim Hroute.
  pose proof (refresh_names cfg raw ip ua toks ev d n w Hd HR) as Hn.
  destruct (carries_holder cfg router limiter e _ _ _ _ v r s u Hn Hv (conj Hne Htrim) Hauth Hconn Hpub Hlim Hroute)
    as (t & Ht).
  exists t. intros now Hnow. destruct (Ht now Hnow) as (hs & Hp & Hid & _ & Hact). exists hs. split; [done|].
  rewrite (ProjectProofs.no_account_type_no_project (upstream_request hs "" (fun _ => "") b) pev pd pn); [done| |];
    cbn [upstream_request header]; unfold get.
  - by rewrite Hid.
  - by rewrite Hact.
Qed.
End Platform.

(** ** What the gateway lets through *)

(** The header that the user service takes for the mark of an internal service
    is none of those the gateway strips. *)
Lemma internal_header_passes verify router limiter e r s u hs s' :
  proxyPipeline router limiter e verify r s = (Forward u hs, s') -> in_headers r "Connection" = [] ->
  hs "X-Internal-Service" = in_headers r "X-Internal-Service".
Proof.
  intros HP HC. apply pipeline_forward in HP.
  assert (forall hs0, hs0 "Connection" = [] -> hs0 "X-Internal-Service" = in_headers r "X-Internal-Service" ->
    forwarded_headers (with_headers hs0 r) "X-Internal-Service" = in_headers r "X-Internal-Service") as Hf.
  { intros hs0 H1 H2. unfold forwarded_headers. cbn [with_headers in_headers in_remote].
    assert (outbound_headers hs0 "X-Internal-Service" = in_headers r "X-Internal-Service") as Ho
      by (unfold outbound_headers, connection_names; rewrite fold_del, H1; exact H2).
    by destruct (split_host (in_remote r)). }
  assert (forall hs0 h, h = "Connection" \/ h = "X-Internal-Service" -> StripTrustedHeaders hs0 h = hs0 h) as Hs.
  { intros hs0 h [->| ->]; apply stripped_other; cbn; intuition discriminate. }
  destruct HP as [[_ ->]|(raw & c & _ & _ & ->)]; apply Hf; cbn [injectIdentity set_]; rewrite ?Hs; auto.
Qed.

(** So a user verifies himself through the gateway: the decision is carried out
    as if the KYC provider had sent it. *)
Lemma verified_through_the_gateway `{Collation} `{UserStore.Numeric41} verify router limiter e r s u hs s' caller mark ev d n :
  proxyPipeline router limiter e verify r s = (Forward u hs, s') -> in_headers r "Connection" = [] ->
  in_headers r "X-Internal-Service" = [mark] -> mark <> "" -> hs "X-User-Id" = [caller] -> caller <> "" ->
  UserProofs.after_route UserProofs.KycR (upstream_request hs caller (fun _ => "") (Some UserProofs.verdict)) ev d n =
  UserProofs.user_after (UserProofs.UsKYC caller "verified" "" "") ev d n.
Proof.
  intros HP HC HI Hm Hid Hc. pose proof (internal_header_passes _ _ _ _ _ _ _ _ _ HP HC) as HX. rewrite HI in HX.
  set (q := upstream_request _ _ _ _).
  assert (header q "X-User-Id" = caller) as Eu by (unfold q; cbn [upstream_request header]; unfold get; by rewrite Hid).
  assert (header q "X-Internal-Service" = mark) as Em by (unfold q; cbn [upstream_request header]; unfold get; by rewrite HX).
  assert (wp (UserProofs.serve UserProofs.KycR q) ev (rest d n) (fun _ w =>
    committed w = UserProofs.user_after (UserProofs.UsKYC caller "verified" "" "") ev d n)) as HW; [|exact HW].
  cbn [UserProofs.serve]. unfold UserProofs.setKYCStatus. cbv zeta.
  change (Rbac.UserID (UserProofs.principal q)) with (header q "X-User-Id"). rewrite Eu, Em.
  rewrite (proj2 (String.eqb_neq caller "") Hc), (proj2 (String.eqb_neq mark "") Hm). cbn [negb andb].
  apply wp_bind_ok. unfold Http.decode. cbn [q upstream_request body members]. apply wp_ret.
  apply (Gateway.wp_service (fun d' => d' = UserProofs.user_after (UserProofs.UsKYC caller "verified" "" "") ev d n)); [|intros; by apply wp_ret].
  reflexivity.
Qed.

(** No path of the messaging service is routed: the gateway knows it under
    prefixes that the service does not serve. *)
Lemma messaging_is_unreachable base path : match_ (NewRouter (upstreams_of base)) ("/v1/messaging" ++ path) = None.
Proof.
  unfold NewRouter. set (ups := upstreams_of base).
  assert (List.Forall (fun u => matchPrefix ("/v1/messaging" ++ path) (up_prefix u) = false) ups) as HU.
  { subst ups. unfold upstreams_of, by_length, routingTable. cbn. repeat constructor. }
  assert (forall l, List.Forall (fun u => matchPrefix ("/v1/messaging" ++ path) (up_prefix u) = false) l ->
    match_ l ("/v1/messaging" ++ path) = None) as Hm.
  { unfold match_. induction 1 as [|u l E _ IH]; [done|]. cbn [List.find]. by rewrite E. }
  destruct (List.last _ _); apply Hm; [done|by constructor].
Qed.

Definition members_of (e : Event) : list (string * json) := match Payload e with JObj o => o | _ => [] end.

(** ** What is searched *)

(** The profile event of a freelancer puts him into the index or takes him out,
    as his profile says; that of a client does nothing.  The document has none
    of the fields in which a search of freelancers looks. *)
Lemma profile_events_are_routed u completeness searchable :
  u <> "" ->
  Search.route "profile.updated" (members_of (UserStore.profile_event u completeness searchable)) =
    Search.mkAction (if searchable then Search.opIndex else Search.opDelete) "freelancer" u /\
  Search.route "profile.updated" (members_of (UserStore.client_event u)) = Search.ignored /\
  Forall (fun k => Kafka.member k (members_of (UserStore.profile_event u completeness searchable)) = None)
    ["headline"; "bio"; "skills"].
Proof.
  intros N. split; [|split; [reflexivity|repeat constructor]]. unfold Search.route. cbn.
  apply String.eqb_neq in N as ->. by destruct searchable.
Qed.

(** ** Who is told what *)

(** The recipient and the title of the notification of an event, if it has a
    recipient. *)
Definition told_of (e : Event) : option (string * string) :=
  let u := NotifyStore.recipient (members_of e) in
  if String.eqb u "" then None else Some (u, fst (NotifyStore.notificationCopy (EventType e) (members_of e))).

(** The author of a proposal is told that he received it, and that it was
    withdrawn; the client who shortlists is told that he was shortlisted; the
    payer, that he received a payment. *)
Lemma events_tell_the_wrong_party id i u p :
  ProposalService.si_FreelancerID i <> "" -> u <> "" -> PaymentStore.p_PayerID p <> "" ->
  told_of (ProposalService.submitted_event id i) = Some (ProposalService.si_FreelancerID i, "New proposal received") /\
  told_of (ProposalService.withdrawn_event id u) = Some (u, "Proposal withdrawn") /\
  told_of (ProposalService.shortlisted_event id u) = Some (u, "You were shortlisted") /\
  told_of (PaymentService.captured_event p) = Some (PaymentStore.p_PayerID p, "Payment received").
Proof.
  intros H1 H2 H3.
  unfold told_of, members_of, ProposalService.submitted_event, ProposalService.withdrawn_event,
    ProposalService.shortlisted_event, PaymentService.captured_event. cbn [Payload EventType].
  destruct (ProposalService.si_FreelancerID i); [done|]. destruct u; [done|]. destruct (PaymentStore.p_PayerID p); [done|].
  repeat split; reflexivity.
Qed.

(** Nobody is told of a dispute, of a closed work session, of suspicious
    activity, or of money moving in escrow. *)
Lemma events_tell_nobody contract dispute raised against sid week active avg i r e c a reason m w :
  told_of (ContractService.disputed_event contract dispute raised against) = None /\
  told_of (TrackingStore.closed_event sid contract week active avg) = None /\
  told_of (TrackingStore.suspicious_event i r) = None /\
  told_of (EscrowRules.funded_event e c a) = None /\
  told_of (EscrowRules.released_event e m w a) = None /\
  told_of (EscrowRules.refunded_event e a reason) = None.
Proof. repeat split; try reflexivity. by destruct m, w. Qed.

(** ** Reviews of real contracts *)

(** No operation of the contract service completes a contract. So with the
    contract service on its network, over tables that may change between two
    requests, the review service never stores a review. *)
Lemma no_review_is_ever_written cbase cdbs cevs net pbase closes d :
  (forall k, ContractProofs.contract_reachable net pbase (cdbs k)) ->
  ReviewProofs.review_reachable (Marketplace.contract_server cbase cdbs cevs) cbase closes d -> ReviewStore.reviews d = [].
Proof.
  intros HC HR. destruct (ReviewStore.reviews d) as [|r l] eqn:E; [done|]. exfalso.
  destruct (ReviewProofs.reviews_by_parties _ _ _ _ HR r) as (_ & p & HV & HS & _); [rewrite E; by left|].
  destruct (Marketplace.vouched_stored _ _ _ _ _ HV) as (k & c & HF & _ & HSt). rewrite HS in HSt.
  apply find_key_In in HF as [HIn _].
  destruct (ContractInv.timeline_status _ _ _ (ContractInv.cinv_timeline _ (ContractProofs.creachable_inv _ _ _ (HC k))) HIn)
    as [X|[X|[X|[]]]]; by rewrite <- HSt in X.
Qed.

(** ** Live chat

    The WebSocket gateway with the messaging service behind it.  The gateway
    puts the conversation's id into the URL of the membership call as the client
    sent it (persist.go), so the id decides which route is called and for which
    conversation. *)

(** The characters that neither a URL nor a header changes. *)
Definition plain_char (x : Ascii.ascii) : bool :=
  let n := nat_of_ascii x in
  ((48 <=? n) && (n <=? 57) || (65 <=? n) && (n <=? 90) || (97 <=? n) && (n <=? 122) || (n =? 45) || (n =? 95))%nat.

(** Identifiers made of them, as the UUIDs of conversations and users are. *)
Definition plain_id (s : string) : bool := negb (String.eqb s "") && forallb plain_char (String.list_ascii_of_string s).

(** Those that a URL is cut at, and no escapes. *)
Definition url_char (x : Ascii.ascii) : bool := plain_char x || existsb (Ascii.eqb x) ["/"; "?"; "#"]%char.

Definition until (c : Ascii.ascii) (s : string) : string := match split2 c s with Some (x, _) => x | None => s end.

(** The conversation whose membership the call for [conv] asks about: the path is
    the URL up to the fragment and the query, and the router takes the id from
    its segments.  [None] when the URL is for another route, or has characters
    that would be escaped. *)
Definition asked (conv : string) : option string :=
  if forallb url_char (String.list_ascii_of_string conv) then
    match Strings.split "/" (until "?" (until "#" (WsHub.membership_url "" conv))) with
    | [root; v; api; cs; id; route] =>
        if forallb (fun xy => String.eqb (fst xy) (snd xy))
             [(root, ""); (v, "v1"); (api, "messaging"); (cs, "conversations"); (route, "membership")]
           && negb (String.eqb id "") then Some id else None
    | _ => None
    end
  else None.

Definition membership_request (id u : string) : request :=
  Request (fun h => if String.eqb h "X-User-Id" then u else "") (fun _ => id) (fun _ => "") 0 None None.

(** A membership call runs the service's handler on its tables as they are then;
    where [asked] does not say which conversation, any answer may come. *)
Definition membership_answered (f : WsHub.fabric) (d : MessagingStore.messaging_db) (l : WsHub.label) : Prop :=
  match l with
  | WsHub.Pump c x =>
      forall k conv others id, WsHub.f_conns f !! c = Some k -> WsHub.c_todo k = WsHub.Authorize c conv :: others ->
      asked conv = Some id -> plain_id (WsHub.c_userID k) = true ->
      WsHub.a_http x = None \/
      exists ev n, WsHub.a_http x = Gateway.answer_of (fst (MessagingProofs.serve MessagingProofs.MembershipC
                                (membership_request id (WsHub.c_userID k)) ev (rest d n)))
  | _ => True
  end.

Lemma plain_list s x : plain_id s = true -> In x (String.list_ascii_of_string s) -> plain_char x = true.
Proof. intros [_ Hf]%andb_true_iff. rewrite forallb_forall in Hf. apply Hf. Qed.

Lemma split2_absent c s : ~ In c (String.list_ascii_of_string s) -> split2 c s = None.
Proof.
  induction s as [|x s IH]; [done|]. cbn. intros N. destruct (Ascii.eqb_spec x c) as [->|_]; [by exfalso; auto|].
  rewrite IH; [done|]. intros ?. by apply N; right.
Qed.

(** A plain id asks about its own conversation. *)
Lemma asked_plain conv : plain_id conv = true -> asked conv = Some conv.
Proof.
  intros P. pose proof (plain_list conv) as H. unfold asked.
  assert (forallb url_char (String.list_ascii_of_string conv) = true) as ->.
  { apply forallb_forall. intros x Hx. unfold url_char. by rewrite (H x P Hx). }
  assert (forall c, plain_char c = false -> ~ In c (String.list_ascii_of_string (conv ++ "/membership")) \/ In c (String.list_ascii_of_string "/membership")) as Hc.
  { intros c Pc. destruct (in_dec Ascii.ascii_dec c (String.list_ascii_of_string "/membership")); [by right|left].
    rewrite chars_app, in_app_iff. intros [Hin|]; [|done]. by rewrite (H c P Hin) in Pc. }
  assert (forall c, c = "#"%char \/ c = "?"%char -> until c (WsHub.membership_url "" conv) = WsHub.membership_url "" conv) as Hu.
  { intros c Ec. unfold until. rewrite split2_absent; [done|]. unfold WsHub.membership_url.
    change ("" ++ "/v1/messaging/conversations/" ++ conv ++ "/membership")%string
      with ("/v1/messaging/conversations/" ++ (conv ++ "/membership"))%string.
    rewrite chars_app, in_app_iff. intros [Hin|Hin].
    - destruct Ec as [-> | ->]; cbn in Hin; intuition discriminate.
    - destruct (Hc c) as [N|N]; [by destruct Ec as [-> | ->]|done|]. destruct Ec as [-> | ->]; cbn in N; intuition discriminate. }
  rewrite !Hu by auto. unfold WsHub.membership_url.
  change (Strings.split "/" ("" ++ "/v1/messaging/conversations/" ++ conv ++ "/membership"))
    with (["" ; "v1"; "messaging"; "conversations"] ++ Strings.split "/" (conv ++ String "/" "membership")).
  rewrite split_sep by (intros x Hx ->; pose proof (H _ P Hx); done).
  cbn. apply andb_true_iff in P as [P _]. by rewrite P.
Qed.

Inductive chat_step (cfg : WsHub.hub_config) :
  WsHub.fabric * MessagingStore.messaging_db -> WsHub.fabric * MessagingStore.messaging_db -> Prop :=
| chat_hub l f f' d :
    WsHub.possible l -> membership_answered f d l -> WsHub.next cfg l f = Some f' -> chat_step cfg (f, d) (f', d)
| chat_messaging f d d' : MessagingProofs.messaging_step d d' -> chat_step cfg (f, d) (f, d').

Lemma confirmed_members conv u ev d n :
  WsHub.CheckMembership (Gateway.answer_of (fst (MessagingProofs.serve MessagingProofs.MembershipC
    (membership_request conv u) ev (rest d n)))) = Some true -> MessagingProofs.member_of conv u d.
Proof.
  assert (wp (MessagingProofs.serve MessagingProofs.MembershipC (membership_request conv u)) ev (rest d n) (fun a _ =>
    WsHub.CheckMembership (Gateway.answer_of a) = Some true -> MessagingProofs.member_of conv u d)) as HW; [|exact HW].
  cbn [MessagingProofs.serve]. unfold MessagingProofs.conversationMembership. cbn [membership_request header urlParam].
  rewrite String.eqb_refl. destruct (String.eqb u ""); [by apply wp_ret|].
  apply wp_bind_ok, wp_or_mapped. unfold MessagingStore.service_IsParticipant, MessagingStore.IsParticipant, MessagingStore.PoolQuerier.
  apply wp_pool_read with (a := existsb (MessagingStore.is_member conv u) (MessagingStore.participants d)); [done|done|].
  apply wp_ret. unfold MessagingProofs.member_of. by destruct (existsb _ _).
Qed.

(** C21: Live chat is as private as the conversations it belongs to: whatever the
    clients, the replicas, Redis and the messaging service do, in any order, a
    chat frame on its way to a connection, or sent to it, belongs to a
    conversation in which the messaging tables list the user as a participant.
    This is said of conversations and users with plain ids, as UUIDs are; under
    an id that bends the URL of the membership call a stranger does get in
    (joined_under_another_id), though no conversation of the tables has one. *)
Theorem live_chat_is_for_participants cfg f d c k b conv :
  rtc (chat_step cfg) (WsHub.start, MessagingProofs.no_conversations) (f, d) ->
  WsHub.f_conns f !! c = Some k -> b ∈ WsHub.c_send k ++ WsHub.c_wire k -> WsInv.chat_of b = Some conv ->
  plain_id conv = true -> plain_id (WsHub.c_userID k) = true ->
  MessagingProofs.member_of conv (WsHub.c_userID k) d.
Proof.
  intros R Ek Hb Hc Pc Pu. set (truth d conv u := plain_id conv = true -> plain_id u = true -> MessagingProofs.member_of conv u d).
  assert (WsInv.sound cfg f /\ WsInv.private f /\ WsProofs.all_true (truth d) f) as (_ & P & A).
  { change (let s := (f, d) in WsInv.sound cfg (fst s) /\ WsInv.private (fst s) /\
      WsProofs.all_true (truth (snd s)) (fst s)).
    clear Ek Hb Hc Pc Pu. revert R. generalize (f, d). refine (rtc_ind_r (fun s => let s := s in _) _ _ _); cbv zeta.
    2: intros s1 s2 _ S IH; destruct S as [l f1 f2 d1 O T E|f1 d1 d2 S].
    - split; [apply WsInv.start_sound|]. split; [by split|]. by intros conv' u Hin%not_elem_of_empty.
    - destruct IH as (S1 & P1 & A1). cbn [fst snd] in *. split; [by eapply WsInv.next_sound|]. split; [by eapply WsInv.next_private|].
      eapply WsProofs.next_all_true; [|done..]. destruct l as [| | | |c' x| | | | | | | |]; try done.
      intros k' conv' others Ek' Et' Ec Pc' Pu'.
      destruct (T k' conv' others conv' Ek' Et' (asked_plain _ Pc') Pu') as [Hn|(ev & n & Hn)]; rewrite Hn in Ec; [done|].
      by eapply confirmed_members.
    - destruct IH as (S1 & P1 & A1). cbn [fst snd] in *. split; [done|]. split; [done|].
      intros conv' u Hin Pc' Pu'. eapply MessagingProofs.members_stay; [done|]. by apply A1. }
  destruct (WsInv.pc_seen _ _ _ (WsInv.private_conns _ P c k Ek) b Hb conv Hc) as (u & Eu & Hin).
  unfold WsInv.user_of in Eu. rewrite Ek in Eu. injection Eu as <-. by apply (A _ _ Hin).
Qed.

(** Ann and Bob chat in the conversation that Ann opened; messaging answers the
    membership calls, each about the conversation that its URL asks for. *)
Definition answered (d : MessagingStore.messaging_db) (f : WsHub.fabric) (l : WsHub.label) : WsHub.label :=
  match l with
  | WsHub.Pump c x =>
      match WsHub.f_conns f !! c with
      | Some k =>
          match WsHub.c_todo k with
          | WsHub.Authorize _ conv :: _ =>
              match asked conv with
              | Some id => WsHub.Pump c (WsHub.mkAnswer (Gateway.answer_of (fst (MessagingProofs.serve MessagingProofs.MembershipC
                             (membership_request id (WsHub.c_userID k)) quiet_env (rest d 0))))
                             (WsHub.a_ok x) (WsHub.a_drop x) (WsHub.a_order x))
              | None => l
              end
          | _ => l
          end
      | None => l
      end
  | _ => l
  end.

Fixpoint chat_runs (cfg : WsHub.hub_config) (d : MessagingStore.messaging_db) (ls : list WsHub.label) (f : WsHub.fabric) : option WsHub.fabric :=
  match ls with
  | [] => Some f
  | l :: ls => match WsHub.next cfg (answered d f l) f with Some f => chat_runs cfg d ls f | None => None end
  end.

Lemma answered_answers d f l : WsHub.possible l -> WsHub.possible (answered d f l) /\ membership_answered f d (answered d f l).
Proof.
  destruct l as [| | | |c x| | | | | | | |]; try done. intros P. unfold answered.
  destruct (WsHub.f_conns f !! c) as [k|] eqn:Ek; [destruct (WsHub.c_todo k) as [|[] rest] eqn:Et|].
  all: try (split; [exact P|]; intros k' conv' others id Ek' Et'; congruence).
  destruct (asked _) as [id|] eqn:Ea; (split; [exact P|]); intros k' conv' others id' Ek' Et' Ea' _.
  all: rewrite Ek in Ek'; injection Ek' as <-; rewrite Et in Et'; injection Et' as -> -> _; rewrite Ea in Ea'; try done.
  injection Ea' as <-. right. by exists quiet_env, 0%nat.
Qed.

Lemma chat_runs_steps cfg d ls f f' : Forall WsHub.possible ls -> chat_runs cfg d ls f = Some f' ->
  rtc (chat_step cfg) (f, d) (f', d).
Proof.
  intros P. revert f. induction P as [|l ls Pl P IH]; intros f; cbn [chat_runs]; [by intros [= ->]; constructor|].
  destruct (WsHub.next cfg (answered d f l) f) as [g|] eqn:E; [|done]. intros R.
  eapply rtc_l; [|by apply IH]. destruct (answered_answers d f l Pl). by apply (chat_hub _ (answered d f l)).
Qed.

Definition live_chat : list WsHub.label :=
  WsProofs.boots 0 "ann" 0 ++ WsProofs.boots 0 "bob" 1 ++ WsProofs.joins 0 MessagingProofs.demo_conversation ++
  WsProofs.joins 1 MessagingProofs.demo_conversation ++
  WsProofs.sends 1 MessagingProofs.demo_conversation "hi" WsProofs.stored_answer ++ [WsHub.Arrive 0] ++
  repeat (WsHub.Fan 0 WsProofs.calm_answer) 3 ++ [WsHub.Write 0].

Definition live_frame : json :=
  WsHub.encode (WsHub.mkOutbound "message.sent" MessagingProofs.demo_conversation "m1" "bob" "hi" "" false "" "" "" 7).

Lemma live_chat_possible : Forall WsHub.possible live_chat.
Proof. apply WsProofs.all_possible. by repeat constructor. Qed.

Lemma live_chat_is_for_participants_witness :
  exists f k, chat_runs WsProofs.demo_hub MessagingProofs.opened_demo live_chat WsHub.start = Some f /\
    WsHub.f_conns f !! 0%nat = Some k /\ live_frame ∈ WsHub.c_wire k /\
    MessagingProofs.member_of MessagingProofs.demo_conversation (WsHub.c_userID k) MessagingProofs.opened_demo.
Proof.
  assert (exists f k b, chat_runs WsProofs.demo_hub MessagingProofs.opened_demo live_chat WsHub.start = Some f /\
    WsHub.f_conns f !! 0%nat = Some k /\ WsHub.c_userID k = "ann" /\ WsHub.c_send k = [] /\
    WsHub.c_wire k = [b; live_frame]) as (f & k & b & R & Ek & Eu & Es & Ew).
  { eexists _, _, _. split; [vm_compute; reflexivity|]. split; [vm_compute; reflexivity|].
    split; [vm_compute; reflexivity|]. split; vm_compute; reflexivity. }
  exists f, k. split; [exact R|]. split; [exact Ek|]. split; [rewrite Ew; right; left|].
  apply (live_chat_is_for_participants WsProofs.demo_hub f MessagingProofs.opened_demo 0 k live_frame).
  - etransitivity; [|exact (chat_runs_steps _ _ _ _ _ live_chat_possible R)].
    apply (rtc_congruence (fun d => (WsHub.start, d)) (R := MessagingProofs.messaging_step)).
    + intros d d' S. by constructor.
    + apply MessagingProofs.run_messaging_steps.
  - exact Ek.
  - rewrite Es, Ew. right. left.
  - vm_compute. reflexivity.
  - vm_compute. reflexivity.
  - rewrite Eu. vm_compute. reflexivity.
Defined.

(** The id is spliced into the URL unescaped: asked about it with a route and a
    query behind, messaging answers for Ann's own conversation, and she is joined
    under an id of which she is no participant, nor anybody. *)
Definition bent_id : string := MessagingProofs.demo_conversation ++ "/membership?x".

Example joined_under_another_id :
  asked bent_id = Some MessagingProofs.demo_conversation /\
  option_map (fun f => option_map WsHub.c_joined (WsHub.f_conns f !! 0%nat))
    (chat_runs WsProofs.demo_hub MessagingProofs.opened_demo (WsProofs.boots 0 "ann" 0 ++ WsProofs.joins 0 bent_id) WsHub.start)
  = Some (Some {[bent_id]}) /\
  existsb (MessagingStore.is_member bent_id "ann") (MessagingStore.participants MessagingProofs.opened_demo) = false.
Proof. split; [vm_compute; reflexivity|]. split; vm_compute; reflexivity. Qed.
